(* ===== verification/_CoqProject ===== *)
-Q . S2P
Prelude.v
Printf.v
Spinlock.v
Hoare.v
DList.v
Bitmap.v
Lru.v
Swap.v
Mem.v
Kalloc.v
Cpus.v
Apic.v
Vm.v
Segments.v
Kvm.v
Sleeplock.v
Block.v
Console.v
Kbd.v
Bio.v
Ide.v
Cache.v
Log.v
LogRes.v
Fs.v
FsBlocks.v
FsData.v
Boot.v
Mp.v
Mkfs.v
FsPath.v
Devsw.v
Pipe.v
Proc.v
Kernel.v
Paging.v
CopyUvm.v
PageFault.v
File.v
User.v
Process.v
Init.v
ExecStack.v
Syscall.v
FileInv.v
Shell.v
Umalloc.v
Programs.v
Commands.v
ShellRun.v
