(* ===== verification/Prelude.v ===== *)
(** * Verification of the demand-paging xv6 kernel

    ** The program

    src/ is xv6 for x86, extended with demand paging: [exec] maps nothing, a
    page fault loads a page of the program or allocates one, resident pages
    stand on a list (lru_swap.c), and when memory runs out the oldest page of
    the process is written to a swap area on the disk and read back by the next
    fault.  Around this extension are the parts of xv6: the page allocator
    and page tables, processes and locks, the buffer cache, the write-ahead
    log, the file system, pipes and open files, system calls and traps, and
    the user programs.

    ** How the model is built

    Code is translated function by function into a state monad with failure
    ([M], this file).  A result is [Ok] with a value and the new state, [Panic]
    with the message of panic(), [Fault] where the C has no defined behaviour
    (null dereference, index out of range), [Blocked] where the thread has to
    sleep, or [NoFuel].  C integers are [Z] with their wrap-around written out
    ([u32], [s32], [u16], [u8]); a pointer into an array of structures is its
    index, the null pointer is [None]; structures are records.  Kernel memory
    is a byte at each address, so free lists and page tables lie in the pages
    they describe.  A part runs on the state of a larger one through a lens
    ([zoom]).

    A loop whose recursion is not structural carries fuel: the length of the
    list it follows plus one (rings and lists of Lru, Swap, Bio), the number
    of pages, blocks or bytes of its range (Vm, Paging, Fs, Boot, Programs), the
    length of the line (Shell), or the number of polls until the hardware
    answers (Ide, Boot, Apic).  The theorems show that the function returns with
    the fuel its caller passes, or with any fuel above a stated bound, so
    [NoFuel] never stands for a result.  The one loop of the code that does not
    end is shown not to end for any fuel (Mp).

    ** The parts

    - Prelude: the monad, lenses, machine integers, lists.
    - Hoare: what a run leaves unchanged and what it establishes.
    - DList, Bitmap: linked rings in arrays, bitmaps of used slots.
    - Printf: printf.c and atoi of ulib.c.
    - Spinlock, Sleeplock: spinlock.c as a flag on one CPU, and sleeplock.c.
    - Cpus: spinlock.c on several CPUs, access by access, with the interrupt
      flag, and mycpu of proc.c.
    - Lru, Swap: lru_swap.c, the list of resident pages and the slots of the
      swap area.
    - Mem: memory, the macros of mmu.h and memlayout.h, string.c.
    - Kalloc, Vm: kalloc.c and vm.c over that memory.
    - Segments, Kvm: segment and gate descriptors (mmu.h), seginit, switchuvm
      and switchkvm of vm.c, tvinit and idtinit of trap.c; the kernel part of
      an address space, setupkvm, kvmalloc and inituvm of vm.c.
    - Apic, Mp: lapic.c, ioapic.c and picirq.c with the clock; mp.c.
    - Console, Kbd: console.c and uart.c, kbd.c and kbd.h.
    - Devsw: consoleread and consolewrite with the lock of their inode.
    - Block, Bio, Cache: fields of disk blocks, bio.c over an interface of
      disk drivers ([BlockDriver], met by memide.c), and the cache as its
      callers see it.
    - Ide, Boot: ide.c over an interface of disk controllers ([IdeDevice]), and
      bootmain.c, which reads the kernel through the same interface.
    - Log, LogRes: log.c, and the reservation of log space by concurrent
      system calls.
    - Fs, FsBlocks, FsData, FsPath: fs.c, its block allocator, the contents of
      files, and path names.
    - Mkfs: mkfs.c, which builds the image that the kernel boots on.
    - Pipe, File: pipe.c and file.c.
    - Proc, Kernel, Paging, CopyUvm, PageFault, Process, ExecStack, Init: proc.c,
      the state of the whole kernel, swapping, the memory of a child, the page
      fault handler of demandpage.c, fork, exit, wait and exec, the stack of a new
      program, and the first process.
    - User, Syscall, FileInv: syscall.c, sysfile.c, sysproc.c and trap.c, and
      the reference counts of open files over all of them.
    - Shell, ShellRun: the parser of sh.c, and its processes as trees of system
      calls run in any order.
    - Umalloc: umalloc.c.
    - Programs, Commands: cat.c, echo.c, wc.c, grep.c, ls.c, ln.c, mkdir.c,
      rm.c, kill.c and the rest of ulib.c.

    ** What the theorems show

    - Demand paging: after a page was written to the swap area and read back
      the program sees its memory as before ([swap_round_trip]); a full list of
      resident pages gives up its oldest page, on every branch of the code
      ([get_lru_evicts_oldest]); the first touch of a page of the program
      fills a free frame by the inode that [iget] returns
      ([pgflt_demand_load]), and a page outside the segment shows what the free
      page held ([pgflt_exposes_free_page]).  The list of resident pages is a
      queue ([lru_ops_refine_queue]).
    - Memory: the page allocator is a stack of free pages
      ([kmem_ops_refine_stack]); every address space shows the processor the
      kernel's layout and nothing of it to users ([setupkvm_maps_kernel]);
      fork copies the parent's memory ([copyuvm_copies_memory]); exec puts the
      arguments on the stack as main expects them ([exec_stack_image]); unmapping
      and freeing an address space return each page once.
    - Start: the boot loader brings the kernel into memory
      ([bootmain_loads_kernel]), the processors are found in the tables of the
      firmware ([mpinit_reads_table]), the kernel can be entered from user mode
      only through its gates ([user_entry_points]), and the first process runs
      the initial code in an address space of its own
      ([userinit_first_process]).
    - Locks: spin locks exclude each other on every interleaving of CPUs
      ([spin_locks_exclude]).
    - Disk: the buffer cache is a map of blocks ([bcache_refines_map]); the disk
      driver serves requests in order and wakes all that wait for it
      ([ide_refines_fifo]); a crash at any point
      of a commit leaves whole transactions ([commit_crash_safe]); reservation
      keeps the log from overflowing up to the one block the log area is short
      of.
    - Files: the allocator takes free blocks only; reading and writing are
      reading and writing of the byte sequence of the file, through direct and
      indirect blocks ([readi_contents], [writei_contents],
      [writei_readi_roundtrip]); the image of mkfs satisfies what the kernel
      relies on, and the kernel reads its files back ([mkfs_builds_fs],
      [mkfs_kernel_reads]).
    - Processes: the life cycle keeps the invariants of the process table on
      every interleaving of CPUs, and pids apart until they wrap around
      ([process_invariants]); pipes are queues that lose no wakeup, when ends
      are closed and processes killed too ([pipe_no_lost_wakeup]), and a write of
      any length is read whole ([pipe_write_completes]); every trap keeps the
      reference counts of open files ([trap_keeps_file_refs]).
    - Console: the keys of a US keyboard, line editing and output are those of a
      terminal
      ([console_refines_tty], [typed_line_is_read],
      [console_output_refines_terminal]).
    - Shell: parsing reads back every printed command
      ([parsecmd_print]), ends on every line and leaves proper strings; running
      a script starts its programs as the script says, and ends without a
      deadlock if programs read their standard input to the end
      ([shell_runs_plan], [shell_completes]).
    - User programs: malloc and free keep live blocks apart
      ([malloc_free_safe]); grep prints the lines that match
      ([grep_prints_matching_lines]).

    Theorems that state a defect say so in their comment.

    ** Not modelled

    Assembly (boot sector, kernel entry, trap entry, context switch, system call
    stubs) and with it the contexts and trap frames on kernel stacks, of which a
    process keeps the registers that the kernel uses.  main.c calls the
    initialisations in order and starts the other processors; the
    initialisations are modelled one by one, each on its own state.  uartinit
    only programs the serial port, procdump only prints.  The functions of devsw
    and, in trap, the handlers of device interrupts are parameters: the console,
    the keyboard and the disk have states of their own (Devsw, Kbd, Ide).  Kernel code runs on one CPU and up to the next sleep;
    interleavings are modelled where they carry the argument (Cpus, Proc, Pipe,
    LogRes, Ide, ShellRun).  init.c and zombie.c make a few system calls and have
    no state; usertests.c, forktest.c, stressfs.c and tests.c are tests. *)

From Stdlib Require Import ZArith Lia.
From stdpp Require Import base numbers strings option gmap sets list list_numbers.

#[global] Open Scope Z_scope.

(** * Outcomes of kernel code

    [Panic] is a call of [panic]; [Fault] is a use of a null or wild pointer
    or an array index out of range; [Blocked] is a call of [sleep] whose
    condition no other process makes true; [NoFuel] is reached only when a loop
    was given too small an iteration bound. *)
Inductive res (A : Type) : Type :=
| Ok (a : A)
| Panic (msg : string)
| Fault
| Blocked
| NoFuel.
Arguments Ok {A} a.
Arguments Panic {A} msg.
Arguments Fault {A}.
Arguments Blocked {A}.
Arguments NoFuel {A}.

(** * State and error monad *)
Definition M (S A : Type) : Type := S → res (A * S).

#[export] Instance M_ret S : MRet (M S) := λ A a s, Ok (a, s).
#[export] Instance M_bind S : MBind (M S) := λ A B f m s,
  match m s with
  | Ok (a, s') => f a s'
  | Panic e => Panic e
  | Fault => Fault
  | Blocked => Blocked
  | NoFuel => NoFuel
  end.

(** Read through a projection, update, abort. *)
Definition mget {S T} (f : S → T) : M S T := λ s, Ok (f s, s).
Definition mmod {S} (f : S → S) : M S unit := λ s, Ok (tt, f s).
Definition mpanic {S A} (msg : string) : M S A := λ _, Panic msg.
Definition mfault {S A} : M S A := λ _, Fault.
Definition mblock {S A} : M S A := λ _, Blocked.
Definition mnofuel {S A} : M S A := λ _, NoFuel.

(** An operation that may fail, with no state of its own. *)
Definition mopt {S A} (o : option A) : M S A :=
  match o with Some a => mret a | None => mfault end.

Lemma bind_Ok {S A B} (m : M S A) (f : A → M S B) s a s' :
  m s = Ok (a, s') → (m ≫= f) s = f a s'.
Proof. intros H. unfold mbind, M_bind. by rewrite H. Qed.

Lemma bind_Ok_inv {S A B} (m : M S A) (f : A → M S B) s b s'' :
  (m ≫= f) s = Ok (b, s'') → ∃ a s', m s = Ok (a, s') ∧ f a s' = Ok (b, s'').
Proof.
  unfold mbind, M_bind. destruct (m s) as [[a s']| | | |]; try discriminate. eauto.
Qed.

Lemma bind_assoc {S A B C} (m : M S A) (f : A → M S B) (g : B → M S C) s :
  ((m ≫= f) ≫= g) s = (m ≫= (λ a, f a ≫= g)) s.
Proof. unfold mbind, M_bind. by destruct (m s) as [[a s']| | | |]. Qed.

(** The value a run returns, when it returns. *)
Definition outcome {S A} (m : M S A) (s : S) : option A :=
  match m s with Ok (a, _) => Some a | _ => None end.

(** Unfolds the monad; matches on states that are known then reduce. *)
Ltac mred := cbv beta iota zeta delta
  [mbind M_bind mret M_ret mget mmod mpanic mfault mblock mnofuel mopt].
Tactic Notation "mred" "in" hyp(H) := cbv beta iota zeta delta
  [mbind M_bind mret M_ret mget mmod mpanic mfault mblock mnofuel mopt] in H.

(** * Lenses: a component's state inside a larger one *)
Record lens (S T : Type) : Type := Lens { view : S → T; put : T → S → S }.
Arguments Lens {S T} view put.
Arguments view {S T} l s.
Arguments put {S T} l t s.

Definition zoom {S T A} (l : lens S T) (m : M T A) : M S A := λ s,
  match m (view l s) with
  | Ok (a, t) => Ok (a, put l t s)
  | Panic e => Panic e
  | Fault => Fault
  | Blocked => Blocked
  | NoFuel => NoFuel
  end.

Lemma zoom_Ok {S T A} (l : lens S T) (m : M T A) s a t :
  m (view l s) = Ok (a, t) → zoom l m s = Ok (a, put l t s).
Proof. intros H. unfold zoom. by rewrite H. Qed.

Lemma zoom_bind {S T A B} (l : lens S T) (m : M T A) (f : A → M S B) s a t :
  m (view l s) = Ok (a, t) → (zoom l m ≫= f) s = f a (put l t s).
Proof. intros E. by rewrite (bind_Ok _ _ _ _ _ (zoom_Ok l m s a t E)). Qed.

(** One step of a part of the state, by its equation. *)
Ltac kstep E := erewrite zoom_bind by exact E; cbv beta iota.

(** A component of an element of an array; out of range is a [Fault]. *)
Definition zoom_at {S T U A} (arr : lens S (list T)) (i : nat) (l : lens T U) (m : M U A) : M S A := λ s,
  match view arr s !! i with
  | Some t =>
      match m (view l t) with
      | Ok (a, u) => Ok (a, put arr (<[i := put l u t]> (view arr s)) s)
      | Panic e => Panic e
      | Fault => Fault
      | Blocked => Blocked
      | NoFuel => NoFuel
      end
  | None => Fault
  end.

Lemma zoom_at_Ok {S T U A} (arr : lens S (list T)) i (l : lens T U) (m : M U A) s t a u :
  view arr s !! i = Some t → m (view l t) = Ok (a, u) →
  zoom_at arr i l m s = Ok (a, put arr (<[i := put l u t]> (view arr s)) s).
Proof. intros H1 H2. unfold zoom_at. by rewrite H1, H2. Qed.

Definition lens_id {S} : lens S S := Lens (λ s, s) (λ t _, t).

(** * Machine integers *)
Definition u32 (z : Z) : Z := z `mod` 2 ^ 32.
Definition s32 (z : Z) : Z := (z + 2 ^ 31) `mod` 2 ^ 32 - 2 ^ 31.
Definition u8 (z : Z) : Z := z `mod` 256.
Definition u16 (z : Z) : Z := z `mod` 65536.

Definition is_u32 (z : Z) : Prop := 0 ≤ z < 2 ^ 32.
Definition is_u8 (z : Z) : Prop := 0 ≤ z < 256.

Lemma u32_small z : 0 ≤ z < 2 ^ 32 → u32 z = z.
Proof. apply Z.mod_small. Qed.

Lemma u32_range z : is_u32 (u32 z).
Proof. apply Z.mod_pos_bound. lia. Qed.

Lemma s32_small z : - 2 ^ 31 ≤ z < 2 ^ 31 → s32 z = z.
Proof. intros. unfold s32. rewrite Z.mod_small; lia. Qed.

Lemma u8_small z : 0 ≤ z < 256 → u8 z = z.
Proof. apply Z.mod_small. Qed.

Create HintDb kernel.
#[export] Hint Resolve u32_range : kernel.

(** * Lists *)
Section lists.
  Context {A : Type}.
  Implicit Types (l : list A) (x : A).

Lemma last_cons_snoc x l : ∃ l0 z, x :: l = l0 ++ [z].
  Proof.
    destruct (exists_last (l := x :: l)) as (l0 & z & E); [done|]. eauto.
  Qed.

  (** The first element with a property, if any. *)
Lemma first_split (P : A → Prop) `{∀ x, Decision (P x)} l :
    (∃ l1 x l2, l = l1 ++ x :: l2 ∧ P x ∧ ∀ y, y ∈ l1 → ¬ P y) ∨ (∀ y, y ∈ l → ¬ P y).
  Proof.
    induction l as [|a l IH]; [right; set_solver|].
    destruct (decide (P a)) as [Ha|Ha].
    - left. exists [], a, l. set_solver.
    - destruct IH as [(l1 & x & l2 & -> & Hx & Hl)|IH]; [left|right; set_solver].
      exists (a :: l1), x, l2. set_solver.
  Qed.

Lemma NoDup_snoc l x : NoDup (l ++ [x]) ↔ x ∉ l ∧ NoDup l.
  Proof.
    rewrite (Permutation_app_comm l [x]). simpl. apply NoDup_cons.
  Qed.

Lemma find_ext (f g : A → bool) l : (∀ x, f x = g x) → List.find f l = List.find g l.
  Proof. intros E. induction l as [|x l IH]; simpl; [done|]. rewrite E. by destruct (g x). Qed.

Lemma find_elem (f : A → bool) l x : List.find f l = Some x → x ∈ l ∧ f x = true.
  Proof. intros [Hx Hf]%List.find_some. by rewrite list_elem_of_In. Qed.

Lemma find_absent (f : A → bool) l : List.find f l = None ↔ ∀ x, x ∈ l → f x = false.
  Proof.
    split.
    - intros E x Hx. apply (List.find_none f l E). by rewrite <-list_elem_of_In.
    - intros Hl. induction l as [|x l IH]; simpl; [done|]. rewrite Hl by left.
      apply IH. intros y Hy. apply Hl. by right.
  Qed.
End lists.

(** Among [n] slots, a duplicate-free list of fewer than [n] leaves one out. *)
Lemma exists_fresh (R : list nat) (n : nat) :
  (length R < n)%nat → ∃ i, (i < n)%nat ∧ i ∉ R.
Proof.
  intros Hlen. destruct (decide (Forall (λ i, i ∈ R) (seq 0 n))) as [HF|HF].
  - exfalso. assert (Hle : (length (seq 0 n) ≤ length R)%nat).
    { apply submseteq_length, NoDup_submseteq; [apply NoDup_seq|].
      intros i Hi. by apply (proj1 (Forall_forall _ _) HF). }
    rewrite length_seq in Hle. lia.
  - apply not_Forall_Exists in HF; [|apply _].
    apply Exists_exists in HF as (i & Hi & HR). exists i.
    apply elem_of_seq in Hi. split; [lia|done].
Qed.

(** A duplicate-free list of [n] slots below [n] is all of them. *)
Lemma all_slots (R : list nat) (n i : nat) :
  NoDup R → (∀ j, j ∈ R → j < n)%nat → (n ≤ length R)%nat → (i < n)%nat → i ∈ R.
Proof.
  intros Hnd Hb Hlen Hi. destruct (decide (i ∈ R)) as [|HR]; [done|exfalso].
  assert (Hle : (length (i :: R) ≤ length (seq 0 n))%nat).
  { apply submseteq_length, NoDup_submseteq; [by apply NoDup_cons|].
    intros j [->|Hj]%elem_of_cons; apply elem_of_seq; [lia|].
    specialize (Hb j Hj). lia. }
  rewrite length_seq in Hle. simpl in Hle. lia.
Qed.

(** A NUL-terminated string in a byte array. *)
Fixpoint cstr (l : list Z) : list Z :=
  match l with c :: l => if c =? 0 then [] else c :: cstr l | [] => [] end.

(** The string that ends at the first NUL after [l]. *)
Lemma cstr_app_nul l l' : Forall (λ c, c ≠ 0) l → cstr (l ++ 0 :: l') = l.
Proof. induction 1 as [|c l Hc _ IH]; simpl; [done|]. by rewrite (proj2 (Z.eqb_neq c 0) Hc), IH. Qed.

Lemma cstr_no_nul l : Forall (λ c, c ≠ 0) l → cstr l = l.
Proof. induction 1 as [|c l Hc _ IH]; simpl; [done|]. by rewrite (proj2 (Z.eqb_neq c 0) Hc), IH. Qed.
