(* ===== verification/Printf.v ===== *)
(** Formatted output and numerals: printf.c, [atoi] of ulib.c, and [printint]
    and [cprintf] of console.c.

    The text that a call prints is the list of the characters it passes to
    [putc] or [consputc].  An argument is the word on the stack; a word that
    points to a string is that string, [AStr None] the null pointer.  [None] is
    a write outside [buf], or a directive that finds no argument of its kind. *)

From Stdlib Require Import ZArith Lia Ascii String.
From stdpp Require Import base numbers strings option gmap sets list list_numbers.
From S2P Require Import Prelude.

Inductive arg := AInt (v : Z) | AStr (s : option (list Z)).

(** The characters of a string literal. *)
Definition chars (s : string) : list Z := (λ a, Z.of_N (Ascii.N_of_ascii a)) <$> list_ascii_of_string s.

(** * Integers *)

Definition upper : list Z := [48; 49; 50; 51; 52; 53; 54; 55; 56; 57; 65; 66; 67; 68; 69; 70].
Definition lower : list Z := [48; 49; 50; 51; 52; 53; 54; 55; 56; 57; 97; 98; 99; 100; 101; 102].

(** The digits of [x], the least significant first, into at most [n] cells. *)
Fixpoint digits (n : nat) (tab : list Z) (base x : Z) : option (list Z) :=
  match n with
  | O => None
  | S n =>
      d ← tab !! Z.to_nat (x mod base);
      if x / base =? 0 then Some [d] else (d ::.) <$> digits n tab base (x / base)
  end.

(** [printint] of printf.c: the sign goes into [buf] after the digits. *)
Definition printint (xx base : Z) (sgn : bool) : option (list Z) :=
  let neg := sgn && (s32 xx <? 0) in
  let x := if neg then u32 (- s32 xx) else u32 xx in
  buf ← digits 16 upper base x;
  if neg then if Nat.leb 16 (length buf) then None else Some (reverse (buf ++ [45])) else Some (reverse buf).

(** [printint] of console.c. *)
Definition kprintint (xx base : Z) (sign : bool) : option (list Z) :=
  let sign := sign && (s32 xx <? 0) in
  let x := if sign then u32 (- s32 xx) else u32 xx in
  buf ← digits 16 lower base x;
  if sign then if Nat.leb 16 (length buf) then None else Some (reverse (buf ++ [45])) else Some (reverse buf).

(** * Formats *)

Definition null_str : list Z := chars "(null)".

(** One directive of [printf]: its text and the arguments left. *)
Definition directive (c : Z) (ap : list arg) : option (list Z * list arg) :=
  if c =? 100 then match ap with AInt v :: ap => t ← printint v 10 true; Some (t, ap) | _ => None end
  else if (c =? 120) || (c =? 112) then
    match ap with AInt v :: ap => t ← printint v 16 false; Some (t, ap) | _ => None end
  else if c =? 115 then match ap with AStr s :: ap => Some (default null_str s, ap) | _ => None end
  else if c =? 99 then match ap with AInt v :: ap => Some ([u8 v], ap) | _ => None end
  else if c =? 37 then Some ([c], ap)
  else Some ([37; c], ap).

Fixpoint printf_loop (state : bool) (fmt : list Z) (ap : list arg) : option (list Z) :=
  match fmt with
  | [] => Some []
  | c :: fmt =>
      if negb state then
        if c =? 37 then printf_loop true fmt ap else (c ::.) <$> printf_loop false fmt ap
      else
        '(t, ap) ← directive c ap;
        (t ++.) <$> printf_loop false fmt ap
  end.

Definition printf (fmt : list Z) (ap : list arg) : option (list Z) := printf_loop false fmt ap.

Definition kdirective (c : Z) (argp : list arg) : option (list Z * list arg) :=
  if c =? 100 then match argp with AInt v :: argp => t ← kprintint v 10 true; Some (t, argp) | _ => None end
  else if (c =? 120) || (c =? 112) then
    match argp with AInt v :: argp => t ← kprintint v 16 false; Some (t, argp) | _ => None end
  else if c =? 115 then match argp with AStr s :: argp => Some (default null_str s, argp) | _ => None end
  else if c =? 37 then Some ([37], argp)
  else Some ([37; c], argp).

(** [cprintf] looks one character ahead after a percent sign. *)
Fixpoint cprintf_text (fmt : list Z) (argp : list arg) : option (list Z) :=
  match fmt with
  | [] => Some []
  | c :: fmt =>
      if negb (c =? 37) then (c ::.) <$> cprintf_text fmt argp
      else
        match fmt with
        | [] => Some []
        | c :: fmt =>
            '(t, argp) ← kdirective c argp;
            (t ++.) <$> cprintf_text fmt argp
        end
  end.

(** * Reading numbers *)

Fixpoint atoi_loop (n : Z) (s : list Z) : Z :=
  match s with
  | c :: s => if (48 <=? c) && (c <=? 57) then atoi_loop (s32 (n * 10 + c - 48)) s else n
  | [] => n
  end.
Definition atoi (s : list Z) : Z := atoi_loop 0 s.

(** * Proofs *)

(** The number with digits [ds], the least significant first. *)
Definition value (base : Z) (ds : list Z) : Z := foldr (λ d v, d + base * v) 0 ds.

Lemma digits_spec k n base x : (1 ≤ k ≤ n)%nat → 2 ≤ base → 0 ≤ x < base ^ Z.of_nat k →
  ∃ ds, (∀ tab, base ≤ Z.of_nat (length tab) → digits n tab base x = Some ((λ d, tab !!! Z.to_nat d) <$> ds)) ∧
    ds ≠ [] ∧ (length ds ≤ k)%nat ∧ Forall (λ d, 0 ≤ d < base) ds ∧ value base ds = x.
Proof.
  revert n x. induction k as [|k IH]; intros [|n] x Hn Hb Hx; [lia..|].
  assert (Hm : 0 ≤ x mod base < base) by (apply Z.mod_pos_bound; lia).
  assert (Hdm : x = base * (x / base) + x mod base) by (apply Z.div_mod; lia).
  assert (Hq : 0 ≤ x / base) by (apply Z.div_pos; lia).
  destruct (Z.eqb_spec (x / base) 0) as [E|E].
  - exists [x mod base]. split_and!; [|done|simpl; lia|by apply Forall_singleton|simpl; lia].
    intros tab Ht. cbn [digits]. rewrite list_lookup_lookup_total_lt by lia. simpl. by rewrite E.
  - destruct k as [|k]; [exfalso; apply E, Z.div_small; simpl in Hx; lia|].
    destruct (IH n (x / base)) as (ds & Hd & Hne & Hlen & Hall & Hv); [lia|done| |].
    { split; [done|]. apply Z.div_lt_upper_bound; [lia|]. rewrite Nat2Z.inj_succ, Z.pow_succ_r in Hx by lia. lia. }
    exists (x mod base :: ds). split_and!; [|done|simpl; lia|by constructor|simpl; rewrite Hv; lia].
    intros tab Ht. cbn [digits]. rewrite list_lookup_lookup_total_lt by lia. simpl.
    rewrite (proj2 (Z.eqb_neq _ _)), Hd by done. done.
Qed.

Lemma s32_mod a b : a mod 2 ^ 32 = b mod 2 ^ 32 → s32 a = s32 b.
Proof. intros H. unfold s32. by rewrite <-(Z.add_mod_idemp_l a), H, Z.add_mod_idemp_l by lia. Qed.

Lemma s32_cong a : s32 a mod 2 ^ 32 = a mod 2 ^ 32.
Proof.
  unfold s32. rewrite <-Zminus_mod_idemp_l, Z.mod_mod by lia. rewrite Zminus_mod_idemp_l. f_equal. lia.
Qed.

Lemma s32_u32 n : - 2 ^ 31 ≤ n < 2 ^ 31 → s32 (u32 n) = n.
Proof. intros Hn. rewrite (s32_mod (u32 n) n); [by apply s32_small|]. unfold u32. by rewrite Z.mod_mod. Qed.

Definition is_digit (c : Z) : bool := (48 <=? c) && (c <=? 57).

Lemma atoi_rest n rest : (∀ c, head rest = Some c → is_digit c = false) → atoi_loop n rest = n.
Proof.
  destruct rest as [|c rest]; [done|]. intros H. specialize (H c eq_refl). unfold is_digit in H.
  cbn [atoi_loop]. by rewrite H.
Qed.

(** The same number, read from the most significant digit on. *)
Lemma value_reverse base ds : value base ds = foldl (λ v d, v * base + d) 0 (reverse ds).
Proof.
  induction ds as [|d ds IH]; [done|]. rewrite reverse_cons, foldl_app, <-IH. simpl. lia.
Qed.

Lemma foldl_mod l a b : a mod 2 ^ 32 = b mod 2 ^ 32 →
  foldl (λ v d, v * 10 + d) a l mod 2 ^ 32 = foldl (λ v d, v * 10 + d) b l mod 2 ^ 32.
Proof.
  revert a b. induction l as [|d l IH]; intros a b H; [done|]. simpl. apply IH.
  rewrite <-(Z.add_mod_idemp_l (a * 10)), <-(Z.mul_mod_idemp_l a), H by lia.
  by rewrite Z.mul_mod_idemp_l, Z.add_mod_idemp_l by lia.
Qed.

Lemma atoi_digits l rest n : Forall (λ d, 0 ≤ d < 10) l → (∀ c, head rest = Some c → is_digit c = false) →
  s32 n = n → atoi_loop n (((Z.add 48) <$> l) ++ rest) = s32 (foldl (λ v d, v * 10 + d) n l).
Proof.
  intros Hl Hr. revert n. induction Hl as [|d l Hd Hl IH]; intros n Hn; [simpl; by rewrite atoi_rest|].
  cbn [fmap list_fmap app atoi_loop foldl].
  rewrite (proj2 (Z.leb_le 48 _)), (proj2 (Z.leb_le _ 57)) by lia. simpl.
  rewrite IH; [|apply s32_mod; by rewrite s32_cong]. apply s32_mod, foldl_mod. rewrite s32_cong. f_equal. lia.
Qed.

Lemma decimal_chars (tab : list Z) ds : (∀ d, 0 ≤ d < 10 → tab !!! Z.to_nat d = 48 + d) → Forall (λ d, 0 ≤ d < 10) ds →
  (λ d, tab !!! Z.to_nat d) <$> ds = (Z.add 48) <$> ds.
Proof. intros Ht Hd. apply list_fmap_ext. intros i d Hi. apply Ht. exact (proj1 (Forall_lookup _ _) Hd i d Hi). Qed.

Lemma decimal_tables d : 0 ≤ d < 10 → upper !!! Z.to_nat d = 48 + d ∧ lower !!! Z.to_nat d = 48 + d.
Proof.
  intros Hd. assert (Hc : d ∈ seqZ 0 10) by (apply elem_of_seqZ; lia). clear Hd. revert d Hc.
  apply Forall_forall. by repeat constructor.
Qed.

(** The magnitude that is printed of a signed number. *)
Definition magnitude (sgn : bool) (n : Z) : Z := if sgn && (s32 n <? 0) then u32 (- s32 n) else u32 n.

Lemma magnitude_range sgn n : 0 ≤ magnitude sgn n < 2 ^ 32.
Proof. unfold magnitude. case_match; apply u32_range. Qed.

(** A decimal number is its sign and at most ten digits, in both versions. *)
Lemma printint_decimal n sgn : ∃ ds, ds ≠ [] ∧ Forall (λ d, 0 ≤ d < 10) ds ∧ value 10 ds = magnitude sgn n ∧
  printint n 10 sgn = Some ((if sgn && (s32 n <? 0) then [45] else []) ++ ((Z.add 48) <$> reverse ds)) ∧
  kprintint n 10 sgn = printint n 10 sgn.
Proof.
  pose proof (magnitude_range sgn n) as Hx.
  destruct (digits_spec 10 16 10 (magnitude sgn n)) as (ds & Ed & Hne & Hlen & Hall & Hv); [lia|done|simpl; lia|].
  exists ds. split; [exact Hne|]. split; [exact Hall|]. split; [exact Hv|].
  unfold printint, kprintint. fold (magnitude sgn n). split.
  - rewrite Ed by (simpl; lia). cbn [mbind option_bind]. rewrite (decimal_chars upper) by (done || apply decimal_tables).
    rewrite length_fmap, (proj2 (Nat.leb_gt _ _)) by lia. rewrite reverse_snoc, !fmap_reverse. by destruct (sgn && _).
  - rewrite !Ed by (simpl; lia). cbn [mbind option_bind]. rewrite (decimal_chars upper), (decimal_chars lower); [done|..|done];
      done || apply decimal_tables.
Qed.

#[local] Arguments printint : simpl never.
#[local] Arguments kprintint : simpl never.

(** A number printed with %d reads back: the text is the sign, then digits
    from which [atoi] gets the magnitude, whatever follows that is not a digit.
    This includes the least integer, whose magnitude wraps around. *)
Lemma printf_atoi_roundtrip n rest : - 2 ^ 31 ≤ n < 2 ^ 31 → (∀ c, head rest = Some c → is_digit c = false) →
  ∃ t, printf [37; 100] [AInt (u32 n)] = Some ((if n <? 0 then [45] else []) ++ t) ∧ t ≠ [] ∧
    atoi (t ++ rest) = s32 (Z.abs n).
Proof.
  intros Hn Hr. destruct (printint_decimal (u32 n) true) as (ds & Hne & Hall & Hv & Ep & _).
  rewrite s32_u32 in Ep by done. simpl in Ep. exists ((Z.add 48) <$> reverse ds). split_and!.
  - unfold printf. simpl. unfold directive. simpl. rewrite Ep. simpl. by rewrite app_nil_r.
  - intros E%fmap_nil_inv. apply Hne. by apply (f_equal reverse) in E; rewrite reverse_involutive in E.
  - unfold atoi. rewrite atoi_digits by (done || by apply Forall_reverse). rewrite <-value_reverse, Hv.
    apply s32_mod. unfold magnitude. rewrite s32_u32 by done. simpl.
    destruct (Z.ltb_spec n 0); unfold u32; rewrite !Z.mod_mod by lia; f_equal; lia.
Qed.

(** The directives of a format. *)
Fixpoint directives (state : bool) (fmt : list Z) : list Z :=
  match fmt with
  | [] => []
  | c :: fmt => if state then c :: directives false fmt else directives (c =? 37) fmt
  end.

Lemma directives_agree c ap : c ∉ [99; 112; 120] → kdirective c ap = directive c ap.
Proof.
  intros Hc. unfold kdirective, directive.
  rewrite (proj2 (Z.eqb_neq c 99)), (proj2 (Z.eqb_neq c 112)), (proj2 (Z.eqb_neq c 120)) by set_solver. simpl.
  destruct (c =? 100); [|by destruct (Z.eqb_spec c 37); subst].
  destruct ap as [|[v|s] ap]; [done| |done]. by destruct (printint_decimal v true) as (? & _ & _ & _ & _ & ->).
Qed.

(** The kernel's [cprintf] and the user's [printf] print the same text for
    every format without the directives x, p and c: x and p print other digits,
    and the kernel does not know c. *)
Lemma cprintf_printf_agree fmt ap : Forall (λ c, c ∉ [99; 112; 120]) (directives false fmt) →
  cprintf_text fmt ap = printf fmt ap.
Proof.
  unfold printf. remember (length fmt) as n eqn:En. revert fmt ap En.
  induction (lt_wf n) as [n _ IH]. intros [|c fmt] ap -> Hd; [done|]. cbn [cprintf_text printf_loop negb] in *.
  cbn [directives] in Hd. destruct (Z.eqb_spec c 37) as [->|Hc]; simpl.
  - destruct fmt as [|c fmt]; [done|]. cbn [directives] in Hd. apply Forall_cons in Hd as [Hc Hd].
    cbn [printf_loop negb]. rewrite directives_agree by done. destruct (directive c ap) as [[t ap']|]; [|done]. simpl.
    by rewrite (IH (length fmt)) by (simpl; lia || done).
  - by rewrite (IH (length fmt)) by (simpl; lia || done).
Qed.

(** * Examples *)


