(* ===== verification/Spinlock.v ===== *)
(** Spin locks (spinlock.c).

    The kernel code of the other files is modelled as it runs on one CPU: a
    lock is then a boolean, held or not by that CPU.  [acquire] panics when
    the CPU already holds the lock, [release] when it does not. *)

From Stdlib Require Import ZArith Lia.
From stdpp Require Import base numbers strings option gmap sets list list_numbers.
From S2P Require Import Prelude.

Definition acquire {S} (lk : lens S bool) : M S unit := λ s,
  if view lk s then Panic "acquire" else Ok (tt, put lk true s).

Definition release {S} (lk : lens S bool) : M S unit := λ s,
  if view lk s then Ok (tt, put lk false s) else Panic "release".

Definition holding {S} (lk : lens S bool) : M S bool := mget (view lk).
