(* ===== verification/Hoare.v ===== *)
(** Reasoning about the runs of kernel code that return: what a run leaves
    unchanged ([stable]) and what it establishes ([triple]). *)

From Stdlib Require Import ZArith Lia.
From stdpp Require Import base numbers strings option list.
From S2P Require Import Prelude Spinlock.

(** * Observations that a run keeps *)
Section stable.
Context {S T : Type}.
Implicit Types f : S → T.

Definition stable {A} f (m : M S A) : Prop := ∀ s a s', m s = Ok (a, s') → f s' = f s.

Lemma stable_ret {A} f (a : A) : stable f (mret a).
Proof. by intros s b s' [= <- <-]. Qed.

Lemma stable_bind {A B} f (m : M S A) (k : A → M S B) :
  stable f m → (∀ a, stable f (k a)) → stable f (m ≫= k).
Proof.
  intros Hm Hk s b s' (a & s1 & E1 & E2)%bind_Ok_inv. rewrite (Hk _ _ _ _ E2). by apply (Hm _ _ _ E1).
Qed.

Lemma stable_get {A} f (g : S → A) : stable f (mget g).
Proof. by intros s b s' [= <- <-]. Qed.

Lemma stable_mod f (g : S → S) : (∀ s, f (g s) = f s) → stable f (mmod g).
Proof. intros Hg s b s' [= <- <-]. apply Hg. Qed.

Lemma stable_panic {A} f msg : stable f (mpanic (A := A) msg).
Proof. by intros s b s'. Qed.
Lemma stable_fault {A} f : stable f (mfault (A := A)).
Proof. by intros s b s'. Qed.
Lemma stable_block {A} f : stable f (mblock (A := A)).
Proof. by intros s b s'. Qed.
Lemma stable_nofuel {A} f : stable f (mnofuel (A := A)).
Proof. by intros s b s'. Qed.

Lemma stable_opt {A} f (o : option A) : stable f (mopt o).
Proof. destruct o; [apply stable_ret|apply stable_fault]. Qed.

Lemma stable_acquire f (lk : lens S bool) : (∀ s b, f (put lk b s) = f s) → stable f (acquire lk).
Proof. intros Hf s a s'. unfold acquire. destruct (view lk s); [done|]. intros [= <- <-]. apply Hf. Qed.

Lemma stable_release f (lk : lens S bool) : (∀ s b, f (put lk b s) = f s) → stable f (release lk).
Proof. intros Hf s a s'. unfold release. destruct (view lk s); [|done]. intros [= <- <-]. apply Hf. Qed.

(** A component that the observation does not see. *)
Lemma stable_zoom_out {U A} f (l : lens S U) (m : M U A) : (∀ s u, f (put l u s) = f s) → stable f (zoom l m).
Proof.
  intros Hf s a s'. unfold zoom. destruct (m (view l s)) as [[b u]| | | |]; try done. intros [= <- <-]. apply Hf.
Qed.
End stable.

(** A component of which the observation sees a part. *)
Lemma stable_zoom_in {S T U V A} (f : S → T) (l : lens S U) (g : U → V) (m : M U A) :
  (∀ s u, g u = g (view l s) → f (put l u s) = f s) → stable g m → stable f (zoom l m).
Proof.
  intros Hf Hm s a s'. unfold zoom. destruct (m (view l s)) as [[b u]| | | |] eqn:E; try done.
  intros [= <- <-]. apply Hf, (Hm _ _ _ E).
Qed.

Lemma stable_comp {S T U A} (f : S → T) (g : T → U) (m : M S A) : stable f m → stable (λ s, g (f s)) m.
Proof. intros Hm s a s' E. by rewrite (Hm _ _ _ E). Qed.

Create HintDb stable discriminated.
#[export] Hint Resolve stable_ret stable_get stable_panic stable_fault stable_block stable_nofuel stable_opt : stable.

(** Decomposes a program; what is left are its calls. *)
Ltac stab_step :=
  match goal with
  | |- stable _ (mbind _ _) => apply stable_bind; [|intros ?]
  | |- stable _ (if ?b then _ else _) => destruct b
  | |- stable _ (match ?x with _ => _ end) => destruct x
  | |- stable _ (let '(_, _) := ?x in _) => destruct x
  | |- stable _ _ => solve [eauto 2 with stable]
  end.
Ltac stab := repeat stab_step.

(** * What a run establishes *)
Definition triple {S A} (P : S → Prop) (m : M S A) (Q : A → S → Prop) : Prop :=
  ∀ s a s', P s → m s = Ok (a, s') → Q a s'.

Lemma triple_bind {S A B} P (m : M S A) Q (k : A → M S B) R :
  triple P m Q → (∀ a, triple (Q a) (k a) R) → triple P (m ≫= k) R.
Proof. intros Hm Hk s b s'' HP (a & s' & E1 & E2)%bind_Ok_inv. eapply Hk; [|done]. by eapply Hm. Qed.

Lemma triple_ret {S A} (P : S → Prop) (a : A) (Q : A → S → Prop) : (∀ s, P s → Q a s) → triple P (mret a) Q.
Proof. intros HPQ s b s' HP [= <- <-]. by apply HPQ. Qed.

Lemma triple_ret_bind {S A B} (P : S → Prop) (a : A) (k : A → M S B) R : triple P (k a) R → triple P (mret a ≫= k) R.
Proof. done. Qed.

(** A run that keeps the observation keeps what depends on it alone. *)
Lemma triple_stable {S T A} (f : S → T) (P : T → Prop) (m : M S A) :
  stable f m → triple (λ s, P (f s)) m (λ _ s, P (f s)).
Proof. intros Hm s a s' HP E. by rewrite (Hm _ _ _ E). Qed.

Lemma triple_weaken {S A} (P P' : S → Prop) (m : M S A) (Q Q' : A → S → Prop) :
  triple P m Q → (∀ s, P' s → P s) → (∀ a s, Q a s → Q' a s) → triple P' m Q'.
Proof. intros Hm HP HQ s a s' HPs E. apply HQ. eapply Hm; eauto. Qed.

Lemma triple_pre {S A} (P P' : S → Prop) (m : M S A) (Q : A → S → Prop) :
  triple P m Q → (∀ s, P' s → P s) → triple P' m Q.
Proof. intros Hm HP s a s' HPs. apply Hm. by apply HP. Qed.

Lemma triple_false {S A} (P : S → Prop) (m : M S A) Q : (∀ s a s', m s ≠ Ok (a, s')) → triple P m Q.
Proof. intros Hm s a s' _ E. by apply Hm in E. Qed.

Lemma zoom_Ok_inv {S T A} (l : lens S T) (m : M T A) s a s' :
  zoom l m s = Ok (a, s') → ∃ t, m (view l s) = Ok (a, t) ∧ s' = put l t s.
Proof.
  unfold zoom. destruct (m (view l s)) as [[b t]| | | |]; try done. intros [= <- <-]. by exists t.
Qed.
