(* ===== verification/DList.v ===== *)
(** Doubly linked lists through a pair of link functions.

    The kernel keeps two doubly linked lists inside arrays: the ring of LRU
    frames (lru_swap.c) and the ring of buffers (bio.c).  [chain] says that a
    path of nodes is linked both ways; a ring is a closed path. *)

From Stdlib Require Import ZArith Lia.
From stdpp Require Import base numbers strings option gmap sets list list_numbers.
From S2P Require Import Prelude.

(** [chain nxt prv l]: each node of [l] points to its successor, and back. *)
Fixpoint chain {N} (nxt prv : N → option N) (l : list N) : Prop :=
  match l with
  | a :: (b :: _) as t => nxt a = Some b ∧ prv b = Some a ∧ chain nxt prv t
  | _ => True
  end.

(** Point update of a link function. *)
Definition fupd {N} `{EqDecision N} (f : N → option N) (i : N) (v : option N) : N → option N :=
  λ j, if decide (j = i) then v else f j.

Section chain.
  Context {N : Type} `{EqDecision N}.
  Implicit Types (nxt prv : N → option N) (l : list N).

Lemma fupd_eq (f : N → option N) i v : fupd f i v i = v.
  Proof. unfold fupd. by rewrite decide_True. Qed.

Lemma fupd_ne (f : N → option N) i j v : j ≠ i → fupd f i v j = f j.
  Proof. intros. unfold fupd. by rewrite decide_False. Qed.

Lemma chain_cons nxt prv a b l :
    chain nxt prv (a :: b :: l) ↔ nxt a = Some b ∧ prv b = Some a ∧ chain nxt prv (b :: l).
  Proof. done. Qed.

  (** A path splits at any of its nodes. *)
Lemma chain_app nxt prv l1 a l2 :
    chain nxt prv (l1 ++ a :: l2) ↔ chain nxt prv (l1 ++ [a]) ∧ chain nxt prv (a :: l2).
  Proof.
    induction l1 as [|x [|y l1] IH]; simpl; [tauto|tauto|].
    simpl in IH. rewrite IH. tauto.
  Qed.

Lemma chain_app2 nxt prv l1 a b l2 :
    chain nxt prv (l1 ++ a :: b :: l2) ↔
    chain nxt prv (l1 ++ [a]) ∧ nxt a = Some b ∧ prv b = Some a ∧ chain nxt prv (b :: l2).
  Proof. rewrite chain_app. by rewrite chain_cons. Qed.

  (** Links that are not part of the path may change. *)
Lemma chain_frame nxt prv nxt' prv' l :
    (∀ a, a ∈ removelast l → nxt' a = nxt a) →
    (∀ b, b ∈ tail l → prv' b = prv b) →
    chain nxt prv l → chain nxt' prv' l.
  Proof.
    induction l as [|a [|b l] IH]; simpl; [done|done|].
    intros Hn Hp (H1 & H2 & H3). split_and!.
    - rewrite Hn; [done|apply elem_of_cons; by left].
    - rewrite Hp; [done|apply elem_of_cons; by left].
    - apply IH; [|intros c Hc; apply Hp; simpl; apply elem_of_cons; by right|done].
      intros c Hc. apply Hn. apply elem_of_cons. by right.
  Qed.

Lemma removelast_snoc l (a : N) : removelast (l ++ [a]) = l.
  Proof. apply removelast_last. Qed.

  (** The form used on a segment with a known last node. *)
Lemma chain_frame_snoc nxt prv nxt' prv' l a :
    (∀ x, x ∈ l → nxt' x = nxt x) →
    (∀ x, x ∈ tail (l ++ [a]) → prv' x = prv x) →
    chain nxt prv (l ++ [a]) → chain nxt' prv' (l ++ [a]).
  Proof.
    intros Hn Hp. apply chain_frame; [|done]. by rewrite removelast_snoc.
  Qed.

  (** ** Rings *)

  (** [ring nxt prv l]: [l] is a closed path; its head is the entry point. *)
Definition ring nxt prv l : Prop :=
    match l with [] => True | h :: _ => chain nxt prv (l ++ [h]) end.

Lemma ring_ext nxt prv nxt' prv' l :
    (∀ x, nxt' x = nxt x) → (∀ x, prv' x = prv x) →
    ring nxt prv l → ring nxt' prv' l.
  Proof. intros Hn Hp. unfold ring. destruct l; [done|]. by apply chain_frame. Qed.

  (** The links at the two ends of a ring. *)
Lemma ring_last nxt prv h l l0 z :
    h :: l = l0 ++ [z] → ring nxt prv (h :: l) → nxt z = Some h ∧ prv h = Some z.
  Proof.
    intros E. unfold ring. rewrite E, <-app_assoc. simpl.
    intros (_ & ? & ? & _)%chain_app2. done.
  Qed.

Lemma ring_head nxt prv h b l :
    ring nxt prv (h :: b :: l) → nxt h = Some b ∧ prv b = Some h.
  Proof. unfold ring. simpl. tauto. Qed.

  (** The successor of an inner node, which is not the entry point. *)
Lemma ring_next nxt prv A x y B : NoDup (A ++ x :: y :: B) →
    ring nxt prv (A ++ x :: y :: B) → nxt x = Some y ∧ hd_error (A ++ x :: y :: B) ≠ Some y.
  Proof.
    intros Hnd Hr. split.
    - unfold ring in Hr. destruct A as [|h A]; [by destruct Hr|].
      change (chain nxt prv ((h :: A ++ x :: y :: B) ++ [h])) in Hr.
      change (h :: A ++ x :: y :: B) with ((h :: A) ++ x :: y :: B) in Hr.
      rewrite <-app_assoc in Hr. by apply chain_app2 in Hr as (_ & ? & _).
    - destruct A as [|h A]; simpl in *; intros [= ->]; apply NoDup_cons in Hnd as [Hnd _];
        set_solver.
  Qed.

Lemma ring_next_last nxt prv A x : ring nxt prv (A ++ [x]) → nxt x = hd_error (A ++ [x]).
  Proof.
    destruct A as [|h A]; simpl; intros Hr.
    - by destruct Hr.
    - by destruct (ring_last _ _ h (A ++ [x]) (h :: A) x eq_refl Hr).
  Qed.

Lemma ring_single nxt prv h : ring nxt prv [h] ↔ nxt h = Some h ∧ prv h = Some h.
  Proof. unfold ring. simpl. tauto. Qed.

  (** Linking [x] between the last node and the head of a ring. *)
Lemma ring_insert_last nxt prv h l l0 z x :
    h :: l = l0 ++ [z] → NoDup (h :: l) → x ∉ h :: l →
    ring nxt prv (h :: l) →
    ring (fupd (fupd nxt x (Some h)) z (Some x))
         (fupd (fupd prv x (Some z)) h (Some x)) (h :: l ++ [x]).
  Proof.
    intros E Hnd Hx Hr. unfold ring in *.
    replace ((h :: l ++ [x]) ++ [h]) with (l0 ++ z :: x :: [h]).
    2: { rewrite app_comm_cons, E. by rewrite <-!app_assoc. }
    rewrite E in Hr. rewrite <-app_assoc in Hr. simpl in Hr.
    apply chain_app2 in Hr as (Hc & Hz & Hh & _).
    rewrite E in Hnd, Hx. apply NoDup_snoc in Hnd as [Hz0 Hnd0].
    assert (x ≠ z) by (intros ->; apply Hx, elem_of_app; right; by apply list_elem_of_singleton).
    assert (x ∉ l0) by (intros ?; apply Hx, elem_of_app; by left).
    apply chain_app2. split_and!.
    - revert Hc. apply chain_frame_snoc.
      + intros y Hy. rewrite !fupd_ne; [done|congruence..].
      + rewrite <-E. simpl. intros y Hy.
        assert (NoDup (h :: l)) as Hnd by (rewrite E; by apply NoDup_snoc).
        apply NoDup_cons in Hnd as [Hh0 _].
        rewrite fupd_ne by congruence. apply fupd_ne.
        intros ->. apply Hx. rewrite <-E. apply elem_of_cons. by right.
    - by rewrite fupd_eq.
    - destruct (decide (x = h)) as [->|Hne].
      { exfalso. apply Hx. rewrite <-E. apply elem_of_cons. by left. }
      rewrite fupd_ne by done. by rewrite fupd_eq.
    - simpl. split_and!; [|by rewrite fupd_eq|done].
      rewrite fupd_ne by done. by rewrite fupd_eq.
  Qed.

  (** Unlinking the head of a ring of at least two nodes. *)
Lemma ring_remove_head nxt prv h b l l0 z :
    b :: l = l0 ++ [z] → NoDup (h :: b :: l) →
    ring nxt prv (h :: b :: l) →
    ring (fupd nxt z (Some b)) (fupd prv b (Some z)) (b :: l).
  Proof.
    intros E Hnd Hr. unfold ring in *.
    assert (Hc : chain nxt prv (b :: l)).
    { simpl in Hr. destruct Hr as (_ & _ & Hr).
      change (chain nxt prv ((b :: l) ++ [h])) in Hr. rewrite E in Hr |- *.
      rewrite <-app_assoc in Hr. simpl in Hr. by apply chain_app2 in Hr as (? & _). }
    apply NoDup_cons in Hnd as [_ Hnd].
    rewrite E. rewrite <-app_assoc. simpl. apply chain_app2. rewrite E in Hc.
    split_and!; [|by rewrite fupd_eq..|done].
    revert Hc. apply chain_frame_snoc.
    - intros x Hx. apply fupd_ne. intros ->.
      rewrite E in Hnd. apply NoDup_snoc in Hnd as [? _]. done.
    - rewrite <-E. simpl. intros x Hx. apply fupd_ne. intros ->.
      apply NoDup_cons in Hnd as [? _]. done.
  Qed.

  (** Unlinking an inner node [x] of a path, between [a] and [b]. *)
Lemma chain_unlink nxt prv l1 a x b l2 :
    a ∉ l1 → a ∉ removelast (b :: l2) → b ∉ tail (l1 ++ [a]) → b ∉ l2 →
    chain nxt prv (l1 ++ a :: x :: b :: l2) →
    chain (fupd nxt a (Some b)) (fupd prv b (Some a)) (l1 ++ a :: b :: l2).
  Proof.
    intros Ha1 Ha2 Hb1 Hb2 Hc.
    apply chain_app2 in Hc as (Hc & _ & _ & Hc2). apply chain_cons in Hc2 as (_ & _ & Hc2).
    apply chain_app2. split_and!; [|by rewrite fupd_eq..|].
    - revert Hc. apply chain_frame_snoc; intros y Hy; apply fupd_ne; congruence.
    - revert Hc2. apply chain_frame; simpl; intros y Hy; apply fupd_ne; [|congruence].
      intros ->. done.
  Qed.

  (** Unlinking any node of a ring of at least two nodes: its neighbours are
      joined, and the ring without it remains. *)
Lemma ring_remove nxt prv A x B :
    NoDup (A ++ x :: B) → A ++ B ≠ [] → ring nxt prv (A ++ x :: B) →
    ∃ a b, prv x = Some a ∧ nxt x = Some b ∧ a ∈ A ++ B ∧ b ∈ A ++ B ∧
      (A = [] → hd_error B = Some b) ∧ (B = [] → hd_error A = Some b) ∧
      (∀ y B', B = y :: B' → b = y) ∧
      ring (fupd nxt a (Some b)) (fupd prv b (Some a)) (A ++ B).
  Proof.
    intros Hnd Hne Hr. destruct A as [|h A].
    - simpl in *. destruct B as [|b B]; [done|].
      destruct (last_cons_snoc b B) as (l0 & z & E).
      exists z, b. destruct (ring_head _ _ _ _ _ Hr) as [Hn _].
      assert (E' : x :: b :: B = (x :: l0) ++ [z]) by (simpl; congruence).
      destruct (ring_last _ _ _ _ _ _ E' Hr) as [_ Hp]. rewrite E at 1.
      split_and!; try done; [set_solver..|naive_solver|].
      by apply (ring_remove_head _ _ x b B l0).
    - destruct (last_cons_snoc h A) as (l1 & a & E1).
      destruct (B ++ [h]) as [|b l2] eqn:E2; [by destruct B|].
      change (chain nxt prv ((h :: A ++ x :: B) ++ [h])) in Hr.
      assert (EP : ((h :: A ++ x :: B) ++ [h]) = l1 ++ a :: x :: b :: l2).
      { rewrite <-E2. change (h :: A ++ x :: B) with ((h :: A) ++ x :: B).
        by rewrite E1, <-!app_assoc. }
      rewrite EP in Hr. exists a, b.
      pose proof Hr as (_ & _ & Hp & Hn)%chain_app2. apply chain_cons in Hn as (Hn & _ & _).
      assert (Ha : a ∈ h :: A) by (rewrite E1; set_solver).
      assert (Hb : b ∈ B ++ [h]) by (rewrite E2; set_solver).
      split_and!; try done; [set_solver..| | |].
      + intros ->. simpl in E2. by simplify_eq.
      + intros y B' ->. simpl in E2. by simplify_eq.
      + change (chain (fupd nxt a (Some b)) (fupd prv b (Some a)) (h :: (A ++ B) ++ [h])).
        replace (h :: (A ++ B) ++ [h]) with (l1 ++ a :: b :: l2).
        2: { rewrite <-E2. change (h :: (A ++ B) ++ [h]) with (((h :: A) ++ B) ++ [h]).
             by rewrite E1, <-!app_assoc. }
        apply (chain_unlink _ _ _ _ x); [..|done].
        * apply NoDup_app in Hnd as (HA & _ & _). rewrite E1 in HA. apply NoDup_snoc in HA. tauto.
        * rewrite <-E2, removelast_snoc. apply NoDup_app in Hnd as (_ & HA & _).
          specialize (HA a Ha). set_solver.
        * rewrite <-E1. simpl. apply NoDup_app in Hnd as (HA & HAB & _).
          apply NoDup_cons in HA as [HhA _]. intros HbA.
          assert (b ≠ h) by congruence.
          assert (b ∉ x :: B) by (apply HAB; set_solver). set_solver.
        * apply NoDup_app in Hnd as (_ & HAB & HB). apply NoDup_cons in HB as [_ HB].
          destruct B as [|y B]; simpl in E2; simplify_eq; [set_solver|].
          apply NoDup_cons in HB as [HyB _].
          assert (b ≠ h) by (intros ->; apply (HAB h); set_solver). set_solver.
  Qed.

  (** Linking [x] between the entry point of a ring and its successor. *)
Lemma ring_insert_first nxt prv h l x y :
    y = default h (hd_error l) → NoDup (h :: l) → x ∉ h :: l → ring nxt prv (h :: l) →
    ring (fupd (fupd nxt x (Some y)) h (Some x))
         (fupd (fupd prv x (Some h)) y (Some x)) (h :: x :: l).
  Proof.
    intros Hy Hnd Hx Hr. assert (Hxh : x ≠ h) by (intros ->; apply Hx; left).
    change (chain (fupd (fupd nxt x (Some y)) h (Some x)) (fupd (fupd prv x (Some h)) y (Some x))
      (h :: x :: l ++ [h])).
    destruct l as [|z l]; simpl in Hy; subst y.
    - simpl. rewrite !fupd_eq, !(fupd_ne _ h x), !fupd_eq by done. done.
    - assert (Hxz : x ≠ z) by (intros ->; apply Hx; right; left).
      apply NoDup_cons in Hnd as [Hh Hnd]. apply NoDup_cons in Hnd as [Hz _].
      destruct Hr as (_ & _ & Hr). change (chain nxt prv ((z :: l) ++ [h])) in Hr.
      cbn [app]. rewrite !chain_cons. split_and!.
      + by rewrite fupd_eq.
      + rewrite fupd_ne by done. by rewrite fupd_eq.
      + rewrite fupd_ne by done. by rewrite fupd_eq.
      + by rewrite fupd_eq.
      + change (z :: l ++ [h]) with ((z :: l) ++ [h]). revert Hr. apply chain_frame_snoc.
        * intros w Hw. rewrite !fupd_ne; [done|set_solver..].
        * intros w Hw. simpl in Hw. rewrite !fupd_ne; [done|set_solver..].
  Qed.
End chain.

#[global] Arguments ring {N} nxt prv l : simpl never.
