(* ===== verification/Bitmap.v ===== *)
(** Bitmaps of used slots.

    The LRU list and the swap area (lru_swap.c) mark a used slot with 1 and a
    free one with -1 in an array of integers, and search it from the start. *)

From Stdlib Require Import ZArith Lia.
From stdpp Require Import base numbers strings option gmap sets list list_numbers.
From S2P Require Import Prelude.

(** The first index from [i] on whose entry is -1. *)
Fixpoint first_free (i : nat) (bm : list Z) : option nat :=
  match bm with
  | [] => None
  | b :: bm => if b =? -1 then Some i else first_free (S i) bm
  end.

(** The [n] entries of the bitmap mark exactly the slots [R] as used. *)
Record bits_rep (n : nat) (bm : list Z) (R : list nat) : Prop := BitsRep {
  br_length : length bm = n;
  br_bits : ∀ i b, bm !! i = Some b → b = if bool_decide (i ∈ R) then 1 else -1
}.

Lemma first_free_Some bm k i :
  first_free k bm = Some i → (k ≤ i)%nat ∧ bm !! (i - k)%nat = Some (-1).
Proof.
  revert k. induction bm as [|b bm IH]; intros k; simpl; [done|].
  destruct (Z.eqb_spec b (-1)) as [->|].
  - intros [= <-]. rewrite Nat.sub_diag. split; [lia|done].
  - intros [? ?]%IH. split; [lia|]. by replace (i - k)%nat with (S (i - S k)) by lia.
Qed.

Lemma first_free_None bm k : first_free k bm = None → -1 ∉ bm.
Proof.
  revert k. induction bm as [|b bm IH]; intros k; simpl; [set_solver|].
  destruct (Z.eqb_spec b (-1)) as [->|]; [done|].
  intros ?%IH. set_solver.
Qed.

Lemma bits_free n bm R i : bits_rep n bm R → bm !! i = Some (-1) → i ∉ R.
Proof. intros [_ H] Hi%H. by case_bool_decide. Qed.

(** There is a free frame exactly when fewer than all frames are in use. *)
Lemma bits_first_free n bm R : bits_rep n bm R → (length R < n)%nat →
  ∃ i, first_free 0 bm = Some i ∧ i ∉ R ∧ (i < n)%nat.
Proof.
  intros Hb (j & Hj & HjR)%exists_fresh.
  destruct (first_free 0 bm) as [i|] eqn:E.
  - apply first_free_Some in E as [_ E]. rewrite Nat.sub_0_r in E.
    exists i. split_and!; [done|by eapply bits_free|].
    apply lookup_lt_Some in E. by rewrite (br_length _ _ _ Hb) in E.
  - exfalso. apply first_free_None in E. apply E.
    rewrite <-(br_length _ _ _ Hb) in Hj. apply lookup_lt_is_Some_2 in Hj as [b Hjb].
    pose proof (br_bits _ _ _ Hb _ _ Hjb) as ->.
    rewrite bool_decide_false in Hjb by done. by eapply list_elem_of_lookup_2.
Qed.

Lemma bits_full n bm R : bits_rep n bm R → NoDup R → (∀ i, i ∈ R → (i < n)%nat) →
  length R = n → first_free 0 bm = None.
Proof.
  intros Hb Hnd HR Hlen. destruct (first_free 0 bm) as [i|] eqn:E; [exfalso|done].
  apply first_free_Some in E as [_ E]. rewrite Nat.sub_0_r in E.
  apply (bits_free _ _ _ _ Hb E). apply (all_slots R n); [done..|lia|].
  apply lookup_lt_Some in E. by rewrite (br_length _ _ _ Hb) in E.
Qed.

(** Marking one more frame in the bitmap. *)
Lemma bits_insert n bm R i : bits_rep n bm R → bits_rep n (<[i := 1]> bm) (R ++ [i]).
Proof.
  intros [Hl H]. constructor; [by rewrite length_insert|].
  intros j b Hj. destruct (decide (i = j)) as [->|Hne].
  - rewrite bool_decide_true by set_solver.
    apply list_lookup_insert_Some in Hj. naive_solver.
  - rewrite list_lookup_insert_ne in Hj by done. apply H in Hj as ->.
    assert (j ∈ R ++ [i] ↔ j ∈ R) as E by set_solver.
    by rewrite (bool_decide_ext _ _ E).
Qed.

(** Clearing the mark of a frame that leaves the ring. *)
Lemma bits_remove n bm R R' i : bits_rep n bm R → (∀ j, j ∈ R' ↔ j ∈ R ∧ j ≠ i) →
  bits_rep n (<[i := -1]> bm) R'.
Proof.
  intros [Hl H] HR'. constructor; [by rewrite length_insert|].
  intros j b Hj. destruct (decide (i = j)) as [->|Hne].
  - rewrite bool_decide_false by naive_solver.
    apply list_lookup_insert_Some in Hj. naive_solver.
  - rewrite list_lookup_insert_ne in Hj by done. apply H in Hj as ->.
    assert (j ∈ R' ↔ j ∈ R) as E by naive_solver.
    by rewrite (bool_decide_ext _ _ E).
Qed.

