(* ===== verification/Lru.v ===== *)
(** The LRU list of resident pages (lru_swap.c, lru_swap.h).

    [lru.lru_frame_list] is an array of frames linked into a ring through
    [next] and [prev]; [lru.head] is the entry point, the oldest frame.  A
    pointer to a frame is the frame's index, the null pointer is [None]. *)

From Stdlib Require Import ZArith Lia.
From stdpp Require Import base numbers strings option gmap sets list list_numbers.
From S2P Require Import Prelude Spinlock DList Bitmap.

(** * Data *)

Definition MAX_FRAME_LRU : nat := Z.to_nat 1000.
#[global] Opaque MAX_FRAME_LRU.

Record frame := Frame {
  fr_pid : Z;
  fr_vaddr : Z;
  fr_next : option nat;
  fr_prev : option nat
}.

Record lru_state := LruState {
  head : option nat;
  lru_frame_list : list frame;
  frame_bitmap : list Z;
  lru_lk : bool
}.

Definition lk : lens lru_state bool :=
  Lens lru_lk (λ b s, LruState (head s) (lru_frame_list s) (frame_bitmap s) b).

Definition set_head (p : option nat) : M lru_state unit :=
  mmod (λ s, LruState p (lru_frame_list s) (frame_bitmap s) (lru_lk s)).

(** [p->f] for a pointer into the array. *)
Definition deref {T} (p : option nat) (f : frame → T) : M lru_state T := λ s,
  match p with
  | Some i => match lru_frame_list s !! i with Some fr => Ok (f fr, s) | None => Fault end
  | None => Fault
  end.

(** Assignment through a pointer. *)
Definition assign (p : option nat) (g : frame → frame) : M lru_state unit := λ s,
  match p with
  | Some i =>
      match lru_frame_list s !! i with
      | Some fr => Ok (tt, LruState (head s) (<[i := g fr]> (lru_frame_list s))
                             (frame_bitmap s) (lru_lk s))
      | None => Fault
      end
  | None => Fault
  end.

Definition w_pid (v : Z) (f : frame) := Frame v (fr_vaddr f) (fr_next f) (fr_prev f).
Definition w_vaddr (v : Z) (f : frame) := Frame (fr_pid f) v (fr_next f) (fr_prev f).
Definition w_next (p : option nat) (f : frame) := Frame (fr_pid f) (fr_vaddr f) p (fr_prev f).
Definition w_prev (p : option nat) (f : frame) := Frame (fr_pid f) (fr_vaddr f) (fr_next f) p.

(** [bitmap.frame_bitmap[i] = v]. *)
Definition set_bitmap (i : nat) (v : Z) : M lru_state unit := λ s,
  match frame_bitmap s !! i with
  | Some _ => Ok (tt, LruState (head s) (lru_frame_list s) (<[i := v]> (frame_bitmap s)) (lru_lk s))
  | None => Fault
  end.

(** [curr - lru.lru_frame_list]. *)
Definition frame_index (p : option nat) : M lru_state nat := mopt p.

(** * Operations *)

(** The state before initialisation: the kernel's zeroed data segment. *)
Definition lru_bss : lru_state :=
  LruState None (replicate MAX_FRAME_LRU (Frame 0 0 None None)) (replicate MAX_FRAME_LRU 0) false.

(** The loop of [lru_swap_init] over the bitmap. *)
Definition lru_init : M lru_state unit :=
  mmod (λ s, LruState (head s) (lru_frame_list s)
               ((λ _, -1) <$> frame_bitmap s) (lru_lk s)).

Definition get_free_frame_lru : M lru_state Z :=
  bm ← mget frame_bitmap;
  mret (match first_free 0 bm with Some i => Z.of_nat i | None => -1 end).

Definition lru_insert (pid vaddr : Z) : M lru_state Z :=
  h ← mget head;
  match h with
  | None =>
      acquire lk;;
      index ← get_free_frame_lru;
      if index =? -1 then release lk;; mret (-1)
      else
        let i := Some (Z.to_nat index) in
        assign i (w_pid pid);;
        assign i (w_vaddr vaddr);;
        assign i (w_prev i);;
        assign i (w_next i);;
        set_head i;;
        set_bitmap (Z.to_nat index) 1;;
        release lk;;
        mret 0
  | Some _ =>
      last ← deref h fr_prev;
      acquire lk;;
      index ← get_free_frame_lru;
      if index =? -1 then release lk;; mret (-1)
      else
        let i := Some (Z.to_nat index) in
        assign i (w_pid pid);;
        assign i (w_vaddr vaddr);;
        assign i (w_next h);;
        assign i (w_prev last);;
        assign h (w_prev i);;
        assign last (w_next i);;
        set_bitmap (Z.to_nat index) 1;;
        release lk;;
        mret 0
  end.

(** The search loop of [lru_free_frame]: returns [curr] and [prev]. *)
Fixpoint lru_find (fuel : nat) (pid vaddr : Z) (curr prev : option nat)
    : M lru_state (option nat * option nat) :=
  match fuel with
  | O => mnofuel
  | S fuel =>
      p ← deref curr fr_pid;
      v ← deref curr fr_vaddr;
      if negb (p =? pid) || negb (v =? vaddr) then
        n ← deref curr fr_next;
        h ← mget head;
        if decide (n = h) then mret (curr, curr)
        else lru_find fuel pid vaddr n curr
      else mret (curr, prev)
  end.

Definition lru_free_frame (pid vaddr : Z) : M lru_state unit :=
  h ← mget head;
  match h with
  | None => mret tt
  | Some _ =>
      acquire lk;;
      '(curr, prev) ← lru_find (S MAX_FRAME_LRU) pid vaddr h None;
      p ← deref curr fr_pid;
      v ← deref curr fr_vaddr;
      (if (p =? pid) && (v =? vaddr) then
         h ← mget head;
         (if decide (curr = h) then
            n ← deref h fr_next; set_head n
          else mret tt);;
         h ← mget head;
         (if bool_decide (curr = h) && bool_decide (prev ≠ None) then
            assign prev (w_next h);;
            assign h (w_prev prev)
          else
            cn ← deref curr fr_next;
            cp ← deref curr fr_prev;
            assign cp (w_next cn);;
            cn ← deref curr fr_next;
            cp ← deref curr fr_prev;
            assign cn (w_prev cp));;
         index ← frame_index curr;
         set_bitmap index (-1)
       else mret tt);;
      release lk
  end.

Definition lru_delete : M lru_state Z :=
  h ← mget head;
  match h with
  | None => mret (-1)
  | Some _ =>
      acquire lk;;
      hn ← deref h fr_next;
      if decide (hn = h) then
        index ← frame_index h;
        assign h (w_next None);;
        assign h (w_prev None);;
        mret (Z.of_nat index)
      else
        hp ← deref h fr_prev;
        assign hp (w_next hn);;
        hn ← deref h fr_next;
        hp ← deref h fr_prev;
        assign hn (w_prev hp);;
        index ← frame_index h;
        hn ← deref h fr_next;
        set_head hn;;
        assign h (w_next None);;
        assign h (w_prev None);;
        mret (Z.of_nat index)
  end.

(** [lru.lru_frame_list[index]] for an [int] index. *)
Definition at_index {T} (index : Z) (f : frame → T) : M lru_state T :=
  if 0 <=? index then deref (Some (Z.to_nat index)) f else mfault.

Definition lru_get_pid_frame (index : Z) : M lru_state Z :=
  b ← holding lk;
  if negb b then mpanic "Not Holding Lock" else at_index index fr_pid.

Definition lru_get_vaddr_frame (index : Z) : M lru_state Z :=
  b ← holding lk;
  if negb b then mpanic "Not Holding Lock" else at_index index fr_vaddr.

Definition lru_release_frame (index : Z) : M lru_state unit :=
  (if 0 <=? index then set_bitmap (Z.to_nat index) (-1) else mfault);;
  release lk.

(** The do/while loop of [lru_free]; [curr] is the node it looks at. *)
Fixpoint lru_free_loop (fuel : nat) (pid : Z) (curr : option nat) : M lru_state unit :=
  match fuel with
  | O => mnofuel
  | S fuel =>
      p ← deref curr fr_pid;
      flag ←
        (if p =? pid then
           h ← mget head;
           flag ← (if decide (curr = h) then
                     n ← deref h fr_next; set_head n;; mret true
                   else mret false);
           cp ← deref curr fr_prev;
           (match cp with
            | Some _ => cn ← deref curr fr_next; assign cp (w_next cn)
            | None => mret tt
            end);;
           cn ← deref curr fr_next;
           (match cn with
            | Some _ => cp ← deref curr fr_prev; assign cn (w_prev cp)
            | None => mret tt
            end);;
           index ← frame_index curr;
           set_bitmap index (-1);;
           mret flag
         else mret false);
      curr ← deref curr fr_next;
      n ← deref curr fr_next;
      p ← deref curr fr_prev;
      if decide (curr = n ∧ curr = p) then mret tt
      else
        h ← mget head;
        if (flag : bool) || bool_decide (curr ≠ h) then lru_free_loop fuel pid curr
        else mret tt
  end.

Definition lru_free (pid : Z) : M lru_state unit :=
  h ← mget head;
  match h with
  | None => mret tt
  | Some _ =>
      acquire lk;;
      lru_free_loop (S MAX_FRAME_LRU) pid h;;
      release lk
  end.

(** [lru_read] prints the ring; the lines it prints are (pid, index, vaddr). *)
Fixpoint lru_read_loop (fuel : nat) (curr : option nat) : M lru_state (list (Z * nat * Z)) :=
  match fuel with
  | O => mnofuel
  | S fuel =>
      h ← mget head;
      if decide (curr = h) then mret []
      else
        p ← deref curr fr_pid;
        i ← frame_index curr;
        v ← deref curr fr_vaddr;
        n ← deref curr fr_next;
        rest ← lru_read_loop fuel n;
        mret ((p, i, v) :: rest)
  end.

Definition lru_read : M lru_state (list (Z * nat * Z)) :=
  h ← mget head;
  match h with
  | None => mret []
  | Some _ =>
      p ← deref h fr_pid;
      i ← frame_index h;
      v ← deref h fr_vaddr;
      n ← deref h fr_next;
      rest ← lru_read_loop (S MAX_FRAME_LRU) n;
      mret ((p, i, v) :: rest)
  end.

(** * The links as functions, and their update *)

Definition nxt (fl : list frame) (i : nat) : option nat := fl !! i ≫= fr_next.
Definition prv (fl : list frame) (i : nat) : option nat := fl !! i ≫= fr_prev.
Definition entry (fl : list frame) (i : nat) : Z * Z :=
  match fl !! i with Some f => (fr_pid f, fr_vaddr f) | None => (0, 0) end.

Section links.
  Implicit Types (fl : list frame) (i j : nat) (p : option nat).

Lemma nxt_w_next fl i p j : (i < length fl)%nat →
    nxt (alter (w_next p) i fl) j = fupd (nxt fl) i p j.
  Proof.
    intros [f Hf]%lookup_lt_is_Some_2. unfold nxt, fupd. rewrite list_lookup_alter.
    case_decide; subst; [|by rewrite decide_False by done].
    by rewrite decide_True, Hf.
  Qed.

Lemma prv_w_prev fl i p j : (i < length fl)%nat →
    prv (alter (w_prev p) i fl) j = fupd (prv fl) i p j.
  Proof.
    intros [f Hf]%lookup_lt_is_Some_2. unfold prv, fupd. rewrite list_lookup_alter.
    case_decide; subst; [|by rewrite decide_False by done].
    by rewrite decide_True, Hf.
  Qed.

  (** A field is unchanged by an update that keeps it. *)
Lemma nxt_alter fl i g j : (∀ f, fr_next (g f) = fr_next f) →
    nxt (alter g i fl) j = nxt fl j.
  Proof.
    intros Hg. unfold nxt. rewrite list_lookup_alter. case_decide; [subst|done].
    destruct (fl !! j); simpl; [by rewrite Hg|done].
  Qed.

Lemma prv_alter fl i g j : (∀ f, fr_prev (g f) = fr_prev f) →
    prv (alter g i fl) j = prv fl j.
  Proof.
    intros Hg. unfold prv. rewrite list_lookup_alter. case_decide; [subst|done].
    destruct (fl !! j); simpl; [by rewrite Hg|done].
  Qed.

Lemma entry_alter fl i g j :
    (∀ f, fr_pid (g f) = fr_pid f ∧ fr_vaddr (g f) = fr_vaddr f) →
    entry (alter g i fl) j = entry fl j.
  Proof.
    intros Hg. unfold entry. rewrite list_lookup_alter. case_decide; [subst|done].
    destruct (fl !! j) as [f|]; simpl; [by destruct (Hg f) as [-> ->]|done].
  Qed.

Lemma entry_alter_ne fl i g j : i ≠ j → entry (alter g i fl) j = entry fl j.
  Proof. intros. unfold entry. rewrite list_lookup_alter. by rewrite decide_False. Qed.
End links.

(** * Single steps, for symbolic execution *)

Lemma deref_Ok {T} (f : frame → T) i fr h fl bm l :
  fl !! i = Some fr → deref (Some i) f (LruState h fl bm l) = Ok (f fr, LruState h fl bm l).
Proof. intros H. unfold deref. simpl. by rewrite H. Qed.

Lemma deref_next i p h fl bm l :
  nxt fl i = Some p → deref (Some i) fr_next (LruState h fl bm l) = Ok (Some p, LruState h fl bm l).
Proof.
  unfold nxt. intros H. destruct (fl !! i) as [fr|] eqn:E; [|done].
  rewrite (deref_Ok _ _ _ _ _ _ _ E). simpl in H. by rewrite H.
Qed.

Lemma deref_prev i p h fl bm l :
  prv fl i = Some p → deref (Some i) fr_prev (LruState h fl bm l) = Ok (Some p, LruState h fl bm l).
Proof.
  unfold prv. intros H. destruct (fl !! i) as [fr|] eqn:E; [|done].
  rewrite (deref_Ok _ _ _ _ _ _ _ E). simpl in H. by rewrite H.
Qed.

Lemma deref_pid i h fl bm l : (i < length fl)%nat →
  deref (Some i) fr_pid (LruState h fl bm l) = Ok ((entry fl i).1, LruState h fl bm l).
Proof.
  intros [fr E]%lookup_lt_is_Some_2. rewrite (deref_Ok _ _ _ _ _ _ _ E).
  unfold entry. by rewrite E.
Qed.

Lemma deref_vaddr i h fl bm l : (i < length fl)%nat →
  deref (Some i) fr_vaddr (LruState h fl bm l) = Ok ((entry fl i).2, LruState h fl bm l).
Proof.
  intros [fr E]%lookup_lt_is_Some_2. rewrite (deref_Ok _ _ _ _ _ _ _ E).
  unfold entry. by rewrite E.
Qed.

Lemma assign_Ok i g h fl bm l : (i < length fl)%nat →
  assign (Some i) g (LruState h fl bm l) = Ok (tt, LruState h (alter g i fl) bm l).
Proof.
  intros [fr E]%lookup_lt_is_Some_2. unfold assign. simpl. rewrite E. repeat f_equal.
  apply list_eq. intros j. rewrite list_lookup_alter.
  destruct (decide (i = j)) as [->|Hne].
  - rewrite E. rewrite list_lookup_insert_eq; [done|]. by apply lookup_lt_Some in E.
  - by rewrite list_lookup_insert_ne.
Qed.

Lemma set_bitmap_Ok i v h fl bm l : (i < length bm)%nat →
  set_bitmap i v (LruState h fl bm l) = Ok (tt, LruState h fl (<[i := v]> bm) l).
Proof. intros [b E]%lookup_lt_is_Some_2. unfold set_bitmap. simpl. by rewrite E. Qed.

Lemma acquire_Ok h fl bm : acquire lk (LruState h fl bm false) = Ok (tt, LruState h fl bm true).
Proof. done. Qed.

Lemma release_Ok h fl bm : release lk (LruState h fl bm true) = Ok (tt, LruState h fl bm false).
Proof. done. Qed.

Lemma set_head_Ok p h fl bm l : set_head p (LruState h fl bm l) = Ok (tt, LruState p fl bm l).
Proof. done. Qed.

(** Closes the bounds that the steps leave. *)
Ltac lru_bound := rewrite ?length_alter, ?length_insert; (assumption || lia).

Create HintDb lru.
#[export] Hint Extern 1 (assign _ _ _ = _) => (apply assign_Ok; lru_bound) : lru.
#[export] Hint Extern 1 (deref _ fr_next _ = _) => (apply deref_next; eassumption) : lru.
#[export] Hint Extern 1 (deref _ fr_prev _ = _) => (apply deref_prev; eassumption) : lru.
#[export] Hint Extern 1 (deref _ fr_pid _ = _) => (apply deref_pid; lru_bound) : lru.
#[export] Hint Extern 1 (deref _ fr_vaddr _ = _) => (apply deref_vaddr; lru_bound) : lru.
#[export] Hint Extern 1 (set_bitmap _ _ _ = _) => (apply set_bitmap_Ok; lru_bound) : lru.
#[export] Hint Resolve acquire_Ok release_Ok set_head_Ok : lru.
#[export] Hint Extern 1 (mget _ _ = _) => reflexivity : lru.
#[export] Hint Extern 1 (mret _ _ = _) => reflexivity : lru.
#[export] Hint Extern 1 (frame_index _ _ = _) => reflexivity : lru.

(** One step of a run. *)
Ltac lstep := erewrite bind_Ok by (eauto 2 with lru nocore);
  cbv beta iota; cbn [head lru_frame_list frame_bitmap lru_lk].

(** * The invariant *)

(** The frames [R] form the ring that starts at the head. *)
Record ring_rep (h : option nat) (fl : list frame) (R : list nat) : Prop := RingRep {
  rr_frames : length fl = MAX_FRAME_LRU;
  rr_head : h = hd_error R;
  rr_nodup : NoDup R;
  rr_bound : ∀ i, i ∈ R → (i < MAX_FRAME_LRU)%nat;
  rr_ring : ring (nxt fl) (prv fl) R
}.

(** The state between two operations. *)
Record lru_rep (s : lru_state) (R : list nat) : Prop := LruRep {
  rep_ring : ring_rep (head s) (lru_frame_list s) R;
  rep_bits : bits_rep MAX_FRAME_LRU (frame_bitmap s) R;
  rep_lk : lru_lk s = false
}.

(** The queue of pages that a state stands for, oldest first. *)
Definition entries (s : lru_state) (R : list nat) : list (Z * Z) :=
  entry (lru_frame_list s) <$> R.

Lemma ring_length h fl R : ring_rep h fl R → (length R ≤ MAX_FRAME_LRU)%nat.
Proof.
  intros [_ _ Hnd Hb _]. rewrite <-(length_seq MAX_FRAME_LRU 0).
  apply submseteq_length, NoDup_submseteq; [done|].
  intros i Hi%Hb. apply elem_of_seq. lia.
Qed.

Lemma get_free_Some h fl bm l i : first_free 0 bm = Some i →
  get_free_frame_lru (LruState h fl bm l) = Ok (Z.of_nat i, LruState h fl bm l).
Proof. intros E. unfold get_free_frame_lru. mred. simpl. by rewrite E. Qed.

Lemma get_free_None h fl bm l : first_free 0 bm = None →
  get_free_frame_lru (LruState h fl bm l) = Ok (-1, LruState h fl bm l).
Proof. intros E. unfold get_free_frame_lru. mred. simpl. by rewrite E. Qed.

#[export] Hint Extern 1 (get_free_frame_lru _ = _) => (apply get_free_Some; eassumption) : lru.
#[export] Hint Extern 1 (get_free_frame_lru _ = _) => (apply get_free_None; eassumption) : lru.

Lemma entry_set fl i p v : (i < length fl)%nat →
  entry (alter (w_vaddr v) i (alter (w_pid p) i fl)) i = (p, v).
Proof.
  intros [f Hf]%lookup_lt_is_Some_2. unfold entry.
  rewrite !list_lookup_alter, !decide_True, Hf by done. done.
Qed.

(** The frames written by [lru_insert]: new entry, new links. *)
Section insert_frames.
  Context (fl : list frame) (p v : Z) (i z : nat) (n : nat).
  Context (Hi : (i < length fl)%nat) (Hn : (n < length fl)%nat) (Hz : (z < length fl)%nat).

Definition insert_frames : list frame :=
    alter (w_next (Some i)) z (alter (w_prev (Some i)) n
      (alter (w_prev (Some z)) i (alter (w_next (Some n)) i
        (alter (w_vaddr v) i (alter (w_pid p) i fl))))).

Lemma insert_frames_nxt j :
    nxt insert_frames j = fupd (fupd (nxt fl) i (Some n)) z (Some i) j.
  Proof.
    unfold insert_frames. rewrite nxt_w_next by lru_bound. unfold fupd at 1 2.
    case_decide; [done|].
    rewrite !(nxt_alter _ _ (w_prev _)) by done.
    rewrite nxt_w_next by lru_bound. unfold fupd. case_decide; [done|].
    by rewrite !nxt_alter.
  Qed.

Lemma insert_frames_prv j :
    prv insert_frames j = fupd (fupd (prv fl) i (Some z)) n (Some i) j.
  Proof.
    unfold insert_frames. rewrite prv_alter by done.
    rewrite prv_w_prev by lru_bound. unfold fupd at 1 2.
    case_decide; [done|].
    rewrite prv_w_prev by lru_bound. unfold fupd. case_decide; [done|].
    by rewrite !prv_alter.
  Qed.

Lemma insert_frames_new : entry insert_frames i = (p, v).
  Proof. unfold insert_frames. rewrite !(entry_alter _ _ (w_next _)), !(entry_alter _ _ (w_prev _)), !(entry_alter _ _ (w_next _)) by done. by apply entry_set. Qed.

Lemma insert_frames_old j : j ≠ i → entry insert_frames j = entry fl j.
  Proof.
    intros. unfold insert_frames.
    rewrite !(entry_alter _ _ (w_next _)), !(entry_alter _ _ (w_prev _)), !(entry_alter _ _ (w_next _)) by done.
    by rewrite !entry_alter_ne.
  Qed.

Lemma insert_frames_length : length insert_frames = length fl.
  Proof. unfold insert_frames. by rewrite !length_alter. Qed.
End insert_frames.

(** Running [lru_insert] on a state with a free frame. *)
Lemma lru_insert_run_cons pid vaddr h fl bm i z :
  prv fl h = Some z → first_free 0 bm = Some i →
  (i < length fl)%nat → (h < length fl)%nat → (z < length fl)%nat → (i < length bm)%nat →
  lru_insert pid vaddr (LruState (Some h) fl bm false) =
    Ok (0, LruState (Some h) (insert_frames fl pid vaddr i z h) (<[i := 1]> bm) false).
Proof.
  intros Hp Hff Hi Hh Hz Hb. unfold lru_insert.
  do 4 lstep. replace (Z.of_nat i =? -1) with false by lia. rewrite Nat2Z.id. cbv zeta.
  do 8 lstep. done.
Qed.

(** For the empty list the new frame is linked to itself. *)
Lemma lru_insert_run_nil pid vaddr fl bm i :
  first_free 0 bm = Some i → (i < length fl)%nat → (i < length bm)%nat →
  lru_insert pid vaddr (LruState None fl bm false) =
    Ok (0, LruState (Some i) (alter (w_next (Some i)) i (alter (w_prev (Some i)) i
             (alter (w_vaddr vaddr) i (alter (w_pid pid) i fl)))) (<[i := 1]> bm) false).
Proof.
  intros Hff Hi Hb. unfold lru_insert.
  do 3 lstep. replace (Z.of_nat i =? -1) with false by lia. rewrite Nat2Z.id. cbv zeta.
  do 7 lstep. done.
Qed.

Lemma lru_insert_run_full pid vaddr s : lru_lk s = false →
  (∀ h, head s = Some h → is_Some (prv (lru_frame_list s) h)) →
  first_free 0 (frame_bitmap s) = None → lru_insert pid vaddr s = Ok (-1, s).
Proof.
  destruct s as [[h|] fl bm l]; simpl; intros -> Hp Hff; unfold lru_insert.
  - destruct (Hp h eq_refl) as [z Hz]. do 4 lstep. rewrite Z.eqb_refl. by lstep.
  - do 3 lstep. rewrite Z.eqb_refl. by lstep.
Qed.

Lemma ring_prev_Some h fl R : ring_rep (Some h) fl R → is_Some (prv fl h).
Proof.
  intros [_ Hh _ _ Hr]. destruct R as [|x R]; simplify_eq/=.
  destruct (last_cons_snoc x R) as (l0 & z & E).
  destruct (ring_last _ _ _ _ _ _ E Hr) as [_ ->]. eauto.
Qed.

Lemma lru_insert_rep s R pid vaddr :
  lru_rep s R → (length R < MAX_FRAME_LRU)%nat →
  ∃ i s', i ∉ R ∧ lru_insert pid vaddr s = Ok (0, s') ∧ lru_rep s' (R ++ [i]) ∧
    entries s' (R ++ [i]) = entries s R ++ [(pid, vaddr)].
Proof.
  destruct s as [hd fl bm l]. intros [Hring Hbits Hlk] Hlen; simpl in *; subst l.
  destruct (bits_first_free _ _ _ Hbits Hlen) as (i & Hff & HiR & Hi).
  pose proof (br_length _ _ _ Hbits) as Hbm.
  destruct Hring as [Hfl Hhd Hnd Hbd Hring].
  destruct R as [|h R]; simpl in Hhd; subst hd.
  - eexists i, _. split_and!; [done|apply lru_insert_run_nil; [done|lia..]| |].
    + constructor; simpl; [|by apply (bits_insert _ _ [])|done].
      constructor; rewrite ?length_alter; try done.
      * apply NoDup_singleton.
      * by intros ? ->%list_elem_of_singleton.
      * apply ring_single. rewrite nxt_w_next by lru_bound. rewrite prv_alter by done.
        rewrite prv_w_prev by lru_bound. by rewrite !fupd_eq.
    + unfold entries. simpl. rewrite !(entry_alter _ _ (w_next _)), !(entry_alter _ _ (w_prev _)) by done.
      by rewrite entry_set by lia.
  - destruct (last_cons_snoc h R) as (l0 & z & E).
    destruct (ring_last _ _ _ _ _ _ E Hring) as [Hz Hp].
    assert (Hzin : z ∈ h :: R) by (rewrite E; set_solver).
    assert (Hzb : (z < MAX_FRAME_LRU)%nat) by auto.
    assert (Hhb : (h < MAX_FRAME_LRU)%nat) by (apply Hbd; set_solver).
    eexists i, _. split_and!; [done|apply lru_insert_run_cons; try done; lia| |].
    + constructor; simpl; [|by apply (bits_insert _ _ (h :: R))|done].
      constructor; rewrite ?insert_frames_length; try done.
      * rewrite app_comm_cons. by apply NoDup_snoc.
      * intros j. rewrite app_comm_cons, elem_of_app, list_elem_of_singleton. intros [?| ->]; auto.
      * pose proof (ring_insert_last _ _ _ _ _ _ _ E Hnd HiR Hring) as Hr.
        revert Hr. apply ring_ext; intros j.
        -- apply insert_frames_nxt; lia.
        -- apply insert_frames_prv; lia.
    + unfold entries. rewrite fmap_app. simpl. rewrite !insert_frames_new by lia.
      rewrite insert_frames_old by set_solver. do 2 f_equal.
      apply list_fmap_ext. intros k j Hj%list_elem_of_lookup_2.
      apply insert_frames_old. set_solver.
Qed.

(** ** Unlinking *)

Definition unlink_frames (fl : list frame) (a b : nat) : list frame :=
  alter (w_prev (Some a)) b (alter (w_next (Some b)) a fl).

Lemma unlink_entry fl a b i : entry (unlink_frames fl a b) i = entry fl i.
Proof. unfold unlink_frames. by rewrite !entry_alter. Qed.

Lemma unlink_length fl a b : length (unlink_frames fl a b) = length fl.
Proof. unfold unlink_frames. by rewrite !length_alter. Qed.

Lemma unlink_nxt fl a b i : (a < length fl)%nat →
  nxt (unlink_frames fl a b) i = fupd (nxt fl) a (Some b) i.
Proof.
  intros. unfold unlink_frames. rewrite nxt_alter by done. by apply nxt_w_next.
Qed.

Lemma unlink_prv fl a b i : (b < length fl)%nat →
  prv (unlink_frames fl a b) i = fupd (prv fl) b (Some a) i.
Proof.
  intros. unfold unlink_frames. rewrite prv_w_prev by lru_bound. unfold fupd.
  case_decide; [done|]. by rewrite prv_alter.
Qed.

(** What the neighbours of a node are, and the ring without the node. *)
Lemma ring_unlink h fl A x B : ring_rep h fl (A ++ x :: B) → A ++ B ≠ [] →
  ∃ a b, prv fl x = Some a ∧ nxt fl x = Some b ∧ a ∈ A ++ B ∧ b ∈ A ++ B ∧
    x ∉ A ++ B ∧ (A = [] → hd_error B = Some b) ∧ (B = [] → hd_error A = Some b) ∧
    (∀ y B', B = y :: B' → b = y) ∧
    (a < length fl)%nat ∧ (b < length fl)%nat ∧ (x < length fl)%nat ∧
    ring_rep (hd_error (A ++ B)) (unlink_frames fl a b) (A ++ B).
Proof.
  intros [Hfl Hh Hnd Hbd Hr] Hne.
  destruct (ring_remove _ _ _ _ _ Hnd Hne Hr) as (a & b & Hp & Hn & Ha & Hb & HA & HB & Hy & Hr').
  exists a, b.
  assert (HAB : ∀ i, i ∈ A ++ B → i ∈ A ++ x :: B) by set_solver.
  assert (a < length fl)%nat by (rewrite Hfl; auto).
  assert (b < length fl)%nat by (rewrite Hfl; auto).
  assert (x < length fl)%nat by (rewrite Hfl; apply Hbd; set_solver).
  rewrite <-Permutation_middle in Hnd. apply NoDup_cons in Hnd as [Hx Hnd].
  split_and!; try done. constructor; [by rewrite unlink_length|done|done|auto|].
  revert Hr'. apply ring_ext; intros i; [by apply unlink_nxt|by apply unlink_prv].
Qed.

(** ** [lru_delete] and [lru_release_frame] *)

(** Taking the head off a ring of several frames leaves the lock held and the
    frame still marked, with its page readable. *)
Lemma lru_delete_run s x R : lru_rep s (x :: R) → R ≠ [] →
  ∃ fl', lru_delete s = Ok (Z.of_nat x, LruState (hd_error R) fl' (frame_bitmap s) true) ∧
    ring_rep (hd_error R) fl' R ∧ (x < length fl')%nat ∧
    ∀ i, entry fl' i = entry (lru_frame_list s) i.
Proof.
  destruct s as [hd fl bm l]. intros [Hring Hbits Hlk] Hne; simpl in *; subst l.
  pose proof (rr_head _ _ _ Hring) as Hh. simpl in Hh. subst hd.
  destruct (ring_unlink _ _ [] x R Hring Hne)
    as (a & b & Hp & Hn & Ha & Hb & Hx & HA & _ & _ & Hal & Hbl & Hxl & Hring').
  simpl in Ha, Hb, Hx, Hring'. rewrite (HA eq_refl) in *.
  assert (a ≠ x) by congruence. assert (b ≠ x) by congruence.
  assert (Hn' : nxt (alter (w_next (Some b)) a fl) x = Some b)
    by (rewrite nxt_w_next by done; by rewrite fupd_ne).
  assert (Hp' : prv (alter (w_next (Some b)) a fl) x = Some a) by by rewrite prv_alter.
  assert (Hn'' : nxt (unlink_frames fl a b) x = Some b)
    by (rewrite unlink_nxt by done; by rewrite fupd_ne).
  assert (Hul := unlink_length fl a b).
  exists (alter (w_prev None) x (alter (w_next None) x (unlink_frames fl a b))).
  split_and!.
  - unfold lru_delete. do 3 lstep. rewrite decide_False by congruence.
    do 5 lstep. change (alter (w_prev (Some a)) b (alter (w_next (Some b)) a fl)) with (unlink_frames fl a b).
    do 5 lstep. done.
  - destruct Hring' as [? ? ? ? Hr]. constructor; rewrite ?length_alter; try done.
    revert Hr. destruct R as [|y R]; [done|]. unfold ring. apply chain_frame.
    + intros i Hi. rewrite nxt_alter by done. rewrite nxt_w_next by lia. apply fupd_ne.
      rewrite removelast_snoc in Hi. congruence.
    + intros i Hi. rewrite prv_w_prev by lru_bound. rewrite fupd_ne; [by rewrite prv_alter|].
      assert (i ∈ y :: R) by (simpl in Hi; set_solver). congruence.
  - rewrite !length_alter. lia.
  - intros i. rewrite !entry_alter by done. apply unlink_entry.
Qed.

Lemma lru_release_run x h fl bm : (x < length bm)%nat →
  lru_release_frame (Z.of_nat x) (LruState h fl bm true) = Ok (tt, LruState h fl (<[x := -1]> bm) false).
Proof.
  intros. unfold lru_release_frame. rewrite (proj2 (Z.leb_le 0 _)) by lia.
  rewrite Nat2Z.id. by lstep.
Qed.

Lemma lru_get_run {x h fl bm} : (x < length fl)%nat →
  lru_get_pid_frame (Z.of_nat x) (LruState h fl bm true) = Ok ((entry fl x).1, LruState h fl bm true) ∧
  lru_get_vaddr_frame (Z.of_nat x) (LruState h fl bm true) = Ok ((entry fl x).2, LruState h fl bm true).
Proof.
  intros. unfold lru_get_pid_frame, lru_get_vaddr_frame, at_index.
  rewrite (proj2 (Z.leb_le 0 _)) by lia. rewrite Nat2Z.id.
  split; erewrite bind_Ok by reflexivity; simpl; [by apply deref_pid|by apply deref_vaddr].
Qed.

(** The eviction sequence of [get_lru]: delete, read the page, release. *)
Definition lru_evict : M lru_state (option (Z * Z)) :=
  index ← lru_delete;
  if index <? 0 then mret None
  else
    pid_lru ← lru_get_pid_frame index;
    vaddr_lru ← lru_get_vaddr_frame index;
    lru_release_frame index;;
    mret (Some (pid_lru, vaddr_lru)).

Lemma lru_evict_rep s x R : lru_rep s (x :: R) → R ≠ [] →
  ∃ s', lru_evict s = Ok (Some (entry (lru_frame_list s) x), s') ∧ lru_rep s' R ∧
    entries s' R = entries s R.
Proof.
  intros Hrep Hne. destruct (lru_delete_run _ _ _ Hrep Hne) as (fl' & Hrun & Hring & Hx & He).
  destruct Hrep as [Hr Hbits _]. pose proof (br_length _ _ _ Hbits) as Hbm.
  assert (Hxm : (x < MAX_FRAME_LRU)%nat) by (apply (rr_bound _ _ _ Hr); set_solver).
  eexists. split_and!.
  - unfold lru_evict. rewrite (bind_Ok _ _ _ _ _ Hrun).
    rewrite (proj2 (Z.ltb_ge _ 0)) by lia.
    rewrite (bind_Ok _ _ _ _ _ (proj1 (lru_get_run Hx))), (bind_Ok _ _ _ _ _ (proj2 (lru_get_run Hx))).
    erewrite bind_Ok by (apply lru_release_run; lia).
    rewrite He. by destruct (entry (lru_frame_list s) x).
  - constructor; simpl; [done| |done]. apply (bits_remove _ _ (x :: R)); [done|].
    intros j. pose proof (rr_nodup _ _ _ Hr) as [Hxr _]%NoDup_cons. set_solver.
  - unfold entries. simpl. apply list_fmap_ext. naive_solver.
Qed.

(** ** [lru_free_frame] *)

Definition matches (fl : list frame) (pid vaddr : Z) (i : nat) : Prop := entry fl i = (pid, vaddr).

#[export] Instance matches_dec fl pid vaddr i : Decision (matches fl pid vaddr i).
Proof. unfold matches. apply _. Defined.

Lemma match_test fl pid vaddr i :
  negb ((entry fl i).1 =? pid) || negb ((entry fl i).2 =? vaddr) =
  negb (bool_decide (matches fl pid vaddr i)).
Proof.
  case_bool_decide as H; unfold matches in H; destruct (entry fl i) as [p v]; simpl;
    destruct (Z.eqb_spec p pid), (Z.eqb_spec v vaddr); naive_solver.
Qed.

Lemma match_test' fl pid vaddr i :
  ((entry fl i).1 =? pid) && ((entry fl i).2 =? vaddr) = bool_decide (matches fl pid vaddr i).
Proof.
  pose proof (match_test fl pid vaddr i) as H.
  by destruct ((entry fl i).1 =? pid), ((entry fl i).2 =? vaddr), (bool_decide _).
Qed.

(** The search stops at the first frame of the ring that holds the page. *)
Lemma lru_find_hit pid vaddr h fl bm l L x B : ∀ A fuel c p,
  ring_rep h fl (A ++ L ++ x :: B) → hd_error (L ++ [x]) = Some c →
  (∀ i, i ∈ L → ¬ matches fl pid vaddr i) → matches fl pid vaddr x →
  (length L < fuel)%nat →
  lru_find fuel pid vaddr (Some c) p (LruState h fl bm l) =
    Ok ((Some x, match L with [] => p | _ => last L end), LruState h fl bm l).
Proof.
  induction L as [|y L IH]; intros A [|fuel] c p Hr Hc HL Hx Hf; simpl in Hf; try lia; simpl in *;
    simplify_eq; pose proof Hr as [Hfl Hh Hnd Hbd Hring].
  - assert (Hc : (c < length fl)%nat) by (rewrite Hfl; apply Hbd; set_solver).
    do 2 lstep. rewrite match_test, bool_decide_true by done. done.
  - assert (Hc : (c < length fl)%nat) by (rewrite Hfl; apply Hbd; set_solver).
    assert (∃ d, hd_error (L ++ [x]) = Some d ∧ nxt fl c = Some d ∧ h ≠ Some d) as (d & Hd & Hn & Hne).
    { destruct L as [|y L]; simpl in *;
        destruct (ring_next _ _ _ _ _ _ Hnd Hring) as [? ?]; rewrite Hh; eauto. }
    do 2 lstep. rewrite match_test, bool_decide_false by (apply HL; set_solver). simpl.
    do 2 lstep. rewrite decide_False by congruence.
    rewrite (IH (A ++ [c])); [| |done|set_solver|done|lia].
    + destruct L; done.
    + by rewrite <-app_assoc.
Qed.

(** Without a match the search ends at the last frame. *)
Lemma lru_find_miss pid vaddr h fl bm l L z : ∀ A fuel c p,
  ring_rep h fl (A ++ L ++ [z]) → hd_error (L ++ [z]) = Some c →
  (∀ i, i ∈ L ++ [z] → ¬ matches fl pid vaddr i) → (length L < fuel)%nat →
  lru_find fuel pid vaddr (Some c) p (LruState h fl bm l) =
    Ok ((Some z, Some z), LruState h fl bm l).
Proof.
  induction L as [|y L IH]; intros A [|fuel] c p Hr Hc HL Hf; simpl in Hf; try lia; simpl in *;
    simplify_eq; pose proof Hr as [Hfl Hh Hnd Hbd Hring].
  - assert (Hc : (c < length fl)%nat) by (rewrite Hfl; apply Hbd; set_solver).
    do 2 lstep. rewrite match_test, bool_decide_false by (apply HL; set_solver). simpl.
    pose proof (ring_next_last _ _ _ _ Hring) as Hn. rewrite <-Hh in Hn.
    destruct h as [h|]; [|by destruct A]. do 2 lstep. by rewrite decide_True.
  - assert (Hc : (c < length fl)%nat) by (rewrite Hfl; apply Hbd; set_solver).
    assert (∃ d, hd_error (L ++ [z]) = Some d ∧ nxt fl c = Some d ∧ h ≠ Some d) as (d & Hd & Hn & Hne).
    { destruct L as [|y L]; simpl in *;
        destruct (ring_next _ _ _ _ _ _ Hnd Hring) as [? ?]; rewrite Hh; eauto. }
    do 2 lstep. rewrite match_test, bool_decide_false by (apply HL; set_solver). simpl.
    do 2 lstep. rewrite decide_False by congruence.
    apply (IH (A ++ [c])); [by rewrite <-app_assoc|done|set_solver|lia].
Qed.

(** Removing a page that is not in the list changes nothing. *)
Lemma lru_free_frame_absent s R pid vaddr : lru_rep s R →
  (pid, vaddr) ∉ entries s R → lru_free_frame pid vaddr s = Ok (tt, s).
Proof.
  destruct s as [hd fl bm l]. intros [Hring Hbits Hlk] HR; simpl in *; subst l.
  pose proof (rr_head _ _ _ Hring) as Hh. destruct R as [|x R]; simpl in Hh; subst hd; [done|].
  assert (HL : ∀ i, i ∈ x :: R → ¬ matches fl pid vaddr i).
  { intros i Hi Hm. apply HR. unfold entries. apply list_elem_of_fmap. by exists i. }
  destruct (last_cons_snoc x R) as (L & z & E).
  assert (Hzin : z ∈ x :: R) by (rewrite E; set_solver).
  assert (Hz : (z < length fl)%nat).
  { rewrite (rr_frames _ _ _ Hring). by apply (rr_bound _ _ _ Hring). }
  pose proof (ring_length _ _ _ Hring) as Hlen. rewrite E, length_app in Hlen. simpl in Hlen.
  assert (Hrun : lru_find (S MAX_FRAME_LRU) pid vaddr (Some x) None (LruState (Some x) fl bm true)
            = Ok ((Some z, Some z), LruState (Some x) fl bm true)).
  { apply (lru_find_miss _ _ _ _ _ _ L z []); [by rewrite <-E|by rewrite <-E| |lia].
    by rewrite <-E. }
  unfold lru_free_frame. do 2 lstep. rewrite (bind_Ok _ _ _ _ _ Hrun). cbv beta iota.
  do 2 lstep. rewrite match_test', bool_decide_false by by apply HL.
  by lstep.
Qed.

(** Removing a page that is in a list of several: its first frame goes. *)
Lemma lru_free_frame_present s A x B pid vaddr : lru_rep s (A ++ x :: B) → A ++ B ≠ [] →
  matches (lru_frame_list s) pid vaddr x →
  (∀ i, i ∈ A → ¬ matches (lru_frame_list s) pid vaddr i) →
  ∃ s', lru_free_frame pid vaddr s = Ok (tt, s') ∧ lru_rep s' (A ++ B) ∧
    entries s' (A ++ B) = entries s (A ++ B).
Proof.
  destruct s as [hd fl bm l]. intros [Hring Hbits Hlk] Hne Hm HA; simpl in *; subst l.
  destruct (ring_unlink _ _ A x B Hring Hne)
    as (a & b & Hp & Hn & Ha & Hb & Hx & HA' & _ & _ & Hal & Hbl & Hxl & Hring').
  pose proof (rr_head _ _ _ Hring) as Hh. pose proof (ring_length _ _ _ Hring) as Hlen.
  rewrite length_app in Hlen. simpl in Hlen.
  assert (a ≠ x) by congruence. assert (b ≠ x) by congruence.
  assert (Hn' : nxt (alter (w_next (Some b)) a fl) x = Some b)
    by (rewrite nxt_w_next by done; by rewrite fupd_ne).
  assert (Hp' : prv (alter (w_next (Some b)) a fl) x = Some a) by by rewrite prv_alter.
  pose proof (br_length _ _ _ Hbits) as Hbm. pose proof (rr_frames _ _ _ Hring) as Hfl.
  assert (∃ h, hd = Some h ∧ hd_error (A ++ [x]) = Some h) as (h & -> & HhA)
    by (destruct A; simpl in *; eauto).
  exists (LruState (hd_error (A ++ B)) (unlink_frames fl a b) (<[x := -1]> bm) false). split_and!.
  - unfold lru_free_frame. do 2 lstep.
    rewrite (bind_Ok _ _ _ _ _ (lru_find_hit pid vaddr _ _ _ _ A x B [] (S MAX_FRAME_LRU) h None
              Hring HhA HA Hm ltac:(lia))). cbv beta iota.
    do 2 lstep. rewrite match_test', bool_decide_true by done.
    destruct A as [|h' A]; simpl in *; simplify_eq.
    + rewrite HA' by done. erewrite bind_Ok; [apply release_Ok|]. lstep. rewrite decide_True by done.
      rewrite !bind_assoc. lstep. lstep. lstep.
      rewrite (bool_decide_false (Some h = Some b)) by congruence. simpl.
      rewrite !bind_assoc. lstep. rewrite !bind_assoc. lstep. rewrite !bind_assoc. lstep.
      rewrite !bind_assoc. lstep. rewrite !bind_assoc. lstep. lstep. lstep.
      apply set_bitmap_Ok. lia.
    + assert (x ≠ h) by set_solver.
      erewrite bind_Ok; [apply release_Ok|]. lstep. rewrite decide_False by congruence.
      lstep. lstep. rewrite bool_decide_false by congruence. simpl.
      rewrite !bind_assoc. lstep. rewrite !bind_assoc. lstep. rewrite !bind_assoc. lstep.
      rewrite !bind_assoc. lstep. rewrite !bind_assoc. lstep. lstep. lstep.
      apply set_bitmap_Ok. lia.
  - constructor; simpl; [done| |done]. apply (bits_remove _ _ _ _ _ Hbits). set_solver.
  - unfold entries. simpl. apply list_fmap_ext. intros ? i _. apply unlink_entry.
Qed.

(** ** [lru_free] *)

(** One iteration on a frame of the process, in a ring of several frames. *)
Lemma lru_free_loop_unlink pid fuel A c B fl bm :
  ring_rep (hd_error (A ++ c :: B)) fl (A ++ c :: B) → bits_rep MAX_FRAME_LRU bm (A ++ c :: B) →
  A ++ B ≠ [] → (entry fl c).1 = pid →
  ∃ fl' n, hd_error (B ++ A) = Some n ∧
    ring_rep (hd_error (A ++ B)) fl' (A ++ B) ∧ (∀ i, entry fl' i = entry fl i) ∧
    lru_free_loop (S fuel) pid (Some c) (LruState (hd_error (A ++ c :: B)) fl bm true) =
    let s' := LruState (hd_error (A ++ B)) fl' (<[c := -1]> bm) true in
    if decide (length (A ++ B) = 1%nat) then Ok (tt, s')
    else if bool_decide (A = []) || bool_decide (Some n ≠ hd_error (A ++ B))
         then lru_free_loop fuel pid (Some n) s'
         else Ok (tt, s').
Proof.
  intros Hring Hbits Hne Hm.
  destruct (ring_unlink _ _ A c B Hring Hne)
    as (a & b & Hp & Hn & Ha & Hb & Hx & HA' & HB' & HBy & Hal & Hbl & Hxl & Hring').
  assert (a ≠ c) by congruence. assert (b ≠ c) by congruence.
  assert (Hp' : prv (alter (w_next (Some b)) a fl) c = Some a) by by rewrite prv_alter.
  assert (Hn' : nxt (alter (w_next (Some b)) a fl) c = Some b)
    by (rewrite nxt_w_next by done; by rewrite fupd_ne).
  assert (Hn'' : nxt (unlink_frames fl a b) c = Some b)
    by (rewrite unlink_nxt by done; by rewrite fupd_ne).
  pose proof (br_length _ _ _ Hbits) as Hbm. pose proof (rr_frames _ _ _ Hring) as Hfl.
  pose proof (unlink_length fl a b) as Hul.
  (* the successor of [b] in the new ring *)
  assert (∃ nb pb, nxt (unlink_frames fl a b) b = Some nb ∧ prv (unlink_frames fl a b) b = Some pb ∧
            (length (A ++ B) = 1%nat ↔ b = nb ∧ b = pb)) as (nb & pb & Hnb & Hpb & Hone).
  { rewrite unlink_nxt, unlink_prv by done. rewrite fupd_eq.
    destruct Hring' as [_ _ Hnd' _ Hr'].
    destruct (A ++ B) as [|x [|y T]] eqn:E; [done| |].
    - assert (a = x ∧ b = x) as [-> ->] by set_solver. rewrite fupd_eq. naive_solver.
    - destruct (list_elem_of_split _ _ Hb) as (T1 & T2 & ET).
      rewrite ET in Hnd', Hr'. rewrite <-unlink_nxt by done.
      destruct T2 as [|y2 T2].
      + pose proof (ring_next_last _ _ _ _ Hr') as Hl.
        destruct T1 as [|z T1]; [done|]. simpl in Hl. eexists z, a. split_and!; [done|done|].
        simpl. split; [lia|]. intros [-> _]. exfalso. apply NoDup_snoc in Hnd' as [? _]. set_solver.
      + destruct (ring_next _ _ _ _ _ _ Hnd' Hr') as [Hl _]. eexists y2, a.
        split_and!; [done|done|]. simpl. split; [lia|]. intros [-> _]. exfalso.
        apply NoDup_app in Hnd' as (_ & _ & Hnd'). apply NoDup_cons in Hnd' as [? _]. set_solver. }
  exists (unlink_frames fl a b), b. split_and!; [|done|intros; apply unlink_entry|].
  { destruct B as [|y B]; simpl; [by apply HB'|]. by rewrite (HBy y B eq_refl). }
  cbn [lru_free_loop]. lstep. rewrite Hm, Z.eqb_refl. cbv zeta.
  assert (Hflag : ∃ fg, (fg = bool_decide (A = [])) ∧
    (h ← mget head;
     flag ← (if decide (Some c = h) then n ← deref h fr_next; set_head n;; mret true else mret false);
     cp ← deref (Some c) fr_prev;
     (match cp with Some _ => cn ← deref (Some c) fr_next; assign cp (w_next cn) | None => mret tt end);;
     cn ← deref (Some c) fr_next;
     (match cn with Some _ => cp ← deref (Some c) fr_prev; assign cn (w_prev cp) | None => mret tt end);;
     index ← frame_index (Some c);
     set_bitmap index (-1);;
     mret flag) (LruState (hd_error (A ++ c :: B)) fl bm true)
    = Ok (fg, LruState (hd_error (A ++ B)) (unlink_frames fl a b) (<[c := -1]> bm) true)).
  { exists (bool_decide (A = [])). split; [done|].
    destruct A as [|x A]; simpl.
    - rewrite HA' by done. lstep. rewrite decide_True by done.
      rewrite !bind_assoc. lstep. rewrite !bind_assoc. lstep. lstep.
      lstep. rewrite !bind_assoc. lstep. lstep. lstep. rewrite !bind_assoc. lstep. lstep. lstep. lstep. done.
    - assert (c ≠ x) by set_solver. lstep. rewrite decide_False by congruence.
      lstep. lstep. rewrite !bind_assoc. lstep. lstep. lstep. rewrite !bind_assoc. lstep. lstep. lstep. lstep. done. }
  destruct Hflag as (fg & Hfg & Hrun). rewrite (bind_Ok _ _ _ _ _ Hrun). do 3 lstep.
  destruct (decide (length (A ++ B) = 1%nat)) as [E1|E1].
  - rewrite decide_True; [done|]. apply Hone in E1. naive_solver.
  - rewrite decide_False; [|intros [E2 E3]; apply E1, Hone; naive_solver].
    lstep. subst fg. by destruct (_ || _).
Qed.

(** One iteration on a frame of another process. *)
Lemma lru_free_loop_keep pid fuel A c B fl bm :
  ring_rep (hd_error (A ++ c :: B)) fl (A ++ c :: B) → (entry fl c).1 ≠ pid →
  ∃ n, hd_error (B ++ A ++ [c]) = Some n ∧
    lru_free_loop (S fuel) pid (Some c) (LruState (hd_error (A ++ c :: B)) fl bm true) =
    let s' := LruState (hd_error (A ++ c :: B)) fl bm true in
    if decide (length (A ++ B) = 0%nat) then Ok (tt, s')
    else if bool_decide (Some n ≠ hd_error (A ++ c :: B))
         then lru_free_loop fuel pid (Some n) s' else Ok (tt, s').
Proof.
  intros Hring Hm. destruct Hring as [Hfl _ Hnd Hbd Hr].
  assert (Hc : (c < length fl)%nat) by (rewrite Hfl; apply Hbd; set_solver).
  assert (∃ n, hd_error (B ++ A ++ [c]) = Some n ∧ nxt fl c = Some n ∧ n ∈ A ++ c :: B)
    as (n & Hn & Hnc & Hin).
  { destruct B as [|d B]; simpl.
    - pose proof (ring_next_last _ _ _ _ Hr) as Hl. destruct A as [|x A]; simpl in *; eexists;
        split_and!; try done; set_solver.
    - destruct (ring_next _ _ _ _ _ _ Hnd Hr) as [Hl _]. eexists. split_and!; [done..|set_solver]. }
  assert (∃ nb pb, nxt fl n = Some nb ∧ prv fl n = Some pb ∧
            (length (A ++ B) = 0%nat ↔ n = nb ∧ n = pb)) as (nb & pb & Hnb & Hpb & Hone).
  { destruct (decide (A ++ B = [])) as [[-> ->]%app_eq_nil|HAB].
    { simpl in Hn. simplify_eq. apply ring_single in Hr as [-> ->]. naive_solver. }
    destruct (list_elem_of_split _ _ Hin) as (T1 & T2 & ET).
    assert (T1 ++ T2 ≠ []) as HT.
    { intros [-> ->]%app_eq_nil. destruct A as [|? [|]], B; simplify_eq/=; done. }
    rewrite ET in Hnd, Hr.
    destruct (ring_remove _ _ _ _ _ Hnd HT Hr) as (a & b & -> & -> & Ha & Hb & _).
    exists b, a. split_and!; [done..|]. split.
    - intros E%nil_length_inv. done.
    - intros [<- _]. exfalso. rewrite <-Permutation_middle in Hnd.
      apply NoDup_cons in Hnd as [? _]. done. }
  exists n. split; [done|]. cbn [lru_free_loop]. lstep. rewrite (proj2 (Z.eqb_neq _ _)) by done.
  do 4 lstep. cbv zeta. destruct (decide (length (A ++ B) = 0%nat)) as [E1|E1].
  - rewrite decide_True; [done|]. apply Hone in E1. naive_solver.
  - rewrite decide_False; [|intros [E2 E3]; apply E1, Hone; naive_solver].
    lstep. simpl. by destruct (bool_decide _).
Qed.

(** The frames that stay: those of other processes; when the process owns all
    of them, the last one is never looked at. *)
Definition survivors (fl : list frame) (pid : Z) (K L : list nat) : list nat :=
  match K ++ filter (λ i, (entry fl i).1 ≠ pid) L with
  | [] => match last L with Some z => [z] | None => [] end
  | R' => R'
  end.

Section survivors.
  Context (fl : list frame) (pid : Z).

Lemma survivors_keep K c L : (entry fl c).1 ≠ pid →
    survivors fl pid K (c :: L) = survivors fl pid (K ++ [c]) L.
  Proof.
    intros Hc. unfold survivors. rewrite filter_cons_True by done.
    rewrite <-app_assoc. simpl. by destruct (K ++ c :: _) eqn:E; [destruct K|].
  Qed.

Lemma survivors_drop K c L : (entry fl c).1 = pid → L ≠ [] →
    survivors fl pid K (c :: L) = survivors fl pid K L.
  Proof.
    intros Hc HL. unfold survivors. rewrite filter_cons_False by naive_solver.
    destruct (K ++ _); [|done]. by destruct L.
  Qed.

Lemma survivors_done K : K ≠ [] → survivors fl pid K [] = K.
  Proof. intros HK. unfold survivors. rewrite filter_nil, app_nil_r. by destruct K. Qed.

Lemma survivors_last K c : K ≠ [] → (entry fl c).1 = pid → survivors fl pid K [c] = K.
  Proof.
    intros HK Hc. unfold survivors. rewrite filter_cons_False by naive_solver.
    rewrite filter_nil, app_nil_r. by destruct K.
  Qed.

Lemma survivors_one d : survivors fl pid [] [d] = [d].
  Proof. unfold survivors. simpl. rewrite filter_cons. by case_decide. Qed.
End survivors.

Lemma lru_free_loop_spec pid fl0 L : ∀ K c L' fl bm fuel,
  L = c :: L' →
  ring_rep (hd_error (K ++ L)) fl (K ++ L) → bits_rep MAX_FRAME_LRU bm (K ++ L) →
  (∀ i, entry fl i = entry fl0 i) → (∀ k, k ∈ K → (entry fl0 k).1 ≠ pid) →
  (K ++ L' ≠ [] ∨ (entry fl0 c).1 ≠ pid) → (length L ≤ fuel)%nat →
  ∃ fl' bm', let R' := survivors fl0 pid K L in
    lru_free_loop fuel pid (Some c) (LruState (hd_error (K ++ L)) fl bm true) =
      Ok (tt, LruState (hd_error R') fl' bm' true) ∧
    ring_rep (hd_error R') fl' R' ∧ bits_rep MAX_FRAME_LRU bm' R' ∧ (∀ i, entry fl' i = entry fl0 i).
Proof.
  induction L as [|c0 L IH]; [done|]. intros K c L' fl bm fuel [= <- <-] Hr Hb He HK Hok Hf.
  destruct fuel as [|fuel]; simpl in Hf; [lia|]. cbv zeta.
  pose proof (rr_nodup _ _ _ Hr) as Hnd.
  destruct (decide ((entry fl0 c0).1 = pid)) as [Hc|Hc].
  - assert (HKL : K ++ L ≠ []) by (destruct Hok; done).
    destruct (lru_free_loop_unlink pid fuel K c0 L fl bm Hr Hb HKL) as (fl' & n & Hn & Hr' & He' & ->);
      [by rewrite He|]. cbv zeta.
    assert (Hb' : bits_rep MAX_FRAME_LRU (<[c0:=-1]> bm) (K ++ L)).
    { apply (bits_remove _ _ _ _ _ Hb). rewrite <-Permutation_middle in Hnd.
      apply NoDup_cons in Hnd as [? _]. set_solver. }
    assert (He'' : ∀ i, entry fl' i = entry fl0 i) by (intros; by rewrite He').
    destruct (decide (length (K ++ L) = 1%nat)) as [E1|E1].
    { exists fl', (<[c0:=-1]> bm).
      assert (survivors fl0 pid K (c0 :: L) = K ++ L) as ->; [|done].
      destruct K as [|k [|]], L as [|d [|]]; simpl in *; try lia; try done.
      - rewrite survivors_drop by done. apply survivors_one.
      - by apply survivors_last. }
    destruct K as [|k K].
    + simpl in *. destruct L as [|d [|d' L]]; [done|done|]. simpl in Hn. simplify_eq.
      rewrite survivors_drop by done.
      simpl in Hf. eapply (IH []); try done; simpl; [by left|lia].
    + rewrite (bool_decide_false (k :: K = [])) by done. simpl orb.
      destruct L as [|d L].
      * simpl in Hn. simplify_eq. rewrite app_nil_r in *. rewrite bool_decide_false by naive_solver.
        exists fl', (<[c0:=-1]> bm). rewrite survivors_last by done. done.
      * simpl in Hn. simplify_eq. rewrite bool_decide_true.
        2: { simpl. intros [= ->]. apply NoDup_app in Hnd as (_ & HH & _). apply (HH k); set_solver. }
        rewrite survivors_drop by done. simpl in Hf. eapply IH; try done; [by left|simpl; lia].
  - destruct (lru_free_loop_keep pid fuel K c0 L fl bm Hr) as (n & Hn & ->); [by rewrite He|].
    cbv zeta. rewrite survivors_keep by done.
    assert (E : K ++ c0 :: L = (K ++ [c0]) ++ L) by by rewrite <-app_assoc.
    destruct (decide (length (K ++ L) = 0%nat)) as [[-> ->]%nil_length_inv%app_eq_nil|E1].
    { exists fl, bm. simpl. rewrite survivors_done by done. done. }
    destruct L as [|d L].
    + rewrite bool_decide_false.
      2: { simpl in Hn. rewrite Hn. naive_solver. }
      exists fl, bm. rewrite survivors_done by by destruct K. done.
    + simpl in Hn. simplify_eq.
      destruct (ring_next _ _ _ _ _ _ Hnd (rr_ring _ _ _ Hr)) as [_ Hne].
      rewrite bool_decide_true by naive_solver. rewrite E in *.
      simpl in Hf. eapply IH; try done; [|left; by destruct K|simpl; lia].
      intros k Hk%elem_of_app. set_solver.
Qed.

(** [lru_free] on a list that is not a single page of the process. *)
Lemma lru_free_rep s c L pid : lru_rep s (c :: L) →
  (L ≠ [] ∨ (entry (lru_frame_list s) c).1 ≠ pid) →
  ∃ s', lru_free pid s = Ok (tt, s') ∧
    let R' := survivors (lru_frame_list s) pid [] (c :: L) in
    lru_rep s' R' ∧ entries s' R' = entries s R'.
Proof.
  destruct s as [hd fl bm l]. intros [Hr Hb Hl] Hok; simpl in *; subst l.
  pose proof (rr_head _ _ _ Hr) as Hh. simpl in Hh. subst hd.
  pose proof (ring_length _ _ _ Hr) as Hlen.
  destruct (lru_free_loop_spec pid fl (c :: L) [] c L fl bm (S MAX_FRAME_LRU))
    as (fl' & bm' & Hrun & Hr' & Hb' & He'); try done; [set_solver|lia|].
  exists (LruState (hd_error (survivors fl pid [] (c :: L))) fl' bm' false). split_and!.
  - unfold lru_free. do 2 lstep. simpl app in Hrun. simpl hd_error in Hrun.
    rewrite (bind_Ok _ _ _ _ _ Hrun). done.
  - done.
  - unfold entries. apply list_fmap_ext. intros. by rewrite He'.
Qed.

(** * Specification: a queue of pages

    The list is a bounded queue of (pid, vaddr) pairs.  An operation that
    would leave the queue empty has no specified result: the code then keeps
    a head that points to a free frame ([lru_free_frame_single] below). *)
Module LruSpec.
Abbreviation page := (Z * Z)%type.

Definition insert (e : page) (q : list page) : list page :=
    if (length q <? MAX_FRAME_LRU)%nat then q ++ [e] else q.

Fixpoint remove (e : page) (q : list page) : list page :=
    match q with
    | [] => []
    | x :: q => if decide (x = e) then q else x :: remove e q
    end.

Lemma remove_length e q : (length (remove e q) ≤ length q)%nat.
Proof. induction q as [|x q IH]; simpl; [done|]. case_decide; simpl; lia. Qed.

Definition free_pages (pid : Z) (q : list page) : list page := filter (λ e, e.1 ≠ pid) q.

Inductive op := OInsert (pid vaddr : Z) | OEvict | OFreeFrame (pid vaddr : Z) | OFree (pid : Z).

  (** A result that is empty although the queue was not is left unspecified. *)
Definition guard (q q' : list page) : option (list page) :=
    match q, q' with _ :: _, [] => None | _, _ => Some q' end.

Definition step (q : list page) (o : op) : option (list page) :=
    match o with
    | OInsert p v => Some (insert (p, v) q)
    | OEvict => guard q (tail q)
    | OFreeFrame p v => guard q (remove (p, v) q)
    | OFree p => guard q (free_pages p q)
    end.

Fixpoint run (q : list page) (os : list op) : option (list page) :=
    match os with
    | [] => Some q
    | o :: os => match step q o with Some q' => run q' os | None => None end
    end.
End LruSpec.

(** [lru_abs s q]: the state [s] implements the queue [q]. *)
Definition lru_abs (s : lru_state) (q : list (Z * Z)) : Prop :=
  ∃ R, lru_rep s R ∧ q = entries s R.

Definition lru_op_run (o : LruSpec.op) : M lru_state unit :=
  match o with
  | LruSpec.OInsert p v => lru_insert p v;; mret tt
  | LruSpec.OEvict => lru_evict;; mret tt
  | LruSpec.OFreeFrame p v => lru_free_frame p v
  | LruSpec.OFree p => lru_free p
  end.

Fixpoint lru_ops_run (os : list LruSpec.op) : M lru_state unit :=
  match os with [] => mret tt | o :: os => lru_op_run o;; lru_ops_run os end.

Lemma entries_length s R : length (entries s R) = length R.
Proof. apply length_fmap. Qed.

Lemma lru_insert_abs s q p v : lru_abs s q → ∃ r s',
  lru_insert p v s = Ok (r, s') ∧ lru_abs s' (LruSpec.insert (p, v) q) ∧
  (r = 0 ↔ (length q < MAX_FRAME_LRU)%nat) ∧ (r = -1 ↔ length q = MAX_FRAME_LRU).
Proof.
  intros (R & Hrep & ->). unfold LruSpec.insert. rewrite entries_length.
  pose proof (ring_length _ _ _ (rep_ring _ _ Hrep)) as Hle.
  destruct (Nat.ltb_spec (length R) MAX_FRAME_LRU) as [Hlt|Hge].
  - destruct (lru_insert_rep _ _ p v Hrep Hlt) as (i & s' & _ & Hrun & Hrep' & He).
    exists 0, s'. split_and!; [done|by exists (R ++ [i])|lia|lia].
  - exists (-1), s. split_and!; [|by exists R|lia|lia].
    destruct Hrep as [Hr Hb Hl]. apply lru_insert_run_full; [done| |].
    + intros h Hh. rewrite Hh in Hr. by eapply ring_prev_Some.
    + eapply bits_full; try done; [apply Hr|apply Hr|lia].
Qed.

Lemma lru_evict_abs s e q : lru_abs s (e :: q) → q ≠ [] →
  ∃ s', lru_evict s = Ok (Some e, s') ∧ lru_abs s' q.
Proof.
  intros (R & Hrep & E) Hq. destruct R as [|x R]; [done|].
  assert (e = entry (lru_frame_list s) x ∧ q = entries s R) as [-> ->] by by simplify_eq/=.
  assert (R ≠ []) by by destruct R.
  destruct (lru_evict_rep _ _ _ Hrep) as (s' & Hrun & Hrep' & He); [done|].
  exists s'. split; [done|]. by exists R.
Qed.

Lemma lru_evict_empty s : lru_abs s [] → lru_evict s = Ok (None, s).
Proof.
  intros (R & [Hr _ _] & E). destruct R; [|done]. pose proof (rr_head _ _ _ Hr) as Hh.
  destruct s as [hd fl bm l]. simpl in Hh. by subst hd.
Qed.

Lemma remove_entries fl A x B e : entry fl x = e → (∀ i, i ∈ A → entry fl i ≠ e) →
  LruSpec.remove e (entry fl <$> A ++ x :: B) = entry fl <$> A ++ B.
Proof.
  intros Hx. induction A as [|a A IH]; intros HA; simpl.
  - by rewrite decide_True.
  - rewrite decide_False by set_solver. f_equal. apply IH. set_solver.
Qed.

Lemma remove_absent e q : e ∉ q → LruSpec.remove e q = q.
Proof.
  induction q as [|a q IH]; simpl; [done|]. intros Hn.
  rewrite decide_False by set_solver. f_equal. apply IH. set_solver.
Qed.

Lemma lru_free_frame_abs s q p v : lru_abs s q →
  LruSpec.guard q (LruSpec.remove (p, v) q) = Some (LruSpec.remove (p, v) q) →
  ∃ s', lru_free_frame p v s = Ok (tt, s') ∧ lru_abs s' (LruSpec.remove (p, v) q).
Proof.
  intros (R & Hrep & ->) Hg.
  destruct (first_split (matches (lru_frame_list s) p v) R) as [(A & x & B & -> & Hx & HA)|HR].
  - unfold entries in *. rewrite (remove_entries _ A x B) in * by done.
    assert (A ++ B ≠ []).
    { intros E. rewrite E in Hg. by destruct A. }
    destruct (lru_free_frame_present _ _ _ _ p v Hrep) as (s' & Hrun & Hrep' & He); [done..|].
    exists s'. split; [done|]. by exists (A ++ B).
  - assert (Hn : (p, v) ∉ entries s R).
    { unfold entries. intros (i & Hi & HiR)%list_elem_of_fmap. by apply (HR i). }
    rewrite remove_absent by done. exists s. split; [|by exists R].
    by eapply lru_free_frame_absent.
Qed.

Lemma filter_entries fl pid (R : list nat) :
  filter (λ e : Z * Z, e.1 ≠ pid) (entry fl <$> R) = entry fl <$> filter (λ i, (entry fl i).1 ≠ pid) R.
Proof.
  induction R as [|i R IH]; [done|]. rewrite fmap_cons, !filter_cons.
  destruct (decide ((entry fl i).1 ≠ pid)); simpl; by rewrite IH.
Qed.

Lemma lru_free_abs s q pid : lru_abs s q →
  LruSpec.guard q (LruSpec.free_pages pid q) = Some (LruSpec.free_pages pid q) →
  ∃ s', lru_free pid s = Ok (tt, s') ∧ lru_abs s' (LruSpec.free_pages pid q).
Proof.
  intros (R & Hrep & ->) Hg. destruct R as [|c L].
  { exists s. split; [|by exists []]. pose proof (rr_head _ _ _ (rep_ring _ _ Hrep)) as Hh.
    destruct s as [hd fl bm l]. simpl in Hh. by subst hd. }
  unfold LruSpec.free_pages, entries in *. rewrite filter_entries in *.
  destruct (filter (λ i, (entry (lru_frame_list s) i).1 ≠ pid) (c :: L)) as [|y F] eqn:EF; [done|].
  destruct (lru_free_rep s c L pid Hrep) as (s' & Hrun & Hrep' & He).
  { destruct L; [right|by left]. rewrite filter_cons in EF. by case_decide. }
  exists s'. split; [done|]. unfold survivors in *. simpl app in *. rewrite EF in *.
  by exists (y :: F).
Qed.

(** When every page belongs to the process, the last one stays in the list. *)
Lemma lru_free_all_abs s q z pid : lru_abs s (q ++ [z]) → q ≠ [] →
  (∀ e, e ∈ q ++ [z] → e.1 = pid) →
  ∃ s', lru_free pid s = Ok (tt, s') ∧ lru_abs s' [z].
Proof.
  intros (R & Hrep & E) Hq Hall. destruct R as [|c L]; [by destruct q|].
  assert (L ≠ []). { destruct L; [|done]. by destruct q as [|? [|]]. }
  destruct (lru_free_rep s c L pid Hrep) as (s' & Hrun & Hrep' & He); [by left|].
  exists s'. split; [done|]. unfold survivors in *. simpl app in *.
  assert (EF : filter (λ i, (entry (lru_frame_list s) i).1 ≠ pid) (c :: L) = []).
  { apply elem_of_nil_inv. intros i (Hn & Hi)%list_elem_of_filter. apply Hn, Hall. rewrite E. unfold entries.
    apply list_elem_of_fmap. by exists i. }
  rewrite EF in *. destruct (last_cons_snoc c L) as (l0 & y & El).
  rewrite El, last_snoc in *. exists [y]. split; [done|]. rewrite He.
  unfold entries in E |- *. rewrite fmap_app in E. simpl in E.
  by apply app_inj_tail in E as [_ ->].
Qed.

(** * Theorems *)

(** After [lru_swap_init] on the zeroed data segment the list is empty. *)
Lemma lru_init_abs : ∃ s, lru_init lru_bss = Ok (tt, s) ∧ lru_abs s [].
Proof.
  eexists. split; [done|]. exists []. split; [|done].
  constructor; simpl; [|constructor|done].
  - constructor; simpl; [by rewrite length_replicate|done|constructor|set_solver|done].
  - by rewrite length_fmap, length_replicate.
  - intros i b. rewrite list_lookup_fmap. by intros (x & _ & ->)%fmap_Some.
Qed.

Lemma lru_op_abs s q q' o : lru_abs s q → LruSpec.step q o = Some q' →
  ∃ s', lru_op_run o s = Ok (tt, s') ∧ lru_abs s' q'.
Proof.
  intros Hs Ho. destruct o as [p v| |p v|p]; simpl in *.
  - simplify_eq. destruct (lru_insert_abs _ _ p v Hs) as (r & s' & Hrun & Habs & _).
    exists s'. by rewrite (bind_Ok _ _ _ _ _ Hrun).
  - destruct q as [|e [|e' q]]; simpl in Ho; simplify_eq.
    + exists s. by rewrite (bind_Ok _ _ _ _ _ (lru_evict_empty _ Hs)).
    + destruct (lru_evict_abs _ _ _ Hs) as (s' & Hrun & Habs); [done|].
      exists s'. by rewrite (bind_Ok _ _ _ _ _ Hrun).
  - assert (q' = LruSpec.remove (p, v) q) as ->.
    { unfold LruSpec.guard in Ho. destruct q; [by simplify_eq|]. by destruct (LruSpec.remove _ _); simplify_eq. }
    by apply lru_free_frame_abs.
  - assert (q' = LruSpec.free_pages p q) as ->.
    { unfold LruSpec.guard in Ho. destruct q; [by simplify_eq|]. by destruct (LruSpec.free_pages _ _); simplify_eq. }
    by apply lru_free_abs.
Qed.

(** C9. Every sequence of LRU operations whose queue never drains runs to
    completion (no panic, no wild pointer, no loop without end) and the ring
    that results implements the queue of the specification: inserts go to the
    tail, evictions take the oldest page, [lru_free_frame] removes one page
    and [lru_free] all pages of a process. *)
Theorem lru_ops_refine_queue (os : list LruSpec.op) (s : lru_state) (q q' : list (Z * Z)) :
  lru_abs s q → LruSpec.run q os = Some q' →
  ∃ s', lru_ops_run os s = Ok (tt, s') ∧ lru_abs s' q'.
Proof.
  revert s q. induction os as [|o os IH]; intros s q Hs Hr; simpl in *; simplify_eq; [eauto|].
  destruct (LruSpec.step q o) as [q1|] eqn:E; [|done].
  destruct (lru_op_abs _ _ _ _ Hs E) as (s1 & Hrun & Hs1).
  rewrite (bind_Ok _ _ _ _ _ Hrun). eauto.
Qed.

(** Two inserts, an eviction and a free: the hypotheses of the refinement are
    met from the initial state. *)
Lemma lru_ops_refine_queue_witness :
  ∃ s s', lru_init lru_bss = Ok (tt, s) ∧
    lru_ops_run [LruSpec.OInsert 1 4096; LruSpec.OInsert 2 8192; LruSpec.OEvict] s = Ok (tt, s') ∧
    lru_abs s' [(2, 8192)].
Proof.
  destruct lru_init_abs as (s & Hs & Habs).
  destruct (lru_ops_refine_queue
    [LruSpec.OInsert 1 4096; LruSpec.OInsert 2 8192; LruSpec.OEvict] s [] [(2, 8192)] Habs eq_refl)
    as (s' & Hrun & Habs').
  exists s, s'. split_and!; done.
Defined.

(** [lru_insert] returns 0 and appends the page when a frame is free, and
    returns -1 and changes nothing when all [MAX_FRAME_LRU] frames are used. *)
Lemma lru_insert_result (s : lru_state) (q : list (Z * Z)) (pid vaddr : Z) :
  lru_abs s q →
  if decide (length q < MAX_FRAME_LRU)%nat
  then ∃ s', lru_insert pid vaddr s = Ok (0, s') ∧ lru_abs s' (q ++ [(pid, vaddr)])
  else lru_insert pid vaddr s = Ok (-1, s).
Proof.
  intros (R & Hrep & ->). rewrite entries_length. case_decide as Hd.
  - destruct (lru_insert_rep _ _ pid vaddr Hrep Hd) as (i & s' & _ & Hrun & Hrep' & He).
    exists s'. split; [done|]. by exists (R ++ [i]).
  - pose proof (ring_length _ _ _ (rep_ring _ _ Hrep)) as Hle.
    destruct Hrep as [Hr Hb Hl]. apply lru_insert_run_full; [done| |].
    + intros h Hh. rewrite Hh in Hr. by eapply ring_prev_Some.
    + eapply bits_full; try done; [apply Hr|apply Hr|lia].
Qed.


(** A list whose pages all belong to the exiting process is not emptied by
    [lru_free]: its newest page stays in the list. *)
Lemma lru_free_keeps_last_page (s : lru_state) (q : list (Z * Z)) (z : Z * Z) (pid : Z) :
  lru_abs s (q ++ [z]) → q ≠ [] → (∀ e, e ∈ q ++ [z] → e.1 = pid) →
  ∃ s', lru_free pid s = Ok (tt, s') ∧ lru_abs s' [z].
Proof. apply lru_free_all_abs. Qed.


(** Freeing the only page of the list marks its frame as free and leaves
    [lru.head] on that frame. *)
Lemma lru_free_frame_single (s : lru_state) (x : nat) (pid vaddr : Z) :
  lru_rep s [x] → entry (lru_frame_list s) x = (pid, vaddr) →
  ∃ s', lru_free_frame pid vaddr s = Ok (tt, s') ∧
    head s' = Some x ∧ frame_bitmap s' = <[x := -1]> (frame_bitmap s) ∧ lru_lk s' = false ∧
    ring_rep (Some x) (lru_frame_list s') [x].
Proof.
  destruct s as [hd fl bm l]. intros [Hring Hbits Hlk] Hm; simpl in *; subst l.
  pose proof (rr_head _ _ _ Hring) as Hh. simpl in Hh. subst hd.
  pose proof (br_length _ _ _ Hbits) as Hbm.
  assert (Hx : (x < MAX_FRAME_LRU)%nat) by (apply (rr_bound _ _ _ Hring); set_solver).
  pose proof (rr_frames _ _ _ Hring) as Hfl.
  assert (Hxl : (x < length fl)%nat) by lia.
  destruct (proj1 (ring_single _ _ _) (rr_ring _ _ _ Hring)) as [Hn Hp].
  assert (Hn' : nxt (alter (w_next (Some x)) x fl) x = Some x)
    by (rewrite nxt_w_next by done; by rewrite fupd_eq).
  assert (Hp' : prv (alter (w_next (Some x)) x fl) x = Some x) by by rewrite prv_alter.
  exists (LruState (Some x) (unlink_frames fl x x) (<[x := -1]> bm) false). simpl. split_and!; try done.
  - unfold lru_free_frame. do 2 lstep.
    rewrite (bind_Ok _ _ _ _ _ (lru_find_hit pid vaddr _ _ _ _ [] x [] [] (S MAX_FRAME_LRU) x None
              Hring eq_refl ltac:(set_solver) Hm ltac:(simpl; lia))). cbv beta iota.
    do 2 lstep. rewrite match_test', bool_decide_true by done.
    erewrite bind_Ok; [apply release_Ok|]. lstep. rewrite decide_True by done.
    rewrite !bind_assoc. lstep. lstep. lstep. rewrite bool_decide_true by done. simpl.
    rewrite !bind_assoc. lstep. rewrite !bind_assoc. lstep. rewrite !bind_assoc. lstep.
    rewrite !bind_assoc. lstep. rewrite !bind_assoc. lstep. lstep. lstep.
    apply set_bitmap_Ok. lia.
  - constructor; rewrite ?unlink_length; try done; try apply Hring.
    apply ring_single. rewrite unlink_nxt, unlink_prv by done. by rewrite !fupd_eq.
Qed.


(** ** [lru_read] *)

Definition line (fl : list frame) (i : nat) : Z * nat * Z := ((entry fl i).1, i, (entry fl i).2).

Lemma lru_read_loop_run h fl bm l L : ∀ A fuel c,
  A ≠ [] → ring_rep h fl (A ++ L) → hd_error (L ++ A) = Some c → (length L < fuel)%nat →
  lru_read_loop fuel (Some c) (LruState h fl bm l) = Ok (line fl <$> L, LruState h fl bm l).
Proof.
  induction L as [|x L IH]; intros A [|fuel] c HA Hr Hc Hf; simpl in Hf; try lia;
    cbn [lru_read_loop]; pose proof Hr as [Hfl Hh Hnd Hbd Hring].
  - lstep. rewrite app_nil_r in Hh. simpl in Hc. rewrite decide_True; [done|]. congruence.
  - simpl in Hc. simplify_eq.
    assert (Hcl : (c < length fl)%nat) by (rewrite Hfl; apply Hbd; set_solver).
    assert (hd_error (A ++ c :: L) ≠ Some c).
    { destruct A as [|a A]; [done|]. simpl. intros [= ->]. simpl in Hnd.
      apply NoDup_cons in Hnd as [? _]. set_solver. }
    assert (∃ d, nxt fl c = Some d ∧ hd_error (L ++ A ++ [c]) = Some d) as (d & Hd & Hd').
    { destruct L as [|d L].
      - rewrite (ring_next_last _ _ _ _ Hring). destruct A; [done|]. simpl. eauto.
      - destruct (ring_next _ _ _ _ _ _ Hnd Hring) as [? _]. simpl. eauto. }
    lstep. rewrite decide_False by congruence. do 4 lstep.
    rewrite (bind_Ok _ _ _ _ _ (IH (A ++ [c]) fuel d ltac:(by destruct A)
      ltac:(by rewrite <-app_assoc) Hd' ltac:(lia))). done.
Qed.

(** [lru_read] prints the pages of the list once each, from the oldest to
    the newest, with the index of the frame that holds them. *)
Lemma lru_read_lines (s : lru_state) (R : list nat) :
  lru_rep s R → lru_read s = Ok (line (lru_frame_list s) <$> R, s).
Proof.
  destruct s as [hd fl bm l]. intros [Hr _ _]; simpl in *.
  pose proof (rr_head _ _ _ Hr) as Hh. destruct R as [|x R]; simpl in Hh; subst hd; [done|].
  assert (Hx : (x < length fl)%nat).
  { rewrite (rr_frames _ _ _ Hr). apply (rr_bound _ _ _ Hr). set_solver. }
  assert (∃ d, nxt fl x = Some d ∧ hd_error (R ++ [x]) = Some d) as (d & Hd & Hd').
  { destruct R as [|d R].
    - rewrite (ring_next_last _ _ [] _ (rr_ring _ _ _ Hr)). simpl. eauto.
    - destruct (ring_next _ _ [] _ _ _ (rr_nodup _ _ _ Hr) (rr_ring _ _ _ Hr)) as [? _]. simpl. eauto. }
  pose proof (ring_length _ _ _ Hr) as Hlen. simpl in Hlen.
  unfold lru_read. do 5 lstep.
  by rewrite (bind_Ok _ _ _ _ _ (lru_read_loop_run _ _ _ _ R [x] (S MAX_FRAME_LRU) d
    ltac:(done) Hr Hd' ltac:(lia))).
Qed.


(** The stale head loses pages.  Pages 1 and 2 are inserted and freed,
    which drains the list with the head left on frame 1; of the two pages
    inserted next, only the second can still be reached, while frame 0 of the
    first one stays marked as used. *)
Lemma lru_drained_list_loses_page :
  outcome (lru_init;;
           lru_ops_run [LruSpec.OInsert 1 4096; LruSpec.OInsert 1 8192;
                        LruSpec.OFreeFrame 1 4096; LruSpec.OFreeFrame 1 8192;
                        LruSpec.OInsert 2 12288; LruSpec.OInsert 2 16384];;
           lines ← lru_read;
           bm ← mget frame_bitmap;
           mret (lines, bm !! 0%nat)) lru_bss
  = Some ([(2, 1%nat, 16384)], Some 1).
Proof. vm_compute. reflexivity. Qed.
