(* ===== verification/Swap.v ===== *)
(** Swap slots (lru_swap.c, lru_swap.h).

    [swap.swap_frame_list] is an array of disk frames.  Each process keeps the
    slots that hold its pages as a singly linked list through the indices in
    [next], terminated by -1; [p->swap_list] points to the first.  A pointer
    to a disk frame is its index, the null pointer is [None].  The operations
    here take the list of the process as an argument; the functions of the
    kernel that run them on a process are in [Paging]. *)

From Stdlib Require Import ZArith Lia.
From stdpp Require Import base numbers strings option gmap sets list list_numbers.
From S2P Require Import Prelude Spinlock Bitmap.

(** * Data *)

Definition MAX_FRAME_SWAP : nat := Z.to_nat 2560.
#[global] Opaque MAX_FRAME_SWAP.

Record disk_frame := DiskFrame {
  df_vaddr : Z;
  df_next : Z;
  df_swap : Z;
  df_count : Z
}.

Record swap_state := SwapState {
  swap_frame_list : list disk_frame;
  swap_bitmap : list Z;
  swap_lk : bool
}.

Definition slk : lens swap_state bool :=
  Lens swap_lk (λ b s, SwapState (swap_frame_list s) (swap_bitmap s) b).

(** [df->f] and [df->f = v]. *)
Definition sderef {T} (p : option nat) (f : disk_frame → T) : M swap_state T := λ s,
  match p with
  | Some i => match swap_frame_list s !! i with Some d => Ok (f d, s) | None => Fault end
  | None => Fault
  end.

Definition sassign (p : option nat) (g : disk_frame → disk_frame) : M swap_state unit := λ s,
  match p with
  | Some i =>
      match swap_frame_list s !! i with
      | Some d => Ok (tt, SwapState (<[i := g d]> (swap_frame_list s)) (swap_bitmap s) (swap_lk s))
      | None => Fault
      end
  | None => Fault
  end.

(** [&(swap.swap_frame_list[n])]: the address may only be used in range. *)
Definition frame_at (n : Z) : option nat := if 0 <=? n then Some (Z.to_nat n) else None.

Definition set_sbit (i : nat) (v : Z) : M swap_state unit := λ s,
  match swap_bitmap s !! i with
  | Some _ => Ok (tt, SwapState (swap_frame_list s) (<[i := v]> (swap_bitmap s)) (swap_lk s))
  | None => Fault
  end.

Definition d_vaddr (v : Z) (d : disk_frame) := DiskFrame v (df_next d) (df_swap d) (df_count d).
Definition d_next (v : Z) (d : disk_frame) := DiskFrame (df_vaddr d) v (df_swap d) (df_count d).
Definition d_swap (v : Z) (d : disk_frame) := DiskFrame (df_vaddr d) (df_next d) v (df_count d).
Definition d_count (v : Z) (d : disk_frame) := DiskFrame (df_vaddr d) (df_next d) (df_swap d) v.

(** * Operations *)

Definition swap_bss : swap_state :=
  SwapState (replicate MAX_FRAME_SWAP (DiskFrame 0 0 0 0)) (replicate MAX_FRAME_SWAP 0) false.

(** The loop of [lru_swap_init] over the swap bitmap. *)
Definition swap_init : M swap_state unit :=
  mmod (λ s, SwapState (swap_frame_list s) ((λ _, -1) <$> swap_bitmap s) (swap_lk s)).

Definition swap_get_free_frame : M swap_state Z :=
  bm ← mget swap_bitmap;
  match first_free 0 bm with
  | Some i => set_sbit i 1;; mret (Z.of_nat i)
  | None => mret (-1)
  end.

(** [while (curr->next != -1) curr = &(swap.swap_frame_list[curr->next]);] *)
Fixpoint swap_last (fuel : nat) (curr : option nat) : M swap_state (option nat) :=
  match fuel with
  | O => mnofuel
  | S fuel =>
      n ← sderef curr df_next;
      if n =? -1 then mret curr else swap_last fuel (frame_at n)
  end.

(** The part of [swap_out], [swap_out_stack] and [swap_out_heap] that works on
    the list: a slot is taken and appended.  Returns the slot and the new
    [p->swap_list], or [None] with the lock still held when no slot is free.
    [kind] is the number of the swap space, 0, 1 or 2. *)
Definition swap_append (swap_list : option nat) (vaddr kind : Z)
    : M swap_state (option (Z * option nat)) :=
  match swap_list with
  | None =>
      acquire slk;;
      findex ← swap_get_free_frame;
      if findex <? 0 then mret None
      else
        let i := Some (Z.to_nat findex) in
        sassign i (d_next (-1));;
        sassign i (d_vaddr vaddr);;
        sassign i (d_swap kind);;
        sassign i (d_count 1);;
        release slk;;
        mret (Some (findex, i))
  | Some _ =>
      curr ← swap_last (S MAX_FRAME_SWAP) swap_list;
      acquire slk;;
      findex ← swap_get_free_frame;
      if findex <? 0 then mret None
      else
        let i := Some (Z.to_nat findex) in
        sassign curr (d_next findex);;
        sassign i (d_next (-1));;
        sassign i (d_vaddr vaddr);;
        sassign i (d_swap kind);;
        sassign i (d_count 1);;
        release slk;;
        mret (Some (findex, swap_list))
  end.

(** The search loop of [swap_in]: [curr] and [prev] when it ends. *)
Fixpoint swap_search (fuel : nat) (vaddr : Z) (curr prev : option nat)
    : M swap_state (option nat * option nat) :=
  match fuel with
  | O => mnofuel
  | S fuel =>
      n ← sderef curr df_next;
      if n =? -1 then mret (curr, prev)
      else
        v ← sderef curr df_vaddr;
        if v =? vaddr then mret (curr, prev)
        else swap_search fuel vaddr (frame_at n) curr
  end.

(** The part of [swap_in], [swap_in_stack] and [swap_in_heap] that works on the
    list: the slot of [vaddr] loses one reference and is unlinked and freed
    with the last one.  Returns the slot and the new [p->swap_list]. *)
Definition swap_take (swap_list : option nat) (vaddr : Z)
    : M swap_state (option (nat * option nat)) :=
  match swap_list with
  | None => mret None
  | Some _ =>
      acquire slk;;
      '(curr, prev) ← swap_search (S MAX_FRAME_SWAP) vaddr swap_list None;
      v ← sderef curr df_vaddr;
      if negb (v =? vaddr) then release slk;; mret None
      else
        findex ← mopt curr;
        c ← sderef (Some findex) df_count;
        sassign (Some findex) (d_count (c - 1));;
        c ← sderef (Some findex) df_count;
        swap_list' ←
          (if c =? 0 then
             l ← (if decide (Some findex = swap_list) then
                    n ← sderef (Some findex) df_next;
                    if n =? -1 then mret None
                    else mret (frame_at n)
                  else
                    n ← sderef curr df_next;
                    sassign prev (d_next n);;
                    mret swap_list);
             set_sbit findex (-1);;
             mret l
           else mret swap_list);
        release slk;;
        mret (Some (findex, swap_list'))
  end.

(** The while loop of [swap_check]. *)
Fixpoint swap_check_loop (fuel : nat) (vaddr : Z) (df : option nat) : M swap_state Z :=
  match fuel with
  | O => mnofuel
  | S fuel =>
      n ← sderef df df_next;
      if n =? -1 then release slk;; mret (-1)
      else
        v ← sderef df df_vaddr;
        if v =? vaddr then release slk;; sderef df df_swap
        else
          let df := frame_at n in
          n ← sderef df df_next;
          if n =? -1 then
            v ← sderef df df_vaddr;
            if v =? vaddr then release slk;; sderef df df_swap
            else swap_check_loop fuel vaddr df
          else swap_check_loop fuel vaddr df
  end.

Definition swap_check (swap_list : option nat) (vaddr : Z) : M swap_state Z :=
  match swap_list with
  | None => mret (-1)
  | Some _ =>
      acquire slk;;
      n ← sderef swap_list df_next;
      if n =? -1 then
        v ← sderef swap_list df_vaddr;
        if v =? vaddr then release slk;; sderef swap_list df_swap
        else swap_check_loop (S MAX_FRAME_SWAP) vaddr swap_list
      else swap_check_loop (S MAX_FRAME_SWAP) vaddr swap_list
  end.

(** The while loop of [swap_free]. *)
Fixpoint swap_free_loop (fuel : nat) (curr : option nat) : M swap_state unit :=
  match fuel with
  | O => mnofuel
  | S fuel =>
      n ← sderef curr df_next;
      if n =? -1 then mret tt
      else
        index ← mopt curr;
        set_sbit index (-1);;
        let curr := frame_at n in
        n ← sderef curr df_next;
        (if n =? -1 then index ← mopt curr; set_sbit index (-1) else mret tt);;
        swap_free_loop fuel curr
  end.

(** [swap_free] for a process that has not forked: the slots of its list are
    marked free.  Returns the new [p->swap_list]. *)
Definition swap_free_list (swap_list : option nat) : M swap_state (option nat) :=
  acquire slk;;
  match swap_list with
  | None => release slk;; mret swap_list
  | Some _ =>
      n ← sderef swap_list df_next;
      if n =? -1 then
        index ← mopt swap_list;
        set_sbit index (-1);;
        release slk;;
        mret swap_list
      else
        swap_free_loop (S MAX_FRAME_SWAP) swap_list;;
        release slk;;
        mret None
  end.

(** [swap_read]: the lines printed, (index, vaddr, count, swap). *)
Fixpoint swap_read_loop (fuel : nat) (df : option nat) : M swap_state (list (nat * Z * Z * Z)) :=
  match fuel with
  | O => mnofuel
  | S fuel =>
      n ← sderef df df_next;
      i ← mopt df;
      v ← sderef df df_vaddr;
      c ← sderef df df_count;
      w ← sderef df df_swap;
      if n =? -1 then mret [(i, v, c, w)]
      else
        rest ← swap_read_loop fuel (frame_at n);
        mret ((i, v, c, w) :: rest)
  end.

Definition swap_read (swap_list : option nat) : M swap_state (list (nat * Z * Z * Z)) :=
  match swap_list with
  | None => mret []
  | Some _ => swap_read_loop (S MAX_FRAME_SWAP) swap_list
  end.

(** The while loop of [swap_fork]. *)
Fixpoint swap_fork_loop (fuel : nat) (curr : option nat) : M swap_state unit :=
  match fuel with
  | O => mnofuel
  | S fuel =>
      n ← sderef curr df_next;
      if n =? -1 then mret tt
      else
        c ← sderef curr df_count;
        sassign curr (d_count (c + 1));;
        n ← sderef curr df_next;
        let curr := frame_at n in
        n ← sderef curr df_next;
        (if n =? -1 then c ← sderef curr df_count; sassign curr (d_count (c + 1)) else mret tt);;
        swap_fork_loop fuel curr
  end.

Definition swap_fork (swap_list : option nat) : M swap_state unit :=
  match swap_list with
  | None => mret tt
  | Some _ =>
      n ← sderef swap_list df_next;
      if n =? -1 then
        c ← sderef swap_list df_count; sassign swap_list (d_count (c + 1))
      else swap_fork_loop (S MAX_FRAME_SWAP) swap_list
  end.

(** * Lists of slots *)

(** [slist fl p L]: from [p], the links visit the slots [L] and then end. *)
Fixpoint slist (fl : list disk_frame) (p : option nat) (L : list nat) : Prop :=
  match L with
  | [] => p = None
  | i :: L' =>
      p = Some i ∧ ∃ d, fl !! i = Some d ∧
        df_next d = match L' with [] => -1 | j :: _ => Z.of_nat j end ∧
        slist fl (hd_error L') L'
  end.

Lemma frame_at_nat j : frame_at (Z.of_nat j) = Some j.
Proof.
  unfold frame_at. rewrite (proj2 (Z.leb_le 0 _)) by lia. by rewrite Nat2Z.id.
Qed.

Section slist.
  Implicit Types (fl : list disk_frame) (L : list nat) (p : option nat).

Lemma slist_head fl p L : slist fl p L → p = hd_error L.
  Proof. destruct L; simpl; naive_solver. Qed.

  (** Only the [next] fields of the slots on the list matter. *)
Lemma slist_ext fl fl' p L :
    (∀ i, i ∈ L → df_next <$> fl' !! i = df_next <$> fl !! i) → slist fl p L → slist fl' p L.
  Proof.
    revert p. induction L as [|i L IH]; simpl; [done|].
    intros p H (-> & d & Hd & Hn & HL). split; [done|].
    assert (Hi : df_next <$> fl' !! i = Some (df_next d)) by (rewrite H, Hd by set_solver; done).
    apply fmap_Some in Hi as (d' & Hd' & Hn'). exists d'.
    split_and!; [done|congruence|]. apply IH; [set_solver|done].
  Qed.

  (** Slots that are not on the list may change. *)
Lemma slist_frame fl fl' p L :
    (∀ i, i ∈ L → fl' !! i = fl !! i) → slist fl p L → slist fl' p L.
  Proof.
    intros H. apply slist_ext. intros i Hi. by rewrite H.
  Qed.

Lemma slist_lookup fl p L i : slist fl p L → i ∈ L → is_Some (fl !! i).
  Proof.
    revert p. induction L as [|j L IH]; simpl; [set_solver|].
    intros p (-> & d & Hd & _ & HL) [->|Hi]%elem_of_cons; eauto.
  Qed.

  (** The links out of a slot, by its place on the list. *)
Lemma slist_next fl p A i B : slist fl p (A ++ i :: B) →
    ∃ d, fl !! i = Some d ∧ df_next d = match B with [] => -1 | j :: _ => Z.of_nat j end.
  Proof.
    revert p. induction A as [|a A IH]; simpl; intros p; [naive_solver|].
    intros (_ & d & _ & _ & HL). by apply IH in HL.
  Qed.

  (** The list from one of its slots on. *)
Lemma slist_suffix fl p A B : slist fl p (A ++ B) → slist fl (hd_error B) B.
  Proof.
    revert p. induction A as [|a A IH]; simpl; intros p.
    - intros H. by rewrite <-(slist_head _ _ _ H).
    - intros (_ & d & _ & _ & HL). by apply IH in HL.
  Qed.

  (** Appending a slot after the last one. *)
Lemma slist_snoc fl p L z i d : i ∉ L ++ [z] → NoDup (L ++ [z]) → (i < length fl)%nat →
    df_next d = -1 → slist fl p (L ++ [z]) →
    slist (<[i := d]> (alter (d_next (Z.of_nat i)) z fl)) p ((L ++ [z]) ++ [i]).
  Proof.
    intros Hi Hnd Hlen Hd. revert p. induction L as [|a L IH]; simpl; intros p.
    - intros (-> & dz & Hz & _ & _). split; [done|].
      exists (d_next (Z.of_nat i) dz). assert (i ≠ z) by set_solver.
      rewrite list_lookup_insert_ne by done. rewrite list_lookup_alter, decide_True, Hz by done.
      split_and!; [done..|]. exists d.
      split_and!; [|done|done]. apply list_lookup_insert_eq. by rewrite length_alter.
    - intros (-> & da & Ha & Hn & HL). simpl in Hnd. apply NoDup_cons in Hnd as [HaL Hnd].
      split; [done|]. exists da.
      assert (i ≠ a) by set_solver. assert (z ≠ a) by set_solver.
      rewrite list_lookup_insert_ne by done. rewrite list_lookup_alter, decide_False by done.
      split_and!; [done|by destruct L|].
      replace (hd_error ((L ++ [z]) ++ [i])) with (hd_error (L ++ [z])) by by destruct L.
      apply IH; [set_solver|done..].
  Qed.

  (** Taking an inner slot off the list. *)
Lemma slist_unlink fl p A a x B : NoDup (A ++ a :: x :: B) →
    slist fl p (A ++ a :: x :: B) →
    slist (alter (d_next (match B with [] => -1 | j :: _ => Z.of_nat j end)) a fl) p (A ++ a :: B).
  Proof.
    revert p. induction A as [|c A IH]; simpl; intros p Hnd.
    - intros (-> & da & Ha & _ & _ & dx & Hx & Hnx & HB). apply NoDup_cons in Hnd as [Hnd _].
      split; [done|]. eexists. rewrite list_lookup_alter, decide_True, Ha by done.
      split_and!; [done|done|]. revert HB. apply slist_frame.
      intros i Hi. rewrite list_lookup_alter, decide_False; [done|]. set_solver.
    - intros (-> & dc & Hc & Hn & HL). apply NoDup_cons in Hnd as [Hc' Hnd].
      split; [done|]. exists dc. rewrite list_lookup_alter, decide_False by set_solver.
      split_and!; [done| |].
      + by destruct A.
      + replace (hd_error (A ++ a :: B)) with (hd_error (A ++ a :: x :: B)) by by destruct A.
        by apply IH.
  Qed.
End slist.

(** * The invariant *)

(** [swap_rep s p L O]: the process with [swap_list = p] owns the slots [L],
    in this order; the slots [O] are in use by other processes. *)
Record swap_rep (s : swap_state) (p : option nat) (L O : list nat) : Prop := SwapRep {
  sr_frames : length (swap_frame_list s) = MAX_FRAME_SWAP;
  sr_list : slist (swap_frame_list s) p L;
  sr_nodup : NoDup (L ++ O);
  sr_bound : ∀ i, i ∈ L ++ O → (i < MAX_FRAME_SWAP)%nat;
  sr_bits : bits_rep MAX_FRAME_SWAP (swap_bitmap s) (L ++ O);
  sr_lk : swap_lk s = false
}.

(** * Steps *)

Section steps.
  Context (fl : list disk_frame) (bm : list Z) (l : bool).

Lemma sderef_Ok {T} (f : disk_frame → T) i d : fl !! i = Some d →
    sderef (Some i) f (SwapState fl bm l) = Ok (f d, SwapState fl bm l).
  Proof. intros H. unfold sderef. simpl. by rewrite H. Qed.

Lemma sassign_Ok i g : (i < length fl)%nat →
    sassign (Some i) g (SwapState fl bm l) = Ok (tt, SwapState (alter g i fl) bm l).
  Proof.
    intros [d E]%lookup_lt_is_Some_2. unfold sassign. simpl. rewrite E. repeat f_equal.
    apply list_eq. intros j. rewrite list_lookup_alter.
    destruct (decide (i = j)) as [->|Hne].
    - rewrite E. rewrite list_lookup_insert_eq; [done|]. by apply lookup_lt_Some in E.
    - by rewrite list_lookup_insert_ne.
  Qed.

Lemma set_sbit_Ok i v : (i < length bm)%nat →
    set_sbit i v (SwapState fl bm l) = Ok (tt, SwapState fl (<[i := v]> bm) l).
  Proof. intros [b E]%lookup_lt_is_Some_2. unfold set_sbit. simpl. by rewrite E. Qed.

Lemma acquire_swap : acquire slk (SwapState fl bm false) = Ok (tt, SwapState fl bm true).
  Proof. done. Qed.

Lemma release_swap : release slk (SwapState fl bm true) = Ok (tt, SwapState fl bm false).
  Proof. done. Qed.
End steps.

Ltac swap_bound := rewrite ?length_alter, ?length_insert; (assumption || lia).

Create HintDb swap.
#[export] Hint Extern 1 (sassign _ _ _ = _) => (apply sassign_Ok; swap_bound) : swap.
#[export] Hint Extern 1 (sderef _ _ _ = _) => (apply sderef_Ok; eassumption) : swap.
#[export] Hint Extern 1 (set_sbit _ _ _ = _) => (apply set_sbit_Ok; swap_bound) : swap.
#[export] Hint Resolve acquire_swap release_swap : swap.
#[export] Hint Extern 1 (mget _ _ = _) => reflexivity : swap.
#[export] Hint Extern 1 (mret _ _ = _) => reflexivity : swap.
#[export] Hint Extern 1 (mopt _ _ = _) => reflexivity : swap.

Ltac sstep := erewrite bind_Ok by (eauto 2 with swap nocore);
  cbv beta iota; cbn [swap_frame_list swap_bitmap swap_lk].

(** The four assignments to a fresh slot. *)
Lemma fresh_slot fl i v k : (i < length fl)%nat →
  alter (d_count 1) i (alter (d_swap k) i (alter (d_vaddr v) i (alter (d_next (-1)) i fl)))
  = <[i := DiskFrame v (-1) k 1]> fl.
Proof.
  intros [d E]%lookup_lt_is_Some_2. apply list_eq. intros j.
  destruct (decide (i = j)) as [->|Hne].
  - rewrite !list_lookup_alter, !decide_True, E by done.
    rewrite list_lookup_insert_eq; [done|]. by apply lookup_lt_Some in E.
  - rewrite !list_lookup_alter, !decide_False by done. by rewrite list_lookup_insert_ne.
Qed.

(** What a slot holds: page address, swap space, reference count. *)
Definition sinfo (fl : list disk_frame) (i : nat) : option (Z * Z * Z) :=
  (λ d, (df_vaddr d, df_swap d, df_count d)) <$> fl !! i.

Lemma sinfo_next fl i n j : sinfo (alter (d_next n) i fl) j = sinfo fl j.
Proof.
  unfold sinfo. rewrite list_lookup_alter. case_decide; [subst|done].
  by destruct (fl !! j).
Qed.

Lemma swap_get_free_Ok fl bm l i : first_free 0 bm = Some i → (i < length bm)%nat →
  swap_get_free_frame (SwapState fl bm l) = Ok (Z.of_nat i, SwapState fl (<[i := 1]> bm) l).
Proof.
  intros E Hi. unfold swap_get_free_frame. sstep. rewrite E. by sstep.
Qed.

Lemma swap_get_free_None fl bm l : first_free 0 bm = None →
  swap_get_free_frame (SwapState fl bm l) = Ok (-1, SwapState fl bm l).
Proof. intros E. unfold swap_get_free_frame. sstep. by rewrite E. Qed.

#[export] Hint Extern 1 (swap_get_free_frame _ = _) =>
  (apply swap_get_free_Ok; [eassumption|swap_bound]) : swap.
#[export] Hint Extern 1 (swap_get_free_frame _ = _) =>
  (apply swap_get_free_None; eassumption) : swap.

Lemma swap_last_run fl bm l p L z : ∀ fuel A,
  slist fl p (A ++ L ++ [z]) → (length L < fuel)%nat →
  swap_last fuel (hd_error (L ++ [z])) (SwapState fl bm l) = Ok (Some z, SwapState fl bm l).
Proof.
  induction L as [|a L IH]; intros [|fuel] A HL Hf; simpl in Hf; try lia; simpl.
  - destruct (slist_next _ _ _ _ _ HL) as (d & Hd & Hn). sstep. by rewrite Hn.
  - destruct (slist_next _ _ A a (L ++ [z]) HL) as (d & Hd & Hn). sstep.
    assert (∃ j, df_next d = Z.of_nat j ∧ hd_error (L ++ [z]) = Some j) as (j & Hj & Hh)
      by (destruct L; simpl in *; eauto).
    rewrite Hj, frame_at_nat. rewrite (proj2 (Z.eqb_neq _ _)) by lia. rewrite <-Hh.
    apply (IH _ (A ++ [a])); [by rewrite <-app_assoc|lia].
Qed.

Section ops.
  Context (s : swap_state) (p : option nat) (L O : list nat) (Hrep : swap_rep s p L O).

Lemma sr_length : (length L ≤ MAX_FRAME_SWAP)%nat.
  Proof.
    rewrite <-(length_seq MAX_FRAME_SWAP 0). apply submseteq_length, NoDup_submseteq.
    - by destruct (proj1 (NoDup_app _ _) (sr_nodup _ _ _ _ Hrep)) as (? & _ & _).
    - intros i Hi. apply elem_of_seq. split; [lia|]. apply (sr_bound _ _ _ _ Hrep). set_solver.
  Qed.

Lemma sr_ltl i : i ∈ L ++ O → (i < length (swap_frame_list s))%nat.
  Proof. rewrite (sr_frames _ _ _ _ Hrep). apply (sr_bound _ _ _ _ Hrep). Qed.

Lemma sr_ltb i : i ∈ L ++ O → (i < length (swap_bitmap s))%nat.
  Proof. rewrite (br_length _ _ _ (sr_bits _ _ _ _ Hrep)). apply (sr_bound _ _ _ _ Hrep). Qed.

  (** A slot is appended: the lowest free one. *)
Lemma swap_append_rep v k i : first_free 0 (swap_bitmap s) = Some i →
    ∃ s' p', swap_append p v k s = Ok (Some (Z.of_nat i, p'), s') ∧
      swap_rep s' p' (L ++ [i]) O ∧ i ∉ L ++ O ∧
      sinfo (swap_frame_list s') i = Some (v, k, 1) ∧
      (∀ j, j ≠ i → sinfo (swap_frame_list s') j = sinfo (swap_frame_list s) j) ∧
      (∀ j, j ≠ i → j ∉ L → swap_frame_list s' !! j = swap_frame_list s !! j).
  Proof.
    intros Hff. pose proof Hrep as [Hfl HL Hnd Hbd Hbits Hlk].
    assert (i ∉ L ++ O ∧ (i < MAX_FRAME_SWAP)%nat) as [Hi Him].
    { apply first_free_Some in Hff as [_ Hb]. rewrite Nat.sub_0_r in Hb.
      split; [by eapply bits_free|]. apply lookup_lt_Some in Hb.
      by rewrite (br_length _ _ _ Hbits) in Hb. }
    pose proof (br_length _ _ _ Hbits) as Hbm.
    pose proof sr_length as HLl. pose proof sr_ltl as Hlt.
    destruct s as [fl bm l]; simpl in *; subst l.
    set (d := DiskFrame v (-1) k 1).
    set (z := last L). set (fl1 := match z with Some z => alter (d_next (Z.of_nat i)) z fl | None => fl end).
    set (p' := hd_error (L ++ [i])).
    assert (Hl1 : length fl1 = length fl) by (subst fl1; destruct z; by rewrite ?length_alter).
    exists (SwapState (<[i := d]> fl1) (<[i := 1]> bm) false), p'.
    split_and!; [| |done| | |]; simpl.
    - unfold swap_append. destruct L as [|a L0].
      + simpl in HL. subst p. subst fl1 z p'. simpl. do 2 sstep.
        rewrite (proj2 (Z.ltb_ge _ _)) by lia. cbv zeta. rewrite Nat2Z.id. do 5 sstep.
        by rewrite fresh_slot by lia.
      + destruct (last_cons_snoc a L0) as (L1 & y & E). rewrite (slist_head _ _ _ HL). simpl.
        assert (Hy : (y < length fl)%nat).
        { apply Hlt. rewrite E. set_solver. }
        assert (z = Some y) as Hz. { subst z. rewrite E. apply last_snoc. }
        assert (Hrun : swap_last (S MAX_FRAME_SWAP) (Some a) (SwapState fl bm false)
                  = Ok (Some y, SwapState fl bm false)).
        { rewrite E in HL. pose proof (swap_last_run fl bm false p L1 y (S MAX_FRAME_SWAP) [] HL) as Hr.
          rewrite <-E in Hr. apply Hr. rewrite E, length_app in HLl. simpl in HLl. lia. }
        rewrite (bind_Ok _ _ _ _ _ Hrun). do 2 sstep.
        rewrite (proj2 (Z.ltb_ge _ _)) by lia. cbv zeta. rewrite Nat2Z.id. do 6 sstep.
        rewrite fresh_slot by (rewrite length_alter; lia). subst fl1. by rewrite Hz.
    - constructor; simpl; [by rewrite length_insert, Hl1| | | | |done].
      + subst p'. destruct L as [|a L0].
        * simpl. split; [done|]. exists d. split_and!; [|done|done].
          apply list_lookup_insert_eq. lia.
        * destruct (last_cons_snoc a L0) as (L1 & y & E).
          subst fl1 z. rewrite E in *. rewrite last_snoc.
          replace (hd_error ((L1 ++ [y]) ++ [i])) with p
            by (rewrite (slist_head _ _ _ HL); by destruct L1).
          apply NoDup_app in Hnd as (Hnd & _ & _).
          apply slist_snoc; [set_solver|done|lia|done|done].
      + rewrite <-app_assoc. simpl. rewrite <-Permutation_middle. by apply NoDup_cons.
      + intros j. rewrite !elem_of_app, list_elem_of_singleton.
        intros [[?| ->]|?]; [apply Hbd; set_solver|done|apply Hbd; set_solver].
      + pose proof (bits_insert _ _ _ i Hbits) as [Hbl Hb]. constructor; [done|].
        intros j b Hj. rewrite (Hb _ _ Hj).
        assert (j ∈ (L ++ O) ++ [i] ↔ j ∈ (L ++ [i]) ++ O) as E by set_solver.
        by rewrite (bool_decide_ext _ _ E).
    - unfold sinfo. rewrite list_lookup_insert_eq by lia. done.
    - intros j Hj. unfold sinfo at 1. rewrite list_lookup_insert_ne by done.
      subst fl1. destruct z; [apply sinfo_next|done].
    - intros j Hj HjL. rewrite list_lookup_insert_ne by done. subst fl1 z.
      destruct (last L) as [y|] eqn:Ey; [|done].
      rewrite list_lookup_alter, decide_False; [done|].
      intros ->. apply HjL. by apply last_Some_elem_of.
  Qed.

  (** No slot is free: the caller gets nothing and the lock stays held. *)
Lemma swap_append_full v k : first_free 0 (swap_bitmap s) = None →
    swap_append p v k s = Ok (None, SwapState (swap_frame_list s) (swap_bitmap s) true).
  Proof.
    intros Hff. pose proof Hrep as [Hfl HL Hnd Hbd Hbits Hlk]. pose proof sr_length as HLl.
    destruct s as [fl bm l]; simpl in *; subst l. unfold swap_append.
    destruct L as [|a L0].
    - simpl in HL. subst p. do 2 sstep. done.
    - rewrite (slist_head _ _ _ HL). simpl.
      destruct (last_cons_snoc a L0) as (L1 & y & E).
      assert (Hrun : swap_last (S MAX_FRAME_SWAP) (Some a) (SwapState fl bm false)
                = Ok (Some y, SwapState fl bm false)).
      { rewrite E in HL. pose proof (swap_last_run fl bm false p L1 y (S MAX_FRAME_SWAP) [] HL) as Hr.
        rewrite <-E in Hr. apply Hr. rewrite E, length_app in HLl. simpl in HLl. lia. }
      rewrite (bind_Ok _ _ _ _ _ Hrun). do 2 sstep. done.
  Qed.
End ops.

(** * Search *)

(** [holds fl v i]: slot [i] holds the page at [v]. *)
Definition holds (fl : list disk_frame) (v : Z) (i : nat) : Prop :=
  df_vaddr <$> fl !! i = Some v.

#[export] Instance holds_dec fl v i : Decision (holds fl v i).
Proof. unfold holds. apply _. Defined.

Lemma holds_test fl v i d : fl !! i = Some d → (df_vaddr d =? v) = bool_decide (holds fl v i).
Proof.
  intros Hd. case_bool_decide as H; unfold holds in H; rewrite Hd in H; simpl in H.
  - apply Z.eqb_eq. by simplify_eq.
  - apply Z.eqb_neq. naive_solver.
Qed.

(** The link out of a slot that is not the last. *)
Lemma next_link fl p A i B d : slist fl p (A ++ i :: B) → fl !! i = Some d → B ≠ [] →
  ∃ j, hd_error B = Some j ∧ (df_next d =? -1) = false ∧ frame_at (df_next d) = Some j.
Proof.
  intros HL Hd HB. destruct (slist_next _ _ _ _ _ HL) as (d' & Hd' & Hn). simplify_eq.
  destruct B as [|j B]; [done|]. exists j. rewrite Hn, frame_at_nat.
  split_and!; [done|by apply Z.eqb_neq; lia|done].
Qed.

Lemma last_link fl p A i d : slist fl p (A ++ [i]) → fl !! i = Some d → (df_next d =? -1) = true.
Proof.
  intros HL Hd. destruct (slist_next _ _ _ _ _ HL) as (d' & Hd' & Hn). simplify_eq. by rewrite Hn.
Qed.

Lemma slist_at fl p A i B : slist fl p (A ++ i :: B) → ∃ d, fl !! i = Some d.
Proof. intros HL. destruct (slist_next _ _ _ _ _ HL) as (d & ? & _). eauto. Qed.

Lemma hd_app_snoc (L : list nat) x B : hd_error (L ++ x :: B) = hd_error (L ++ [x]).
Proof. by destruct L. Qed.

Section search.
  Context (fl : list disk_frame) (bm : list Z) (p : option nat) (v : Z).

Lemma swap_search_hit l x B dx L1 : ∀ A fuel c q,
    slist fl p (A ++ L1 ++ x :: B) → hd_error (L1 ++ [x]) = Some c →
    (∀ i, i ∈ L1 → ¬ holds fl v i) → fl !! x = Some dx → holds fl v x → (length L1 < fuel)%nat →
    swap_search fuel v (Some c) q (SwapState fl bm l) =
      Ok ((Some x, match L1 with [] => q | _ => last L1 end), SwapState fl bm l).
  Proof.
    induction L1 as [|y L1 IH]; intros A [|fuel] c q HL Hc HL1 Hdx Hx Hf; simpl in Hf; try lia;
      cbn [swap_search]; simpl in Hc; simplify_eq.
    - sstep. destruct (df_next dx =? -1); [done|]. sstep.
      by rewrite (holds_test _ _ _ _ Hdx), bool_decide_true.
    - destruct (slist_at _ _ _ _ _ HL) as (d & Hd). sstep.
      destruct (next_link _ _ A c (L1 ++ x :: B) d HL Hd) as (j & Hj & -> & ->); [by destruct L1|].
      sstep. rewrite (holds_test _ _ _ _ Hd), bool_decide_false by (apply HL1; set_solver).
      rewrite (IH (A ++ [c])); try done.
      + by rewrite <-app_assoc.
      + by rewrite <-Hj, (hd_app_snoc L1 x B).
      + set_solver.
      + lia.
  Qed.

Lemma swap_search_miss l z L1 : ∀ A fuel c q,
    slist fl p (A ++ L1 ++ [z]) → hd_error (L1 ++ [z]) = Some c →
    (∀ i, i ∈ L1 → ¬ holds fl v i) → (length L1 < fuel)%nat →
    ∃ q', swap_search fuel v (Some c) q (SwapState fl bm l) = Ok ((Some z, q'), SwapState fl bm l).
  Proof.
    induction L1 as [|y L1 IH]; intros A [|fuel] c q HL Hc HL1 Hf; simpl in Hf; try lia;
      cbn [swap_search]; simpl in Hc; simplify_eq.
    - destruct (slist_at _ _ _ _ _ HL) as (d & Hd). sstep.
      rewrite (last_link _ _ _ _ _ HL Hd). eauto.
    - destruct (slist_at _ _ _ _ _ HL) as (d & Hd). sstep.
      destruct (next_link _ _ A c (L1 ++ [z]) d HL Hd) as (j & Hj & -> & ->); [by destruct L1|].
      sstep. rewrite (holds_test _ _ _ _ Hd), bool_decide_false by (apply HL1; set_solver).
      apply (IH (A ++ [c])); [by rewrite <-app_assoc|done|set_solver|lia].
  Qed.

Lemma swap_check_loop_hit x B dx L1 : ∀ A fuel c,
    slist fl p (A ++ L1 ++ x :: B) → hd_error (L1 ++ [x]) = Some c →
    (∀ i, i ∈ L1 → ¬ holds fl v i) → fl !! x = Some dx → holds fl v x →
    (L1 = [] → B ≠ []) → (length L1 < fuel)%nat →
    swap_check_loop fuel v (Some c) (SwapState fl bm true) = Ok (df_swap dx, SwapState fl bm false).
  Proof.
    induction L1 as [|y L1 IH]; intros A [|fuel] c HL Hc HL1 Hdx Hx HB Hf; simpl in Hf; try lia;
      cbn [swap_check_loop]; simpl in Hc; simplify_eq.
    - sstep. destruct (next_link _ _ A c B dx HL Hdx) as (j & Hj & -> & _); [by apply HB|].
      sstep. rewrite (holds_test _ _ _ _ Hdx), bool_decide_true by done. sstep.
      by apply sderef_Ok.
    - destruct (slist_at _ _ _ _ _ HL) as (d & Hd). sstep.
      destruct (next_link _ _ A c (L1 ++ x :: B) d HL Hd) as (j & Hj & -> & Hn); [by destruct L1|].
      sstep. rewrite (holds_test _ _ _ _ Hd), bool_decide_false by (apply HL1; set_solver).
      cbv zeta. rewrite Hn.
      assert (HL' : slist fl p ((A ++ [c]) ++ L1 ++ x :: B)) by by rewrite <-app_assoc.
      destruct L1 as [|y L1]; simpl in Hj; simplify_eq.
      + sstep. destruct B as [|b B].
        * rewrite (last_link _ _ _ _ _ HL' Hdx). sstep.
          rewrite (holds_test _ _ _ _ Hdx), bool_decide_true by done. sstep. by apply sderef_Ok.
        * destruct (next_link _ _ _ _ _ _ HL' Hdx) as (j' & _ & -> & _); [done|].
          apply (IH (A ++ [c])); try done; simpl in *; [set_solver|lia].
      + destruct (slist_at _ _ (A ++ [c]) j (L1 ++ x :: B) HL') as (dj & Hdj). sstep.
        destruct (next_link _ _ (A ++ [c]) j (L1 ++ x :: B) dj HL' Hdj) as (j' & _ & -> & _);
          [by destruct L1|].
        apply (IH (A ++ [c])); try done; simpl in *; [set_solver|lia].
  Qed.

Lemma swap_check_loop_miss z L1 : ∀ A fuel c,
    slist fl p (A ++ L1 ++ [z]) → hd_error (L1 ++ [z]) = Some c →
    (∀ i, i ∈ L1 ++ [z] → ¬ holds fl v i) → (length L1 < fuel)%nat →
    swap_check_loop fuel v (Some c) (SwapState fl bm true) = Ok (-1, SwapState fl bm false).
  Proof.
    induction L1 as [|y L1 IH]; intros A [|fuel] c HL Hc HL1 Hf; simpl in Hf; try lia;
      cbn [swap_check_loop]; simpl in Hc; simplify_eq.
    - destruct (slist_at _ _ _ _ _ HL) as (d & Hd). sstep. rewrite (last_link _ _ _ _ _ HL Hd).
      by sstep.
    - destruct (slist_at _ _ _ _ _ HL) as (d & Hd). sstep.
      destruct (next_link _ _ A c (L1 ++ [z]) d HL Hd) as (j & Hj & -> & Hn); [by destruct L1|].
      sstep. rewrite (holds_test _ _ _ _ Hd), bool_decide_false by (apply HL1; set_solver).
      cbv zeta. rewrite Hn.
      assert (HL' : slist fl p ((A ++ [c]) ++ L1 ++ [z])) by by rewrite <-app_assoc.
      assert (HIH : swap_check_loop fuel v (Some j) (SwapState fl bm true) = Ok (-1, SwapState fl bm false)).
      { apply (IH (A ++ [c])); [done|done|set_solver|lia]. }
      assert (Hjin : j ∈ L1 ++ [z]) by (destruct L1; simpl in *; simplify_eq; set_solver).
      destruct (slist_lookup _ _ _ j HL') as (dj & Hdj); [set_solver|]. sstep.
      destruct (df_next dj =? -1); [|done]. sstep.
      by rewrite (holds_test _ _ _ _ Hdj), bool_decide_false by (apply HL1; set_solver).
  Qed.
End search.

#[local] Arguments swap_check_loop : simpl never.
#[local] Arguments swap_search : simpl never.

(** The slot of a list that holds the page at [v]: the first one. *)
Fixpoint slot_of (fl : list disk_frame) (v : Z) (L : list nat) : option nat :=
  match L with
  | [] => None
  | i :: L => if decide (holds fl v i) then Some i else slot_of fl v L
  end.

Lemma slot_of_Some fl v L x : slot_of fl v L = Some x →
  ∃ A B, L = A ++ x :: B ∧ holds fl v x ∧ ∀ i, i ∈ A → ¬ holds fl v i.
Proof.
  induction L as [|i L IH]; simpl; [done|]. case_decide as Hi.
  - intros [= <-]. exists [], L. set_solver.
  - intros (A & B & -> & Hx & HA)%IH. exists (i :: A), B. set_solver.
Qed.

Lemma slot_of_None fl v L : slot_of fl v L = None → ∀ i, i ∈ L → ¬ holds fl v i.
Proof.
  induction L as [|i L IH]; simpl; [set_solver|]. case_decide as Hi; [done|].
  intros HN j [->|Hj]%elem_of_cons; [done|]. by apply IH.
Qed.

Lemma holds_lookup fl v x : holds fl v x → ∃ d, fl !! x = Some d ∧ df_vaddr d = v.
Proof. unfold holds. intros (d & Hd & Hv)%fmap_Some. eauto. Qed.

Lemma sinfo_holds fl i v k c w : sinfo fl i = Some (v, k, c) → holds fl w i ↔ w = v.
Proof.
  unfold sinfo, holds. intros (d & Hd & Hi)%fmap_Some. rewrite Hd. simpl. naive_solver.
Qed.

Lemma holds_sinfo fl fl' v i : sinfo fl i = sinfo fl' i → holds fl v i ↔ holds fl' v i.
Proof.
  unfold sinfo, holds. intros E.
  destruct (fl !! i) as [d|], (fl' !! i) as [d'|]; try discriminate E; [|done].
  injection E as E _ _. simpl. by rewrite E.
Qed.

(** The swap space that holds the page at [v], -1 for none. *)
Definition space_of (fl : list disk_frame) (v : Z) (L : list nat) : Z :=
  match slot_of fl v L ≫= (fl !!.) with Some d => df_swap d | None => -1 end.

Lemma swap_check_run s p L O v : swap_rep s p L O →
  swap_check p v s = Ok (space_of (swap_frame_list s) v L, s).
Proof.
  intros Hrep. pose proof Hrep as [_ HL _ _ _ Hlk]. pose proof (sr_length _ _ _ _ Hrep) as HLl.
  destruct s as [fl bm l]; simpl in *; subst l. unfold space_of.
  destruct L as [|a L0]; [simpl in HL; by subst p|].
  rewrite (slist_head _ _ _ HL). unfold swap_check. change (hd_error (a :: L0)) with (Some a). cbv iota.
  sstep.
  destruct (slist_at _ _ [] a L0 HL) as (da & Hda).
  destruct (slot_of fl v (a :: L0)) as [x|] eqn:E.
  - apply slot_of_Some in E as (A & B & E & Hx & HA).
    destruct (holds_lookup _ _ _ Hx) as (dx & Hdx & _). simpl. rewrite Hdx. sstep.
    assert (HL' : slist fl p ([] ++ A ++ x :: B)) by by rewrite <-E.
    assert (Hhd : hd_error (A ++ [x]) = Some a).
    { rewrite <-(hd_app_snoc A x B). by rewrite <-E. }
    assert (HAl : (length A < S MAX_FRAME_SWAP)%nat).
    { rewrite E, length_app in HLl. simpl in HLl. lia. }
    destruct A as [|y A]; simpl in E; injection E as -> ->.
    + destruct B as [|b B].
      * rewrite Hda in Hdx. injection Hdx as ->. rename Hda into Hdx.
        rewrite (last_link _ _ [] _ _ HL' Hdx). sstep.
        rewrite (holds_test _ _ _ _ Hdx), bool_decide_true by done. sstep. by apply sderef_Ok.
      * destruct (next_link _ _ [] _ _ _ HL' Hda) as (j & _ & -> & _); [done|].
        by apply (swap_check_loop_hit fl bm p v x (b :: B) dx [] []).
    + destruct (next_link _ _ [] y (A ++ x :: B) da HL' Hda) as (j & _ & -> & _); [by destruct A|].
      by apply (swap_check_loop_hit fl bm p v x B dx (y :: A) []).
  - pose proof (slot_of_None _ _ _ E) as Hno. simpl. sstep.
    destruct (last_cons_snoc a L0) as (L1 & z & Ez).
    assert (Hloop : swap_check_loop (S MAX_FRAME_SWAP) v (Some a) (SwapState fl bm true)
              = Ok (-1, SwapState fl bm false)).
    { apply (swap_check_loop_miss fl bm p v z L1 []); [by rewrite <-Ez|by rewrite <-Ez|by rewrite <-Ez|].
      rewrite Ez, length_app in HLl. simpl in HLl. lia. }
    destruct (df_next da =? -1); [|done]. sstep.
    by rewrite (holds_test _ _ _ _ Hda), bool_decide_false by (apply Hno; set_solver).
Qed.

(** ** Taking a page out of the list *)

(** Where [swap_in] finds the page. *)
Lemma swap_take_search s p A x B O v : swap_rep s p (A ++ x :: B) O →
  holds (swap_frame_list s) v x → (∀ i, i ∈ A → ¬ holds (swap_frame_list s) v i) →
  ∃ a, p = Some a ∧
    swap_search (S MAX_FRAME_SWAP) v (Some a) None
      (SwapState (swap_frame_list s) (swap_bitmap s) true) =
    Ok ((Some x, match A with [] => None | _ => last A end),
        SwapState (swap_frame_list s) (swap_bitmap s) true).
Proof.
  intros Hrep Hx HA. pose proof (sr_length _ _ _ _ Hrep) as HLl.
  rewrite length_app in HLl. simpl in HLl. pose proof (sr_list _ _ _ _ Hrep) as HL.
  destruct (holds_lookup _ _ _ Hx) as (dx & Hdx & _).
  assert (∃ a, hd_error (A ++ [x]) = Some a) as (a & Ha) by (destruct A; simpl; eauto).
  exists a. rewrite (slist_head _ _ _ HL), hd_app_snoc. split; [done|].
  by apply (swap_search_hit _ _ p v true x B dx A []); [..|lia].
Qed.

Lemma swap_take_miss s p L O v : swap_rep s p L O →
  slot_of (swap_frame_list s) v L = None → swap_take p v s = Ok (None, s).
Proof.
  intros Hrep Hno0. pose proof (slot_of_None _ _ _ Hno0) as Hno. pose proof Hrep as [_ HL _ _ _ Hlk].
  pose proof (sr_length _ _ _ _ Hrep) as HLl.
  destruct s as [fl bm l]; simpl in *; subst l. unfold swap_take.
  destruct L as [|a L0]; [simpl in HL; by subst p|].
  rewrite (slist_head _ _ _ HL). change (hd_error (a :: L0)) with (Some a). cbv iota. sstep.
  destruct (last_cons_snoc a L0) as (L1 & z & Ez).
  destruct (swap_search_miss fl bm p v true z L1 [] (S MAX_FRAME_SWAP) a None) as (q' & Hrun).
  { by rewrite <-Ez. } { by rewrite <-Ez. }
  { intros i Hi. apply Hno. rewrite Ez. set_solver. }
  { rewrite Ez, length_app in HLl. simpl in HLl. lia. }
  rewrite (bind_Ok _ _ _ _ _ Hrun). cbv beta iota.
  destruct (slist_lookup _ _ _ z HL) as (dz & Hdz); [rewrite Ez; set_solver|]. sstep.
  rewrite (holds_test _ _ _ _ Hdz), bool_decide_false by (apply Hno; rewrite Ez; set_solver).
  simpl. by sstep.
Qed.

(** The page is shared: its slot keeps its place with one reference less. *)
Lemma swap_take_shared s p A x B O v k c : swap_rep s p (A ++ x :: B) O →
  (∀ i, i ∈ A → ¬ holds (swap_frame_list s) v i) →
  sinfo (swap_frame_list s) x = Some (v, k, c) → c ≠ 1 →
  ∃ s', swap_take p v s = Ok (Some (x, p), s') ∧ swap_rep s' p (A ++ x :: B) O ∧
    sinfo (swap_frame_list s') x = Some (v, k, c - 1) ∧
    ∀ j, j ≠ x → swap_frame_list s' !! j = swap_frame_list s !! j.
Proof.
  intros Hrep HA Hinfo Hc. apply fmap_Some in Hinfo as (dx & Hdx & Hi).
  assert (Hv : df_vaddr dx = v) by congruence. assert (Hcx : df_count dx = c) by congruence.
  assert (Hx : holds (swap_frame_list s) v x) by (unfold holds; rewrite Hdx; simpl; congruence).
  destruct (swap_take_search _ _ _ _ _ _ _ Hrep Hx HA) as (a & -> & Hrun).
  assert (Hxl : (x < length (swap_frame_list s))%nat) by (apply (sr_ltl _ _ _ _ Hrep); set_solver).
  pose proof Hrep as [Hfl HL Hnd Hbd Hbits Hlk]. destruct s as [fl bm l]; simpl in *; subst l.
  assert (Hdx' : alter (d_count (c - 1)) x fl !! x = Some (d_count (c - 1) dx))
    by by rewrite list_lookup_alter, decide_True, Hdx.
  exists (SwapState (alter (d_count (c - 1)) x fl) bm false). split_and!; simpl.
  - unfold swap_take. sstep. rewrite (bind_Ok _ _ _ _ _ Hrun). cbv beta iota. sstep.
    rewrite (holds_test _ _ _ _ Hdx), bool_decide_true by done. cbn [negb].
    sstep. sstep. rewrite Hcx. sstep. sstep. simpl df_count.
    rewrite (proj2 (Z.eqb_neq _ _)) by lia. sstep. by sstep.
  - constructor; simpl; [by rewrite length_alter| |done..].
    revert HL. apply slist_ext. intros i _. rewrite list_lookup_alter.
    case_decide; [subst|done]. by rewrite Hdx.
  - unfold sinfo. rewrite Hdx'. simpl. congruence.
  - intros j Hj. by rewrite list_lookup_alter, decide_False.
Qed.

(** Taking a used slot out of the invariant. *)
Lemma bits_take bm A x B O : bits_rep MAX_FRAME_SWAP bm ((A ++ x :: B) ++ O) →
  NoDup ((A ++ x :: B) ++ O) → bits_rep MAX_FRAME_SWAP (<[x := -1]> bm) ((A ++ B) ++ O).
Proof.
  intros Hb Hnd. apply (bits_remove _ _ _ _ _ Hb).
  rewrite <-app_assoc in Hnd. simpl in Hnd. rewrite <-Permutation_middle in Hnd.
  apply NoDup_cons in Hnd as [Hx _]. set_solver.
Qed.

(** The last reference goes: the slot is unlinked and freed. *)
Lemma swap_take_last s p A x B O v k : swap_rep s p (A ++ x :: B) O →
  (∀ i, i ∈ A → ¬ holds (swap_frame_list s) v i) →
  sinfo (swap_frame_list s) x = Some (v, k, 1) →
  ∃ s' p', swap_take p v s = Ok (Some (x, p'), s') ∧ swap_rep s' p' (A ++ B) O ∧
    (∀ j, j ≠ x → sinfo (swap_frame_list s') j = sinfo (swap_frame_list s) j) ∧
    (∀ j, j ∉ A ++ x :: B → swap_frame_list s' !! j = swap_frame_list s !! j).
Proof.
  intros Hrep HA Hinfo. apply fmap_Some in Hinfo as (dx & Hdx & Hi).
  assert (Hv : df_vaddr dx = v) by congruence. assert (Hcx : df_count dx = 1) by congruence.
  assert (Hx : holds (swap_frame_list s) v x) by (unfold holds; rewrite Hdx; simpl; congruence).
  destruct (swap_take_search _ _ _ _ _ _ _ Hrep Hx HA) as (a & -> & Hrun).
  assert (Hlt := sr_ltl _ _ _ _ Hrep). assert (Hltb := sr_ltb _ _ _ _ Hrep).
  pose proof Hrep as [Hfl HL Hnd Hbd Hbits Hlk]. destruct s as [fl bm l]; simpl in *; subst l.
  assert (Hxl : (x < length fl)%nat) by (apply Hlt; set_solver).
  assert (Hxb : (x < length bm)%nat) by (apply Hltb; set_solver).
  set (fl1 := alter (d_count 0) x fl).
  assert (Hdx1 : fl1 !! x = Some (d_count 0 dx))
    by (subst fl1; by rewrite list_lookup_alter, decide_True, Hdx).
  assert (HL1 : slist fl1 (Some a) (A ++ x :: B)).
  { revert HL. apply slist_ext. intros i _. subst fl1. rewrite list_lookup_alter.
    case_decide; [subst|done]. by rewrite Hdx. }
  assert (Hbits' := bits_take _ _ _ _ _ Hbits Hnd).
  assert (Hnd' : NoDup ((A ++ B) ++ O) ∧ x ∉ A ++ B).
  { rewrite <-app_assoc in Hnd |- *. simpl in Hnd. rewrite <-Permutation_middle in Hnd.
    apply NoDup_cons in Hnd as [? ?]. set_solver. }
  destruct Hnd' as [Hnd' HxAB].
  assert (Hbd' : ∀ i, i ∈ (A ++ B) ++ O → (i < MAX_FRAME_SWAP)%nat) by set_solver.
  assert (Hl1 : length fl1 = MAX_FRAME_SWAP) by (subst fl1; by rewrite length_alter).
  destruct A as [|y0 A0] eqn:EA.
  - assert (a = x) as -> by (apply slist_head in HL; by simplify_eq/=).
    exists (SwapState fl1 (<[x := -1]> bm) false), (hd_error B). split_and!; simpl.
    + unfold swap_take. sstep. rewrite (bind_Ok _ _ _ _ _ Hrun). cbv beta iota. sstep.
      rewrite (holds_test _ _ _ _ Hdx), bool_decide_true by done. cbn [negb].
      sstep. sstep. rewrite Hcx. change (1 - 1) with 0. sstep. fold fl1. sstep. cbn [df_count d_count].
      rewrite Z.eqb_refl. rewrite decide_True by done. rewrite !bind_assoc.
      sstep. cbn [df_next d_count].
      destruct B as [|b B].
      * rewrite (last_link _ _ [] _ _ HL Hdx). sstep. rewrite !bind_assoc. sstep. sstep. by sstep.
      * destruct (next_link _ _ [] _ _ _ HL Hdx) as (j & Hj & -> & ->); [done|].
        simpl in Hj. injection Hj as ->. sstep. rewrite !bind_assoc. sstep. sstep. by sstep.
    + constructor; simpl; try done. by apply (slist_suffix _ _ [x]) in HL1.
    + intros j Hj. unfold sinfo. subst fl1. by rewrite list_lookup_alter, decide_False.
    + intros j Hj. subst fl1. rewrite list_lookup_alter, decide_False; [done|]. set_solver.
  - destruct (last_cons_snoc y0 A0) as (A1 & y & Ey).
    assert (Hlast : last (y0 :: A0) = Some y) by (rewrite Ey; apply last_snoc).
    assert (Hax : a ≠ x).
    { apply slist_head in HL. simpl in HL. simplify_eq. set_solver. }
    assert (Hyl : (y < length fl)%nat) by (apply Hlt; rewrite Ey; set_solver).
    assert (Hnx : df_next dx = match B with [] => -1 | j :: _ => Z.of_nat j end).
    { destruct (slist_next _ _ _ _ _ HL) as (d & Hd & Hn). congruence. }
    exists (SwapState (alter (d_next (df_next dx)) y fl1) (<[x := -1]> bm) false), (Some a).
    split_and!; simpl.
    + unfold swap_take. sstep. rewrite (bind_Ok _ _ _ _ _ Hrun). cbv beta iota. sstep.
      rewrite (holds_test _ _ _ _ Hdx), bool_decide_true by done. cbn [negb].
      sstep. sstep. rewrite Hcx. change (1 - 1) with 0. sstep. fold fl1. sstep. cbn [df_count d_count].
      rewrite Z.eqb_refl. rewrite decide_False by congruence. rewrite !bind_assoc.
      sstep. cbn [df_next d_count]. rewrite Hlast.
      rewrite !bind_assoc. sstep. sstep. rewrite !bind_assoc. sstep. sstep. by sstep.
    + constructor; simpl; try done; [by rewrite length_alter|].
      rewrite Hnx. change (slist (alter (d_next match B with [] => -1 | j :: _ => Z.of_nat j end) y fl1)
        (Some a) ((y0 :: A0) ++ B)). rewrite Ey, <-app_assoc.
      change (y0 :: A0 ++ x :: B) with ((y0 :: A0) ++ x :: B) in HL1, Hnd.
      apply NoDup_app in Hnd as (Hnd & _ & _). rewrite Ey, <-app_assoc in HL1, Hnd.
      apply (slist_unlink fl1 _ A1 y x B); [exact Hnd|exact HL1].
    + intros j Hj. rewrite sinfo_next. unfold sinfo. subst fl1. by rewrite list_lookup_alter, decide_False.
    + intros j Hj. change (y0 :: A0 ++ x :: B) with ((y0 :: A0) ++ x :: B) in Hj. rewrite Ey in Hj.
      subst fl1. rewrite !list_lookup_alter, !decide_False; [done|set_solver..].
Qed.

(** * Freeing, sharing and printing a list *)

Section walks.
  Context (fl : list disk_frame) (p : option nat).

Lemma swap_free_loop_run rest : ∀ A c bm fuel,
    slist fl p (A ++ c :: rest) → (∀ i, i ∈ c :: rest → (i < length bm)%nat) →
    (length rest < fuel)%nat →
    ∃ bm', swap_free_loop fuel (Some c) (SwapState fl bm true) = Ok (tt, SwapState fl bm' true) ∧
      length bm' = length bm ∧
      ∀ i, bm' !! i = if decide (rest ≠ [] ∧ i ∈ c :: rest) then Some (-1) else bm !! i.
  Proof.
    induction rest as [|d rest IH]; intros A c bm [|fuel] HL Hb Hf; simpl in Hf; try lia;
      cbn [swap_free_loop]; destruct (slist_at _ _ _ _ _ HL) as (dc & Hdc); sstep.
    - rewrite (last_link _ _ _ _ _ HL Hdc). exists bm. split_and!; [done|done|].
      intros i. by rewrite decide_False by naive_solver.
    - destruct (next_link _ _ _ _ _ _ HL Hdc) as (j & Hj & -> & Hn); [done|].
      simpl in Hj. injection Hj as ->.
      assert (Hcb : (c < length bm)%nat) by (apply Hb; set_solver). do 2 sstep. cbv zeta. rewrite Hn.
      assert (HL' : slist fl p ((A ++ [c]) ++ j :: rest)) by by rewrite <-app_assoc.
      assert (Hjb : (j < length bm)%nat) by (apply Hb; set_solver).
      destruct (slist_at _ _ _ _ _ HL') as (dj & Hdj). sstep.
      destruct rest as [|e rest].
      + rewrite (last_link _ _ _ _ _ HL' Hdj). rewrite !bind_assoc. do 2 sstep.
        destruct (IH (A ++ [c]) j (<[j:=-1]> (<[c:=-1]> bm)) fuel HL') as (bm' & Hrun & Hl & Hbm').
        { intros i Hi. rewrite !length_insert. apply Hb. set_solver. } { simpl. lia. }
        exists bm'. split_and!; [done|by rewrite Hl, !length_insert|].
        intros i. rewrite Hbm'. rewrite decide_False by naive_solver.
        destruct (decide (i = j)) as [->|].
        { rewrite list_lookup_insert_eq by (by rewrite length_insert). rewrite decide_True; [done|set_solver]. }
        rewrite list_lookup_insert_ne by done. destruct (decide (i = c)) as [->|].
        { rewrite list_lookup_insert_eq by done. rewrite decide_True; [done|set_solver]. }
        rewrite list_lookup_insert_ne by done. rewrite decide_False; [done|set_solver].
      + destruct (next_link _ _ _ _ _ _ HL' Hdj) as (j' & _ & -> & _); [done|]. sstep.
        destruct (IH (A ++ [c]) j (<[c:=-1]> bm) fuel HL') as (bm' & Hrun & Hl & Hbm').
        { intros i Hi. rewrite !length_insert. apply Hb. set_solver. } { simpl in *. lia. }
        exists bm'. split_and!; [done|by rewrite Hl, !length_insert|].
        intros i. rewrite Hbm'. destruct (decide (i ∈ j :: e :: rest)).
        { rewrite !decide_True; [done|set_solver..]. }
        rewrite decide_False by naive_solver. destruct (decide (i = c)) as [->|].
        { rewrite list_lookup_insert_eq by done. rewrite decide_True; [done|set_solver]. }
        rewrite list_lookup_insert_ne by done. rewrite decide_False; [done|set_solver].
  Qed.

Lemma swap_read_loop_run bm l rest : ∀ A c fuel,
    slist fl p (A ++ c :: rest) → (length rest < fuel)%nat →
    ∃ lines, swap_read_loop fuel (Some c) (SwapState fl bm l) = Ok (lines, SwapState fl bm l) ∧
      Forall2 (λ i '(i', v, n, k), i' = i ∧ sinfo fl i = Some (v, k, n)) (c :: rest) lines.
  Proof.
    induction rest as [|d rest IH]; intros A c [|fuel] HL Hf; simpl in Hf; try lia;
      cbn [swap_read_loop]; destruct (slist_at _ _ _ _ _ HL) as (dc & Hdc); do 5 sstep.
    - rewrite (last_link _ _ _ _ _ HL Hdc). eexists. split; [done|].
      repeat constructor. unfold sinfo. by rewrite Hdc.
    - destruct (next_link _ _ _ _ _ _ HL Hdc) as (j & Hj & -> & ->); [done|].
      simpl in Hj. injection Hj as ->.
      destruct (IH (A ++ [c]) j fuel) as (lines & Hrun & HF); [by rewrite <-app_assoc|lia|].
      rewrite (bind_Ok _ _ _ _ _ Hrun). eexists. split; [done|]. constructor; [|done].
      unfold sinfo. by rewrite Hdc.
  Qed.
End walks.

(** [swap_fork] counts one more reference for each slot of the list. *)
Definition add_ref (fl : list disk_frame) (L : list nat) : list disk_frame :=
  foldl (λ fl i, alter (λ d, d_count (df_count d + 1) d) i fl) fl L.

Lemma add_ref_lookup L : ∀ fl i, NoDup L →
  add_ref fl L !! i = if decide (i ∈ L) then (λ d, d_count (df_count d + 1) d) <$> fl !! i else fl !! i.
Proof.
  induction L as [|a L IH]; intros fl i Hnd; [by rewrite decide_False by set_solver|].
  apply NoDup_cons in Hnd as [Ha Hnd]. simpl. rewrite IH by done. rewrite list_lookup_alter.
  destruct (decide (a = i)) as [->|].
  - rewrite decide_False by done. rewrite decide_True by set_solver. done.
  - destruct (decide (i ∈ L)); [rewrite !decide_True by set_solver|rewrite !decide_False by set_solver]; done.
Qed.

Lemma sassign_count fl bm l i d : fl !! i = Some d →
  sassign (Some i) (d_count (df_count d + 1)) (SwapState fl bm l) =
    Ok (tt, SwapState (alter (λ d, d_count (df_count d + 1) d) i fl) bm l).
Proof.
  intros Hd. rewrite sassign_Ok by by eapply lookup_lt_Some.
  do 3 f_equal. apply list_eq. intros j. rewrite !list_lookup_alter. case_decide; [subst|done].
  by rewrite Hd.
Qed.

Lemma slist_add fl p L i : slist fl p L → slist (alter (λ d, d_count (df_count d + 1) d) i fl) p L.
Proof.
  apply slist_ext. intros j _. rewrite list_lookup_alter. case_decide; [subst|done].
  by destruct (fl !! j).
Qed.

Lemma swap_fork_loop_run p bm l rest : ∀ fl A c fuel,
  slist fl p (A ++ c :: rest) → (length rest < fuel)%nat → NoDup (c :: rest) →
  swap_fork_loop fuel (Some c) (SwapState fl bm l) =
    Ok (tt, SwapState (match rest with [] => fl | _ => add_ref fl (c :: rest) end) bm l).
Proof.
  induction rest as [|d rest IH]; intros fl A c [|fuel] HL Hf Hnd; simpl in Hf; try lia;
    cbn [swap_fork_loop]; destruct (slist_at _ _ _ _ _ HL) as (dc & Hdc); sstep.
  - by rewrite (last_link _ _ _ _ _ HL Hdc).
  - destruct (next_link _ _ _ _ _ _ HL Hdc) as (j & Hj & -> & Hn); [done|].
    simpl in Hj. injection Hj as ->. sstep.
    rewrite (bind_Ok _ _ _ _ _ (sassign_count _ _ _ _ _ Hdc)).
    set (fl1 := alter _ c fl).
    assert (Hdc1 : fl1 !! c = Some (d_count (df_count dc + 1) dc))
      by (subst fl1; by rewrite list_lookup_alter, decide_True, Hdc).
    sstep. cbn [df_next d_count]. cbv zeta. rewrite Hn.
    assert (HL' : slist fl1 p ((A ++ [c]) ++ j :: rest)).
    { subst fl1. apply slist_add. by rewrite <-app_assoc. }
    destruct (slist_at _ _ _ _ _ HL') as (dj & Hdj). sstep.
    apply NoDup_cons in Hnd as [Hc Hnd]. destruct rest as [|e rest].
    + rewrite (last_link _ _ _ _ _ HL' Hdj). rewrite !bind_assoc. sstep.
      rewrite (bind_Ok _ _ _ _ _ (sassign_count _ _ _ _ _ Hdj)).
      rewrite (IH _ (A ++ [c])); [done| |simpl; lia|done]. by apply slist_add.
    + destruct (next_link _ _ _ _ _ _ HL' Hdj) as (j' & _ & -> & _); [done|]. sstep.
      by rewrite (IH _ (A ++ [c])); [|done|simpl in *; lia|done].
Qed.

(** * Theorems *)

Lemma swap_init_rep : ∃ s, swap_init swap_bss = Ok (tt, s) ∧ swap_rep s None [] [].
Proof.
  eexists. split; [done|]. constructor; simpl.
  - by rewrite length_replicate.
  - done.
  - constructor.
  - set_solver.
  - constructor; [by rewrite length_fmap, length_replicate|].
    intros i b. rewrite list_lookup_fmap. by intros (x & _ & ->)%fmap_Some.
  - done.
Qed.

Lemma slot_of_app fl v A B :
  slot_of fl v (A ++ B) = match slot_of fl v A with Some x => Some x | None => slot_of fl v B end.
Proof. induction A as [|a A IH]; simpl; [done|]. by destruct (decide (holds fl v a)). Qed.

Lemma slot_of_ext fl fl' v L : (∀ i, i ∈ L → sinfo fl' i = sinfo fl i) →
  slot_of fl' v L = slot_of fl v L.
Proof.
  induction L as [|a L IH]; simpl; [done|]. intros H.
  assert (holds fl' v a ↔ holds fl v a) as E.
  { unfold holds. specialize (H a ltac:(set_solver)). unfold sinfo in H.
    assert (df_vaddr <$> fl' !! a = df_vaddr <$> fl !! a) as ->; [|done].
    destruct (fl' !! a), (fl !! a); simpl in *; congruence. }
  destruct (decide (holds fl v a)), (decide (holds fl' v a)); try tauto. apply IH. set_solver.
Qed.

(** [swap_out] on the list of a process: when a slot is free, the lowest
    free one is taken, appended after the slots the process has, and describes
    the page with one reference; no slot of another process changes.  When no
    slot is free nothing is appended and [swap.lk] stays held. *)
Lemma swap_append_spec (s : swap_state) (p : option nat) (L O : list nat) (v k : Z) :
  swap_rep s p L O →
  match first_free 0 (swap_bitmap s) with
  | Some i => ∃ s' p', swap_append p v k s = Ok (Some (Z.of_nat i, p'), s') ∧
      swap_rep s' p' (L ++ [i]) O ∧ i ∉ L ++ O ∧
      sinfo (swap_frame_list s') i = Some (v, k, 1) ∧
      (∀ j, j ≠ i → sinfo (swap_frame_list s') j = sinfo (swap_frame_list s) j) ∧
      (∀ j, j ≠ i → j ∉ L → swap_frame_list s' !! j = swap_frame_list s !! j)
  | None => swap_append p v k s = Ok (None, SwapState (swap_frame_list s) (swap_bitmap s) true)
  end.
Proof.
  intros Hrep. destruct (first_free 0 (swap_bitmap s)) eqn:E.
  - by apply swap_append_rep.
  - by eapply swap_append_full.
Qed.

(** A fresh swap space with its first free slot. *)
Lemma swap_boot : ∃ s, swap_init swap_bss = Ok (tt, s) ∧ swap_rep s None [] [] ∧ first_free 0 (swap_bitmap s) = Some 0%nat.
Proof.
  destruct swap_init_rep as (s & Hs & Hrep). exists s. split_and!; [done..|]. injection Hs as <-. vm_compute. reflexivity.
Qed.


(** [swap_check] returns the number of the swap space that holds the page
    of the process at the address, -1 when no slot of its list does, and
    changes nothing. *)
Lemma swap_check_spec (s : swap_state) (p : option nat) (L O : list nat) (v : Z) :
  swap_rep s p L O → swap_check p v s = Ok (space_of (swap_frame_list s) v L, s).
Proof. apply swap_check_run. Qed.


(** [swap_in] on the list of a process takes the first slot that holds the
    page.  A page with one reference leaves the list, which keeps its order,
    and its slot becomes free; a shared page stays with one reference less; an
    address that no slot holds is reported and nothing changes.  Slots of
    other processes are untouched. *)
Lemma swap_take_spec (s : swap_state) (p : option nat) (L O : list nat) (v : Z) :
  swap_rep s p L O →
  match slot_of (swap_frame_list s) v L with
  | None => swap_take p v s = Ok (None, s)
  | Some x => ∃ s' p' A B k c, L = A ++ x :: B ∧
      sinfo (swap_frame_list s) x = Some (v, k, c) ∧
      swap_take p v s = Ok (Some (x, p'), s') ∧
      (∀ j, j ∉ L → swap_frame_list s' !! j = swap_frame_list s !! j) ∧
      (∀ j, j ≠ x → sinfo (swap_frame_list s') j = sinfo (swap_frame_list s) j) ∧
      (if decide (c = 1) then swap_rep s' p' (A ++ B) O
       else swap_rep s' p' L O ∧ sinfo (swap_frame_list s') x = Some (v, k, c - 1))
  end.
Proof.
  intros Hrep. destruct (slot_of _ v L) as [x|] eqn:E; [|by eapply swap_take_miss].
  apply slot_of_Some in E as (A & B & -> & Hx & HA).
  destruct (holds_lookup _ _ _ Hx) as (d & Hd & <-).
  assert (Hi : sinfo (swap_frame_list s) x = Some (df_vaddr d, df_swap d, df_count d))
    by (unfold sinfo; by rewrite Hd).
  destruct (decide (df_count d = 1)) as [Hc|Hc].
  - rewrite Hc in Hi. destruct (swap_take_last _ _ _ _ _ _ _ _ Hrep HA Hi) as (s' & p' & Hrun & Hr & Hj & Ho).
    exists s', p', A, B, (df_swap d), 1. split_and!; [done..|]. by rewrite decide_True.
  - destruct (swap_take_shared _ _ _ _ _ _ _ _ _ Hrep HA Hi Hc) as (s' & Hrun & Hr & Hx' & Ho).
    exists s', p, A, B, (df_swap d), (df_count d). split_and!; [done..| | |].
    + intros j Hj. apply Ho. set_solver.
    + intros j Hj. unfold sinfo. by rewrite Ho.
    + by rewrite decide_False.
Qed.


(** [swap_free] of a process that has not forked frees every slot of its
    list and no other.  The pointer to the list is cleared for lists of two
    slots and more; for a list of one slot it keeps pointing to the freed slot. *)
Lemma swap_free_spec (s : swap_state) (p : option nat) (L O : list nat) :
  swap_rep s p L O →
  ∃ s', swap_free_list p s = Ok (if decide (length L = 1%nat) then p else None, s') ∧
    bits_rep MAX_FRAME_SWAP (swap_bitmap s') O ∧
    swap_frame_list s' = swap_frame_list s ∧ swap_lk s' = false.
Proof.
  intros Hrep. pose proof (sr_length _ _ _ _ Hrep) as HLl. pose proof (sr_ltb _ _ _ _ Hrep) as Hb.
  pose proof Hrep as [Hfl HL Hnd Hbd Hbits Hlk]. destruct s as [fl bm l]; simpl in *; subst l.
  unfold swap_free_list. destruct L as [|a L0].
  { simpl in HL. subst p. sstep. sstep. by exists (SwapState fl bm false). }
  rewrite (slist_head _ _ _ HL). change (hd_error (a :: L0)) with (Some a). sstep.
  destruct (slist_at _ _ [] a L0 HL) as (da & Hda). sstep.
  assert (Hab : (a < length bm)%nat) by (apply Hb; set_solver).
  destruct L0 as [|b L0].
  - rewrite (last_link _ _ [] a da HL Hda). do 3 sstep.
    exists (SwapState fl (<[a := -1]> bm) false). split_and!; [done| |done|done].
    apply (bits_remove _ _ _ _ _ Hbits). simpl in Hnd. apply NoDup_cons in Hnd as [? _]. set_solver.
  - destruct (next_link _ _ [] a _ da HL Hda) as (j & _ & -> & _); [done|].
    destruct (swap_free_loop_run fl p (b :: L0) [] a bm (S MAX_FRAME_SWAP) HL) as (bm' & Hrun & Hl & Hbm').
    { intros i Hi. apply Hb. set_solver. } { simpl in *. lia. }
    rewrite (bind_Ok _ _ _ _ _ Hrun). sstep. exists (SwapState fl bm' false).
    rewrite decide_False by (simpl; lia). split_and!; [done| |done|done]. simpl.
    constructor; [rewrite Hl; apply (br_length _ _ _ Hbits)|].
    intros i b' Hi. rewrite Hbm' in Hi. apply NoDup_app in Hnd as (_ & Hdis & _).
    case_decide as Hd.
    + rewrite bool_decide_false; [by simplify_eq|]. apply Hdis. tauto.
    + apply (br_bits _ _ _ Hbits) in Hi as ->.
      assert (i ∈ (a :: b :: L0) ++ O ↔ i ∈ O) as E.
      { rewrite elem_of_app. split; [intros [?|?]; [exfalso; apply Hd|]; done|by right]. }
      by rewrite (bool_decide_ext _ _ E).
Qed.


(** [swap_fork] adds one reference to each slot of the list of the forking
    process, which the child then shares, and changes no other slot. *)
Lemma swap_fork_spec (s : swap_state) (p : option nat) (L O : list nat) :
  swap_rep s p L O →
  ∃ s', swap_fork p s = Ok (tt, s') ∧ swap_rep s' p L O ∧
    (∀ i v k c, i ∈ L → sinfo (swap_frame_list s) i = Some (v, k, c) →
       sinfo (swap_frame_list s') i = Some (v, k, c + 1)) ∧
    (∀ i, i ∉ L → swap_frame_list s' !! i = swap_frame_list s !! i).
Proof.
  intros Hrep. pose proof (sr_length _ _ _ _ Hrep) as HLl.
  pose proof Hrep as [Hfl HL Hnd Hbd Hbits Hlk]. destruct s as [fl bm l]; simpl in *; subst l.
  assert (HndL : NoDup L) by (by apply NoDup_app in Hnd as (? & _ & _)).
  exists (SwapState (add_ref fl L) bm false). split_and!.
  - unfold swap_fork. destruct L as [|a L0]; [simpl in HL; by subst p|].
    rewrite (slist_head _ _ _ HL). change (hd_error (a :: L0)) with (Some a). cbv iota.
    destruct (slist_at _ _ [] a L0 HL) as (da & Hda). sstep. destruct L0 as [|b L0].
    + rewrite (last_link _ _ [] a da HL Hda). sstep. by apply sassign_count.
    + destruct (next_link _ _ [] a _ da HL Hda) as (j & _ & -> & _); [done|].
      apply (swap_fork_loop_run p bm false (b :: L0) fl [] a); [done|simpl in *; lia|done].
  - assert (Hlen : length (add_ref fl L) = length fl).
    { clear. revert fl. induction L as [|a L IH]; intros fl; simpl; [done|]. by rewrite IH, length_alter. }
    constructor; simpl; try done; [by rewrite Hlen|].
    revert HL. apply slist_ext. intros i _. rewrite add_ref_lookup by done. case_decide; [|done].
    by destruct (fl !! i).
  - intros i v k c Hi Hs. simpl. unfold sinfo in *. rewrite add_ref_lookup, decide_True by done.
    apply fmap_Some in Hs as (d & Hd & Hs). rewrite Hd. simpl. congruence.
  - intros i Hi. simpl. by rewrite add_ref_lookup, decide_False.
Qed.

