(* ===== verification/Mem.v ===== *)
(** Memory, the address macros of mmu.h and memlayout.h, and string.c.

    The memory of the kernel is a byte at each address of its direct map,
    [KERNBASE .. KERNBASE + PHYSTOP).  Addresses are unsigned 32-bit integers
    in [Z]; 32-bit words are little-endian.  The functions of string.c are
    their loops over that memory. *)

From Stdlib Require Import ZArith Lia.
From stdpp Require Import base numbers strings option gmap sets list list_numbers.
From S2P Require Import Prelude.

(** * Layout constants *)
Abbreviation PGSIZE := 4096.
Abbreviation EXTMEM := 0x100000.
Abbreviation PHYSTOP := 0xE000000.
Abbreviation DEVSPACE := 0xFE000000.
Abbreviation KERNBASE := 0x80000000.
Abbreviation KERNLINK := 0x80100000.
Abbreviation PTE_P := 1.
Abbreviation PTE_W := 2.
Abbreviation PTE_U := 4.
Abbreviation NPDENTRIES := 1024.

Definition V2P (a : Z) : Z := u32 (a - KERNBASE).
Definition P2V (a : Z) : Z := u32 (a + KERNBASE).
Definition PDX (va : Z) : Z := Z.land (Z.shiftr (u32 va) 22) 0x3FF.
Definition PTX (va : Z) : Z := Z.land (Z.shiftr (u32 va) 12) 0x3FF.
Definition PGADDR (d t o : Z) : Z := u32 (Z.lor (Z.lor (Z.shiftl d 22) (Z.shiftl t 12)) o).
Definition PGROUNDUP (sz : Z) : Z := Z.land (u32 (sz + PGSIZE - 1)) (Z.lnot (PGSIZE - 1)).
Definition PGROUNDDOWN (a : Z) : Z := Z.land (u32 a) (Z.lnot (PGSIZE - 1)).
Definition PTE_ADDR (pte : Z) : Z := Z.land (u32 pte) (Z.lnot 0xFFF).
Definition PTE_FLAGS (pte : Z) : Z := Z.land (u32 pte) 0xFFF.

(** * Bytes and words *)
Definition mem : Type := Z → Z.

Definition upd (m : mem) (a v : Z) : mem := λ x, if x =? a then v else m x.

Definition load32 (m : mem) (a : Z) : Z :=
  m a + 2 ^ 8 * m (a + 1) + 2 ^ 16 * m (a + 2) + 2 ^ 24 * m (a + 3).

Definition byte (v : Z) (i : Z) : Z := Z.land (Z.shiftr v (8 * i)) 0xFF.

Definition store32 (m : mem) (a v : Z) : mem :=
  upd (upd (upd (upd m a (byte v 0)) (a + 1) (byte v 1)) (a + 2) (byte v 2)) (a + 3) (byte v 3).

Definition read_bytes (m : mem) (a : Z) (n : nat) : list Z :=
  (λ i, m (a + Z.of_nat i)) <$> seq 0 n.

(** * string.c *)
Fixpoint stosb (m : mem) (addr data : Z) (cnt : nat) : mem :=
  match cnt with
  | O => m
  | S cnt => stosb (upd m addr (u8 data)) (addr + 1) data cnt
  end.

Fixpoint stosl (m : mem) (addr data : Z) (cnt : nat) : mem :=
  match cnt with
  | O => m
  | S cnt => stosl (store32 m addr data) (addr + 4) data cnt
  end.

Definition memset (m : mem) (dst c n : Z) : mem :=
  if (dst mod 4 =? 0) && (n mod 4 =? 0) then
    let c := Z.land c 0xFF in
    stosl m dst (Z.lor (Z.lor (Z.lor (Z.shiftl c 24) (Z.shiftl c 16)) (Z.shiftl c 8)) c)
      (Z.to_nat (n / 4))
  else stosb m dst c (Z.to_nat n).

Fixpoint memcmp (m : mem) (s1 s2 : Z) (n : nat) : Z :=
  match n with
  | O => 0
  | S n => if negb (m s1 =? m s2) then m s1 - m s2 else memcmp m (s1 + 1) (s2 + 1) n
  end.

(** [while(n-- > 0) *--d = *--s;] and [while(n-- > 0) *d++ = *s++;] *)
Fixpoint move_down (m : mem) (d s : Z) (n : nat) : mem :=
  match n with
  | O => m
  | S n => move_down (upd m (d - 1) (m (s - 1))) (d - 1) (s - 1) n
  end.

Fixpoint move_up (m : mem) (d s : Z) (n : nat) : mem :=
  match n with
  | O => m
  | S n => move_up (upd m d (m s)) (d + 1) (s + 1) n
  end.

Definition memmove (m : mem) (dst src n : Z) : mem :=
  if (src <? dst) && (dst <? src + n) then move_down m (dst + n) (src + n) (Z.to_nat n)
  else move_up m dst src (Z.to_nat n).

Definition memcpy := memmove.

Fixpoint strncmp (m : mem) (p q : Z) (n : nat) : Z :=
  match n with
  | O => 0
  | S n' => if negb (m p =? 0) && (m p =? m q) then strncmp m (p + 1) (q + 1) n'
            else m p - m q
  end.

(** [strncpy]: the copy loop, then the loop that pads with zeros. *)
Fixpoint strncpy_pad (m : mem) (s : Z) (n : nat) : mem :=
  match n with
  | O => m
  | S n => strncpy_pad (upd m s 0) (s + 1) n
  end.

Fixpoint strncpy (m : mem) (s t : Z) (n : nat) : mem :=
  match n with
  | O => m
  | S n => let m' := upd m s (m t) in
           if m t =? 0 then strncpy_pad m' (s + 1) n else strncpy m' (s + 1) (t + 1) n
  end.

(** The loop of [safestrcpy] with the final store. *)
Fixpoint safestrcpy_loop (m : mem) (s t : Z) (n : nat) : mem :=
  match n with
  | O => upd m s 0
  | S n => let m' := upd m s (m t) in
           if m t =? 0 then upd m' (s + 1) 0 else safestrcpy_loop m' (s + 1) (t + 1) n
  end.

Definition safestrcpy (m : mem) (s t n : Z) : mem :=
  if n <=? 0 then m else safestrcpy_loop m s t (Z.to_nat (n - 1)).

Fixpoint strlen (fuel : nat) (m : mem) (s n : Z) : option Z :=
  match fuel with
  | O => None
  | S fuel => if m (s + n) =? 0 then Some n else strlen fuel m s (n + 1)
  end.

(** * Address arithmetic *)
Lemma land_lnot_ones x : Z.land x (Z.lnot 4095) = x - x mod 4096.
Proof.
  rewrite <-Z.ldiff_land. change 4095 with (Z.ones 12).
  rewrite Z.ldiff_ones_r by lia. rewrite Z.shiftl_mul_pow2, Z.shiftr_div_pow2 by lia.
  change (2 ^ 12) with 4096. pose proof (Z.div_mod x 4096). lia.
Qed.

Lemma PGROUNDDOWN_eq a : is_u32 a → PGROUNDDOWN a = a - a mod PGSIZE.
Proof.
  intros Ha. unfold PGROUNDDOWN. rewrite u32_small by done.
  apply land_lnot_ones.
Qed.

Lemma PGROUNDUP_eq a : 0 ≤ a ≤ 2 ^ 32 - PGSIZE → PGROUNDUP a = (a + 4095) / 4096 * 4096.
Proof.
  intros Ha. unfold PGROUNDUP. rewrite u32_small by lia.
  change (PGSIZE - 1) with 4095. rewrite land_lnot_ones.
  replace (a + 4096 - 1) with (a + 4095) by lia.
  pose proof (Z.div_mod (a + 4095) 4096). lia.
Qed.

Lemma PTE_ADDR_eq a : is_u32 a → PTE_ADDR a = a - a mod PGSIZE.
Proof. apply PGROUNDDOWN_eq. Qed.

Lemma PDX_eq a : is_u32 a → PDX a = a / 2 ^ 22.
Proof.
  intros Ha. unfold PDX, is_u32 in *. rewrite u32_small by lia.
  change 0x3FF with (Z.ones 10). rewrite Z.land_ones, Z.shiftr_div_pow2 by lia.
  apply Z.mod_small. split; [apply Z.div_pos; lia|]. apply Z.div_lt_upper_bound; lia.
Qed.

Lemma PTX_eq a : is_u32 a → PTX a = a / 2 ^ 12 mod 2 ^ 10.
Proof.
  intros Ha. unfold PTX, is_u32 in *. rewrite u32_small by lia.
  change 0x3FF with (Z.ones 10). by rewrite Z.land_ones, Z.shiftr_div_pow2 by lia.
Qed.

Lemma PDX_range a : is_u32 a → 0 ≤ PDX a < 1024.
Proof.
  intros Ha. rewrite PDX_eq by done. unfold is_u32 in *.
  split; [apply Z.div_pos; lia|apply Z.div_lt_upper_bound; lia].
Qed.

Lemma PTX_range a : is_u32 a → 0 ≤ PTX a < 1024.
Proof. intros Ha. rewrite PTX_eq by done. apply Z.mod_pos_bound. lia. Qed.

(** The two indices determine the page. *)
Lemma page_split a : is_u32 a → a = PDX a * 2 ^ 22 + PTX a * 2 ^ 12 + a mod PGSIZE.
Proof.
  intros Ha. rewrite PDX_eq, PTX_eq by done.
  pose proof (Z.div_mod a 4096). pose proof (Z.div_mod (a / 4096) 1024).
  rewrite Z.div_div in * by lia. change (2 ^ 22) with (4096 * 1024).
  change (2 ^ 12) with 4096. change (2 ^ 10) with 1024. lia.
Qed.

Lemma V2P_P2V a : is_u32 a → P2V (V2P a) = a.
Proof.
  intros Ha. unfold P2V, V2P, u32, is_u32 in *. rewrite Zplus_mod_idemp_l.
  rewrite Z.sub_add. by apply Z.mod_small.
Qed.

Lemma P2V_V2P a : is_u32 a → V2P (P2V a) = a.
Proof.
  intros Ha. unfold P2V, V2P, u32, is_u32 in *. rewrite Zminus_mod_idemp_l.
  replace (a + KERNBASE - KERNBASE) with a by lia. by apply Z.mod_small.
Qed.

(** * Pointwise behaviour of memory *)
Lemma upd_eq m a v : upd m a v a = v.
Proof. unfold upd. by rewrite Z.eqb_refl. Qed.

Lemma upd_ne m a v x : x ≠ a → upd m a v x = m x.
Proof. intros. unfold upd. by destruct (Z.eqb_spec x a). Qed.

Lemma byte_split v : is_u32 v →
  v = byte v 0 + 2 ^ 8 * byte v 1 + 2 ^ 16 * byte v 2 + 2 ^ 24 * byte v 3.
Proof.
  intros Hv. unfold byte, is_u32 in *. change 0xFF with (Z.ones 8).
  rewrite !Z.land_ones, !Z.shiftr_div_pow2 by lia.
  change (2 ^ (8 * 0)) with 1. change (2 ^ (8 * 1)) with 256.
  change (2 ^ (8 * 2)) with (256 * 256). change (2 ^ (8 * 3)) with (256 * 256 * 256).
  change (2 ^ 8) with 256. rewrite <-!Z.div_div by lia. rewrite Z.div_1_r.
  pose proof (Z.div_mod v 256). pose proof (Z.div_mod (v / 256) 256).
  pose proof (Z.div_mod (v / 256 / 256) 256).
  rewrite (Z.mod_small (v / 256 / 256 / 256)); [lia|].
  split; [repeat apply Z.div_pos; lia|].
  rewrite !Z.div_div by lia. apply Z.div_lt_upper_bound; lia.
Qed.

Lemma store32_out m a v x : x < a ∨ a + 4 ≤ x → store32 m a v x = m x.
Proof. intros. unfold store32. rewrite !upd_ne by lia. done. Qed.

Lemma load_store32 m a v : is_u32 v → load32 (store32 m a v) a = v.
Proof.
  intros Hv. rewrite (byte_split v Hv) at 2. unfold load32, store32, upd.
  repeat match goal with |- context [?x =? ?y] =>
    destruct (Z.eqb_spec x y); try lia end.
Qed.

Lemma load32_ext m m' a : (∀ x, a ≤ x < a + 4 → m x = m' x) → load32 m a = load32 m' a.
Proof. intros H. unfold load32. rewrite !H by lia. done. Qed.

Lemma load_store32_ne m a b v : a + 4 ≤ b ∨ b + 4 ≤ a → load32 (store32 m a v) b = load32 m b.
Proof. intros H. apply load32_ext. intros x Hx. apply store32_out. lia. Qed.

Lemma load32_zero m a : (∀ x, a ≤ x < a + 4 → m x = 0) → load32 m a = 0.
Proof. intros H. unfold load32. rewrite !H by lia. done. Qed.

(** Every address holds a byte. *)
Definition bytes (m : mem) : Prop := ∀ a, is_u8 (m a).

Lemma byte_u8 v i : is_u8 (byte v i).
Proof.
  unfold byte. change 0xFF with (Z.ones 8). rewrite Z.land_ones by lia.
  apply Z.mod_pos_bound. lia.
Qed.

Lemma upd_bytes m a v : bytes m → is_u8 v → bytes (upd m a v).
Proof. intros Hm Hv x. unfold upd. case_match; [done|apply Hm]. Qed.

Lemma store32_bytes m a v : bytes m → bytes (store32 m a v).
Proof. intros Hm. unfold store32. repeat apply upd_bytes; auto using byte_u8. Qed.

Lemma load32_u32 m a : bytes m → is_u32 (load32 m a).
Proof.
  intros Hm. unfold load32, is_u32.
  pose proof (Hm a). pose proof (Hm (a + 1)). pose proof (Hm (a + 2)).
  pose proof (Hm (a + 3)). unfold is_u8 in *. lia.
Qed.

(** * string.c: results *)
Definition within (x a n : Z) : bool := (a <=? x) && (x <? a + n).

Ltac within_cases := unfold within in *;
  repeat match goal with
  | |- context [?x <=? ?y] => destruct (Z.leb_spec x y)
  | |- context [?x <? ?y] => destruct (Z.ltb_spec x y)
  end; cbn [andb orb negb] in *.

Lemma stosb_spec cnt m addr data x :
  stosb m addr data cnt x = if within x addr (Z.of_nat cnt) then u8 data else m x.
Proof.
  revert m addr. induction cnt as [|cnt IH]; intros m addr; cbn [stosb].
  - within_cases; (done || lia).
  - rewrite IH. unfold upd. destruct (Z.eqb_spec x addr); within_cases; (done || lia).
Qed.

(** The word [memset] repeats has the byte [c] in each position. *)
Lemma memset_word c i : 0 ≤ i < 4 →
  byte (Z.lor (Z.lor (Z.lor (Z.shiftl (Z.land c 0xFF) 24) (Z.shiftl (Z.land c 0xFF) 16))
    (Z.shiftl (Z.land c 0xFF) 8)) (Z.land c 0xFF)) i = u8 c.
Proof.
  intros Hi. unfold u8. change 256 with (2 ^ 8).
  assert (Hc : Z.land c 0xFF = c mod 2 ^ 8).
  { change 0xFF with (Z.ones 8). by rewrite Z.land_ones by lia. }
  rewrite Hc. assert (Hb : ∀ k, 8 ≤ k → Z.testbit (c mod 2 ^ 8) k = false)
    by (intros; apply Z.mod_pow2_bits_high; lia).
  apply Z.bits_inj'. intros n Hn. unfold byte. change 0xFF with (Z.ones 8).
  rewrite Z.land_spec, Z.shiftr_spec, !Z.lor_spec, !Z.shiftl_spec by lia.
  destruct (Z.lt_ge_cases n 8) as [Hlt|Hge].
  - rewrite Z.ones_spec_low, andb_true_r by lia.
    assert (i = 0 ∨ i = 1 ∨ i = 2 ∨ i = 3) as [-> | [-> | [-> | ->]]] by lia.
    all: repeat match goal with
    | |- context [Z.testbit _ ?k] => first [rewrite (Z.testbit_neg_r _ k) by lia | rewrite (Hb k) by lia]
    end; rewrite ?orb_false_l, ?orb_false_r; f_equal; lia.
  - rewrite Z.ones_spec_high, andb_false_r by lia. by rewrite Hb by lia.
Qed.

Lemma stosl_spec cnt m addr w v x : (∀ i, 0 ≤ i < 4 → byte w i = v) →
  stosl m addr w cnt x = if within x addr (4 * Z.of_nat cnt) then v else m x.
Proof.
  intros Hw. revert m addr. induction cnt as [|cnt IH]; intros m addr; cbn [stosl].
  - within_cases; (done || lia).
  - rewrite IH. unfold store32, upd. rewrite !Hw by lia.
    repeat match goal with |- context [x =? ?y] => destruct (Z.eqb_spec x y) end;
      within_cases; (done || lia).
Qed.

(** [memset] stores the low byte of [c] in the [n] bytes from [dst],
    whether it takes the word or the byte loop, and changes nothing else. *)
Lemma memset_at m dst c n x : 0 ≤ n →
  memset m dst c n x = if within x dst n then u8 c else m x.
Proof.
  intros Hn. unfold memset.
  destruct ((dst mod 4 =? 0) && (n mod 4 =? 0)) eqn:E.
  - rewrite (stosl_spec _ _ _ _ (u8 c)) by (intros; by apply memset_word).
    apply andb_true_iff in E as [_ E%Z.eqb_eq].
    pose proof (Z.div_mod n 4). pose proof (Z.div_pos n 4).
    replace (4 * Z.of_nat (Z.to_nat (n / 4))) with n by lia. done.
  - rewrite stosb_spec. replace (Z.of_nat (Z.to_nat n)) with n by lia. done.
Qed.

Lemma move_down_spec n m d s x : s ≤ d →
  move_down m d s n x =
    if within x (d - Z.of_nat n) (Z.of_nat n) then m (x - d + s) else m x.
Proof.
  revert m d s. induction n as [|n IH]; intros m d s Hsd; cbn [move_down].
  - within_cases; (done || lia).
  - rewrite IH by lia. unfold upd.
    repeat match goal with |- context [?a =? ?b] => destruct (Z.eqb_spec a b) end;
      within_cases; try lia; try done; f_equal; lia.
Qed.

Lemma move_up_spec n m d s x : d ≤ s ∨ s + Z.of_nat n ≤ d →
  move_up m d s n x = if within x d (Z.of_nat n) then m (x - d + s) else m x.
Proof.
  revert m d s. induction n as [|n IH]; intros m d s Hsd; cbn [move_up].
  - within_cases; (done || lia).
  - rewrite IH by lia. unfold upd.
    repeat match goal with |- context [?a =? ?b] => destruct (Z.eqb_spec a b) end;
      within_cases; try lia; try done; f_equal; lia.
Qed.

(** [memmove] copies the [n] bytes that were at [src] to [dst], also when
    the two regions overlap, and changes nothing else. *)
Lemma memmove_at m dst src n x : 0 ≤ n →
  memmove m dst src n x = if within x dst n then m (x - dst + src) else m x.
Proof.
  intros Hn. unfold memmove.
  destruct ((src <? dst) && (dst <? src + n)) eqn:E.
  - apply andb_true_iff in E as [E1%Z.ltb_lt E2%Z.ltb_lt].
    rewrite move_down_spec by lia. replace (dst + n - Z.of_nat (Z.to_nat n)) with dst by lia.
    replace (Z.of_nat (Z.to_nat n)) with n by lia. within_cases; try done; f_equal; lia.
  - apply andb_false_iff in E. rewrite move_up_spec.
    + replace (Z.of_nat (Z.to_nat n)) with n by lia. done.
    + rewrite Z.ltb_ge, Z.ltb_ge in E. lia.
Qed.

Lemma read_bytes_lookup m a n i : (i < n)%nat →
  read_bytes m a n !! i = Some (m (a + Z.of_nat i)).
Proof.
  intros Hi. unfold read_bytes. rewrite list_lookup_fmap, lookup_seq_lt by done. done.
Qed.

Lemma read_bytes_length m a n : length (read_bytes m a n) = n.
Proof. unfold read_bytes. by rewrite length_fmap, length_seq. Qed.

Lemma read_bytes_ext m m' a b n :
  (∀ i, 0 ≤ i < Z.of_nat n → m (a + i) = m' (b + i)) → read_bytes m a n = read_bytes m' b n.
Proof.
  intros H. unfold read_bytes. apply list_fmap_ext. intros i x Hx.
  apply lookup_seq in Hx as [-> Hi]. apply H. lia.
Qed.

Lemma read_bytes_app m a n k :
  read_bytes m a (n + k) = read_bytes m a n ++ read_bytes m (a + Z.of_nat n) k.
Proof.
  unfold read_bytes. rewrite seq_app, fmap_app. f_equal. rewrite Nat.add_0_l.
  pose proof (fmap_add_seq n 0 k) as H. rewrite Nat.add_0_r in H. rewrite <-H, <-list_fmap_compose.
  apply list_fmap_ext. intros i x _. simpl. f_equal. lia.
Qed.

Lemma memset_bytes m dst c n : 0 ≤ n → bytes m → bytes (memset m dst c n).
Proof.
  intros Hn Hm x. rewrite memset_at by done. case_match; [|apply Hm].
  apply Z.mod_pos_bound. lia.
Qed.

Lemma memmove_bytes m dst src n : 0 ≤ n → bytes m → bytes (memmove m dst src n).
Proof. intros Hn Hm x. rewrite memmove_at by done. case_match; apply Hm. Qed.

#[global] Opaque memset memmove.

(** After [memmove] the destination holds the bytes the source held
    before, even when the regions overlap in either direction; after [memset],
    in its word loop or its byte loop, it holds [n] times the low byte of [c];
    neither changes a byte outside the destination. *)
Lemma block_ops_result m dst src c n : 0 ≤ n →
  read_bytes (memmove m dst src n) dst (Z.to_nat n) = read_bytes m src (Z.to_nat n) ∧
  read_bytes (memset m dst c n) dst (Z.to_nat n) = replicate (Z.to_nat n) (u8 c) ∧
  ∀ x, x < dst ∨ dst + n ≤ x → memmove m dst src n x = m x ∧ memset m dst c n x = m x.
Proof.
  intros Hn. split_and!.
  - apply read_bytes_ext. intros i Hi. rewrite memmove_at by done.
    within_cases; try lia. f_equal. lia.
  - apply list_eq. intros i. destruct (decide (i < Z.to_nat n)%nat) as [Hi|Hi].
    + rewrite read_bytes_lookup, lookup_replicate_2 by done.
      rewrite memset_at by done. within_cases; (done || lia).
    + rewrite !lookup_ge_None_2; rewrite ?length_replicate, ?read_bytes_length; (done || lia).
  - intros x Hx. rewrite memmove_at, memset_at by done. within_cases; (done || lia).
Qed.


Lemma safestrcpy_loop_spec n m s t : s + Z.of_nat n < t ∨ t + Z.of_nat n ≤ s →
  let m' := safestrcpy_loop m s t n in
  (∃ k, 0 ≤ k ≤ Z.of_nat n ∧ m' (s + k) = 0 ∧ (k < Z.of_nat n → m (t + k) = 0) ∧ ∀ i, 0 ≤ i < k → m' (s + i) = m (t + i) ∧ m (t + i) ≠ 0) ∧
  ∀ x, x < s ∨ s + Z.of_nat n < x → m' x = m x.
Proof.
  revert m s t. induction n as [|n IH]; intros m s t Hd; cbn [safestrcpy_loop].
  - split; [|intros x Hx; rewrite upd_ne by lia; done].
    exists 0. rewrite Z.add_0_r, upd_eq. split_and!; lia.
  - destruct (Z.eqb_spec (m t) 0) as [Ht|Ht].
    + split; [|intros x Hx; rewrite !upd_ne by lia; done].
      exists 0. rewrite !Z.add_0_r, upd_ne, upd_eq by lia. split_and!; try lia.
    + destruct (IH (upd m s (m t)) (s + 1) (t + 1)) as [(k & Hk & Hz & Ht0 & Hc) Hout];
        [lia|].
      split; [|intros x Hx; rewrite Hout, upd_ne by lia; done].
      exists (k + 1). split_and!; try lia.
      { rewrite <-Hz. f_equal. lia. }
      { intros Hkn. rewrite upd_ne in Ht0 by lia. rewrite <-Ht0 by lia. f_equal. lia. }
      intros i Hi. destruct (decide (i = 0)) as [->|Hi0].
      { rewrite !Z.add_0_r, Hout, upd_eq by lia. done. }
      specialize (Hc (i - 1)). rewrite (upd_ne m s) in Hc by lia.
      replace (s + 1 + (i - 1)) with (s + i) in Hc by lia.
      replace (t + 1 + (i - 1)) with (t + i) in Hc by lia. apply Hc. lia.
Qed.

(** [safestrcpy] with a positive size leaves a NUL-terminated string in
    its buffer: the bytes up to the first NUL or up to [n - 1] of them, and it
    writes nothing outside the [n] bytes of the buffer. *)
Lemma safestrcpy_terminates m s t n : 0 < n → s + n ≤ t ∨ t + n ≤ s →
  (∃ k, 0 ≤ k < n ∧ safestrcpy m s t n (s + k) = 0 ∧ (k < n - 1 → m (t + k) = 0) ∧
     ∀ i, 0 ≤ i < k → safestrcpy m s t n (s + i) = m (t + i) ∧ m (t + i) ≠ 0) ∧
  ∀ x, x < s ∨ s + n ≤ x → safestrcpy m s t n x = m x.
Proof.
  intros Hn Hd. unfold safestrcpy. destruct (Z.leb_spec n 0); [lia|].
  destruct (safestrcpy_loop_spec (Z.to_nat (n - 1)) m s t) as [(k & Hk & Hz & Ht & Hc) Hout]; [lia|].
  split; [|intros x Hx; apply Hout; lia]. exists k. split_and!; try lia; try done.
Qed.

