(* ===== verification/Kalloc.v ===== *)
(** The physical page allocator (kalloc.c).

    [kmem.freelist] is a linked list through the free pages themselves: the
    first word of a free page holds the address of the next.  A page is its
    kernel virtual address, 0 the null pointer.  [end] and [data] come from the
    linked kernel image and are the fields of [KernelImage].

    [kalloc] calls [get_lru], which works on the whole kernel; it is an
    argument [evict] here and is given in [Paging]. *)

From Stdlib Require Import ZArith Lia.
From stdpp Require Import base numbers strings option gmap sets list list_numbers.
From S2P Require Import Prelude Spinlock Mem.

Class KernelImage := { image_data : Z; image_end : Z }.

(** What kernel.ld provides: the image starts at [KERNLINK] and [data] is
    page-aligned. *)
Class KernelImageOk (I : KernelImage) : Prop := {
  image_data_lo : KERNLINK < image_data;
  image_data_hi : image_data ≤ image_end;
  image_data_aligned : image_data mod PGSIZE = 0;
  image_end_hi : image_end < KERNBASE + PHYSTOP
}.

(** * Data *)
Record kmem_state := KmemState {
  k_mem : mem;
  k_lock : bool;
  k_use_lock : bool;
  k_freelist : Z
}.

Definition klk : lens kmem_state bool :=
  Lens k_lock (λ b s, KmemState (k_mem s) b (k_use_lock s) (k_freelist s)).
Definition set_mem (m : mem) (s : kmem_state) : kmem_state :=
  KmemState m (k_lock s) (k_use_lock s) (k_freelist s).
Definition set_use_lock (b : bool) (s : kmem_state) : kmem_state :=
  KmemState (k_mem s) (k_lock s) b (k_freelist s).
Definition set_freelist (r : Z) (s : kmem_state) : kmem_state :=
  KmemState (k_mem s) (k_lock s) (k_use_lock s) r.
Definition mem_mod (f : mem → mem) : M kmem_state unit :=
  mmod (λ s, set_mem (f (k_mem s)) s).

(** The [n] bytes at [a] are in the kernel's direct map. *)
Definition mapped (a n : Z) : bool := (KERNBASE <=? a) && (a + n <=? KERNBASE + PHYSTOP).

(** [*a] and [*a = v] on words. *)
Definition ldw (a : Z) : M kmem_state Z := λ s,
  if mapped a 4 then Ok (load32 (k_mem s) a, s) else Fault.
Definition stw (a v : Z) : M kmem_state unit := λ s,
  if mapped a 4 then Ok (tt, set_mem (store32 (k_mem s) a v) s) else Fault.

(** [memset] and [memmove] within the direct map. *)
Definition kmemset (dst c n : Z) : M kmem_state unit := λ s,
  if mapped dst n then Ok (tt, set_mem (memset (k_mem s) dst c n) s) else Fault.
Definition kmemmove (dst src n : Z) : M kmem_state unit := λ s,
  if mapped dst n && mapped src n then Ok (tt, set_mem (memmove (k_mem s) dst src n) s) else Fault.

(** [stosb] within the direct map. *)
Definition kstosb (addr data cnt : Z) : M kmem_state unit := λ s,
  if (0 <=? cnt) && mapped addr cnt then Ok (tt, set_mem (stosb (k_mem s) addr data (Z.to_nat cnt)) s)
  else Fault.

(** [if(kmem.use_lock) f(&kmem.lock);] *)
Definition if_use_lock (f : M kmem_state unit) : M kmem_state unit := λ s,
  if k_use_lock s then f s else Ok (tt, s).

Section kalloc.
Context `{KernelImage}.

(** * Operations *)

(** [(uint)v % PGSIZE || v < end || V2P(v) >= PHYSTOP] *)
Definition bad_page (v : Z) : bool :=
  negb (u32 v mod PGSIZE =? 0) || (v <? image_end) || (PHYSTOP <=? V2P v).

(** The end of [kfree] and of [klru_free_swap]: fill the page, push it. *)
Definition kfree_push (v : Z) : M kmem_state unit :=
  kmemset v 1 PGSIZE;;
  if_use_lock (acquire klk);;
  r ← mget k_freelist;
  stw v r;;
  mmod (set_freelist v);;
  if_use_lock (release klk).

Definition kfree (v : Z) : M kmem_state unit :=
  if bad_page v then mpanic "kfree" else kfree_push v.

Fixpoint freerange_loop (fuel : nat) (p vend : Z) : M kmem_state unit :=
  match fuel with
  | O => mnofuel
  | S fuel =>
      if p + PGSIZE <=? vend then kfree p;; freerange_loop fuel (p + PGSIZE) vend
      else mret tt
  end.

Definition freerange (vstart vend : Z) : M kmem_state unit :=
  freerange_loop (S (Z.to_nat (vend / PGSIZE))) (PGROUNDUP vstart) vend.

Definition kinit1 (vstart vend : Z) : M kmem_state unit :=
  mmod (put klk false);;
  mmod (set_use_lock false);;
  freerange vstart vend.

Definition kinit2 (vstart vend : Z) : M kmem_state unit :=
  freerange vstart vend;;
  mmod (set_use_lock true).

Definition kalloc_with {S} (km : lens S kmem_state) (evict : Z → Z → M S unit)
    (pid lru : Z) : M S Z :=
  zoom km (if_use_lock (acquire klk));;
  r ← zoom km (mget k_freelist);
  (if negb (r =? 0) then
     next ← zoom km (ldw r);
     zoom km (mmod (set_freelist next));;
     (if negb (pid =? -1) && negb (lru =? -1) then evict pid (u32 lru) else mret tt)
   else mret tt);;
  zoom km (if_use_lock (release klk));;
  mret r.

(** [kalloc(-1, lru)], which never evicts. *)
Definition kalloc_page : M kmem_state Z :=
  kalloc_with lens_id (λ _ _, mret tt) (-1) 0.

(** * The free list *)
Definition page_ok (v : Z) : Prop :=
  v mod PGSIZE = 0 ∧ image_end ≤ v ∧ v + PGSIZE ≤ KERNBASE + PHYSTOP.

Fixpoint free_chain (m : mem) (r : Z) (F : list Z) : Prop :=
  match F with
  | [] => r = 0
  | p :: F => r = p ∧ page_ok p ∧ free_chain m (load32 m p) F
  end.

Record kmem_rep (s : kmem_state) (F : list Z) : Prop := {
  kr_chain : free_chain (k_mem s) (k_freelist s) F;
  kr_nodup : NoDup F;
  kr_bytes : bytes (k_mem s);
  kr_lock : k_lock s = false
}.

Context {IOk : KernelImageOk _}.

Lemma page_disjoint v w : v mod PGSIZE = 0 → w mod PGSIZE = 0 → v ≠ w →
  v + PGSIZE ≤ w ∨ w + PGSIZE ≤ v.
Proof.
  intros. pose proof (Z.div_mod v 4096). pose proof (Z.div_mod w 4096). lia.
Qed.

Lemma page_ok_range v : page_ok v → KERNLINK ≤ v ∧ v + PGSIZE ≤ KERNBASE + PHYSTOP.
Proof. intros (_ & ? & ?). destruct IOk. lia. Qed.

Lemma page_ok_mapped v a n : page_ok v → v ≤ a → a + n ≤ v + PGSIZE → mapped a n = true.
Proof.
  intros Hv%page_ok_range Ha Hn. unfold mapped.
  apply andb_true_iff. rewrite !Z.leb_le. lia.
Qed.

Lemma bad_page_spec v : is_u32 v → bad_page v = false ↔ page_ok v.
Proof.
  intros Hv. unfold bad_page, page_ok, V2P, is_u32 in *. destruct IOk as [H1 H2 H3 H4].
  rewrite !orb_false_iff, negb_false_iff, Z.eqb_eq, Z.ltb_ge, Z.leb_gt.
  rewrite (u32_small v) by lia.
  assert (Hk : image_end ≤ v → u32 (v - KERNBASE) = v - KERNBASE)
    by (intros; apply u32_small; lia).
  split.
  - intros [[Hm He] Hp]. rewrite Hk in Hp by done. split_and!; try done.
    pose proof (Z.div_mod v 4096). lia.
  - intros (Hm & He & Hp). rewrite Hk by done. split_and!; try done. lia.
Qed.

Lemma page_ok_u32 v : page_ok v → is_u32 v.
Proof. intros Hv%page_ok_range. unfold is_u32. lia. Qed.

Lemma page_ok_not_bad v : page_ok v → bad_page v = false.
Proof. intros Hv. by apply bad_page_spec; [apply page_ok_u32|]. Qed.

Lemma free_chain_ext m m' r F :
  (∀ p x, p ∈ F → p ≤ x < p + 4 → m x = m' x) → free_chain m r F → free_chain m' r F.
Proof.
  revert r. induction F as [|p F IH]; intros r Hm; [done|]. intros (-> & Hp & HF).
  cbn [free_chain]. split_and!; try done.
  rewrite <-(load32_ext m m') by (intros; apply (Hm p); set_solver).
  apply IH; [|done]. intros q x Hq. apply Hm. set_solver.
Qed.

Lemma free_chain_ok m r F p : free_chain m r F → p ∈ F → page_ok p.
Proof.
  revert r. induction F as [|q F IH]; intros r; [set_solver|].
  intros (-> & Hq & HF) [->|Hp]%elem_of_cons; eauto.
Qed.

Lemma free_chain_u32 m r F : free_chain m r F → is_u32 r.
Proof. destruct F as [|p F]; [intros ->|intros (-> & Hp & _); by apply page_ok_u32]. done. Qed.

(** The page [v] after [kfree]: filled with 1, its first word the old list. *)
Definition freed (s : kmem_state) (v : Z) : kmem_state :=
  KmemState (store32 (memset (k_mem s) v 1 PGSIZE) v (k_freelist s))
    (k_lock s) (k_use_lock s) v.

Lemma kfree_push_run s v : page_ok v → k_lock s = false →
  kfree_push v s = Ok (tt, freed s v).
Proof.
  intros Hv Hl. unfold kfree_push, kmemset, stw. mred.
  rewrite (page_ok_mapped v) by (done || lia). unfold if_use_lock, acquire, release, freed.
  destruct s as [m lk u r]. simpl in *. subst lk.
  destruct u; simpl; rewrite (page_ok_mapped v) by (done || lia); done.
Qed.

Lemma kfree_run s v : page_ok v → k_lock s = false → kfree v s = Ok (tt, freed s v).
Proof. intros Hv Hl. unfold kfree. rewrite page_ok_not_bad by done. by apply kfree_push_run. Qed.

Lemma freed_out s v x : x < v ∨ v + PGSIZE ≤ x → k_mem (freed s v) x = k_mem s x.
Proof.
  intros Hx. simpl. rewrite store32_out by lia. rewrite memset_at by lia.
  within_cases; (done || lia).
Qed.

Lemma freed_rep s F v : page_ok v → v ∉ F → kmem_rep s F → kmem_rep (freed s v) (v :: F).
Proof.
  intros Hv HvF [Hc Hnd Hb Hl]. split; try done.
  - simpl. split_and!; try done. rewrite load_store32 by (by eapply free_chain_u32).
    apply (free_chain_ext (k_mem s)); [|done]. intros p x Hp Hx.
    symmetry. apply (freed_out s v).
    destruct (page_disjoint p v); try lia; [apply (free_chain_ok _ _ _ _ Hc Hp)|apply Hv|set_solver].
  - by apply NoDup_cons.
  - apply store32_bytes, memset_bytes; [lia|done].
Qed.

Lemma kfree_bad s v : is_u32 v → ¬ page_ok v → kfree v s = Panic "kfree".
Proof.
  intros Hu Hv. unfold kfree. destruct (bad_page v) eqn:E; [done|].
  by apply bad_page_spec in E.
Qed.

(** The state [kalloc] leaves: the first page off the list. *)
Definition popped (s : kmem_state) : kmem_state :=
  if k_freelist s =? 0 then s else set_freelist (load32 (k_mem s) (k_freelist s)) s.

Lemma kmem_head s p F : kmem_rep s (p :: F) → k_freelist s = p ∧ page_ok p ∧ p ≠ 0.
Proof.
  intros [(-> & Hp & _) _ _ _]. split_and!; try done. apply page_ok_range in Hp. lia.
Qed.

Lemma kalloc_page_run s F : kmem_rep s F → kalloc_page s = Ok (k_freelist s, popped s).
Proof.
  intros HF. pose proof (kr_lock _ _ HF) as Hl. unfold kalloc_page, kalloc_with, popped.
  mred. unfold zoom, if_use_lock, acquire, release. destruct s as [m lk u r]. simpl in *. subst lk.
  assert (Hld : r ≠ 0 → mapped r 4 = true).
  { intros Hr. destruct F as [|p F]; [by destruct HF|].
    apply kmem_head in HF as (Hp & Hok & _). simpl in Hp. subst r.
    apply (page_ok_mapped p); [done|lia|lia]. }
  destruct u; simpl; (destruct (Z.eqb_spec r 0) as [->|Hr]; [done|]); simpl;
    unfold ldw; rewrite Hld by done; done.
Qed.

Lemma popped_nil s : kmem_rep s [] → popped s = s ∧ k_freelist s = 0.
Proof. intros [Hc _ _ _]. simpl in Hc. unfold popped. by rewrite Hc. Qed.

Lemma popped_cons s p F : kmem_rep s (p :: F) →
  kmem_rep (popped s) F ∧ k_mem (popped s) = k_mem s ∧ k_lock (popped s) = false ∧
  k_use_lock (popped s) = k_use_lock s.
Proof.
  intros HF. destruct (kmem_head _ _ _ HF) as (Hp & Hok & H0). destruct HF as [Hc Hnd Hb Hl].
  unfold popped. rewrite Hp. destruct (Z.eqb_spec p 0); [done|]. simpl.
  destruct Hc as (_ & _ & Hc). apply NoDup_cons in Hnd as [_ Hnd]. by split_and!.
Qed.

(** Bytes of a page that is not free may change. *)
Lemma kmem_rep_write s F v m : kmem_rep s F → v mod PGSIZE = 0 → v ∉ F → bytes m →
  (∀ x, x < v ∨ v + PGSIZE ≤ x → m x = k_mem s x) → kmem_rep (set_mem m s) F.
Proof.
  intros [Hc Hnd Hb Hl] Hv HvF Hm Hout. split; try done. simpl.
  eapply free_chain_ext; [|exact Hc]. intros p x Hp Hx. symmetry. apply Hout.
  destruct (free_chain_ok _ _ _ _ Hc Hp) as (Hpm & _ & _).
  assert (p ≠ v) by (intros ->; done). destruct (page_disjoint p v); (done || lia).
Qed.

Lemma freerange_loop_spec fuel p vend s F :
  kmem_rep s F → p mod PGSIZE = 0 → image_end ≤ p → vend ≤ KERNBASE + PHYSTOP →
  (∀ v, v ∈ F → v < p ∨ vend ≤ v) → (0 < fuel)%nat → vend - p < PGSIZE * Z.of_nat fuel →
  ∃ s' F', freerange_loop fuel p vend s = Ok (tt, s') ∧ kmem_rep s' F' ∧
    k_use_lock s' = k_use_lock s ∧
    ∀ v, v ∈ F' ↔ v ∈ F ∨ (v mod PGSIZE = 0 ∧ p ≤ v ∧ v + PGSIZE ≤ vend).
Proof.
  revert p s F. induction fuel as [|fuel IH]; intros p s F HF Hp He Hv Hd H0 Hfuel;
    cbn [freerange_loop].
  - lia.
  - destruct (Z.leb_spec (p + PGSIZE) vend) as [Hle|Hgt].
    + assert (Hok : page_ok p) by (unfold page_ok; lia).
      erewrite bind_Ok by (apply kfree_run; [done|by eapply kr_lock]).
      destruct (IH (p + PGSIZE) (freed s p) (p :: F)) as (s' & F' & -> & HF' & Hu & Hin);
        try lia.
      * apply freed_rep; [done| |done]. intros Hin%Hd. lia.
      * pose proof (Z.div_mod p 4096). Z.div_mod_to_equations. lia.
      * intros v [->|Hin]%elem_of_cons; [lia|]. apply Hd in Hin. lia.
      * exists s', F'. split_and!; try done. intros v. rewrite Hin, elem_of_cons.
        split; [intros [[->|?]|?]; [right; lia|by left|right; lia]|].
        intros [?|(Hm & Hlo & Hhi)]; [by left; right|].
        destruct (decide (v = p)) as [->|Hne]; [by left; left|]. right.
        destruct (page_disjoint v p); try done; lia.
    + exists s, F. split_and!; try done. intros v. split; [by left|].
      intros [?|(Hm & Hlo & Hhi)]; [done|]. lia.
Qed.

Lemma freerange_spec vstart vend s F :
  kmem_rep s F → image_end ≤ vstart → vstart < KERNBASE + PHYSTOP →
  vend ≤ KERNBASE + PHYSTOP → (∀ v, v ∈ F → v < vstart ∨ vend ≤ v) →
  ∃ s' F', freerange vstart vend s = Ok (tt, s') ∧ kmem_rep s' F' ∧
    k_use_lock s' = k_use_lock s ∧
    ∀ v, v ∈ F' ↔ v ∈ F ∨ (v mod PGSIZE = 0 ∧ vstart ≤ v ∧ v + PGSIZE ≤ vend).
Proof.
  intros HF He Hs Hv Hd. unfold freerange. destruct IOk as [H1 H2 H3 H4].
  rewrite PGROUNDUP_eq by lia.
  set (p := (vstart + 4095) / 4096 * 4096).
  assert (Hp : p mod PGSIZE = 0 ∧ vstart ≤ p < vstart + PGSIZE)
    by (subst p; split; [apply Z_mod_mult|Z.div_mod_to_equations; lia]).
  destruct (freerange_loop_spec (S (Z.to_nat (vend / PGSIZE))) p vend s F)
    as (s' & F' & -> & HF' & Hu & Hin); try done; try lia.
  - intros v Hin%Hd. lia.
  - pose proof (Z.div_mod vend 4096). pose proof (Z.mod_pos_bound vend 4096).
    destruct (decide (vend < 0)); lia.
  - exists s', F'. split_and!; try done. intros v. rewrite Hin. split.
    + intros [?|?]; [by left|right; lia].
    + intros [?|(Hm & Hlo & Hhi)]; [by left|right]. split_and!; try done.
      pose proof (Z.div_mod v 4096). subst p. Z.div_mod_to_equations. lia.
Qed.

Definition kmem_bss (m : mem) : kmem_state := KmemState m false false 0.

(** [kinit1(end, P2V(4M)); kinit2(P2V(4M), P2V(PHYSTOP))], as [main]
    calls them, put every whole page between the end of the kernel image and
    the top of physical memory on the free list exactly once, and turn locking
    on. *)
Lemma kinit_frees_all_pages m : bytes m → image_end ≤ KERNBASE + 0x400000 →
  ∃ s' F, (kinit1 image_end (KERNBASE + 0x400000);;
           kinit2 (KERNBASE + 0x400000) (KERNBASE + PHYSTOP)) (kmem_bss m) = Ok (tt, s') ∧
    kmem_rep s' F ∧ k_use_lock s' = true ∧ ∀ v, v ∈ F ↔ page_ok v.
Proof.
  intros Hm He. destruct IOk as [H1 H2 H3 H4].
  assert (H0 : kmem_rep (kmem_bss m) []) by (split; try done; by apply NoDup_nil).
  unfold kinit1, kinit2. rewrite bind_assoc. erewrite bind_Ok by reflexivity.
  rewrite bind_assoc. erewrite bind_Ok by reflexivity.
  change (set_use_lock false (put klk false (kmem_bss m))) with (kmem_bss m).
  destruct (freerange_spec image_end (KERNBASE + 0x400000) _ _ H0)
    as (s1 & F1 & E1 & HF1 & _ & Hin1); try lia; [set_solver|].
  erewrite bind_Ok by exact E1.
  destruct (freerange_spec (KERNBASE + 0x400000) (KERNBASE + PHYSTOP) _ _ HF1)
    as (s2 & F2 & E2 & HF2 & _ & Hin2); try lia.
  { intros v Hv%Hin1. set_solver by lia. }
  erewrite bind_Ok by exact E2. exists (set_use_lock true s2), F2.
  split_and!; try done; [by destruct HF2|].
  intros v. rewrite Hin2, Hin1. unfold page_ok.
  pose proof (Z.div_mod v 4096). split.
  - intros [[?|?]|?]; [set_solver|lia|lia].
  - intros. destruct (decide (v + PGSIZE ≤ KERNBASE + 0x400000)); [left; right; lia|].
    right. Z.div_mod_to_equations. lia.
Qed.

(** * The allocator as a stack of pages *)
Inductive kop := KAlloc | KFree (v : Z).

Definition kop_run (o : kop) : M kmem_state Z :=
  match o with KAlloc => kalloc_page | KFree v => kfree v;; mret 0 end.

Fixpoint kops_run (os : list kop) : M kmem_state (list Z) :=
  match os with
  | [] => mret []
  | o :: os => r ← kop_run o; rs ← kops_run os; mret (r :: rs)
  end.

Definition stack_step (F : list Z) (o : kop) : Z * list Z :=
  match o, F with
  | KAlloc, [] => (0, [])
  | KAlloc, p :: F => (p, F)
  | KFree v, F => (0, v :: F)
  end.

Fixpoint stack_run (F : list Z) (os : list kop) : list Z * list Z :=
  match os with
  | [] => ([], F)
  | o :: os => let '(r, F) := stack_step F o in
               let '(rs, F) := stack_run F os in (r :: rs, F)
  end.

(** Clients free only pages they hold. *)
Definition kop_guard (F : list Z) (o : kop) : Prop :=
  match o with KAlloc => True | KFree v => page_ok v ∧ v ∉ F end.

Fixpoint kops_guard (F : list Z) (os : list kop) : Prop :=
  match os with
  | [] => True
  | o :: os => kop_guard F o ∧ kops_guard (stack_step F o).2 os
  end.

Lemma kop_refines s F o : kmem_rep s F → kop_guard F o →
  ∃ s', kop_run o s = Ok ((stack_step F o).1, s') ∧ kmem_rep s' (stack_step F o).2 ∧
    ∀ x, (∀ v, o = KFree v → x < v ∨ v + PGSIZE ≤ x) → k_mem s' x = k_mem s x.
Proof.
  intros HF Hg. destruct o as [|v]; cbn [kop_run kop_guard] in *.
  - rewrite (kalloc_page_run _ _ HF). exists (popped s). destruct F as [|p F].
    + destruct (popped_nil s HF) as [-> ->]. done.
    + destruct (popped_cons _ _ _ HF) as (HF' & -> & _).
      by destruct (kmem_head _ _ _ HF) as (-> & _).
  - destruct Hg as [Hv HvF]. erewrite bind_Ok by (apply kfree_run; [done|by eapply kr_lock]).
    exists (freed s v). split_and!; [done|by apply freed_rep|].
    intros x Hx. apply freed_out. by apply Hx.
Qed.

(** C12. Whatever sequence of [kalloc] and [kfree] runs, clients freeing only
    pages they hold, the allocator neither faults nor panics, behaves as a
    stack of distinct pages (so no page is handed out twice and 0 is returned
    only when none is free), and never writes to a page that is not freed. *)
Theorem kmem_ops_refine_stack os s F : kmem_rep s F → kops_guard F os →
  ∃ s', kops_run os s = Ok ((stack_run F os).1, s') ∧ kmem_rep s' (stack_run F os).2 ∧
    ∀ x, (∀ v, KFree v ∈ os → x < v ∨ v + PGSIZE ≤ x) → k_mem s' x = k_mem s x.
Proof.
  revert s F. induction os as [|o os IH]; intros s F HF Hg.
  - exists s. done.
  - destruct Hg as [Ho Hg]. destruct (kop_refines s F o HF Ho) as (s1 & E1 & HF1 & Hm1).
    destruct (IH s1 _ HF1 Hg) as (s2 & E2 & HF2 & Hm2). exists s2.
    cbn [kops_run stack_run]. erewrite bind_Ok by exact E1. erewrite bind_Ok by exact E2.
    destruct (stack_step F o) as [r F1]. simpl in *. destruct (stack_run F1 os) as [rs F2].
    split_and!; try done. intros x Hx. rewrite Hm2, Hm1; [done| |];
      intros v Hv; apply Hx; set_solver.
Qed.
End kalloc.

(** A kernel image for the examples. *)
Definition sample_image : KernelImage := {| image_data := 0x80108000; image_end := 0x80116000 |}.

Lemma sample_image_ok : KernelImageOk sample_image.
Proof. by split. Qed.


Lemma kmem_ops_refine_stack_witness :
  let os := [KFree 0x80200000; KAlloc; KAlloc; KFree 0x80300000] in
  ∃ s', kops_run (H := sample_image) os (kmem_bss (λ _, 0)) = Ok ([0; 0x80200000; 0; 0], s') ∧
    kmem_rep (H := sample_image) s' [0x80300000].
Proof.
  destruct (@kmem_ops_refine_stack sample_image sample_image_ok
    [KFree 0x80200000; KAlloc; KAlloc; KFree 0x80300000] (kmem_bss (λ _, 0)) [])
    as (s' & E & HF & _).
  - split; try done. by apply NoDup_nil.
  - simpl. unfold page_ok. simpl. split_and!; (done || lia || set_solver).
  - exists s'. done.
Defined.
