(* ===== verification/Cpus.v ===== *)
(** Spin locks on several CPUs (spinlock.c, mycpu of proc.c).

    The other files run kernel code on one CPU, where a lock is a flag
    ([Spinlock]).  Here [acquire], [release] and [holding] run instruction by
    instruction on every CPU at once: a step is one access of one CPU to a
    lock, with the accesses to its own [struct cpu] and to its interrupt flag
    that follow.  [held] is not part of the machine: it records which locks the
    program of a CPU has acquired and not released. *)

From Stdlib Require Import ZArith Lia.
From stdpp Require Import base numbers strings option gmap sets list list_numbers functions relations.
From S2P Require Import Prelude Spinlock Mem Kalloc.

(** * Interrupts *)

Record cpu := Cpu { apicid : Z; ncli : Z; intena : bool }.
Definition w_ncli (n : Z) (c : cpu) : cpu := Cpu (apicid c) n (intena c).
Definition w_intena (b : bool) (c : cpu) : cpu := Cpu (apicid c) (ncli c) b.

(** The array [cpus] and the interrupt flag FL_IF of the running CPU, whose
    local APIC id is [a]. *)
Record machine := Machine { cpus : list cpu; fl_if : bool }.
Definition cli : M machine unit := mmod (λ m, Machine (cpus m) false).
Definition sti : M machine unit := mmod (λ m, Machine (cpus m) true).

Fixpoint find_apicid (a : Z) (cs : list cpu) : option nat :=
  match cs with
  | [] => None
  | c :: cs => if apicid c =? a then Some 0%nat else S <$> find_apicid a cs
  end.

Definition mycpu (a : Z) : M machine nat :=
  i ← mget fl_if;
  if (i : bool) then mpanic "mycpu called with interrupts enabled" else
  cs ← mget cpus;
  match find_apicid a cs with Some i => mret i | None => mpanic "unknown apicid" end.

Definition cpu_get {T} (a : Z) (f : cpu → T) : M machine T :=
  i ← mycpu a; cs ← mget cpus; c ← mopt (cs !! i); mret (f c).
Definition cpu_set (a : Z) (f : cpu → cpu) : M machine unit :=
  i ← mycpu a; mmod (λ m, Machine (alter f i (cpus m)) (fl_if m)).

Definition pushcli (a : Z) : M machine unit :=
  eflags ← mget fl_if;
  cli;;
  n ← cpu_get a ncli;
  (if n =? 0 then cpu_set a (w_intena eflags) else mret tt);;
  cpu_set a (λ c, w_ncli (ncli c + 1) c).

Definition popcli (a : Z) : M machine unit :=
  i ← mget fl_if;
  if (i : bool) then mpanic "popcli - interruptible" else
  cpu_set a (λ c, w_ncli (ncli c - 1) c);;
  n ← cpu_get a ncli;
  if n <? 0 then mpanic "popcli" else
  ena ← cpu_get a intena;
  if (n =? 0) && ena then sti else mret tt.

(** * Locks *)

Record spinlock := Lock { lk_locked : bool; lk_cpu : option nat }.
Definition initlock : spinlock := Lock false None.

(** Where a CPU is.  [Run] is code outside spinlock.c; in [holding], called by
    [acquire] (true) or [release] (false), the CPU reads [lk->locked]
    ([HoldRead]) and, if that is set, [lk->cpu] ([HoldOwner]). *)
Inductive pc :=
| Run
| HoldRead (acq : bool) (lk : nat)
| HoldOwner (acq : bool) (lk : nat)
| AcqXchg (lk : nat)
| AcqOwner (lk : nat)
| RelOwner (lk : nat)
| RelStore (lk : nat)
| RelPop
| Panicked (msg : string) (lk : nat).

Record sys := Sys {
  sy_cpus : list cpu;
  sy_if : nat → bool;
  sy_pc : nat → pc;
  sy_locks : nat → spinlock;
  sy_held : nat → list nat;
  sy_own_if : nat → bool
}.
Definition set_pc (i : nat) (p : pc) (s : sys) : sys :=
  Sys (sy_cpus s) (sy_if s) (<[i := p]> (sy_pc s)) (sy_locks s) (sy_held s) (sy_own_if s).
Definition set_lock (lk : nat) (l : spinlock) (s : sys) : sys :=
  Sys (sy_cpus s) (sy_if s) (sy_pc s) (<[lk := l]> (sy_locks s)) (sy_held s) (sy_own_if s).
Definition set_held (i : nat) (h : list nat) (s : sys) : sys :=
  Sys (sy_cpus s) (sy_if s) (sy_pc s) (sy_locks s) (<[i := h]> (sy_held s)) (sy_own_if s).

(** Code of CPU [i] on its own structure and flag, then on to [next]. *)
Definition local (i : nat) (m : Z → M machine unit) (lk : nat) (next : pc) (s : sys) : sys :=
  match sy_cpus s !! i with
  | Some c =>
      match m (apicid c) (Machine (sy_cpus s) (sy_if s i)) with
      | Ok (_, Machine cs f) =>
          set_pc i next (Sys cs (<[i := f]> (sy_if s)) (sy_pc s) (sy_locks s) (sy_held s) (sy_own_if s))
      | Panic msg => set_pc i (Panicked msg lk) s
      | _ => s
      end
  | None => s
  end.

Definition begin_acquire (i lk : nat) : sys → sys := local i (λ a, pushcli a;; pushcli a) lk (HoldRead true lk).
Definition begin_release (i lk : nat) : sys → sys := local i pushcli lk (HoldRead false lk).

(** The rest of [acquire] or [release] when [holding] has returned [r]. *)
Definition held_test (acq r : bool) (lk : nat) : pc :=
  if acq then (if r then Panicked "acquire" lk else AcqXchg lk)
  else (if r then RelOwner lk else Panicked "release" lk).

Definition advance (i : nat) (s : sys) : sys :=
  match sy_pc s i with
  | HoldRead acq lk =>
      if lk_locked (sy_locks s lk) then set_pc i (HoldOwner acq lk) s
      else local i popcli lk (held_test acq false lk) s
  | HoldOwner acq lk =>
      local i (λ a, mycpu a;; popcli a) lk (held_test acq (bool_decide (lk_cpu (sy_locks s lk) = Some i)) lk) s
  | AcqXchg lk =>
      let l := sy_locks s lk in
      let s' := set_lock lk (Lock true (lk_cpu l)) s in
      if lk_locked l then s' else set_pc i (AcqOwner lk) s'
  | AcqOwner lk =>
      local i (λ a, mycpu a;; mret tt) lk Run
        (set_held i (lk :: sy_held s i) (set_lock lk (Lock (lk_locked (sy_locks s lk)) (Some i)) s))
  | RelOwner lk => set_pc i (RelStore lk) (set_lock lk (Lock (lk_locked (sy_locks s lk)) None) s)
  | RelStore lk =>
      set_pc i RelPop (set_held i (filter (.≠ lk) (sy_held s i)) (set_lock lk (Lock false (lk_cpu (sy_locks s lk))) s))
  | RelPop => local i popcli 0 Run s
  | Run | Panicked _ _ => s
  end.

(** A CPU that holds no lock may turn interrupts on and off itself
    ([sy_own_if] records its choice). *)
Definition own_flag (i : nat) (b : bool) (s : sys) : sys :=
  Sys (sy_cpus s) (<[i := b]> (sy_if s)) (sy_pc s) (sy_locks s) (sy_held s) (<[i := b]> (sy_own_if s)).

Inductive cstep : sys → sys → Prop :=
| cs_flag i b s : sy_pc s i = Run → sy_held s i = [] → cstep s (own_flag i b s)
| cs_acquire i lk s : (i < length (sy_cpus s))%nat → sy_pc s i = Run → cstep s (begin_acquire i lk s)
| cs_release i lk s : (i < length (sy_cpus s))%nat → sy_pc s i = Run → cstep s (begin_release i lk s)
| cs_advance i s : (i < length (sy_cpus s))%nat → cstep s (advance i s).

Definition sys_start (ids : list Z) : sys :=
  Sys ((λ a, Cpu a 0 false) <$> ids) (λ _, false) (λ _, Run) (λ _, initlock) (λ _, []) (λ _, false).

(** ** The call stack *)

(** The saved return addresses, following the chain of frame pointers. *)
Fixpoint pcs_loop (n : nat) (ebp : Z) : M kmem_state (list Z) :=
  match n with
  | O => mret []
  | S n' =>
      if (ebp =? 0) || (ebp <? KERNBASE) || (ebp =? 0xffffffff) then mret (replicate n 0)
      else
        eip ← ldw (u32 (ebp + 4));
        ebp ← ldw ebp;
        rest ← pcs_loop n' ebp;
        mret (eip :: rest)
  end.

Definition getcallerpcs (v : Z) : M kmem_state (list Z) := pcs_loop 10 (u32 (v - 8)).

(** * Proofs *)

Lemma getcallerpcs_length v s l s' : getcallerpcs v s = Ok (l, s') → length l = 10%nat ∧ s' = s.
Proof.
  unfold getcallerpcs. generalize (u32 (v - 8)). generalize 10%nat. intros n. revert l.
  induction n as [|n IH]; intros l ebp; cbn [pcs_loop].
  - by intros [= <- <-].
  - destruct (_ || _); [intros [= <- <-]; split; [apply (length_replicate (S n))|done]|].
    intros (a & s1 & E1 & H)%bind_Ok_inv. apply bind_Ok_inv in H as (b & s2 & E2 & H).
    apply bind_Ok_inv in H as (r & s3 & E3 & H). injection H as <- <-.
    unfold ldw in E1, E2. destruct (mapped _ _); [|done]. injection E1 as <- <-.
    destruct (mapped _ _); [|done]. injection E2 as <- <-. destruct (IH _ _ E3) as [Hr ->]. cbn [length]. by rewrite Hr.
Qed.

Lemma find_apicid_lookup cs i c : NoDup (apicid <$> cs) → cs !! i = Some c → find_apicid (apicid c) cs = Some i.
Proof.
  revert i. induction cs as [|d cs IH]; intros i Hnd Hi; [done|]. cbn [find_apicid].
  rewrite fmap_cons, NoDup_cons in Hnd. destruct Hnd as [Hd Hnd]. destruct i as [|i]; simpl in Hi.
  - simplify_eq. by rewrite Z.eqb_refl.
  - rewrite (proj2 (Z.eqb_neq _ _)), (IH i) by done || (intros E; apply Hd; rewrite E; apply list_elem_of_fmap; eauto using list_elem_of_lookup_2).
    done.
Qed.

Lemma mycpu_run cs i c : NoDup (apicid <$> cs) → cs !! i = Some c →
  mycpu (apicid c) (Machine cs false) = Ok (i, Machine cs false).
Proof. intros Hnd Hi. unfold mycpu, mbind, M_bind. simpl. by rewrite (find_apicid_lookup cs i c Hnd Hi). Qed.

Lemma apicid_alter f (i : nat) (cs : list cpu) : (∀ c, apicid (f c) = apicid c) → apicid <$> alter f i cs = apicid <$> cs.
Proof.
  intros Hf. apply list_eq. intros j. rewrite !list_lookup_fmap. destruct (decide (i = j)) as [->|].
  - rewrite list_lookup_alter_eq. destruct (cs !! j); [simpl; by rewrite Hf|done].
  - by rewrite list_lookup_alter_ne.
Qed.

Lemma alter_at f (i : nat) (cs : list cpu) c : cs !! i = Some c → alter f i cs = <[i := f c]> cs.
Proof.
  intros Hi. apply list_eq. intros j. destruct (decide (i = j)) as [->|].
  - rewrite list_lookup_alter_eq, Hi, list_lookup_insert_eq by (by eapply lookup_lt_Some). done.
  - by rewrite list_lookup_alter_ne, list_lookup_insert_ne.
Qed.

Section local_runs.
Context (cs : list cpu) (i : nat) (c : cpu) (Hnd : NoDup (apicid <$> cs)) (Hi : cs !! i = Some c).

Lemma cpu_get_run {T} (f : cpu → T) : cpu_get (apicid c) f (Machine cs false) = Ok (f c, Machine cs false).
Proof. unfold cpu_get. erewrite bind_Ok by by apply mycpu_run. erewrite bind_Ok by reflexivity. simpl. by rewrite Hi. Qed.

Lemma cpu_set_run f : cpu_set (apicid c) f (Machine cs false) = Ok (tt, Machine (alter f i cs) false).
Proof. unfold cpu_set. erewrite bind_Ok by by apply mycpu_run. done. Qed.
End local_runs.

(** What [pushcli] and [popcli] do to the structure of a CPU whose flag is [f]. *)
Definition pushed (f : bool) (c : cpu) : cpu :=
  Cpu (apicid c) (ncli c + 1) (if ncli c =? 0 then f else intena c).
Definition popped_if (c : cpu) : bool := (ncli c - 1 =? 0) && intena c.

Lemma pushcli_run cs i c f : NoDup (apicid <$> cs) → cs !! i = Some c →
  pushcli (apicid c) (Machine cs f) = Ok (tt, Machine (<[i := pushed f c]> cs) false).
Proof.
  intros Hnd Hi. unfold pushcli. do 2 erewrite bind_Ok by reflexivity.
  erewrite bind_Ok by by eapply cpu_get_run. unfold pushed. destruct (Z.eqb_spec (ncli c) 0) as [E|E].
  - erewrite bind_Ok by by apply (cpu_set_run cs i c).
    assert (Hi' : alter (w_intena f) i cs !! i = Some (w_intena f c)) by (by rewrite list_lookup_alter_eq, Hi).
    change (apicid c) with (apicid (w_intena f c)). erewrite cpu_set_run; [|by rewrite apicid_alter|exact Hi'].
    rewrite (alter_at _ _ _ _ Hi'), (alter_at _ _ _ _ Hi), list_insert_insert_eq. done.
  - erewrite bind_Ok by reflexivity. erewrite (cpu_set_run cs i c) by done. by rewrite (alter_at _ _ _ _ Hi).
Qed.

Lemma popcli_run cs i c : NoDup (apicid <$> cs) → cs !! i = Some c → 0 < ncli c →
  popcli (apicid c) (Machine cs false) = Ok (tt, Machine (<[i := w_ncli (ncli c - 1) c]> cs) (popped_if c)).
Proof.
  intros Hnd Hi Hn. unfold popcli. erewrite bind_Ok by reflexivity. cbn [fl_if].
  erewrite bind_Ok by by apply (cpu_set_run cs i c). set (c' := w_ncli (ncli c - 1) c).
  assert (Ha := alter_at (λ c, w_ncli (ncli c - 1) c) _ _ _ Hi). cbv beta in Ha. fold c' in Ha.
  rewrite Ha. assert (Hi' : <[i := c']> cs !! i = Some c') by (apply list_lookup_insert_eq; by eapply lookup_lt_Some).
  assert (Hnd' : NoDup (apicid <$> <[i := c']> cs)) by (rewrite <-Ha; by rewrite apicid_alter).
  change (apicid c) with (apicid c'). erewrite bind_Ok by by eapply cpu_get_run.
  rewrite (proj2 (Z.ltb_ge _ _)) by (simpl; lia). erewrite bind_Ok by by eapply cpu_get_run.
  unfold popped_if. simpl. by destruct ((ncli c - 1 =? 0) && intena c).
Qed.

(** ** Interrupt flags *)

(** How many calls of [pushcli] a CPU has made beyond one for each lock. *)
Definition depth (p : pc) : option Z :=
  match p with
  | Run | RelOwner _ | RelStore _ => Some 0
  | HoldRead acq _ | HoldOwner acq _ => Some (if acq then 2 else 1)
  | AcqXchg _ | AcqOwner _ | RelPop => Some 1
  | Panicked _ _ => None
  end.

(** A CPU with [n] calls of [pushcli] pending has its own choice of flag saved
    and interrupts off, or none pending and its own flag. *)
Definition cpu_ok (c : cpu) (f own : bool) (n : Z) : Prop :=
  0 ≤ n ∧ ncli c = n ∧ f = (if n =? 0 then own else false) ∧ (n ≠ 0 → intena c = own).

Lemma pushed_ok c f own n : cpu_ok c f own n → cpu_ok (pushed f c) false own (n + 1).
Proof.
  intros (Hn & Hc & -> & Hi). unfold pushed. rewrite Hc. split; [lia|]. split; [done|].
  rewrite (proj2 (Z.eqb_neq (n + 1) 0)) by lia. split; [done|]. intros _. simpl.
  destruct (Z.eqb_spec n 0); [done|]. by apply Hi.
Qed.

Lemma popped_ok c f own n : cpu_ok c f own n → 0 < n →
  f = false ∧ cpu_ok (w_ncli (ncli c - 1) c) (popped_if c) own (n - 1).
Proof.
  intros (_ & Hc & -> & Hi) Hn. rewrite (proj2 (Z.eqb_neq n 0)) by lia. split; [done|]. unfold popped_if.
  rewrite Hc, Hi by lia. split; [lia|]. split; [done|]. split; [|simpl; intros _; apply Hi; lia].
  by destruct (n - 1 =? 0).
Qed.

Record int_inv (s : sys) : Prop := {
  ii_ids : NoDup (apicid <$> sy_cpus s);
  ii_cpu i c d : sy_cpus s !! i = Some c → depth (sy_pc s i) = Some d →
    cpu_ok c (sy_if s i) (sy_own_if s i) (Z.of_nat (length (sy_held s i)) + d)
}.

Definition same_but (i : nat) (s s' : sys) : Prop :=
  ∀ j, j ≠ i → sy_pc s' j = sy_pc s j ∧ sy_held s' j = sy_held s j ∧ sy_if s' j = sy_if s j ∧
    sy_own_if s' j = sy_own_if s j ∧ sy_cpus s' !! j = sy_cpus s !! j.

Lemma int_inv_step s s' i : int_inv s → same_but i s s' → apicid <$> sy_cpus s' = apicid <$> sy_cpus s →
  (∀ c' d, sy_cpus s' !! i = Some c' → depth (sy_pc s' i) = Some d →
     cpu_ok c' (sy_if s' i) (sy_own_if s' i) (Z.of_nat (length (sy_held s' i)) + d)) → int_inv s'.
Proof.
  intros [Hids Hcpu] Hsame Hap Hi. split; [by rewrite Hap|]. intros j c d. destruct (decide (j = i)) as [->|Hj].
  - apply Hi.
  - destruct (Hsame j Hj) as (-> & -> & -> & -> & ->). apply Hcpu.
Qed.

Lemma local_eq s i m lk next c cs f : sy_cpus s !! i = Some c →
  m (apicid c) (Machine (sy_cpus s) (sy_if s i)) = Ok (tt, Machine cs f) →
  local i m lk next s =
    set_pc i next (Sys cs (<[i := f]> (sy_if s)) (sy_pc s) (sy_locks s) (sy_held s) (sy_own_if s)).
Proof. intros Hc Hm. unfold local. by rewrite Hc, Hm. Qed.

(** A stretch of private code that leaves [c'] and the flag [f] behind. *)
Lemma local_int s i m lk next c c' f : int_inv s → sy_cpus s !! i = Some c →
  m (apicid c) (Machine (sy_cpus s) (sy_if s i)) = Ok (tt, Machine (<[i := c']> (sy_cpus s)) f) →
  apicid c' = apicid c →
  (∀ d, depth next = Some d → cpu_ok c' f (sy_own_if s i) (Z.of_nat (length (sy_held s i)) + d)) →
  int_inv (local i m lk next s) ∧ sy_locks (local i m lk next s) = sy_locks s ∧
  sy_held (local i m lk next s) = sy_held s ∧ sy_pc (local i m lk next s) = <[i := next]> (sy_pc s).
Proof.
  intros Hs Hc Hm Hid Hok. rewrite (local_eq _ _ _ _ _ _ _ _ Hc Hm). split_and!; try done.
  assert (Hlt : (i < length (sy_cpus s))%nat) by (by eapply lookup_lt_Some).
  eapply (int_inv_step s); [done|..].
  - intros j Hj. simpl. rewrite !fn_lookup_insert_ne by done. rewrite list_lookup_insert_ne by done. done.
  - simpl. rewrite <- (alter_at (λ _, c') _ _ _ Hc). apply list_eq. intros j. rewrite !list_lookup_fmap.
    destruct (decide (i = j)) as [->|]; [rewrite list_lookup_alter_eq, Hc; simpl; by rewrite Hid|].
    by rewrite list_lookup_alter_ne.
  - intros c2 d. simpl. rewrite !fn_lookup_insert, list_lookup_insert_eq by done. intros [= <-] Hd. by apply Hok.
Qed.

(** ** Ownership of locks *)

(** CPU [i] owns a lock from its exchange to its store of zero. *)
Definition owns (s : sys) (i lk : nat) : Prop := lk ∈ sy_held s i ∨ sy_pc s i = AcqOwner lk.

Definition pc_ok (p : pc) (h : list nat) : Prop :=
  match p with
  | AcqXchg lk | AcqOwner lk => lk ∉ h
  | RelOwner lk | RelStore lk => lk ∈ h
  | Panicked msg lk => (msg = "acquire" ∧ lk ∈ h) ∨ (msg = "release" ∧ lk ∉ h)
  | _ => True
  end.

Record lock_inv (s : sys) : Prop := {
  li_locked lk : lk_locked (sy_locks s lk) = true ↔ ∃ i, owns s i lk;
  li_one lk i j : owns s i lk → owns s j lk → i = j;
  li_owner lk i : lk_cpu (sy_locks s lk) = Some i ↔ lk ∈ sy_held s i ∧ sy_pc s i ≠ RelStore lk;
  li_pc i : pc_ok (sy_pc s i) (sy_held s i);
  li_nodup i : NoDup (sy_held s i)
}.

(** A move of CPU [i] between points where it neither takes nor gives up a
    lock. *)
Definition plain (p : pc) : bool := match p with AcqOwner _ | RelStore _ => false | _ => true end.

Lemma lock_inv_move s s' i p : lock_inv s → plain (sy_pc s i) = true → plain p = true → pc_ok p (sy_held s i) →
  sy_locks s' = sy_locks s → sy_held s' = sy_held s → sy_pc s' = <[i := p]> (sy_pc s) → lock_inv s'.
Proof.
  intros [Hl H1 Ho Hp Hn] Hpl Hpl' Hok El Eh Ep.
  assert (Hpc : ∀ j q, plain q = false → sy_pc s' j = q ↔ sy_pc s j = q).
  { intros j q Hq. rewrite Ep. destruct (decide (i = j)) as [->|].
    - rewrite fn_lookup_insert. split; intros; subst; congruence.
    - by rewrite fn_lookup_insert_ne. }
  assert (Hown : ∀ j lk, owns s' j lk ↔ owns s j lk) by (intros j lk; unfold owns; by rewrite Eh, Hpc).
  split.
  - intros lk. rewrite El, Hl. by setoid_rewrite Hown.
  - intros lk a b. rewrite !Hown. apply H1.
  - intros lk j. rewrite El, Eh, Ho. by rewrite Hpc.
  - intros j. rewrite Eh, Ep. destruct (decide (i = j)) as [->|]; [by rewrite fn_lookup_insert|].
    by rewrite fn_lookup_insert_ne.
  - intros j. rewrite Eh. apply Hn.
Qed.

(** The answer of [holding] is right although it reads the lock unprotected. *)
Lemma holding_right s i lk : lock_inv s → plain (sy_pc s i) = true →
  (lk_locked (sy_locks s lk) = false → lk ∉ sy_held s i) ∧
  (lk_cpu (sy_locks s lk) = Some i ↔ lk ∈ sy_held s i).
Proof.
  intros Hs Hp. split.
  - intros Hf Hin. assert (lk_locked (sy_locks s lk) = true) by (apply Hs; exists i; by left). congruence.
  - rewrite (li_owner s Hs). split; [by intros []|]. intros Hin. split; [done|]. by destruct (sy_pc s i).
Qed.

Lemma held_test_ok acq r lk h : (r = true ↔ lk ∈ h) → pc_ok (held_test acq r lk) h ∧ plain (held_test acq r lk) = true.
Proof. destruct acq, r; simpl; intuition congruence. Qed.

Lemma held_test_depth acq r lk d : depth (held_test acq r lk) = Some d → d = (if acq then 1 else 0).
Proof. by destruct acq, r; intros [=]. Qed.

Definition spin_inv (s : sys) : Prop := int_inv s ∧ lock_inv s.

(** A stretch of private code keeps the invariants. *)
Lemma local_inv s i m lk next c c' f : spin_inv s → sy_cpus s !! i = Some c →
  m (apicid c) (Machine (sy_cpus s) (sy_if s i)) = Ok (tt, Machine (<[i := c']> (sy_cpus s)) f) →
  apicid c' = apicid c → plain (sy_pc s i) = true → plain next = true → pc_ok next (sy_held s i) →
  (∀ d, depth next = Some d → cpu_ok c' f (sy_own_if s i) (Z.of_nat (length (sy_held s i)) + d)) →
  spin_inv (local i m lk next s).
Proof.
  intros [Hi Hl] Hc Hm Hid Hp Hp' Hok Hd. destruct (local_int s i m lk next c c' f) as (Hi' & El & Eh & Ep); try done.
  split; [done|]. by eapply (lock_inv_move s).
Qed.

(** ** Steps *)

Section step.
Context (s : sys) (i : nat) (c : cpu) (Hs : spin_inv s) (Hc : sy_cpus s !! i = Some c).

Let Hlt : (i < length (sy_cpus s))%nat.
Proof. by eapply lookup_lt_Some. Qed.

Lemma insert_ids c' : apicid c' = apicid c → NoDup (apicid <$> <[i := c']> (sy_cpus s)).
Proof.
  intros Hid. rewrite list_fmap_insert, Hid, list_insert_id; [apply Hs|]. by rewrite list_lookup_fmap, Hc.
Qed.

Lemma begin_acquire_inv lk : sy_pc s i = Run → spin_inv (begin_acquire i lk s).
Proof.
  intros Hp. pose proof (ii_cpu s (proj1 Hs) i c 0 Hc) as Hk. rewrite Hp in Hk. specialize (Hk eq_refl).
  apply (local_inv s i _ lk _ c (pushed false (pushed (sy_if s i) c)) false); try done.
  - erewrite bind_Ok by (eapply pushcli_run; [apply Hs|exact Hc]).
    change (apicid c) with (apicid (pushed (sy_if s i) c)). rewrite (pushcli_run _ i).
    + by rewrite list_insert_insert_eq.
    + by apply insert_ids.
    + by apply list_lookup_insert_eq.
  - by rewrite Hp.
  - intros d [= <-]. apply pushed_ok in Hk. apply pushed_ok in Hk.
    by replace (Z.of_nat (length (sy_held s i)) + 2) with (Z.of_nat (length (sy_held s i)) + 0 + 1 + 1) by lia.
Qed.

Lemma begin_release_inv lk : sy_pc s i = Run → spin_inv (begin_release i lk s).
Proof.
  intros Hp. pose proof (ii_cpu s (proj1 Hs) i c 0 Hc) as Hk. rewrite Hp in Hk. specialize (Hk eq_refl).
  apply (local_inv s i _ lk _ c (pushed (sy_if s i) c) false); try done.
  - apply pushcli_run; [apply Hs|exact Hc].
  - by rewrite Hp.
  - intros d [= <-]. apply pushed_ok in Hk.
    by replace (Z.of_nat (length (sy_held s i)) + 1) with (Z.of_nat (length (sy_held s i)) + 0 + 1) by lia.
Qed.

(** [popcli] at a point of depth [d], on to a point one less deep. *)
Section pop.
Context (m : Z → M machine unit) (lk : nat) (next : pc) (d : Z).
Hypothesis (Hd : depth (sy_pc s i) = Some d) (Hpos : 0 < d).
Hypothesis Hm : sy_if s i = false →
  m (apicid c) (Machine (sy_cpus s) false) = popcli (apicid c) (Machine (sy_cpus s) false).

Lemma pop_run : m (apicid c) (Machine (sy_cpus s) (sy_if s i)) =
  Ok (tt, Machine (<[i := w_ncli (ncli c - 1) c]> (sy_cpus s)) (popped_if c)).
Proof.
  pose proof (ii_cpu s (proj1 Hs) i c d Hc Hd) as Hk. destruct (popped_ok _ _ _ _ Hk) as [Hf _]; [lia|].
  rewrite Hf, Hm by done. apply popcli_run; [apply Hs|done|]. destruct Hk as (_ & -> & _). lia.
Qed.

Lemma pop_pc : sy_pc (local i m lk next s) = <[i := next]> (sy_pc s).
Proof. by rewrite (local_eq _ _ _ _ _ _ _ _ Hc pop_run). Qed.

Lemma pop_inv : plain (sy_pc s i) = true → plain next = true → pc_ok next (sy_held s i) →
  (∀ d', depth next = Some d' → d' = d - 1) → spin_inv (local i m lk next s).
Proof.
  intros Hp Hp' Hok Hd'. pose proof (ii_cpu s (proj1 Hs) i c d Hc Hd) as Hk.
  destruct (popped_ok _ _ _ _ Hk) as [_ Hk']; [lia|].
  apply (local_inv s i m lk next c (w_ncli (ncli c - 1) c) (popped_if c)); try done; [apply pop_run|].
  intros d' E. rewrite (Hd' _ E).
  by replace (Z.of_nat (length (sy_held s i)) + (d - 1)) with (Z.of_nat (length (sy_held s i)) + d - 1) by lia.
Qed.
End pop.

Lemma mycpu_pop : sy_if s i = false →
  (mycpu (apicid c);; popcli (apicid c)) (Machine (sy_cpus s) false) = popcli (apicid c) (Machine (sy_cpus s) false).
Proof. intros _. by erewrite bind_Ok by (eapply mycpu_run; [apply Hs|exact Hc]). Qed.

Lemma hold_depth acq : 0 < (if (acq : bool) then 2 else 1).
Proof. by destruct acq. Qed.

Lemma hold_inv acq lk : sy_pc s i = HoldRead acq lk ∨ sy_pc s i = HoldOwner acq lk → spin_inv (advance i s).
Proof.
  intros Hp. assert (Hpl : plain (sy_pc s i) = true) by (by destruct Hp as [->| ->]).
  assert (Hd : depth (sy_pc s i) = Some (if acq then 2 else 1)) by (by destruct Hp as [->| ->]).
  destruct (holding_right s i lk (proj2 Hs) Hpl) as [Hf Ho].
  assert (Hd' : ∀ r d, depth (held_test acq r lk) = Some d → d = (if acq then 2 else 1) - 1)
    by (intros r d E; apply held_test_depth in E; by destruct acq).
  unfold advance. destruct Hp as [E|E]; rewrite E.
  - destruct (lk_locked (sy_locks s lk)) eqn:El.
    + split; [|eapply (lock_inv_move s _ i (HoldOwner acq lk)); [apply Hs|done..]].
      eapply int_inv_step; [apply Hs| |done|].
      * intros j Hj. simpl. by rewrite fn_lookup_insert_ne.
      * intros c' d. simpl. rewrite fn_lookup_insert. intros Hc' Hd2. apply (ii_cpu s (proj1 Hs)); [done|].
        by rewrite E.
    + destruct (held_test_ok acq false lk (sy_held s i)) as [Hok Hpl'];
        [split; [done|intros Hin; by destruct (Hf eq_refl)]|]. eapply pop_inv; eauto using hold_depth.
  - destruct (held_test_ok acq (bool_decide (lk_cpu (sy_locks s lk) = Some i)) lk (sy_held s i)) as [Hok Hpl'];
      [by rewrite bool_decide_eq_true|].
    eapply pop_inv; eauto using hold_depth, mycpu_pop.
Qed.

(** An exchange that finds the lock free takes it. *)
Lemma xchg_inv lk : sy_pc s i = AcqXchg lk → spin_inv (advance i s).
Proof.
  intros Hp. pose proof Hs as [Hi Hl]. pose proof Hl as [Hlk H1 Ho Hpc Hnd]. unfold advance. rewrite Hp.
  pose proof (Hpc i) as Hnot. rewrite Hp in Hnot. simpl in Hnot.
  destruct (lk_locked (sy_locks s lk)) eqn:El.
  - assert (Hsame : ∀ k, sy_locks (set_lock lk (Lock true (lk_cpu (sy_locks s lk))) s) k = sy_locks s k).
    { intros k. simpl. destruct (decide (lk = k)) as [->|]; [|by rewrite fn_lookup_insert_ne].
      rewrite fn_lookup_insert, <-El. by destruct (sy_locks s k). }
    split; [by split; apply Hi|]. split; try done.
    + intros k. rewrite Hsame. apply Hlk.
    + intros k j. rewrite Hsame. apply Ho.
  - split.
    { eapply int_inv_step; [exact Hi| |done|].
      - intros j Hj. simpl. by rewrite fn_lookup_insert_ne.
      - intros c' d. simpl. rewrite fn_lookup_insert. intros Hc' Hd. apply (ii_cpu s Hi); [done|]. by rewrite Hp. }
    assert (Hfree : ∀ j, ¬ owns s j lk).
    { intros j Hj. assert (lk_locked (sy_locks s lk) = true) by (apply Hlk; eauto). congruence. }
    set (s' := set_pc _ _ _).
    assert (Hown : ∀ j k, owns s' j k ↔ owns s j k ∨ (j = i ∧ k = lk)).
    { intros j k. unfold owns, s'. simpl. destruct (decide (i = j)) as [<-|].
      - rewrite fn_lookup_insert, Hp. split; [intros [?|[= ->]]; auto|]. intros [[?|?]|[_ ->]]; auto. done.
      - rewrite fn_lookup_insert_ne by done. split; [by left|]. intros [?|[-> _]]; done. }
    split.
    + intros k. setoid_rewrite Hown. unfold s'. simpl. destruct (decide (lk = k)) as [<-|Hk].
      * rewrite fn_lookup_insert. split; [intros _; exists i; by right|done].
      * rewrite fn_lookup_insert_ne, Hlk by done. split; [intros (j & ?); eauto|].
        intros (j & [?|[_ ->]]); [eauto|done].
    + intros k a b. rewrite !Hown. intros [Ha|[-> ->]] [Hb|[-> Hk]]; subst; try done.
      * by apply (H1 k).
      * by destruct (Hfree a).
      * by destruct (Hfree b).
    + intros k j. unfold s'. simpl. assert (Hcpu : lk_cpu (<[lk := Lock true (lk_cpu (sy_locks s lk))]> (sy_locks s) k)
        = lk_cpu (sy_locks s k)).
      { destruct (decide (lk = k)) as [->|]; [by rewrite fn_lookup_insert|by rewrite fn_lookup_insert_ne]. }
      rewrite Hcpu, Ho. destruct (decide (i = j)) as [<-|]; [|by rewrite fn_lookup_insert_ne].
      rewrite fn_lookup_insert, Hp. by split; intros [? _].
    + intros j. unfold s'. simpl. destruct (decide (i = j)) as [<-|]; [by rewrite fn_lookup_insert|].
      by rewrite fn_lookup_insert_ne.
    + done.
Qed.

(** The steps that change who owns what. *)
Lemma acq_owner_inv lk : sy_pc s i = AcqOwner lk → spin_inv (advance i s).
Proof.
  intros Hp. pose proof Hs as [Hi Hl]. pose proof Hl as [Hlk H1 Ho Hpc Hnd]. unfold advance. rewrite Hp.
  pose proof (Hpc i) as Hnot. rewrite Hp in Hnot. simpl in Hnot.
  pose proof (ii_cpu s Hi i c 1 Hc) as Hk. rewrite Hp in Hk. specialize (Hk eq_refl).
  assert (Hf : sy_if s i = false).
  { destruct Hk as (_ & _ & -> & _). by rewrite (proj2 (Z.eqb_neq _ 0)) by lia. }
  erewrite local_eq; [|exact Hc|simpl; rewrite Hf; erewrite bind_Ok by (eapply mycpu_run; [apply Hs|exact Hc]); done].
  split.
  - eapply int_inv_step; [exact Hi| |done|].
    + intros j Hj. simpl. by rewrite !fn_lookup_insert_ne.
    + intros c' d. simpl. rewrite !fn_lookup_insert. intros Hc' [= <-]. assert (c' = c) as -> by congruence.
      rewrite Hf in Hk. simpl length. by replace (Z.of_nat (S _) + 0) with (Z.of_nat (length (sy_held s i)) + 1) by lia.
  - assert (Hme : owns s i lk) by (by right).
    set (s' := set_pc _ _ _). assert (Hown : ∀ j k, owns s' j k ↔ owns s j k).
    { intros j k. unfold owns, s'. simpl. destruct (decide (i = j)) as [<-|].
      - rewrite !fn_lookup_insert, Hp, elem_of_cons. split; [intros [[->|?]|?]; auto; done|].
        intros [?|[= ->]]; auto.
      - by rewrite !fn_lookup_insert_ne. }
    split.
    + intros k. setoid_rewrite Hown. rewrite <-Hlk. unfold s'. simpl.
      destruct (decide (lk = k)) as [->|]; [by rewrite fn_lookup_insert|by rewrite fn_lookup_insert_ne].
    + intros k a b. rewrite !Hown. apply H1.
    + intros k j. unfold s'. simpl. destruct (decide (lk = k)) as [<-|Hk'].
      * rewrite fn_lookup_insert. simpl. destruct (decide (i = j)) as [<-|Hj].
        -- rewrite !fn_lookup_insert. split; [|done]. intros _. split; [by left|done].
        -- rewrite !fn_lookup_insert_ne by done. split; [congruence|]. intros [Hin _].
           destruct Hj. apply (H1 lk); [done|by left].
      * rewrite fn_lookup_insert_ne, Ho by done. destruct (decide (i = j)) as [<-|Hj]; [|by rewrite !fn_lookup_insert_ne].
        rewrite !fn_lookup_insert, Hp, elem_of_cons. split; [intros [? _]; split; [by right|done]|].
        intros [[?|?] _]; [done|]. by split.
    + intros j. unfold s'. simpl. destruct (decide (i = j)) as [<-|]; [by rewrite fn_lookup_insert|].
      by rewrite !fn_lookup_insert_ne.
    + intros j. unfold s'. simpl. destruct (decide (i = j)) as [<-|]; [|by rewrite !fn_lookup_insert_ne].
      rewrite fn_lookup_insert. by apply NoDup_cons.
Qed.

Lemma rel_owner_inv lk : sy_pc s i = RelOwner lk → spin_inv (advance i s).
Proof.
  intros Hp. pose proof Hs as [Hi Hl]. pose proof Hl as [Hlk H1 Ho Hpc Hnd]. unfold advance. rewrite Hp.
  pose proof (Hpc i) as Hin. rewrite Hp in Hin. simpl in Hin. split.
  - eapply int_inv_step; [exact Hi| |done|].
    + intros j Hj. simpl. by rewrite fn_lookup_insert_ne.
    + intros c' d. simpl. rewrite fn_lookup_insert. intros Hc' Hd. apply (ii_cpu s Hi); [done|]. by rewrite Hp.
  - set (s' := set_pc _ _ _). assert (Hown : ∀ j k, owns s' j k ↔ owns s j k).
    { intros j k. unfold owns, s'. simpl. destruct (decide (i = j)) as [<-|]; [|by rewrite fn_lookup_insert_ne].
      rewrite fn_lookup_insert, Hp. by split; intros [?|?]; auto. }
    split.
    + intros k. setoid_rewrite Hown. rewrite <-Hlk. unfold s'. simpl.
      destruct (decide (lk = k)) as [->|]; [by rewrite fn_lookup_insert|by rewrite fn_lookup_insert_ne].
    + intros k a b. rewrite !Hown. apply H1.
    + intros k j. unfold s'. simpl. destruct (decide (lk = k)) as [<-|Hk'].
      * rewrite fn_lookup_insert. simpl. split; [done|]. intros [Hj Hj'].
        assert (j = i) as -> by (apply (H1 lk); by left). by rewrite fn_lookup_insert in Hj'.
      * rewrite fn_lookup_insert_ne, Ho by done. destruct (decide (i = j)) as [<-|Hj]; [|by rewrite fn_lookup_insert_ne].
        rewrite fn_lookup_insert, Hp. split; intros [? _]; split; congruence.
    + intros j. unfold s'. simpl. destruct (decide (i = j)) as [<-|]; [by rewrite fn_lookup_insert|].
      by rewrite fn_lookup_insert_ne.
    + done.
Qed.

Lemma filter_length_minus (x : nat) (l : list nat) : NoDup l → x ∈ l →
  Z.of_nat (length (filter (.≠ x) l)) = Z.of_nat (length l) - 1.
Proof.
  induction l as [|y l IH]; intros Hnd Hin; [by apply elem_of_nil in Hin|].
  apply NoDup_cons in Hnd as [Hy Hnd]. rewrite filter_cons. case_decide as E.
  - cbn [length]. rewrite !Nat2Z.inj_succ, IH; [lia|done|]. by apply elem_of_cons in Hin as [->|].
  - assert (y = x) as -> by (destruct (decide (y = x)); tauto). cbn [length].
    assert (Hf : filter (.≠ x) l = l); [|rewrite Hf; lia].
    clear -Hy. induction l as [|z l IH]; [done|]. rewrite filter_cons_True by set_solver. f_equal. apply IH. set_solver.
Qed.

Lemma rel_store_inv lk : sy_pc s i = RelStore lk → spin_inv (advance i s).
Proof.
  intros Hp. pose proof Hs as [Hi Hl]. pose proof Hl as [Hlk H1 Ho Hpc Hnd]. unfold advance. rewrite Hp.
  pose proof (Hpc i) as Hin. rewrite Hp in Hin. simpl in Hin. split.
  - eapply int_inv_step; [exact Hi| |done|].
    + intros j Hj. simpl. by rewrite !fn_lookup_insert_ne.
    + intros c' d. simpl. rewrite !fn_lookup_insert. intros Hc' [= <-]. rewrite filter_length_minus by done.
      replace (_ - 1 + 1) with (Z.of_nat (length (sy_held s i)) + 0) by lia.
      apply (ii_cpu s Hi); [done|]. by rewrite Hp.
  - set (s' := set_pc _ _ _). assert (Hown : ∀ j k, owns s' j k ↔ owns s j k ∧ k ≠ lk).
    { intros j k. unfold owns, s'. simpl. destruct (decide (i = j)) as [<-|Hj].
      - rewrite !fn_lookup_insert, Hp, list_elem_of_filter. naive_solver.
      - rewrite !fn_lookup_insert_ne by done. split; [|by intros [? _]]. intros Hk. split; [done|]. intros ->.
        destruct Hj. apply (H1 lk); [by left|done]. }
    split.
    + intros k. setoid_rewrite Hown. unfold s'. simpl. destruct (decide (lk = k)) as [->|Hk].
      * rewrite fn_lookup_insert. simpl. split; [done|]. by intros (j & _ & ?).
      * rewrite fn_lookup_insert_ne, Hlk by done. naive_solver.
    + intros k a b. rewrite !Hown. intros [? _] [? _]. by apply (H1 k).
    + assert (Hcpu : ∀ k, lk_cpu (<[lk := Lock false (lk_cpu (sy_locks s lk))]> (sy_locks s) k) = lk_cpu (sy_locks s k)).
      { intros k. destruct (decide (lk = k)) as [->|]; [by rewrite fn_lookup_insert|by rewrite fn_lookup_insert_ne]. }
      intros k j. unfold s'. simpl. rewrite Hcpu, Ho. destruct (decide (i = j)) as [<-|Hj].
      * rewrite !fn_lookup_insert, Hp, list_elem_of_filter. naive_solver.
      * by rewrite !fn_lookup_insert_ne.
    + intros j. unfold s'. simpl. destruct (decide (i = j)) as [<-|]; [by rewrite fn_lookup_insert|].
      by rewrite !fn_lookup_insert_ne.
    + intros j. unfold s'. simpl. destruct (decide (i = j)) as [<-|]; [|by rewrite !fn_lookup_insert_ne].
      rewrite fn_lookup_insert. by apply NoDup_filter.
Qed.

Lemma advance_inv : spin_inv (advance i s).
Proof.
  destruct (sy_pc s i) as [|a lk|a lk|lk|lk|lk|lk| |m lk] eqn:Hp.
  - unfold advance. by rewrite Hp.
  - by apply (hold_inv a lk); left.
  - by apply (hold_inv a lk); right.
  - by apply (xchg_inv lk).
  - by apply (acq_owner_inv lk).
  - by apply (rel_owner_inv lk).
  - by apply (rel_store_inv lk).
  - unfold advance. rewrite Hp. apply (pop_inv _ _ _ 1); try done; [by rewrite Hp..|]. by intros d [= <-].
  - unfold advance. by rewrite Hp.
Qed.
End step.

Lemma own_flag_inv s i b : spin_inv s → sy_pc s i = Run → sy_held s i = [] → spin_inv (own_flag i b s).
Proof.
  intros [Hi Hl] Hp Hh. split; [|by split; apply Hl]. eapply int_inv_step; [exact Hi| |done|].
  - intros j Hj. simpl. by rewrite !fn_lookup_insert_ne.
  - intros c d. simpl. rewrite !fn_lookup_insert. intros Hc Hd.
    pose proof (ii_cpu s Hi i c d Hc Hd) as (Hn & Hk & _). rewrite Hp in Hd. injection Hd as <-. rewrite Hh in *.
    split; [done|]. split; [done|]. by split.
Qed.

Lemma start_inv ids : NoDup ids → spin_inv (sys_start ids).
Proof.
  intros Hnd. split; split.
  - simpl. rewrite <-list_fmap_compose. unfold compose. simpl. by rewrite list_fmap_id.
  - intros i c d. simpl. rewrite list_lookup_fmap. intros (a & _ & ->)%fmap_Some [= <-]. done.
  - intros lk. split; [done|]. intros (i & [Hin|?]); [by apply elem_of_nil in Hin|done].
  - intros lk i j [Hin|?]; [by apply elem_of_nil in Hin|done].
  - intros lk i. split; [done|]. intros [Hin _]. by apply elem_of_nil in Hin.
  - done.
  - intros i. apply NoDup_nil_2.
Qed.

Lemma reachable_inv ids s : NoDup ids → rtc cstep (sys_start ids) s → spin_inv s.
Proof.
  intros Hnd Hr. remember (sys_start ids) as s0 eqn:E0. assert (H0 : spin_inv s0) by (subst; by apply start_inv).
  clear E0. induction Hr as [|s1 s2 s3 Hst _ IH]; [done|]. apply IH. clear IH.
  destruct Hst as [i b s Hp Hh|i lk s Hi Hp|i lk s Hi Hp|i s Hi]; try (apply lookup_lt_is_Some in Hi as [c Hc]).
  - by apply own_flag_inv.
  - by eapply begin_acquire_inv.
  - by eapply begin_release_inv.
  - by eapply advance_inv.
Qed.

(** C13. Spin locks on any number of CPUs, on every interleaving of their
    accesses to the locks.  No two CPUs hold a lock at once; a CPU that holds
    one has interrupts off; when it has released all of them its interrupts are
    as it had set them itself; and [acquire] and [release] panic only when the
    program of the CPU acquires a lock it holds or releases one it does not,
    so [holding], which reads the lock unprotected, never errs. *)
Theorem spin_locks_exclude ids s : NoDup ids → rtc cstep (sys_start ids) s →
  (∀ lk i j, lk ∈ sy_held s i → lk ∈ sy_held s j → i = j) ∧
  (∀ lk i, lk ∈ sy_held s i → lk_locked (sy_locks s lk) = true) ∧
  (∀ i, (i < length (sy_cpus s))%nat → sy_pc s i = Run →
     sy_if s i = if decide (sy_held s i = []) then sy_own_if s i else false) ∧
  (∀ i msg lk, sy_pc s i = Panicked msg lk →
     (msg = "acquire" ∧ lk ∈ sy_held s i) ∨ (msg = "release" ∧ lk ∉ sy_held s i)).
Proof.
  intros Hnd [Hi Hl]%reachable_inv; [|done]. split_and!.
  - intros lk i j ??. by apply (li_one s Hl lk); left.
  - intros lk i ?. apply (li_locked s Hl). exists i. by left.
  - intros i [c Hc]%lookup_lt_is_Some Hp. pose proof (ii_cpu s Hi i c 0 Hc) as Hk. rewrite Hp in Hk.
    destruct (Hk eq_refl) as (_ & _ & -> & _). destruct (sy_held s i); [done|].
    rewrite decide_False by done. by rewrite (proj2 (Z.eqb_neq _ 0)) by (simpl length; lia).
  - intros i msg lk Hp. pose proof (li_pc s Hl i) as Hok. by rewrite Hp in Hok.
Qed.

(** ** A CPU left alone with a lock *)

Definition at_pc (s : sys) (i : nat) (p : pc) (h : list nat) (L : nat → spinlock) : Prop :=
  spin_inv s ∧ is_Some (sy_cpus s !! i) ∧ sy_pc s i = p ∧ sy_held s i = h ∧ sy_locks s = L.

Lemma local_at_pc s i m lk next c c' f : sy_cpus s !! i = Some c →
  m (apicid c) (Machine (sy_cpus s) (sy_if s i)) = Ok (tt, Machine (<[i := c']> (sy_cpus s)) f) →
  spin_inv (local i m lk next s) → at_pc (local i m lk next s) i next (sy_held s i) (sy_locks s).
Proof.
  intros Hc Hm Hinv. split; [done|]. rewrite (local_eq _ _ _ _ _ _ _ _ Hc Hm). simpl. rewrite fn_lookup_insert.
  split_and!; try done. rewrite list_lookup_insert_eq by (by eapply lookup_lt_Some). done.
Qed.

Lemma at_begin_acquire s i lk h L : at_pc s i Run h L → at_pc (begin_acquire i lk s) i (HoldRead true lk) h L.
Proof.
  intros (Hs & [c Hc] & Hp & <- & <-). eapply local_at_pc; [exact Hc| |by eapply begin_acquire_inv].
  erewrite bind_Ok by (eapply pushcli_run; [apply Hs|exact Hc]).
  change (apicid c) with (apicid (pushed (sy_if s i) c)).
  rewrite (pushcli_run _ i) by (by eapply insert_ids || (apply list_lookup_insert_eq; by eapply lookup_lt_Some)).
  by rewrite list_insert_insert_eq.
Qed.

Lemma at_begin_release s i lk h L : at_pc s i Run h L → at_pc (begin_release i lk s) i (HoldRead false lk) h L.
Proof.
  intros (Hs & [c Hc] & Hp & <- & <-). eapply local_at_pc; [exact Hc| |by eapply begin_release_inv].
  apply pushcli_run; [apply Hs|exact Hc].
Qed.

Lemma at_hold_read s i acq lk h L : at_pc s i (HoldRead acq lk) h L →
  at_pc (advance i s) i (if lk_locked (L lk) then HoldOwner acq lk else held_test acq false lk) h L.
Proof.
  intros (Hs & [c Hc] & Hp & <- & <-). pose proof (advance_inv _ _ _ Hs Hc) as Hinv.
  unfold advance in *. rewrite Hp in *. destruct (lk_locked (sy_locks s lk)) eqn:El.
  - split; [done|]. simpl. by rewrite fn_lookup_insert.
  - eapply local_at_pc; [exact Hc| |done].
    apply (pop_run s i c Hs Hc _ (if acq then 2 else 1)); [by rewrite Hp|apply hold_depth|done].
Qed.

Lemma at_hold_owner s i acq lk h L : at_pc s i (HoldOwner acq lk) h L →
  at_pc (advance i s) i (held_test acq (bool_decide (lk_cpu (L lk) = Some i)) lk) h L.
Proof.
  intros (Hs & [c Hc] & Hp & <- & <-). pose proof (advance_inv _ _ _ Hs Hc) as Hinv.
  unfold advance in *. rewrite Hp in *. eapply local_at_pc; [exact Hc| |done].
  apply (pop_run s i c Hs Hc (λ a, mycpu a;; popcli a) (if acq then 2 else 1)); [by rewrite Hp|apply hold_depth|by apply mycpu_pop].
Qed.

Lemma at_xchg s i lk h L : at_pc s i (AcqXchg lk) h L → lk_locked (L lk) = false →
  at_pc (advance i s) i (AcqOwner lk) h (<[lk := Lock true (lk_cpu (L lk))]> L).
Proof.
  intros (Hs & [c Hc] & Hp & <- & <-) El. pose proof (advance_inv _ _ _ Hs Hc) as Hinv.
  unfold advance in *. rewrite Hp, El in *. split; [done|]. simpl. by rewrite fn_lookup_insert.
Qed.

Lemma at_acq_owner s i lk h L : at_pc s i (AcqOwner lk) h L →
  at_pc (advance i s) i Run (lk :: h) (<[lk := Lock (lk_locked (L lk)) (Some i)]> L).
Proof.
  intros (Hs & [c Hc] & Hp & <- & <-). pose proof (advance_inv _ _ _ Hs Hc) as Hinv.
  pose proof (ii_cpu s (proj1 Hs) i c 1 Hc) as Hk. rewrite Hp in Hk. destruct (Hk eq_refl) as (_ & _ & Hf & _).
  rewrite (proj2 (Z.eqb_neq _ 0)) in Hf by lia. split; [done|]. unfold advance. rewrite Hp.
  erewrite local_eq; [|exact Hc|simpl; rewrite Hf; erewrite bind_Ok by (eapply mycpu_run; [apply Hs|exact Hc]); done].
  simpl. by rewrite !fn_lookup_insert.
Qed.

Lemma at_rel_owner s i lk h L : at_pc s i (RelOwner lk) h L →
  at_pc (advance i s) i (RelStore lk) h (<[lk := Lock (lk_locked (L lk)) None]> L).
Proof.
  intros (Hs & [c Hc] & Hp & <- & <-). pose proof (advance_inv _ _ _ Hs Hc) as Hinv. split; [done|].
  unfold advance. rewrite Hp. simpl. by rewrite fn_lookup_insert.
Qed.

Lemma at_rel_store s i lk h L : at_pc s i (RelStore lk) h L →
  at_pc (advance i s) i RelPop (filter (.≠ lk) h) (<[lk := Lock false (lk_cpu (L lk))]> L).
Proof.
  intros (Hs & [c Hc] & Hp & <- & <-). pose proof (advance_inv _ _ _ Hs Hc) as Hinv. split; [done|].
  unfold advance. rewrite Hp. simpl. by rewrite !fn_lookup_insert.
Qed.

Lemma at_rel_pop s i h L : at_pc s i RelPop h L → at_pc (advance i s) i Run h L.
Proof.
  intros (Hs & [c Hc] & Hp & <- & <-). pose proof (advance_inv _ _ _ Hs Hc) as Hinv.
  unfold advance in *. rewrite Hp in *. eapply local_at_pc; [exact Hc| |done].
  by apply (pop_run s i c Hs Hc _ 1); [rewrite Hp|..].
Qed.

Lemma at_stop s i p h L : at_pc s i p h L → (p = Run ∨ ∃ m lk, p = Panicked m lk) → advance i s = s.
Proof. intros (_ & _ & Hp & _) Hstop. unfold advance. rewrite Hp. by destruct Hstop as [->|(? & ? & ->)]. Qed.

(** The flags of the locks, and the lens on one of them. *)
Definition flags (s : sys) : nat → bool := λ lk, lk_locked (sy_locks s lk).
Definition flag (lk : nat) : lens (nat → bool) bool := Lens (λ f, f lk) (λ b f, <[lk := b]> f).

(** [acquire] and [release] of CPU [i], with no step of another CPU. *)
Definition finish (i : nat) (s : sys) : sys :=
  advance i (advance i (advance i (advance i (advance i s)))).

(** [s] has the outcome that [r] gives for CPU [i]. *)
Definition agrees (s s' : sys) (i lk : nat) (r : res (unit * (nat → bool))) : Prop :=
  match r with
  | Ok (_, f) => sy_pc s' i = Run ∧ ∀ k, flags s' k = f k
  | Panic msg => sy_pc s' i = Panicked msg lk ∧ ∀ k, flags s' k = flags s k
  | _ => False
  end.

Lemma alone_locked s i lk : lock_inv s → plain (sy_pc s i) = true → (∀ j, owns s j lk → j = i) →
  lk_locked (sy_locks s lk) = bool_decide (lk ∈ sy_held s i) ∧
  (lk_cpu (sy_locks s lk) = Some i ↔ lk ∈ sy_held s i).
Proof.
  intros Hl Hp Hal. split; [|by apply holding_right]. apply eq_bool_prop_intro.
  rewrite bool_decide_spec, Is_true_true, (li_locked s Hl). split; [|intros Hin; exists i; by left].
  intros (j & Hj). rewrite (Hal j Hj) in Hj. destruct Hj as [?|E]; [done|]. by rewrite E in Hp.
Qed.

Lemma acquire_alone s i lk h L : at_pc s i Run h L → (∀ j, owns s j lk → j = i) →
  agrees s (finish i (begin_acquire i lk s)) i lk (acquire (flag lk) (flags s)).
Proof.
  intros Hat Hal. pose proof Hat as ((_ & Hl) & _ & Hp & Hh & HL).
  destruct (alone_locked s i lk Hl) as [Hlk Hcpu]; [by rewrite Hp|done|]. rewrite HL in *.
  unfold acquire, flag, flags at 1. simpl view. rewrite HL, Hlk. unfold finish.
  apply (at_begin_acquire _ _ lk), at_hold_read in Hat. rewrite Hlk in Hat. case_bool_decide as Hin.
  - apply at_hold_owner in Hat. rewrite bool_decide_true in Hat by (by apply Hcpu). simpl in Hat.
    do 3 rewrite (at_stop _ _ _ _ _ Hat) by eauto. destruct Hat as (_ & _ & Hp' & _ & HL').
    split; [done|]. intros k. unfold flags. by rewrite HL', HL.
  - apply at_xchg in Hat; [|done]. apply at_acq_owner in Hat.
    do 2 rewrite (at_stop _ _ _ _ _ Hat) by auto. destruct Hat as (_ & _ & Hp' & _ & HL').
    split; [done|]. intros k. simpl. unfold flags. rewrite HL'. destruct (decide (lk = k)) as [<-|].
    + by rewrite !fn_lookup_insert.
    + by rewrite !fn_lookup_insert_ne, HL.
Qed.

Lemma release_alone s i lk h L : at_pc s i Run h L → (∀ j, owns s j lk → j = i) →
  agrees s (finish i (begin_release i lk s)) i lk (release (flag lk) (flags s)).
Proof.
  intros Hat Hal. pose proof Hat as ((_ & Hl) & _ & Hp & Hh & HL).
  destruct (alone_locked s i lk Hl) as [Hlk Hcpu]; [by rewrite Hp|done|]. rewrite HL in *.
  unfold release, flag, flags at 1. simpl view. rewrite HL, Hlk. unfold finish.
  apply (at_begin_release _ _ lk), at_hold_read in Hat. rewrite Hlk in Hat. case_bool_decide as Hin.
  - apply at_hold_owner in Hat. rewrite bool_decide_true in Hat by (by apply Hcpu). simpl in Hat.
    apply at_rel_owner, at_rel_store, at_rel_pop in Hat. destruct Hat as (_ & _ & Hp' & _ & HL').
    split; [done|]. intros k. simpl. unfold flags. rewrite HL'. destruct (decide (lk = k)) as [<-|].
    + by rewrite !fn_lookup_insert.
    + by rewrite !fn_lookup_insert_ne, HL.
  - simpl in Hat. do 4 rewrite (at_stop _ _ _ _ _ Hat) by eauto. destruct Hat as (_ & _ & Hp' & _ & HL').
    split; [done|]. intros k. unfold flags. by rewrite HL', HL.
Qed.

(** A CPU that no other CPU competes with for a lock completes [acquire] and
    [release], with the outcome and the flag that the one-CPU model of the rest
    of the development ([Spinlock.acquire], [Spinlock.release]) gives. *)
Lemma spin_refines_flag ids s i lk : NoDup ids → rtc cstep (sys_start ids) s →
  (i < length (sy_cpus s))%nat → sy_pc s i = Run → (∀ j, owns s j lk → j = i) →
  agrees s (finish i (begin_acquire i lk s)) i lk (acquire (flag lk) (flags s)) ∧
  agrees s (finish i (begin_release i lk s)) i lk (release (flag lk) (flags s)).
Proof.
  intros Hnd Hr Hi%lookup_lt_is_Some Hp Hal. apply reachable_inv in Hr; [|done].
  assert (Hat : at_pc s i Run (sy_held s i) (sy_locks s)) by done.
  split; [by eapply acquire_alone|by eapply release_alone].
Qed.

(** * Examples *)

(** Two CPUs race for lock 7; CPU 1 wins the exchange, CPU 0 spins. *)
Definition race : sys :=
  advance 1 (advance 0 (advance 1 (advance 1 (advance 0
    (begin_acquire 1 7 (begin_acquire 0 7 (own_flag 1 true (sys_start [4; 9])))))))).

Lemma race_reachable : rtc cstep (sys_start [4; 9]) race.
Proof.
  unfold race. repeat (eapply rtc_r; [|apply cs_advance; vm_compute; lia]).
  repeat (eapply rtc_r; [|apply cs_acquire; [vm_compute; lia|reflexivity]]).
  apply rtc_once. by apply cs_flag.
Qed.

Lemma spin_locks_exclude_witness :
  sy_held race 1 = [7%nat] ∧ sy_pc race 0 = AcqXchg 7 ∧ sy_if race 1 = false ∧
  ∀ lk i j, lk ∈ sy_held race i → lk ∈ sy_held race j → i = j.
Proof.
  destruct (spin_locks_exclude [4; 9] race) as (H & _ & Hif & _);
    [apply NoDup_cons; split; [set_solver|apply NoDup_singleton]|apply race_reachable|].
  split; [reflexivity|]. split; [reflexivity|]. split; [|exact H].
  rewrite (Hif 1%nat); [reflexivity|vm_compute; lia|reflexivity].
Defined.

