(* ===== verification/Apic.v ===== *)
(** Interrupt controllers and the clock: ioapic.c, picirq.c and lapic.c.

    The registers of the controllers are maps; [microdelay] does nothing.  The
    clock of the machine runs while [cmostime] reads it: every read of a
    register is at a later time than the one before, and the clock is a
    parameter that says what each register shows at each time. *)

From Stdlib Require Import ZArith Lia.
From stdpp Require Import base functions numbers strings option gmap sets list list_numbers.
From S2P Require Import Prelude Mem Printf.

Abbreviation T_IRQ0 := 32.
Abbreviation IRQ_TIMER := 0.
Abbreviation IRQ_ERROR := 19.
Abbreviation IRQ_SPURIOUS := 31.

(** * The I/O APIC *)

Abbreviation REG_ID := 0.
Abbreviation REG_VER := 1.
Abbreviation REG_TABLE := 0x10.
Abbreviation INT_DISABLED := 0x00010000.

(** The register selected, the registers, and what is printed. *)
Record ioapic := Ioapic { io_reg : Z; io_data : Z → Z; io_out : list (list Z) }.

Definition ioapicread (reg : Z) : M ioapic Z :=
  mmod (λ s, Ioapic reg (io_data s) (io_out s));; mget (λ s, io_data s (io_reg s)).
Definition ioapicwrite (reg data : Z) : M ioapic unit :=
  mmod (λ s, Ioapic reg (io_data s) (io_out s));;
  mmod (λ s, Ioapic (io_reg s) (<[io_reg s := u32 data]> (io_data s)) (io_out s)).

(** [for(i = 0; i <= maxintr; i++)], [n] rounds. *)
Fixpoint ioapicinit_loop (n : nat) (i : Z) : M ioapic unit :=
  match n with
  | O => mret tt
  | S n =>
      ioapicwrite (REG_TABLE + 2 * i) (Z.lor INT_DISABLED (T_IRQ0 + i));;
      ioapicwrite (REG_TABLE + 2 * i + 1) 0;;
      ioapicinit_loop n (i + 1)
  end.

Definition ioapicinit (ioapicid : Z) : M ioapic unit :=
  v ← ioapicread REG_VER;
  let maxintr := Z.land (Z.shiftr v 16) 0xFF in
  v ← ioapicread REG_ID;
  (if negb (Z.shiftr v 24 =? ioapicid)
   then mmod (λ s, Ioapic (io_reg s) (io_data s) (io_out s ++ [chars "ioapicinit: id isn't equal to ioapicid; not a MP" ++ [10]]))
   else mret tt);;
  ioapicinit_loop (Z.to_nat (maxintr + 1)) 0.

Definition ioapicenable (irq cpunum : Z) : M ioapic unit :=
  ioapicwrite (REG_TABLE + 2 * irq) (T_IRQ0 + irq);;
  ioapicwrite (REG_TABLE + 2 * irq + 1) (Z.shiftl cpunum 24).

(** * The programmable interrupt controllers *)

(** The bytes written to ports. *)
Definition picinit : M (list (Z * Z)) unit := mmod (λ l, l ++ [(0x21, 0xFF); (0xA1, 0xFF)]).

(** * The local APIC *)

Abbreviation ID := 8.
Abbreviation VER := 12.
Abbreviation TPR := 32.
Abbreviation EOI := 44.
Abbreviation SVR := 60.
Abbreviation ESR := 160.
Abbreviation ICRLO := 192.
Abbreviation ICRHI := 196.
Abbreviation TIMER := 200.
Abbreviation PCINT := 208.
Abbreviation LINT0 := 212.
Abbreviation LINT1 := 216.
Abbreviation ERROR := 220.
Abbreviation TICR := 224.
Abbreviation TDCR := 248.
Abbreviation ENABLE := 0x100.
Abbreviation INIT := 0x500.
Abbreviation STARTUP := 0x600.
Abbreviation DELIVS := 0x1000.
Abbreviation ASSERT := 0x4000.
Abbreviation LEVEL := 0x8000.
Abbreviation BCAST := 0x80000.
Abbreviation X1 := 0xB.
Abbreviation PERIODIC := 0x20000.
Abbreviation MASKED := 0x10000.

(** Whether [lapic] is not null, the writes so far, the ports written, and the warm
    reset vector. *)
Record lapic := Lapic { la_on : bool; la_log : list (Z * Z); la_ports : list (Z * Z); la_wrv : Z * Z }.

Section lapic.
(** What a register shows after some writes; a delivery ends at some time. *)
Variable shows : list (Z * Z) → nat → Z → Z.

Definition lapicr (t : nat) (index : Z) : M lapic Z := mget (λ s, shows (la_log s) t index).
(** The read of [lapic[ID]] waits for the write to finish. *)
Definition lapicw (index value : Z) : M lapic unit :=
  mmod (λ s, Lapic (la_on s) (la_log s ++ [(index, value)]) (la_ports s) (la_wrv s)).

Fixpoint wait_delivery (fuel t : nat) : M lapic unit :=
  match fuel with
  | O => mnofuel
  | S fuel => v ← lapicr t ICRLO; if negb (Z.land v DELIVS =? 0) then wait_delivery fuel (S t) else mret tt
  end.

Definition lapicinit (fuel : nat) : M lapic unit :=
  on ← mget la_on;
  if negb (on : bool) then mret tt
  else
    lapicw SVR (Z.lor ENABLE (T_IRQ0 + IRQ_SPURIOUS));;
    lapicw TDCR X1;;
    lapicw TIMER (Z.lor PERIODIC (T_IRQ0 + IRQ_TIMER));;
    lapicw TICR 10000000;;
    lapicw LINT0 MASKED;;
    lapicw LINT1 MASKED;;
    v ← lapicr 0 VER;
    (if 4 <=? Z.land (Z.shiftr v 16) 0xFF then lapicw PCINT MASKED else mret tt);;
    lapicw ERROR (T_IRQ0 + IRQ_ERROR);;
    lapicw ESR 0;;
    lapicw ESR 0;;
    lapicw EOI 0;;
    lapicw ICRHI 0;;
    lapicw ICRLO (Z.lor (Z.lor BCAST INIT) LEVEL);;
    wait_delivery fuel 0;;
    lapicw TPR 0.

Definition lapicid : M lapic Z :=
  on ← mget la_on;
  if negb (on : bool) then mret 0 else v ← lapicr 0 ID; mret (Z.shiftr v 24).

Definition lapiceoi : M lapic unit := on ← mget la_on; if (on : bool) then lapicw EOI 0 else mret tt.

Definition lapicstartap (apicid addr : Z) : M lapic unit :=
  mmod (λ s, Lapic (la_on s) (la_log s) (la_ports s ++ [(0x70, 0xF); (0x71, 0x0A)]) (0, u16 (Z.shiftr addr 4)));;
  lapicw ICRHI (Z.shiftl apicid 24);;
  lapicw ICRLO (Z.lor (Z.lor INIT LEVEL) ASSERT);;
  lapicw ICRLO (Z.lor INIT LEVEL);;
  lapicw ICRHI (Z.shiftl apicid 24);;
  lapicw ICRLO (Z.lor STARTUP (Z.shiftr addr 12));;
  lapicw ICRHI (Z.shiftl apicid 24);;
  lapicw ICRLO (Z.lor STARTUP (Z.shiftr addr 12)).
End lapic.

(** * The clock *)

Record rtcdate := Rtc { second : Z; minute : Z; hour : Z; day : Z; month : Z; year : Z }.
#[global] Instance rtcdate_eq_dec : EqDecision rtcdate.
Proof. solve_decision. Defined.

Abbreviation CMOS_STATA := 0x0a.
Abbreviation CMOS_STATB := 0x0b.
Abbreviation CMOS_UIP := 0x80.

Section cmos.
(** The registers at each time.  The state is the time. *)
Variable rtc : nat → Z → Z.

Definition cmos_read (reg : Z) : M nat Z := λ t, Ok (rtc t reg, S t).

Definition fill_rtcdate : M nat rtcdate :=
  s ← cmos_read 0; m ← cmos_read 2; h ← cmos_read 4; d ← cmos_read 7; mo ← cmos_read 8; y ← cmos_read 9;
  mret (Rtc s m h d mo y).

Fixpoint cmostime_loop (fuel : nat) : M nat rtcdate :=
  match fuel with
  | O => mnofuel
  | S fuel =>
      t1 ← fill_rtcdate;
      a ← cmos_read CMOS_STATA;
      if negb (Z.land a CMOS_UIP =? 0) then cmostime_loop fuel
      else
        t2 ← fill_rtcdate;
        if decide (t1 = t2) then mret t1 else cmostime_loop fuel
  end.

Definition CONV (x : Z) : Z := Z.shiftr x 4 * 10 + Z.land x 0xf.

Definition cmostime (fuel : nat) : M nat rtcdate :=
  sb ← cmos_read CMOS_STATB;
  let bcd := Z.land sb 4 =? 0 in
  t1 ← cmostime_loop fuel;
  let t1 := if bcd then Rtc (CONV (second t1)) (CONV (minute t1)) (CONV (hour t1)) (CONV (day t1)) (CONV (month t1)) (CONV (year t1)) else t1 in
  mret (Rtc (second t1) (minute t1) (hour t1) (day t1) (month t1) (u32 (year t1 + 2000))).
End cmos.

(** ** The time that is read *)

Section clock.
Variable rtc : nat → Z → Z.
(** The clock counts in BCD or in binary; its true date at each time. *)
Variable bcd : bool.
Variable now : nat → rtcdate.

Definition enc (v : Z) : Z := if bcd then v / 10 * 16 + v mod 10 else v.
Definition enc_date (d : rtcdate) : rtcdate :=
  Rtc (enc (second d)) (enc (minute d)) (enc (hour d)) (enc (day d)) (enc (month d)) (enc (year d)).

(** The registers show the date, except perhaps while an update is in
    progress, and it changes at most once while they are read twice; an update
    leaves the clock alone for a while before [B] accesses have passed. *)
Record clock_ok (B : nat) : Prop := {
  ck_mode t : (Z.land (rtc t CMOS_STATB) 4 =? 0) = bcd;
  ck_shows t : rtc t 0 = enc (second (now t)) ∧ rtc t 2 = enc (minute (now t)) ∧ rtc t 4 = enc (hour (now t)) ∧
    rtc t 7 = enc (day (now t)) ∧ rtc t 8 = enc (month (now t)) ∧ rtc t 9 = enc (year (now t));
  ck_range t : Forall (λ v, 0 ≤ v < 100) [second (now t); minute (now t); hour (now t); day (now t); month (now t); year (now t)];
  ck_once t : ∃ k, (∀ i, (t ≤ i < k)%nat → now i = now t) ∧ (∀ i, (k ≤ i < t + 13)%nat → now i = now (t + 12)%nat);
  ck_quiet t : ∃ t', (t ≤ t' ≤ t + B)%nat ∧
    ∀ i, (t' ≤ i < t' + 26)%nat → now i = now t' ∧ Z.land (rtc i CMOS_STATA) CMOS_UIP = 0
}.

Lemma CONV_enc v : 0 ≤ v < 100 → (if bcd then CONV (enc v) else enc v) = v.
Proof.
  intros Hv. unfold enc, CONV. destruct bcd; [|done]. rewrite Z.shiftr_div_pow2 by lia. change 0xf with (Z.ones 4).
  rewrite Z.land_ones by lia. change (2 ^ 4) with 16. Z.to_euclidean_division_equations; lia.
Qed.

Section reads.
Context (B : nat) (Hck : clock_ok B).

Lemma fill_run t : ∃ d, fill_rtcdate rtc t = Ok (d, (t + 6)%nat) ∧
  d = Rtc (enc (second (now t))) (enc (minute (now (t + 1)%nat))) (enc (hour (now (t + 2)%nat)))
          (enc (day (now (t + 3)%nat))) (enc (month (now (t + 4)%nat))) (enc (year (now (t + 5)%nat))).
Proof.
  eexists. split; [|reflexivity]. unfold fill_rtcdate, cmos_read, mbind, M_bind. cbn.
  replace (t + 6)%nat with (S (S (S (S (S (S t)))))) by lia. replace (t + 1)%nat with (S t) by lia.
  replace (t + 2)%nat with (S (S t)) by lia. replace (t + 3)%nat with (S (S (S t))) by lia.
  replace (t + 4)%nat with (S (S (S (S t)))) by lia. replace (t + 5)%nat with (S (S (S (S (S t))))) by lia.
  destruct (ck_shows B Hck t) as (-> & _). destruct (ck_shows B Hck (S t)) as (_ & -> & _).
  destruct (ck_shows B Hck (S (S t))) as (_ & _ & -> & _). destruct (ck_shows B Hck (S (S (S t)))) as (_ & _ & _ & -> & _).
  destruct (ck_shows B Hck (S (S (S (S t))))) as (_ & _ & _ & _ & -> & _).
  destruct (ck_shows B Hck (S (S (S (S (S t)))))) as (_ & _ & _ & _ & _ & ->). done.
Qed.

(** All times in the goal are rewritten to [t]. *)
Ltac same_date t tac := repeat match goal with |- context [now ?x] => tryif constr_eq x t then fail else tac x end.

(** Two equal readings are a date that the clock has shown. *)
Lemma equal_reads t d d' : fill_rtcdate rtc t = Ok (d, (t + 6)%nat) → fill_rtcdate rtc (t + 7)%nat = Ok (d', (t + 13)%nat) → d = d' →
  d = enc_date (now t) ∨ d = enc_date (now (t + 12)%nat).
Proof.
  intros E E' Hd. destruct (fill_run t) as (x & Ex & Hx). destruct (fill_run (t + 7)) as (y & Ey & Hy).
  rewrite E in Ex. injection Ex as <-. replace (t + 7 + 6)%nat with (t + 13)%nat in Ey by lia. rewrite E' in Ey. injection Ey as <-.
  destruct (ck_once B Hck t) as (k & Hbefore & Hafter). destruct (le_lt_dec k (t + 7)) as [Hle|Hlt].
  - right. rewrite Hd, Hy. unfold enc_date. by same_date (t + 12)%nat ltac:(fun x => rewrite (Hafter x) by lia).
  - left. rewrite Hx. unfold enc_date. by same_date t ltac:(fun x => rewrite (Hbefore x) by lia).
Qed.

(** A round of the loop: it ends with a date, or goes on at most 13 accesses
    later; it ends when the clock is quiet. *)
Lemma cmostime_round fuel t :
  (∃ d i, cmostime_loop rtc (S fuel) t = Ok (d, (t + 13)%nat) ∧ d = enc_date (now i) ∧ (t ≤ i < t + 13)%nat) ∨
  (∃ t', cmostime_loop rtc (S fuel) t = cmostime_loop rtc fuel t' ∧ (t + 7 ≤ t' ≤ t + 13)%nat ∧
     ¬ ∀ i, (t ≤ i < t + 13)%nat → now i = now t ∧ Z.land (rtc i CMOS_STATA) CMOS_UIP = 0).
Proof.
  cbn [cmostime_loop]. destruct (fill_run t) as (d & Ed & Hd). erewrite bind_Ok by exact Ed.
  erewrite bind_Ok by reflexivity. destruct (Z.eqb_spec (Z.land (rtc (t + 6) CMOS_STATA) CMOS_UIP) 0) as [Hu|Hu]; cbn [negb].
  - destruct (fill_run (t + 7)) as (d' & Ed' & Hd'). replace (S (t + 6)) with (t + 7)%nat by lia. erewrite bind_Ok by exact Ed'.
    replace (t + 7 + 6)%nat with (t + 13)%nat in * by lia. destruct (decide (d = d')) as [Heq|Hne].
    + left. destruct (equal_reads t d d' Ed Ed' Heq) as [E|E]; eexists d, _; (split; [reflexivity|split; [exact E|lia]]).
    + right. exists (t + 13)%nat. split_and!; [done|lia|lia|]. intros Hq. apply Hne. rewrite Hd, Hd'.
      by same_date t ltac:(fun x => rewrite (proj1 (Hq x ltac:(lia)))).
  - right. exists (S (t + 6)). split_and!; [done|lia|lia|]. intros Hq. apply Hu. apply (Hq (t + 6)%nat). lia.
Qed.

(** The loop ends before the clock has been quiet for 26 accesses. *)
Lemma cmostime_loop_spec fuel : ∀ t q, (∀ i, (q ≤ i < q + 26)%nat → now i = now q ∧ Z.land (rtc i CMOS_STATA) CMOS_UIP = 0) →
  (t ≤ q + 13)%nat → (q + 13 - t < 7 * fuel)%nat →
  ∃ d i t', cmostime_loop rtc fuel t = Ok (enc_date d, t') ∧ d = now i ∧ (t ≤ i < t')%nat.
Proof.
  induction fuel as [|fuel IH]; intros t q Hq Ht Hf; [lia|].
  destruct (cmostime_round fuel t) as [(d & i & -> & -> & Hi)|(t1 & -> & Ht1 & Hbusy)].
  - exists (now i), i, (t + 13)%nat. split_and!; (done || lia).
  - assert (t < q)%nat as Htq.
    { destruct (le_lt_dec q t) as [Hle|]; [|done]. exfalso. apply Hbusy. intros i Hi. rewrite (proj1 (Hq t ltac:(lia))). apply Hq. lia. }
    destruct (IH t1 q Hq) as (d & i & t' & E & Hd & Hi); [lia|lia|]. exists d, i, t'. split_and!; (done || lia).
Qed.
End reads.
End clock.

(** [cmostime] returns, and the time it returns is one that the clock has
    shown while it was read, not a mixture of two: on a clock that counts in BCD or
    in binary, goes on while it is read, and changes at most once in two readings.
    *)
Lemma cmostime_not_torn rtc bcd now B fuel t : clock_ok rtc bcd now B → (B + 14 < 7 * fuel)%nat →
  ∃ i t', (t ≤ i < t')%nat ∧ cmostime rtc fuel t =
    Ok (Rtc (second (now i)) (minute (now i)) (hour (now i)) (day (now i)) (month (now i)) (2000 + year (now i)), t').
Proof.
  intros Hck Hf. unfold cmostime. erewrite bind_Ok by reflexivity. rewrite (ck_mode _ _ _ _ Hck).
  destruct (ck_quiet _ _ _ _ Hck (S t)) as (q & Hq1 & Hq2).
  destruct (cmostime_loop_spec rtc bcd now B Hck fuel (S t) q Hq2) as (d & i & t' & E & -> & Hi); [lia|lia|].
  exists i, t'. split; [lia|]. erewrite bind_Ok by exact E. pose proof (ck_range _ _ _ _ Hck i) as Hr.
  rewrite !Forall_cons in Hr. destruct Hr as (H1 & H2 & H3 & H4 & H5 & H6 & _).
  assert (∀ v, 0 ≤ v < 100 → (if bcd then CONV (enc bcd v) else enc bcd v) = v) as Hc by (intros v Hv; by apply CONV_enc).
  cbn [enc_date second minute hour day month year]. unfold mret, M_ret. do 2 f_equal.
  pose proof (Hc _ H1) as E1. pose proof (Hc _ H2) as E2. pose proof (Hc _ H3) as E3. pose proof (Hc _ H4) as E4.
  pose proof (Hc _ H5) as E5. pose proof (Hc _ H6) as E6. clear Hc.
  destruct bcd; cbn [enc_date second minute hour day month year]; rewrite ?E1, ?E2, ?E3, ?E4, ?E5, ?E6;
    rewrite u32_small by lia; f_equal; lia.
Qed.

(** ** Interrupts are routed as enabled *)

(** What an entry of the table means: the vector and the CPU of an interrupt that is
    not masked, edge triggered and active high. *)
Definition route (s : ioapic) (irq : Z) : option (Z * Z) :=
  let lo := io_data s (REG_TABLE + 2 * irq) in
  if Z.testbit lo 16 then None else Some (Z.land lo 0xFFFF, Z.shiftr (io_data s (REG_TABLE + 2 * irq + 1)) 24).

Definition enables (l : list (Z * Z)) : M ioapic unit :=
  foldr (λ x k, ioapicenable x.1 x.2;; k) (mret tt) l.

Lemma write2 r v1 v2 s : (ioapicwrite r v1;; ioapicwrite (r + 1) v2) s =
  Ok (tt, Ioapic (r + 1) (<[r + 1 := u32 v2]> (<[r := u32 v1]> (io_data s))) (io_out s)).
Proof. done. Qed.

Lemma masked_entry i : 0 ≤ i < 224 → Z.testbit (u32 (Z.lor INT_DISABLED (T_IRQ0 + i))) 16 = true.
Proof.
  intros Hi. unfold u32. rewrite Z.mod_pow2_bits_low by lia. rewrite Z.lor_spec. done.
Qed.

Lemma enabled_entry i : 0 ≤ i < 224 → Z.testbit (u32 (T_IRQ0 + i)) 16 = false ∧ Z.land (u32 (T_IRQ0 + i)) 0xFFFF = T_IRQ0 + i.
Proof.
  intros Hi. rewrite u32_small by lia. split; [apply Z.bits_above_log2; [lia|]|].
  - apply Z.log2_lt_pow2; lia.
  - change 0xFFFF with (Z.ones 16). rewrite Z.land_ones by lia. apply Z.mod_small. lia.
Qed.

Lemma ioapicinit_loop_spec n : ∀ i s, 0 ≤ i → i + Z.of_nat n ≤ 224 →
  ∃ s', ioapicinit_loop n i s = Ok (tt, s') ∧ (∀ j, i ≤ j < i + Z.of_nat n → route s' j = None) ∧
    (∀ j, j < i → route s' j = route s j).
Proof.
  induction n as [|n IH]; intros i s Hi Hn; cbn [ioapicinit_loop]; [exists s; split_and!; [done|lia|done]|].
  rewrite <-bind_assoc. erewrite bind_Ok by apply write2.
  set (s1 := Ioapic _ _ _). destruct (IH (i + 1) s1) as (s' & -> & H1 & H2); [lia|lia|]. exists s'. split_and!; [done| |].
  - intros j Hj. destruct (Z.eq_dec j i) as [->|]; [|apply H1; lia]. rewrite H2 by lia. unfold route. cbn [io_data s1].
    rewrite fn_lookup_insert_ne by lia. rewrite fn_lookup_insert. by rewrite masked_entry by lia.
  - intros j Hj. rewrite H2 by lia. unfold route. cbn [io_data s1]. by rewrite !fn_lookup_insert_ne by lia.
Qed.

Lemma ioapicenable_spec irq cpu s : 0 ≤ irq < 224 → 0 ≤ cpu < 256 →
  ∃ s', ioapicenable irq cpu s = Ok (tt, s') ∧ ∀ j, route s' j = if decide (j = irq) then Some (T_IRQ0 + irq, cpu) else route s j.
Proof.
  intros Hi Hc. eexists. split; [apply write2|]. intros j. unfold route. cbn [io_data]. destruct (decide (j = irq)) as [->|Hne].
  - rewrite fn_lookup_insert, fn_lookup_insert_ne, fn_lookup_insert by lia. destruct (enabled_entry irq Hi) as [-> ->].
    rewrite Z.shiftl_mul_pow2, Z.shiftr_div_pow2 by lia. rewrite u32_small by lia. by rewrite Z.div_mul by lia.
  - by rewrite !fn_lookup_insert_ne by lia.
Qed.

(** After [ioapicinit] and any calls of [ioapicenable], an interrupt reaches the CPU
    of the last call for it, with its vector, and no other interrupt is
    delivered. *)
Lemma ioapic_routes ioapicid l s : let maxintr := Z.land (Z.shiftr (io_data s REG_VER) 16) 0xFF in
  maxintr < 224 → Forall (λ x, 0 ≤ x.1 ≤ maxintr ∧ 0 ≤ x.2 < 256) l →
  ∃ s', (ioapicinit ioapicid;; enables l) s = Ok (tt, s') ∧
    ∀ irq, 0 ≤ irq ≤ maxintr → route s' irq = (λ x, (T_IRQ0 + irq, x.2)) <$> last (filter (λ x, x.1 = irq) l).
Proof.
  intros maxintr Hmax Hl.
  assert (0 ≤ maxintr) as H0 by (unfold maxintr; apply Z.land_nonneg; right; lia).
  assert (∃ s1, ioapicinit ioapicid s = Ok (tt, s1) ∧ ∀ irq, 0 ≤ irq ≤ maxintr → route s1 irq = None) as (s1 & E1 & H1).
  { unfold ioapicinit. erewrite bind_Ok by reflexivity. erewrite bind_Ok by reflexivity. cbn [io_data io_reg]. fold maxintr.
    destruct (negb _); (erewrite bind_Ok by reflexivity);
      (edestruct (ioapicinit_loop_spec (Z.to_nat (maxintr + 1)) 0) as (s1 & E & Hs1 & _); [lia|lia|]);
      exists s1; (split; [exact E|]); intros irq Hirq; apply Hs1; lia. }
  erewrite bind_Ok by exact E1. clear E1.
  enough (∀ s1, ∃ s', enables l s1 = Ok (tt, s') ∧ ∀ irq, 0 ≤ irq ≤ maxintr → route s' irq =
    match last (filter (λ x, x.1 = irq) l) with Some x => Some (T_IRQ0 + irq, x.2) | None => route s1 irq end) as Hen.
  { destruct (Hen s1) as (s' & E & Hr). exists s'. split; [done|]. intros irq Hirq. rewrite Hr by done.
    destruct (last _); [done|]. by apply H1. }
  clear H1 s1. induction Hl as [|[irq cpu] l [Hi Hc] Hl IH]; intros s1; [by exists s1|]. cbn [enables foldr fst snd] in *.
  destruct (ioapicenable_spec irq cpu s1) as (s2 & E2 & H2); [lia|done|]. erewrite bind_Ok by exact E2.
  destruct (IH s2) as (s' & E & Hr). exists s'. split; [exact E|]. intros j Hj. rewrite Hr, H2 by done. rewrite filter_cons. cbn [fst].
  destruct (decide (irq = j)) as [->|Hne].
  - rewrite last_cons. destruct (last (filter _ l)); [done|]. by rewrite decide_True by done.
  - destruct (last (filter _ l)); [done|]. by rewrite decide_False by done.
Qed.

(** A clock in BCD that turns to the next year after five accesses, the last two
    of them with an update in progress. *)
Definition demo_now (t : nat) : rtcdate := if (t <? 5)%nat then Rtc 59 59 23 31 12 25 else Rtc 0 0 0 1 1 26.
Definition demo_rtc (t : nat) (r : Z) : Z :=
  let d := enc_date true (demo_now t) in
  if r =? 0 then second d else if r =? 2 then minute d else if r =? 4 then hour d else if r =? 7 then day d
  else if r =? 8 then month d else if r =? 9 then year d
  else if r =? CMOS_STATA then if (3 <=? t)%nat && (t <? 5)%nat then CMOS_UIP else 0x26 else 2.

Lemma demo_clock : clock_ok demo_rtc true demo_now 5.
Proof.
  assert (∀ i j, (i < 5)%nat → (j < 5)%nat → demo_now i = demo_now j) as Hlow.
  { intros i j Hi Hj. unfold demo_now. by rewrite !(proj2 (Nat.ltb_lt _ _)) by done. }
  assert (∀ i j, (5 ≤ i)%nat → (5 ≤ j)%nat → demo_now i = demo_now j) as Hhigh.
  { intros i j Hi Hj. unfold demo_now. by rewrite !(proj2 (Nat.ltb_ge _ _)) by done. }
  split.
  - done.
  - intros t. done.
  - intros t. unfold demo_now. destruct (t <? 5)%nat; repeat constructor; done.
  - intros t. exists (5 `max` t)%nat. split; intros i Hi.
    + destruct (le_lt_dec 5 t); [lia|]. apply Hlow; lia.
    + apply Hhigh; lia.
  - intros t. exists (5 `max` t)%nat. split; [lia|]. intros i Hi. split; [apply Hhigh; lia|].
    change (demo_rtc i CMOS_STATA) with (if (3 <=? i)%nat && (i <? 5)%nat then CMOS_UIP else 0x26). rewrite (proj2 (Nat.ltb_ge i 5)) by lia. by rewrite andb_false_r.
Qed.

Example cmostime_at_midnight :
  cmostime demo_rtc 3 0%nat = Ok (Rtc 0 0 0 1 1 2026, 27%nat) ∧
  ∃ i t', (0 ≤ i < t')%nat ∧ cmostime demo_rtc 3 0%nat =
    Ok (Rtc (second (demo_now i)) (minute (demo_now i)) (hour (demo_now i)) (day (demo_now i)) (month (demo_now i)) (2000 + year (demo_now i)), t').
Proof.
  split; [by vm_compute|]. apply (cmostime_not_torn demo_rtc true demo_now 5); [exact demo_clock|lia].
Qed.
