(* ===== verification/Vm.v ===== *)
(** Page tables (vm.c).

    A page directory and its page tables are pages of the kernel's memory;
    the functions of vm.c read and write their words.  [walkpgdir] returns the
    address of an entry, 0 for the null pointer.  The functions that call
    [kalloc] with a process and so may evict a page ([allocuvm], [copyuvm])
    and those that read a file are in [Paging]. *)

From Stdlib Require Import ZArith Lia.
From stdpp Require Import base numbers strings option gmap sets list list_numbers.
From S2P Require Import Prelude Spinlock Mem Kalloc.

Section vm.
Context `{KernelImage}.

(** * Operations *)
Definition walkpgdir (pgdir va : Z) (alloc : bool) : M kmem_state Z :=
  let pde := pgdir + 4 * PDX va in
  e ← ldw pde;
  if negb (Z.land e PTE_P =? 0) then
    mret (u32 (P2V (PTE_ADDR e) + 4 * PTX va))
  else if negb alloc then mret 0
  else
    pgtab ← kalloc_page;
    if pgtab =? 0 then mret 0
    else
      kmemset pgtab 0 PGSIZE;;
      stw pde (Z.lor (Z.lor (Z.lor (V2P pgtab) PTE_P) PTE_W) PTE_U);;
      mret (u32 (pgtab + 4 * PTX va)).

Fixpoint mappages_loop (fuel : nat) (pgdir a last pa perm set_pte : Z) : M kmem_state Z :=
  match fuel with
  | O => mnofuel
  | S fuel =>
      pte ← walkpgdir pgdir a true;
      if pte =? 0 then mret (-1)
      else
        stw pte (Z.lor (Z.lor pa perm) set_pte);;
        if a =? last then mret 0
        else mappages_loop fuel pgdir (u32 (a + PGSIZE)) last (u32 (pa + PGSIZE)) perm set_pte
  end.

(** The loop visits each page from [a] to [last] once, wrapping at 2^32. *)
Definition mappages (pgdir va size pa perm set_pte : Z) : M kmem_state Z :=
  let a := PGROUNDDOWN va in
  let last := PGROUNDDOWN (u32 (va + size - 1)) in
  mappages_loop (S (Z.to_nat (u32 (last - a) / PGSIZE))) pgdir a last pa perm set_pte.

Record kmap_entry := Kmap { virt : Z; phys_start : Z; phys_end : Z; kperm : Z }.

Definition kmap : list kmap_entry :=
  [ Kmap KERNBASE 0 EXTMEM PTE_W;
    Kmap KERNLINK (V2P KERNLINK) (V2P image_data) 0;
    Kmap image_data (V2P image_data) PHYSTOP PTE_W;
    Kmap DEVSPACE DEVSPACE 0 PTE_W ].

Fixpoint deallocuvm_loop (fuel : nat) (pgdir a oldsz : Z) : M kmem_state unit :=
  match fuel with
  | O => mnofuel
  | S fuel =>
      if a <? oldsz then
        pte ← walkpgdir pgdir a false;
        if pte =? 0 then
          deallocuvm_loop fuel pgdir
            (u32 (u32 (PGADDR (PDX a + 1) 0 0 - PGSIZE) + PGSIZE)) oldsz
        else
          e ← ldw pte;
          (if negb (Z.land e PTE_P =? 0) then
             let pa := PTE_ADDR e in
             if pa =? 0 then mpanic "kfree"
             else kfree (P2V pa);; stw pte 0
           else mret tt);;
          deallocuvm_loop fuel pgdir (u32 (a + PGSIZE)) oldsz
      else mret tt
  end.

Definition deallocuvm (pgdir oldsz newsz : Z) : M kmem_state Z :=
  if oldsz <=? newsz then mret oldsz
  else
    deallocuvm_loop (S (Z.to_nat (oldsz / PGSIZE + 1))) pgdir (PGROUNDUP newsz) oldsz;;
    mret newsz.

(** [for(i = 0; i < NPDENTRIES; i++)] of [freevm], with [n] entries left. *)
Fixpoint freevm_loop (n : nat) (pgdir i : Z) : M kmem_state unit :=
  match n with
  | O => mret tt
  | S n =>
      e ← ldw (pgdir + 4 * i);
      (if negb (Z.land e PTE_P =? 0) then kfree (P2V (PTE_ADDR e)) else mret tt);;
      freevm_loop n pgdir (i + 1)
  end.

Definition freevm (pgdir : Z) : M kmem_state unit :=
  if pgdir =? 0 then mpanic "freevm: no pgdir"
  else
    deallocuvm pgdir KERNBASE 0;;
    freevm_loop (Z.to_nat NPDENTRIES) pgdir 0;;
    kfree pgdir.

Fixpoint setupkvm_loop (ks : list kmap_entry) (pgdir : Z) : M kmem_state Z :=
  match ks with
  | [] => mret pgdir
  | k :: ks =>
      r ← mappages pgdir (virt k) (u32 (phys_end k - phys_start k)) (phys_start k) (kperm k) 1;
      if r <? 0 then freevm pgdir;; mret 0 else setupkvm_loop ks pgdir
  end.

Definition setupkvm : M kmem_state Z :=
  pgdir ← kalloc_page;
  if pgdir =? 0 then mret 0
  else
    kmemset pgdir 0 PGSIZE;;
    if DEVSPACE <? P2V PHYSTOP then mpanic "PHYSTOP too high"
    else setupkvm_loop kmap pgdir.

(** Stores the bytes of a kernel buffer outside the direct map. *)
Fixpoint write_bytes (m : mem) (a : Z) (l : list Z) : mem :=
  match l with
  | [] => m
  | b :: l => write_bytes (upd m a b) (a + 1) l
  end.

Lemma write_bytes_out m a l x : x < a ∨ a + Z.of_nat (length l) ≤ x → write_bytes m a l x = m x.
Proof.
  revert m a. induction l as [|b l IH]; intros m a Hx; [done|]. cbn [write_bytes length] in *.
  rewrite IH by lia. apply upd_ne. lia.
Qed.

Lemma write_bytes_read m a l : read_bytes (write_bytes m a l) a (length l) = l.
Proof.
  revert m a. induction l as [|b l IH]; intros m a; [done|]. cbn [write_bytes length].
  unfold read_bytes in *. cbn [seq fmap list_fmap]. f_equal.
  - change (write_bytes (upd m a b) (a + 1) l (a + Z.of_nat 0) = b).
    rewrite write_bytes_out by lia. rewrite Z.add_0_r. apply upd_eq.
  - rewrite <-(IH (upd m a b) (a + 1)) at 2. rewrite <-seq_shift, <-list_fmap_compose.
    apply list_fmap_ext. intros i x _. simpl. f_equal. lia.
Qed.

Lemma write_bytes_app m a l1 l2 :
  write_bytes m a (l1 ++ l2) = write_bytes (write_bytes m a l1) (a + Z.of_nat (length l1)) l2.
Proof.
  revert m a. induction l1 as [|b l1 IH]; intros m a; cbn [write_bytes length app].
  - by rewrite Z.add_0_r.
  - rewrite IH. f_equal. lia.
Qed.

Lemma write_bytes_bytes m a l : bytes m → Forall is_u8 l → bytes (write_bytes m a l).
Proof.
  revert m a. induction l as [|b l IH]; intros m a Hm Hl; [done|]. apply Forall_cons in Hl as [Hb Hl].
  apply IH; [|done]. by apply upd_bytes.
Qed.

Definition kwrite (a : Z) (l : list Z) : M kmem_state unit := λ s,
  if mapped a (Z.of_nat (length l)) then Ok (tt, set_mem (write_bytes (k_mem s) a l) s) else Fault.

Definition kread (a n : Z) : M kmem_state (list Z) := λ s,
  if mapped a n then Ok (read_bytes (k_mem s) a (Z.to_nat n), s) else Fault.

Definition inituvm (pgdir : Z) (init : list Z) : M kmem_state unit :=
  if PGSIZE <=? Z.of_nat (length init) then mpanic "inituvm: more than a page"
  else
    mem ← kalloc_page;
    kmemset mem 0 PGSIZE;;
    mappages pgdir 0 PGSIZE (V2P mem) (Z.lor PTE_W PTE_U) 1;;
    kwrite mem init.

Definition clearpteu (pgdir uva : Z) : M kmem_state unit :=
  pte ← walkpgdir pgdir uva false;
  if pte =? 0 then mpanic "clearpteu"
  else e ← ldw pte; stw pte (Z.land e (Z.lnot PTE_U)).

Definition uva2ka (pgdir uva : Z) : M kmem_state Z :=
  pte ← walkpgdir pgdir uva false;
  e ← ldw pte;
  if Z.land e PTE_P =? 0 then mret 0
  else if Z.land e PTE_U =? 0 then mret 0
  else mret (P2V (PTE_ADDR e)).

Fixpoint copyout_loop (fuel : nat) (pgdir va : Z) (buf : list Z) : M kmem_state Z :=
  match buf with
  | [] => mret 0
  | _ =>
      match fuel with
      | O => mnofuel
      | S fuel =>
          let va0 := PGROUNDDOWN va in
          pa0 ← uva2ka pgdir va0;
          if pa0 =? 0 then mret (-1)
          else
            let n := Z.min (PGSIZE - (va - va0)) (Z.of_nat (length buf)) in
            kwrite (pa0 + (va - va0)) (take (Z.to_nat n) buf);;
            copyout_loop fuel pgdir (u32 (va0 + PGSIZE)) (drop (Z.to_nat n) buf)
      end
  end.

(** Each iteration but the first starts on a page, so the length bounds them. *)
Definition copyout (pgdir va : Z) (buf : list Z) : M kmem_state Z :=
  copyout_loop (length buf) pgdir va buf.

Definition mappages_swap_in (pgdir mem vaddr : Z) : M kmem_state Z :=
  r ← mappages pgdir (u32 vaddr) PGSIZE (V2P mem) (Z.lor PTE_W PTE_U) 1;
  if r <? 0 then mret (-1) else mret 0.

Definition demappages_swap_out (pgdir vaddr : Z) : M kmem_state Z :=
  pte ← walkpgdir pgdir (u32 vaddr) false;
  if pte =? 0 then mpanic "address should exist"
  else e ← ldw pte; stw pte (Z.land e (Z.lnot PTE_P));; mret 0.

(** The page of [vaddr], copied into [p->write_buffer]; [None] for -1. *)
Definition read_vaddr (pgdir vaddr : Z) : M kmem_state (option (list Z)) :=
  pte ← walkpgdir pgdir (u32 vaddr) false;
  if pte =? 0 then mret None
  else
    e ← ldw pte;
    if e =? 0 then mret None
    else data ← kread (P2V (PTE_ADDR e)) PGSIZE; mret (Some data).

(** * Page tables as functions from pages to entries *)
Definition table (m : mem) (pgdir i : Z) : option Z :=
  let e := load32 m (pgdir + 4 * i) in
  if negb (Z.land e PTE_P =? 0) then Some (P2V (PTE_ADDR e)) else None.

(** The entry of [va]; 0 where there is no page table. *)
Definition pte_of (m : mem) (pgdir va : Z) : Z :=
  match table m pgdir (PDX va) with
  | Some t => load32 m (t + 4 * PTX va)
  | None => 0
  end.

(** The page an address is in, the pages of a page table. *)
Definition pg (x : Z) : Z := x - x mod PGSIZE.
Definition owned (m : mem) (pgdir v : Z) : Prop :=
  v = pgdir ∨ ∃ i, 0 ≤ i < 1024 ∧ table m pgdir i = Some v.

(** Directory and tables are distinct pages, none of them free. *)
Record pt_wf (m : mem) (pgdir : Z) (F : list Z) : Prop := {
  pw_dir : page_ok pgdir;
  pw_dir_free : pgdir ∉ F;
  pw_tab : ∀ i t, 0 ≤ i < 1024 → table m pgdir i = Some t → page_ok t ∧ t ∉ F ∧ t ≠ pgdir;
  pw_inj : ∀ i j t, 0 ≤ i < 1024 → 0 ≤ j < 1024 →
    table m pgdir i = Some t → table m pgdir j = Some t → i = j
}.

Context {IOk : KernelImageOk _}.

Lemma pg_eq v x : v mod PGSIZE = 0 → v ≤ x < v + PGSIZE → pg x = v.
Proof. intros. unfold pg. Z.div_mod_to_equations. lia. Qed.

Lemma pg_ne v x : v mod PGSIZE = 0 → pg x ≠ v → x < v ∨ v + PGSIZE ≤ x.
Proof. intros Hv Hx. destruct (decide (v ≤ x < v + PGSIZE)); [|lia]. by rewrite (pg_eq v) in Hx. Qed.

(** A word in a page, the next entries of the page apart. *)
Lemma entry_apart v w i j : v mod PGSIZE = 0 → w mod PGSIZE = 0 →
  0 ≤ i < 1024 → 0 ≤ j < 1024 → v ≠ w ∨ i ≠ j →
  v + 4 * i + 4 ≤ w + 4 * j ∨ w + 4 * j + 4 ≤ v + 4 * i.
Proof.
  intros Hv Hw Hi Hj Hne. destruct (decide (v = w)) as [->|]; [lia|].
  destruct (page_disjoint v w); (done || lia).
Qed.

Lemma entry_mapped v i : page_ok v → 0 ≤ i < 1024 → mapped (v + 4 * i) 4 = true.
Proof. intros Hv Hi. apply (page_ok_mapped v); (done || lia). Qed.

Lemma entry_u32 v i : page_ok v → 0 ≤ i < 1024 → u32 (v + 4 * i) = v + 4 * i.
Proof. intros Hv%page_ok_range Hi. apply u32_small. lia. Qed.

Lemma entry_nonzero v i : page_ok v → 0 ≤ i < 1024 → v + 4 * i ≠ 0.
Proof. intros Hv%page_ok_range Hi. lia. Qed.

Lemma table_ext m m' pgdir i :
  load32 m (pgdir + 4 * i) = load32 m' (pgdir + 4 * i) → table m pgdir i = table m' pgdir i.
Proof. unfold table. by intros ->. Qed.

(** [walkpgdir] when the table exists, and when it does not. *)
Lemma walk_present s pgdir va alloc t F : pt_wf (k_mem s) pgdir F → is_u32 va →
  table (k_mem s) pgdir (PDX va) = Some t →
  walkpgdir pgdir va alloc s = Ok (t + 4 * PTX va, s).
Proof.
  intros Hwf Hva Ht. unfold walkpgdir. pose proof (PDX_range va Hva). pose proof (PTX_range va Hva).
  destruct (pw_tab _ _ _ Hwf _ _ (PDX_range va Hva) Ht) as (Hok & _ & _).
  erewrite bind_Ok by (unfold ldw; rewrite entry_mapped by (done || apply Hwf); reflexivity).
  unfold table in Ht. destruct (negb _); [|done]. simplify_eq.
  by rewrite entry_u32.
Qed.

Lemma walk_absent s pgdir va F : pt_wf (k_mem s) pgdir F → is_u32 va →
  table (k_mem s) pgdir (PDX va) = None → walkpgdir pgdir va false s = Ok (0, s).
Proof.
  intros Hwf Hva Ht. unfold walkpgdir. pose proof (PDX_range va Hva).
  erewrite bind_Ok by (unfold ldw; rewrite entry_mapped by (done || apply Hwf); reflexivity).
  unfold table in Ht. by destruct (negb _).
Qed.

(** The entry of a new table. *)
Definition new_pde (t : Z) : Z := Z.lor (Z.lor (Z.lor (V2P t) PTE_P) PTE_W) PTE_U.

Lemma land_u32 a b : is_u32 a → is_u32 (Z.land a b).
Proof.
  intros [Ha0 Ha]. assert (Hn : 0 ≤ Z.land a b) by (apply Z.land_nonneg; lia). split; [done|].
  apply Z.bounded_iff_bits_nonneg; [lia|done|]. intros l Hl. rewrite Z.land_spec.
  by rewrite (proj1 (Z.bounded_iff_bits_nonneg 32 a ltac:(lia) Ha0) Ha l Hl).
Qed.

Lemma lor_u32 a b : is_u32 a → is_u32 b → is_u32 (Z.lor a b).
Proof.
  unfold is_u32. intros Ha Hb. split; [apply Z.lor_nonneg; lia|].
  destruct (decide (Z.lor a b = 0)) as [->|]; [lia|].
  assert (0 ≤ Z.lor a b) by (apply Z.lor_nonneg; lia).
  apply Z.log2_lt_pow2; [lia|]. rewrite Z.log2_lor by lia.
  assert (Hlog : ∀ c, 0 ≤ c < 2 ^ 32 → Z.log2 c < 32).
  { intros c Hc. destruct (decide (c = 0)) as [->|]; [done|]. apply Z.log2_lt_pow2; lia. }
  apply Z.max_lub_lt; by apply Hlog.
Qed.

(** A frame address and flags in one word. *)
Lemma pte_flags pa fl : is_u32 pa → pa mod PGSIZE = 0 → 0 ≤ fl < PGSIZE →
  PTE_ADDR (Z.lor pa fl) = pa ∧ PTE_FLAGS (Z.lor pa fl) = fl ∧
  ∀ k, 0 ≤ k < 12 → Z.testbit (Z.lor pa fl) k = Z.testbit fl k.
Proof.
  intros Hpa Hal Hfl.
  assert (Hlow : ∀ k, 0 ≤ k < 12 → Z.testbit pa k = false).
  { intros k Hk. rewrite <-(Z.mod_pow2_bits_low pa 12) by lia.
    change (2 ^ 12) with 4096. rewrite Hal. apply Z.bits_0. }
  assert (Hhigh : ∀ k, 12 ≤ k → Z.testbit fl k = false).
  { intros k Hk. rewrite <-(Z.mod_small fl (2 ^ 12)) by lia. apply Z.mod_pow2_bits_high. lia. }
  assert (Hu : u32 (Z.lor pa fl) = Z.lor pa fl).
  { apply u32_small. apply (lor_u32 pa fl); [done|unfold is_u32; lia]. }
  unfold PTE_ADDR, PTE_FLAGS. rewrite Hu. split_and!.
  - apply Z.bits_inj'. intros k Hk. rewrite Z.land_spec, Z.lor_spec, Z.lnot_spec by lia.
    change 0xFFF with (Z.ones 12). destruct (decide (k < 12)).
    + rewrite Z.ones_spec_low by lia. rewrite Hlow by lia. apply andb_false_r.
    + rewrite Z.ones_spec_high, Hhigh by lia. by rewrite orb_false_r, andb_true_r.
  - apply Z.bits_inj'. intros k Hk. rewrite Z.land_spec, Z.lor_spec by lia.
    change 0xFFF with (Z.ones 12). destruct (decide (k < 12)).
    + rewrite Z.ones_spec_low, Hlow by lia. by rewrite andb_true_r.
    + rewrite Z.ones_spec_high, Hhigh by lia. by rewrite andb_false_r.
  - intros k Hk. rewrite Z.lor_spec, Hlow by lia. done.
Qed.

Lemma land_1 e : Z.land e 1 = 0 ↔ Z.testbit e 0 = false.
Proof.
  change 1 with (Z.ones 1). rewrite Z.land_ones by lia. change (2 ^ 1) with 2.
  rewrite Zmod_odd, Z.bit0_odd. by destruct (Z.odd e).
Qed.

Lemma V2P_page t : page_ok t → is_u32 (V2P t) ∧ V2P t mod PGSIZE = 0 ∧ V2P t ≠ 0.
Proof.
  intros Ht. pose proof (page_ok_range t Ht). destruct Ht as (Hm & _).
  assert (HV : V2P t = t - KERNBASE) by (apply u32_small; lia).
  rewrite HV. unfold is_u32. Z.div_mod_to_equations. lia.
Qed.

Lemma new_pde_spec t : page_ok t →
  is_u32 (new_pde t) ∧ P2V (PTE_ADDR (new_pde t)) = t ∧ Z.land (new_pde t) PTE_P ≠ 0.
Proof.
  intros Ht. destruct (V2P_page t Ht) as (Hu & Hm & _).
  assert (E : new_pde t = Z.lor (V2P t) 7) by (unfold new_pde; rewrite <-!Z.lor_assoc; done).
  rewrite E. destruct (pte_flags (V2P t) 7) as (Ha & _ & Hb); try done.
  split_and!.
  - by apply lor_u32.
  - rewrite Ha. by apply V2P_P2V, page_ok_u32.
  - rewrite land_1, Hb by lia. done.
Qed.

(** Memory after [walkpgdir] has put the empty table [p] at index [i]. *)
Definition with_table (m : mem) (pgdir i p : Z) : mem :=
  store32 (memset m p 0 PGSIZE) (pgdir + 4 * i) (new_pde p).

Lemma with_table_out m pgdir i p x : page_ok pgdir → page_ok p → 0 ≤ i < 1024 →
  pg x ≠ pgdir → pg x ≠ p → with_table m pgdir i p x = m x.
Proof.
  intros Hd Hp Hi Hxd Hxp. unfold with_table. apply pg_ne in Hxd; [|apply Hd].
  apply pg_ne in Hxp; [|apply Hp]. rewrite store32_out by lia.
  rewrite memset_at by lia. within_cases; (done || lia).
Qed.

Lemma with_table_load m pgdir i p v j : page_ok pgdir → page_ok p → page_ok v →
  0 ≤ i < 1024 → 0 ≤ j < 1024 → v ≠ p → v ≠ pgdir ∨ i ≠ j →
  load32 (with_table m pgdir i p) (v + 4 * j) = load32 m (v + 4 * j).
Proof.
  intros Hd Hp Hv Hi Hj Hvp Hvd. unfold with_table. rewrite load_store32_ne.
  - apply load32_ext. intros x Hx. rewrite memset_at by lia.
    destruct (page_disjoint v p); try done; [apply Hv|apply Hp| |]; within_cases; (done || lia).
  - destruct (entry_apart pgdir v i j); try lia; [apply Hd|apply Hv].
Qed.

Lemma with_table_new m pgdir i p j : page_ok pgdir → page_ok p → p ≠ pgdir →
  0 ≤ i < 1024 → 0 ≤ j < 1024 → load32 (with_table m pgdir i p) (p + 4 * j) = 0.
Proof.
  intros Hd Hp Hne Hi Hj. unfold with_table. rewrite load_store32_ne.
  - apply load32_zero. intros x Hx. rewrite memset_at by lia. within_cases; (done || lia).
  - destruct (entry_apart pgdir p i j); try lia; [apply Hd|apply Hp].
Qed.

Lemma with_table_table m pgdir i p j : page_ok pgdir → page_ok p → p ≠ pgdir →
  0 ≤ i < 1024 → 0 ≤ j < 1024 →
  table (with_table m pgdir i p) pgdir j = if decide (i = j) then Some p else table m pgdir j.
Proof.
  intros Hd Hp Hne Hi Hj. destruct (new_pde_spec p Hp) as (Hu & Ha & Hl).
  destruct (decide (i = j)) as [->|Hij].
  - unfold table, with_table. rewrite load_store32 by done.
    destruct (Z.eqb_spec (Z.land (new_pde p) PTE_P) 0); [done|]. by rewrite Ha.
  - apply table_ext. apply with_table_load; auto.
Qed.

Lemma with_table_pte m pgdir p F va va' : is_u32 va → is_u32 va' →
  pt_wf m pgdir (p :: F) → page_ok p → table m pgdir (PDX va) = None →
  pte_of (with_table m pgdir (PDX va) p) pgdir va' = pte_of m pgdir va'.
Proof.
  intros Hva Hva' Hwf Hp Hnone. assert (p ≠ pgdir) by (intros ->; apply (pw_dir_free _ _ _ Hwf); set_solver).
  pose proof (PDX_range va Hva) as Hi. pose proof (PDX_range va' Hva') as Hj.
  pose proof (PTX_range va' Hva') as Hk. pose proof (pw_dir _ _ _ Hwf) as Hd.
  unfold pte_of. rewrite with_table_table by done. destruct (decide (PDX va = PDX va')) as [<-|Hne].
  - rewrite Hnone. by apply with_table_new.
  - destruct (table m pgdir (PDX va')) as [t|] eqn:Ht; [|done].
    destruct (pw_tab _ _ _ Hwf _ _ Hj Ht) as (Hok & HtF & Htd).
    apply with_table_load; auto. set_solver.
Qed.

Lemma with_table_wf m pgdir p F i : 0 ≤ i < 1024 → NoDup (p :: F) →
  pt_wf m pgdir (p :: F) → page_ok p → pt_wf (with_table m pgdir i p) pgdir F.
Proof.
  intros Hi [HpF _]%NoDup_cons Hwf Hp.
  assert (p ≠ pgdir) by (intros ->; apply (pw_dir_free _ _ _ Hwf); set_solver).
  destruct Hwf as [Hd HdF Ht Hinj]. split; [done|set_solver| |].
  - intros j t Hj. rewrite with_table_table by done. case_decide.
    + intros [= <-]. auto.
    + intros Hjt. destruct (Ht j t Hj Hjt) as (? & ? & ?). set_solver.
  - intros j k t Hj Hk. rewrite !with_table_table by done.
    assert (Hp' : ∀ l, 0 ≤ l < 1024 → table m pgdir l ≠ Some p).
    { intros l Hl Hlp. destruct (Ht l p Hl Hlp) as (_ & ? & _). set_solver. }
    repeat case_decide; intros Hjt Hkt; simplify_eq; try done;
      [by apply Hp' in Hkt|by apply Hp' in Hjt|]. by apply (Hinj j k t).
Qed.

(** What every operation on the page table of [pgdir] keeps and changes:
    allocated pages become page tables, and nothing outside page tables and
    free pages is written. *)
Record vm_step (pgdir : Z) (s : kmem_state) (F : list Z) (s' : kmem_state) (F' : list Z) : Prop := {
  vs_rep : kmem_rep s' F';
  vs_wf : pt_wf (k_mem s') pgdir F';
  vs_suffix : F' `suffix_of` F;
  vs_owned : ∀ v, owned (k_mem s') pgdir v ↔ owned (k_mem s) pgdir v ∨ (v ∈ F ∧ v ∉ F');
  vs_frame : ∀ x, ¬ owned (k_mem s) pgdir (pg x) → pg x ∉ F → k_mem s' x = k_mem s x;
  vs_use_lock : k_use_lock s' = k_use_lock s
}.

Lemma vm_step_refl pgdir s F : kmem_rep s F → pt_wf (k_mem s) pgdir F → vm_step pgdir s F s F.
Proof. intros. split; try done. intros v. naive_solver. Qed.

Lemma suffix_elem (F F' : list Z) v : F' `suffix_of` F → v ∈ F' → v ∈ F.
Proof. intros [G ->]. set_solver. Qed.

Lemma vm_step_trans pgdir s F s1 F1 s2 F2 :
  vm_step pgdir s F s1 F1 → vm_step pgdir s1 F1 s2 F2 → vm_step pgdir s F s2 F2.
Proof.
  intros [_ _ Hs1 Ho1 Hf1 Hu1] [HF2 Hwf2 Hs2 Ho2 Hf2 Hu2]. split; try done.
  - by etrans.
  - intros v. rewrite Ho2, Ho1. destruct (decide (v ∈ F1)) as [Hv|Hv].
    + pose proof (suffix_elem F F1 v Hs1 Hv). naive_solver.
    + assert (v ∉ F2) by (intros ?; apply Hv; by apply (suffix_elem F1 F2)). naive_solver.
  - intros x Hx HxF. rewrite Hf2, Hf1; try done.
    + rewrite Ho1. naive_solver.
    + intros HxF1. apply HxF. by apply (suffix_elem F F1).
  - by rewrite Hu2.
Qed.

(** A new table is needed for the page [va]. *)
Definition needs_table (m : mem) (pgdir va : Z) : Z :=
  match table m pgdir (PDX va) with Some _ => 0 | None => 1 end.

(** [walkpgdir] with [alloc]: the entry of [va], in a new table if need be. *)
Lemma walk_alloc s pgdir va F : kmem_rep s F → pt_wf (k_mem s) pgdir F → is_u32 va →
  (F = [] ∧ table (k_mem s) pgdir (PDX va) = None ∧ walkpgdir pgdir va true s = Ok (0, s)) ∨
  ∃ t s' F', walkpgdir pgdir va true s = Ok (t + 4 * PTX va, s') ∧ vm_step pgdir s F s' F' ∧
    table (k_mem s') pgdir (PDX va) = Some t ∧
    (∀ va', is_u32 va' → pte_of (k_mem s') pgdir va' = pte_of (k_mem s) pgdir va') ∧
    Z.of_nat (length F) = Z.of_nat (length F') + needs_table (k_mem s) pgdir va.
Proof.
  intros HF Hwf Hva. unfold needs_table. destruct (table (k_mem s) pgdir (PDX va)) as [t|] eqn:Ht.
  { right. exists t, s, F. split_and!; try done; [by eapply walk_present|by apply vm_step_refl|lia]. }
  pose proof (PDX_range va Hva) as Hi. pose proof (PTX_range va Hva) as Hj.
  pose proof (pw_dir _ _ _ Hwf) as Hd. unfold walkpgdir.
  erewrite bind_Ok by (unfold ldw; rewrite entry_mapped by done; reflexivity).
  pose proof Ht as Ht'. unfold table in Ht'. destruct (negb (Z.land _ _ =? _)); [done|]. cbn [negb].
  erewrite bind_Ok by (by eapply kalloc_page_run). destruct F as [|p F].
  { left. destruct (popped_nil s HF) as [-> ->]. done. }
  right. destruct (kmem_head _ _ _ HF) as (-> & Hp & Hp0).
  destruct (popped_cons _ _ _ HF) as (HF' & Hm & Hl & Hu).
  assert (Hpd : p ≠ pgdir) by (intros ->; apply (pw_dir_free _ _ _ Hwf); set_solver).
  destruct (Z.eqb_spec p 0); [done|].
  erewrite bind_Ok by (unfold kmemset; rewrite (page_ok_mapped p) by (done || lia); reflexivity).
  erewrite bind_Ok by (unfold stw; rewrite entry_mapped by done; reflexivity).
  rewrite entry_u32 by done. fold (new_pde p). cbn [k_mem set_mem]. rewrite Hm.
  fold (with_table (k_mem s) pgdir (PDX va) p).
  exists p, (set_mem (with_table (k_mem s) pgdir (PDX va) p) (popped s)), F.
  pose proof (kr_nodup _ _ HF) as Hnd. split_and!.
  - destruct (popped s). done.
  - split; cbn [k_mem set_mem k_use_lock].
    + destruct HF' as [Hc Hnd' Hb Hl']. split; cbn [k_mem set_mem k_freelist k_lock]; try done.
      * rewrite Hm in Hc. eapply free_chain_ext; [|exact Hc].
        intros q x Hq Hx. assert (Hqok : page_ok q) by (by eapply free_chain_ok).
        assert (pg x = q) as Hpg by (apply pg_eq; [apply Hqok|lia]).
        symmetry. apply with_table_out; try done; rewrite Hpg.
        -- intros ->. apply (pw_dir_free _ _ _ Hwf). set_solver.
        -- intros ->. by apply NoDup_cons in Hnd as [? _].
      * rewrite Hm in Hb. apply store32_bytes, memset_bytes; [lia|done].
    + by apply with_table_wf.
    + by exists [p].
    + intros v. unfold owned. apply NoDup_cons in Hnd as [HpF _]. split.
      * intros [->|(i & Hi' & Hv)]; [by left; left|]. rewrite with_table_table in Hv by done.
        case_decide; [simplify_eq; right; set_solver|by left; right; exists i].
      * intros [[->|(i & Hi' & Hv)]|[HvF Hv]]; [by left| |].
        -- right. exists i. rewrite with_table_table by done. rewrite decide_False; [done|congruence].
        -- right. exists (PDX va). assert (v = p) as -> by set_solver.
           rewrite with_table_table by done. by rewrite decide_True.
    + intros x Hx HxF. apply with_table_out; try done; [|set_solver]. intros Hpd'. apply Hx. by left.
    + done.
  - cbn [k_mem set_mem]. rewrite with_table_table by done. by rewrite decide_True.
  - intros va' Hva'. cbn [k_mem set_mem]. by eapply with_table_pte.
  - cbn [length]. lia.
Qed.

Lemma pg_indices a b : is_u32 a → is_u32 b → pg a = pg b ↔ PDX a = PDX b ∧ PTX a = PTX b.
Proof.
  intros Ha Hb. pose proof (page_split a Ha). pose proof (page_split b Hb).
  unfold pg. split; [|intros [E1 E2]; rewrite E1, E2 in *; lia].
  intros E. rewrite !PDX_eq, !PTX_eq by done.
  assert (Hdiv : a / 4096 = b / 4096) by (Z.div_mod_to_equations; lia).
  change (2 ^ 22) with (4096 * 1024). rewrite <-!Z.div_div by lia.
  change (2 ^ 12) with 4096. rewrite Hdiv. done.
Qed.

(** Storing an entry changes that entry only. *)
Lemma set_pte s pgdir F va t v : kmem_rep s F → pt_wf (k_mem s) pgdir F → is_u32 va →
  table (k_mem s) pgdir (PDX va) = Some t → is_u32 v →
  ∃ s', stw (t + 4 * PTX va) v s = Ok (tt, s') ∧ vm_step pgdir s F s' F ∧
    (∀ i, 0 ≤ i < 1024 → table (k_mem s') pgdir i = table (k_mem s) pgdir i) ∧
    (∀ va', is_u32 va' → pte_of (k_mem s') pgdir va' =
       if decide (pg va' = pg va) then v else pte_of (k_mem s) pgdir va') ∧
    ∀ x, pg x ≠ t → k_mem s' x = k_mem s x.
Proof.
  intros HF Hwf Hva Ht Hv. pose proof (PDX_range va Hva) as Hi. pose proof (PTX_range va Hva) as Hj.
  destruct (pw_tab _ _ _ Hwf _ _ Hi Ht) as (Hok & HtF & Htd).
  pose proof (pw_dir _ _ _ Hwf) as Hd.
  unfold stw. rewrite entry_mapped by done.
  set (s' := set_mem _ s). exists s'.
  assert (Hout : ∀ x, pg x ≠ t → k_mem s' x = k_mem s x).
  { intros x Hx. apply pg_ne in Hx; [|apply Hok]. apply store32_out. lia. }
  assert (Hld : ∀ w k, page_ok w → 0 ≤ k < 1024 → w ≠ t ∨ k ≠ PTX va →
    load32 (k_mem s') (w + 4 * k) = load32 (k_mem s) (w + 4 * k)).
  { intros w k Hw Hk Hne. apply load_store32_ne.
    destruct (entry_apart t w (PTX va) k); first [apply Hok | apply Hw | naive_solver | lia]. }
  assert (Htab : ∀ i, 0 ≤ i < 1024 → table (k_mem s') pgdir i = table (k_mem s) pgdir i).
  { intros i Hi'. apply table_ext, Hld; naive_solver. }
  split_and!; try done.
  - split; try done.
    + destruct HF as [Hc Hnd Hb Hl]. split; try done; [|by apply store32_bytes].
      apply (free_chain_ext (k_mem s)); [|done]. intros p x Hp Hx. symmetry. apply Hout.
      rewrite (pg_eq p); [set_solver| |lia]. by apply (free_chain_ok _ _ _ _ Hc).
    + destruct Hwf as [? ? H1 H2]. split; try done.
      * intros i t' Hi'. rewrite Htab by done. apply H1; done.
      * intros i j t' Hi' Hj'. rewrite !Htab by done. apply H2; done.
    + intros w. split.
      * intros [->|(i & Hi' & Hw)]; left; [by left|right; exists i]. by rewrite Htab in Hw.
      * intros [[->|(i & Hi' & Hw)]|[? ?]]; [by left|right; exists i; by rewrite Htab|done].
    + intros x Hx HxF. apply Hout. intros Hxt. apply Hx. right. exists (PDX va). by rewrite Hxt.
  - intros va' Hva'. pose proof (PDX_range va' Hva'). pose proof (PTX_range va' Hva').
    unfold pte_of. rewrite Htab by done. case_decide as Hpg.
    + apply pg_indices in Hpg as [-> ->]; try done. rewrite Ht. by apply load_store32.
    + rewrite pg_indices in Hpg by done.
      destruct (table (k_mem s) pgdir (PDX va')) as [t'|] eqn:Ht'; [|done].
      apply Hld; [by apply (pw_tab _ _ _ Hwf (PDX va'))|done|].
      destruct (decide (t' = t)) as [->|]; [right|by left]. intros HP. apply Hpg. split; [|done].
      by apply (pw_inj _ _ _ Hwf _ _ t).
Qed.

(** [demappages_swap_out] clears the present bit and nothing else. *)
Lemma demappages_run s pgdir F va t : kmem_rep s F → pt_wf (k_mem s) pgdir F → is_u32 va →
  table (k_mem s) pgdir (PDX va) = Some t →
  ∃ s', demappages_swap_out pgdir va s = Ok (0, s') ∧ vm_step pgdir s F s' F ∧
    (∀ i, 0 ≤ i < 1024 → table (k_mem s') pgdir i = table (k_mem s) pgdir i) ∧
    (∀ va', is_u32 va' → pte_of (k_mem s') pgdir va' =
       if decide (pg va' = pg va) then Z.land (pte_of (k_mem s) pgdir va) (Z.lnot PTE_P)
       else pte_of (k_mem s) pgdir va') ∧
    ∀ x, pg x ≠ t → k_mem s' x = k_mem s x.
Proof.
  intros HF Hwf Hva Ht. pose proof (PDX_range va Hva). pose proof (PTX_range va Hva).
  destruct (pw_tab _ _ _ Hwf _ _ (PDX_range va Hva) Ht) as (Hok & _ & _).
  set (e := pte_of (k_mem s) pgdir va).
  assert (He : is_u32 (Z.land e (Z.lnot PTE_P))).
  { unfold e, pte_of. rewrite Ht. apply land_u32. apply load32_u32, HF. }
  destruct (set_pte s pgdir F va t _ HF Hwf Hva Ht He) as (s' & E & Hs & Hrest).
  exists s'. split; [|by split]. unfold demappages_swap_out. rewrite u32_small by done.
  rewrite (bind_Ok _ _ _ _ _ (walk_present s pgdir va false t F Hwf Hva Ht)).
  rewrite (proj2 (Z.eqb_neq _ _)) by (by apply entry_nonzero).
  erewrite bind_Ok by (unfold ldw; by rewrite entry_mapped).
  replace (load32 (k_mem s) (t + 4 * PTX va)) with e by (unfold e, pte_of; by rewrite Ht).
  by rewrite (bind_Ok _ _ _ _ _ E).
Qed.

(** The entry that [mappages] writes for the page [va] of a range at [a]. *)
Definition map_entry (a pa perm set_pte va : Z) : Z :=
  Z.lor (Z.lor (u32 (pa + (pg va - a))) perm) set_pte.

Lemma map_entry_u32 a pa perm st va : is_u32 perm → is_u32 st → is_u32 (map_entry a pa perm st va).
Proof. intros. unfold map_entry. repeat apply lor_u32; auto with kernel. Qed.

Lemma next_PDX a : (a + PGSIZE) / 2 ^ 22 = a / 2 ^ 22 ∨ (a + PGSIZE) / 2 ^ 22 = a / 2 ^ 22 + 1.
Proof. change (2 ^ 22) with 4194304. Z.div_mod_to_equations. lia. Qed.

Lemma mappages_loop_spec fuel pgdir a last pa perm st s F :
  kmem_rep s F → pt_wf (k_mem s) pgdir F → is_u32 pa → is_u32 perm → is_u32 st →
  a mod PGSIZE = 0 → last mod PGSIZE = 0 → 0 ≤ a ≤ last → last + PGSIZE ≤ 2 ^ 32 →
  last - a < PGSIZE * Z.of_nat fuel →
  ∃ r b s' F', mappages_loop fuel pgdir a last pa perm st s = Ok (r, s') ∧
    vm_step pgdir s F s' F' ∧
    (r = 0 ∧ b = last + PGSIZE ∨ r = -1 ∧ a ≤ b ≤ last ∧ F' = []) ∧
    (PDX last - PDX a + needs_table (k_mem s) pgdir a ≤ Z.of_nat (length F) → r = 0) ∧
    Z.of_nat (length F) - Z.of_nat (length F') ≤ PDX last - PDX a + needs_table (k_mem s) pgdir a ∧
    ∀ va, is_u32 va → pte_of (k_mem s') pgdir va =
      if within (pg va) a (b - a) then map_entry a pa perm st va else pte_of (k_mem s) pgdir va.
Proof.
  revert a pa s F. induction fuel as [|fuel IH]; intros a pa s F HF Hwf Hpa Hpe Hst Ha Hl Hal Hmax Hfuel;
    [lia|]. cbn [mappages_loop].
  assert (Hua : is_u32 a) by (unfold is_u32; lia).
  destruct (walk_alloc s pgdir a F HF Hwf Hua)
    as [(-> & Hn & E)|(t & s1 & F1 & E & Hs1 & Ht & Hp1 & Hlen)]; erewrite bind_Ok by exact E.
  { assert (PDX a ≤ PDX last) by (rewrite !PDX_eq by (unfold is_u32; lia); apply Z.div_le_mono; lia).
    exists (-1), a, s, []. split_and!; [done|by apply vm_step_refl|right; split_and!; (done || lia)| | |].
    1-2: unfold needs_table; rewrite Hn; simpl; lia.
    intros va Hva. within_cases; (done || lia). }
  assert (Htok : page_ok t).
  { by apply (pw_tab _ _ _ (vs_wf _ _ _ _ _ Hs1) (PDX a) t (PDX_range a Hua)). }
  destruct (Z.eqb_spec (t + 4 * PTX a) 0) as [E0|_].
  { by apply entry_nonzero in E0; [|done|apply PTX_range]. }
  destruct (set_pte s1 pgdir F1 a t (Z.lor (Z.lor pa perm) st)) as (s2 & E2 & Hs2 & Htab2 & Hp2 & _);
    try done; [apply Hs1|apply Hs1|by repeat apply lor_u32|].
  erewrite bind_Ok by exact E2.
  assert (Hpg : pg a = a) by (unfold pg; lia).
  assert (Hcur : ∀ va, pg va = a → map_entry a pa perm st va = Z.lor (Z.lor pa perm) st).
  { intros va Hva. unfold map_entry. rewrite Hva, Z.sub_diag, Z.add_0_r, u32_small; done. }
  rewrite Hpg in Hp2. destruct (Z.eqb_spec a last) as [->|Hne].
  - exists 0, (last + PGSIZE), s2, F1. split_and!; [done|by eapply vm_step_trans|by left|done|lia|].
    intros va Hva. rewrite Hp2, Hp1 by done. case_decide as Hd.
    + rewrite Hcur by done. within_cases; (done || lia).
    + unfold pg in *. within_cases; try done; Z.div_mod_to_equations; lia.
  - assert (Hstep : a + PGSIZE ≤ last) by (destruct (page_disjoint a last); (done || lia)).
    rewrite (u32_small (a + PGSIZE)) by lia.
    destruct (IH (a + PGSIZE) (u32 (pa + PGSIZE)) s2 F1)
      as (r & b & s3 & F3 & E3 & Hs3 & Hr & Hok & Hused & Hp3); try done; try lia;
      [apply Hs2|apply Hs2|apply u32_range|by rewrite Z.add_mod, Ha by lia|].
    assert (PDX last - PDX (a + PGSIZE) + needs_table (k_mem s2) pgdir (a + PGSIZE) ≤ PDX last - PDX a) as Hneed.
    { unfold needs_table. rewrite (PDX_eq (a + PGSIZE)), (PDX_eq a) in * by (unfold is_u32; lia).
      destruct (next_PDX a) as [Hq|Hq]; rewrite Hq in *; [|case_match; lia].
      rewrite Htab2, Ht by (split; [apply Z.div_pos; lia|apply Z.div_lt_upper_bound; lia]). lia. }
    exists r, b, s3, F3. split_and!; [done|by eapply vm_step_trans; [|eapply vm_step_trans]| |intros; apply Hok; lia|lia|].
    { destruct Hr as [?|(? & ? & ?)]; [by left|right; split_and!; (done || lia)]. }
    intros va Hva. rewrite Hp3, Hp2, Hp1 by done.
    assert (Hmap : map_entry (a + PGSIZE) (u32 (pa + PGSIZE)) perm st va = map_entry a pa perm st va).
    { unfold map_entry. do 2 f_equal. unfold u32. rewrite Zplus_mod_idemp_l. f_equal. lia. }
    rewrite Hmap. case_decide as Hd.
    + rewrite Hcur, Hd by done. within_cases; (done || lia).
    + unfold pg in *. destruct Hr as [[_ ->]|(_ & ? & _)];
        within_cases; try done; Z.div_mod_to_equations; lia.
Qed.

Lemma PGROUNDDOWN_pg a : is_u32 a → PGROUNDDOWN a = pg a.
Proof. apply PGROUNDDOWN_eq. Qed.

Lemma pg_spec x : pg x mod PGSIZE = 0 ∧ pg x ≤ x < pg x + PGSIZE.
Proof. unfold pg. Z.div_mod_to_equations. lia. Qed.

Lemma PDX_pg a : is_u32 a → PDX (pg a) = PDX a.
Proof.
  intros Ha. rewrite !PDX_eq; [|done|unfold is_u32, pg in *; Z.div_mod_to_equations; lia].
  unfold pg. change (2 ^ 22) with (4096 * 1024). rewrite <-!Z.div_div by lia. f_equal.
  Z.div_mod_to_equations. lia.
Qed.

Lemma mappages_run pgdir va size pa perm st s F :
  kmem_rep s F → pt_wf (k_mem s) pgdir F → is_u32 pa → is_u32 perm → is_u32 st →
  0 ≤ va → 0 < size → va + size ≤ 2 ^ 32 →
  ∃ r b s' F', mappages pgdir va size pa perm st s = Ok (r, s') ∧
    vm_step pgdir s F s' F' ∧
    (r = 0 ∧ b = pg (va + size - 1) + PGSIZE ∨ r = -1 ∧ pg va ≤ b ≤ pg (va + size - 1) ∧ F' = []) ∧
    (PDX (va + size - 1) - PDX va + needs_table (k_mem s) pgdir va ≤ Z.of_nat (length F) → r = 0) ∧
    Z.of_nat (length F) - Z.of_nat (length F') ≤ PDX (va + size - 1) - PDX va + needs_table (k_mem s) pgdir va ∧
    ∀ va', is_u32 va' → pte_of (k_mem s') pgdir va' =
      if within (pg va') (pg va) (b - pg va) then map_entry (pg va) pa perm st va'
      else pte_of (k_mem s) pgdir va'.
Proof.
  intros HF Hwf Hpa Hpe Hst Hva Hsz Hmax. unfold mappages.
  assert (Hu : is_u32 va ∧ is_u32 (va + size - 1)) by (unfold is_u32; lia). destruct Hu as [Hu1 Hu2].
  rewrite (u32_small (va + size - 1)) by apply Hu2.
  rewrite !PGROUNDDOWN_pg by done.
  destruct (pg_spec va) as [Hm1 Hr1], (pg_spec (va + size - 1)) as [Hm2 Hr2].
  assert (Hle : pg va ≤ pg (va + size - 1)) by (unfold pg; Z.div_mod_to_equations; lia).
  assert (0 ≤ pg va) by (unfold pg; Z.div_mod_to_equations; lia).
  rewrite <-(PDX_pg va), <-(PDX_pg (va + size - 1)) by done.
  replace (needs_table (k_mem s) pgdir va) with (needs_table (k_mem s) pgdir (pg va))
    by (unfold needs_table; by rewrite PDX_pg).
  apply mappages_loop_spec; try done; try lia.
  - Z.div_mod_to_equations; lia.
  - rewrite u32_small by lia. Z.div_mod_to_equations; lia.
Qed.

(** One page whose table exists: no page is taken from the free list. *)
Lemma mappages_one pgdir va pa perm st s F t :
  kmem_rep s F → pt_wf (k_mem s) pgdir F → is_u32 pa → is_u32 perm → is_u32 st →
  is_u32 va → va mod PGSIZE = 0 → table (k_mem s) pgdir (PDX va) = Some t →
  ∃ s', mappages pgdir va PGSIZE pa perm st s = Ok (0, s') ∧ vm_step pgdir s F s' F ∧
    (∀ i, 0 ≤ i < 1024 → table (k_mem s') pgdir i = table (k_mem s) pgdir i) ∧
    (∀ va', is_u32 va' → pte_of (k_mem s') pgdir va' =
       if decide (pg va' = va) then map_entry va pa perm st va else pte_of (k_mem s) pgdir va') ∧
    ∀ x, pg x ≠ t → k_mem s' x = k_mem s x.
Proof.
  intros HF Hwf Hpa Hpe Hst Hva Hal Ht. unfold mappages.
  assert (Hlast : is_u32 (va + PGSIZE - 1)).
  { unfold is_u32 in *. change (2 ^ 32) with (4096 * 1048576) in *. Z.div_mod_to_equations. lia. }
  rewrite (u32_small (va + PGSIZE - 1)), !PGROUNDDOWN_pg by done.
  assert (Hpg : pg va = va) by (unfold pg; lia).
  rewrite (pg_eq va (va + PGSIZE - 1)) by (done || lia). rewrite Hpg, Z.sub_diag.
  change (u32 0 / PGSIZE) with 0. cbn [mappages_loop Z.to_nat].
  rewrite (bind_Ok _ _ _ _ _ (walk_present s pgdir va true t F Hwf Hva Ht)).
  destruct (pw_tab _ _ _ Hwf _ _ (PDX_range va Hva) Ht) as (Hok & _ & _).
  rewrite (proj2 (Z.eqb_neq _ _)) by (apply entry_nonzero; [done|by apply PTX_range]).
  assert (Hme : map_entry va pa perm st va = Z.lor (Z.lor pa perm) st).
  { unfold map_entry. by rewrite Hpg, Z.sub_diag, Z.add_0_r, u32_small. }
  destruct (set_pte s pgdir F va t (map_entry va pa perm st va)) as (s' & E & Hs & Htab & Hp & Hout);
    try done; [by apply map_entry_u32|].
  exists s'. rewrite Hpg in Hp. split; [|done].
  rewrite Hme in E. rewrite (bind_Ok _ _ _ _ _ E). by rewrite Z.eqb_refl.
Qed.

(** What the hardware makes of a page table: physical address and flags. *)
Definition translate (m : mem) (pgdir va : Z) : option (Z * Z) :=
  let e := pte_of m pgdir va in
  if Z.testbit e 0 then Some (PTE_ADDR e + va mod PGSIZE, PTE_FLAGS e) else None.

Lemma map_entry_translate a pa perm st va : is_u32 (pa + (pg va - a)) →
  (pa + (pg va - a)) mod PGSIZE = 0 → 0 ≤ Z.lor perm st < PGSIZE →
  let e := map_entry a pa perm st va in
  Z.testbit e 0 = Z.testbit (Z.lor perm st) 0 ∧ PTE_ADDR e = pa + (pg va - a) ∧
  PTE_FLAGS e = Z.lor perm st.
Proof.
  intros Hu Hm Hfl. unfold map_entry. rewrite u32_small, <-Z.lor_assoc by done.
  destruct (pte_flags (pa + (pg va - a)) (Z.lor perm st)) as (? & ? & Hb); try done.
  by rewrite Hb by lia.
Qed.

(** [mappages] as the hardware sees it: if it returns 0, every address of the
    pages of [va, va + size) is translated to the frame that follows [pa], with
    the given permissions, and every other address as before; it returns -1 only
    when the free list has fewer pages than the range needs tables. *)
Lemma mappages_translate pgdir va size pa perm st s F :
  kmem_rep s F → pt_wf (k_mem s) pgdir F → 0 ≤ va → 0 < size → va + size ≤ 2 ^ 32 →
  pa mod PGSIZE = 0 → 0 ≤ pa → pa + (pg (va + size - 1) - pg va) < 2 ^ 32 → is_u32 perm → is_u32 st →
  0 ≤ Z.lor perm st < PGSIZE →
  ∃ r s' F', mappages pgdir va size pa perm st s = Ok (r, s') ∧ vm_step pgdir s F s' F' ∧
    Z.of_nat (length F) - Z.of_nat (length F') ≤ PDX (va + size - 1) - PDX va + needs_table (k_mem s) pgdir va ∧
    (∀ va', is_u32 va' → ¬ (pg va ≤ va' < pg (va + size - 1) + PGSIZE) → translate (k_mem s') pgdir va' = translate (k_mem s) pgdir va') ∧
    (r = -1 ∧ F' = [] ∧
       ¬ (PDX (va + size - 1) - PDX va + needs_table (k_mem s) pgdir va ≤ Z.of_nat (length F)) ∨
     r = 0 ∧ ∀ va', pg va ≤ va' < pg (va + size - 1) + PGSIZE → translate (k_mem s') pgdir va' =
       if Z.testbit (Z.lor perm st) 0 then Some (pa + (va' - pg va), Z.lor perm st) else None).
Proof.
  intros HF Hwf Hva Hsz Hmax Hpa Hpa0 Hpmax Hpe Hst Hfl.
  pose proof (pg_spec va) as [Hm Hr]. pose proof (pg_spec (va + size - 1)) as [Hml Hrl].
  assert (Hle : pg va ≤ pg (va + size - 1)) by (unfold pg; Z.div_mod_to_equations; lia).
  destruct (mappages_run pgdir va size pa perm st s F) as (r & b & s' & F' & E & Hs & Hb & Hok & Hused & Hp);
    try done; [unfold is_u32; lia|].
  exists r, s', F'. split_and!; try done.
  { intros va' Hva' Hout. unfold translate. rewrite Hp by done. pose proof (pg_spec va') as [Hm' Hr'].
    destruct Hb as [[_ ->]|(_ & ? & _)]; within_cases; try done; Z.div_mod_to_equations; lia. }
  destruct Hb as [[-> ->]|(-> & _ & ->)]; [right; split; [done|]|left; split_and!; [done|done|naive_solver]].
  intros va' Hin. pose proof (pg_spec va') as [Hm' Hr']. assert (Hva' : is_u32 va') by (unfold is_u32; Z.div_mod_to_equations; lia).
  unfold translate. rewrite Hp by done.
  assert (pg va ≤ pg va' ≤ pg (va + size - 1)) by (split; Z.div_mod_to_equations; lia).
  replace (within (pg va') (pg va) _) with true by (symmetry; unfold within; rewrite (proj2 (Z.leb_le _ _)), (proj2 (Z.ltb_lt _ _)) by lia; done).
  destruct (map_entry_translate (pg va) pa perm st va') as (-> & -> & ->); try done.
  - unfold is_u32 in *. lia.
  - Z.div_mod_to_equations. lia.
  - replace (va' mod PGSIZE) with (va' - pg va') by (unfold pg; lia).
    destruct (Z.testbit _ 0); [|done]. do 2 f_equal. lia.
Qed.

(** * Freeing user memory *)

(** The frame mapped at [va], as a kernel address. *)
Definition frame_of (m : mem) (pgdir va : Z) : option Z :=
  let e := pte_of m pgdir va in
  if negb (Z.land e PTE_P =? 0) then Some (P2V (PTE_ADDR e)) else None.

(** The byte that a program sees at [va]. *)
Definition user_byte (m : mem) (pgdir va : Z) : option Z := '(pa, _) ← translate m pgdir va; Some (m (P2V pa)).

Lemma user_byte_frame m pgdir va : (∀ g, frame_of m pgdir va = Some g → page_ok g) →
  user_byte m pgdir va = g ← frame_of m pgdir va; Some (m (g + va mod PGSIZE)).
Proof.
  intros Hok. unfold user_byte, translate, frame_of in *.
  destruct (Z.eqb_spec (Z.land (pte_of m pgdir va) PTE_P) 0) as [E|E]; cbn [negb] in *.
  - apply land_1 in E. by rewrite E.
  - assert (Z.testbit (pte_of m pgdir va) 0 = true) as ->.
    { destruct (Z.testbit _ 0) eqn:Eb; [done|]. destruct E. by apply land_1. }
    cbn. do 2 f_equal. destruct (Hok _ eq_refl) as (Hal & Hlo & Hhi). revert Hal Hlo Hhi.
    unfold P2V, u32. pose proof (Z.mod_pos_bound va PGSIZE ltac:(lia)). Z.to_euclidean_division_equations. lia.
Qed.

(** Below [hi] every frame is a page of its own, neither free nor a table. *)
Record um_wf (m : mem) (pgdir : Z) (F : list Z) (hi : Z) : Prop := {
  uw_frame : ∀ va v, 0 ≤ va < hi → frame_of m pgdir va = Some v →
    page_ok v ∧ v ∉ F ∧ ¬ owned m pgdir v;
  uw_inj : ∀ va va' v, 0 ≤ va < hi → 0 ≤ va' < hi →
    frame_of m pgdir va = Some v → frame_of m pgdir va' = Some v → pg va = pg va'
}.

(** The bytes of a page that is mapped. *)
Lemma read_vaddr_run s pgdir F va g : pt_wf (k_mem s) pgdir F → is_u32 va → page_ok g →
  frame_of (k_mem s) pgdir va = Some g →
  read_vaddr pgdir va s = Ok (Some (read_bytes (k_mem s) g (Z.to_nat PGSIZE)), s).
Proof.
  intros Hwf Hva Hg Hfr. unfold read_vaddr. rewrite u32_small by done.
  unfold frame_of in Hfr. destruct (Z.eqb_spec (Z.land (pte_of (k_mem s) pgdir va) PTE_P) 0) as [|Hp]; [done|].
  simpl in Hfr. apply (inj Some) in Hfr. pose proof Hfr as Hg'.
  unfold pte_of in Hp, Hfr. destruct (table (k_mem s) pgdir (PDX va)) as [t|] eqn:Ht; [|done].
  pose proof (PTX_range va Hva) as Hx.
  destruct (pw_tab _ _ _ Hwf _ _ (PDX_range va Hva) Ht) as (Hok & _ & _).
  rewrite (bind_Ok _ _ _ _ _ (walk_present s pgdir va false t F Hwf Hva Ht)).
  rewrite (proj2 (Z.eqb_neq _ _)) by (by apply entry_nonzero).
  erewrite bind_Ok by (unfold ldw; by rewrite entry_mapped).
  destruct (Z.eqb_spec (load32 (k_mem s) (t + 4 * PTX va)) 0) as [E|_]; [by rewrite E in Hp|].
  rewrite Hfr. unfold kread. erewrite bind_Ok; [reflexivity|].
  rewrite (page_ok_mapped g); [done|done|lia|lia].
Qed.

Lemma read_vaddr_none s pgdir F va : pt_wf (k_mem s) pgdir F → is_u32 va →
  pte_of (k_mem s) pgdir va = 0 → read_vaddr pgdir va s = Ok (None, s).
Proof.
  intros Hwf Hva Hp. unfold read_vaddr. rewrite u32_small by done. unfold pte_of in Hp.
  destruct (table (k_mem s) pgdir (PDX va)) as [t|] eqn:Ht.
  - pose proof (PTX_range va Hva). destruct (pw_tab _ _ _ Hwf _ _ (PDX_range va Hva) Ht) as (Hok & _ & _).
    rewrite (bind_Ok _ _ _ _ _ (walk_present s pgdir va false t F Hwf Hva Ht)).
    rewrite (proj2 (Z.eqb_neq _ _)) by (by apply entry_nonzero).
    erewrite bind_Ok by (unfold ldw; by rewrite entry_mapped). by rewrite Hp.
  - by rewrite (bind_Ok _ _ _ _ _ (walk_absent s pgdir va F Hwf Hva Ht)).
Qed.

(** A page table depends on its own pages only. *)
Lemma pt_frame m m' pgdir F : pt_wf m pgdir F →
  (∀ x, owned m pgdir (pg x) → m' x = m x) →
  (∀ i, 0 ≤ i < 1024 → table m' pgdir i = table m pgdir i) ∧
  (∀ v, owned m' pgdir v ↔ owned m pgdir v) ∧
  ∀ va, is_u32 va → pte_of m' pgdir va = pte_of m pgdir va.
Proof.
  intros Hwf Hm. assert (Htab : ∀ i, 0 ≤ i < 1024 → table m' pgdir i = table m pgdir i).
  { intros i Hi. apply table_ext, load32_ext. intros x Hx. apply Hm. left.
    apply pg_eq; [apply (pw_dir _ _ _ Hwf)|lia]. }
  split_and!; [done| |].
  - intros v. unfold owned. split; (intros [->|(i & Hi & Hv)]; [by left|right; exists i]);
      [by rewrite <-Htab|by rewrite Htab].
  - intros va Hva. pose proof (PDX_range va Hva) as Hi. pose proof (PTX_range va Hva).
    unfold pte_of. rewrite Htab by done. destruct (table m pgdir (PDX va)) as [t|] eqn:Ht; [|done].
    apply load32_ext. intros x Hx. apply Hm. right. exists (PDX va). split; [done|].
    rewrite Ht. f_equal. symmetry. apply pg_eq; [|lia]. by apply (pw_tab _ _ _ Hwf _ _ Hi Ht).
Qed.

Lemma pt_wf_frame m m' pgdir F F' : pt_wf m pgdir F →
  (∀ x, owned m pgdir (pg x) → m' x = m x) → (∀ v, owned m pgdir v → v ∉ F') →
  pt_wf m' pgdir F'.
Proof.
  intros Hwf Hm HF'. destruct (pt_frame m m' pgdir F Hwf Hm) as (Htab & _ & _).
  destruct Hwf as [Hd HdF Ht Hinj]. split; [done|by apply HF'; left| |].
  - intros i t Hi. rewrite Htab by done. intros Hit. destruct (Ht i t Hi Hit) as (? & _ & ?).
    split_and!; try done. apply HF'. right. by exists i.
  - intros i j t Hi Hj. rewrite !Htab by done. by apply Hinj.
Qed.

Lemma owned_aligned m pgdir F v : pt_wf m pgdir F → owned m pgdir v → page_ok v.
Proof. intros Hwf [->|(i & Hi & Hv)]; [apply Hwf|by apply (pw_tab _ _ _ Hwf i)]. Qed.

Lemma owned_not_free m pgdir F w : pt_wf m pgdir F → owned m pgdir w → w ∉ F.
Proof. intros Hwf [->|(i & Hi & Ht)]; [apply Hwf|by apply (pw_tab _ _ _ Hwf i w Hi)]. Qed.

Lemma frame_of_pte m m' pgdir va :
  pte_of m pgdir va = pte_of m' pgdir va → frame_of m pgdir va = frame_of m' pgdir va.
Proof. unfold frame_of. by intros ->. Qed.

(** One page of [deallocuvm]: its frame is freed and its entry cleared. *)
Lemma dealloc_page s pgdir F hi a t v : kmem_rep s F → pt_wf (k_mem s) pgdir F →
  um_wf (k_mem s) pgdir F hi → is_u32 a → a < hi → hi ≤ 2 ^ 32 →
  table (k_mem s) pgdir (PDX a) = Some t → frame_of (k_mem s) pgdir a = Some v →
  ∃ s', (kfree v;; stw (t + 4 * PTX a) 0) s = Ok (tt, s') ∧
    kmem_rep s' (v :: F) ∧ pt_wf (k_mem s') pgdir (v :: F) ∧ um_wf (k_mem s') pgdir (v :: F) hi ∧
    (∀ i, 0 ≤ i < 1024 → table (k_mem s') pgdir i = table (k_mem s) pgdir i) ∧
    (∀ va, is_u32 va → pte_of (k_mem s') pgdir va =
       if decide (pg va = pg a) then 0 else pte_of (k_mem s) pgdir va) ∧
    ∀ x, ¬ owned (k_mem s) pgdir (pg x) → pg x ≠ v → k_mem s' x = k_mem s x.
Proof.
  intros HF Hwf Hum Ha Hahi Hhi Ht Hv. assert (Hr : 0 ≤ a < hi) by (unfold is_u32 in *; lia).
  destruct (uw_frame _ _ _ _ Hum a v Hr Hv) as (Hok & HvF & Hvo).
  erewrite bind_Ok by (apply kfree_run; [done|by eapply kr_lock]).
  pose proof (freed_rep s F v Hok HvF HF) as HF1.
  assert (Hsame : ∀ x, owned (k_mem s) pgdir (pg x) → k_mem (freed s v) x = k_mem s x).
  { intros x Hx. apply freed_out. apply pg_ne; [apply Hok|]. by intros <-. }
  assert (Hwf1 : pt_wf (k_mem (freed s v)) pgdir (v :: F)).
  { eapply pt_wf_frame; [done..|]. intros w Hw [->|HwF]%elem_of_cons; [done|].
    destruct Hw as [->|(i & Hi & Hw)]; [by apply (pw_dir_free _ _ _ Hwf)|].
    by destruct (pw_tab _ _ _ Hwf i w Hi Hw) as (_ & ? & _). }
  destruct (pt_frame _ _ _ _ Hwf Hsame) as (Htab1 & Hown1 & Hpte1).
  destruct (set_pte (freed s v) pgdir (v :: F) a t 0) as (s2 & E2 & Hs2 & Htab2 & Hpte2 & Hout2);
    try done; [by rewrite Htab1 by (by apply PDX_range)|].
  assert (Hpte : ∀ va, is_u32 va → pte_of (k_mem s2) pgdir va =
    if decide (pg va = pg a) then 0 else pte_of (k_mem s) pgdir va).
  { intros va Hva. rewrite Hpte2 by done. case_decide; [done|by apply Hpte1]. }
  assert (Htab : ∀ i, 0 ≤ i < 1024 → table (k_mem s2) pgdir i = table (k_mem s) pgdir i).
  { intros i Hi. by rewrite Htab2, Htab1. }
  assert (Hfr : ∀ va w, 0 ≤ va < hi → frame_of (k_mem s2) pgdir va = Some w →
    pg va ≠ pg a ∧ frame_of (k_mem s) pgdir va = Some w).
  { intros va w Hva. unfold frame_of. rewrite Hpte by (unfold is_u32; lia).
    case_decide; [by simpl|done]. }
  exists s2. split_and!; try done; try apply Hs2.
  - split.
    + intros va w Hva Hw. destruct (Hfr va w Hva Hw) as [Hpg Hw'].
      destruct (uw_frame _ _ _ _ Hum va w Hva Hw') as (? & ? & Hwo). split_and!; [done| |].
      * intros [->|?]%elem_of_cons; [|done]. apply Hpg. by apply (uw_inj _ _ _ _ Hum va a v).
      * intros [->|(i & Hi & Hwi)]; apply Hwo; [by left|right; exists i]. by rewrite <-Htab.
    + intros va va' w Hva Hva' Hw Hw'.
      by apply (uw_inj _ _ _ _ Hum va va' w); [..|apply Hfr|apply Hfr].
  - intros x Hx Hxv. rewrite Hout2; [|intros Hxt; apply Hx; right; exists (PDX a); rewrite Hxt;
      split; [by apply PDX_range|done]]. apply freed_out. apply pg_ne; [apply Hok|done].
Qed.

Definition present (e : Z) : bool := negb (Z.land e PTE_P =? 0).

(** What freeing the pages of [a, hi) does. *)
Record dealloc_post (pgdir a hi top : Z) (s : kmem_state) (F : list Z)
    (s' : kmem_state) (F' : list Z) : Prop := {
  dp_rep : kmem_rep s' F';
  dp_wf : pt_wf (k_mem s') pgdir F';
  dp_um : um_wf (k_mem s') pgdir F' top;
  dp_tab : ∀ i, 0 ≤ i < 1024 → table (k_mem s') pgdir i = table (k_mem s) pgdir i;
  dp_pte : ∀ va, is_u32 va → pte_of (k_mem s') pgdir va =
    if within (pg va) a (hi - a) && present (pte_of (k_mem s) pgdir va) then 0
    else pte_of (k_mem s) pgdir va;
  dp_free : ∀ v, v ∈ F' ↔ v ∈ F ∨
    ∃ va, a ≤ va < hi ∧ va mod PGSIZE = 0 ∧ frame_of (k_mem s) pgdir va = Some v;
  dp_frame : ∀ x, ¬ owned (k_mem s) pgdir (pg x) → pg x ∉ F' → k_mem s' x = k_mem s x
}.

Lemma owned_tab m m' pgdir v :
  (∀ i, 0 ≤ i < 1024 → table m' pgdir i = table m pgdir i) → owned m' pgdir v ↔ owned m pgdir v.
Proof.
  intros Htab. unfold owned. split; (intros [->|(i & Hi & Hv)]; [by left|right; exists i]);
    [by rewrite <-Htab|by rewrite Htab].
Qed.

(** Nothing to free up to [b], the rest freed from there. *)
Lemma dealloc_skip pgdir a b hi top s F s' F' :
  (∀ va, is_u32 va → a ≤ pg va < b → present (pte_of (k_mem s) pgdir va) = false) →
  a ≤ b → 0 ≤ a → top ≤ 2 ^ 32 → hi ≤ top →
  dealloc_post pgdir b hi top s F s' F' → dealloc_post pgdir a hi top s F s' F'.
Proof.
  intros Hno Hab Ha Htop Hhi [H1 H2 H3 H4 H5 H6 H7]. split; try done.
  - intros va Hva. rewrite H5 by done.
    destruct (decide (a ≤ pg va < b)) as [Hin|Hin].
    + by rewrite Hno, !andb_false_r.
    + within_cases; try done; lia.
  - intros v. rewrite H6. split; (intros [?|(va & Hva & Hm & Hv)]; [by left|right; exists va]).
    { split_and!; (done || lia). }
    split_and!; try done; [|lia]. destruct (decide (b ≤ va)); [done|exfalso].
    assert (Hpg : pg va = va) by (unfold pg; lia).
    unfold frame_of in Hv. specialize (Hno va ltac:(unfold is_u32; lia)).
    unfold present in Hno. rewrite Hpg in Hno. rewrite Hno in Hv by lia. done.
Qed.

Lemma present_frame m pgdir va : present (pte_of m pgdir va) = true ↔ is_Some (frame_of m pgdir va).
Proof.
  unfold present, frame_of. destruct (negb _); [|split; [done|intros [? ?]; done]].
  split; eauto.
Qed.

(** The table of the 4 MB around [a] is missing. *)
Lemma no_table_no_entry m pgdir a va : is_u32 a → is_u32 va → table m pgdir (PDX a) = None →
  a ≤ pg va < (PDX a + 1) * 2 ^ 22 → present (pte_of m pgdir va) = false.
Proof.
  intros Ha Hva Ht Hin. pose proof (pg_spec va). unfold pte_of.
  assert (HP : PDX va = PDX a); [|by rewrite HP, Ht].
  rewrite !PDX_eq in * by done. pose proof (Z.div_mod a (2 ^ 22)). pose proof (Z.mod_pos_bound a (2 ^ 22)).
  pose proof (Z.div_mod (pg va) 4096). symmetry.
  apply (Z.div_unique _ _ _ (va - 2 ^ 22 * (a / 2 ^ 22))); [|lia].
  left. unfold is_u32 in *. lia.
Qed.

Lemma next_table a : is_u32 a → a < KERNBASE →
  u32 (u32 (PGADDR (PDX a + 1) 0 0 - PGSIZE) + PGSIZE) = (PDX a + 1) * 2 ^ 22 ∧
  a < (PDX a + 1) * 2 ^ 22 ∧ ((PDX a + 1) * 2 ^ 22) mod PGSIZE = 0.
Proof.
  intros Ha Hlt. unfold PGADDR. rewrite Z.shiftl_0_l, !Z.lor_0_r, Z.shiftl_mul_pow2 by lia.
  rewrite PDX_eq by done. unfold is_u32 in *.
  assert (0 ≤ a / 2 ^ 22 < 512) by (split; [apply Z.div_pos; lia|apply Z.div_lt_upper_bound; lia]).
  rewrite (u32_small ((_ + 1) * _)) by lia. rewrite (u32_small (_ - PGSIZE)) by lia.
  rewrite u32_small by lia. pose proof (Z.div_mod a (2 ^ 22)). pose proof (Z.mod_pos_bound a (2 ^ 22)).
  split_and!; [lia|lia|]. change (2 ^ 22) with (1024 * 4096). rewrite Z.mul_assoc. apply Z_mod_mult.
Qed.

Lemma dealloc_none pgdir a hi top s F : hi ≤ a → kmem_rep s F → pt_wf (k_mem s) pgdir F →
  um_wf (k_mem s) pgdir F top → dealloc_post pgdir a hi top s F s F.
Proof.
  intros Hhi HF Hwf Hum. split; try done.
  - intros va Hva. within_cases; (done || lia).
  - intros v. split; [by left|]. intros [?|(va & ? & _)]; [done|lia].
Qed.

Lemma aligned_next a va : a mod PGSIZE = 0 → va mod PGSIZE = 0 → a ≤ va → va ≠ a → a + PGSIZE ≤ va.
Proof. intros Ha Hva Hle Hne. destruct (page_disjoint a va); (done || lia). Qed.

(** The page at [a] freed first, then the rest. *)
Lemma dealloc_cons pgdir a hi top s F s1 s' F' v :
  a mod PGSIZE = 0 → 0 ≤ a < hi → hi ≤ top → top ≤ 2 ^ 32 →
  frame_of (k_mem s) pgdir a = Some v →
  (∀ i, 0 ≤ i < 1024 → table (k_mem s1) pgdir i = table (k_mem s) pgdir i) →
  (∀ va, is_u32 va → pte_of (k_mem s1) pgdir va =
     if decide (pg va = pg a) then 0 else pte_of (k_mem s) pgdir va) →
  (∀ x, ¬ owned (k_mem s) pgdir (pg x) → pg x ≠ v → k_mem s1 x = k_mem s x) →
  dealloc_post pgdir (a + PGSIZE) hi top s1 (v :: F) s' F' →
  dealloc_post pgdir a hi top s F s' F'.
Proof.
  intros Ha Har Hhi Htop Hv Htab Hpte Hout [H1 H2 H3 H4 H5 H6 H7].
  assert (Hpa : pg a = a) by (unfold pg; lia). rewrite Hpa in Hpte. split; try done.
  - intros i Hi. by rewrite H4, Htab.
  - intros va Hva. pose proof (pg_spec va) as [Hpm Hpr]. rewrite H5, Hpte by done. case_decide as Hd.
    + replace (present 0) with false by done. rewrite andb_false_r.
      destruct (present_frame (k_mem s) pgdir va) as [_ Hf]. unfold within. rewrite Hd, Hf.
      * within_cases; (done || lia).
      * exists v. rewrite <-Hv. unfold frame_of, pte_of.
        destruct (proj1 (pg_indices va a Hva ltac:(unfold is_u32; lia)) ltac:(congruence)) as [-> ->].
        done.
    + destruct (decide (a ≤ pg va)).
      * assert (a + PGSIZE ≤ pg va) by (apply aligned_next; (done || lia)).
        within_cases; (done || lia).
      * within_cases; try lia; done.
  - intros w. rewrite H6. split.
    + intros [[->|?]%elem_of_cons|(va & Hva & Hm & Hw)]; [right; exists a; split_and!; (done || lia)|by left|].
      right. exists va. split; [lia|]. split; [done|]. rewrite <-Hw. symmetry. apply frame_of_pte.
      rewrite Hpte by (unfold is_u32; lia). rewrite decide_False; [done|]. unfold pg. lia.
    + intros [?|(va & Hva & Hm & Hw)]; [left; set_solver|].
      destruct (decide (va = a)) as [->|Hne]; [left; simplify_eq; set_solver|right]. exists va.
      pose proof (aligned_next a va Ha Hm ltac:(lia) Hne). split; [lia|]. split; [done|].
      rewrite <-Hw. apply frame_of_pte. rewrite Hpte by (unfold is_u32; lia).
      rewrite decide_False; [done|]. unfold pg. lia.
  - intros x Hx HxF. rewrite H7; [|by rewrite (owned_tab (k_mem s))|done]. apply Hout; [done|].
    intros Hxv. apply HxF, H6. left. rewrite Hxv. set_solver.
Qed.

Lemma deallocuvm_loop_spec fuel pgdir a hi s F :
  kmem_rep s F → pt_wf (k_mem s) pgdir F → um_wf (k_mem s) pgdir F KERNBASE →
  a mod PGSIZE = 0 → 0 ≤ a → hi ≤ KERNBASE → (0 < fuel)%nat → hi - a ≤ PGSIZE * (Z.of_nat fuel - 1) →
  ∃ s' F', deallocuvm_loop fuel pgdir a hi s = Ok (tt, s') ∧
    dealloc_post pgdir a hi KERNBASE s F s' F'.
Proof.
  revert a s F. induction fuel as [|fuel IH]; intros a s F HF Hwf Hum Ha Ha0 Hhi H0 Hfuel; [lia|].
  cbn [deallocuvm_loop]. destruct (Z.ltb_spec a hi) as [Hlt|Hge];
    [|exists s, F; split; [done|by apply dealloc_none]].
  assert (Hua : is_u32 a) by (unfold is_u32; lia).
  assert (Hnext : (a + PGSIZE) mod PGSIZE = 0) by (rewrite Z.add_mod, Ha by lia; done).
  destruct (table (k_mem s) pgdir (PDX a)) as [t|] eqn:Ht.
  - erewrite bind_Ok by (by eapply walk_present).
    assert (Htok : page_ok t) by (by apply (pw_tab _ _ _ Hwf _ _ (PDX_range a Hua) Ht)).
    pose proof (PTX_range a Hua) as Hj.
    destruct (Z.eqb_spec (t + 4 * PTX a) 0) as [E0|_]; [by apply entry_nonzero in E0|].
    erewrite bind_Ok by (unfold ldw; rewrite entry_mapped by done; reflexivity).
    replace (load32 (k_mem s) (t + 4 * PTX a)) with (pte_of (k_mem s) pgdir a)
      by (unfold pte_of; by rewrite Ht).
    rewrite (u32_small (a + PGSIZE)) by lia. fold (present (pte_of (k_mem s) pgdir a)).
    destruct (present (pte_of (k_mem s) pgdir a)) eqn:Hpr.
    + assert (Hf : frame_of (k_mem s) pgdir a = Some (P2V (PTE_ADDR (pte_of (k_mem s) pgdir a))))
        by (unfold frame_of, present in *; by rewrite Hpr).
      destruct (uw_frame _ _ _ _ Hum a _ ltac:(lia) Hf) as (Hvok & _).
      destruct (Z.eqb_spec (PTE_ADDR (pte_of (k_mem s) pgdir a)) 0) as [E|_].
      { rewrite E in Hvok. apply page_ok_range in Hvok as [Hk _]. exfalso. by apply Hk. }
      destruct (dealloc_page s pgdir F KERNBASE a t _ HF Hwf Hum Hua ltac:(lia) ltac:(lia) Ht Hf)
        as (s1 & E1 & HF1 & Hwf1 & Hum1 & Htab1 & Hp1 & Hout1).
      erewrite bind_Ok by exact E1.
      destruct (IH (a + PGSIZE) s1 _ HF1 Hwf1 Hum1) as (s' & F' & -> & Hpost); try done; try lia.
      exists s', F'. split; [done|]. eapply dealloc_cons; eauto; lia.
    + erewrite bind_Ok by done.
      destruct (IH (a + PGSIZE) s F HF Hwf Hum) as (s' & F' & -> & Hpost); try done; try lia.
      exists s', F'. split; [done|]. eapply dealloc_skip; [..|exact Hpost]; try lia.
      intros va Hva Hin. rewrite <-Hpr. f_equal.
      assert (Hpg : pg va = pg a).
      { pose proof (pg_spec va) as [Hm _]. unfold pg in *. Z.div_mod_to_equations. lia. }
      unfold pte_of. by apply pg_indices in Hpg as [-> ->].
  - erewrite bind_Ok by (by eapply walk_absent). cbn [Z.eqb].
    destruct (next_table a Hua ltac:(lia)) as (-> & Hgt & Hal).
    pose proof (aligned_next a _ Ha Hal ltac:(lia) ltac:(lia)).
    destruct (IH ((PDX a + 1) * 2 ^ 22) s F HF Hwf Hum) as (s' & F' & -> & Hpost); try done; try lia.
    exists s', F'. split; [done|]. eapply dealloc_skip; [..|exact Hpost]; try lia.
    intros va Hva Hin. by apply (no_table_no_entry _ _ a).
Qed.

Lemma deallocuvm_run pgdir oldsz newsz s F :
  kmem_rep s F → pt_wf (k_mem s) pgdir F → um_wf (k_mem s) pgdir F KERNBASE →
  0 ≤ newsz < oldsz → oldsz ≤ KERNBASE →
  ∃ s' F', deallocuvm pgdir oldsz newsz s = Ok (newsz, s') ∧
    dealloc_post pgdir (PGROUNDUP newsz) oldsz KERNBASE s F s' F'.
Proof.
  intros HF Hwf Hum Hnew Hold. unfold deallocuvm. destruct (Z.leb_spec oldsz newsz); [lia|].
  assert (HP : PGROUNDUP newsz mod PGSIZE = 0 ∧ 0 ≤ PGROUNDUP newsz).
  { rewrite PGROUNDUP_eq by lia. split; [apply Z_mod_mult|]. Z.div_mod_to_equations. lia. }
  destruct (deallocuvm_loop_spec (S (Z.to_nat (oldsz / PGSIZE + 1))) pgdir (PGROUNDUP newsz) oldsz s F)
    as (s' & F' & E & Hpost); try done; try lia.
  { pose proof (Z.div_mod oldsz 4096). pose proof (Z.mod_pos_bound oldsz 4096). lia. }
  exists s', F'. split; [|done]. by erewrite bind_Ok by exact E.
Qed.

(** C14. [deallocuvm] shrinks a process from [oldsz] to [newsz]: it returns
    the new size, clears the entries of the pages from [newsz] up that are
    present and no other, and puts exactly their frames on the free list;
    without anything to do it returns [oldsz] and changes nothing. *)
Theorem deallocuvm_frees_range pgdir oldsz newsz s F :
  kmem_rep s F → pt_wf (k_mem s) pgdir F → um_wf (k_mem s) pgdir F KERNBASE →
  0 ≤ newsz → 0 ≤ oldsz ≤ KERNBASE →
  ∃ s' F', deallocuvm pgdir oldsz newsz s = Ok (Z.min oldsz newsz, s') ∧
    kmem_rep s' F' ∧ pt_wf (k_mem s') pgdir F' ∧ um_wf (k_mem s') pgdir F' KERNBASE ∧
    (oldsz ≤ newsz → s' = s ∧ F' = F) ∧
    (newsz < oldsz →
      (∀ va, is_u32 va → pte_of (k_mem s') pgdir va =
         if (PGROUNDUP newsz <=? pg va) && (pg va <? oldsz) && present (pte_of (k_mem s) pgdir va)
         then 0 else pte_of (k_mem s) pgdir va) ∧
      ∀ v, v ∈ F' ↔ v ∈ F ∨ ∃ va, PGROUNDUP newsz ≤ va < oldsz ∧ va mod PGSIZE = 0 ∧
        frame_of (k_mem s) pgdir va = Some v).
Proof.
  intros HF Hwf Hum Hnew Hold. destruct (decide (oldsz ≤ newsz)) as [Hle|Hlt].
  - exists s, F. unfold deallocuvm. destruct (Z.leb_spec oldsz newsz); [|lia].
    rewrite Z.min_l by done. split_and!; (done || lia).
  - destruct (deallocuvm_run pgdir oldsz newsz s F) as (s' & F' & E & [H1 H2 H3 H4 H5 H6 H7]);
      try done; [lia..|].
    exists s', F'. rewrite Z.min_r by lia. split_and!; try done.
    intros _. split; [|done]. intros va Hva. rewrite H5 by done. unfold within.
    by replace (PGROUNDUP newsz + (oldsz - PGROUNDUP newsz)) with oldsz by lia.
Qed.

Lemma freevm_loop_spec n pgdir i s F : kmem_rep s F → page_ok pgdir → pgdir ∉ F →
  0 ≤ i → i + Z.of_nat n = 1024 →
  (∀ j t, i ≤ j < 1024 → table (k_mem s) pgdir j = Some t → page_ok t ∧ t ∉ F ∧ t ≠ pgdir) →
  (∀ j k t, i ≤ j < 1024 → i ≤ k < 1024 →
     table (k_mem s) pgdir j = Some t → table (k_mem s) pgdir k = Some t → j = k) →
  ∃ s' F', freevm_loop n pgdir i s = Ok (tt, s') ∧ kmem_rep s' F' ∧ pgdir ∉ F' ∧
    (∀ v, v ∈ F' ↔ v ∈ F ∨ ∃ j, i ≤ j < 1024 ∧ table (k_mem s) pgdir j = Some v) ∧
    ∀ x, pg x ∉ F' → k_mem s' x = k_mem s x.
Proof.
  revert i s F. induction n as [|n IH]; intros i s F HF Hd HdF Hi Hn Ht Hinj.
  { exists s, F. split_and!; try done. intros v. split; [by left|]. intros [?|(j & ? & _)]; [done|lia]. }
  cbn [freevm_loop].
  erewrite bind_Ok by (unfold ldw; rewrite entry_mapped by (done || lia); reflexivity).
  destruct (table (k_mem s) pgdir i) as [t|] eqn:Hti.
  - destruct (Ht i t ltac:(lia) Hti) as (Htok & HtF & Htd).
    assert (E : (if negb (Z.land (load32 (k_mem s) (pgdir + 4 * i)) PTE_P =? 0)
      then kfree (P2V (PTE_ADDR (load32 (k_mem s) (pgdir + 4 * i)))) else mret tt) s
      = Ok (tt, freed s t)).
    { unfold table in Hti. destruct (negb _); simplify_eq. apply kfree_run; [done|by eapply kr_lock]. }
    erewrite bind_Ok by exact E.
    assert (Htab : ∀ j, 0 ≤ j < 1024 → table (k_mem (freed s t)) pgdir j = table (k_mem s) pgdir j).
    { intros j Hj. apply table_ext, load32_ext. intros x Hx. apply freed_out, pg_ne; [apply Htok|].
      rewrite (pg_eq pgdir); [done|apply Hd|lia]. }
    destruct (IH (i + 1) (freed s t) (t :: F)) as (s' & F' & -> & HF' & HdF' & Hin & Hout);
      try done; try lia.
    + by apply freed_rep.
    + set_solver.
    + intros j t' Hj. rewrite Htab by lia. intros Hjt. destruct (Ht j t' ltac:(lia) Hjt) as (? & ? & ?).
      split_and!; try done. intros [->|?]%elem_of_cons; [|done].
      pose proof (Hinj i j t ltac:(lia) ltac:(lia) Hti Hjt). lia.
    + intros j k t' Hj Hk. rewrite !Htab by lia. apply Hinj; lia.
    + exists s', F'. split_and!; try done.
      * intros v. rewrite Hin, elem_of_cons. split.
        -- intros [[->|?]|(j & Hj & Hv)]; [right; exists i; split; [lia|done]|by left|].
           right. exists j. rewrite Htab in Hv by lia. split; [lia|done].
        -- intros [?|(j & Hj & Hv)]; [by left; right|].
           destruct (decide (j = i)) as [->|]; [left; left; congruence|].
           right. exists j. rewrite Htab by lia. split; [lia|done].
      * intros x Hx. rewrite Hout by done. apply freed_out, pg_ne; [apply Htok|].
        intros Hxt. apply Hx, Hin. left. rewrite Hxt. set_solver.
  - assert (E : (if negb (Z.land (load32 (k_mem s) (pgdir + 4 * i)) PTE_P =? 0)
      then kfree (P2V (PTE_ADDR (load32 (k_mem s) (pgdir + 4 * i)))) else mret tt) s = Ok (tt, s)).
    { unfold table in Hti. by destruct (negb _). }
    erewrite bind_Ok by exact E.
    destruct (IH (i + 1) s F) as (s' & F' & -> & HF' & HdF' & Hin & Hout); try done; try lia.
    { intros j t Hj. apply Ht. lia. }
    { intros j k t Hj Hk. apply Hinj; lia. }
    exists s', F'. split_and!; try done. intros v. rewrite Hin.
    split; (intros [?|(j & Hj & Hv)]; [by left|right; exists j; split; [|done]]); [lia|].
    destruct (decide (j = i)) as [->|]; [congruence|lia].
Qed.

(** [freevm] gives back everything a process holds: its page directory,
    its page tables and every frame mapped below [KERNBASE], each once, and
    writes to no other page. *)
Lemma freevm_run pgdir s F :
  kmem_rep s F → pt_wf (k_mem s) pgdir F → um_wf (k_mem s) pgdir F KERNBASE →
  ∃ s' F', freevm pgdir s = Ok (tt, s') ∧ kmem_rep s' F' ∧
    (∀ v, v ∈ F' ↔ v ∈ F ∨ owned (k_mem s) pgdir v ∨
       ∃ va, 0 ≤ va < KERNBASE ∧ va mod PGSIZE = 0 ∧ frame_of (k_mem s) pgdir va = Some v) ∧
    ∀ x, pg x ∉ F' → k_mem s' x = k_mem s x.
Proof.
  intros HF Hwf Hum. pose proof (pw_dir _ _ _ Hwf) as Hd. unfold freevm.
  destruct (Z.eqb_spec pgdir 0) as [E|_]; [apply page_ok_range in Hd; lia|].
  destruct (deallocuvm_run pgdir KERNBASE 0 s F) as (s1 & F1 & E1 & [H1 H2 H3 H4 H5 H6 H7]);
    try done. erewrite bind_Ok by exact E1.
  destruct (freevm_loop_spec (Z.to_nat NPDENTRIES) pgdir 0 s1 F1)
    as (s2 & F2 & E2 & HF2 & HdF2 & Hin2 & Hout2); try done; [apply H2|apply H2|apply H2|].
  erewrite bind_Ok by exact E2. rewrite kfree_run by (done || by eapply kr_lock).
  exists (freed s2 pgdir), (pgdir :: F2).
  assert (Hin : ∀ v, v ∈ pgdir :: F2 ↔ v ∈ F ∨ owned (k_mem s) pgdir v ∨
    ∃ va, 0 ≤ va < KERNBASE ∧ va mod PGSIZE = 0 ∧ frame_of (k_mem s) pgdir va = Some v).
  { intros v. rewrite elem_of_cons, Hin2, H6. change (PGROUNDUP 0) with 0. unfold owned. split.
    - intros [->|[[?|?]|(j & Hj & Hv)]]; [by right; left; left|by left|by right; right|].
      right; left; right. exists j. by rewrite <-H4.
    - intros [?|[[->|(j & Hj & Hv)]|?]]; [by right; left; left|by left| |by right; left; right].
      right; right. exists j. by rewrite H4. }
  split_and!; try done; [by apply freed_rep|]. intros x Hx.
  apply not_elem_of_cons in Hx as [Hxd Hx2].
  rewrite freed_out by (apply pg_ne; [apply Hd|done]). rewrite Hout2 by done.
  apply H7.
  - intros Ho. assert (Hc : pg x ∈ pgdir :: F2) by (apply Hin; by right; left). by apply elem_of_cons in Hc as [?|?].
  - intros HxF. apply Hx2, Hin2. by left.
Qed.

(** An empty page directory. *)
Lemma pt_wf_empty m pgdir F : page_ok pgdir → pgdir ∉ F →
  (∀ x, pgdir ≤ x < pgdir + PGSIZE → m x = 0) →
  pt_wf m pgdir F ∧ ∀ va, is_u32 va → pte_of m pgdir va = 0.
Proof.
  intros Hd HdF Hm. assert (Ht : ∀ i, 0 ≤ i < 1024 → table m pgdir i = None).
  { intros i Hi. unfold table. rewrite load32_zero; [done|]. intros x Hx. apply Hm. lia. }
  split.
  - split; try done; intros i; intros; rewrite Ht in * by done; done.
  - intros va Hva. unfold pte_of. by rewrite Ht by (by apply PDX_range).
Qed.

(** An address space with one user page, at 0, mapped to the frame [f]. *)
Lemma one_page_frames pgdir p f : page_ok pgdir → page_ok p → page_ok f →
  p ≠ pgdir → p ≠ f → f ≠ pgdir →
  ∃ s, kmem_rep s [] ∧ pt_wf (k_mem s) pgdir [] ∧ um_wf (k_mem s) pgdir [] KERNBASE ∧
    (∀ va, 0 ≤ va < KERNBASE → frame_of (k_mem s) pgdir va = if decide (pg va = pg 0) then Some f else None) ∧
    ∀ v, owned (k_mem s) pgdir v → v = pgdir ∨ v = p.
Proof.
  intros Hd Hp Hf Hpd Hpf Hfd.
  assert (HF0 : kmem_rep (freed (kmem_bss (λ _, 0)) p) [p]).
  { apply freed_rep; [done|set_solver|]. split; try done; by apply NoDup_nil. }
  pose proof (freed_out (kmem_bss (λ _, 0)) p) as Hfo. cbn [k_mem kmem_bss] in Hfo.
  revert HF0 Hfo. generalize (freed (kmem_bss (λ _, 0)) p). intros s0 HF0 Hfo.
  assert (Hz : ∀ x, pg x = pgdir → k_mem s0 x = 0).
  { intros x Hx. apply Hfo, pg_ne; [apply Hp|congruence]. }
  assert (Hz' : ∀ i, 0 ≤ i < 1024 → table (k_mem s0) pgdir i = None).
  { intros i Hi. unfold table. rewrite load32_zero; [done|]. intros x Hx. apply Hz, pg_eq; [apply Hd|lia]. }
  destruct (pt_wf_empty (k_mem s0) pgdir [p]) as [Hwf0 Hp0]; [done|set_solver| |].
  { intros x Hx. apply Hz, pg_eq; [apply Hd|done]. }
  destruct (walk_alloc s0 pgdir 0 [p] HF0 Hwf0) as [(? & _)|(t & s1 & F1 & _ & Hs1 & Ht & Hp1 & _)]; [done..|].
  assert (HF1 : F1 = []).
  { destruct (vs_suffix _ _ _ _ _ Hs1) as [[|q G] HG]; simplify_list_eq; [|by destruct G; simplify_list_eq].
    exfalso. assert (Ho : owned (k_mem s1) pgdir t) by (right; exists (PDX 0); done).
    apply (vs_owned _ _ _ _ _ Hs1) in Ho as [[->|(i & Hi & Hit)]|[? ?]]; [| |set_solver].
    - by apply (pw_tab _ _ _ (vs_wf _ _ _ _ _ Hs1) (PDX 0) pgdir).
    - by rewrite Hz' in Hit. }
  subst F1. destruct (V2P_page f Hf) as (Hu & Hm & _).
  destruct (pte_flags (V2P f) 7) as (Ha & _ & Hb); [done..|].
  destruct (set_pte s1 pgdir [] 0 t (Z.lor (V2P f) 7)) as (s2 & _ & Hs2 & _ & Hp2 & _);
    try done; [apply Hs1|apply Hs1|by apply lor_u32|].
  assert (Hfr : ∀ va, 0 ≤ va < KERNBASE → frame_of (k_mem s2) pgdir va =
    if decide (pg va = pg 0) then Some f else None).
  { intros va Hva. unfold frame_of. rewrite Hp2, Hp1, Hp0 by (unfold is_u32; lia). case_decide; [|done].
    destruct (Z.eqb_spec (Z.land (Z.lor (V2P f) 7) PTE_P) 0) as [E|_].
    - apply land_1 in E. rewrite Hb in E by lia. done.
    - rewrite Ha, V2P_P2V by (by apply page_ok_u32). done. }
  assert (Hown : ∀ v, owned (k_mem s2) pgdir v → v = pgdir ∨ v = p).
  { intros v. rewrite (vs_owned _ _ _ _ _ Hs2), (vs_owned _ _ _ _ _ Hs1).
    intros [[[->|(i & Hi & Hit)]|[Hv _]]|[Hv _]];
      [by left| |right; by apply list_elem_of_singleton in Hv|by apply elem_of_nil in Hv].
    by rewrite Hz' in Hit. }
  exists s2. split_and!; [apply Hs2|apply Hs2| |done|done].
  split.
  - intros va v Hva. rewrite Hfr by done. case_decide; [|done]. intros [= <-]. split_and!; [done|set_solver|].
    rewrite (vs_owned _ _ _ _ _ Hs2), (vs_owned _ _ _ _ _ Hs1). intros [[[->|(i & Hi & Hit)]|?]|?];
      [done| |set_solver|set_solver].
    by rewrite Hz' in Hit.
  - intros va va' v Hva Hva'. rewrite !Hfr by done. repeat case_decide; congruence.
Qed.

Lemma one_page_space pgdir p f : page_ok pgdir → page_ok p → page_ok f →
  p ≠ pgdir → p ≠ f → f ≠ pgdir →
  ∃ s, kmem_rep s [] ∧ pt_wf (k_mem s) pgdir [] ∧ um_wf (k_mem s) pgdir [] KERNBASE ∧
    frame_of (k_mem s) pgdir 0 = Some f ∧ ∀ v, owned (k_mem s) pgdir v → v = pgdir ∨ v = p.
Proof.
  intros H1 H2 H3 H4 H5 H6. destruct (one_page_frames pgdir p f H1 H2 H3 H4 H5 H6) as (s & ? & ? & ? & Hfr & ?).
  exists s. split_and!; try done. by rewrite Hfr.
Qed.
End vm.

Lemma sample_page_ok v : v mod PGSIZE = 0 → 0x80116000 ≤ v → v + PGSIZE ≤ KERNBASE + PHYSTOP →
  page_ok (H := sample_image) v.
Proof. done. Qed.

Lemma deallocuvm_frees_range_witness :
  ∃ s s' F', frame_of (k_mem s) 0x80200000 0 = Some 0x80400000 ∧
    deallocuvm (H := sample_image) 0x80200000 0x1000 0 s = Ok (0, s') ∧ 0x80400000 ∈ F' ∧
    kmem_rep (H := sample_image) s' F'.
Proof.
  destruct (@one_page_space sample_image sample_image_ok 0x80200000 0x80300000 0x80400000)
    as (s & HF & Hwf & Hum & Hf & _); [by apply sample_page_ok..|done|done|done|].
  destruct (@deallocuvm_frees_range sample_image sample_image_ok 0x80200000 0x1000 0 s [])
    as (s' & F' & E & HF' & _ & _ & _ & Hfree); try done.
  exists s, s', F'. split_and!; try done. apply Hfree; [done|]. right. exists 0. done.
Defined.

