(* ===== verification/Segments.v ===== *)
(** Segment and gate descriptors: the macros of mmu.h, [seginit], [switchkvm] and
    [switchuvm] of vm.c, [tvinit] and [idtinit] of trap.c.

    A descriptor is its fields, as in C, and the two words that the compiler
    lays them out in; [base_of] and the functions after it are how the processor
    reads those words (Intel SDM, volume 3).  The addresses of the tables and of
    the entry points in vectors.S are parameters. *)

From Stdlib Require Import ZArith Lia.
From stdpp Require Import base functions numbers strings option gmap sets list list_numbers.
From S2P Require Import Prelude Spinlock Mem Kalloc Cpus.

Abbreviation SEG_KCODE := 1%nat.
Abbreviation SEG_KDATA := 2%nat.
Abbreviation SEG_UCODE := 3%nat.
Abbreviation SEG_UDATA := 4%nat.
Abbreviation SEG_TSS := 5%nat.
Abbreviation DPL_USER := 3.
Abbreviation STA_X := 8.
Abbreviation STA_W := 2.
Abbreviation STA_R := 2.
Abbreviation STS_T32A := 9.
Abbreviation STS_IG32 := 14.
Abbreviation STS_TG32 := 15.
Abbreviation TRAP_SYSCALL := 64.

(** * Descriptors *)

Record segdesc := Segdesc {
  lim_15_0 : Z; base_15_0 : Z; base_23_16 : Z; sd_type : Z; sd_s : Z; sd_dpl : Z; sd_p : Z;
  lim_19_16 : Z; sd_avl : Z; sd_rsv1 : Z; sd_db : Z; sd_g : Z; base_31_24 : Z
}.

Definition SEG (type base lim dpl : Z) : segdesc :=
  Segdesc (Z.land (Z.shiftr lim 12) 0xffff) (Z.land base 0xffff) (Z.land (Z.shiftr base 16) 0xff) type 1 dpl 1
    (Z.shiftr lim 28) 0 0 1 1 (Z.shiftr base 24).
Definition SEG16 (type base lim dpl : Z) : segdesc :=
  Segdesc (Z.land lim 0xffff) (Z.land base 0xffff) (Z.land (Z.shiftr base 16) 0xff) type 1 dpl 1
    (Z.shiftr lim 16) 0 0 1 0 (Z.shiftr base 24).
(** [gdt[SEG_TSS].s = 0] *)
Definition set_s (v : Z) (d : segdesc) : segdesc :=
  Segdesc (lim_15_0 d) (base_15_0 d) (base_23_16 d) (sd_type d) v (sd_dpl d) (sd_p d)
    (lim_19_16 d) (sd_avl d) (sd_rsv1 d) (sd_db d) (sd_g d) (base_31_24 d).

Record gatedesc := Gatedesc {
  off_15_0 : Z; gd_cs : Z; gd_args : Z; gd_rsv1 : Z; gd_type : Z; gd_s : Z; gd_dpl : Z; gd_p : Z; off_31_16 : Z
}.

Definition SETGATE (istrap : bool) (sel off d : Z) : gatedesc :=
  Gatedesc (Z.land off 0xffff) sel 0 0 (if istrap then STS_TG32 else STS_IG32) 0 d 1 (Z.shiftr off 16).

(** ** In memory *)

Definition seg_lo (d : segdesc) : Z := lim_15_0 d + 2 ^ 16 * base_15_0 d.
Definition seg_hi (d : segdesc) : Z :=
  base_23_16 d + 2 ^ 8 * sd_type d + 2 ^ 12 * sd_s d + 2 ^ 13 * sd_dpl d + 2 ^ 15 * sd_p d + 2 ^ 16 * lim_19_16 d +
  2 ^ 20 * sd_avl d + 2 ^ 21 * sd_rsv1 d + 2 ^ 22 * sd_db d + 2 ^ 23 * sd_g d + 2 ^ 24 * base_31_24 d.
Definition gate_lo (g : gatedesc) : Z := off_15_0 g + 2 ^ 16 * gd_cs g.
Definition gate_hi (g : gatedesc) : Z :=
  gd_args g + 2 ^ 5 * gd_rsv1 g + 2 ^ 8 * gd_type g + 2 ^ 12 * gd_s g + 2 ^ 13 * gd_dpl g + 2 ^ 15 * gd_p g + 2 ^ 16 * off_31_16 g.

(** ** What the processor reads *)

Definition base_of (lo hi : Z) : Z := lo / 2 ^ 16 + 2 ^ 16 * (hi mod 2 ^ 8) + 2 ^ 24 * (hi / 2 ^ 24).
Definition limit_of (lo hi : Z) : Z :=
  let l := lo mod 2 ^ 16 + 2 ^ 16 * (hi / 2 ^ 16 mod 2 ^ 4) in
  if hi / 2 ^ 23 mod 2 =? 1 then 2 ^ 12 * l + 0xfff else l.
Definition type_of (hi : Z) : Z := hi / 2 ^ 8 mod 2 ^ 4.
Definition s_of (hi : Z) : Z := hi / 2 ^ 12 mod 2.
Definition dpl_of (hi : Z) : Z := hi / 2 ^ 13 mod 2 ^ 2.
Definition p_of (hi : Z) : Z := hi / 2 ^ 15 mod 2.
Definition sel_of (lo : Z) : Z := lo / 2 ^ 16.
Definition off_of (lo hi : Z) : Z := lo mod 2 ^ 16 + 2 ^ 16 * (hi / 2 ^ 16).

(** * The processors *)

Record taskstate := Ts { ts_esp0 : Z; ts_ss0 : Z; ts_iomb : Z }.

(** The table, the task state and the registers of a CPU: gdtr and idtr with
    base and limit, tr, cr3. *)
Record hwcpu := Hw {
  hw_gdt : list segdesc; hw_ts : taskstate; hw_gdtr : Z * Z; hw_idtr : Z * Z; hw_tr : Z; hw_cr3 : Z
}.

Record pmach := PMach { pm_machine : machine; pm_hw : list hwcpu; pm_idt : list gatedesc; pm_kpgdir : Z }.
Definition PMC : lens pmach machine := Lens pm_machine (λ x s, PMach x (pm_hw s) (pm_idt s) (pm_kpgdir s)).

Section segments.
(** The addresses of [cpus[i].gdt], [cpus[i].ts] and [idt], and the table [vectors]. *)
Variables (gdt_addr ts_addr : nat → Z) (idt_addr : Z) (vectors : Z → Z).

Definition on_cpu (i : nat) (f : hwcpu → hwcpu) : M pmach unit :=
  mmod (λ s, PMach (pm_machine s) (alter f i (pm_hw s)) (pm_idt s) (pm_kpgdir s)).
Definition set_gdt (n : nat) (d : segdesc) (h : hwcpu) : hwcpu :=
  Hw (<[n := d]> (hw_gdt h)) (hw_ts h) (hw_gdtr h) (hw_idtr h) (hw_tr h) (hw_cr3 h).
Definition set_ts (t : taskstate) (h : hwcpu) : hwcpu :=
  Hw (hw_gdt h) t (hw_gdtr h) (hw_idtr h) (hw_tr h) (hw_cr3 h).
Definition lgdt (p size : Z) (h : hwcpu) : hwcpu :=
  Hw (hw_gdt h) (hw_ts h) (p, size - 1) (hw_idtr h) (hw_tr h) (hw_cr3 h).
Definition lidt (p size : Z) (h : hwcpu) : hwcpu :=
  Hw (hw_gdt h) (hw_ts h) (hw_gdtr h) (p, size - 1) (hw_tr h) (hw_cr3 h).
Definition ltr (sel : Z) (h : hwcpu) : hwcpu :=
  Hw (hw_gdt h) (hw_ts h) (hw_gdtr h) (hw_idtr h) sel (hw_cr3 h).
Definition lcr3 (v : Z) (h : hwcpu) : hwcpu :=
  Hw (hw_gdt h) (hw_ts h) (hw_gdtr h) (hw_idtr h) (hw_tr h) v.

(** The CPU that runs, and its local APIC id. *)
Variables (me : nat) (a : Z).

Definition cpuid : M pmach nat := zoom PMC (mycpu a).

Definition seginit : M pmach unit :=
  c ← cpuid;
  on_cpu c (set_gdt SEG_KCODE (SEG (Z.lor STA_X STA_R) 0 0xffffffff 0));;
  on_cpu c (set_gdt SEG_KDATA (SEG STA_W 0 0xffffffff 0));;
  on_cpu c (set_gdt SEG_UCODE (SEG (Z.lor STA_X STA_R) 0 0xffffffff DPL_USER));;
  on_cpu c (set_gdt SEG_UDATA (SEG STA_W 0 0xffffffff DPL_USER));;
  on_cpu me (lgdt (gdt_addr c) 48).

Definition switchkvm : M pmach unit := kpgdir ← mget pm_kpgdir; on_cpu me (lcr3 (V2P kpgdir)).

(** A process with its [kstack] and [pgdir]. *)
Definition switchuvm (p : option (Z * Z)) : M pmach unit :=
  match p with
  | None => mpanic "switchuvm: no process"
  | Some (kstack, pgdir) =>
      if kstack =? 0 then mpanic "switchuvm: no kstack"
      else if pgdir =? 0 then mpanic "switchuvm: no pgdir"
      else
        zoom PMC (pushcli a);;
        c ← zoom PMC (mycpu a);
        on_cpu c (set_gdt SEG_TSS (SEG16 STS_T32A (ts_addr c) 103 0));;
        on_cpu c (λ h, set_gdt SEG_TSS (from_option (set_s 0) (SEG 0 0 0 0) (hw_gdt h !! SEG_TSS)) h);;
        on_cpu c (λ h, set_ts (Ts (ts_esp0 (hw_ts h)) (Z.shiftl (Z.of_nat SEG_KDATA) 3) (ts_iomb (hw_ts h))) h);;
        on_cpu c (λ h, set_ts (Ts (u32 (kstack + 4096)) (ts_ss0 (hw_ts h)) (ts_iomb (hw_ts h))) h);;
        on_cpu c (λ h, set_ts (Ts (ts_esp0 (hw_ts h)) (ts_ss0 (hw_ts h)) 0xFFFF) h);;
        on_cpu me (ltr (Z.shiftl (Z.of_nat SEG_TSS) 3));;
        on_cpu me (lcr3 (V2P pgdir));;
        zoom PMC (popcli a)
  end.

Definition set_idt (i : Z) (g : gatedesc) : M pmach unit :=
  mmod (λ s, PMach (pm_machine s) (pm_hw s) (<[Z.to_nat i := g]> (pm_idt s)) (pm_kpgdir s)).

Fixpoint tvinit_loop (n : nat) (i : Z) : M pmach unit :=
  match n with
  | O => mret tt
  | S n => set_idt i (SETGATE false (Z.shiftl (Z.of_nat SEG_KCODE) 3) (vectors i) 0);; tvinit_loop n (i + 1)
  end.

Definition tvinit : M pmach unit :=
  tvinit_loop 256 0;;
  set_idt TRAP_SYSCALL (SETGATE true (Z.shiftl (Z.of_nat SEG_KCODE) 3) (vectors TRAP_SYSCALL) DPL_USER).

Definition idtinit : M pmach unit := on_cpu me (lidt idt_addr 2048).
End segments.

(** * Descriptors are read back *)

Record seg_fits (d : segdesc) : Prop := {
  sf1 : 0 ≤ lim_15_0 d < 2 ^ 16; sf2 : 0 ≤ base_15_0 d < 2 ^ 16; sf3 : 0 ≤ base_23_16 d < 2 ^ 8; sf4 : 0 ≤ sd_type d < 2 ^ 4;
  sf5 : 0 ≤ sd_s d < 2; sf6 : 0 ≤ sd_dpl d < 2 ^ 2; sf7 : 0 ≤ sd_p d < 2; sf8 : 0 ≤ lim_19_16 d < 2 ^ 4; sf9 : 0 ≤ sd_avl d < 2;
  sf10 : 0 ≤ sd_rsv1 d < 2; sf11 : 0 ≤ sd_db d < 2; sf12 : 0 ≤ sd_g d < 2; sf13 : 0 ≤ base_31_24 d < 2 ^ 8
}.

Section decode.
Variable d : segdesc.
Hypothesis Hd : seg_fits d.

Lemma base_of_seg : base_of (seg_lo d) (seg_hi d) = base_15_0 d + 2 ^ 16 * base_23_16 d + 2 ^ 24 * base_31_24 d.
Proof. destruct Hd. unfold base_of, seg_lo, seg_hi. Z.to_euclidean_division_equations; lia. Qed.

Lemma type_of_seg : type_of (seg_hi d) = sd_type d.
Proof. destruct Hd. unfold type_of, seg_hi. Z.to_euclidean_division_equations; lia. Qed.

Lemma s_of_seg : s_of (seg_hi d) = sd_s d.
Proof. destruct Hd. unfold s_of, seg_hi. Z.to_euclidean_division_equations; lia. Qed.

Lemma dpl_of_seg : dpl_of (seg_hi d) = sd_dpl d.
Proof. destruct Hd. unfold dpl_of, seg_hi. Z.to_euclidean_division_equations; lia. Qed.

Lemma p_of_seg : p_of (seg_hi d) = sd_p d.
Proof. destruct Hd. unfold p_of, seg_hi. Z.to_euclidean_division_equations; lia. Qed.

Lemma limit_of_seg : limit_of (seg_lo d) (seg_hi d) =
  let l := lim_15_0 d + 2 ^ 16 * lim_19_16 d in if sd_g d =? 1 then 2 ^ 12 * l + 0xfff else l.
Proof.
  destruct Hd. unfold limit_of. cbv zeta.
  assert (seg_lo d mod 2 ^ 16 = lim_15_0 d) as -> by (unfold seg_lo; Z.to_euclidean_division_equations; lia).
  assert (seg_hi d / 2 ^ 16 mod 2 ^ 4 = lim_19_16 d) as -> by (unfold seg_hi; Z.to_euclidean_division_equations; lia).
  assert (seg_hi d / 2 ^ 23 mod 2 = sd_g d) as -> by (unfold seg_hi; Z.to_euclidean_division_equations; lia). done.
Qed.
End decode.

Lemma SEG_fits type base lim dpl : 0 ≤ type < 2 ^ 4 → is_u32 base → is_u32 lim → 0 ≤ dpl < 2 ^ 2 → seg_fits (SEG type base lim dpl).
Proof.
  unfold is_u32. intros. split; cbn [SEG lim_15_0 base_15_0 base_23_16 sd_type sd_s sd_dpl sd_p lim_19_16 sd_avl sd_rsv1 sd_db sd_g base_31_24];
    try change 0xffff with (Z.ones 16); try change 0xff with (Z.ones 8); rewrite ?Z.land_ones, ?Z.shiftr_div_pow2 by lia;
    Z.to_euclidean_division_equations; lia.
Qed.

(** What a descriptor means: base, limit, privilege level, type, present, whether it
    is a code or data segment. *)
Definition means (d : segdesc) (base limit dpl type p s : Z) : Prop :=
  base_of (seg_lo d) (seg_hi d) = base ∧ limit_of (seg_lo d) (seg_hi d) = limit ∧ dpl_of (seg_hi d) = dpl ∧
  type_of (seg_hi d) = type ∧ p_of (seg_hi d) = p ∧ s_of (seg_hi d) = s.

(** [SEG] with a limit in pages. *)
Lemma SEG_means type base lim dpl : 0 ≤ type < 2 ^ 4 → is_u32 base → is_u32 lim → 0 ≤ dpl < 2 ^ 2 →
  means (SEG type base lim dpl) base (2 ^ 12 * (lim / 2 ^ 12) + 0xfff) dpl type 1 1.
Proof.
  intros Ht Hb Hl Hd. pose proof (SEG_fits type base lim dpl Ht Hb Hl Hd) as Hf. unfold means.
  rewrite base_of_seg, limit_of_seg, dpl_of_seg, type_of_seg, p_of_seg, s_of_seg by done.
  cbn [SEG lim_15_0 base_15_0 base_23_16 sd_type sd_s sd_dpl sd_p lim_19_16 sd_avl sd_rsv1 sd_db sd_g base_31_24].
  change 0xffff with (Z.ones 16). change 0xff with (Z.ones 8). rewrite !Z.land_ones, !Z.shiftr_div_pow2 by lia.
  unfold is_u32 in *. split_and!; try done; [Z.to_euclidean_division_equations; lia|]. change (1 =? 1) with true. cbn iota.
  Z.to_euclidean_division_equations; lia.
Qed.

(** The descriptor of the task state, with a limit in bytes. *)
Lemma TSS_means type base lim dpl : 0 ≤ type < 2 ^ 4 → is_u32 base → 0 ≤ lim < 2 ^ 20 → 0 ≤ dpl < 2 ^ 2 →
  means (set_s 0 (SEG16 type base lim dpl)) base lim dpl type 1 0.
Proof.
  intros Ht Hb Hl Hd. assert (seg_fits (set_s 0 (SEG16 type base lim dpl))) as Hf.
  { unfold is_u32 in *. split; cbn; try change 0xffff with (Z.ones 16); try change 0xff with (Z.ones 8);
      rewrite ?Z.land_ones, ?Z.shiftr_div_pow2 by lia; Z.to_euclidean_division_equations; lia. }
  unfold means. rewrite base_of_seg, limit_of_seg, dpl_of_seg, type_of_seg, p_of_seg, s_of_seg by done.
  cbn [set_s SEG16 lim_15_0 base_15_0 base_23_16 sd_type sd_s sd_dpl sd_p lim_19_16 sd_avl sd_rsv1 sd_db sd_g base_31_24].
  change 0xffff with (Z.ones 16). change 0xff with (Z.ones 8). rewrite !Z.land_ones, !Z.shiftr_div_pow2 by lia.
  unfold is_u32 in *. change (0 =? 1) with false. cbn iota.
  split_and!; try done; Z.to_euclidean_division_equations; lia.
Qed.

(** What a gate means: selector and offset of the handler, privilege level, type. *)
Definition gate_means (g : gatedesc) (sel off dpl type : Z) : Prop :=
  sel_of (gate_lo g) = sel ∧ off_of (gate_lo g) (gate_hi g) = off ∧ dpl_of (gate_hi g) = dpl ∧ type_of (gate_hi g) = type ∧
  p_of (gate_hi g) = 1 ∧ s_of (gate_hi g) = 0.

Lemma SETGATE_means istrap sel off d : 0 ≤ sel → is_u32 off → 0 ≤ d < 2 ^ 2 →
  gate_means (SETGATE istrap sel off d) sel off d (if istrap then STS_TG32 else STS_IG32).
Proof.
  intros Hs Ho Hd. unfold gate_means, sel_of, off_of, dpl_of, type_of, p_of, s_of, gate_lo, gate_hi.
  cbn [SETGATE off_15_0 gd_cs gd_args gd_rsv1 gd_type gd_s gd_dpl gd_p off_31_16].
  change 0xffff with (Z.ones 16). rewrite Z.land_ones, Z.shiftr_div_pow2 by lia. unfold is_u32 in *.
  assert (0 ≤ (if istrap then STS_TG32 else STS_IG32) < 2 ^ 4) as Ht by (by destruct istrap).
  set (t := if istrap then STS_TG32 else STS_IG32) in *. clearbody t.
  split_and!; Z.to_euclidean_division_equations; lia.
Qed.

(** * The tables *)

(** The gates that [tvinit] makes. *)
Definition gate (vectors : Z → Z) (n : nat) : gatedesc :=
  if decide (n = 64%nat) then SETGATE true 8 (vectors 64) DPL_USER else SETGATE false 8 (vectors (Z.of_nat n)) 0.

Lemma tvinit_loop_spec vectors n : ∀ (i : nat) s, (i + n ≤ length (pm_idt s))%nat →
  ∃ s', tvinit_loop vectors n (Z.of_nat i) s = Ok (tt, s') ∧ pm_hw s' = pm_hw s ∧ pm_machine s' = pm_machine s ∧
    length (pm_idt s') = length (pm_idt s) ∧
    ∀ j, pm_idt s' !! j = if decide (i ≤ j < i + n)%nat then Some (SETGATE false 8 (vectors (Z.of_nat j)) 0) else pm_idt s !! j.
Proof.
  induction n as [|n IH]; intros i s Hlen.
  { exists s. split_and!; try done. intros j. by rewrite decide_False by lia. }
  cbn [tvinit_loop]. erewrite bind_Ok by reflexivity. rewrite Nat2Z.id.
  replace (Z.of_nat i + 1) with (Z.of_nat (S i)) by lia.
  edestruct (IH (S i)) as (s' & -> & H1 & H2 & H3 & H4); [cbn; rewrite length_insert; lia|].
  exists s'. split_and!; [done|done|done|by rewrite H3; cbn; rewrite length_insert|].
  intros j. rewrite H4. cbn [pm_idt]. destruct (decide (j = i)) as [->|Hne].
  - rewrite decide_False, decide_True, list_lookup_insert_eq by lia. done.
  - rewrite list_lookup_insert_ne by done. destruct (decide (S i ≤ j < S i + n)%nat); [by rewrite decide_True by lia|by rewrite decide_False by lia].
Qed.

Lemma tvinit_spec vectors s : length (pm_idt s) = 256%nat →
  ∃ s', tvinit vectors s = Ok (tt, s') ∧ pm_hw s' = pm_hw s ∧ pm_machine s' = pm_machine s ∧
    ∀ j, (j < 256)%nat → pm_idt s' !! j = Some (gate vectors j).
Proof.
  intros Hlen. unfold tvinit. destruct (tvinit_loop_spec vectors 256 0 s) as (s1 & E & H1 & H2 & H3 & H4); [lia|].
  erewrite bind_Ok by exact E. eexists. split; [reflexivity|]. split_and!; [done|done|]. intros j Hj. cbn [pm_idt]. unfold gate.
  change (Z.to_nat TRAP_SYSCALL) with 64%nat. destruct (decide (j = 64%nat)) as [->|Hne].
  - rewrite list_lookup_insert_eq by lia. done.
  - rewrite list_lookup_insert_ne, H4 by done. by rewrite decide_True by lia.
Qed.

(** * Entering the kernel *)

(** Entry [n] of the table that a descriptor table register names, a base and a
    limit, where [table] is the one at address [addr]. *)
Definition table_entry {A} (addr : Z) (table : list A) (r : Z * Z) (n : nat) : option A :=
  if (r.1 =? addr) && (8 * Z.of_nat n + 7 <=? r.2) then table !! n else None.

(** The gate for vector [n] that the processor finds by its [idtr], reached by an
    instruction at privilege level [cpl] or, with none, by the hardware: selector
    and offset of the handler, and whether interrupts stay on. *)
Definition enter (idt_addr : Z) (idt : list gatedesc) (h : hwcpu) (cpl : option Z) (n : nat) : option (Z * Z * bool) :=
  g ← table_entry idt_addr idt (hw_idtr h) n;
  let hi := gate_hi g in
  if (p_of hi =? 1) && match cpl with None => true | Some c => c <=? dpl_of hi end
  then Some (sel_of (gate_lo g), off_of (gate_lo g) hi, type_of hi =? STS_TG32) else None.

(** Segment [n] as the processor finds it by its [gdtr]. *)
Definition seg_means (gdt_addr : Z) (h : hwcpu) (n : nat) (base limit dpl type p s : Z) : Prop :=
  ∃ d, table_entry gdt_addr (hw_gdt h) (hw_gdtr h) n = Some d ∧ means d base limit dpl type p s.

Section running.
Variables (gdt_addr ts_addr : nat → Z) (idt_addr : Z) (vectors : Z → Z) (me : nat) (c : cpu).
Hypothesis Hts : is_u32 (ts_addr me).

(** The CPU runs with its structure in the table [cpus]. *)
Definition runs_on (s : pmach) (h : hwcpu) : Prop :=
  NoDup (apicid <$> cpus (pm_machine s)) ∧ cpus (pm_machine s) !! me = Some c ∧ pm_hw s !! me = Some h ∧ length (hw_gdt h) = 6%nat.

Lemma cpuid_run s h : runs_on s h → fl_if (pm_machine s) = false → cpuid (apicid c) s = Ok (me, s).
Proof.
  intros (Hnd & Hc & _) Hf. unfold cpuid, zoom. cbn [view PMC]. destruct s as [[cs f] hw idt kp]. cbn in *. subst f.
  by erewrite mycpu_run.
Qed.

Lemma on_cpu_run f s h : pm_hw s !! me = Some h → ∃ s', on_cpu me f s = Ok (tt, s') ∧ pm_hw s' !! me = Some (f h) ∧
  pm_machine s' = pm_machine s ∧ pm_idt s' = pm_idt s.
Proof. intros Hh. eexists. split; [reflexivity|]. cbn. by rewrite list_lookup_alter_eq, Hh. Qed.

Lemma seginit_spec s h : runs_on s h → fl_if (pm_machine s) = false →
  ∃ s' h', seginit gdt_addr me (apicid c) s = Ok (tt, s') ∧ runs_on s' h' ∧ pm_machine s' = pm_machine s ∧ pm_idt s' = pm_idt s ∧
    hw_gdtr h' = (gdt_addr me, 47) ∧
    seg_means (gdt_addr me) h' SEG_KCODE 0 0xffffffff 0 10 1 1 ∧ seg_means (gdt_addr me) h' SEG_KDATA 0 0xffffffff 0 2 1 1 ∧
    seg_means (gdt_addr me) h' SEG_UCODE 0 0xffffffff 3 10 1 1 ∧ seg_means (gdt_addr me) h' SEG_UDATA 0 0xffffffff 3 2 1 1.
Proof.
  intros Hr Hf. pose proof Hr as (Hnd & Hc & Hh & Hl). unfold seginit. erewrite bind_Ok by (by eapply cpuid_run).
  do 4 (erewrite bind_Ok by reflexivity). unfold on_cpu. cbn [pm_hw pm_machine pm_idt pm_kpgdir].
  eexists _, _. split; [reflexivity|]. unfold runs_on. cbn [pm_hw pm_machine pm_idt]. rewrite !list_lookup_alter_eq, Hh.
  cbn [fmap option_fmap option_map]. split_and!; try done.
  - cbn. by rewrite !length_insert.
  - eexists. split; [unfold table_entry; cbn -[Z.eqb]; rewrite Z.eqb_refl; cbn; rewrite !list_lookup_insert_ne by done; apply list_lookup_insert_eq; lia|]. by apply SEG_means.
  - eexists. split; [unfold table_entry; cbn -[Z.eqb]; rewrite Z.eqb_refl; cbn; rewrite !list_lookup_insert_ne by done; apply list_lookup_insert_eq; rewrite length_insert; lia|]. by apply SEG_means.
  - eexists. split; [unfold table_entry; cbn -[Z.eqb]; rewrite Z.eqb_refl; cbn; rewrite list_lookup_insert_ne by done; apply list_lookup_insert_eq; rewrite !length_insert; lia|]. by apply SEG_means.
  - eexists. split; [unfold table_entry; cbn -[Z.eqb]; rewrite Z.eqb_refl; cbn; apply list_lookup_insert_eq; rewrite !length_insert; lia|]. by apply SEG_means.
Qed.

(** The section between [pushcli] and [popcli]. *)
Lemma switchuvm_push s h : runs_on s h → 0 ≤ ncli c → (0 < ncli c → fl_if (pm_machine s) = false) →
  ∃ s1 c1, zoom PMC (pushcli (apicid c)) s = Ok (tt, s1) ∧ zoom PMC (mycpu (apicid c)) s1 = Ok (me, s1) ∧
    pm_hw s1 = pm_hw s ∧ pm_idt s1 = pm_idt s ∧
    ∀ s2, pm_machine s2 = pm_machine s1 → ∃ s3, zoom PMC (popcli (apicid c)) s2 = Ok (tt, s3) ∧ pm_hw s3 = pm_hw s2 ∧
      pm_idt s3 = pm_idt s2 ∧ pm_machine s3 = Machine (<[me := c1]> (cpus (pm_machine s))) (fl_if (pm_machine s)).
Proof.
  intros (Hnd & Hc & Hh & Hl) Hn Hoff. destruct s as [[cs f] hw idt kp]. cbn in *.
  set (c0 := pushed f c). assert (<[me := c0]> cs !! me = Some c0) as Hc0 by (apply list_lookup_insert_eq; by eapply lookup_lt_Some).
  assert (NoDup (apicid <$> <[me := c0]> cs)) as Hnd0.
  { rewrite <-(alter_at (λ _, c0) me cs c Hc). rewrite (alter_at _ _ _ _ Hc), list_fmap_insert. cbn.
    rewrite list_insert_id; [done|]. by rewrite list_lookup_fmap, Hc. }
  eexists _, (w_ncli (ncli c) c0). split; [unfold zoom; cbn; by rewrite (pushcli_run cs me c f Hnd Hc)|].
  pose proof (mycpu_run _ me c0 Hnd0 Hc0 : mycpu (apicid c) _ = _) as Hmy.
  split; [unfold zoom; cbn [view PMC pm_machine]; fold c0; by rewrite Hmy|].
  split_and!; [done|done|]. intros [m2 hw2 idt2 kp2]. cbn. intros ->. eexists. split.
  { assert (0 < ncli c0) as Hn0 by (cbn; lia). pose proof (popcli_run _ me c0 Hnd0 Hc0 Hn0 : popcli (apicid c) _ = _) as Hpo.
    unfold zoom. cbn [view PMC pm_machine]. fold c0. by rewrite Hpo. }
  split_and!; [done|done|]. cbn. rewrite list_insert_insert_eq. unfold popped_if. cbn.
  replace (ncli c + 1 - 1) with (ncli c) by lia. f_equal.
  destruct (Z.eqb_spec (ncli c) 0) as [E|E]; [done|]. cbn. symmetry. apply Hoff. lia.
Qed.

Lemma switchuvm_spec kstack pgdir s h : runs_on s h → 0 ≤ ncli c → (0 < ncli c → fl_if (pm_machine s) = false) → kstack ≠ 0 → pgdir ≠ 0 → 0 ≤ kstack → kstack + 4096 < 2 ^ 32 →
  ∃ s' h', switchuvm ts_addr me (apicid c) (Some (kstack, pgdir)) s = Ok (tt, s') ∧ pm_hw s' !! me = Some h' ∧ pm_idt s' = pm_idt s ∧
    fl_if (pm_machine s') = fl_if (pm_machine s) ∧
    (∃ d, hw_gdt h' !! SEG_TSS = Some d ∧ means d (ts_addr me) 103 0 STS_T32A 1 0) ∧
    hw_ts h' = Ts (kstack + 4096) 16 0xFFFF ∧ hw_tr h' = 40 ∧ hw_cr3 h' = V2P pgdir ∧ hw_gdtr h' = hw_gdtr h ∧ hw_idtr h' = hw_idtr h ∧
    ∀ n, n ≠ SEG_TSS → hw_gdt h' !! n = hw_gdt h !! n.
Proof.
  intros Hr Hn Hoff Hk Hp Hk0 Hk1. unfold switchuvm. rewrite !(proj2 (Z.eqb_neq _ _)) by done.
  destruct (switchuvm_push s h Hr Hn Hoff) as (s1 & c1 & Hpush & Hme & Hhw & Hidt & Hpop). pose proof Hr as (_ & _ & Hh & Hl).
  erewrite bind_Ok by exact Hpush. erewrite bind_Ok by exact Hme. do 7 (erewrite bind_Ok by reflexivity).
  unfold on_cpu. cbn [pm_hw pm_machine pm_idt pm_kpgdir]. set (s2 := PMach _ _ _ _).
  destruct (Hpop s2 eq_refl) as (s3 & -> & Hhw3 & Hidt3 & Hm3). exists s3. eexists. split; [done|].
  split; [rewrite Hhw3; cbn; rewrite !list_lookup_alter_eq, Hhw, Hh; reflexivity|].
  rewrite Hidt3, Hm3. split; [done|]. split; [done|].
  cbn [set_gdt set_ts ltr lcr3 hw_gdt hw_gdtr hw_idtr hw_ts hw_tr hw_cr3 ts_esp0 ts_ss0 ts_iomb]. rewrite (list_lookup_insert_eq (hw_gdt h)) by lia. cbn [from_option].
  rewrite u32_small by lia. split_and!; try done.
  - eexists. split; [apply list_lookup_insert_eq; cbn; rewrite ?length_insert; lia|]. by apply TSS_means.
  - intros n Hne. cbn. by rewrite !list_lookup_insert_ne by done.
Qed.
End running.

Lemma enter_gate idt_addr vectors idt h n cpl : (∀ i, is_u32 (vectors i)) → (n < 256)%nat →
  hw_idtr h = (idt_addr, 2047) → idt !! n = Some (gate vectors n) →
  match cpl with None => True | Some x => 0 < x ≤ 3 end →
  enter idt_addr idt h cpl n =
    if decide (cpl = None ∨ n = 64%nat) then Some (8, vectors (Z.of_nat n), bool_decide (n = 64%nat)) else None.
Proof.
  intros Hv Hn Hr Hg Hcpl. unfold enter, table_entry. rewrite Hr, Z.eqb_refl, Hg. cbn [fst snd andb].
  rewrite (proj2 (Z.leb_le _ _)) by lia. cbn [mbind option_bind]. unfold gate.
  destruct (decide (n = 64%nat)) as [->|Hne].
  - destruct (SETGATE_means true 8 (vectors 64) DPL_USER) as (-> & -> & -> & -> & -> & _); [done|done|done|].
    rewrite decide_True by auto. destruct cpl as [x|]; [|done]. rewrite (proj2 (Z.leb_le x 3)) by lia. done.
  - destruct (SETGATE_means false 8 (vectors (Z.of_nat n)) 0) as (-> & -> & -> & -> & -> & _); [done|done|done|].
    rewrite bool_decide_eq_false_2 by done. destruct cpl as [x|]; [|by rewrite decide_True by auto].
    rewrite decide_False by (intros [|]; done). rewrite (proj2 (Z.leb_gt x 0)) by lia. done.
Qed.

(** C16. After [tvinit], [seginit] and [idtinit], and [switchuvm] to a process, a
    user program enters the kernel only where it should: as the processor reads the
    tables its registers name, an int instruction at user level is allowed for the system call vector
    alone; exceptions and interrupts reach the entry point of their vector; all
    handlers run in the kernel code segment, which covers all memory at level 0, on
    the kernel stack of the process, with interrupts off except in system calls.
    The I/O bitmap lies beyond the task state, so that user code cannot do I/O. *)
Theorem user_entry_points gdt_addr ts_addr idt_addr vectors me c kstack pgdir s h :
  runs_on me c s h → fl_if (pm_machine s) = false → 0 ≤ ncli c → length (pm_idt s) = 256%nat →
  is_u32 (ts_addr me) → (∀ i, is_u32 (vectors i)) → kstack ≠ 0 → pgdir ≠ 0 → 0 ≤ kstack → kstack + 4096 < 2 ^ 32 →
  ∃ s' h', (tvinit vectors;; seginit gdt_addr me (apicid c);; idtinit idt_addr me;;
            switchuvm ts_addr me (apicid c) (Some (kstack, pgdir))) s = Ok (tt, s') ∧ pm_hw s' !! me = Some h' ∧
    (∀ n, (n < 256)%nat → enter idt_addr (pm_idt s') h' (Some 3) n = if decide (n = 64%nat) then Some (8, vectors 64, true) else None) ∧
    (∀ n, (n < 256)%nat → enter idt_addr (pm_idt s') h' None n = Some (8, vectors (Z.of_nat n), bool_decide (n = 64%nat))) ∧
    seg_means (gdt_addr me) h' (Z.to_nat (8 / 8)) 0 0xffffffff 0 10 1 1 ∧
    seg_means (gdt_addr me) h' SEG_UCODE 0 0xffffffff 3 10 1 1 ∧ seg_means (gdt_addr me) h' SEG_UDATA 0 0xffffffff 3 2 1 1 ∧
    seg_means (gdt_addr me) h' (Z.to_nat (hw_tr h' / 8)) (ts_addr me) 103 0 STS_T32A 1 0 ∧
    ts_esp0 (hw_ts h') = kstack + 4096 ∧ seg_means (gdt_addr me) h' (Z.to_nat (ts_ss0 (hw_ts h') / 8)) 0 0xffffffff 0 2 1 1 ∧
    103 < ts_iomb (hw_ts h') ∧ hw_cr3 h' = V2P pgdir.
Proof.
  intros (Hnd & Hc & Hh & Hl) Hf Hn Hidt Hts Hv Hk Hp Hk0 Hk1.
  destruct (tvinit_spec vectors s Hidt) as (s1 & E1 & Hhw1 & Hm1 & Hg1). erewrite bind_Ok by exact E1.
  destruct (seginit_spec gdt_addr me c s1 h) as (s2 & h2 & E2 & (Hnd2 & Hc2 & Hh2 & Hl2) & Hm2 & Hi2 & Hgr & K1 & K2 & K3 & K4).
  { split_and!; [by rewrite Hm1|by rewrite Hm1|by rewrite Hhw1|done]. }
  { by rewrite Hm1. }
  erewrite bind_Ok by exact E2.
  destruct (on_cpu_run me (lidt idt_addr 2048) s2 h2 Hh2) as (s3 & E3 & Hh3 & Hm3 & Hi3). erewrite bind_Ok by exact E3.
  destruct (switchuvm_spec ts_addr me c Hts kstack pgdir s3 (lidt idt_addr 2048 h2)) as (s' & h' & -> & Hh' & Hi' & _ & T & Et & Er & Ec & Hgr' & Hir' & Hkeep);
    [by split_and!; rewrite ?Hm3|done|intros _; by rewrite Hm3, Hm2, Hm1|done|done|done|done|].
  assert (∀ n, (n < 256)%nat → pm_idt s' !! n = Some (gate vectors n)) as Hgate by (intros n ?; rewrite Hi', Hi3, Hi2; by apply Hg1).
  assert (∀ n b l d t p q, n ≠ SEG_TSS → seg_means (gdt_addr me) h2 n b l d t p q → seg_means (gdt_addr me) h' n b l d t p q) as Hseg.
  { intros n b l d t p q Hne (x & Hx & Hmx). exists x. split; [|done]. unfold table_entry in *. by rewrite Hgr', Hkeep. }
  exists s', h'. rewrite Et, Er. split_and!; try done; try (by apply Hseg).
  - intros n Hlt. rewrite (enter_gate idt_addr vectors) by (done || auto). destruct (decide (n = 64%nat)) as [->|]; [done|]. by rewrite decide_False by (intros [|]; done).
  - intros n Hlt. rewrite (enter_gate idt_addr vectors) by (done || auto). by rewrite decide_True by auto.
  - change (Z.to_nat (40 / 8)) with SEG_TSS. destruct T as (d & Hd & Hmd). exists d. split; [|done].
    unfold table_entry. cbn [lidt hw_gdtr] in Hgr'. by rewrite Hgr', Hgr, Z.eqb_refl.
Qed.

(** One CPU, with tables at some addresses. *)
Definition demo_cpu : cpu := Cpu 0 0 false.
Definition demo_hw : hwcpu := Hw (replicate 6 (SEG 0 0 0 0)) (Ts 0 0 0) (0, 0) (0, 0) 0 0.
Definition demo_pmach : pmach := PMach (Machine [demo_cpu] false) [demo_hw] (replicate 256 (SETGATE false 0 0 0)) 0.
Definition demo_vectors (i : Z) : Z := u32 (0x80105000 + 10 * i).

Lemma user_entry_points_witness : ∃ s' h',
  (tvinit demo_vectors;; seginit (λ _, 0x80112000) 0 0;; idtinit 0x80113000 0;;
   switchuvm (λ _, 0x80112100) 0 0 (Some (0x8DFFF000, 0x8DFFE000))) demo_pmach = Ok (tt, s') ∧
  pm_hw s' !! 0%nat = Some h' ∧ enter 0x80113000 (pm_idt s') h' (Some 3) 14 = None ∧
  enter 0x80113000 (pm_idt s') h' (Some 3) 64 = Some (8, demo_vectors 64, true).
Proof.
  destruct (user_entry_points (λ _, 0x80112000) (λ _, 0x80112100) 0x80113000 demo_vectors 0 demo_cpu 0x8DFFF000 0x8DFFE000 demo_pmach demo_hw)
    as (s' & h' & E & Hh & Hu & _).
  - split_and!; try done. apply NoDup_singleton.
  - done.
  - done.
  - done.
  - done.
  - intros i. apply u32_range.
  - done.
  - done.
  - done.
  - done.
  - exists s', h'. split; [exact E|]. split; [exact Hh|]. split; [exact (Hu 14%nat ltac:(lia))|exact (Hu 64%nat ltac:(lia))].
Defined.
