(* ===== verification/Kvm.v ===== *)
(** The kernel part of every address space: [setupkvm] and [kvmalloc] of vm.c,
    and the first page of user memory that [inituvm] makes. *)

From Stdlib Require Import ZArith Lia.
From stdpp Require Import base functions numbers strings option gmap sets list list_numbers.
From S2P Require Import Prelude Spinlock Mem Kalloc Vm Cpus Segments.

(** [kvmalloc] sets a page directory up in memory and loads it on the CPU. *)
Record kboot := KBoot { b_km : kmem_state; b_pm : pmach }.
Definition BKM : lens kboot kmem_state := Lens b_km (λ x s, KBoot x (b_pm s)).
Definition BPM : lens kboot pmach := Lens b_pm (λ x s, KBoot (b_km s) x).

Section kvm.
Context `{KernelImage}.

Definition kvmalloc (me : nat) : M kboot unit :=
  kpgdir ← zoom BKM setupkvm;
  zoom BPM (mmod (λ s, PMach (pm_machine s) (pm_hw s) (pm_idt s) kpgdir));;
  zoom BPM (switchkvm me).

Context {IOk : KernelImageOk _}.

(** * One entry of kmap *)

Definition ksize (k : kmap_entry) : Z := u32 (phys_end k - phys_start k).
Record kmap_ok (k : kmap_entry) : Prop := {
  ko_virt : virt k mod PGSIZE = 0; ko_phys : phys_start k mod PGSIZE = 0; ko_size : ksize k mod PGSIZE = 0;
  ko_lo : KERNBASE ≤ virt k; ko_pos : 0 < ksize k; ko_vhi : virt k + ksize k ≤ 2 ^ 32;
  ko_plo : 0 ≤ phys_start k; ko_phi : phys_start k + ksize k ≤ 2 ^ 32; ko_perm : kperm k = 0 ∨ kperm k = PTE_W }.

(** What the entry maps, over what was mapped before. *)
Definition over (k : kmap_entry) (f : Z → option (Z * Z)) (va : Z) : option (Z * Z) :=
  if decide (virt k ≤ va < virt k + ksize k) then Some (phys_start k + (va - virt k), Z.lor (kperm k) PTE_P) else f va.

(** Page tables that the entry needs beyond those of [m]. *)
Definition tables (m : mem) (d : Z) (k : kmap_entry) : Z :=
  PDX (virt k + ksize k - 1) - PDX (virt k) + needs_table m d (virt k).

(** The directory [d] maps what [f] says. *)
Definition maps (m : mem) (d : Z) (f : Z → option (Z * Z)) : Prop := ∀ va, is_u32 va → translate m d va = f va.

Lemma setupkvm_entry k ks d s F f : kmap_ok k → kmem_rep s F → pt_wf (k_mem s) d F → maps (k_mem s) d f →
  (∃ s' F', setupkvm_loop (k :: ks) d s = setupkvm_loop ks d s' ∧ vm_step d s F s' F' ∧
     Z.of_nat (length F) - Z.of_nat (length F') ≤ tables (k_mem s) d k ∧ maps (k_mem s') d (over k f)) ∨
  (∃ s', setupkvm_loop (k :: ks) d s = (freevm d;; mret 0) s' ∧ vm_step d s F s' [] ∧
     Z.of_nat (length F) < tables (k_mem s) d k ∧ ∀ va, 0 ≤ va < KERNBASE → translate (k_mem s') d va = f va).
Proof.
  intros [Hv Hp Hz Hlo Hpos Hvhi Hplo Hphi Hpe] HF Hwf Hf. cbn [setupkvm_loop]. fold (ksize k). unfold tables.
  assert (pg (virt k) = virt k) as Hpg by (unfold pg; lia).
  assert (pg (virt k + ksize k - 1) = virt k + ksize k - PGSIZE) as Hpl.
  { unfold pg. Z.to_euclidean_division_equations. lia. }
  assert (is_u32 (kperm k) ∧ 0 ≤ Z.lor (kperm k) 1 < PGSIZE ∧ Z.testbit (Z.lor (kperm k) 1) 0 = true) as (Hu & Hl & Hb).
  { destruct Hpe as [-> | ->]; done. }
  destruct (mappages_translate d (virt k) (ksize k) (phys_start k) (kperm k) 1 s F) as (r & s' & F' & E & Hs & Hn & Hout & Hr);
    try done; try lia. rewrite Hpg, Hpl in *.
  erewrite bind_Ok by exact E. destruct Hr as [(-> & -> & Hno)|(-> & Hin)].
  - right. exists s'. split_and!; [done|done|lia|]. intros va Hva. rewrite Hout, Hf; [done| | |lia]; unfold is_u32; lia.
  - left. exists s', F'. split_and!; [done|done|done|]. intros va Hva. unfold over. case_decide.
    + rewrite Hin by lia. by rewrite Hb.
    + rewrite Hout, Hf; [done..|lia].
Qed.

(** * The kernel's address space *)

(** The layout in the comment before [kmap]: I/O space, text and read-only data,
    data and free memory, devices. *)
Definition kernel_map (va : Z) : option (Z * Z) :=
  if decide (va < KERNBASE) then None
  else if decide (va < KERNLINK) then Some (va - KERNBASE, Z.lor PTE_W PTE_P)
  else if decide (va < image_data) then Some (va - KERNBASE, PTE_P)
  else if decide (va < KERNBASE + PHYSTOP) then Some (va - KERNBASE, Z.lor PTE_W PTE_P)
  else if decide (va < DEVSPACE) then None
  else Some (va, Z.lor PTE_W PTE_P).

Lemma image_data_range : KERNLINK < image_data < KERNBASE + PHYSTOP ∧ image_data mod PGSIZE = 0 ∧
  V2P image_data = image_data - KERNBASE ∧ (image_data - KERNBASE) mod PGSIZE = 0.
Proof.
  pose proof image_data_lo. pose proof image_data_hi. pose proof image_data_aligned. pose proof image_end_hi.
  split_and!; [lia|lia|done|unfold V2P; apply u32_small; lia|]. Z.to_euclidean_division_equations. lia.
Qed.

Lemma kmap_ok_intro v p e w n : u32 (e - p) = n → v mod PGSIZE = 0 → p mod PGSIZE = 0 → n mod PGSIZE = 0 → KERNBASE ≤ v →
  0 < n → v + n ≤ 2 ^ 32 → 0 ≤ p → p + n ≤ 2 ^ 32 → w = 0 ∨ w = PTE_W → kmap_ok (Kmap v p e w).
Proof. intros <- **. by constructor. Qed.

Lemma kmap_all_ok : Forall kmap_ok kmap.
Proof.
  destruct image_data_range as (Hr & Ha & Hd & Hm). unfold kmap. rewrite Hd. change (V2P KERNLINK) with EXTMEM.
  repeat apply Forall_cons_2; [..|by apply Forall_nil_2].
  - apply (kmap_ok_intro _ _ _ _ EXTMEM); [done..|by right].
  - apply (kmap_ok_intro _ _ _ _ (image_data - KERNBASE - EXTMEM)); [by rewrite u32_small by lia|done|done| |lia|lia|lia|lia|lia|by left].
    Z.to_euclidean_division_equations. lia.
  - apply (kmap_ok_intro _ _ _ _ (PHYSTOP - (image_data - KERNBASE))); [by rewrite u32_small by lia|done|done| |lia|lia|lia|lia|lia|by right].
    Z.to_euclidean_division_equations. lia.
  - apply (kmap_ok_intro _ _ _ _ 0x2000000); [done..|by right].
Qed.

Lemma kernel_map_over va : is_u32 va → foldl (λ f k, over k f) (λ _, None) kmap va = kernel_map va.
Proof.
  destruct image_data_range as (Hr & _ & Hd & _). intros Hva. unfold kmap, kernel_map. cbn [foldl]. unfold over, ksize. cbn [virt phys_start phys_end kperm]. rewrite Hd.
  change (V2P KERNLINK) with EXTMEM. change (u32 (EXTMEM - 0)) with EXTMEM. change (u32 (0 - DEVSPACE)) with (2 ^ 32 - DEVSPACE).
  rewrite !u32_small by lia. unfold is_u32 in Hva. repeat case_decide; try lia; try done; do 2 f_equal; lia.
Qed.
Lemma needs_table_range m d va : 0 ≤ needs_table m d va ≤ 1.
Proof. unfold needs_table. case_match; lia. Qed.

Lemma needs_table_mapped m d va va' : is_Some (translate m d va) → PDX va' = PDX va → needs_table m d va' = 0.
Proof.
  intros [x Hx] E. unfold needs_table. rewrite E. unfold translate, pte_of in Hx. destruct (table m d (PDX va)); [done|].
  by rewrite Z.bits_0 in Hx.
Qed.

(** The entries that are left when [setupkvm] has mapped what [f] says. *)
Definition setup_result (d : Z) (s : kmem_state) (F : list Z) (need : Z) (f : Z → option (Z * Z)) (r : res (Z * kmem_state)) : Prop :=
  (∃ s' F', r = Ok (d, s') ∧ vm_step d s F s' F' ∧ Z.of_nat (length F) - Z.of_nat (length F') ≤ need ∧ maps (k_mem s') d f) ∨
  (∃ s', r = (freevm d;; mret 0) s' ∧ vm_step d s F s' [] ∧ Z.of_nat (length F) < need ∧
     ∀ va, 0 ≤ va < KERNBASE → translate (k_mem s') d va = None).

(** An entry that needs at most [n] tables. *)
Lemma setup_cons k ks d s F f g n need : kmap_ok k → kmem_rep s F → pt_wf (k_mem s) d F → maps (k_mem s) d f →
  (∀ va, va < KERNBASE → f va = None) → tables (k_mem s) d k ≤ n → 0 ≤ need →
  (∀ s' F', kmem_rep s' F' → pt_wf (k_mem s') d F' → maps (k_mem s') d (over k f) →
     setup_result d s' F' need g (setupkvm_loop ks d s')) →
  setup_result d s F (n + need) g (setupkvm_loop (k :: ks) d s).
Proof.
  intros Hk HF Hwf Hf Hlo Hn Hneed IH.
  destruct (setupkvm_entry k ks d s F f Hk HF Hwf Hf) as [(s' & F' & E & Hs & Hl & Hm)|(s' & E & Hs & Hl & Hm)]; rewrite E.
  - destruct (IH s' F') as [(s2 & F2 & -> & Hs2 & Hl2 & Hg)|(s2 & -> & Hs2 & Hl2 & Hg)]; [apply Hs|apply Hs|done|left|right].
    + exists s2, F2. split_and!; [done|by eapply vm_step_trans|lia|done].
    + exists s2. split_and!; [done|by eapply vm_step_trans|lia|done].
  - right. exists s'. split_and!; [done|done|lia|]. intros va Hva. rewrite Hm by done. apply Hlo. lia.
Qed.

(** The page tables that the four entries need: 56 below [PHYSTOP], shared
    where two entries meet, and 8 for the devices. *)
Lemma kmap_tables d k1 k2 k3 k4 : kmap = [k1; k2; k3; k4] →
  let q := PDX (image_data - 1) in
  512 ≤ q ≤ 567 ∧ (∀ m, tables m d k1 ≤ 1) ∧
  (∀ m f, maps m d (over k1 f) → tables m d k2 ≤ q - 512) ∧
  (∀ m f, maps m d (over k2 f) → tables m d k3 ≤ 567 - q) ∧ (∀ m, tables m d k4 ≤ 8).
Proof.
  destruct image_data_range as (Hr & Ha & Hd & Hmod). intros Ek q. unfold kmap in Ek.
  change (V2P KERNLINK) with EXTMEM in Ek. rewrite Hd in Ek. injection Ek as <- <- <- <-.
  assert (q = (image_data - 1) / 2 ^ 22) as Hq by (apply PDX_eq; unfold is_u32; lia).
  assert (PDX image_data = image_data / 2 ^ 22) as Hq' by (apply PDX_eq; unfold is_u32; lia).
  unfold tables, ksize. cbn [virt phys_start phys_end].
  rewrite (u32_small (image_data - KERNBASE - EXTMEM)), (u32_small (PHYSTOP - (image_data - KERNBASE))) by lia. split_and!.
  - rewrite Hq. Z.to_euclidean_division_equations; lia.
  - rewrite Hq. Z.to_euclidean_division_equations; lia.
  - intros m. pose proof (needs_table_range m d KERNBASE). change (PDX (KERNBASE + u32 (EXTMEM - 0) - 1)) with (PDX KERNBASE). lia.
  - intros m f Hf. rewrite (needs_table_mapped m d KERNBASE KERNLINK); [|rewrite Hf by done; by eexists|done].
    replace (KERNLINK + _ - 1) with (image_data - 1) by lia. change (PDX KERNLINK) with 512. fold q. lia.
  - intros m f Hf. replace (image_data + _ - 1) with (KERNBASE + PHYSTOP - 1) by lia. change (PDX (KERNBASE + PHYSTOP - 1)) with 567.
    destruct (decide (PDX image_data = q)) as [E|E].
    + rewrite (needs_table_mapped m d (image_data - 1) image_data); [lia| |done]. rewrite Hf by (unfold is_u32; lia).
      unfold over, ksize. cbn [virt phys_start phys_end]. rewrite u32_small by lia. rewrite decide_True by lia. by eexists.
    + pose proof (needs_table_range m d image_data). assert (PDX image_data = q + 1); [|lia].
      rewrite Hq, Hq' in *. Z.to_euclidean_division_equations; lia.
  - intros m. pose proof (needs_table_range m d DEVSPACE). change (PDX (DEVSPACE + u32 (0 - DEVSPACE) - 1)) with 1023. change (PDX DEVSPACE) with 1016. lia.
Qed.

Lemma over_low k f va : kmap_ok k → va < KERNBASE → over k f va = f va.
Proof. intros [] ?. unfold over. by rewrite decide_False by lia. Qed.

Lemma setupkvm_loop_run d s F : kmem_rep s F → pt_wf (k_mem s) d F → maps (k_mem s) d (λ _, None) →
  setup_result d s F 64 kernel_map (setupkvm_loop kmap d s).
Proof.
  intros HF Hwf Hf. pose proof kmap_all_ok as Hok. pose proof kernel_map_over as Hmap.
  destruct kmap as [|k1 [|k2 [|k3 [|k4 [|]]]]] eqn:Ek; try done.
  destruct (kmap_tables d k1 k2 k3 k4 Ek) as (Hq & T1 & T2 & T3 & T4). cbn zeta in Hq.
  apply Forall_cons in Hok as [H1 Hok]. apply Forall_cons in Hok as [H2 Hok]. apply Forall_cons in Hok as [H3 Hok]. apply Forall_cons in Hok as [H4 _].
  replace 64 with (1 + (PDX (image_data - 1) - 512 + (567 - PDX (image_data - 1) + (8 + 0)))) by lia.
  eapply setup_cons; [done..|by apply T1|lia|]. intros s1 F1 HF1 Hwf1 M1.
  eapply setup_cons; [done..|intros; by rewrite over_low|by eapply T2|lia|]. intros s2 F2 HF2 Hwf2 M2.
  eapply setup_cons; [done..|intros; by rewrite !over_low|by eapply T3|lia|]. intros s3 F3 HF3 Hwf3 M3.
  eapply setup_cons; [done..|intros; by rewrite !over_low|by apply T4|lia|]. intros s4 F4 HF4 Hwf4 M4.
  left. exists s4, F4. split_and!; [done|by apply vm_step_refl|lia|]. intros va Hva. rewrite M4, <-Hmap by done. done.
Qed.

(** * setupkvm *)

(** Writing to a page that is not free. *)
Lemma write_page s F p m : kmem_rep s F → page_ok p → p ∉ F → bytes m → (∀ x, pg x ≠ p → m x = k_mem s x) → kmem_rep (set_mem m s) F.
Proof.
  intros [Hc Hnd _ Hl] Hp HpF Hb Hm. split; try done. eapply free_chain_ext; [|exact Hc]. intros q x Hq Hx. symmetry. apply Hm.
  assert (page_ok q) as Hqok by (by eapply free_chain_ok). rewrite (pg_eq q); [|apply Hqok|lia]. intros ->. done.
Qed.

(** The first free page, taken and cleared. *)
Lemma zeroed_page s p F : kmem_rep s (p :: F) → ∃ s', kalloc_page s = Ok (p, popped s) ∧ kmemset p 0 PGSIZE (popped s) = Ok (tt, s') ∧
  kmem_rep s' F ∧ page_ok p ∧ p ≠ 0 ∧ p ∉ F ∧ (∀ x, p ≤ x < p + PGSIZE → k_mem s' x = 0) ∧ (∀ x, pg x ≠ p → k_mem s' x = k_mem s x) ∧
  k_use_lock s' = k_use_lock s.
Proof.
  intros HF. destruct (kmem_head _ _ _ HF) as (Hhd & Hp & Hp0). destruct (popped_cons _ _ _ HF) as (HF' & Hm & _ & Hu).
  pose proof (kr_nodup _ _ HF) as [HpF _]%NoDup_cons. assert (∀ x, pg x ≠ p → memset (k_mem (popped s)) p 0 PGSIZE x = k_mem s x) as Hout.
  { intros x Hx. apply pg_ne in Hx; [|apply Hp]. rewrite memset_at, Hm by done. within_cases; (done || lia). }
  eexists. split_and!; [by rewrite (kalloc_page_run _ _ HF), Hhd|unfold kmemset; by rewrite (page_ok_mapped p) by (done || lia)|..]; try done.
  - apply (write_page _ _ p); try done; [apply memset_bytes; [done|apply HF']|]. intros x Hx. by rewrite Hout, Hm.
  - intros x Hx. cbn [k_mem set_mem]. rewrite memset_at by done. within_cases; (done || lia).
Qed.

Lemma untranslated_frame m d va : translate m d va = None → frame_of m d va = None.
Proof.
  unfold translate, frame_of. destruct (Z.land _ _ =? 0) eqn:E; [done|]. apply Z.eqb_neq in E. rewrite land_1 in E.
  by destruct (Z.testbit _ 0).
Qed.

Lemma setupkvm_run s F : kmem_rep s F →
  ∃ d s' F', setupkvm s = Ok (d, s') ∧ kmem_rep s' F' ∧ (65 ≤ Z.of_nat (length F) → d ≠ 0) ∧
    (d = 0 ∧ (∀ v, v ∈ F' ↔ v ∈ F) ∨
     d ≠ 0 ∧ F' `suffix_of` F ∧ Z.of_nat (length F) - Z.of_nat (length F') ≤ 65 ∧ pt_wf (k_mem s') d F' ∧
       (∀ v, owned (k_mem s') d v → v ∈ F) ∧ maps (k_mem s') d kernel_map) ∧
    ∀ x, pg x ∉ F → k_mem s' x = k_mem s x.
Proof.
  intros HF. unfold setupkvm. destruct F as [|d F].
  { destruct (popped_nil s HF) as [Hp Hz]. erewrite bind_Ok by (by eapply kalloc_page_run). rewrite Hz, Hp. cbn [Z.eqb].
    exists 0, s, []. split_and!; [done|done|cbn; lia|by left|done]. }
  destruct (zeroed_page s d F HF) as (s1 & E1 & E2 & HF1 & Hd & Hd0 & HdF & Hz & Hout & _).
  erewrite bind_Ok by exact E1. rewrite (proj2 (Z.eqb_neq _ _)) by done. erewrite bind_Ok by exact E2.
  change (DEVSPACE <? P2V PHYSTOP) with false. cbn iota. destruct (pt_wf_empty (k_mem s1) d F Hd HdF Hz) as [Hwf Hpte].
  assert (maps (k_mem s1) d (λ _, None)) as Hmaps. { intros va Hva. unfold translate. by rewrite Hpte, Z.bits_0. }
  assert (∀ v, owned (k_mem s1) d v ↔ v = d) as Hown.
  { intros v. split; [|by left]. intros [?|(i & Hi & Ht)]; [done|]. unfold table in Ht. by rewrite load32_zero in Ht by (intros; apply Hz; lia). }
  destruct (setupkvm_loop_run d s1 F HF1 Hwf Hmaps) as [(s2 & F2 & -> & Hs & Hl & Hm)|(s2 & -> & Hs & Hl & Hlow)].
  - exists d, s2, F2. split_and!; [done|apply Hs|done| |].
    + right. split_and!; [done|apply suffix_cons_r, Hs|cbn [length]; lia|apply Hs| |done].
      intros v. rewrite (vs_owned _ _ _ _ _ Hs), Hown, elem_of_cons. naive_solver.
    + intros x Hx. apply not_elem_of_cons in Hx as [Hx HxF]. rewrite (vs_frame _ _ _ _ _ Hs), Hout; [done..|by rewrite Hown|done].
  - assert (∀ va, 0 ≤ va < KERNBASE → frame_of (k_mem s2) d va = None) as Hnone by (intros va Hva; by apply untranslated_frame, Hlow).
    destruct (freevm_run d s2 []) as (s3 & F3 & E3 & HF3 & Hin & Hout3); [apply Hs|apply Hs|split; intros; naive_solver|].
    erewrite bind_Ok by exact E3. assert (∀ v, v ∈ F3 ↔ v ∈ d :: F) as Hall.
    { intros v. rewrite Hin, (vs_owned _ _ _ _ _ Hs), Hown, elem_of_cons. pose proof (not_elem_of_nil v). split.
      - intros [?|[[?|[? _]]|(va & Hva & _ & Hfr)]]; [done|by left|by right|by rewrite Hnone in Hfr].
      - intros [?|?]; right; left; [by left|by right]. }
    exists 0, s3, F3. split_and!; [done|done|cbn; lia|by left|]. intros x Hx. rewrite Hout3 by (by rewrite Hall).
    apply not_elem_of_cons in Hx as [Hx HxF]. rewrite (vs_frame _ _ _ _ _ Hs), Hout; [done..|by rewrite Hown|done].
Qed.

(** C15. [setupkvm] returns: either a well-formed page directory, made of pages
    from the free list, through which the processor sees exactly the layout of
    the comment above [kmap] (every address of the kernel with its physical
    address and its permissions, nothing for user addresses, and no page of the
    kernel open to users), or 0 with all pages back on the free list.  65 free
    pages are enough.  No page outside the free list is written. *)
Theorem setupkvm_maps_kernel s F : kmem_rep s F →
  ∃ d s' F', setupkvm s = Ok (d, s') ∧ kmem_rep s' F' ∧ (65 ≤ Z.of_nat (length F) → d ≠ 0) ∧
    (d = 0 ∧ (∀ v, v ∈ F' ↔ v ∈ F) ∨
     d ≠ 0 ∧ d ∈ F ∧ F' `suffix_of` F ∧ pt_wf (k_mem s') d F' ∧ ∀ va, is_u32 va → translate (k_mem s') d va = kernel_map va) ∧
    ∀ x, pg x ∉ F → k_mem s' x = k_mem s x.
Proof.
  intros HF. destruct (setupkvm_run s F HF) as (d & s' & F' & E & HF' & Hd & Hr & Hout). exists d, s', F'. split_and!; try done.
  destruct Hr as [?|(? & ? & _ & Hwf & Hown & ?)]; [by left|right]. split_and!; try done. apply Hown. by left.
Qed.

(** * kvmalloc and inituvm *)

Lemma enough_pages (F : list Z) lo n : (∀ i : nat, (i < n)%nat → lo + PGSIZE * Z.of_nat i ∈ F) → (n ≤ length F)%nat.
Proof.
  intros Hin. trans (length ((λ i : nat, lo + PGSIZE * Z.of_nat i) <$> seq 0 n)); [by rewrite length_fmap, length_seq|].
  apply submseteq_length, NoDup_submseteq.
  - apply NoDup_fmap_2; [intros i j ?; lia|apply NoDup_seq].
  - intros v (i & -> & Hi)%list_elem_of_fmap. apply Hin. apply elem_of_seq in Hi. lia.
Qed.

(** The boot CPU runs on the kernel's own page directory after [kvmalloc]. *)
Lemma kvmalloc_run me s F : kmem_rep (b_km s) F → 65 ≤ Z.of_nat (length F) → (me < length (pm_hw (b_pm s)))%nat →
  ∃ s' d F', kvmalloc me s = Ok (tt, s') ∧ pm_kpgdir (b_pm s') = d ∧ hw_cr3 <$> pm_hw (b_pm s') !! me = Some (V2P d) ∧
    kmem_rep (b_km s') F' ∧ pt_wf (k_mem (b_km s')) d F' ∧ maps (k_mem (b_km s')) d kernel_map.
Proof.
  intros HF Hn [h Hh]%lookup_lt_is_Some. unfold kvmalloc.
  destruct (setupkvm_run _ F HF) as (d & km & F' & E & HF' & Hd & Hr & _). destruct Hr as [[? _]|(_ & _ & _ & Hwf & _ & Hm)]; [naive_solver|].
  rewrite (zoom_bind BKM _ _ _ _ _ E). eexists _, d, F'. split; [reflexivity|]. cbn. rewrite list_lookup_alter_eq, Hh. done.
Qed.

Lemma lor_P_flags fl : 0 ≤ fl < PGSIZE → 0 ≤ Z.lor fl PTE_P < PGSIZE.
Proof.
  intros Hfl. pose proof (Z.lor_nonneg fl 1). split; [lia|]. assert (Z.lor fl 1 ≠ 0) by (intros E; apply Z.lor_eq_0_iff in E; lia).
  change PGSIZE with (2 ^ 12) in *. apply Z.log2_lt_pow2; [lia|]. rewrite Z.log2_lor by lia. change (Z.log2 1) with 0.
  destruct (decide (fl = 0)) as [->|]; [done|]. pose proof (Z.log2_nonneg fl). assert (Z.log2 fl < 12) by (apply Z.log2_lt_pow2; lia). lia.
Qed.

(** One page, with a free page for its table. *)
Lemma map_page s F d f pa a perm st : kmem_rep s F → pt_wf (k_mem s) d F → maps (k_mem s) d f → is_u32 pa → pa mod PGSIZE = 0 →
  a mod PGSIZE = 0 → 0 ≤ a → a + PGSIZE ≤ 2 ^ 32 → is_u32 perm → is_u32 st → 0 ≤ Z.lor perm st < PGSIZE → (1 ≤ length F)%nat →
  ∃ s' F', mappages d a PGSIZE pa perm st s = Ok (0, s') ∧ vm_step d s F s' F' ∧ Z.of_nat (length F) - Z.of_nat (length F') ≤ 1 ∧
    maps (k_mem s') d (λ va, if decide (a ≤ va < a + PGSIZE) then
      if Z.testbit (Z.lor perm st) 0 then Some (pa + (va - a), Z.lor perm st) else None else f va).
Proof.
  intros HF Hwf Hf Hpa Hpal Ha Ha0 Hahi Hpe Hst Hfl Hn. unfold is_u32 in Hpa.
  assert (pg a = a) as Hpg by (unfold pg; lia). assert (pg (a + PGSIZE - 1) = a) as Hpg' by (apply pg_eq; [done|lia]).
  assert (PDX (a + PGSIZE - 1) = PDX a) as Hpdx by (rewrite <-PDX_pg, Hpg' by (unfold is_u32; lia); done).
  destruct (mappages_translate d a PGSIZE pa perm st s F) as (r & s2 & F2 & E3 & Hs & Hcnt & Hout2 & Hr); try done; try lia.
  rewrite Hpg, Hpg', Hpdx in *. pose proof (needs_table_range (k_mem s) d a).
  destruct Hr as [(_ & _ & Hno)|(-> & Hin)]; [exfalso; apply Hno; lia|].
  exists s2, F2. split_and!; [done|done|lia|]. intros va Hu. case_decide; [by rewrite Hin by lia|]. by rewrite Hout2, Hf by (done || lia).
Qed.

(** The first free page [p], written to and then mapped at [a]. *)
Lemma map_fresh s p F d f m a fl : kmem_rep s (p :: F) → pt_wf (k_mem s) d (p :: F) → maps (k_mem s) d f → bytes m →
  (∀ x, pg x ≠ p → m x = k_mem s x) → a mod PGSIZE = 0 → 0 ≤ a → a + PGSIZE ≤ 2 ^ 32 → 0 ≤ fl < PGSIZE → (1 ≤ length F)%nat →
  ∃ s' F', mappages d a PGSIZE (V2P p) fl 1 (set_mem m (popped s)) = Ok (0, s') ∧ kmem_rep s' F' ∧ pt_wf (k_mem s') d F' ∧ F' `suffix_of` F ∧
    Z.of_nat (length F) - Z.of_nat (length F') ≤ 1 ∧ page_ok p ∧ p ∉ F' ∧ ¬ owned (k_mem s') d p ∧
    (∀ v, owned (k_mem s') d v → owned (k_mem s) d v ∨ v ∈ F) ∧
    maps (k_mem s') d (λ va, if decide (a ≤ va < a + PGSIZE) then Some (V2P p + (va - a), Z.lor fl PTE_P) else f va) ∧
    ∀ x, ¬ owned (k_mem s) d (pg x) → pg x ∉ F → k_mem s' x = m x.
Proof.
  intros HF Hwf Hf Hb Hm Ha Ha0 Hahi Hfl Hn. destruct (kmem_head _ _ _ HF) as (_ & Hp & _). destruct (popped_cons _ _ _ HF) as (HF1 & Hpm & _ & _).
  pose proof (kr_nodup _ _ HF) as [HpF _]%NoDup_cons.
  assert (¬ owned (k_mem s) d p) as Hnp by (intros Ho; apply (owned_not_free _ _ _ _ Hwf Ho), elem_of_cons; by left).
  assert (∀ x, owned (k_mem s) d (pg x) → m x = k_mem s x) as Hsame by (intros x Hx; apply Hm; intros E; by rewrite E in Hx).
  destruct (pt_frame _ _ _ _ Hwf Hsame) as (_ & Hown1 & Hpte1).
  assert (pt_wf m d F) as Hwf1.
  { apply (pt_wf_frame (k_mem s) _ _ (p :: F)); [done|done|]. intros v Hv HvF. apply (owned_not_free _ _ _ _ Hwf Hv), elem_of_cons. by right. }
  assert (kmem_rep (set_mem m (popped s)) F) as HF2 by (apply (write_page _ _ p); try done; intros x Hx; by rewrite Hm, Hpm).
  destruct (V2P_page p Hp) as (Hv & Hva & _). pose proof (lor_P_flags fl Hfl).
  destruct (map_page (set_mem m (popped s)) F d f (V2P p) a fl 1) as (s2 & F2 & E3 & Hs & Hcnt & Hmap); try done; [|unfold is_u32; lia|].
  { intros va Hu. unfold translate. cbn [k_mem set_mem]. rewrite Hpte1 by done. by apply Hf. }
  exists s2, F2. split_and!; try done; try (apply Hs); try lia.
  - intros ?. apply HpF. eapply suffix_elem; [apply Hs|done].
  - rewrite (vs_owned _ _ _ _ _ Hs). cbn [k_mem set_mem]. rewrite Hown1. intros [?|[? _]]; done.
  - intros v. rewrite (vs_owned _ _ _ _ _ Hs). cbn [k_mem set_mem]. rewrite Hown1. naive_solver.
  - intros va Hu. rewrite Hmap by done. by rewrite Z.lor_spec, orb_true_r.
  - intros x Hx HxF. by rewrite (vs_frame _ _ _ _ _ Hs); cbn [k_mem set_mem]; rewrite ?Hown1.
Qed.

(** [inituvm]: the first page, holding [init] and zeros, at address 0. *)
Lemma inituvm_run d init s F f : Z.of_nat (length init) < PGSIZE → Forall is_u8 init → kmem_rep s F → pt_wf (k_mem s) d F → maps (k_mem s) d f →
  (2 ≤ length F)%nat →
  ∃ p s' F', inituvm d init s = Ok (tt, s') ∧ kmem_rep s' F' ∧ pt_wf (k_mem s') d F' ∧ F' `suffix_of` F ∧
    Z.of_nat (length F) - Z.of_nat (length F') ≤ 2 ∧ page_ok p ∧
    p ∈ F ∧ p ∉ F' ∧ ¬ owned (k_mem s') d p ∧ (∀ v, owned (k_mem s') d v → owned (k_mem s) d v ∨ v ∈ F) ∧
    maps (k_mem s') d (λ va, if decide (0 ≤ va < PGSIZE) then Some (V2P p + va, Z.lor (Z.lor PTE_W PTE_U) PTE_P) else f va) ∧
    (∀ i, 0 ≤ i < PGSIZE → k_mem s' (p + i) = nth (Z.to_nat i) init 0) ∧
    ∀ x, ¬ owned (k_mem s) d (pg x) → pg x ∉ F → k_mem s' x = k_mem s x.
Proof.
  intros Hlen Hinit HF Hwf Hf Hn. destruct F as [|p F]; [cbn in Hn; lia|]. unfold inituvm. rewrite (proj2 (Z.leb_gt _ _)) by lia.
  destruct (zeroed_page s p F HF) as (s1 & E1 & E2 & HF1 & Hp & Hp0 & HpF & Hz & Hout & _).
  erewrite bind_Ok by exact E1. erewrite bind_Ok by exact E2.
  assert (set_mem (k_mem s1) (popped s) = s1) as Hs1.
  { unfold kmemset in E2. rewrite (page_ok_mapped p) in E2 by (done || lia). injection E2 as <-. done. }
  assert (¬ owned (k_mem s) d p) as Hnp by (intros Ho; apply (owned_not_free _ _ _ _ Hwf Ho), elem_of_cons; by left).
  destruct (map_fresh s p F d f (k_mem s1) 0 (Z.lor PTE_W PTE_U)) as (s2 & F2 & E3 & HF2 & Hwf2 & Hsuf & Hcnt & _ & HpF2 & Hnp2 & Hown2 & Hmap & Hout2);
    try done; [apply HF1|cbn [length] in Hn; lia|]. rewrite Hs1 in E3. erewrite bind_Ok by exact E3.
  unfold kwrite. rewrite (page_ok_mapped p) by (done || lia).
  assert (∀ x, pg x ≠ p → write_bytes (k_mem s2) p init x = k_mem s2 x) as Hw.
  { intros x Hx. apply write_bytes_out. apply pg_ne in Hx; [lia|apply Hp]. }
  assert (∀ x, owned (k_mem s2) d (pg x) → write_bytes (k_mem s2) p init x = k_mem s2 x) as Hw'.
  { intros x Hx. apply Hw. intros E. by rewrite E in Hx. }
  destruct (pt_frame _ _ _ _ Hwf2 Hw') as (_ & Hown3 & Hpte3).
  exists p, (set_mem (write_bytes (k_mem s2) p init) s2), F2. cbn [k_mem set_mem]. split_and!; try done.
  - apply (write_page _ _ p); try done. apply write_bytes_bytes; [apply HF2|done].
  - apply (pt_wf_frame (k_mem s2) _ _ F2); [done|done|]. intros v. by apply owned_not_free.
  - by apply suffix_cons_r.
  - cbn [length]. lia.
  - apply elem_of_cons. by left.
  - by rewrite Hown3.
  - intros v Hv%Hown3%Hown2. rewrite elem_of_cons. naive_solver.
  - intros va Hva. unfold translate at 1. rewrite Hpte3 by done. fold (translate (k_mem s2) d va). rewrite Hmap by done.
    change (0 + PGSIZE) with PGSIZE. case_decide; [|done]. do 2 f_equal. lia.
  - intros i Hi. destruct (decide (i < Z.of_nat (length init))) as [Hl|Hl].
    + pose proof (read_bytes_lookup (write_bytes (k_mem s2) p init) p (length init) (Z.to_nat i) ltac:(lia)) as Hx.
      rewrite write_bytes_read, Z2Nat.id in Hx by lia. symmetry. by apply nth_lookup_Some.
    + rewrite write_bytes_out by lia. rewrite Hout2; rewrite ?(pg_eq p) by (apply Hp || lia); [|done|done].
      rewrite Hz by lia. symmetry. apply nth_overflow. lia.
  - intros x Hx HxF. apply not_elem_of_cons in HxF as [Hxp HxF]. by rewrite Hw, Hout2, Hout.
Qed.
End kvm.

(** Two megabytes of free memory. *)
Lemma sample_pages : ∃ s F, kmem_rep (H := sample_image) s F ∧ 512 ≤ Z.of_nat (length F) ∧ k_use_lock s = false ∧
  ∀ v, v ∈ F ↔ v mod PGSIZE = 0 ∧ 0x80200000 ≤ v ∧ v + PGSIZE ≤ 0x80400000.
Proof.
  destruct (@freerange_spec sample_image sample_image_ok 0x80200000 0x80400000 (kmem_bss (λ _, 0)) []) as (s & F & _ & HF & Hu & Hin); [|done..| |].
  - split; try done. by apply NoDup_nil.
  - intros v Hv. by apply not_elem_of_nil in Hv.
  - assert (∀ v, v ∈ F ↔ v mod PGSIZE = 0 ∧ 0x80200000 ≤ v ∧ v + PGSIZE ≤ 0x80400000) as Hin'.
    { intros v. rewrite Hin. pose proof (not_elem_of_nil v). naive_solver. }
    exists s, F. split_and!; [done| |done|done]. apply (Nat2Z.inj_le 512), (enough_pages F 0x80200000). intros i Hi. apply Hin'.
    split_and!; [|lia|lia]. Z.to_euclidean_division_equations. lia.
Qed.

Lemma setupkvm_maps_kernel_witness : ∃ s d s', setupkvm (H := sample_image) s = Ok (d, s') ∧ d ≠ 0 ∧
  translate (k_mem s') d 0x80100000 = Some (0x100000, 1) ∧ translate (k_mem s') d 0x8DFFFFFF = Some (0xDFFFFFF, 3) ∧
  translate (k_mem s') d 0xFEC00000 = Some (0xFEC00000, 3) ∧ translate (k_mem s') d 0 = None.
Proof.
  destruct sample_pages as (s & F & HF & Hn & _).
  destruct (@setupkvm_maps_kernel sample_image sample_image_ok s F HF) as (d & s' & F' & E & _ & Hd & Hr & _).
  exists s, d, s'. destruct Hr as [[Hz _]|(_ & _ & _ & _ & Hm)]; [exfalso; apply Hd; [lia|done]|].
  split_and!; [done|apply Hd; lia|by rewrite Hm..].
Defined.
