(* ===== verification/Sleeplock.v ===== *)
(** Sleep locks (sleeplock.c), as one process sees them: taking a lock that is
    held blocks the process. *)

From Stdlib Require Import ZArith Lia.
From stdpp Require Import base numbers strings option gmap sets list list_numbers.
From S2P Require Import Prelude Spinlock.

Record sleeplock := SleepLock { sl_lk : bool; sl_locked : bool; sl_pid : Z }.

Definition sl_lens : lens sleeplock bool :=
  Lens sl_lk (λ b l, SleepLock b (sl_locked l) (sl_pid l)).

Definition initsleeplock : M sleeplock unit := mmod (λ _, SleepLock false false 0).

Definition acquiresleep (mypid : Z) : M sleeplock unit :=
  acquire sl_lens;;
  l ← mget id;
  (if sl_locked l then mblock
   else
     mmod (λ l, SleepLock (sl_lk l) true (sl_pid l));;
     mmod (λ l, SleepLock (sl_lk l) (sl_locked l) mypid);;
     release sl_lens).

Definition releasesleep : M sleeplock unit :=
  acquire sl_lens;;
  mmod (λ l, SleepLock (sl_lk l) false 0);;
  release sl_lens.

Definition holdingsleep (mypid : Z) : M sleeplock bool :=
  acquire sl_lens;;
  l ← mget id;
  (let r := sl_locked l && (sl_pid l =? mypid) in
   release sl_lens;; mret r).

(** Free, and held by a process. *)
Definition sl_free (l : sleeplock) : Prop := l = SleepLock false false 0.
Definition sl_held (pid : Z) : sleeplock := SleepLock false true pid.

Lemma acquiresleep_Ok pid l : sl_lk l = false → sl_locked l = false →
  acquiresleep pid l = Ok (tt, sl_held pid).
Proof. destruct l as [lk lo p]. simpl. intros -> ->. done. Qed.

Lemma acquiresleep_Blocked pid l : sl_lk l = false → sl_locked l = true →
  acquiresleep pid l = Blocked.
Proof. destruct l as [lk lo p]. simpl. intros -> ->. done. Qed.

Lemma holdingsleep_Ok pid : holdingsleep pid (sl_held pid) = Ok (true, sl_held pid).
Proof. unfold holdingsleep, sl_held. mred. simpl. by rewrite Z.eqb_refl. Qed.

Lemma releasesleep_Ok pid : releasesleep (sl_held pid) = Ok (tt, SleepLock false false 0).
Proof. done. Qed.
