(* ===== verification/Block.v ===== *)
(** Fields of a disk block.  A block is a list of bytes; a C structure laid
    over [bp->data] is read and written through little-endian fields at byte
    offsets. *)

From Stdlib Require Import ZArith Lia.
From stdpp Require Import base numbers strings option gmap sets list list_numbers.
From S2P Require Import Prelude Mem.

(** [memmove(d + off, l, length l)] inside the block. *)
Definition splice (d : list Z) (off : nat) (l : list Z) : list Z :=
  take off d ++ l ++ drop (off + length l) d.

(** [memmove(.., d + off, n)] out of the block. *)
Definition slice (d : list Z) (off n : nat) : list Z := take n (drop off d).

Definition at8 (d : list Z) (a : Z) : Z := default 0 (d !! Z.to_nat a).

Definition get16 (d : list Z) (off : nat) : Z :=
  at8 d (Z.of_nat off) + 2 ^ 8 * at8 d (Z.of_nat off + 1).
Definition get32 (d : list Z) (off : nat) : Z := load32 (at8 d) (Z.of_nat off).
Definition enc16 (v : Z) : list Z := [byte v 0; byte v 1].
Definition enc32 (v : Z) : list Z := [byte v 0; byte v 1; byte v 2; byte v 3].
Definition put16 (d : list Z) (off : nat) (v : Z) : list Z := splice d off (enc16 v).
Definition put32 (d : list Z) (off : nat) (v : Z) : list Z := splice d off (enc32 v).

Section splice.
Implicit Types (d l : list Z).

Lemma splice_length d off l : (off + length l ≤ length d)%nat → length (splice d off l) = length d.
Proof. intros H. unfold splice. rewrite !length_app, length_take, length_drop. lia. Qed.

Lemma splice_lookup d off l i : (off + length l ≤ length d)%nat →
  splice d off l !! i =
    if decide (off ≤ i < off + length l)%nat then l !! (i - off)%nat else d !! i.
Proof.
  intros H. unfold splice. case_decide as Hd.
  - rewrite lookup_app_r by (rewrite length_take; lia). rewrite length_take, min_l by lia.
    rewrite lookup_app_l by lia. done.
  - destruct (decide (i < off)%nat) as [Hi|Hi].
    + rewrite lookup_app_l by (rewrite length_take; lia). by rewrite lookup_take_lt.
    + rewrite lookup_app_r by (rewrite length_take; lia). rewrite length_take, min_l by lia.
      rewrite lookup_app_r by lia. rewrite lookup_drop. f_equal. lia.
Qed.

Lemma slice_splice d off l : (off + length l ≤ length d)%nat → slice (splice d off l) off (length l) = l.
Proof.
  intros H. unfold slice, splice. rewrite drop_app_ge, length_take by (rewrite length_take; lia).
  rewrite min_l by lia. rewrite Nat.sub_diag, drop_0. rewrite take_app_le by lia. by rewrite take_ge.
Qed.

Lemma slice_lookup d off n i : (i < n)%nat → slice d off n !! i = d !! (off + i)%nat.
Proof. intros H. unfold slice. by rewrite lookup_take_lt, lookup_drop. Qed.

Lemma slice_length d off n : (off + n ≤ length d)%nat → length (slice d off n) = n.
Proof. intros H. unfold slice. rewrite length_take, length_drop. lia. Qed.

Lemma slice_ext d d' off n : (∀ i, (off ≤ i < off + n)%nat → d !! i = d' !! i) → slice d off n = slice d' off n.
Proof.
  intros H. apply list_eq. intros i. destruct (decide (i < n)%nat) as [Hi|Hi].
  - rewrite !slice_lookup by done. apply H. lia.
  - unfold slice. by rewrite !lookup_take_ge by lia.
Qed.

Lemma slice_all d n : length d = n → slice d 0 n = d.
Proof. intros H. unfold slice. rewrite drop_0. apply take_ge. lia. Qed.

Lemma splice_all d l : length l = length d → splice d 0 l = l.
Proof. intros H. unfold splice. rewrite drop_ge by lia. by rewrite app_nil_r. Qed.

Lemma splice_id d off n : (off + n ≤ length d)%nat → splice d off (slice d off n) = d.
Proof.
  intros H. apply list_eq. intros i. rewrite splice_lookup by (rewrite slice_length; lia).
  rewrite slice_length by done. case_decide; [|done]. rewrite slice_lookup by lia. f_equal. lia.
Qed.

Lemma at8_splice d off l a : (off + length l ≤ length d)%nat → 0 ≤ a →
  at8 (splice d off l) a =
    if decide (Z.of_nat off ≤ a < Z.of_nat off + Z.of_nat (length l)) then at8 l (a - Z.of_nat off) else at8 d a.
Proof.
  intros H Ha. unfold at8. rewrite splice_lookup by done. repeat case_decide; try done; try lia.
  do 2 f_equal. lia.
Qed.

Lemma enc16_length v : length (enc16 v) = 2%nat.
Proof. done. Qed.
Lemma enc32_length v : length (enc32 v) = 4%nat.
Proof. done. Qed.

Lemma enc_u8 v : Forall is_u8 (enc16 v) ∧ Forall is_u8 (enc32 v).
Proof. split; repeat constructor; apply byte_u8. Qed.

Lemma splice_u8 d off l : Forall is_u8 d → Forall is_u8 l → Forall is_u8 (splice d off l).
Proof. intros. unfold splice. rewrite !Forall_app. auto using Forall_take, Forall_drop. Qed.

Lemma put32_length d off v : (off + 4 ≤ length d)%nat → length (put32 d off v) = length d.
Proof. intros H. apply splice_length. simpl. lia. Qed.
Lemma put16_length d off v : (off + 2 ≤ length d)%nat → length (put16 d off v) = length d.
Proof. intros H. apply splice_length. simpl. lia. Qed.
End splice.

Lemma get32_put32 d off v : (off + 4 ≤ length d)%nat → is_u32 v → get32 (put32 d off v) off = v.
Proof.
  intros H Hv. unfold get32, put32. rewrite <-(load_store32 (λ _, 0) (Z.of_nat off) v Hv) at 2.
  apply load32_ext. intros x Hx. rewrite at8_splice by (simpl; lia). rewrite decide_True by (simpl; lia).
  unfold store32, at8.
  destruct (decide (x = Z.of_nat off)) as [->|]; [rewrite Z.sub_diag; rewrite !upd_ne by lia; by rewrite upd_eq|].
  destruct (decide (x = Z.of_nat off + 1)) as [->|];
    [replace (Z.of_nat off + 1 - Z.of_nat off) with 1 by lia; rewrite 2!upd_ne by lia; by rewrite upd_eq|].
  destruct (decide (x = Z.of_nat off + 2)) as [->|];
    [replace (Z.of_nat off + 2 - Z.of_nat off) with 2 by lia; rewrite upd_ne by lia; by rewrite upd_eq|].
  replace x with (Z.of_nat off + 3) by lia. replace (Z.of_nat off + 3 - Z.of_nat off) with 3 by lia.
  by rewrite upd_eq.
Qed.

Lemma get32_splice_ne d off l k : (off + length l ≤ length d)%nat →
  (k + 4 ≤ off ∨ off + length l ≤ k)%nat → get32 (splice d off l) k = get32 d k.
Proof.
  intros H Hk. apply load32_ext. intros x Hx. rewrite at8_splice by lia. by rewrite decide_False by lia.
Qed.

Lemma get16_put16 d off v : (off + 2 ≤ length d)%nat → 0 ≤ v < 2 ^ 16 → get16 (put16 d off v) off = v.
Proof.
  intros H Hv. unfold get16, put16. rewrite !at8_splice by (simpl; lia).
  rewrite !decide_True by (simpl; lia). rewrite Z.sub_diag.
  replace (Z.of_nat off + 1 - Z.of_nat off) with 1 by lia. unfold at8. simpl. unfold byte.
  rewrite Z.shiftr_0_r. change (8 * 1) with 8. rewrite Z.shiftr_div_pow2 by lia.
  change 0xFF with (Z.ones 8). rewrite !Z.land_ones by lia. change (2 ^ 8) with 256.
  rewrite (Z.mod_small (v / 256)) by (Z.div_mod_to_equations; lia). Z.div_mod_to_equations. lia.
Qed.

Lemma get16_splice_ne d off l k : (off + length l ≤ length d)%nat →
  (k + 2 ≤ off ∨ off + length l ≤ k)%nat → get16 (splice d off l) k = get16 d k.
Proof.
  intros H Hk. unfold get16. rewrite !at8_splice by lia. by rewrite !decide_False by lia.
Qed.

Lemma at8_u8 d a : Forall is_u8 d → is_u8 (at8 d a).
Proof.
  intros Hd. unfold at8. destruct (d !! Z.to_nat a) eqn:E; simpl; [|done].
  by eapply Forall_lookup_1.
Qed.

Lemma get32_u32 d off : Forall is_u8 d → is_u32 (get32 d off).
Proof. intros Hd. apply load32_u32. intros a. by apply at8_u8. Qed.

(** * Arrays of words *)

(** [a[0..n)] of a [uint] array at a byte offset. *)
Definition words (d : list Z) (off n : nat) : list Z := (λ i, get32 d (off + 4 * i)) <$> seq 0 n.

Fixpoint put_words (d : list Z) (off : nat) (l : list Z) : list Z :=
  match l with [] => d | v :: l => put_words (put32 d off v) (off + 4) l end.

Lemma put_words_length d off l : (off + 4 * length l ≤ length d)%nat → length (put_words d off l) = length d.
Proof.
  revert d off. induction l as [|v l IH]; intros d off H; [done|]. simpl in *.
  rewrite IH; rewrite put32_length by lia; lia.
Qed.

Lemma put_words_ne d off l k : (off + 4 * length l ≤ length d)%nat →
  (k + 4 ≤ off ∨ off + 4 * length l ≤ k)%nat → get32 (put_words d off l) k = get32 d k.
Proof.
  revert d off. induction l as [|v l IH]; intros d off H Hk; [done|]. simpl in *.
  rewrite IH; rewrite ?put32_length by lia; [|lia|lia].
  apply get32_splice_ne; simpl; lia.
Qed.

Lemma words_put_words d off l : (off + 4 * length l ≤ length d)%nat → Forall is_u32 l →
  words (put_words d off l) off (length l) = l.
Proof.
  revert d off. induction l as [|v l IH]; intros d off H Hl; [done|]. apply Forall_cons in Hl as [Hv Hl].
  cbn [put_words length]. unfold words. cbn [seq fmap list_fmap]. f_equal.
  - rewrite Nat.mul_0_r, Nat.add_0_r. rewrite put_words_ne.
    + apply get32_put32; [simpl in H; lia|done].
    + rewrite put32_length; simpl in H; lia.
    + left. lia.
  - rewrite <-seq_shift, <-list_fmap_compose.
    rewrite <-(IH (put32 d off v) (off + 4)%nat) at 2; [|rewrite put32_length; simpl in H; lia|done].
    unfold words. apply list_fmap_ext. intros i x _. simpl. f_equal. lia.
Qed.

(** * Encoded records *)
Lemma splice_app d off l l' : (off + length l + length l' ≤ length d)%nat →
  splice (splice d off l) (off + length l) l' = splice d off (l ++ l').
Proof.
  intros H. apply list_eq. intros i. rewrite !splice_lookup; rewrite ?splice_length, ?length_app; try lia.
  repeat case_decide; try lia; try done.
  - rewrite lookup_app_r by lia. f_equal. lia.
  - by rewrite lookup_app_l by lia.
Qed.

Lemma enc32s_length l : length (concat (map enc32 l)) = (4 * length l)%nat.
Proof. induction l as [|w l IH]; [done|]. cbn [map concat length]. rewrite length_app, IH. simpl. lia. Qed.

Lemma put_words_splice d off l : (off + 4 * length l ≤ length d)%nat →
  put_words d off l = splice d off (concat (map enc32 l)).
Proof.
  revert d off. induction l as [|v l IH]; intros d off H; cbn [put_words map concat].
  - unfold splice. rewrite Nat.add_0_r. simpl. by rewrite take_drop.
  - simpl in H. rewrite IH by (rewrite put32_length by lia; lia). unfold put32.
    replace (off + 4)%nat with (off + length (enc32 v))%nat by done. apply splice_app. rewrite enc32s_length. simpl. lia.
Qed.

(** Reading depends on the bytes that are read. *)
Lemma get32_shift d d' a b : (∀ j, 0 ≤ j < 4 → at8 d (Z.of_nat a + j) = at8 d' (Z.of_nat b + j)) → get32 d a = get32 d' b.
Proof.
  intros H. unfold get32, load32. pose proof (H 0 ltac:(lia)) as H0. rewrite !Z.add_0_r in H0.
  by rewrite H0, (H 1), (H 2), (H 3) by lia.
Qed.

Lemma get16_shift d d' a b : (∀ j, 0 ≤ j < 2 → at8 d (Z.of_nat a + j) = at8 d' (Z.of_nat b + j)) → get16 d a = get16 d' b.
Proof.
  intros H. unfold get16. pose proof (H 0 ltac:(lia)) as H0. rewrite !Z.add_0_r in H0. by rewrite H0, (H 1) by lia.
Qed.

Lemma at8_in d off l j : (off + length l ≤ length d)%nat → 0 ≤ j < Z.of_nat (length l) →
  at8 (splice d off l) (Z.of_nat off + j) = at8 l j.
Proof. intros H Hj. rewrite at8_splice by lia. rewrite decide_True by lia. f_equal. lia. Qed.

Lemma at8_app_r l l' j : 0 ≤ j → at8 (l ++ l') (Z.of_nat (length l) + j) = at8 l' j.
Proof. intros Hj. unfold at8. rewrite lookup_app_r by lia. do 2 f_equal. lia. Qed.

Lemma at8_app_l l l' j : 0 ≤ j < Z.of_nat (length l) → at8 (l ++ l') j = at8 l j.
Proof. intros Hj. unfold at8. by rewrite lookup_app_l by lia. Qed.

Lemma get16_enc v l : 0 ≤ v < 2 ^ 16 → get16 (enc16 v ++ l) 0 = v.
Proof.
  intros Hv. rewrite <-(get16_put16 (enc16 v ++ l) 0 v) at 2 by (done || (rewrite length_app; simpl; lia)).
  apply get16_shift. intros j Hj. symmetry. unfold put16. rewrite at8_in by (rewrite ?length_app; simpl; lia).
  rewrite Z.add_0_l. by rewrite at8_app_l by (simpl; lia).
Qed.

Lemma get32_enc v l : is_u32 v → get32 (enc32 v ++ l) 0 = v.
Proof.
  intros Hv. rewrite <-(get32_put32 (enc32 v ++ l) 0 v) at 2 by (done || (rewrite length_app; simpl; lia)).
  apply get32_shift. intros j Hj. symmetry. unfold put32. rewrite at8_in by (rewrite ?length_app; simpl; lia).
  rewrite Z.add_0_l. by rewrite at8_app_l by (simpl; lia).
Qed.

Lemma words_shift d d' a b n : (∀ j, 0 ≤ j < 4 * Z.of_nat n → at8 d (Z.of_nat a + j) = at8 d' (Z.of_nat b + j)) →
  words d a n = words d' b n.
Proof.
  intros H. unfold words. apply list_fmap_ext. intros i x Hx. apply lookup_seq in Hx as [-> Hi]. simpl.
  apply get32_shift. intros j Hj. specialize (H (4 * Z.of_nat i + j) ltac:(lia)).
  replace (Z.of_nat (a + _) + j) with (Z.of_nat a + (4 * Z.of_nat i + j)) by lia.
  replace (Z.of_nat (b + _) + j) with (Z.of_nat b + (4 * Z.of_nat i + j)) by lia. done.
Qed.

Lemma words_enc l : Forall is_u32 l → words (concat (map enc32 l)) 0 (length l) = l.
Proof.
  intros Hl. pose proof (enc32s_length l) as Hn.
  rewrite <-(words_put_words (concat (map enc32 l)) 0 l) at 3 by (done || lia).
  rewrite put_words_splice by lia. by rewrite splice_all.
Qed.

Lemma enc32s_u8 l : Forall is_u8 (concat (map enc32 l)).
Proof. induction l as [|v l IH]; [constructor|]. cbn [map concat]. apply Forall_app. split; [apply enc_u8|done]. Qed.

(** A field after other fields. *)
Lemma get16_at l v r : 0 ≤ v < 2 ^ 16 → get16 (l ++ enc16 v ++ r) (length l) = v.
Proof.
  intros Hv. rewrite <-(get16_enc v r Hv) at 2. apply get16_shift. intros j Hj. rewrite Z.add_0_l. apply at8_app_r. lia.
Qed.

Lemma get32_at l v r : is_u32 v → get32 (l ++ enc32 v ++ r) (length l) = v.
Proof.
  intros Hv. rewrite <-(get32_enc v r Hv) at 2. apply get32_shift. intros j Hj. rewrite Z.add_0_l. apply at8_app_r. lia.
Qed.

Lemma words_at l ws : Forall is_u32 ws → words (l ++ concat (map enc32 ws)) (length l) (length ws) = ws.
Proof.
  intros Hw. rewrite <-(words_enc ws Hw) at 3. apply words_shift. intros j Hj. rewrite Z.add_0_l. apply at8_app_r. lia.
Qed.
