(* ===== verification/Console.v ===== *)
(** The console (console.c, uart.c): output to the serial port and the screen,
    and the line discipline of input.

    [cn_serial] is what was sent to the serial port; [cn_crt] is the memory of
    the screen, a character and its attribute in each cell, and [cn_hi],
    [cn_lo] are the cursor registers 14 and 15 of the display controller.  The
    input ring holds the bytes typed; its three indices are 32-bit counters.
    A CPU that finds [panicked] set stops, which is the outcome [Blocked].  The
    sleep and wakeup of readers are the outcome [CSleep] and the next turn of
    the reader. *)

From Stdlib Require Import ZArith Lia.
From stdpp Require Import base numbers strings option gmap sets list list_numbers.
From S2P Require Import Prelude Printf Spinlock Block.

Abbreviation BACKSPACE := 0x100.
Abbreviation INPUT_BUF := 128.
(** [C(x)]: Control-x. *)
Definition C (x : Z) : Z := x - 64.

Record console := Console {
  cn_lock : bool;
  cn_locking : bool;
  cn_panicked : bool;
  cn_uart : bool;
  cn_serial : list Z;
  cn_crt : list Z;
  cn_hi : Z;
  cn_lo : Z;
  cn_buf : list Z;
  cn_r : Z;
  cn_w : Z;
  cn_e : Z
}.

Definition w_lock (b : bool) (s : console) : console :=
  Console b (cn_locking s) (cn_panicked s) (cn_uart s) (cn_serial s) (cn_crt s) (cn_hi s) (cn_lo s)
    (cn_buf s) (cn_r s) (cn_w s) (cn_e s).
Definition w_serial (l : list Z) (s : console) : console :=
  Console (cn_lock s) (cn_locking s) (cn_panicked s) (cn_uart s) l (cn_crt s) (cn_hi s) (cn_lo s)
    (cn_buf s) (cn_r s) (cn_w s) (cn_e s).
Definition w_screen (crt : list Z) (hi lo : Z) (s : console) : console :=
  Console (cn_lock s) (cn_locking s) (cn_panicked s) (cn_uart s) (cn_serial s) crt hi lo
    (cn_buf s) (cn_r s) (cn_w s) (cn_e s).
Definition w_input (buf : list Z) (r w e : Z) (s : console) : console :=
  Console (cn_lock s) (cn_locking s) (cn_panicked s) (cn_uart s) (cn_serial s) (cn_crt s) (cn_hi s) (cn_lo s)
    buf r w e.
Definition w_panicked (s : console) : console :=
  Console (cn_lock s) false true (cn_uart s) (cn_serial s) (cn_crt s) (cn_hi s) (cn_lo s)
    (cn_buf s) (cn_r s) (cn_w s) (cn_e s).
Definition cons_lk : lens console bool := Lens cn_lock w_lock.

(** * Output *)

(** The wait for the transmitter ends after 128 rounds, ready or not. *)
Definition uartputc (c : Z) : M console unit :=
  u ← mget cn_uart;
  if (u : bool) then mmod (λ s, w_serial (cn_serial s ++ [u8 c]) s) else mret tt.

(** [crt[pos] = v]. *)
Definition crt_store (crt : list Z) (pos v : Z) : option (list Z) :=
  if (0 <=? pos) && (pos <? Z.of_nat (length crt)) then Some (<[Z.to_nat pos := u16 v]> crt) else None.

(** The screen one line up: [memmove] of 23 lines and [memset] from [pos] to the
    end of line 23. *)
Definition scroll (crt : list Z) (pos : Z) : list Z :=
  let moved := splice crt 0 (slice crt 80 (23 * 80)) in
  splice moved (Z.to_nat pos) (replicate (Z.to_nat (24 * 80 - pos)) 0).

(** The character and the new position. *)
Definition cga_place (crt : list Z) (pos c : Z) : M console (list Z * Z) :=
  if c =? 10 then mret (crt, pos + (80 - pos mod 80))
  else if c =? BACKSPACE then mret (crt, if 0 <? pos then pos - 1 else pos)
  else crt ← mopt (crt_store crt pos (Z.lor (Z.land c 0xff) 0x700)); mret (crt, pos + 1).

Definition cgaputc (c : Z) : M console unit :=
  hi ← mget cn_hi;
  lo ← mget cn_lo;
  crt ← mget cn_crt;
  let pos := Z.lor (Z.shiftl hi 8) lo in
  '(crt, pos) ← cga_place crt pos c;
  if (pos <? 0) || (25 * 80 <? pos) then mpanic "pos under/overflow" else
  let '(crt, pos) := if 24 <=? pos / 80 then (scroll crt (pos - 80), pos - 80) else (crt, pos) in
  crt ← mopt (crt_store crt pos (Z.lor 32 0x700));
  mmod (w_screen crt (u8 (Z.shiftr pos 8)) (u8 pos)).

Definition consputc (c : Z) : M console unit :=
  p ← mget cn_panicked;
  if (p : bool) then mblock else
  (if c =? BACKSPACE then uartputc 8;; uartputc 32;; uartputc 8 else uartputc c);;
  cgaputc c.

Fixpoint consputs (l : list Z) : M console unit :=
  match l with [] => mret tt | c :: l => consputc c;; consputs l end.

(** [cprintf]: the lock is taken unless the kernel has panicked. *)
Definition cprintf (fmt : list Z) (args : list arg) : M console unit :=
  locking ← mget cn_locking;
  (if (locking : bool) then acquire cons_lk else mret tt);;
  t ← mopt (cprintf_text fmt args);
  consputs t;;
  (if (locking : bool) then release cons_lk else mret tt).

(** [consolewrite], between the unlocking and locking of the inode (for these see
    [Devsw]). *)
Definition consolewrite (buf : list Z) : M console Z :=
  acquire cons_lk;;
  consputs ((λ c, Z.land c 0xff) <$> buf);;
  release cons_lk;;
  mret (Z.of_nat (length buf)).

(** [panic], up to the endless loop at its end: the message is the format. *)
Definition panic (lapicid : Z) (s : list Z) (pcs : list Z) : M console unit :=
  mmod (λ s, Console (cn_lock s) false (cn_panicked s) (cn_uart s) (cn_serial s) (cn_crt s) (cn_hi s) (cn_lo s)
    (cn_buf s) (cn_r s) (cn_w s) (cn_e s));;
  cprintf (chars "lapicid %d: panic: ") [AInt lapicid];;
  cprintf s [];;
  cprintf [10] [];;
  foldr (λ pc m, cprintf (chars " %p") [AInt pc];; m) (mret tt) pcs;;
  mmod w_panicked.

(** * Input *)

Definition input_at (s : console) (i : Z) : option Z := cn_buf s !! Z.to_nat (u32 i mod INPUT_BUF).

(** Kill line: back to the start of the line being typed. *)
Fixpoint kill_line (fuel : nat) : M console unit :=
  match fuel with
  | O => mnofuel
  | S fuel =>
      e ← mget cn_e; w ← mget cn_w;
      if e =? w then mret tt else
      c ← mget (λ s, input_at s (e - 1)); c ← mopt c;
      if c =? 10 then mret tt else
      mmod (λ s, w_input (cn_buf s) (cn_r s) (cn_w s) (u32 (e - 1)) s);;
      consputc BACKSPACE;;
      kill_line fuel
  end.

(** One character from [getc]; true asks for the list of processes. *)
Definition consoleintr_char (c : Z) : M console bool :=
  if c =? C 80 then mret true
  else if c =? C 85 then kill_line (S (Z.to_nat INPUT_BUF));; mret false
  else if (c =? C 72) || (c =? 0x7f) then
    e ← mget cn_e; w ← mget cn_w;
    (if negb (e =? w) then
       mmod (λ s, w_input (cn_buf s) (cn_r s) (cn_w s) (u32 (e - 1)) s);; consputc BACKSPACE
     else mret tt);;
    mret false
  else
    e ← mget cn_e; r ← mget cn_r;
    if negb (c =? 0) && (u32 (e - r) <? INPUT_BUF) then
      let c := if c =? 13 then 10 else c in
      mmod (λ s, w_input (<[Z.to_nat (e mod INPUT_BUF) := u8 c]> (cn_buf s)) (cn_r s) (cn_w s) (u32 (e + 1)) s);;
      consputc c;;
      (if (c =? 10) || (c =? C 68) || (u32 (e + 1) =? u32 (r + INPUT_BUF)) then
         mmod (λ s, w_input (cn_buf s) (cn_r s) (cn_e s) (cn_e s) s)
       else mret tt);;
      mret false
    else mret false.

Fixpoint consoleintr_loop (cs : list Z) (doprocdump : bool) : M console bool :=
  match cs with
  | [] => mret doprocdump
  | c :: cs => d ← consoleintr_char c; consoleintr_loop cs (doprocdump || d)
  end.

(** [consoleintr] on the characters that [getc] returns before -1; the listing
    of processes follows when the lock is released. *)
Definition consoleintr (procdump : M console unit) (cs : list Z) : M console unit :=
  acquire cons_lk;;
  d ← consoleintr_loop cs false;
  release cons_lk;;
  (if (d : bool) then procdump else mret tt).

(** [uartintr] with [rx] received at the serial port. *)
Definition uartintr (procdump : M console unit) (rx : list Z) : M console unit :=
  u ← mget cn_uart;
  consoleintr procdump (if (u : bool) then rx else []).

(** How [consoleread] stops: with the bytes it copied, killed, or asleep with
    the bytes copied so far. *)
Inductive cread := CDone (l : list Z) | CKilled | CSleep (l : list Z).

(** The loop of [consoleread] up to its next sleep, with [got] copied and [n]
    bytes still wanted. *)
Fixpoint consoleread_loop (killed : bool) (got : list Z) (n : nat) : M console cread :=
  match n with
  | O => mret (CDone got)
  | S n =>
      r ← mget cn_r; w ← mget cn_w;
      if r =? w then mret (if killed then CKilled else CSleep got) else
      c ← mget (λ s, input_at s r); c ← mopt c;
      mmod (λ s, w_input (cn_buf s) (u32 (r + 1)) (cn_w s) (cn_e s) s);;
      if c =? C 68 then
        (if negb (length got =? 0)%nat then mmod (λ s, w_input (cn_buf s) r (cn_w s) (cn_e s) s) else mret tt);;
        mret (CDone got)
      else if c =? 10 then mret (CDone (got ++ [c]))
      else consoleread_loop killed (got ++ [c]) n
  end.

Definition consoleread (killed : bool) (got : list Z) (n : nat) : M console cread :=
  acquire cons_lk;;
  x ← consoleread_loop killed got n;
  release cons_lk;;
  mret x.

Definition consoleinit (s : console) : console :=
  Console false true (cn_panicked s) (cn_uart s) (cn_serial s) (cn_crt s) (cn_hi s) (cn_lo s)
    (cn_buf s) (cn_r s) (cn_w s) (cn_e s).

(** * The screen as a terminal *)

(** A cell as it looks: no character is a blank. *)
Definition glyph (v : Z) : Z := if v =? 0 then 0x720 else v.

Definition ROWS : nat := 24 * 80.

(** The cells before the cursor, after one more character; the line that runs
    out at the top is lost. *)
Definition term_put (t : list Z) (c : Z) : list Z :=
  let t := if c =? 10 then t ++ replicate (80 - length t mod 80) 0x720
           else if c =? BACKSPACE then take (length t - 1) t
           else t ++ [Z.lor (Z.land c 0xff) 0x700] in
  if (length t =? ROWS)%nat then drop 80 t else t.

(** The screen shows [t], with the cursor after it and blanks behind the cell of
    the cursor. *)
Record screen (crt : list Z) (p : nat) (t : list Z) : Prop := {
  sc_len : Z.of_nat (length crt) = 16384;
  sc_pos : (p ≤ ROWS)%nat;
  sc_text : glyph <$> take p crt = t;
  sc_blank : ∀ i, (p < i < ROWS)%nat → glyph <$> crt !! i = Some 0x720
}.

Lemma screen_length crt p t : screen crt p t → length t = p.
Proof. intros [Hl Hp <- _]. rewrite length_fmap, length_take. unfold ROWS in Hp. lia.
Qed.

Lemma crt_store_Some crt (p : nat) v : Z.of_nat (length crt) = 16384 → (p ≤ ROWS)%nat →
  crt_store crt (Z.of_nat p) v = Some (<[p := u16 v]> crt).
Proof.
  intros Hl Hp. unfold crt_store. rewrite Hl, Nat2Z.id. unfold ROWS in Hp.
  rewrite (proj2 (Z.leb_le _ _)), (proj2 (Z.ltb_lt _ _)) by lia. done.
Qed.

(** Writing at the cursor changes nothing that is shown. *)
Lemma screen_cursor crt p t v : screen crt p t → screen (<[p := v]> crt) p t.
Proof.
  intros [Hl Hp Ht Hb]. split; [by rewrite length_insert|done|by rewrite take_insert_ge by lia|].
  intros i Hi. rewrite list_lookup_insert_ne by lia. by apply Hb.
Qed.

Lemma screen_char crt p t v : screen crt p t → (p < ROWS)%nat → 0 < v → screen (<[p := v]> crt) (S p) (t ++ [v]).
Proof.
  intros [Hl Hp Ht Hb] Hlt Hv. split; [by rewrite length_insert|done| |].
  - erewrite take_S_r by (apply list_lookup_insert_eq; unfold ROWS in Hlt; lia).
    rewrite take_insert_ge by lia. rewrite fmap_app, Ht. simpl. unfold glyph. by rewrite (proj2 (Z.eqb_neq _ _)) by lia.
  - intros i Hi. rewrite list_lookup_insert_ne by lia. apply Hb. lia.
Qed.

Lemma screen_line crt p t q : screen crt p t → crt !! p = Some 0x720 → (p ≤ q ≤ ROWS)%nat → screen crt q (t ++ replicate (q - p) 0x720).
Proof.
  intros [Hl Hp Ht Hb] Hc Hq. split; [done|lia| |intros i Hi; apply Hb; lia].
  apply list_eq. intros i. assert (Hlt : length t = p) by (by eapply screen_length).
  rewrite list_lookup_fmap. destruct (decide (i < p)%nat) as [Hi|Hi].
  - rewrite lookup_take_lt, lookup_app_l, <-Ht, list_lookup_fmap, lookup_take_lt by lia. done.
  - rewrite lookup_app_r, Hlt by lia. destruct (decide (i < q)%nat).
    + rewrite lookup_take_lt, lookup_replicate_2 by lia. destruct (decide (i = p)) as [->|]; [by rewrite Hc|].
      apply Hb. lia.
    + rewrite lookup_take_ge by lia. symmetry. apply lookup_ge_None_2. rewrite length_replicate. lia.
Qed.

Lemma screen_back crt p t : screen crt p t → crt !! p = Some 0x720 → screen crt (p - 1) (take (p - 1) t).
Proof.
  intros [Hl Hp Ht Hb] Hc. split; [done|lia| |].
  - rewrite <-Ht, <-fmap_take, take_take. do 2 f_equal. lia.
  - intros i Hi. destruct (decide (i = p)) as [->|]; [by rewrite Hc|]. apply Hb. lia.
Qed.

Lemma scroll_app crt (k : nat) : Z.of_nat (length crt) = 16384 → k = (23 * 80)%nat →
  scroll crt (24 * 80 - 80) = slice crt 80 k ++ replicate 80 0 ++ drop (k + 80) crt.
Proof.
  intros Hl Hk. assert (HS : length (slice crt 80 k) = k) by (apply slice_length; lia).
  unfold scroll. rewrite <-Hk.
  replace (Z.to_nat (24 * 80 - 80)) with k by lia.
  replace (Z.to_nat (24 * 80 - (24 * 80 - 80))) with 80%nat by lia.
  assert (HM : splice crt 0 (slice crt 80 k) = slice crt 80 k ++ drop k crt) by (unfold splice; by rewrite HS).
  rewrite HM. unfold splice at 1. rewrite length_replicate. f_equal.
  - rewrite take_app_le by lia. apply take_ge. lia.
  - f_equal. rewrite drop_app_ge, HS by lia. rewrite drop_drop. f_equal. lia.
Qed.

Lemma screen_scroll crt t : screen crt ROWS t → screen (scroll crt (24 * 80 - 80)) (ROWS - 80) (drop 80 t).
Proof.
  intros [Hl Hp Ht Hb]. assert (Hk : ∃ k, k = (23 * 80)%nat) by eauto. destruct Hk as [k Hk].
  assert (HR : ROWS = (k + 80)%nat) by (subst k; done).
  assert (HS : length (slice crt 80 k) = k) by (apply slice_length; lia).
  rewrite (scroll_app crt k) by done. rewrite HR in *. replace (k + 80 - 80)%nat with k by lia. split.
  - rewrite !length_app, HS, length_replicate, length_drop. lia.
  - lia.
  - rewrite take_app_le by lia. rewrite take_ge by lia. rewrite <-Ht, <-fmap_drop. f_equal. unfold slice.
    rewrite skipn_firstn_comm. f_equal. lia.
  - intros i Hi. rewrite lookup_app_r by lia. rewrite lookup_app_l by (rewrite length_replicate; lia).
    rewrite lookup_replicate_2 by lia. done.
Qed.

Definition cursor (hi lo : Z) : Z := Z.lor (Z.shiftl hi 8) lo.

Lemma cursor_regs p : 0 ≤ p < 65536 → cursor (u8 (Z.shiftr p 8)) (u8 p) = p.
Proof.
  intros Hp. unfold cursor, u8. rewrite (Z.mod_small (Z.shiftr p 8))
    by (rewrite Z.shiftr_div_pow2 by lia; split; [apply Z.div_pos; lia|apply Z.div_lt_upper_bound; lia]).
  change 256 with (2 ^ 8). rewrite <-Z.land_ones by lia. apply Z.bits_inj'. intros n Hn.
  rewrite Z.lor_spec, Z.shiftl_spec, Z.land_spec, Z.testbit_ones by lia.
  destruct (decide (n < 8)) as [H|H].
  - rewrite (Z.testbit_neg_r _ (n - 8)) by lia. rewrite (proj2 (Z.leb_le 0 n)), (proj2 (Z.ltb_lt n 8)) by lia.
    by rewrite andb_true_r.
  - rewrite Z.shiftr_spec by lia. rewrite (proj2 (Z.ltb_ge n 8)) by lia. rewrite !andb_false_r, orb_false_r.
    f_equal. lia.
Qed.

Definition shows (s : console) (t : list Z) : Prop :=
  ∃ p, cursor (cn_hi s) (cn_lo s) = Z.of_nat p ∧ (p < ROWS)%nat ∧ screen (cn_crt s) p t ∧
    cn_crt s !! p = Some 0x720.

(** The end of [cgaputc]: scroll if the cursor left line 23, place the cursor. *)
Lemma cgaputc_end crt q t s : screen crt q t →
  ∃ crt' hi lo, (let '(crt, pos) := if 24 <=? Z.of_nat q / 80 then (scroll crt (Z.of_nat q - 80), Z.of_nat q - 80)
       else (crt, Z.of_nat q) in
     crt ← mopt (crt_store crt pos (Z.lor 32 0x700));
     mmod (w_screen crt (u8 (Z.shiftr pos 8)) (u8 pos))) s = Ok (tt, w_screen crt' hi lo s) ∧
    shows (w_screen crt' hi lo s) (if (length t =? ROWS)%nat then drop 80 t else t).
Proof.
  intros Hs. pose proof (screen_length _ _ _ Hs) as Ht. pose proof (sc_pos _ _ _ Hs) as Hq.
  assert (Hend : ∀ crt p t, screen crt p t → (p < ROWS)%nat → ∃ crt' hi lo,
    (crt ← mopt (crt_store crt (Z.of_nat p) (Z.lor 32 0x700));
     mmod (w_screen crt (u8 (Z.shiftr (Z.of_nat p) 8)) (u8 (Z.of_nat p)))) s = Ok (tt, w_screen crt' hi lo s) ∧
    shows (w_screen crt' hi lo s) t).
  { intros crt' p t' Hsc Hp. rewrite crt_store_Some by (apply Hsc || lia). do 3 eexists. split; [reflexivity|].
    exists p. split; [apply cursor_regs; unfold ROWS in Hp; lia|]. split; [done|].
    split; [by apply screen_cursor|]. apply list_lookup_insert_eq. pose proof (sc_len _ _ _ Hsc). unfold ROWS in Hp. lia. }
  destruct (decide (q = ROWS)) as [E|E].
  - rewrite Ht, E, Nat.eqb_refl. rewrite (proj2 (Z.leb_le 24 _)) by (unfold ROWS; apply Z.div_le_lower_bound; lia).
    rewrite E in Hs. apply screen_scroll in Hs.
    replace (Z.of_nat ROWS - 80) with (Z.of_nat (ROWS - 80)) by (unfold ROWS; lia).
    replace (Z.of_nat (ROWS - 80)) with (24 * 80 - 80) at 1 by (unfold ROWS; lia).
    apply Hend; [done|unfold ROWS; lia].
  - rewrite Ht, (proj2 (Nat.eqb_neq _ _)) by done.
    rewrite (proj2 (Z.leb_gt 24 _)) by (apply Z.div_lt_upper_bound; unfold ROWS in *; lia).
    apply Hend; [done|lia].
Qed.

Lemma screen_cell_range c : 0 < Z.lor (Z.land c 0xff) 0x700 < 65536.
Proof.
  change 0xff with (Z.ones 8). rewrite Z.land_ones by lia. pose proof (Z.mod_pos_bound c (2 ^ 8) ltac:(lia)) as H.
  split.
  - assert (0 ≤ Z.lor (c mod 2 ^ 8) 0x700) by (apply Z.lor_nonneg; lia).
    assert (Z.lor (c mod 2 ^ 8) 0x700 ≠ 0); [|lia]. intros E. apply Z.lor_eq_0_iff in E as [_ E]. done.
  - apply Z.log2_lt_cancel. change (Z.log2 65536) with 16. rewrite Z.log2_lor by lia.
    apply Z.max_lub_lt; [|done]. apply Z.le_lt_trans with (Z.log2 255); [apply Z.log2_le_mono; lia|done].
Qed.

Lemma cga_place_spec crt p t c s : screen crt p t → crt !! p = Some 0x720 → (p < ROWS)%nat →
  ∃ crt' q, cga_place crt (Z.of_nat p) c s = Ok ((crt', Z.of_nat q), s) ∧
    screen crt' q (if c =? 10 then t ++ replicate (80 - length t mod 80) 0x720
                   else if c =? BACKSPACE then take (length t - 1) t else t ++ [Z.lor (Z.land c 0xff) 0x700]).
Proof.
  intros Hs Hc Hp. pose proof (screen_length _ _ _ Hs) as Ht. unfold cga_place. rewrite Ht.
  destruct (c =? 10); [|destruct (c =? BACKSPACE)].
  - exists crt, (p + (80 - p mod 80))%nat. pose proof (Nat.mod_upper_bound p 80 ltac:(lia)) as Hm. split.
    + unfold mret, M_ret. do 3 f_equal. rewrite Nat2Z.inj_add, Nat2Z.inj_sub, Nat2Z.inj_mod by lia. done.
    + replace (80 - p mod 80)%nat with (p + (80 - p mod 80) - p)%nat at 2 by lia. apply screen_line; [done..|].
      split; [lia|]. pose proof (Nat.div_mod p 80 ltac:(lia)) as Hdm. unfold ROWS in *.
      assert (p / 80 < 24)%nat by (apply Nat.Div0.div_lt_upper_bound; lia). lia.
  - exists crt, (p - 1)%nat. split; [|by apply screen_back]. unfold mret, M_ret. do 3 f_equal.
    destruct (Z.ltb_spec 0 (Z.of_nat p)); lia.
  - pose proof (screen_cell_range c) as Hcell. rewrite crt_store_Some by (apply Hs || lia). do 2 eexists. split.
    + unfold mopt. unfold mbind, M_bind, mret, M_ret. by replace (Z.of_nat p + 1) with (Z.of_nat (S p)) by lia.
    + unfold u16. rewrite Z.mod_small by lia. apply screen_char; [done..|lia].
Qed.

Lemma cgaputc_spec c s t : shows s t →
  ∃ crt hi lo, cgaputc c s = Ok (tt, w_screen crt hi lo s) ∧ shows (w_screen crt hi lo s) (term_put t c).
Proof.
  intros (p & Hpos & Hp & Hs & Hc). destruct (cga_place_spec _ _ _ c s Hs Hc Hp) as (crt & q & E & Hs').
  destruct (cgaputc_end crt q _ s Hs') as (crt' & hi & lo & E' & Hsh). exists crt', hi, lo. split; [|exact Hsh].
  unfold cgaputc. do 3 erewrite bind_Ok by reflexivity. fold (cursor (cn_hi s) (cn_lo s)). rewrite Hpos.
  erewrite bind_Ok by exact E. cbv beta iota. pose proof (sc_pos _ _ _ Hs') as Hq. unfold ROWS in Hq.
  rewrite (proj2 (Z.ltb_ge _ 0)), (proj2 (Z.ltb_ge (25 * 80) _)) by lia. exact E'.
Qed.

(** * Characters out *)

Definition same_input (s s' : console) : Prop :=
  cn_lock s' = cn_lock s ∧ cn_locking s' = cn_locking s ∧ cn_panicked s' = cn_panicked s ∧ cn_uart s' = cn_uart s ∧
  cn_buf s' = cn_buf s ∧ cn_r s' = cn_r s ∧ cn_w s' = cn_w s ∧ cn_e s' = cn_e s.

(** What one character sends to the serial port. *)
Definition echo (uart : bool) (c : Z) : list Z :=
  if uart then if c =? BACKSPACE then [8; 32; 8] else [u8 c] else [].

Lemma consputc_spec c s t : cn_panicked s = false → shows s t →
  ∃ s', consputc c s = Ok (tt, s') ∧ same_input s s' ∧ shows s' (term_put t c) ∧
    cn_serial s' = cn_serial s ++ echo (cn_uart s) c.
Proof.
  intros Hp Hs. set (s1 := w_serial (cn_serial s ++ echo (cn_uart s) c) s).
  assert (E1 : (if c =? BACKSPACE then uartputc 8;; uartputc 32;; uartputc 8 else uartputc c) s = Ok (tt, s1)).
  { unfold s1, echo, uartputc. destruct s as [a b d u ser crt hi lo bf r w e]. cbn.
    destruct u; [|rewrite app_nil_r; by destruct (c =? BACKSPACE)].
    destruct (c =? BACKSPACE); [unfold mbind, M_bind, mmod, mget; cbn; unfold w_serial; cbn; by rewrite <-!app_assoc|done]. }
  destruct (cgaputc_spec c s1 t) as (crt & hi & lo & E2 & Hs2); [done|].
  exists (w_screen crt hi lo s1). split; [|done]. unfold consputc. erewrite bind_Ok by reflexivity. rewrite Hp.
  by erewrite bind_Ok by exact E1.
Qed.

Lemma same_input_trans s1 s2 s3 : same_input s1 s2 → same_input s2 s3 → same_input s1 s3.
Proof. unfold same_input. intuition congruence. Qed.

(** C33. Console output: whatever is printed, the screen is that of a terminal of
    24 lines of 80 characters and the serial port has got the same characters.
    The cursor never leaves the screen, so [cgaputc] does not panic and never
    writes outside the memory of the screen. *)
Theorem console_output_refines_terminal l s t : cn_panicked s = false → shows s t →
  ∃ s', consputs l s = Ok (tt, s') ∧ same_input s s' ∧ shows s' (foldl term_put t l) ∧
    cn_serial s' = cn_serial s ++ (l ≫= echo (cn_uart s)).
Proof.
  revert s t. induction l as [|c l IH]; intros s t Hp Hs.
  - exists s. split; [done|]. split; [done|]. split; [done|]. by rewrite app_nil_r.
  - destruct (consputc_spec c s t Hp Hs) as (s1 & E1 & Hi1 & Hs1 & Hser1).
    pose proof Hi1 as (_ & _ & Hp1 & Hu1 & _). rewrite Hp in Hp1.
    destruct (IH s1 _ Hp1 Hs1) as (s2 & E2 & Hi2 & Hs2 & Hser2). exists s2. split_and!; try done.
    + cbn [consputs]. by erewrite bind_Ok by exact E1.
    + by eapply same_input_trans.
    + rewrite Hser2, Hser1, Hu1, <-app_assoc. done.
Qed.

(** * The line discipline *)

(** An abstract terminal: lines that can be read, the line being typed, the
    screen, and what went to the serial port. *)
Record tty := Tty { t_ready : list Z; t_edit : list Z; t_text : list Z; t_sent : list Z }.

Section tty.
Context (uart : bool).

Definition tty_putc (c : Z) (t : tty) : tty :=
  Tty (t_ready t) (t_edit t) (term_put (t_text t) c) (t_sent t ++ echo uart c).

Definition tty_erase (t : tty) : tty :=
  tty_putc BACKSPACE (Tty (t_ready t) (take (length (t_edit t) - 1) (t_edit t)) (t_text t) (t_sent t)).

(** A key: erase a character or the line, or add to the line, which becomes
    ready with a newline, with control-D, or when there is no more room. *)
Definition tty_key (c : Z) (t : tty) : bool * tty :=
  if c =? C 80 then (true, t)
  else if c =? C 85 then (false, Nat.iter (length (t_edit t)) tty_erase t)
  else if (c =? C 72) || (c =? 0x7f) then (false, if decide (t_edit t = []) then t else tty_erase t)
  else
    let used := (length (t_ready t) + length (t_edit t))%nat in
    if negb (c =? 0) && (used <? 128)%nat then
      let c := if c =? 13 then 10 else c in
      let t := tty_putc c (Tty (t_ready t) (t_edit t ++ [c]) (t_text t) (t_sent t)) in
      (false, if (c =? 10) || (c =? C 68) || (S used =? 128)%nat
              then Tty (t_ready t ++ t_edit t) [] (t_text t) (t_sent t) else t)
    else (false, t).

Fixpoint tty_keys (cs : list Z) (d : bool) (t : tty) : bool * tty :=
  match cs with
  | [] => (d, t)
  | c :: cs => let '(d', t) := tty_key c t in tty_keys cs (d || d') t
  end.
End tty.

Definition tty_take (ready : list Z) (t : tty) : tty := Tty ready (t_edit t) (t_text t) (t_sent t).

(** A reader takes bytes up to a newline; control-D ends the read and is left
    for the next one unless it comes first. *)
Fixpoint tty_read (killed : bool) (got : list Z) (n : nat) (t : tty) : cread * tty :=
  match n with
  | O => (CDone got, t)
  | S n =>
      match t_ready t with
      | [] => (if killed then CKilled else CSleep got, t)
      | c :: ready =>
          if c =? C 68 then (CDone got, if decide (got = []) then tty_take ready t else t)
          else if c =? 10 then (CDone (got ++ [c]), tty_take ready t)
          else tty_read killed (got ++ [c]) n (tty_take ready t)
      end
  end.

(** [l] stands in the ring from the counter [i] on. *)
Definition ring_at (buf : list Z) (i : Z) (l : list Z) : Prop :=
  ∀ k x, l !! k = Some x → buf !! Z.to_nat ((i + Z.of_nat k) mod INPUT_BUF) = Some x.

Record cons_abs (s : console) (t : tty) : Prop := {
  ca_run : cn_panicked s = false;
  ca_shows : shows s (t_text t);
  ca_sent : cn_serial s = t_sent t;
  ca_len : length (cn_buf s) = 128%nat;
  ca_r : is_u32 (cn_r s);
  ca_w : cn_w s = u32 (cn_r s + Z.of_nat (length (t_ready t)));
  ca_e : cn_e s = u32 (cn_r s + Z.of_nat (length (t_ready t) + length (t_edit t)));
  ca_room : (length (t_ready t) + length (t_edit t) ≤ 128)%nat;
  ca_ring : ring_at (cn_buf s) (cn_r s) (t_ready t ++ t_edit t)
}.

(** 128 divides 2^32, so a counter that wraps keeps its place in the ring. *)
Lemma u32_ring z : u32 z mod INPUT_BUF = z mod INPUT_BUF.
Proof. unfold u32. apply Z.mod_mod_divide. by exists (2 ^ 25). Qed.

Lemma u32_add a b : u32 (u32 a + b) = u32 (a + b).
Proof. unfold u32. by rewrite Z.add_mod_idemp_l. Qed.

Lemma u32_eq_add r a b : 0 ≤ a < 2 ^ 32 → 0 ≤ b < 2 ^ 32 → u32 (r + a) = u32 (r + b) → a = b.
Proof.
  unfold u32. intros Ha Hb E. rewrite <-(Z.mod_small a (2 ^ 32)), <-(Z.mod_small b (2 ^ 32)) by done.
  replace a with (r + a - r) by lia. replace b with (r + b - r) by lia.
  rewrite <-(Zminus_mod_idemp_l (r + a)), E. by rewrite Zminus_mod_idemp_l.
Qed.

Lemma u32_sub_add r n : is_u32 r → 0 ≤ n < 2 ^ 32 → u32 (u32 (r + n) - r) = n.
Proof.
  intros Hr Hn. unfold u32. rewrite Zminus_mod_idemp_l. replace (r + n - r) with n by lia. by apply Z.mod_small.
Qed.

Lemma cons_abs_putc c s t : cons_abs s t →
  ∃ s', consputc c s = Ok (tt, s') ∧ same_input s s' ∧ cons_abs s' (tty_putc (cn_uart s) c t).
Proof.
  intros [Hp Hs Hse Hl Hr Hw He Hro Hri]. destruct (consputc_spec c s (t_text t) Hp Hs) as (s' & E & Hi & Hs' & Hse').
  exists s'. split; [done|]. split; [done|]. destruct Hi as (_ & _ & Ep & _ & Eb & Er & Ew & Ee).
  split; rewrite ?Ep, ?Eb, ?Er, ?Ew, ?Ee; try done. simpl. by rewrite Hse', Hse.
Qed.

(** The last character of the line being typed, and the ring without it. *)
Lemma cons_abs_last s t c l : cons_abs s t → t_edit t = l ++ [c] →
  (cn_e s =? cn_w s) = false ∧ input_at s (cn_e s - 1) = Some c ∧
  cons_abs (w_input (cn_buf s) (cn_r s) (cn_w s) (u32 (cn_e s - 1)) s)
    (Tty (t_ready t) (take (length (t_edit t) - 1) (t_edit t)) (t_text t) (t_sent t)).
Proof.
  intros [Hp Hs Hse Hl Hr Hw He Hro Hri] Hc. rewrite Hc in *. rewrite length_app in *. simpl length in *.
  assert (He' : u32 (cn_e s - 1) = u32 (cn_r s + Z.of_nat (length (t_ready t) + length l))).
  { rewrite He. unfold Z.sub. rewrite u32_add. f_equal. lia. }
  replace (length l + 1 - 1)%nat with (length l) by lia. rewrite take_app_length. split_and!.
  - apply Z.eqb_neq. rewrite He, Hw. intros E. apply u32_eq_add in E; lia.
  - unfold input_at. rewrite He', u32_ring. apply Hri.
    rewrite app_assoc, lookup_app_r by (rewrite length_app; lia). rewrite length_app.
    by replace (_ - _)%nat with 0%nat by lia.
  - split; simpl; try done; [lia|].
    intros k x Hk. apply Hri. rewrite app_assoc. by apply lookup_app_l_Some.
Qed.

Lemma kill_line_spec n s t : cons_abs s t → 10 ∉ t_edit t → length (t_edit t) = n → ∀ fuel, (n < fuel)%nat →
  ∃ s', kill_line fuel s = Ok (tt, s') ∧ cn_lock s' = cn_lock s ∧ cn_uart s' = cn_uart s ∧
    cons_abs s' (Nat.iter n (tty_erase (cn_uart s)) t).
Proof.
  revert s t. induction n as [|n IH]; intros s t Ha Hed Hn [|fuel] Hf; [lia| |lia|]; cbn [kill_line].
  - exists s. do 2 erewrite bind_Ok by reflexivity. rewrite (proj2 (Z.eqb_eq _ _)); [done|].
    rewrite (ca_e _ _ Ha), (ca_w _ _ Ha), Hn. by rewrite Nat.add_0_r.
  - destruct (exists_last (l := t_edit t)) as (l & c & Hc); [by intros E; rewrite E in Hn|].
    destruct (cons_abs_last s t c l Ha Hc) as (Hne & Hat & Ha').
    do 2 erewrite bind_Ok by reflexivity. rewrite Hne. do 2 erewrite bind_Ok by (cbn; rewrite ?Hat; reflexivity).
    rewrite (proj2 (Z.eqb_neq c 10)) by (intros ->; apply Hed; rewrite Hc; set_solver).
    erewrite bind_Ok by reflexivity. destruct (cons_abs_putc BACKSPACE _ _ Ha') as (s1 & E1 & Hi1 & Ha1).
    erewrite bind_Ok by exact E1. destruct Hi1 as (Hl1 & _ & _ & Hu1 & _). simpl in Hl1, Hu1.
    destruct (IH s1 (tty_erase (cn_uart s) t)) with (fuel := fuel) as (s2 & E2 & Hl2 & Hu2 & Ha2).
    { exact Ha1. }
    { simpl. intros Hin%elem_of_take. destruct Hin as (k & Hk & _). apply Hed. by eapply list_elem_of_lookup_2. }
    { simpl. rewrite length_take. lia. }
    { lia. }
    exists s2. split; [done|]. rewrite Hl2, Hl1, Hu2, Hu1. split_and!; try done.
    rewrite Nat.iter_succ_r. by rewrite Hu1 in Ha2.
Qed.

Lemma ring_at_snoc buf r l c : length buf = 128%nat → (length l < 128)%nat → ring_at buf r l →
  ring_at (<[Z.to_nat ((r + Z.of_nat (length l)) mod INPUT_BUF) := c]> buf) r (l ++ [c]).
Proof.
  intros Hb Hl Hr k x Hk. assert (Hm : ∀ z, 0 ≤ z mod INPUT_BUF < INPUT_BUF) by (intros z; apply Z.mod_pos_bound; lia).
  apply lookup_snoc_Some in Hk as [[Hk Hx]|[-> <-]].
  - rewrite list_lookup_insert_ne; [by apply Hr|]. intros E. apply (f_equal Z.of_nat) in E.
    rewrite !Z2Nat.id in E by apply Hm. pose proof (Z.div_mod (r + Z.of_nat (length l)) INPUT_BUF ltac:(lia)).
    pose proof (Z.div_mod (r + Z.of_nat k) INPUT_BUF ltac:(lia)). nia.
  - apply list_lookup_insert_eq. pose proof (Hm (r + Z.of_nat (length l))). lia.
Qed.

(** A character that is added to the line, and the line made ready. *)
Lemma cons_abs_add s t c : cons_abs s t → is_u8 c → (length (t_ready t) + length (t_edit t) < 128)%nat →
  cons_abs (w_input (<[Z.to_nat (cn_e s mod INPUT_BUF) := u8 c]> (cn_buf s)) (cn_r s) (cn_w s) (u32 (cn_e s + 1)) s)
    (Tty (t_ready t) (t_edit t ++ [c]) (t_text t) (t_sent t)).
Proof.
  intros [Hp Hs Hse Hl Hr Hw He Hro Hri] Hc Hlt. split; simpl; try done.
  - by rewrite length_insert.
  - rewrite He, u32_add, length_app. f_equal. simpl. lia.
  - rewrite length_app. simpl. lia.
  - assert (u8 c = c) as -> by (by apply Z.mod_small). rewrite He, u32_ring, <-length_app, app_assoc.
    apply ring_at_snoc; [done|by rewrite length_app|done].
Qed.

Lemma cons_abs_commit s t : cons_abs s t →
  cons_abs (w_input (cn_buf s) (cn_r s) (cn_e s) (cn_e s) s) (Tty (t_ready t ++ t_edit t) [] (t_text t) (t_sent t)).
Proof.
  intros [Hp Hs Hse Hl Hr Hw He Hro Hri]. split; simpl; rewrite ?length_app, ?app_nil_r, ?Nat.add_0_r; done.
Qed.

(** A character that is not for editing. *)
Lemma consoleintr_add_spec c s t : cons_abs s t → 10 ∉ t_edit t → is_u8 c →
  let used := (length (t_ready t) + length (t_edit t))%nat in
  let r := if negb (c =? 0) && (used <? 128)%nat then
      let c := if c =? 13 then 10 else c in
      let t := tty_putc (cn_uart s) c (Tty (t_ready t) (t_edit t ++ [c]) (t_text t) (t_sent t)) in
      (false, if (c =? 10) || (c =? C 68) || (S used =? 128)%nat
              then Tty (t_ready t ++ t_edit t) [] (t_text t) (t_sent t) else t)
    else (false, t) in
  ∃ s', (if negb (c =? 0) && (u32 (cn_e s - cn_r s) <? INPUT_BUF) then
      let c := if c =? 13 then 10 else c in
      mmod (λ s0, w_input (<[Z.to_nat (cn_e s mod INPUT_BUF) := u8 c]> (cn_buf s0)) (cn_r s0) (cn_w s0) (u32 (cn_e s + 1)) s0);;
      consputc c;;
      (if (c =? 10) || (c =? C 68) || (u32 (cn_e s + 1) =? u32 (cn_r s + INPUT_BUF)) then
         mmod (λ s, w_input (cn_buf s) (cn_r s) (cn_e s) (cn_e s) s)
       else mret tt);;
      mret false
    else mret false) s = Ok (r.1, s') ∧ cn_lock s' = cn_lock s ∧ cn_uart s' = cn_uart s ∧ cons_abs s' r.2 ∧
    10 ∉ t_edit r.2.
Proof.
  intros Ha Hed Hc used. pose proof (ca_room _ _ Ha) as Hroom. fold used in Hroom.
  assert (Hu : u32 (cn_e s - cn_r s) = Z.of_nat used) by (rewrite (ca_e _ _ Ha), u32_sub_add; [done|apply Ha|lia]).
  rewrite Hu. assert (E1 : (Z.of_nat used <? INPUT_BUF) = (used <? 128)%nat).
  { destruct (Nat.ltb_spec used 128); [apply Z.ltb_lt|apply Z.ltb_ge]; lia. }
  rewrite E1. destruct (negb (c =? 0)); [|by exists s]. destruct (Nat.ltb_spec used 128) as [Hlt|]; [|by exists s].
  cbn [andb]. set (d := if c =? 13 then 10 else c).
  assert (Hd : is_u8 d) by (unfold d; by destruct (c =? 13)).
  pose proof (cons_abs_add s t d Ha Hd Hlt) as Ha1. erewrite bind_Ok by reflexivity.
  destruct (cons_abs_putc d _ _ Ha1) as (s2 & E2 & Hi2 & Ha2). erewrite bind_Ok by exact E2.
  destruct Hi2 as (Hl2 & _ & _ & Hu2 & _ & _ & _ & He2). cbn in Hl2, Hu2, He2.
  assert (Ef : (u32 (cn_e s + 1) =? u32 (cn_r s + INPUT_BUF)) = (S used =? 128)%nat).
  { rewrite (ca_e _ _ Ha), u32_add. fold used. destruct (Nat.eqb_spec (S used) 128) as [E|E].
    - apply Z.eqb_eq. f_equal. lia.
    - apply Z.eqb_neq. intros E'. rewrite <-Z.add_assoc in E'. apply u32_eq_add in E'; lia. }
  rewrite Ef. destruct ((d =? 10) || (d =? C 68) || (S used =? 128)%nat) eqn:Eb; eexists.
  - split; [by erewrite bind_Ok by reflexivity|]. split; [done|]. split; [done|].
    split; [by apply cons_abs_commit in Ha2|]. apply not_elem_of_nil.
  - split; [by erewrite bind_Ok by reflexivity|]. split; [done|]. split; [done|]. split; [done|].
    cbn. apply orb_false_elim in Eb as [[Eb _]%orb_false_elim _]. apply Z.eqb_neq in Eb. set_solver.
Qed.

Lemma consoleintr_char_spec c s t : cons_abs s t → 10 ∉ t_edit t → is_u8 c →
  ∃ s', consoleintr_char c s = Ok ((tty_key (cn_uart s) c t).1, s') ∧ cn_lock s' = cn_lock s ∧
    cn_uart s' = cn_uart s ∧ cons_abs s' (tty_key (cn_uart s) c t).2 ∧ 10 ∉ t_edit (tty_key (cn_uart s) c t).2.
Proof.
  intros Ha Hed Hc. unfold consoleintr_char, tty_key. destruct (c =? C 80); [by exists s|].
  destruct (c =? C 85).
  { destruct (kill_line_spec _ s t Ha Hed eq_refl (S (Z.to_nat INPUT_BUF))) as (s' & E & Hl & Hu & Ha').
    { pose proof (ca_room _ _ Ha). lia. }
    exists s'. erewrite bind_Ok by exact E. split_and!; try done. cbn [snd].
    assert (Hn : ∀ n, 10 ∉ t_edit (Nat.iter n (tty_erase (cn_uart s)) t)); [|apply Hn].
    induction n as [|n IHn]; [done|]. simpl. intros (k & Hk & _)%elem_of_take. apply IHn.
    by eapply list_elem_of_lookup_2. }
  destruct ((c =? C 72) || (c =? 0x7f)).
  { do 2 erewrite bind_Ok by reflexivity. destruct (decide (t_edit t = [])) as [E|E].
    - exists s. rewrite (proj2 (Z.eqb_eq _ _)); [done|]. rewrite (ca_e _ _ Ha), (ca_w _ _ Ha), E. by rewrite Nat.add_0_r.
    - destruct (exists_last E) as (l & x & Hx). destruct (cons_abs_last s t x l Ha Hx) as (Hne & _ & Ha').
      rewrite Hne. cbn [negb]. destruct (cons_abs_putc BACKSPACE _ _ Ha') as (s1 & E1 & (Hl1 & _ & _ & Hu1 & _) & Ha1).
      exists s1. erewrite bind_Ok by (erewrite bind_Ok by reflexivity; exact E1). split_and!; try done.
      simpl. intros (k & Hk & _)%elem_of_take. apply Hed. by eapply list_elem_of_lookup_2. }
  do 2 erewrite bind_Ok by reflexivity. by apply consoleintr_add_spec.
Qed.

Lemma consoleintr_loop_spec cs d s t : cons_abs s t → 10 ∉ t_edit t → Forall is_u8 cs →
  ∃ s', consoleintr_loop cs d s = Ok ((tty_keys (cn_uart s) cs d t).1, s') ∧ cn_lock s' = cn_lock s ∧
    cn_uart s' = cn_uart s ∧ cons_abs s' (tty_keys (cn_uart s) cs d t).2 ∧ 10 ∉ t_edit (tty_keys (cn_uart s) cs d t).2.
Proof.
  revert d s t. induction cs as [|c cs IH]; intros d s t Ha Hed Hcs; [by exists s|].
  apply Forall_cons in Hcs as [Hc Hcs].
  destruct (consoleintr_char_spec c s t Ha Hed Hc) as (s1 & E1 & Hl1 & Hu1 & Ha1 & Hed1).
  cbn [consoleintr_loop tty_keys]. destruct (tty_key (cn_uart s) c t) as [d' t1]. cbn [fst snd] in *.
  destruct (IH (d || d') s1 t1 Ha1 Hed1 Hcs) as (s2 & E2 & Hl2 & Hu2 & Ha2 & Hed2). rewrite Hu1 in *.
  exists s2. erewrite bind_Ok by exact E1. by rewrite Hl2, Hl1.
Qed.

(** One byte leaves the ring at the reader's end. *)
Lemma cons_abs_pop s t c l : cons_abs s t → t_ready t = c :: l →
  (cn_r s =? cn_w s) = false ∧ input_at s (cn_r s) = Some c ∧
  cons_abs (w_input (cn_buf s) (u32 (cn_r s + 1)) (cn_w s) (cn_e s) s) (tty_take l t).
Proof.
  intros [Hp Hs Hse Hl Hr Hw He Hro Hri] Hc. rewrite Hc in *. simpl length in *. split_and!.
  - apply Z.eqb_neq. rewrite Hw, <-(u32_small (cn_r s)) at 1 by done. rewrite <-(Z.add_0_r (cn_r s)) at 1.
    intros E. apply u32_eq_add in E; lia.
  - unfold input_at. rewrite u32_ring. rewrite <-(Z.add_0_r (cn_r s)). by apply (Hri 0%nat).
  - split; simpl; try done.
    + apply u32_range.
    + rewrite u32_add, Hw. f_equal. lia.
    + rewrite u32_add, He. f_equal. lia.
    + lia.
    + intros k x Hk. rewrite <-(u32_ring (u32 _ + _)), u32_add, u32_ring.
      replace (cn_r s + 1 + Z.of_nat k) with (cn_r s + Z.of_nat (S k)) by lia. by apply Hri.
Qed.

Lemma consoleread_loop_spec killed got n s t : cons_abs s t →
  ∃ s', consoleread_loop killed got n s = Ok ((tty_read killed got n t).1, s') ∧ cn_lock s' = cn_lock s ∧
    cn_uart s' = cn_uart s ∧ cons_abs s' (tty_read killed got n t).2.
Proof.
  revert got s t. induction n as [|n IH]; intros got s t Ha; [by exists s|]. cbn [consoleread_loop tty_read].
  do 2 erewrite bind_Ok by reflexivity. destruct (t_ready t) as [|c l] eqn:Ec.
  - exists s. rewrite (proj2 (Z.eqb_eq _ _)); [done|]. rewrite (ca_w _ _ Ha), Ec, Z.add_0_r, u32_small; [done|apply Ha].
  - destruct (cons_abs_pop s t c l Ha Ec) as (Hne & Hat & Ha'). rewrite Hne.
    do 2 erewrite bind_Ok by (cbn; rewrite ?Hat; reflexivity). erewrite bind_Ok by reflexivity.
    destruct (c =? C 68); [|destruct (c =? 10)].
    + destruct got as [|x got]; eexists; (split; [by erewrite bind_Ok by reflexivity|]); cbn.
      * split; [done|]. split; [done|]. exact Ha'.
      * split; [done|]. split; [done|]. by destruct s, t.
    + eexists. split; [reflexivity|]. split; [done|]. split; [done|]. exact Ha'.
    + destruct (IH (got ++ [c]) _ _ Ha') as (s' & E & Hl & Hu & Ha2). exists s'. split; [exact E|]. by rewrite Hl, Hu.
Qed.

Lemma consputs_abs l s t : cons_abs s t →
  ∃ s', consputs l s = Ok (tt, s') ∧ cn_lock s' = cn_lock s ∧ cn_uart s' = cn_uart s ∧
    cons_abs s' (foldl (λ t c, tty_putc (cn_uart s) c t) t l).
Proof.
  revert s t. induction l as [|c l IH]; intros s t Ha; [by exists s|].
  destruct (cons_abs_putc c s t Ha) as (s1 & E1 & (Hl1 & _ & _ & Hu1 & _) & Ha1).
  destruct (IH s1 _ Ha1) as (s2 & E2 & Hl2 & Hu2 & Ha2). exists s2. cbn [consputs foldl].
  erewrite bind_Ok by exact E1. rewrite Hl2, Hu2, Hl1, Hu1 in *. done.
Qed.

(** What happens to the console: an interrupt with the characters of the
    keyboard or the serial port, a turn of a reader, a write. *)
Inductive cop :=
| OKeys (cs : list Z)
| ORead (killed : bool) (got : list Z) (n : nat)
| OWrite (buf : list Z).

(** [dump] is what the list of processes prints. *)
Definition cop_run (dump : list Z) (o : cop) : M console (option cread) :=
  match o with
  | OKeys cs => consoleintr (consputs dump) cs;; mret None
  | ORead killed got n => x ← consoleread killed got n; mret (Some x)
  | OWrite buf => consolewrite buf;; mret None
  end.

Definition tty_step (uart : bool) (dump : list Z) (o : cop) (t : tty) : option cread * tty :=
  match o with
  | OKeys cs =>
      let '(d, t) := tty_keys uart cs false t in
      (None, if d : bool then foldl (λ t c, tty_putc uart c t) t dump else t)
  | ORead killed got n => let '(x, t) := tty_read killed got n t in (Some x, t)
  | OWrite buf => (None, foldl (λ t c, tty_putc uart c t) t (u8 <$> buf))
  end.

Fixpoint cops_run (dump : list Z) (os : list cop) : M console (list cread) :=
  match os with
  | [] => mret []
  | o :: os => x ← cop_run dump o; l ← cops_run dump os; mret (option_list x ++ l)
  end.

Fixpoint tty_run (uart : bool) (dump : list Z) (os : list cop) (t : tty) : list cread * tty :=
  match os with
  | [] => ([], t)
  | o :: os =>
      let '(x, t) := tty_step uart dump o t in
      let '(l, t) := tty_run uart dump os t in (option_list x ++ l, t)
  end.

Definition cop_ok (o : cop) : Prop := match o with OKeys cs => Forall is_u8 cs | _ => True end.

Definition cons_inv (s : console) (t : tty) : Prop := cons_abs s t ∧ 10 ∉ t_edit t ∧ cn_lock s = false.

Lemma cons_abs_lock b s t : cons_abs s t → cons_abs (w_lock b s) t.
Proof. by intros []. Qed.

Lemma tty_puts_edit uart l t : t_edit (foldl (λ t c, tty_putc uart c t) t l) = t_edit t.
Proof. revert t. induction l as [|c l IH]; intros t; simpl; [done|]. by rewrite IH. Qed.

Lemma tty_read_edit killed got n t : t_edit (tty_read killed got n t).2 = t_edit t.
Proof.
  revert got t. induction n as [|n IH]; intros got t; simpl; [done|]. destruct (t_ready t); [done|].
  destruct (_ =? C 68); [by case_decide|]. destruct (_ =? 10); [done|]. by rewrite IH.
Qed.

Lemma acquire_cons s : cn_lock s = false → acquire cons_lk s = Ok (tt, w_lock true s).
Proof. intros H. unfold acquire. simpl. by rewrite H. Qed.

Lemma release_cons s : cn_lock s = true → release cons_lk s = Ok (tt, w_lock false s).
Proof. intros H. unfold release. simpl. by rewrite H. Qed.

Lemma cop_refines dump o s t : cons_inv s t → cop_ok o →
  ∃ s', cop_run dump o s = Ok ((tty_step (cn_uart s) dump o t).1, s') ∧ cn_uart s' = cn_uart s ∧
    cons_inv s' (tty_step (cn_uart s) dump o t).2.
Proof.
  intros (Ha & Hed & Hlk) Hok. pose proof (cons_abs_lock true s t Ha) as Ha0. pose proof (acquire_cons s Hlk) as Eq.
  destruct o as [cs|killed got n|buf]; cbn [cop_run tty_step].
  - destruct (consoleintr_loop_spec cs false _ t Ha0 Hed Hok) as (s1 & E1 & Hl1 & Hu1 & Ha1 & Hed1).
    cbn in Hl1, Hu1. change (cn_uart (w_lock true s)) with (cn_uart s) in *.
    destruct (tty_keys (cn_uart s) cs false t) as [d t1]. cbn [fst snd] in *.
    unfold consoleintr. rewrite !bind_assoc. erewrite bind_Ok by exact Eq. rewrite bind_assoc.
    erewrite bind_Ok by exact E1. rewrite bind_assoc. erewrite bind_Ok by by apply release_cons.
    apply (cons_abs_lock false) in Ha1. destruct d.
    + destruct (consputs_abs dump _ _ Ha1) as (s2 & E2 & Hl2 & Hu2 & Ha2). cbn in Hl2, Hu2.
      erewrite bind_Ok by exact E2. exists s2. split; [done|]. split; [by rewrite Hu2|].
      change (cn_uart (w_lock false s1)) with (cn_uart s1) in Ha2. rewrite Hu1 in Ha2.
      split_and!; [done|by rewrite tty_puts_edit|done].
    + exists (w_lock false s1). by erewrite bind_Ok by reflexivity.
  - destruct (consoleread_loop_spec killed got n _ t Ha0) as (s1 & E1 & Hl1 & Hu1 & Ha1). cbn in Hl1, Hu1.
    pose proof (tty_read_edit killed got n t) as Hed1. destruct (tty_read killed got n t) as [x t1].
    cbn [fst snd] in *. exists (w_lock false s1). unfold consoleread. rewrite !bind_assoc.
    erewrite bind_Ok by exact Eq. rewrite bind_assoc. erewrite bind_Ok by exact E1. rewrite bind_assoc.
    erewrite bind_Ok by by apply release_cons. split; [done|]. split; [done|].
    split_and!; [by apply cons_abs_lock|by rewrite Hed1|done].
  - assert ((λ c, Z.land c 0xff) <$> buf = u8 <$> buf) as Eb.
    { apply list_fmap_ext. intros i c _. change 0xff with (Z.ones 8). by rewrite Z.land_ones. }
    destruct (consputs_abs (u8 <$> buf) _ _ Ha0) as (s1 & E1 & Hl1 & Hu1 & Ha1). cbn in Hl1, Hu1, Ha1.
    exists (w_lock false s1). unfold consolewrite. rewrite Eb, !bind_assoc. erewrite bind_Ok by exact Eq.
    rewrite bind_assoc. erewrite bind_Ok by exact E1. rewrite bind_assoc. erewrite bind_Ok by by apply release_cons.
    split; [done|]. split; [done|]. split_and!; [by apply cons_abs_lock|cbn [snd]; by rewrite tty_puts_edit|done].
Qed.

(** C31. The line discipline: any sequence of interrupts with typed characters,
    turns of readers and writes runs without a panic and does to the ring with
    its wrapping counters, the screen and the serial port what it does to the
    abstract terminal: readers get whole edited lines, or what control-D or a
    full ring makes ready, and sleep when there is none. *)
Theorem console_refines_tty dump os s t : cons_inv s t → Forall cop_ok os →
  ∃ s', cops_run dump os s = Ok ((tty_run (cn_uart s) dump os t).1, s') ∧
    cons_inv s' (tty_run (cn_uart s) dump os t).2.
Proof.
  revert s t. induction os as [|o os IH]; intros s t Hi Hok; [by exists s|]. apply Forall_cons in Hok as [Ho Hok].
  destruct (cop_refines dump o s t Hi Ho) as (s1 & E1 & Hu1 & Hi1). cbn [cops_run tty_run].
  destruct (tty_step (cn_uart s) dump o t) as [x t1]. cbn [fst snd] in *.
  destruct (IH s1 t1 Hi1 Hok) as (s2 & E2 & Hi2). rewrite Hu1 in *.
  destruct (tty_run (cn_uart s) dump os t1) as [l t2]. cbn [fst snd] in *.
  exists s2. erewrite bind_Ok by exact E1. by erewrite bind_Ok by exact E2.
Qed.

(** * Examples *)

(** A blank screen, and counters about to wrap around. *)
Definition sample_console : console :=
  Console false true false true [] (replicate (Z.to_nat 16384) 0x720) 0 0 (replicate 128 0)
    (2 ^ 32 - 2) (2 ^ 32 - 2) (2 ^ 32 - 2).

Lemma sample_shows : shows sample_console [].
Proof.
  exists 0%nat. split; [done|]. split; [unfold ROWS; lia|]. split; [|by apply lookup_replicate_2; lia].
  split; [|unfold ROWS; lia|done|].
  - change (cn_crt sample_console) with (replicate (Z.to_nat 16384) 0x720). rewrite length_replicate. lia.
  - intros i Hi. change (cn_crt sample_console) with (replicate (Z.to_nat 16384) 0x720). unfold ROWS in Hi.
    rewrite lookup_replicate_2 by lia. done.
Qed.

Lemma sample_cons_inv : cons_inv sample_console (Tty [] [] [] []).
Proof.
  split; [|split; [apply not_elem_of_nil|done]]. split; try done.
  - apply sample_shows.
  - unfold is_u32. simpl. lia.
Qed.

Lemma console_output_refines_terminal_witness :
  ∃ s', consputs [104; 105; 10] sample_console = Ok (tt, s') ∧
    shows s' ([0x768; 0x769] ++ replicate 78 0x720) ∧ cn_serial s' = [104; 105; 10].
Proof.
  destruct (console_output_refines_terminal [104; 105; 10] sample_console []) as (s' & E & _ & Hs & Hser);
    [reflexivity|apply sample_shows|].
  exists s'. split; [exact E|]. split; [|exact Hser].
  assert (Et : foldl term_put [] [104; 105; 10] = [0x768; 0x769] ++ replicate 78 0x720) by (vm_compute; reflexivity).
  rewrite <-Et. exact Hs.
Defined.

(** "hi", backspace, "o", return, typed in two interrupts; a reader comes too
    early and again later. *)
Definition sample_ops : list cop :=
  [ORead false [] 10; OKeys [104; 105; 8]; OKeys [111; 13]; ORead false [] 10].

Lemma console_refines_tty_witness :
  ∃ s', cops_run [] sample_ops sample_console = Ok ([CSleep []; CDone [104; 111; 10]], s').
Proof.
  destruct (console_refines_tty [] sample_ops sample_console (Tty [] [] [] [])) as (s' & E & _);
    [apply sample_cons_inv|repeat constructor; unfold is_u8; lia|].
  exists s'. rewrite E. vm_compute (tty_run _ _ _ _). reflexivity.
Defined.
