(* ===== verification/Kbd.v ===== *)
(** The keyboard (kbd.c, kbd.h): from scan codes to characters, and from the
    keyboard through the console to a reader. *)

From Stdlib Require Import ZArith Lia.
From stdpp Require Import base numbers strings option gmap sets list list_numbers.
From S2P Require Import Prelude Printf Spinlock Block Console.

Abbreviation SHIFT := 1.
Abbreviation CTL := 2.
Abbreviation ALT := 4.
Abbreviation CAPSLOCK := 8.
Abbreviation NUMLOCK := 16.
Abbreviation SCROLLLOCK := 32.
Abbreviation E0ESC := 64.
Abbreviation NO := 0.

(** An array of 256 bytes from its first elements and designated ones. *)
Definition keymap (l : list Z) (ds : list (Z * Z)) : list Z :=
  foldl (λ t '(i, v), <[Z.to_nat i := v]> t) (l ++ replicate (256 - length l) 0) ds.

Definition shiftcode : list Z :=
  keymap [] [(0x1D, CTL); (0x2A, SHIFT); (0x36, SHIFT); (0x38, ALT); (0x9D, CTL); (0xB8, ALT)].

Definition togglecode : list Z := keymap [] [(0x3A, CAPSLOCK); (0x45, NUMLOCK); (0x46, SCROLLLOCK)].

(** The cursor keys. *)
Definition keypad : list (Z * Z) :=
  [(0xC8, 0xE2); (0xD0, 0xE3); (0xC9, 0xE6); (0xD1, 0xE7); (0xCB, 0xE4); (0xCD, 0xE5); (0x97, 0xE0); (0xCF, 0xE1);
   (0xD2, 0xE8); (0xD3, 0xE9)].

Definition normalmap : list Z := keymap
  [NO; 0x1B; 49; 50; 51; 52; 53; 54;
   55; 56; 57; 48; 45; 61; 8; 9;
   113; 119; 101; 114; 116; 121; 117; 105;
   111; 112; 91; 93; 10; NO; 97; 115;
   100; 102; 103; 104; 106; 107; 108; 59;
   39; 96; NO; 92; 122; 120; 99; 118;
   98; 110; 109; 44; 46; 47; NO; 42;
   NO; 32; NO; NO; NO; NO; NO; NO;
   NO; NO; NO; NO; NO; NO; NO; 55;
   56; 57; 45; 52; 53; 54; 43; 49;
   50; 51; 48; 46; NO; NO; NO; NO]
  ((0x9C, 10) :: (0xB5, 47) :: keypad).

Definition shiftmap : list Z := keymap
  [NO; 27; 33; 64; 35; 36; 37; 94;
   38; 42; 40; 41; 95; 43; 8; 9;
   81; 87; 69; 82; 84; 89; 85; 73;
   79; 80; 123; 125; 10; NO; 65; 83;
   68; 70; 71; 72; 74; 75; 76; 58;
   34; 126; NO; 124; 90; 88; 67; 86;
   66; 78; 77; 60; 62; 63; NO; 42;
   NO; 32; NO; NO; NO; NO; NO; NO;
   NO; NO; NO; NO; NO; NO; NO; 55;
   56; 57; 45; 52; 53; 54; 43; 49;
   50; 51; 48; 46; NO; NO; NO; NO]
  ((0x9C, 10) :: (0xB5, 47) :: keypad).

Definition ctlmap : list Z := keymap
  [NO; NO; NO; NO; NO; NO; NO; NO;
   NO; NO; NO; NO; NO; NO; NO; NO;
   C 81; C 87; C 69; C 82; C 84; C 89; C 85; C 73;
   C 79; C 80; NO; NO; 13; NO; C 65; C 83;
   C 68; C 70; C 71; C 72; C 74; C 75; C 76; NO;
   NO; NO; NO; C 92; C 90; C 88; C 67; C 86;
   C 66; C 78; C 77; NO; NO; u8 (C 47); NO; NO]
  ((0x9C, 13) :: (0xB5, u8 (C 47)) :: keypad).

Definition charcode : list (list Z) := [normalmap; shiftmap; ctlmap; ctlmap].

(** [kbdgetc] on the byte [data] read from the controller; [None] is an index
    outside one of the arrays. *)
Definition kbd_data (shift data : Z) : option (Z * Z) :=
  if data =? 0xE0 then Some (0, Z.lor shift E0ESC)
  else if negb (Z.land data 0x80 =? 0) then
    let data := if negb (Z.land shift E0ESC =? 0) then data else Z.land data 0x7F in
    k ← shiftcode !! Z.to_nat data;
    Some (0, Z.land shift (Z.lnot (Z.lor k E0ESC)))
  else
    let '(data, shift) :=
      if negb (Z.land shift E0ESC =? 0) then (Z.lor data 0x80, Z.land shift (Z.lnot E0ESC)) else (data, shift) in
    k ← shiftcode !! Z.to_nat data;
    g ← togglecode !! Z.to_nat data;
    let shift := Z.lxor (Z.lor shift k) g in
    row ← charcode !! Z.to_nat (Z.land shift (Z.lor CTL SHIFT));
    c ← row !! Z.to_nat data;
    let c :=
      if negb (Z.land shift CAPSLOCK =? 0) then
        if (97 <=? c) && (c <=? 122) then c + (65 - 97)
        else if (65 <=? c) && (c <=? 90) then c + (97 - 65) else c
      else c in
    Some (c, shift).

(** The characters that [kbdgetc] returns while the controller has bytes, and
    the state of the modifier keys after them. *)
Fixpoint kbdgetc_all (shift : Z) (codes : list Z) : option (list Z * Z) :=
  match codes with
  | [] => Some ([], shift)
  | data :: codes =>
      '(c, shift) ← kbd_data shift data;
      '(cs, shift) ← kbdgetc_all shift codes;
      Some (c :: cs, shift)
  end.

(** [kbdintr] with [codes] waiting in the controller. *)
Definition kbdintr (procdump : M console unit) (shift : Z) (codes : list Z) : M console Z :=
  '(cs, shift) ← mopt (kbdgetc_all shift codes);
  consoleintr procdump cs;;
  mret shift.

(** * Proofs *)

(** [kbdgetc] is defined on every byte of the controller in every state of
    the modifier keys: no index leaves its array, the character is a byte and
    the modifiers keep to their seven bits. *)
Lemma kbd_data_typed shift data : 0 ≤ shift < 128 → is_u8 data →
  ∃ c shift', kbd_data shift data = Some (c, shift') ∧ is_u8 c ∧ 0 ≤ shift' < 128.
Proof.
  intros Hs Hd.
  assert (Hall : forallb (λ i, forallb (λ j, match kbd_data i j with
     | Some (c, k) => (0 <=? c) && (c <? 256) && (0 <=? k) && (k <? 128) | None => false end) (seqZ 0 256)) (seqZ 0 128) = true)
    by (vm_compute; reflexivity).
  rewrite forallb_forall in Hall. specialize (Hall shift). rewrite <-list_elem_of_In, elem_of_seqZ in Hall.
  specialize (Hall ltac:(lia)). rewrite forallb_forall in Hall. specialize (Hall data).
  rewrite <-list_elem_of_In, elem_of_seqZ in Hall. unfold is_u8 in *. specialize (Hall ltac:(lia)).
  destruct (kbd_data shift data) as [[c k]|]; [|done]. exists c, k. split; [done|]. lia.
Qed.

(** ** Typing *)

(** The main keys of a US keyboard, from the keyboard's side: the first scan
    code (set 1) of each run of keys with consecutive codes, and the characters
    on the keys without and with the shift key.  Nothing of it comes from the
    tables of the kernel. *)
Definition us_keys : list (Z * list Z * list Z) :=
  [(0x02, chars "1234567890-=", chars "!@#$%^&*()_+");
   (0x10, chars "qwertyuiop[]", chars "QWERTYUIOP{}");
   (0x1C, [10], [10]);
   (0x1E, chars "asdfghjkl;'`", chars "ASDFGHJKL:" ++ [34; 126]);
   (0x2B, chars "\zxcvbnm,./", chars "|ZXCVBNM<>?");
   (0x39, [32], [32])].

Definition key_in (c : Z) (row : list Z) : option Z := Z.of_nat ∘ fst <$> list_find (c =.) row.

(** The bytes the keyboard sends for a character: press and release, with the
    left shift key held where the character needs it. *)
Fixpoint strokes_on (keys : list (Z * list Z * list Z)) (c : Z) : list Z :=
  match keys with
  | [] => []
  | (first, plain, shifted) :: keys =>
      match key_in c plain, key_in c shifted with
      | Some i, _ => [first + i; first + i + 0x80]
      | None, Some i => [0x2A; first + i; first + i + 0x80; 0xAA]
      | None, None => strokes_on keys c
      end
  end.
Definition strokes : Z → list Z := strokes_on us_keys.

(** A printable character. *)
Definition printable (c : Z) : Prop := 32 ≤ c ≤ 126.

Definition stroke_ok (c : Z) : bool :=
  match kbdgetc_all 0 (strokes c) with
  | Some (l, k) => bool_decide (k = 0 ∧ filter (.≠ 0) l = [c]) && forallb (λ x, (0 <=? x) && (x <? 256)) l
  | None => false
  end.

Lemma strokes_ok c : printable c ∨ c = 10 → ∃ l, kbdgetc_all 0 (strokes c) = Some (l, 0) ∧
  filter (.≠ 0) l = [c] ∧ Forall is_u8 l.
Proof.
  intros Hc. assert (Hall : forallb stroke_ok (10 :: seqZ 32 95) = true) by (vm_compute; reflexivity).
  rewrite forallb_forall in Hall. specialize (Hall c). rewrite <-list_elem_of_In in Hall.
  assert (Hin : c ∈ 10 :: seqZ 32 95).
  { apply elem_of_cons. destruct Hc as [Hc| ->]; [right; apply elem_of_seqZ; unfold printable in Hc; lia|by left]. }
  specialize (Hall Hin). unfold stroke_ok in Hall. destruct (kbdgetc_all 0 (strokes c)) as [[l k]|]; [|done].
  apply andb_prop in Hall as [[-> Hf]%bool_decide_eq_true Hu]. exists l. split; [done|]. split; [done|].
  apply Forall_forall. intros x Hx. rewrite forallb_forall in Hu. specialize (Hu x).
  rewrite <-list_elem_of_In in Hu. specialize (Hu Hx). unfold is_u8. lia.
Qed.

Lemma kbdgetc_all_app shift a b : kbdgetc_all shift (a ++ b) =
  '(l, shift) ← kbdgetc_all shift a; '(l', shift) ← kbdgetc_all shift b; Some (l ++ l', shift).
Proof.
  revert shift. induction a as [|x a IH]; intros shift; simpl.
  - by destruct (kbdgetc_all shift b) as [[??]|].
  - destruct (kbd_data shift x) as [[c k]|]; [|done]. simpl. rewrite IH.
    destruct (kbdgetc_all k a) as [[l k']|]; [|done]. simpl. by destruct (kbdgetc_all k' b) as [[??]|].
Qed.

Lemma strokes_text text : Forall (λ c, printable c ∨ c = 10) text →
  ∃ l, kbdgetc_all 0 (text ≫= strokes) = Some (l, 0) ∧ filter (.≠ 0) l = text ∧ Forall is_u8 l.
Proof.
  induction 1 as [|c text Hc _ (l & E & Hf & Hu)]; [by exists []|].
  destruct (strokes_ok c Hc) as (l1 & E1 & Hf1 & Hu1). exists (l1 ++ l). split_and!.
  - change ((c :: text) ≫= strokes) with (strokes c ++ (text ≫= strokes)). rewrite kbdgetc_all_app, E1.
    cbn [mbind option_bind]. by rewrite E.
  - by rewrite filter_app, Hf1, Hf.
  - by apply Forall_app.
Qed.

(** The console ignores the zeros that stand for releases and modifiers. *)
Lemma tty_keys_filter uart l d t : tty_keys uart l d t = tty_keys uart (filter (.≠ 0) l) d t.
Proof.
  revert d t. induction l as [|c l IH]; intros d t; [done|]. rewrite filter_cons. case_decide as Hc.
  - cbn [tty_keys]. destruct (tty_key uart c t). apply IH.
  - assert (c = 0) as -> by (destruct (decide (c = 0)); tauto). cbn [tty_keys].
    assert (tty_key uart 0 t = (false, t)) as -> by done. by rewrite orb_false_r.
Qed.

Lemma printable_key uart c t : printable c → (S (length (t_ready t) + length (t_edit t)) < 128)%nat →
  tty_key uart c t = (false, tty_putc uart c (Tty (t_ready t) (t_edit t ++ [c]) (t_text t) (t_sent t))).
Proof.
  unfold printable. intros Hc Hl. unfold tty_key, C.
  rewrite (proj2 (Z.eqb_neq c (80 - 64))), (proj2 (Z.eqb_neq c (85 - 64))), (proj2 (Z.eqb_neq c (72 - 64))),
    (proj2 (Z.eqb_neq c 0x7f)), (proj2 (Z.eqb_neq c 0)), (proj2 (Z.eqb_neq c 13)), (proj2 (Z.eqb_neq c 10)),
    (proj2 (Z.eqb_neq c (68 - 64))) by lia.
  rewrite (proj2 (Nat.ltb_lt _ _)) by lia. cbn [negb andb orb]. by rewrite (proj2 (Nat.eqb_neq _ _)) by lia.
Qed.

Lemma newline_key uart t : (length (t_ready t) + length (t_edit t) < 128)%nat →
  ∃ t', tty_key uart 10 t = (false, t') ∧ t_ready t' = t_ready t ++ t_edit t ++ [10] ∧ t_edit t' = [].
Proof.
  intros Hl. unfold tty_key. change (10 =? C 80) with false. change (10 =? C 85) with false.
  change ((10 =? C 72) || (10 =? 0x7f)) with false. cbv iota. rewrite (proj2 (Nat.ltb_lt _ _)) by done.
  by eexists.
Qed.

(** A line typed when nothing waits becomes ready with its newline. *)
Lemma tty_keys_line uart text t : Forall printable text → t_ready t = [] →
  (length (t_edit t) + length text < 128)%nat →
  ∃ t', tty_keys uart (text ++ [10]) false t = (false, t') ∧ t_ready t' = t_edit t ++ text ++ [10] ∧ t_edit t' = [].
Proof.
  intros Ht. revert t. induction Ht as [|c text Hc Ht IH]; intros t Hr Hl.
  - destruct (newline_key uart t) as (t' & E & Hr' & He'); [rewrite Hr; simpl in *; lia|]. exists t'.
    cbn [app tty_keys]. rewrite E. split; [done|]. by rewrite Hr', Hr.
  - cbn [app tty_keys]. simpl length in Hl. rewrite printable_key by (done || rewrite Hr; simpl; lia). cbn [orb].
    destruct (IH (tty_putc uart c (Tty (t_ready t) (t_edit t ++ [c]) (t_text t) (t_sent t)))) as (t' & E & Hr' & He').
    + done.
    + cbn. rewrite length_app. simpl. lia.
    + exists t'. split; [done|]. split; [|done]. rewrite Hr'. cbn. by rewrite <-app_assoc.
Qed.

Lemma tty_read_line got text n t rest : Forall printable text → t_ready t = text ++ 10 :: rest →
  (length text < n)%nat → (tty_read false got n t).1 = CDone (got ++ text ++ [10]).
Proof.
  intros Ht. revert got n t. induction Ht as [|c text Hc Ht IH]; intros got [|n] t Hr Hn; try (simpl in Hn; lia);
    cbn [tty_read]; rewrite Hr; [done|]. unfold printable, C in *. cbn [app].
  rewrite (proj2 (Z.eqb_neq c (68 - 64))), (proj2 (Z.eqb_neq c 10)) by lia.
  rewrite (IH _ n (tty_take (text ++ 10 :: rest) t)) by (done || (simpl in Hn; lia)). by rewrite <-app_assoc.
Qed.

Lemma consoleintr_quiet pd cs s t : cons_inv s t → Forall is_u8 cs → (tty_keys (cn_uart s) cs false t).1 = false →
  ∃ s', consoleintr pd cs s = Ok (tt, s') ∧ cons_inv s' (tty_keys (cn_uart s) cs false t).2.
Proof.
  intros (Ha & Hed & Hlk) Hcs Hq. destruct (consoleintr_loop_spec cs false _ t (cons_abs_lock true s t Ha) Hed Hcs)
    as (s1 & E1 & Hl1 & _ & Ha1 & Hed1). cbn in Hl1. change (cn_uart (w_lock true s)) with (cn_uart s) in *.
  rewrite Hq in E1. exists (w_lock false s1). unfold consoleintr. erewrite bind_Ok by by apply acquire_cons.
  erewrite bind_Ok by exact E1. erewrite bind_Ok by by apply release_cons. split; [done|].
  split_and!; [by apply cons_abs_lock|done|done].
Qed.


(** The home key sends 0xE0 0x47, which is entry 0xC7 of the tables; their
    entry for it is at 0x97, so that the key gives no character. *)
Lemma home_key_ignored : kbdgetc_all 0 [0xE0; 0x47] = Some ([0; NO], 0) ∧ kbdgetc_all 0 [0xE0; 0x48] = Some ([0; 0xE2], 0).
Proof. vm_compute. done. Qed.

(** * Examples *)

