(* ===== verification/Bio.v ===== *)
(** The buffer cache (bio.c) and the disk drivers it calls (memide.c).

    [bcache.buf] is an array of [NBUF] buffers on a ring through [bcache.head],
    which is the element [NBUF] of the array here.  A pointer to a buffer is
    its index, the null pointer is [None].  The disk is its contents at boot and
    the block writes since, so a crash leaves a prefix of them; [iderw] is the
    operation a driver provides, an interface with the laws the cache needs of
    it. *)

From Stdlib Require Import ZArith Lia.
From stdpp Require Import base numbers strings option gmap sets list list_numbers.
From S2P Require Import Prelude Spinlock Sleeplock DList.

(** * Data *)
Abbreviation BSIZE := 512.
Abbreviation B_VALID := 2.
Abbreviation B_DIRTY := 4.
Definition NBUF : nat := Z.to_nat 30.
#[global] Opaque NBUF.

Record buf := Buf {
  b_flags : Z;
  b_dev : Z;
  b_blockno : Z;
  b_lock : sleeplock;
  b_refcnt : Z;
  b_prev : option nat;
  b_next : option nat;
  b_data : list Z
}.

(** A block of bytes at each device and block number. *)
Abbreviation blocks := (Z → Z → list Z).
Definition blocks_upd (dev bno : Z) (data : list Z) (d : blocks) : blocks :=
  λ x y, if (x =? dev) && (y =? bno) then data else d x y.

(** The writes are in their order, the newest first. *)
Record disk := Disk { d_init : blocks; d_writes : list (Z * Z * list Z) }.

Fixpoint apply_writes (W : list (Z * Z * list Z)) (d : blocks) : blocks :=
  match W with
  | [] => d
  | (dev, bno, data) :: W => blocks_upd dev bno data (apply_writes W d)
  end.

Definition disk_blocks (d : disk) : blocks := apply_writes (d_writes d) (d_init d).
Coercion disk_blocks : disk >-> Funclass.

Definition disk_upd (dev bno : Z) (data : list Z) (d : disk) : disk :=
  Disk (d_init d) ((dev, bno, data) :: d_writes d).

Lemma disk_upd_blocks dev bno data d :
  disk_blocks (disk_upd dev bno data d) = blocks_upd dev bno data (disk_blocks d).
Proof. done. Qed.

Record bcache_state := Bcache {
  bc_bufs : list buf;
  bc_lock : bool;
  bc_disk : disk
}.

Definition bc_lk : lens bcache_state bool :=
  Lens bc_lock (λ b s, Bcache (bc_bufs s) b (bc_disk s)).
Definition bc_arr : lens bcache_state (list buf) :=
  Lens bc_bufs (λ l s, Bcache l (bc_lock s) (bc_disk s)).
Definition set_disk (f : disk → disk) (s : bcache_state) : bcache_state :=
  Bcache (bc_bufs s) (bc_lock s) (f (bc_disk s)).

Definition bhead : nat := NBUF.

(** Field updates. *)
Definition f_flags v b := Buf v (b_dev b) (b_blockno b) (b_lock b) (b_refcnt b) (b_prev b) (b_next b) (b_data b).
Definition f_dev v b := Buf (b_flags b) v (b_blockno b) (b_lock b) (b_refcnt b) (b_prev b) (b_next b) (b_data b).
Definition f_blockno v b := Buf (b_flags b) (b_dev b) v (b_lock b) (b_refcnt b) (b_prev b) (b_next b) (b_data b).
Definition f_lock v b := Buf (b_flags b) (b_dev b) (b_blockno b) v (b_refcnt b) (b_prev b) (b_next b) (b_data b).
Definition f_refcnt v b := Buf (b_flags b) (b_dev b) (b_blockno b) (b_lock b) v (b_prev b) (b_next b) (b_data b).
Definition f_prev v b := Buf (b_flags b) (b_dev b) (b_blockno b) (b_lock b) (b_refcnt b) v (b_next b) (b_data b).
Definition f_next v b := Buf (b_flags b) (b_dev b) (b_blockno b) (b_lock b) (b_refcnt b) (b_prev b) v (b_data b).
Definition f_data v b := Buf (b_flags b) (b_dev b) (b_blockno b) (b_lock b) (b_refcnt b) (b_prev b) (b_next b) v.

Definition lock_lens : lens buf sleeplock := Lens b_lock f_lock.

(** [b->f] and [b->f = v] through a pointer. *)
Definition bderef {T} (p : option nat) (f : buf → T) : M bcache_state T := λ s,
  match p with
  | Some i => match bc_bufs s !! i with Some b => Ok (f b, s) | None => Fault end
  | None => Fault
  end.

Definition bassign (p : option nat) (g : buf → buf) : M bcache_state unit := λ s,
  match p with
  | Some i =>
      match bc_bufs s !! i with
      | Some b => Ok (tt, Bcache (<[i := g b]> (bc_bufs s)) (bc_lock s) (bc_disk s))
      | None => Fault
      end
  | None => Fault
  end.

(** A sleep-lock operation on the lock of a buffer. *)
Definition blk {A} (i : nat) (m : M sleeplock A) : M bcache_state A := zoom_at bc_arr i lock_lens m.

(** * Drivers *)
Definition set_buf (i : nat) (b : buf) (s : bcache_state) : bcache_state :=
  Bcache (<[i := b]> (bc_bufs s)) (bc_lock s) (bc_disk s).

(** [iderw] as the process [mypid] calls it; [drv_ok] are the blocks it has. *)
Class BlockDriver := {
  iderw : Z → nat → M bcache_state unit;
  drv_ok : Z → Z → bool
}.

(** A dirty buffer is written, one that is not valid is read. *)
Class BlockDriverOk (D : BlockDriver) : Prop := {
  iderw_write pid i b s : bc_bufs s !! i = Some b → b_lock b = sl_held pid →
    drv_ok (b_dev b) (b_blockno b) = true → Z.testbit (b_flags b) 2 = true →
    iderw pid i s = Ok (tt, set_disk (disk_upd (b_dev b) (b_blockno b) (b_data b))
      (set_buf i (f_flags (Z.lor (Z.land (b_flags b) (Z.lnot B_DIRTY)) B_VALID) b) s));
  iderw_read pid i b s : bc_bufs s !! i = Some b → b_lock b = sl_held pid →
    drv_ok (b_dev b) (b_blockno b) = true → Z.testbit (b_flags b) 2 = false →
    Z.testbit (b_flags b) 1 = false →
    iderw pid i s = Ok (tt, set_buf i
      (f_flags (Z.lor (b_flags b) B_VALID) (f_data (bc_disk s (b_dev b) (b_blockno b)) b)) s)
}.

(** memide.c: the disk 1 is an image in memory of [disksize] blocks. *)
Definition memide_rw (disksize : Z) (mypid : Z) (i : nat) : M bcache_state unit :=
  h ← blk i (holdingsleep mypid);
  if negb (h : bool) then mpanic "iderw: buf not locked"
  else
    flags ← bderef (Some i) b_flags;
    if Z.land flags (Z.lor B_VALID B_DIRTY) =? B_VALID then mpanic "iderw: nothing to do"
    else
      dev ← bderef (Some i) b_dev;
      bno ← bderef (Some i) b_blockno;
      if negb (dev =? 1) then mpanic "iderw: request not for disk 1"
      else if disksize <=? bno then mpanic "iderw: block out of range"
      else
        (if negb (Z.land flags B_DIRTY =? 0) then
           bassign (Some i) (f_flags (Z.land flags (Z.lnot B_DIRTY)));;
           data ← bderef (Some i) b_data;
           mmod (set_disk (disk_upd 1 bno data))
         else
           d ← mget (λ s, disk_blocks (bc_disk s));
           bassign (Some i) (f_data (d 1 bno)));;
        flags ← bderef (Some i) b_flags;
        bassign (Some i) (f_flags (Z.lor flags B_VALID)).

Definition memide (disksize : Z) : BlockDriver := {|
  iderw := memide_rw disksize;
  drv_ok dev bno := (dev =? 1) && (0 <=? bno) && (bno <? disksize)
|}.

Section bio.
Context `{BlockDriver}.
(** [myproc()->pid]. *)
Variable mypid : Z.

(** * Operations *)

(** The loop of [binit] over the buffers from [b] on. *)
Fixpoint binit_loop (n b : nat) : M bcache_state unit :=
  match n with
  | O => mret tt
  | S n =>
      x ← bderef (Some bhead) b_next;
      bassign (Some b) (f_next x);;
      bassign (Some b) (f_prev (Some bhead));;
      blk b initsleeplock;;
      x ← bderef (Some bhead) b_next;
      bassign x (f_prev (Some b));;
      bassign (Some bhead) (f_next (Some b));;
      binit_loop n (S b)
  end.

Definition binit : M bcache_state unit :=
  mmod (put bc_lk false);;
  bassign (Some bhead) (f_prev (Some bhead));;
  bassign (Some bhead) (f_next (Some bhead));;
  binit_loop NBUF 0.

(** The two loops of [bget]: from [head.next] forward for the block, from
    [head.prev] backward for a buffer to recycle. *)
Fixpoint bget_find (fuel : nat) (dev blockno : Z) (b : option nat) : M bcache_state (option nat) :=
  match fuel with
  | O => mnofuel
  | S fuel =>
      if decide (b = Some bhead) then mret None
      else
        d ← bderef b b_dev;
        n ← bderef b b_blockno;
        if (d =? dev) && (n =? blockno) then mret b
        else b ← bderef b b_next; bget_find fuel dev blockno b
  end.

Fixpoint bget_recycle (fuel : nat) (b : option nat) : M bcache_state (option nat) :=
  match fuel with
  | O => mnofuel
  | S fuel =>
      if decide (b = Some bhead) then mret None
      else
        r ← bderef b b_refcnt;
        f ← bderef b b_flags;
        if (r =? 0) && (Z.land f B_DIRTY =? 0) then mret b
        else b ← bderef b b_prev; bget_recycle fuel b
  end.

Definition bget (dev blockno : Z) : M bcache_state nat :=
  acquire bc_lk;;
  b ← bderef (Some bhead) b_next;
  r ← bget_find (S NBUF) dev blockno b;
  match r with
  | Some b =>
      c ← bderef (Some b) b_refcnt;
      bassign (Some b) (f_refcnt (u32 (c + 1)));;
      release bc_lk;;
      blk b (acquiresleep mypid);;
      mret b
  | None =>
      b ← bderef (Some bhead) b_prev;
      r ← bget_recycle (S NBUF) b;
      match r with
      | Some b =>
          bassign (Some b) (f_dev dev);;
          bassign (Some b) (f_blockno blockno);;
          bassign (Some b) (f_flags 0);;
          bassign (Some b) (f_refcnt 1);;
          release bc_lk;;
          blk b (acquiresleep mypid);;
          mret b
      | None => mpanic "bget: no buffers"
      end
  end.

Definition bread (dev blockno : Z) : M bcache_state nat :=
  b ← bget dev blockno;
  f ← bderef (Some b) b_flags;
  (if Z.land f B_VALID =? 0 then iderw mypid b else mret tt);;
  mret b.

Definition bwrite (b : nat) : M bcache_state unit :=
  h ← blk b (holdingsleep mypid);
  if negb (h : bool) then mpanic "bwrite"
  else
    f ← bderef (Some b) b_flags;
    bassign (Some b) (f_flags (Z.lor f B_DIRTY));;
    iderw mypid b.

Definition brelse (b : nat) : M bcache_state unit :=
  h ← blk b (holdingsleep mypid);
  if negb (h : bool) then mpanic "brelse"
  else
    blk b releasesleep;;
    acquire bc_lk;;
    c ← bderef (Some b) b_refcnt;
    bassign (Some b) (f_refcnt (u32 (c - 1)));;
    c ← bderef (Some b) b_refcnt;
    (if c =? 0 then
       n ← bderef (Some b) b_next;
       p ← bderef (Some b) b_prev;
       bassign n (f_prev p);;
       p ← bderef (Some b) b_prev;
       n ← bderef (Some b) b_next;
       bassign p (f_next n);;
       n ← bderef (Some bhead) b_next;
       bassign (Some b) (f_next n);;
       bassign (Some b) (f_prev (Some bhead));;
       n ← bderef (Some bhead) b_next;
       bassign n (f_prev (Some b));;
       bassign (Some bhead) (f_next (Some b))
     else mret tt);;
    release bc_lk.

(** * The ring of buffers *)
Definition bnxt (bs : list buf) (i : nat) : option nat := bs !! i ≫= b_next.
Definition bprv (bs : list buf) (i : nat) : option nat := bs !! i ≫= b_prev.

Lemma ring_link_next (nxt prv : nat → option nat) h A x B : NoDup (h :: A ++ x :: B) →
  ring nxt prv (h :: A ++ x :: B) → nxt x = Some (default h (hd_error B)).
Proof.
  intros Hnd Hr. destruct B as [|y B]; simpl.
  - by apply (ring_next_last nxt prv (h :: A) x).
  - by apply (ring_next nxt prv (h :: A) x y B).
Qed.

Lemma ring_link_prev (nxt prv : nat → option nat) h A x B :
  ring nxt prv (h :: A ++ x :: B) → prv x = Some (default h (last A)).
Proof.
  unfold ring. intros Hr. destruct A as [|a A _] using rev_ind; [by destruct Hr as (_ & ? & _)|].
  rewrite last_snoc. replace ((h :: (A ++ [a]) ++ x :: B) ++ [h])
    with ((h :: A) ++ a :: x :: (B ++ [h])) in Hr by (simpl; by rewrite <-!app_assoc).
  by apply chain_app2 in Hr as (_ & _ & ? & _).
Qed.

Lemma ring_link_head (nxt prv : nat → option nat) h L :
  ring nxt prv (h :: L) → nxt h = Some (default h (hd_error L)) ∧ prv h = Some (default h (last L)).
Proof.
  intros Hr. destruct L as [|x L]; [by apply ring_single in Hr|].
  destruct (ring_head _ _ _ _ _ Hr) as [-> _]. split; [done|].
  destruct (last_cons_snoc x L) as (l0 & z & E). rewrite E.
  rewrite last_snoc. simpl. by apply (ring_last nxt prv h (x :: L) (h :: l0) z); [rewrite E|].
Qed.

(** Changing fields other than the links keeps the ring. *)
Lemma ring_same bs i b b' L : bs !! i = Some b → b_next b' = b_next b → b_prev b' = b_prev b →
  ring (bnxt bs) (bprv bs) L → ring (bnxt (<[i := b']> bs)) (bprv (<[i := b']> bs)) L.
Proof.
  intros Hb Hn Hp. apply ring_ext; intros x; unfold bnxt, bprv;
    (destruct (decide (i = x)) as [<-|Hne]; [|by rewrite list_lookup_insert_ne]);
    rewrite Hb, list_lookup_insert_eq by (by eapply lookup_lt_Some); by rewrite ?Hn, ?Hp.
Qed.

(** The links are those of the list [L]. *)
Record links (bs : list buf) (L : list nat) : Prop := {
  lk_len : length bs = S NBUF;
  lk_ring : ring (bnxt bs) (bprv bs) (bhead :: L);
  lk_perm : L ≡ₚ seq 0 NBUF
}.

Lemma links_elem bs L i : links bs L → i ∈ L ↔ (i < NBUF)%nat.
Proof. intros Hl. rewrite (lk_perm _ _ Hl), elem_of_seq. lia. Qed.

Lemma links_nodup bs L : links bs L → NoDup (bhead :: L).
Proof.
  intros Hl. apply NoDup_cons. split.
  - rewrite (links_elem _ _ _ Hl). unfold bhead. lia.
  - rewrite (lk_perm _ _ Hl). apply NoDup_seq.
Qed.

Lemma links_lookup bs L i : links bs L → i ∈ bhead :: L → ∃ b, bs !! i = Some b.
Proof.
  intros Hl Hi. apply lookup_lt_is_Some_2. rewrite (lk_len _ _ Hl).
  apply elem_of_cons in Hi as [->|Hi]; [unfold bhead; lia|].
  apply (links_elem _ _ _ Hl) in Hi. lia.
Qed.

Lemma links_same bs i b b' L : bs !! i = Some b → b_next b' = b_next b → b_prev b' = b_prev b →
  links bs L → links (<[i := b']> bs) L.
Proof. intros Hb Hn Hp [? Hr ?]. split; [by rewrite length_insert|by eapply ring_same|done]. Qed.

Lemma links_fuel bs L A B : links bs L → L = A ++ B → (length B < S NBUF)%nat.
Proof.
  intros Hl ->. assert (E : length (A ++ B) = NBUF).
  { rewrite (Permutation_length (lk_perm _ _ Hl)). apply length_seq. }
  rewrite length_app in E. lia.
Qed.

(** * Running the operations *)
Lemma land_bit f k : 0 ≤ k → (Z.land f (2 ^ k) =? 0) = negb (Z.testbit f k).
Proof.
  intros Hk. assert (E : Z.land f (2 ^ k) = if Z.testbit f k then 2 ^ k else 0).
  { apply Z.bits_inj'. intros n Hn. rewrite Z.land_spec, Z.pow2_bits_eqb by lia.
    destruct (Z.eqb_spec k n) as [->|Hne].
    - rewrite andb_true_r. destruct (Z.testbit f n) eqn:E; [by rewrite Z.pow2_bits_true|].
      by rewrite Z.bits_0.
    - rewrite andb_false_r. destruct (Z.testbit f k); [by rewrite Z.pow2_bits_false|by rewrite Z.bits_0]. }
  rewrite E. destruct (Z.testbit f k); [|done]. apply Z.eqb_neq.
  pose proof (Z.pow_pos_nonneg 2 k). lia.
Qed.

Definition dirty (b : buf) : bool := Z.testbit (b_flags b) 2.
Definition valid (b : buf) : bool := Z.testbit (b_flags b) 1.

Lemma land_dirty f : (Z.land f B_DIRTY =? 0) = negb (Z.testbit f 2).
Proof. apply (land_bit f 2). lia. Qed.

Lemma land_valid f : (Z.land f B_VALID =? 0) = negb (Z.testbit f 1).
Proof. apply (land_bit f 1). lia. Qed.

Lemma bderef_Ok {T} s i b (f : buf → T) : bc_bufs s !! i = Some b →
  bderef (Some i) f s = Ok (f b, s).
Proof. intros Hb. unfold bderef. by rewrite Hb. Qed.

Lemma bassign_Ok s i b g : bc_bufs s !! i = Some b →
  bassign (Some i) g s = Ok (tt, set_buf i (g b) s).
Proof. intros Hb. unfold bassign. by rewrite Hb. Qed.

Lemma blk_Ok {A} s i b (m : M sleeplock A) a l : bc_bufs s !! i = Some b → m (b_lock b) = Ok (a, l) →
  blk i m s = Ok (a, set_buf i (f_lock l b) s).
Proof. intros Hb Hm. by apply (zoom_at_Ok bc_arr i lock_lens m s b a l). Qed.

Definition key_is (bs : list buf) (dev bno : Z) (i : nat) : bool :=
  match bs !! i with Some b => (b_dev b =? dev) && (b_blockno b =? bno) | None => false end.
Definition recyclable (bs : list buf) (i : nat) : bool :=
  match bs !! i with Some b => (b_refcnt b =? 0) && negb (dirty b) | None => false end.

Lemma bget_find_run fuel dev bno A B s : links (bc_bufs s) (A ++ B) → (length B < fuel)%nat →
  bget_find fuel dev bno (Some (default bhead (hd_error B))) s =
    Ok (List.find (key_is (bc_bufs s) dev bno) B, s).
Proof.
  revert A B. induction fuel as [|fuel IH]; intros A B Hl Hf; [lia|]. cbn [bget_find].
  destruct B as [|x B]; [by rewrite decide_True|]. simpl.
  pose proof (links_nodup _ _ Hl) as Hnd.
  assert (Hx : x ∈ bhead :: A ++ x :: B) by set_solver.
  destruct (links_lookup _ _ x Hl Hx) as [b Hb].
  rewrite decide_False.
  2: { intros [= ->]. apply NoDup_cons in Hnd as [Hnd _]. set_solver. }
  erewrite bind_Ok by (by apply bderef_Ok). erewrite bind_Ok by (by apply bderef_Ok).
  unfold key_is at 1. rewrite Hb. destruct (_ && _); [done|].
  erewrite bind_Ok by (by apply bderef_Ok).
  pose proof (ring_link_next _ _ _ _ _ _ Hnd (lk_ring _ _ Hl)) as Hn.
  unfold bnxt in Hn. rewrite Hb in Hn. simpl in Hn. rewrite Hn.
  apply (IH (A ++ [x])); [by rewrite <-app_assoc|simpl in Hf; lia].
Qed.

Lemma bget_recycle_run fuel A B s : links (bc_bufs s) (A ++ B) → (length A < fuel)%nat →
  bget_recycle fuel (Some (default bhead (last A))) s =
    Ok (List.find (recyclable (bc_bufs s)) (reverse A), s).
Proof.
  revert A B. induction fuel as [|fuel IH]; intros A B Hl Hf; [lia|]. cbn [bget_recycle].
  destruct A as [|x A _] using rev_ind; [by rewrite decide_True|].
  rewrite last_snoc, reverse_snoc. simpl. rewrite <-app_assoc in Hl. simpl in Hl.
  pose proof (links_nodup _ _ Hl) as Hnd.
  assert (Hx : x ∈ bhead :: A ++ x :: B) by set_solver.
  destruct (links_lookup _ _ x Hl Hx) as [b Hb].
  rewrite decide_False.
  2: { intros [= ->]. apply NoDup_cons in Hnd as [Hnd _]. set_solver. }
  erewrite bind_Ok by (by apply bderef_Ok). erewrite bind_Ok by (by apply bderef_Ok).
  unfold recyclable at 1, dirty. rewrite Hb, land_dirty. destruct (_ && _); [done|].
  erewrite bind_Ok by (by apply bderef_Ok).
  pose proof (ring_link_prev _ _ _ _ _ _ (lk_ring _ _ Hl)) as Hn.
  unfold bprv in Hn. rewrite Hb in Hn. simpl in Hn. rewrite Hn.
  apply (IH A (x :: B)); [done|]. rewrite length_app in Hf. simpl in Hf. lia.
Qed.

Lemma head_links s L : links (bc_bufs s) L →
  bderef (Some bhead) b_next s = Ok (Some (default bhead (hd_error L)), s) ∧
  bderef (Some bhead) b_prev s = Ok (Some (default bhead (last L)), s).
Proof.
  intros Hl. destruct (links_lookup _ _ bhead Hl) as [b Hb]; [set_solver|].
  destruct (ring_link_head _ _ _ _ (lk_ring _ _ Hl)) as [Hn Hp].
  unfold bnxt, bprv in *. rewrite Hb in Hn, Hp. simpl in Hn, Hp.
  split; by rewrite (bderef_Ok _ _ _ _ Hb), ?Hn, ?Hp.
Qed.

Lemma links_length bs L : links bs L → (length L < S NBUF)%nat.
Proof. intros Hl. by apply (links_fuel bs L [] L). Qed.

(** A buffer without its links. *)
Definition core (b : buf) : buf := f_prev None (f_next None b).

Lemma bassign_alter s i g : (i < length (bc_bufs s))%nat →
  bassign (Some i) g s = Ok (tt, put bc_arr (alter g i (bc_bufs s)) s).
Proof.
  intros Hi. destruct (lookup_lt_is_Some_2 _ _ Hi) as [b Hb]. rewrite (bassign_Ok _ _ _ _ Hb).
  unfold set_buf. simpl. do 3 f_equal. apply list_eq. intros j. rewrite list_lookup_alter.
  destruct (decide (i = j)) as [<-|Hne];
    [rewrite Hb, list_lookup_insert_eq by done|rewrite list_lookup_insert_ne by done]; done.
Qed.

Lemma bnxt_next bs i v j : (i < length bs)%nat → bnxt (alter (f_next v) i bs) j = fupd (bnxt bs) i v j.
Proof.
  intros Hi. unfold bnxt, fupd. rewrite list_lookup_alter.
  destruct (decide (i = j)) as [<-|], (decide (_ = i)); try done.
  destruct (lookup_lt_is_Some_2 _ _ Hi) as [b ->]. done.
Qed.

Lemma bprv_prev bs i v j : (i < length bs)%nat → bprv (alter (f_prev v) i bs) j = fupd (bprv bs) i v j.
Proof.
  intros Hi. unfold bprv, fupd. rewrite list_lookup_alter.
  destruct (decide (i = j)) as [<-|], (decide (_ = i)); try done.
  destruct (lookup_lt_is_Some_2 _ _ Hi) as [b ->]. done.
Qed.

Lemma bnxt_prev bs i v j : bnxt (alter (f_prev v) i bs) j = bnxt bs j.
Proof. unfold bnxt. rewrite list_lookup_alter. case_decide; [subst|done]. by destruct (bs !! j). Qed.

Lemma bprv_next bs i v j : bprv (alter (f_next v) i bs) j = bprv bs j.
Proof. unfold bprv. rewrite list_lookup_alter. case_decide; [subst|done]. by destruct (bs !! j). Qed.

Lemma core_prev (bs : list buf) (i : nat) v : core <$> alter (f_prev v) i bs = core <$> bs.
Proof.
  apply list_eq. intros j. rewrite !list_lookup_fmap, list_lookup_alter. case_decide; [subst|done].
  by destruct (bs !! j).
Qed.

Lemma core_next (bs : list buf) (i : nat) v : core <$> alter (f_next v) i bs = core <$> bs.
Proof.
  apply list_eq. intros j. rewrite !list_lookup_fmap, list_lookup_alter. case_decide; [subst|done].
  by destruct (bs !! j).
Qed.

Lemma fupd_ext {N} `{EqDecision N} (f g : N → option N) i v : (∀ x, f x = g x) → ∀ x, fupd f i v x = fupd g i v x.
Proof. intros Hfg x. unfold fupd. by case_decide. Qed.

(** The links [brelse] writes when it moves [x] to the front. *)
Definition relink (n p h0 x : nat) (bs : list buf) : list buf :=
  alter (f_next (Some x)) bhead (alter (f_prev (Some x)) h0
    (alter (f_prev (Some bhead)) x (alter (f_next (Some h0)) x
      (alter (f_next (Some n)) p (alter (f_prev (Some p)) n bs))))).

Lemma relink_links bs A x B : links bs (A ++ x :: B) →
  ∃ n p, bprv bs x = Some p ∧ bnxt bs x = Some n ∧ n ≠ x ∧ p ≠ x ∧ (n < length bs)%nat ∧ (p < length bs)%nat ∧
    let bs2 := alter (f_next (Some n)) p (alter (f_prev (Some p)) n bs) in
    let h0 := default bhead (hd_error (A ++ B)) in
    bnxt bs2 bhead = Some h0 ∧ h0 ≠ x ∧ (h0 < length bs)%nat ∧ links (relink n p h0 x bs) (x :: A ++ B).
Proof.
  intros Hl. pose proof (links_nodup _ _ Hl) as Hnd.
  change (bhead :: A ++ x :: B) with ((bhead :: A) ++ x :: B) in Hnd.
  destruct (ring_remove (bnxt bs) (bprv bs) (bhead :: A) x B Hnd) as
    (p & n & Hp & Hn & Hpin & Hnin & _ & _ & _ & Hring); [done|apply Hl|].
  assert (Hlen : ∀ j, j ∈ (bhead :: A) ++ B → (j < length bs)%nat ∧ j ≠ x).
  { intros j Hj. split.
    - rewrite (lk_len _ _ Hl). simpl in Hj. apply elem_of_cons in Hj as [->|Hj]; [unfold bhead; lia|].
      assert (Hj' : j ∈ A ++ x :: B) by set_solver.
      apply (links_elem _ _ _ Hl) in Hj'. lia.
    - intros ->. apply NoDup_app in Hnd as (_ & Hd & HB). apply NoDup_cons in HB as [HB _]. set_solver. }
  destruct (Hlen _ Hpin) as [Hpl Hpx], (Hlen _ Hnin) as [Hnl Hnx].
  set (bs1 := alter (f_prev (Some p)) n bs). set (bs2 := alter (f_next (Some n)) p bs1).
  assert (Hl1 : length bs1 = length bs) by apply length_alter.
  assert (Hl2 : length bs2 = length bs) by (by rewrite <-Hl1; apply length_alter).
  assert (Hr2 : ring (bnxt bs2) (bprv bs2) (bhead :: A ++ B)).
  { revert Hring. apply ring_ext; intros y; unfold bs2, bs1.
    - rewrite bnxt_next by (by rewrite length_alter). apply fupd_ext. intros z. apply bnxt_prev.
    - rewrite bprv_next. by apply bprv_prev. }
  set (h0 := default bhead (hd_error (A ++ B))).
  assert (Hh0 : h0 ∈ (bhead :: A) ++ B).
  { unfold h0. simpl. destruct (A ++ B) as [|y l]; simpl; [left|right; left]. }
  destruct (Hlen _ Hh0) as [Hh0l Hh0x].
  assert (Hxl : (x < length bs)%nat).
  { rewrite (lk_len _ _ Hl). assert (Hx' : x ∈ A ++ x :: B) by set_solver.
    apply (links_elem _ _ _ Hl) in Hx'. lia. }
  exists n, p. cbv zeta. fold bs1 bs2 h0. split_and!; try done; [by apply (ring_link_head _ _ _ _ Hr2)|].
  assert (Hndr : NoDup (bhead :: A ++ B)).
  { change (NoDup ((bhead :: A) ++ B)). rewrite <-Permutation_middle in Hnd. by apply NoDup_cons in Hnd as [_ ?]. }
  split.
  - unfold relink. rewrite !length_alter. apply Hl.
  - pose proof (ring_insert_first (bnxt bs2) (bprv bs2) bhead (A ++ B) x h0 eq_refl Hndr) as Hi.
    assert (Hbl : (bhead < length bs)%nat) by (rewrite (lk_len _ _ Hl); unfold bhead; lia).
    assert (Hxni : x ∉ bhead :: A ++ B) by (intros Hxi; by destruct (Hlen x Hxi)).
    specialize (Hi Hxni Hr2). revert Hi. apply ring_ext; intros y; unfold relink; fold bs1; fold bs2.
    + rewrite bnxt_next by (rewrite !length_alter; lia). apply fupd_ext. intros z.
      rewrite !bnxt_prev. apply bnxt_next. lia.
    + rewrite bprv_next, bprv_prev by (rewrite !length_alter; lia). apply fupd_ext. intros z.
      rewrite bprv_prev by (rewrite !length_alter; lia). apply fupd_ext. intros w. apply bprv_next.
  - rewrite <-(lk_perm _ _ Hl). apply Permutation_middle.
Qed.

Lemma relink_core n p h0 x bs : core <$> relink n p h0 x bs = core <$> bs.
Proof. unfold relink. by rewrite ?core_next, ?core_prev, ?core_next, ?core_prev, ?core_next, ?core_prev. Qed.

Lemma set_buf_lookup s i b : (i < length (bc_bufs s))%nat → bc_bufs (set_buf i b s) !! i = Some b.
Proof. intros Hi. simpl. by apply list_lookup_insert_eq. Qed.

Lemma set_buf_twice s i b b' : set_buf i b' (set_buf i b s) = set_buf i b' s.
Proof. unfold set_buf. simpl. by rewrite list_insert_insert_eq. Qed.

Lemma acquire_bc s : bc_lock s = false → acquire bc_lk s = Ok (tt, put bc_lk true s).
Proof. intros E. unfold acquire. simpl. by rewrite E. Qed.

Lemma bget_hit s L dev bno i b : links (bc_bufs s) L → bc_lock s = false →
  List.find (key_is (bc_bufs s) dev bno) L = Some i → bc_bufs s !! i = Some b →
  sl_lk (b_lock b) = false → sl_locked (b_lock b) = false →
  bget dev bno s =
    Ok (i, set_buf i (f_lock (sl_held mypid) (f_refcnt (u32 (b_refcnt b + 1)) b)) s).
Proof.
  intros Hl Hlk Hf Hb Hk Hfree. unfold bget. erewrite bind_Ok by (by apply acquire_bc).
  assert (Hl' : links (bc_bufs (put bc_lk true s)) L) by done.
  erewrite bind_Ok by (by apply (head_links _ L)).
  erewrite bind_Ok by (apply (bget_find_run _ dev bno [] L); [done|by eapply links_length]).
  cbn [bc_bufs put bc_lk]. rewrite Hf.
  erewrite bind_Ok by (by apply bderef_Ok). erewrite bind_Ok by (by apply bassign_Ok).
  erewrite bind_Ok by reflexivity.
  assert (Hi : (i < length (bc_bufs s))%nat) by (by eapply lookup_lt_Some).
  erewrite bind_Ok.
  2: { eapply (blk_Ok _ _ (f_refcnt (u32 (b_refcnt b + 1)) b));
         [by apply list_lookup_insert_eq|by apply acquiresleep_Ok]. }
  destruct s as [bs lk d]. simpl in Hlk. subst lk. unfold set_buf, mret, M_ret. simpl.
  by rewrite list_insert_insert_eq.
Qed.

Lemma bget_blocked s L dev bno i b : links (bc_bufs s) L → bc_lock s = false →
  List.find (key_is (bc_bufs s) dev bno) L = Some i → bc_bufs s !! i = Some b →
  sl_lk (b_lock b) = false → sl_locked (b_lock b) = true → bget dev bno s = Blocked.
Proof.
  intros Hl Hlk Hf Hb Hk Hfree. unfold bget. erewrite bind_Ok by (by apply acquire_bc).
  assert (Hl' : links (bc_bufs (put bc_lk true s)) L) by done.
  erewrite bind_Ok by (by apply (head_links _ L)).
  erewrite bind_Ok by (apply (bget_find_run _ dev bno [] L); [done|by eapply links_length]).
  cbn [bc_bufs put bc_lk]. rewrite Hf.
  erewrite bind_Ok by (by apply bderef_Ok). erewrite bind_Ok by (by apply bassign_Ok).
  erewrite bind_Ok by reflexivity.
  assert (Hi : (i < length (bc_bufs s))%nat) by (by eapply lookup_lt_Some).
  unfold mbind, M_bind, blk, zoom_at. simpl. rewrite list_lookup_insert_eq by done. simpl.
  by rewrite (acquiresleep_Blocked mypid (b_lock b)).
Qed.

(** The buffer [bget] recycles for a block. *)
Definition recycled (b : buf) (dev bno : Z) : buf :=
  Buf 0 dev bno (sl_held mypid) 1 (b_prev b) (b_next b) (b_data b).

Lemma bget_miss s L dev bno i b : links (bc_bufs s) L → bc_lock s = false →
  List.find (key_is (bc_bufs s) dev bno) L = None →
  List.find (recyclable (bc_bufs s)) (reverse L) = Some i → bc_bufs s !! i = Some b →
  sl_lk (b_lock b) = false → sl_locked (b_lock b) = false →
  bget dev bno s = Ok (i, set_buf i (recycled b dev bno) s).
Proof.
  intros Hl Hlk Hf Hr Hb Hk Hfree. unfold bget. erewrite bind_Ok by (by apply acquire_bc).
  assert (Hl' : links (bc_bufs (put bc_lk true s)) (L ++ [])) by (by rewrite app_nil_r).
  assert (Hl'' : links (bc_bufs (put bc_lk true s)) L) by done.
  erewrite bind_Ok by (by apply (head_links _ L)).
  erewrite bind_Ok by (apply (bget_find_run _ dev bno [] L); [done|by eapply links_length]).
  cbn [bc_bufs put bc_lk]. rewrite Hf.
  erewrite bind_Ok by (by apply (head_links _ L)).
  erewrite bind_Ok by (apply (bget_recycle_run _ L []); [done|by eapply links_length]).
  cbn [bc_bufs put bc_lk]. rewrite Hr.
  assert (Hi : (i < length (bc_bufs s))%nat) by (by eapply lookup_lt_Some).
  erewrite bind_Ok by (by apply bassign_Ok).
  do 3 (erewrite bind_Ok by (eapply bassign_Ok, set_buf_lookup; simpl; rewrite ?length_insert; done)).
  erewrite bind_Ok by reflexivity.
  erewrite bind_Ok.
  2: { eapply blk_Ok; [apply list_lookup_insert_eq; simpl; by rewrite ?length_insert|by apply acquiresleep_Ok]. }
  destruct s as [bs lk d]. simpl in Hlk. subst lk. unfold set_buf, mret, M_ret. simpl.
  by rewrite !list_insert_insert_eq.
Qed.

Lemma bget_none s L dev bno : links (bc_bufs s) L → bc_lock s = false →
  List.find (key_is (bc_bufs s) dev bno) L = None →
  List.find (recyclable (bc_bufs s)) (reverse L) = None →
  bget dev bno s = Panic "bget: no buffers".
Proof.
  intros Hl Hlk Hf Hr. unfold bget. erewrite bind_Ok by (by apply acquire_bc).
  assert (Hl' : links (bc_bufs (put bc_lk true s)) (L ++ [])) by (by rewrite app_nil_r).
  assert (Hl'' : links (bc_bufs (put bc_lk true s)) L) by done.
  erewrite bind_Ok by (by apply (head_links _ L)).
  erewrite bind_Ok by (apply (bget_find_run _ dev bno [] L); [done|by eapply links_length]).
  cbn [bc_bufs put bc_lk]. rewrite Hf.
  erewrite bind_Ok by (by apply (head_links _ L)).
  erewrite bind_Ok by (apply (bget_recycle_run _ L []); [done|by eapply links_length]).
  cbn [bc_bufs put bc_lk]. by rewrite Hr.
Qed.

(** [brelse]: the buffer is unlocked and loses a reference; with the last one
    it moves to the front of the list. *)
Definition released (b : buf) : buf :=
  f_refcnt (u32 (b_refcnt b - 1)) (f_lock (SleepLock false false 0) b).

Lemma brelse_run s A x B b : links (bc_bufs s) (A ++ x :: B) → bc_lock s = false →
  bc_bufs s !! x = Some b → b_lock b = sl_held mypid →
  ∃ s', brelse x s = Ok (tt, s') ∧ bc_lock s' = false ∧ bc_disk s' = bc_disk s ∧
    core <$> bc_bufs s' = core <$> (<[x := released b]> (bc_bufs s)) ∧
    links (bc_bufs s') (if u32 (b_refcnt b - 1) =? 0 then x :: A ++ B else A ++ x :: B).
Proof.
  intros Hl Hlk Hb Hh. unfold brelse.
  assert (Hx : (x < length (bc_bufs s))%nat) by (by eapply lookup_lt_Some).
  erewrite bind_Ok by (eapply blk_Ok; [done|rewrite Hh; apply holdingsleep_Ok]). cbn [negb].
  erewrite bind_Ok.
  2: { eapply blk_Ok; [by apply set_buf_lookup|]. cbn [b_lock f_lock]. apply releasesleep_Ok. }
  rewrite set_buf_twice. erewrite bind_Ok by (by apply acquire_bc).
  erewrite bind_Ok by (apply bderef_Ok; simpl; by apply list_lookup_insert_eq).
  erewrite bind_Ok by (apply bassign_Ok; simpl; by apply list_lookup_insert_eq).
  erewrite bind_Ok by (apply bderef_Ok; simpl; apply list_lookup_insert_eq; by rewrite length_insert).
  cbn [b_refcnt f_refcnt f_lock].
  set (s1 := set_buf x _ _).
  assert (Hs1 : s1 = Bcache (<[x := released b]> (bc_bufs s)) true (bc_disk s)).
  { unfold s1, set_buf. simpl. by rewrite list_insert_insert_eq. }
  clearbody s1. subst s1. set (s1 := Bcache _ _ _).
  assert (Hl1 : links (bc_bufs s1) (A ++ x :: B)) by (by apply (links_same _ x b)).
  destruct (Z.eqb_spec (u32 (b_refcnt b - 1)) 0) as [E0|Hne].
  2: { erewrite bind_Ok by reflexivity. eexists. split; [reflexivity|]. done. }
  destruct (relink_links _ _ _ _ Hl1) as (n & p & Hp & Hn & Hnx & Hpx & Hnl & Hpl & Hh0 & Hh0x & Hh0l & Hl6).
  assert (Hb1 : bc_bufs s1 !! x = Some (released b)) by (by apply list_lookup_insert_eq).
  assert (Hbl : (bhead < length (bc_bufs s1))%nat) by (rewrite (lk_len _ _ Hl1); unfold bhead; lia).
  assert (Hx1 : (x < length (bc_bufs s1))%nat) by (by eapply lookup_lt_Some).
  assert (Es1 : bc_bufs s1 = <[x := released b]> (bc_bufs s) ∧ bc_disk s1 = bc_disk s) by done.
  assert (Elk : bc_lock s1 = true) by done. clearbody s1. destruct Es1 as [Es1 Ed1].
  unfold bprv, bnxt in Hp, Hn. rewrite Hb1 in Hp, Hn. simpl in Hp, Hn.
  rewrite !bind_assoc.
  erewrite bind_Ok by (by apply bderef_Ok). rewrite bind_assoc.
  erewrite bind_Ok by (by apply bderef_Ok).
  cbn [b_next b_prev released f_refcnt f_lock]. rewrite Hn, Hp, bind_assoc.
  erewrite bind_Ok by (by apply bassign_alter). rewrite bind_assoc.
  assert (Hxn : alter (f_prev (Some p)) n (bc_bufs s1) !! x = Some (released b))
    by (rewrite list_lookup_alter, decide_False; done).
  erewrite bind_Ok by (apply bderef_Ok; exact Hxn). rewrite bind_assoc.
  erewrite bind_Ok by (apply bderef_Ok; exact Hxn).
  cbn [b_next b_prev released f_refcnt f_lock]. rewrite Hn, Hp, bind_assoc.
  erewrite bind_Ok by (apply bassign_alter; simpl; by rewrite length_alter). rewrite bind_assoc.
  cbn [put bc_arr bc_bufs]. cbv zeta in Hh0. unfold bnxt in Hh0.
  apply bind_Some in Hh0 as (hb & Hhb & Hhn).
  erewrite bind_Ok by (apply bderef_Ok; exact Hhb). rewrite Hhn, bind_assoc.
  erewrite bind_Ok by (apply bassign_alter; simpl; rewrite !length_alter; lia). rewrite bind_assoc.
  erewrite bind_Ok by (apply bassign_alter; simpl; rewrite !length_alter; lia). rewrite bind_assoc.
  cbn [put bc_arr bc_bufs].
  assert (Hhb' : alter (f_prev (Some bhead)) x (alter (f_next (Some (default bhead (hd_error (A ++ B))))) x
    (alter (f_next (Some n)) p (alter (f_prev (Some p)) n (bc_bufs s1)))) !! bhead = Some hb).
  { assert (x ≠ bhead).
    { intros ->. pose proof (links_nodup _ _ Hl1) as Hnd. apply NoDup_cons in Hnd as [Hnd _]. set_solver. }
    rewrite !(list_lookup_alter _ _ x), !decide_False by done. done. }
  erewrite bind_Ok by (apply bderef_Ok; exact Hhb'). rewrite Hhn, bind_assoc.
  erewrite bind_Ok by (apply bassign_alter; simpl; rewrite !length_alter; lia).
  erewrite bind_Ok by (apply bassign_alter; simpl; rewrite !length_alter; lia).
  eexists. split; [unfold release; simpl; by rewrite Elk|]. split_and!; try done.
  cbn [put bc_arr bc_bufs bc_lk]. rewrite <-Es1.
  apply (relink_core n p (default bhead (hd_error (A ++ B))) x).
Qed.

(** * Coherence of the cache *)

(** A buffer that nobody holds agrees with the disk unless it is dirty. *)
Definition good (disk : Z → Z → list Z) (b : buf) : Prop :=
  sl_lk (b_lock b) = false ∧ 0 ≤ b_refcnt b < 2 ^ 32 - 1 ∧
  (sl_locked (b_lock b) = true → 0 < b_refcnt b) ∧
  (sl_locked (b_lock b) = false → (dirty b = true → valid b = true) ∧
     (valid b = true → dirty b = false → b_data b = disk (b_dev b) (b_blockno b))).

Definition same_key (b c : buf) : Prop := b_dev b = b_dev c ∧ b_blockno b = b_blockno c.

Record coherent (bs : list buf) (disk : Z → Z → list Z) : Prop := {
  co_len : length bs = S NBUF;
  co_good : ∀ i b, (i < NBUF)%nat → bs !! i = Some b → good disk b;
  co_keys : ∀ i j b c, (i < NBUF)%nat → (j < NBUF)%nat → bs !! i = Some b → bs !! j = Some c →
    same_key b c → b_dev b ≠ 0 → i = j
}.

Record bio_rep (s : bcache_state) (L : list nat) : Prop := {
  bi_links : links (bc_bufs s) L;
  bi_lock : bc_lock s = false;
  bi_coh : coherent (bc_bufs s) (bc_disk s)
}.

(** The contents of a block as the kernel sees it. *)
Definition valid_key (bs : list buf) (dev bno : Z) (i : nat) : bool :=
  match bs !! i with
  | Some b => (b_dev b =? dev) && (b_blockno b =? bno) && valid b
  | None => false
  end.
Definition block (bs : list buf) (disk : Z → Z → list Z) (dev bno : Z) : list Z :=
  match List.find (valid_key bs dev bno) (seq 0 NBUF) ≫= (λ i, bs !! i) with
  | Some b => b_data b
  | None => disk dev bno
  end.

Lemma block_cached bs disk i b : coherent bs disk → (i < NBUF)%nat → bs !! i = Some b → b_dev b ≠ 0 →
  block bs disk (b_dev b) (b_blockno b) = if valid b then b_data b else disk (b_dev b) (b_blockno b).
Proof.
  intros Hc Hi Hb Hd. unfold block.
  destruct (List.find (valid_key bs (b_dev b) (b_blockno b)) (seq 0 NBUF)) as [j|] eqn:E; simpl.
  - apply List.find_some in E as [Hj Hk]. apply in_seq in Hj. unfold valid_key in Hk.
    destruct (bs !! j) as [c|] eqn:Hcj; [|done]. apply andb_true_iff in Hk as [Hk Hv].
    apply andb_true_iff in Hk as [H1%Z.eqb_eq H2%Z.eqb_eq].
    assert (i = j) as <- by (by apply (co_keys _ _ Hc i j b c); [lia|lia| | | |]).
    simplify_eq. by rewrite Hv.
  - destruct (valid b) eqn:Hv; [|done]. exfalso.
    assert (Hin : In i (seq 0 NBUF)) by (apply in_seq; lia).
    pose proof (List.find_none _ _ E i Hin) as Hk. unfold valid_key in Hk.
    by rewrite Hb, !Z.eqb_refl, Hv in Hk.
Qed.

Lemma block_uncached bs disk dev bno :
  (∀ i b, (i < NBUF)%nat → bs !! i = Some b → ¬ (b_dev b = dev ∧ b_blockno b = bno)) →
  block bs disk dev bno = disk dev bno.
Proof.
  intros Hno. unfold block.
  destruct (List.find (valid_key bs dev bno) (seq 0 NBUF)) as [j|] eqn:E; [|done].
  apply List.find_some in E as [Hj Hk]. apply in_seq in Hj. unfold valid_key in Hk. exfalso.
  destruct (bs !! j) as [c|] eqn:Hcj; [|done]. apply andb_true_iff in Hk as [Hk _].
  apply andb_true_iff in Hk as [H1%Z.eqb_eq H2%Z.eqb_eq]. apply (Hno j c); [lia|done..].
Qed.

(** Blocks and coherence do not depend on the links. *)
Lemma core_lookup (bs bs' : list buf) (i : nat) b : core <$> bs' = core <$> bs → bs' !! i = Some b →
  ∃ b0, bs !! i = Some b0 ∧ core b = core b0.
Proof.
  intros E Hb. assert (E' : (core <$> bs') !! i = (core <$> bs) !! i) by (by rewrite E).
  rewrite !list_lookup_fmap, Hb in E'. simpl in E'.
  destruct (bs !! i) as [b0|]; [|done]. exists b0. split; [done|]. by apply (inj Some) in E'.
Qed.

Lemma core_fields b c : core b = core c →
  b_flags b = b_flags c ∧ b_dev b = b_dev c ∧ b_blockno b = b_blockno c ∧ b_lock b = b_lock c ∧
  b_refcnt b = b_refcnt c ∧ b_data b = b_data c.
Proof. unfold core. intros E. by simplify_eq/=. Qed.

Lemma good_core disk b c : core b = core c → good disk c → good disk b.
Proof.
  intros (E1 & E2 & E3 & E4 & E5 & E6)%core_fields. unfold good, dirty, valid.
  by rewrite E1, E2, E3, E4, E5, E6.
Qed.

Lemma coherent_core (bs bs' : list buf) disk : core <$> bs' = core <$> bs → coherent bs disk → coherent bs' disk.
Proof.
  intros E [Hl Hg Hk]. split.
  - by rewrite <-Hl, <-(length_fmap core bs), <-E, length_fmap.
  - intros i b Hi Hb. destruct (core_lookup _ _ _ _ E Hb) as (b0 & Hb0 & Eb).
    by eapply good_core, Hg.
  - intros i j b c Hi Hj Hb Hc Hs Hd. destruct (core_lookup _ _ _ _ E Hb) as (b0 & Hb0 & Eb).
    destruct (core_lookup _ _ _ _ E Hc) as (c0 & Hc0 & Ec).
    apply core_fields in Eb as (_ & Eb1 & Eb2 & _), Ec as (_ & Ec1 & Ec2 & _).
    apply (Hk i j b0 c0); try done; [|congruence]. unfold same_key in *. by rewrite <-Eb1, <-Eb2, <-Ec1, <-Ec2.
Qed.

Lemma block_core (bs bs' : list buf) disk dev bno : core <$> bs' = core <$> bs →
  block bs' disk dev bno = block bs disk dev bno.
Proof.
  intros E. unfold block.
  assert (Hl : ∀ i, core <$> bs' !! i = core <$> bs !! i) by (intros i; by rewrite <-!list_lookup_fmap, E).
  assert (Hk : List.find (valid_key bs' dev bno) (seq 0 NBUF) = List.find (valid_key bs dev bno) (seq 0 NBUF)).
  { apply find_ext. intros i. unfold valid_key. specialize (Hl i).
    destruct (bs' !! i) as [b|], (bs !! i) as [c|]; try done. simpl in Hl.
    apply (inj Some) in Hl. apply core_fields in Hl as (E1 & E2 & E3 & _). unfold valid. by rewrite E1, E2, E3. }
  rewrite Hk. destruct (List.find (valid_key bs dev bno) (seq 0 NBUF)) as [i|]; cbn; [|done]. specialize (Hl i).
  destruct (bs' !! i) as [b|], (bs !! i) as [c|]; try done. simpl in Hl.
  apply (inj Some) in Hl. by apply core_fields in Hl as (_ & _ & _ & _ & _ & ?).
Qed.

(** Buffer [i] takes new contents: for the block it had, or, clean and
    unlocked, for a block no buffer has. *)
Definition takes (bs : list buf) (b0 b2 : buf) : Prop :=
  same_key b2 b0 ∨
  (∀ j c, (j < NBUF)%nat → bs !! j = Some c → ¬ same_key b2 c) ∧
  sl_locked (b_lock b0) = false ∧ dirty b0 = false.

Lemma coherent_replace bs disk disk' i b0 b2 : coherent bs disk → (i < NBUF)%nat →
  bs !! i = Some b0 → good disk' b2 → b_dev b2 ≠ 0 → takes bs b0 b2 →
  (∀ x y, ¬ (x = b_dev b2 ∧ y = b_blockno b2) → disk' x y = disk x y) →
  coherent (<[i := b2]> bs) disk'.
Proof.
  intros [Hl Hg Hk] Hi Hb0 Hb2 Hd Ht Hdisk.
  assert (Hother : ∀ j c, (j < NBUF)%nat → i ≠ j → bs !! j = Some c → ¬ same_key b2 c).
  { intros j c Hj Hne Hc Hs. destruct Ht as [[E1 E2]|[Hno _]]; [|by apply (Hno j c)].
    destruct Hs as [E3 E4]. apply Hne. apply (Hk i j b0 c); try done; [|congruence].
    unfold same_key. split; congruence. }
  split; [by rewrite length_insert| |].
  - intros j c Hj Hc. apply list_lookup_insert_Some in Hc as [(<- & <- & _)|[Hne Hc]]; [done|].
    destruct (Hg j c Hj Hc) as (? & ? & ? & Hc4). unfold good. do 3 (split; [done|]).
    intros Hlk. destruct (Hc4 Hlk) as [? Hc5]. split; [done|]. intros Hv Hdi. rewrite Hc5 by done.
    symmetry. apply Hdisk. intros [E1 E2]. by apply (Hother j c Hj Hne Hc).
  - intros j k c d Hj Hk' Hc Hd' Hs Hdev.
    apply list_lookup_insert_Some in Hc as [(<- & <- & _)|[Hne Hc]];
      apply list_lookup_insert_Some in Hd' as [(<- & <- & _)|[Hne' Hd']]; try done.
    + exfalso. by apply (Hother k d).
    + exfalso. apply (Hother j c); try done. unfold same_key in *. naive_solver.
    + by apply (Hk j k c d).
Qed.

Lemma block_replace bs disk disk' i b0 b2 x y : coherent bs disk → (i < NBUF)%nat →
  bs !! i = Some b0 → good disk' b2 → b_dev b2 ≠ 0 → takes bs b0 b2 →
  (∀ x y, ¬ (x = b_dev b2 ∧ y = b_blockno b2) → disk' x y = disk x y) → x ≠ 0 →
  block (<[i := b2]> bs) disk' x y =
    if (x =? b_dev b2) && (y =? b_blockno b2) then (if valid b2 then b_data b2 else disk' x y)
    else block bs disk x y.
Proof.
  intros Hc Hi Hb0 Hb2 Hd Ht Hdisk Hx.
  pose proof (coherent_replace bs disk disk' i b0 b2 Hc Hi Hb0 Hb2 Hd Ht Hdisk) as Hc'.
  assert (Hil : (i < length bs)%nat) by (by eapply lookup_lt_Some).
  destruct ((x =? b_dev b2) && (y =? b_blockno b2)) eqn:Ek.
  { apply andb_true_iff in Ek as [->%Z.eqb_eq ->%Z.eqb_eq].
    apply (block_cached _ _ i b2); try done. by apply list_lookup_insert_eq. }
  assert (Hk : ¬ (x = b_dev b2 ∧ y = b_blockno b2)).
  { intros [-> ->]. by rewrite !Z.eqb_refl in Ek. }
  assert (Hno : (∀ j c, (j < NBUF)%nat → i ≠ j → bs !! j = Some c → ¬ (b_dev c = x ∧ b_blockno c = y)) →
    block (<[i := b2]> bs) disk' x y = disk x y).
  { intros Hno. rewrite block_uncached; [by apply Hdisk|]. intros j c Hj Hcj.
    apply list_lookup_insert_Some in Hcj as [(<- & <- & _)|[Hne Hcj]]; [naive_solver|by apply (Hno j)]. }
  destruct (List.find (key_is bs x y) (seq 0 NBUF)) as [j|] eqn:E.
  - apply find_elem in E as [Hj%elem_of_seq Hkj]. unfold key_is in Hkj.
    destruct (bs !! j) as [c|] eqn:Hcj; [|done].
    apply andb_true_iff in Hkj as [<-%Z.eqb_eq <-%Z.eqb_eq].
    rewrite (block_cached bs disk j c) by (done || lia). destruct (decide (i = j)) as [<-|Hne].
    + simplify_eq. destruct Ht as [[E1 E2]|(_ & Hu & Hdi)]; [naive_solver|].
      rewrite Hno.
      * destruct (co_good _ _ Hc i b0 Hi Hb0) as (_ & _ & _ & Hg). destruct (Hg Hu) as [_ Hg'].
        destruct (valid b0) eqn:Hv; [|done]. symmetry. by apply Hg'.
      * intros j c' Hj' Hne Hc'j [E1 E2]. apply Hne. by apply (co_keys _ _ Hc i j b0 c').
    + rewrite (block_cached _ _ j c); [|done|lia|by rewrite list_lookup_insert_ne|done].
      by rewrite Hdisk.
  - assert (Hn : ∀ j c, (j < NBUF)%nat → bs !! j = Some c → ¬ (b_dev c = x ∧ b_blockno c = y)).
    { intros j c Hj Hcj [E1 E2]. rewrite find_absent in E.
      assert (Hin : j ∈ seq 0 NBUF) by (apply elem_of_seq; lia).
      specialize (E j Hin). unfold key_is in E.
      by rewrite Hcj, E1, E2, !Z.eqb_refl in E. }
    rewrite (block_uncached bs) by done. apply Hno. intros j c Hj _. by apply Hn.
Qed.

(** No buffer of the block is locked; some buffer can be recycled. *)
Definition unlocked (bs : list buf) (dev bno : Z) : Prop :=
  ∀ i b, (i < NBUF)%nat → bs !! i = Some b → b_dev b = dev → b_blockno b = bno →
    sl_locked (b_lock b) = false.
Definition has_free (bs : list buf) : Prop :=
  ∃ i b, (i < NBUF)%nat ∧ bs !! i = Some b ∧ b_refcnt b = 0 ∧ dirty b = false.

(** A buffer has the block, or one can be recycled for it. *)
Definition gettable (bs : list buf) (dev bno : Z) : Prop :=
  (∃ i b, (i < NBUF)%nat ∧ bs !! i = Some b ∧ b_dev b = dev ∧ b_blockno b = bno) ∨ has_free bs.

(** The buffer [b1] that [bget] returns for a block, from [b0]. *)
Record got (s : bcache_state) (dev bno : Z) (i : nat) (b0 b1 : buf) : Prop := {
  g_idx : (i < NBUF)%nat;
  g_old : bc_bufs s !! i = Some b0;
  g_key : b_dev b1 = dev ∧ b_blockno b1 = bno;
  g_held : b_lock b1 = sl_held mypid;
  g_takes : takes (bc_bufs s) b0 b1;
  g_next : b_next b1 = b_next b0;
  g_prev : b_prev b1 = b_prev b0;
  g_free : sl_locked (b_lock b0) = false;
  g_ref : b_refcnt b1 = b_refcnt b0 + 1;
  g_ref0 : 0 ≤ b_refcnt b0 < 2 ^ 32 - 1;
  g_dirty : dirty b1 = dirty b0;
  g_dirty_valid : dirty b1 = true → valid b1 = true;
  g_data : block (bc_bufs s) (bc_disk s) dev bno = if valid b1 then b_data b1 else bc_disk s dev bno
}.

Lemma bget_spec s L dev bno : bio_rep s L → dev ≠ 0 →
  unlocked (bc_bufs s) dev bno → gettable (bc_bufs s) dev bno →
  ∃ i b0 b1, bget dev bno s = Ok (i, set_buf i b1 s) ∧ got s dev bno i b0 b1.
Proof.
  intros [Hl Hlk Hc] Hd Hu Hf.
  destruct (List.find (key_is (bc_bufs s) dev bno) L) as [i|] eqn:E.
  - apply find_elem in E as HE. destruct HE as [Hi Hk]. apply (links_elem _ _ _ Hl) in Hi as Hi'.
    unfold key_is in Hk. destruct (bc_bufs s !! i) as [b0|] eqn:Hb0; [|done].
    apply andb_true_iff in Hk as [E1%Z.eqb_eq E2%Z.eqb_eq].
    destruct (co_good _ _ Hc i b0 Hi' Hb0) as (Hslk & Href & _ & Hg).
    assert (Hlo : sl_locked (b_lock b0) = false) by (by apply (Hu i b0)).
    destruct (Hg Hlo) as [Hdv _].
    rewrite (bget_hit s L dev bno i b0) by done.
    do 3 eexists. split; [reflexivity|]. split; try done; simpl.
    + by left.
    + apply u32_small. lia.
    + unfold valid. rewrite <-E1, <-E2 at 1. rewrite (block_cached _ _ i b0) by (done || congruence).
      unfold valid. simpl. by rewrite E1, E2.
  - rewrite find_absent in E.
    assert (Hno : ∀ j c, (j < NBUF)%nat → bc_bufs s !! j = Some c → ¬ (b_dev c = dev ∧ b_blockno c = bno)).
    { intros j c Hj Hcj [E1 E2]. apply (links_elem _ _ _ Hl) in Hj. specialize (E j Hj).
      unfold key_is in E. by rewrite Hcj, E1, E2, !Z.eqb_refl in E. }
    destruct (List.find (recyclable (bc_bufs s)) (reverse L)) as [i|] eqn:Er.
    2: { exfalso. rewrite find_absent in Er.
         destruct Hf as [(j & c & Hj & Hcj & E1 & E2)|(j & c & Hj & Hcj & H1 & H2)]; [by apply (Hno j c)|].
         apply (links_elem _ _ _ Hl) in Hj. specialize (Er j ltac:(by rewrite elem_of_reverse)).
         unfold recyclable in Er. by rewrite Hcj, H1, H2 in Er. }
    apply find_elem in Er as HE. destruct HE as [Hi Hk]. rewrite elem_of_reverse in Hi.
    apply (links_elem _ _ _ Hl) in Hi as Hi'. unfold recyclable in Hk.
    destruct (bc_bufs s !! i) as [b0|] eqn:Hb0; [|done].
    apply andb_true_iff in Hk as [H1%Z.eqb_eq H2%negb_true_iff].
    destruct (co_good _ _ Hc i b0 Hi' Hb0) as (Hslk & Href & Hlo & _).
    assert (Hfree : sl_locked (b_lock b0) = false).
    { destruct (sl_locked (b_lock b0)); [|done]. specialize (Hlo eq_refl). lia. }
    rewrite (bget_miss s L dev bno i b0); try done; [|by apply find_absent].
    do 3 eexists. split; [reflexivity|]. split; try done; simpl.
    + right. split_and!; try done. intros j c Hj Hcj [E1 E2]. by apply (Hno j c).
    + by rewrite H1.
    + unfold valid. simpl. by apply block_uncached.
Qed.

(** Releasing the buffer of a block after the holder has left [b2] in it. *)
Lemma brelse_spec s L dev bno i b0 b1 b2 (disk' : disk) : bio_rep s L → dev ≠ 0 → got s dev bno i b0 b1 →
  b_dev b2 = b_dev b1 → b_blockno b2 = b_blockno b1 → b_lock b2 = b_lock b1 →
  b_refcnt b2 = b_refcnt b1 → b_next b2 = b_next b1 → b_prev b2 = b_prev b1 →
  (dirty b2 = true → valid b2 = true) →
  (valid b2 = true → dirty b2 = false → b_data b2 = disk' dev bno) →
  (∀ x y, ¬ (x = dev ∧ y = bno) → disk' x y = bc_disk s x y) →
  (dirty b2 = true → dirty b0 = true) →
  ∃ s' L', brelse i (Bcache (<[i := b2]> (bc_bufs s)) (bc_lock s) disk') = Ok (tt, s') ∧
    bio_rep s' L' ∧ bc_disk s' = disk' ∧
    (∀ x y, x ≠ 0 → block (bc_bufs s') disk' x y =
       if (x =? dev) && (y =? bno) then (if valid b2 then b_data b2 else disk' x y)
       else block (bc_bufs s) (bc_disk s) x y) ∧
    (∀ x y, unlocked (bc_bufs s) x y → unlocked (bc_bufs s') x y) ∧
    (has_free (bc_bufs s) → has_free (bc_bufs s')).
Proof.
  intros [Hl Hlk Hc] Hd [Hi Hold [<- <-] Hheld Ht Hnx Hpv Hfree Href Href0 Hdi Hdv Hdata]
    E1 E2 E3 E4 E5 E6 H1 H2 H3 H4.
  set (s1 := Bcache _ _ _).
  assert (HiL : i ∈ L) by (by apply (links_elem _ _ _ Hl)).
  apply list_elem_of_split in HiL as (A & B & ->).
  assert (Hil : (i < length (bc_bufs s))%nat) by (by eapply lookup_lt_Some).
  assert (Hl1 : links (bc_bufs s1) (A ++ i :: B)) by (by apply (links_same _ i b0); congruence).
  destruct (brelse_run s1 A i B b2 Hl1 Hlk) as (s' & -> & Hlk' & Hd' & Hcore & Hl');
    [by apply list_lookup_insert_eq|congruence|].
  match type of Hl' with links _ ?L0 => exists s', L0 end.
  unfold s1 in Hcore. cbn [bc_bufs] in Hcore. rewrite list_insert_insert_eq in Hcore.
  assert (Hr : u32 (b_refcnt b2 - 1) = b_refcnt b0) by (rewrite u32_small; lia).
  assert (Hgood : good disk' (released b2)).
  { unfold good, released. simpl. rewrite Hr. do 3 (split; [done|]). intros _. split; [done|].
    intros Hv Hdir. rewrite E1, E2. by apply H2. }
  assert (Ht2 : takes (bc_bufs s) b0 (released b2)).
  { unfold takes, same_key in *. simpl. by rewrite E1, E2. }
  assert (Hdr : b_dev (released b2) ≠ 0) by (simpl; by rewrite E1).
  assert (Hdk : ∀ x y, ¬ (x = b_dev (released b2) ∧ y = b_blockno (released b2)) → disk' x y = bc_disk s x y).
  { simpl. by rewrite E1, E2. }
  pose proof (coherent_replace _ _ disk' i b0 (released b2) Hc Hi Hold Hgood Hdr Ht2 Hdk) as Hc'.
  assert (Hlook : ∀ j b, bc_bufs s' !! j = Some b →
    j = i ∧ core b = core (released b2) ∨ j ≠ i ∧ ∃ c, bc_bufs s !! j = Some c ∧ core b = core c).
  { intros j b Hb. destruct (core_lookup _ _ _ _ Hcore Hb) as (c & Hc0 & Ec).
    apply list_lookup_insert_Some in Hc0 as [(<- & <- & _)|[Hne Hc0]]; [by left|right]. eauto. }
  split_and!; try done.
  - split; [done|done|]. rewrite Hd'. by eapply coherent_core.
  - intros x y Hx. rewrite (block_core _ _ disk' x y Hcore).
    rewrite (block_replace _ (bc_disk s) disk' i b0 (released b2)) by done. simpl. by rewrite E1, E2.
  - intros x y Hu j b Hj Hb Hx Hy. apply Hlook in Hb as [[-> Ec]|(Hne & c & Hcj & Ec)];
      apply core_fields in Ec as (_ & F1 & F2 & -> & _); [done|].
    apply (Hu j c); (done || congruence).
  - intros (j & c & Hj & Hcj & Hr0 & Hd0).
    assert (Hj' : (j < length (bc_bufs s'))%nat) by (rewrite (lk_len _ _ Hl'); lia).
    destruct (lookup_lt_is_Some_2 _ _ Hj') as [b Hb]. exists j, b.
    apply Hlook in Hb as Hb'. destruct Hb' as [[-> Ec]|(Hne & c' & Hcj' & Ec)];
      apply core_fields in Ec as (F0 & _ & _ & _ & F4 & _); unfold dirty in *; rewrite F0, F4; simplify_eq.
    + cbn [b_flags b_refcnt released f_refcnt f_lock]. split_and!; try done; [congruence|].
      destruct (Z.testbit (b_flags b2) 2); [|done]. specialize (H4 eq_refl). congruence.
    + done.
Qed.

(** * Blocks through the cache *)

(** [bp = bread(dev, bno); ... bp->data ...; brelse(bp);] *)
Definition read_block (dev bno : Z) : M bcache_state (list Z) :=
  b ← bread dev bno;
  d ← bderef (Some b) b_data;
  brelse b;;
  mret d.

(** [bp = bget(dev, bno); memmove(bp->data, data); bwrite(bp); brelse(bp);] *)
Definition write_block (dev bno : Z) (data : list Z) : M bcache_state unit :=
  b ← bget dev bno;
  bassign (Some b) (f_data data);;
  bwrite b;;
  brelse b.

Context {DOk : BlockDriverOk _}.

(** The buffer [bread] returns holds the contents of the block. *)
Lemma bread_spec s L dev bno : bio_rep s L → dev ≠ 0 → drv_ok dev bno = true →
  unlocked (bc_bufs s) dev bno → gettable (bc_bufs s) dev bno →
  ∃ i b0 b1 b2, bread dev bno s = Ok (i, set_buf i b2 s) ∧ got s dev bno i b0 b1 ∧
    b2 = f_flags (b_flags b2) (f_data (b_data b2) b1) ∧ valid b2 = true ∧ dirty b2 = dirty b0 ∧
    b_data b2 = block (bc_bufs s) (bc_disk s) dev bno ∧
    (dirty b2 = false → b_data b2 = bc_disk s dev bno).
Proof.
  intros HL Hd Hok Hu Hf. destruct (bget_spec s L dev bno HL Hd Hu Hf) as (i & b0 & b1 & E & Hg).
  exists i, b0, b1. unfold bread. erewrite bind_Ok by exact E.
  pose proof Hg as [Hi Hold [Hk1 Hk2] Hheld Ht Hnx Hpv Hfree Href Href0 Hdi Hdv Hdata].
  assert (Hil : (i < length (bc_bufs s))%nat) by (by eapply lookup_lt_Some).
  erewrite bind_Ok by (by apply bderef_Ok, set_buf_lookup). rewrite land_valid.
  fold (valid b1). destruct (valid b1) eqn:Hv; cbn [negb].
  - exists b1. split_and!; try done; [by destruct b1|].
    intros Hnd. destruct (bi_coh _ _ HL) as [_ Hgood _]. destruct Ht as [[K1 K2]|(Hno & _ & Hc0)].
    + destruct (Hgood i b0 Hi Hold) as (_ & _ & _ & Hg0). destruct (Hg0 Hfree) as [_ Hg0'].
      assert (Hb : block (bc_bufs s) (bc_disk s) dev bno =
        if valid b0 then b_data b0 else bc_disk s dev bno).
      { rewrite <-Hk1, <-Hk2, K1, K2. apply (block_cached _ _ i b0); try done; [apply HL|congruence]. }
      rewrite <-Hdata, Hb. destruct (valid b0) eqn:Hv0; [|done].
      rewrite Hg0' by (done || congruence). congruence.
    + rewrite <-Hdata. apply block_uncached. intros j c Hj Hc [E1 E2]. apply (Hno j c Hj Hc).
      unfold same_key. by rewrite E1, E2.
  - assert (Hndirty : dirty b1 = false) by (destruct (dirty b1); [by discriminate Hdv|done]).
    erewrite bind_Ok.
    2: { apply (iderw_read mypid i b1); try done; [by apply set_buf_lookup|by rewrite Hk1, Hk2]. }
    eexists. split; [rewrite set_buf_twice; reflexivity|]. cbn [bc_disk set_buf]. rewrite Hk1, Hk2.
    split_and!; try done.
    + unfold valid. cbn [b_flags f_flags]. rewrite Z.lor_spec. by rewrite orb_true_r.
    + unfold dirty in *. cbn [b_flags f_flags]. rewrite Z.lor_spec, <-Hdi, Hndirty. done.
Qed.

Lemma read_block_spec s L dev bno : bio_rep s L → dev ≠ 0 → drv_ok dev bno = true →
  unlocked (bc_bufs s) dev bno → has_free (bc_bufs s) →
  ∃ s' L', read_block dev bno s = Ok (block (bc_bufs s) (bc_disk s) dev bno, s') ∧ bio_rep s' L' ∧
    bc_disk s' = bc_disk s ∧ has_free (bc_bufs s') ∧
    (∀ x y, unlocked (bc_bufs s) x y → unlocked (bc_bufs s') x y) ∧
    ∀ x y, x ≠ 0 → block (bc_bufs s') (bc_disk s') x y = block (bc_bufs s) (bc_disk s) x y.
Proof.
  intros HL Hd Hok Hu Hf.
  destruct (bread_spec s L dev bno HL Hd Hok Hu (or_intror Hf)) as (i & b0 & b1 & b2 & E & Hg & E2 & Hv & Hdi & Hdata & Hclean).
  unfold read_block. erewrite bind_Ok by exact E.
  assert (Hil : (i < length (bc_bufs s))%nat) by (eapply lookup_lt_Some, Hg).
  erewrite bind_Ok by (by apply bderef_Ok, set_buf_lookup).
  destruct (brelse_spec s L dev bno i b0 b1 b2 (bc_disk s)) as (s' & L' & Er & HL' & Hd' & Hb' & Hu' & Hf');
    try done; try (by rewrite E2); [by rewrite Hdi|].
  erewrite bind_Ok by exact Er. exists s', L'. rewrite Hdata. split_and!; try done; [by apply Hf'|].
  intros x y Hx. rewrite Hd', Hb' by done. destruct (Z.eqb_spec x dev) as [->|]; [|done].
  destruct (Z.eqb_spec y bno) as [->|]; [|done]. simpl. by rewrite Hv.
Qed.

Lemma write_block_spec s L dev bno data : bio_rep s L → dev ≠ 0 → drv_ok dev bno = true →
  unlocked (bc_bufs s) dev bno → has_free (bc_bufs s) →
  ∃ s' L', write_block dev bno data s = Ok (tt, s') ∧ bio_rep s' L' ∧
    bc_disk s' = disk_upd dev bno data (bc_disk s) ∧ has_free (bc_bufs s') ∧
    (∀ x y, unlocked (bc_bufs s) x y → unlocked (bc_bufs s') x y) ∧
    ∀ x y, x ≠ 0 → block (bc_bufs s') (bc_disk s') x y =
      if (x =? dev) && (y =? bno) then data else block (bc_bufs s) (bc_disk s) x y.
Proof.
  intros HL Hd Hok Hu Hf. destruct (bget_spec s L dev bno HL Hd Hu (or_intror Hf)) as (i & b0 & b1 & E & Hg).
  pose proof Hg as [Hi Hold [Hk1 Hk2] Hheld Ht Hnx Hpv Hfree Href Href0 Hdi Hdv Hdata].
  assert (Hil : (i < length (bc_bufs s))%nat) by (by eapply lookup_lt_Some).
  unfold write_block. erewrite bind_Ok by exact E.
  erewrite bind_Ok by (by apply bassign_Ok, set_buf_lookup). rewrite set_buf_twice.
  set (b2 := f_flags (Z.lor (Z.land (Z.lor (b_flags b1) B_DIRTY) (Z.lnot B_DIRTY)) B_VALID) (f_data data b1)).
  assert (Ew : bwrite i (set_buf i (f_data data b1) s) =
    Ok (tt, Bcache (<[i := b2]> (bc_bufs s)) (bc_lock s) (disk_upd dev bno data (bc_disk s)))).
  { unfold bwrite. erewrite bind_Ok.
    2: { eapply blk_Ok; [by apply set_buf_lookup|]. cbn [b_lock f_data]. rewrite Hheld. apply holdingsleep_Ok. }
    cbn [negb]. rewrite set_buf_twice.
    erewrite bind_Ok by (by apply bderef_Ok, set_buf_lookup).
    erewrite bind_Ok by (by apply bassign_Ok, set_buf_lookup). rewrite set_buf_twice.
    erewrite (iderw_write mypid i); [|by apply set_buf_lookup|done|by rewrite <-Hk1, <-Hk2 in Hok|].
    - rewrite set_buf_twice. cbn [b_dev b_blockno b_data f_flags f_lock f_data]. rewrite Hk1, Hk2.
      unfold set_disk, set_buf. cbn [bc_bufs bc_lock bc_disk]. do 4 f_equal.
      unfold b2. by destruct b1; simpl in *; subst.
    - cbn [b_flags f_flags]. rewrite Z.lor_spec. apply orb_true_r. }
  erewrite bind_Ok by exact Ew.
  assert (Hv2 : valid b2 = true).
  { unfold valid, b2. cbn [b_flags f_flags]. rewrite Z.lor_spec. apply orb_true_r. }
  assert (Hd2 : dirty b2 = false).
  { unfold dirty, b2. cbn [b_flags f_flags]. rewrite Z.lor_spec, Z.land_spec, Z.lnot_spec by lia.
    by rewrite andb_false_r. }
  assert (Hupd : disk_upd dev bno data (bc_disk s) dev bno = data).
  { rewrite disk_upd_blocks. unfold blocks_upd. by rewrite !Z.eqb_refl. }
  destruct (brelse_spec s L dev bno i b0 b1 b2 (disk_upd dev bno data (bc_disk s)))
    as (s' & L' & -> & HL' & Hd' & Hb' & Hu' & Hf'); try done.
  { intros x y Hne. rewrite disk_upd_blocks. unfold blocks_upd. destruct (Z.eqb_spec x dev), (Z.eqb_spec y bno); naive_solver. }
  { by rewrite Hd2. }
  exists s', L'. split_and!; try done; [by apply Hf'|].
  intros x y Hx. rewrite Hd', Hb' by done. by rewrite Hv2.
Qed.

(** * Initialisation *)
Definition buf0 : buf := Buf 0 0 0 (SleepLock false false 0) 0 None None (replicate (Z.to_nat BSIZE) 0).
Definition bcache_bss (d : disk) : bcache_state :=
  Bcache (replicate (S NBUF) buf0) false d.

Lemma blk_alter {A} s i (m : M sleeplock A) a l b : bc_bufs s !! i = Some b → m (b_lock b) = Ok (a, l) →
  blk i m s = Ok (a, put bc_arr (alter (f_lock l) i (bc_bufs s)) s).
Proof.
  intros Hb Hm. rewrite (blk_Ok _ _ _ _ _ _ Hb Hm). unfold set_buf. simpl. do 3 f_equal.
  apply list_eq. intros j. rewrite list_lookup_alter. destruct (decide (i = j)) as [<-|Hne];
    [rewrite Hb, list_lookup_insert_eq by (by eapply lookup_lt_Some)|rewrite list_lookup_insert_ne by done];
    done.
Qed.

Lemma binit_loop_spec n k s L :
  length (bc_bufs s) = S NBUF → (k + n = NBUF)%nat → NoDup (bhead :: L) → (∀ i, i ∈ L ↔ (i < k)%nat) →
  ring (bnxt (bc_bufs s)) (bprv (bc_bufs s)) (bhead :: L) →
  core <$> bc_bufs s = core <$> replicate (S NBUF) buf0 →
  ∃ s' L', binit_loop n k s = Ok (tt, s') ∧ length (bc_bufs s') = S NBUF ∧
    NoDup (bhead :: L') ∧ (∀ i, i ∈ L' ↔ (i < NBUF)%nat) ∧
    ring (bnxt (bc_bufs s')) (bprv (bc_bufs s')) (bhead :: L') ∧
    core <$> bc_bufs s' = core <$> replicate (S NBUF) buf0 ∧
    bc_lock s' = bc_lock s ∧ bc_disk s' = bc_disk s.
Proof.
  revert k s L. induction n as [|n IH]; intros k s L Hlen Hk Hnd HL Hr Hcore.
  { exists s, L. split_and!; try done. intros i. rewrite HL. lia. }
  cbn [binit_loop]. destruct (ring_link_head _ _ _ _ Hr) as [Hn _].
  set (h0 := default bhead (hd_error L)) in *.
  assert (Hh0 : h0 ∈ bhead :: L) by (unfold h0; destruct L; [left|right; left]).
  assert (Hkh : k ≠ bhead) by (unfold bhead; lia).
  assert (HkL : k ∉ bhead :: L).
  { rewrite elem_of_cons, HL. intros [?|?]; [done|lia]. }
  assert (Hh0k : h0 ≠ k) by (by intros <-).
  assert (Hh0l : (h0 < S NBUF)%nat).
  { apply elem_of_cons in Hh0 as [->|Hh0]; [unfold bhead; lia|]. apply HL in Hh0. lia. }
  unfold bnxt in Hn. apply bind_Some in Hn as (hb & Hhb & Hhn).
  erewrite bind_Ok by (by apply bderef_Ok). rewrite Hhn.
  erewrite bind_Ok by (apply bassign_alter; lia).
  erewrite bind_Ok by (apply bassign_alter; simpl; rewrite length_alter; lia).
  cbn [put bc_arr bc_bufs].
  set (bs2 := alter (f_prev (Some bhead)) k (alter (f_next (Some h0)) k (bc_bufs s))).
  assert (Hl2 : length bs2 = S NBUF) by (unfold bs2; by rewrite !length_alter).
  assert (Hc2 : core <$> bs2 = core <$> replicate (S NBUF) buf0).
  { unfold bs2. by rewrite core_prev, core_next. }
  destruct (lookup_lt_is_Some_2 bs2 k ltac:(lia)) as [bk Hbk].
  assert (Hck : core bk = core buf0).
  { destruct (core_lookup _ _ _ _ Hc2 Hbk) as (b0 & Hb0 & Eb).
    apply lookup_replicate in Hb0 as [-> _]. done. }
  erewrite bind_Ok by (eapply blk_alter; [exact Hbk|reflexivity]).
  cbn [put bc_arr bc_bufs]. set (bs3 := alter (f_lock _) k bs2).
  assert (E3 : bs3 = bs2).
  { apply list_eq. intros j. unfold bs3. rewrite list_lookup_alter. case_decide; [subst j|done].
    rewrite Hbk. simpl. f_equal. apply core_fields in Hck as (_ & _ & _ & Hlk & _).
    destruct bk. simpl in *. by subst. }
  rewrite E3. clear bs3 E3.
  assert (Hhb2 : bs2 !! bhead = Some hb).
  { unfold bs2. rewrite !list_lookup_alter, !decide_False by done. done. }
  erewrite bind_Ok by (apply bderef_Ok; exact Hhb2). rewrite Hhn.
  erewrite bind_Ok by (apply bassign_alter; simpl; lia).
  erewrite bind_Ok by (apply bassign_alter; simpl; rewrite length_alter; unfold bhead; lia).
  cbn [put bc_arr bc_bufs]. set (s1 := Bcache _ _ _).
  destruct (IH (S k) s1 (k :: L)) as (s' & L' & -> & H1 & H2 & H3 & H4 & H5 & H6 & H7).
  - simpl. by rewrite !length_alter.
  - lia.
  - rewrite NoDup_cons in Hnd |- *. destruct Hnd as [Hnd1 Hnd2]. split; [set_solver|].
    apply NoDup_cons. split; [set_solver|done].
  - intros i. rewrite elem_of_cons, HL. lia.
  - pose proof (ring_insert_first _ _ bhead L k h0 eq_refl Hnd HkL Hr) as Hi.
    revert Hi. apply ring_ext; intros y; simpl; fold bs2.
    + rewrite bnxt_next by (rewrite length_alter; unfold bhead; lia). apply fupd_ext. intros z.
      rewrite bnxt_prev. unfold bs2. rewrite bnxt_prev. apply bnxt_next. lia.
    + rewrite bprv_next, bprv_prev by lia. apply fupd_ext. intros z. unfold bs2.
      rewrite bprv_prev by (rewrite length_alter; lia). apply fupd_ext. intros w. apply bprv_next.
  - simpl. by rewrite core_next, core_prev.
  - exists s', L'. done.
Qed.

(** [binit] leaves an empty, coherent cache. *)
Lemma binit_rep (disk : Bio.disk) : ∃ s L, binit (bcache_bss disk) = Ok (tt, s) ∧ bio_rep s L ∧
  bc_disk s = disk ∧ has_free (bc_bufs s) ∧ (∀ x y, unlocked (bc_bufs s) x y) ∧
  (∀ x y, x ≠ 0 → block (bc_bufs s) disk x y = disk x y) ∧
  ∀ i b, bc_bufs s !! i = Some b → core b = core buf0.
Proof.
  unfold binit. erewrite bind_Ok by reflexivity.
  change (put bc_lk false (bcache_bss disk)) with (bcache_bss disk).
  assert (Hbl : (bhead < S NBUF)%nat) by (unfold bhead; lia).
  assert (Hrl : length (replicate (S NBUF) buf0) = S NBUF) by apply length_replicate.
  erewrite bind_Ok by (apply bassign_alter; cbn [bc_bufs bcache_bss]; by rewrite Hrl).
  erewrite bind_Ok by (apply bassign_alter; cbn [bc_bufs bcache_bss put bc_arr]; by rewrite length_alter, Hrl).
  set (s0 := put bc_arr _ _).
  destruct (binit_loop_spec NBUF 0 s0 []) as (s & L & -> & Hlen & Hnd & HL & Hr & Hcore & Hlk & Hdisk).
  - unfold s0. cbn [bc_bufs bcache_bss put bc_arr]. by rewrite !length_alter, Hrl.
  - done.
  - apply NoDup_singleton.
  - intros i. split; [set_solver|lia].
  - apply ring_single. unfold s0. cbn [bc_bufs bcache_bss put bc_arr]. unfold bnxt, bprv.
    rewrite !list_lookup_alter, !decide_True, lookup_replicate_2 by done. done.
  - unfold s0. cbn [bc_bufs bcache_bss put bc_arr]. by rewrite core_next, core_prev.
  - assert (Hb : ∀ i b, bc_bufs s !! i = Some b → core b = core buf0).
    { intros i b Hb. destruct (core_lookup _ _ _ _ Hcore Hb) as (b0 & Hb0 & Eb).
      apply lookup_replicate in Hb0 as [-> _]. done. }
    exists s, L. split_and!; try done.
    + split; [split; [done|done|]|done|split; [done| |]].
      * apply NoDup_Permutation; [by apply NoDup_cons in Hnd as [_ ?]|apply NoDup_seq|].
        intros i. rewrite HL, elem_of_seq. lia.
      * intros i b _ Hib. apply (good_core _ _ buf0); [by apply (Hb i)|]. by unfold good.
      * intros i j b c _ _ Hib _ _ Hd. apply Hb, core_fields in Hib as (_ & E & _). by rewrite E in Hd.
    + assert (Hl0 : (0 < length (bc_bufs s))%nat) by lia.
      destruct (lookup_lt_is_Some_2 _ _ Hl0) as [b Hb0]. exists 0%nat, b.
      apply Hb in Hb0 as Hc. apply core_fields in Hc as (E1 & _ & _ & _ & E5 & _).
      split_and!; [|done|done|by unfold dirty; rewrite E1]. apply HL. destruct (decide (0 ∈ L)%nat); [done|].
      rewrite HL in n. assert (NBUF = 30%nat) as HN by (with_strategy transparent [NBUF] done). lia.
    + intros x y i b _ Hib _ _. apply Hb, core_fields in Hib as (_ & _ & _ & -> & _). done.
    + intros x y Hx. apply block_uncached. intros i b _ Hib [E _].
      apply Hb, core_fields in Hib as (_ & E2 & _). by rewrite E2 in E.
Qed.

(** * The cache as a map from blocks to contents *)
Inductive bop := BRead (dev bno : Z) | BWrite (dev bno : Z) (data : list Z).

Definition bop_key (o : bop) : Z * Z :=
  match o with BRead d b => (d, b) | BWrite d b _ => (d, b) end.

Definition bop_run (o : bop) : M bcache_state (list Z) :=
  match o with
  | BRead dev bno => read_block dev bno
  | BWrite dev bno data => write_block dev bno data;; mret data
  end.

Fixpoint bops_run (os : list bop) : M bcache_state (list (list Z)) :=
  match os with
  | [] => mret []
  | o :: os => r ← bop_run o; rs ← bops_run os; mret (r :: rs)
  end.

Definition map_step (m : Z → Z → list Z) (o : bop) : list Z * (Z → Z → list Z) :=
  match o with
  | BRead dev bno => (m dev bno, m)
  | BWrite dev bno data => (data, blocks_upd dev bno data m)
  end.

Fixpoint map_run (m : Z → Z → list Z) (os : list bop) : list (list Z) * (Z → Z → list Z) :=
  match os with
  | [] => ([], m)
  | o :: os => let '(r, m) := map_step m o in
               let '(rs, m) := map_run m os in (r :: rs, m)
  end.

(** The block exists, is not on device 0 and no one has it locked. *)
Definition bop_ok (s : bcache_state) (o : bop) : Prop :=
  (bop_key o).1 ≠ 0 ∧ drv_ok (bop_key o).1 (bop_key o).2 = true ∧
  unlocked (bc_bufs s) (bop_key o).1 (bop_key o).2.

Lemma bop_spec s L o m : bio_rep s L → has_free (bc_bufs s) → bop_ok s o →
  (∀ x y, x ≠ 0 → block (bc_bufs s) (bc_disk s) x y = m x y) →
  ∃ s' L', bop_run o s = Ok ((map_step m o).1, s') ∧ bio_rep s' L' ∧ has_free (bc_bufs s') ∧
    (∀ x y, unlocked (bc_bufs s) x y → unlocked (bc_bufs s') x y) ∧
    ∀ x y, x ≠ 0 → block (bc_bufs s') (bc_disk s') x y = (map_step m o).2 x y.
Proof.
  intros HL Hf (Hd & Hok & Hu) Hm. destruct o as [dev bno|dev bno data]; simpl in *.
  - destruct (read_block_spec s L dev bno HL Hd Hok Hu Hf) as (s' & L' & -> & HL' & _ & Hf' & Hu' & Hb).
    exists s', L'. rewrite Hm by done. split_and!; try done.
    intros x y Hx. by rewrite Hb, Hm.
  - destruct (write_block_spec s L dev bno data HL Hd Hok Hu Hf) as (s' & L' & E & HL' & _ & Hf' & Hu' & Hb).
    exists s', L'. erewrite bind_Ok by exact E. split_and!; try done.
    intros x y Hx. rewrite Hb by done. unfold blocks_upd. by rewrite Hm.
Qed.

(** C10. The buffer cache behaves as a map from blocks to contents: whatever
    sequence of block reads and writes runs, with whatever hits, misses and
    recycling of buffers, it terminates without panic, every read returns what
    the last write of that block wrote, or what the block held before, and the
    cache stays coherent with the disk. *)
Theorem bcache_refines_map os s L m : bio_rep s L → has_free (bc_bufs s) →
  (∀ o, o ∈ os → bop_ok s o) →
  (∀ x y, x ≠ 0 → block (bc_bufs s) (bc_disk s) x y = m x y) →
  ∃ s' L', bops_run os s = Ok ((map_run m os).1, s') ∧ bio_rep s' L' ∧
    ∀ x y, x ≠ 0 → block (bc_bufs s') (bc_disk s') x y = (map_run m os).2 x y.
Proof.
  revert s L m. induction os as [|o os IH]; intros s L m HL Hf Hok Hm; [by exists s, L|].
  destruct (bop_spec s L o m HL Hf) as (s1 & L1 & E1 & HL1 & Hf1 & Hu1 & Hm1);
    [apply Hok; set_solver|done|].
  destruct (IH s1 L1 (map_step m o).2 HL1 Hf1) as (s2 & L2 & E2 & HL2 & Hm2); [|done|].
  { intros o' Ho'. destruct (Hok o') as (? & ? & ?); [set_solver|]. split_and!; try done. by apply Hu1. }
  exists s2, L2. cbn [bops_run map_run]. erewrite bind_Ok by exact E1. erewrite bind_Ok by exact E2.
  destruct (map_step m o) as [r m1]. simpl in *. destruct (map_run m1 os) as [rs m2]. done.
Qed.

(** [bget] panics exactly when the block is not cached and every buffer is
    referenced or dirty; in every other case it returns a locked buffer of the
    block, unless the buffer of the block is locked, when it blocks. *)
Lemma bget_outcome s L dev bno : bio_rep s L → dev ≠ 0 →
  match bget dev bno s with
  | Ok (i, s') => ∃ b, bc_bufs s' !! i = Some b ∧ b_dev b = dev ∧ b_blockno b = bno ∧
      b_lock b = sl_held mypid ∧ unlocked (bc_bufs s) dev bno
  | Panic msg => msg = "bget: no buffers"%string ∧
      (∀ i b, (i < NBUF)%nat → bc_bufs s !! i = Some b → ¬ (b_dev b = dev ∧ b_blockno b = bno)) ∧
      ¬ has_free (bc_bufs s)
  | Blocked => ¬ unlocked (bc_bufs s) dev bno
  | _ => False
  end.
Proof.
  intros HL Hd. pose proof HL as [Hl Hlk Hc].
  destruct (List.find (key_is (bc_bufs s) dev bno) L) as [i|] eqn:E.
  - apply find_elem in E as HE. destruct HE as [Hi Hk]. apply (links_elem _ _ _ Hl) in Hi as Hi'.
    unfold key_is in Hk. destruct (bc_bufs s !! i) as [b0|] eqn:Hb0; [|done].
    apply andb_true_iff in Hk as [E1%Z.eqb_eq E2%Z.eqb_eq].
    assert (Hil : (i < length (bc_bufs s))%nat) by (by eapply lookup_lt_Some).
    destruct (co_good _ _ Hc i b0 Hi' Hb0) as (Hslk & _).
    destruct (sl_locked (b_lock b0)) eqn:Hlo.
    + rewrite (bget_blocked s L dev bno i b0) by done. intros Hu.
      specialize (Hu i b0 Hi' Hb0 E1 E2). congruence.
    + rewrite (bget_hit s L dev bno i b0) by done. eexists. split; [by apply set_buf_lookup|].
      split_and!; try done. intros j c Hj Hcj F1 F2.
      assert (i = j) as <- by (apply (co_keys _ _ Hc i j b0 c); try done; unfold same_key; [split|]; congruence).
      congruence.
  - rewrite find_absent in E.
    assert (Hno : ∀ j c, (j < NBUF)%nat → bc_bufs s !! j = Some c → ¬ (b_dev c = dev ∧ b_blockno c = bno)).
    { intros j c Hj Hcj [E1 E2]. apply (links_elem _ _ _ Hl) in Hj. specialize (E j Hj).
      unfold key_is in E. by rewrite Hcj, E1, E2, !Z.eqb_refl in E. }
    assert (Hu : unlocked (bc_bufs s) dev bno).
    { intros j c Hj Hcj E1 E2. by destruct (Hno j c). }
    destruct (List.find (recyclable (bc_bufs s)) (reverse L)) as [i|] eqn:Er.
    + apply find_elem in Er as HE. destruct HE as [Hi Hk]. rewrite elem_of_reverse in Hi.
      apply (links_elem _ _ _ Hl) in Hi as Hi'. unfold recyclable in Hk.
      destruct (bc_bufs s !! i) as [b0|] eqn:Hb0; [|done].
      apply andb_true_iff in Hk as [H1%Z.eqb_eq H2%negb_true_iff].
      destruct (bget_spec s L dev bno HL Hd Hu) as (k & c0 & c1 & -> & Hg); [by right; exists i, b0|].
      exists c1. destruct Hg. split; [apply set_buf_lookup; by eapply lookup_lt_Some|]. naive_solver.
    + rewrite (bget_none s L dev bno); try done; [|by apply find_absent].
      split_and!; try done. intros (j & c & Hj & Hcj & H1 & H2). rewrite find_absent in Er.
      apply (links_elem _ _ _ Hl) in Hj. specialize (Er j ltac:(by rewrite elem_of_reverse)).
      unfold recyclable in Er. by rewrite Hcj, H1, H2 in Er.
Qed.
End bio.

(** * memide.c meets the interface *)
Lemma valid_not_dirty f : (Z.land f (Z.lor B_VALID B_DIRTY) =? B_VALID) = Z.testbit f 1 && negb (Z.testbit f 2).
Proof.
  change (Z.lor B_VALID B_DIRTY) with 6. destruct (Z.testbit f 1) eqn:E1, (Z.testbit f 2) eqn:E2; simpl.
  all: first [apply Z.eqb_eq | apply Z.eqb_neq; intros E;
    apply (f_equal (λ z, (Z.testbit z 1, Z.testbit z 2))) in E; rewrite !Z.land_spec, E1, E2 in E; done].
  apply Z.bits_inj'. intros n Hn. rewrite Z.land_spec.
  destruct (decide (n = 1)) as [->|]; [by rewrite E1|]. destruct (decide (n = 2)) as [->|]; [by rewrite E2|].
  destruct (decide (n = 0)) as [->|]; [by rewrite andb_false_r|].
  rewrite (Z.bits_above_log2 6 n), (Z.bits_above_log2 2 n) by (done || (simpl; lia)). by rewrite andb_false_r.
Qed.

#[export] Instance memide_ok disksize : BlockDriverOk (memide disksize).
Proof.
  split.
  - intros pid i b s Hb Hh Hok Hd. cbn [drv_ok iderw memide] in *.
    apply andb_true_iff in Hok as [[Hdev%Z.eqb_eq _]%andb_true_iff Hbno%Z.ltb_lt].
    assert (Hi : (i < length (bc_bufs s))%nat) by (by eapply lookup_lt_Some).
    assert (Eb : f_lock (sl_held pid) b = b) by (destruct b; simpl in *; by subst).
    unfold memide_rw. erewrite bind_Ok by (eapply blk_Ok; [done|rewrite Hh; apply holdingsleep_Ok]).
    rewrite Eb. cbn [negb].
    do 3 (erewrite bind_Ok by (by apply bderef_Ok, set_buf_lookup); rewrite ?valid_not_dirty, ?Hd, ?andb_false_r).
    rewrite Hdev. change (negb (1 =? 1)) with false. cbn iota. destruct (Z.leb_spec disksize (b_blockno b)); [lia|].
    rewrite land_dirty, Hd. cbn [negb]. rewrite !bind_assoc.
    erewrite bind_Ok by (by apply bassign_Ok, set_buf_lookup). rewrite set_buf_twice, bind_assoc.
    erewrite bind_Ok by (by apply bderef_Ok, set_buf_lookup).
    erewrite bind_Ok by reflexivity.
    erewrite bind_Ok by (apply bderef_Ok; simpl; by apply list_lookup_insert_eq).
    erewrite bassign_Ok by (simpl; by apply list_lookup_insert_eq).
    unfold set_disk, set_buf. simpl. by rewrite list_insert_insert_eq.
  - intros pid i b s Hb Hh Hok Hd Hv. cbn [drv_ok iderw memide] in *.
    apply andb_true_iff in Hok as [[Hdev%Z.eqb_eq _]%andb_true_iff Hbno%Z.ltb_lt].
    assert (Hi : (i < length (bc_bufs s))%nat) by (by eapply lookup_lt_Some).
    assert (Eb : f_lock (sl_held pid) b = b) by (destruct b; simpl in *; by subst).
    unfold memide_rw. erewrite bind_Ok by (eapply blk_Ok; [done|rewrite Hh; apply holdingsleep_Ok]).
    rewrite Eb. cbn [negb].
    do 3 (erewrite bind_Ok by (by apply bderef_Ok, set_buf_lookup); rewrite ?valid_not_dirty, ?Hv; cbn [andb]).
    rewrite Hdev. change (negb (1 =? 1)) with false. cbn iota. destruct (Z.leb_spec disksize (b_blockno b)); [lia|].
    rewrite land_dirty, Hd. cbn [negb]. rewrite !bind_assoc.
    erewrite bind_Ok by reflexivity.
    erewrite bind_Ok by (by apply bassign_Ok, set_buf_lookup). rewrite set_buf_twice.
    erewrite bind_Ok by (by apply bderef_Ok, set_buf_lookup).
    erewrite bassign_Ok by (by apply set_buf_lookup). by rewrite set_buf_twice.
Qed.

Lemma bcache_refines_map_witness :
  ∃ s L s' L' rs, bio_rep s L ∧
    bops_run (H := memide 100) 7 [BWrite 1 5 [42]; BRead 1 6; BRead 1 5] s = Ok (rs, s') ∧
    bio_rep s' L' ∧ rs = [[42]; [3]; [42]].
Proof.
  destruct (@binit_rep (memide 100) (memide_ok 100) (Disk (λ _ _, [3]) [])) as (s & L & _ & HL & Hd & Hf & Hu & Hb & _).
  destruct (@bcache_refines_map (memide 100) 7 (memide_ok 100)
    [BWrite 1 5 [42]; BRead 1 6; BRead 1 5] s L (λ _ _, [3]) HL Hf) as (s' & L' & E & HL' & _).
  - intros o Ho. split_and!; [| |apply Hu]; repeat (apply elem_of_cons in Ho as [->|Ho]; [done|]);
      by apply elem_of_nil in Ho.
  - rewrite Hd. done.
  - eexists s, L, s', L', _. done.
Defined.

