(* ===== verification/Ide.v ===== *)
(** The IDE disk driver (ide.c).

    The driver keeps a queue of buffers linked through [qnext]; the first is
    the one the controller works on, and its interrupt completes it and starts
    the next.  The controller is hardware: the driver reads and writes its
    ports through the interface [IdeDevice], and [IdeDeviceOk] states what the
    driver relies on.  A process that waits for a buffer sleeps on it, in
    [id_sleeping], until the interrupt handler or [kill] wakes it. *)

From Stdlib Require Import ZArith Lia.
From stdpp Require Import base functions numbers strings option gmap sets list list_numbers.
From S2P Require Import Prelude Spinlock Sleeplock Block Bio.

(** * The controller *)

Class IdeDevice := {
  ide_state : Type;
  ide_inb : Z → ide_state → Z * ide_state;
  ide_outb : Z → Z → ide_state → ide_state;
  ide_insl : ide_state → list Z * ide_state;
  ide_outsl : list Z → ide_state → ide_state
}.

Abbreviation IDE_BSY := 0x80.
Abbreviation IDE_DRDY := 0x40.
Abbreviation IDE_DF := 0x20.
Abbreviation IDE_ERR := 0x01.
Abbreviation IDE_CMD_READ := 0x20.
Abbreviation IDE_CMD_WRITE := 0x30.
Abbreviation IDE_CMD_RDMUL := 0xc4.
Abbreviation IDE_CMD_WRMUL := 0xc5.
Abbreviation SECTOR_SIZE := 512.

(** What the driver sees of a controller: the sectors of its two drives, the
    command registers 0x1f2 to 0x1f6, the command under way (true for a write),
    and whether it failed. *)
Record ctl := Ctl {
  c_disk : blocks;
  c_regs : Z → Z;
  c_cmd : option bool;
  c_err : bool
}.

(** The drive and the sector that the registers name. *)
Definition drive (c : ctl) : Z := Z.land (Z.shiftr (c_regs c 0x1f6) 4) 1.
Definition sector (c : ctl) : Z :=
  Z.lor (Z.lor (c_regs c 0x1f3) (Z.shiftl (c_regs c 0x1f4) 8))
        (Z.lor (Z.shiftl (c_regs c 0x1f5) 16) (Z.shiftl (Z.land (c_regs c 0x1f6) 0xf) 24)).

Definition set_reg (p v : Z) (c : ctl) : ctl :=
  Ctl (c_disk c) (λ x, if x =? p then v else c_regs c x) (c_cmd c) (c_err c).

(** The controller becomes ready after at most [ide_bound] looks at its status; a
    command on one sector transfers that sector. *)
Class IdeDeviceOk (D : IdeDevice) := {
  ide_abs : ide_state → ctl;
  ide_polls : ide_state → nat;
  ide_bound : nat;
  ide_polls_bound d : (ide_polls d ≤ ide_bound)%nat;
  ide_busy d n : ide_polls d = S n →
    Z.land (ide_inb 0x1f7 d).1 (Z.lor IDE_BSY IDE_DRDY) ≠ IDE_DRDY ∧
    ide_abs (ide_inb 0x1f7 d).2 = ide_abs d ∧ ide_polls (ide_inb 0x1f7 d).2 = n;
  ide_ready d : ide_polls d = 0%nat →
    Z.land (ide_inb 0x1f7 d).1 (Z.lor IDE_BSY IDE_DRDY) = IDE_DRDY ∧
    (Z.land (ide_inb 0x1f7 d).1 (Z.lor IDE_DF IDE_ERR) =? 0) = negb (c_err (ide_abs d)) ∧
    ide_abs (ide_inb 0x1f7 d).2 = ide_abs d ∧ ide_polls (ide_inb 0x1f7 d).2 = 0%nat;
  ide_reg d p v : 0x1f2 ≤ p ≤ 0x1f6 → ide_abs (ide_outb p v d) = set_reg p (u8 v) (ide_abs d);
  ide_ctrl d v : ide_abs (ide_outb 0x3f6 v d) = ide_abs d;
  ide_read d : c_regs (ide_abs d) 0x1f2 = 1 →
    ide_abs (ide_outb 0x1f7 IDE_CMD_READ d) =
      Ctl (c_disk (ide_abs d)) (c_regs (ide_abs d)) (Some false) (c_err (ide_abs (ide_outb 0x1f7 IDE_CMD_READ d)));
  ide_write d : c_regs (ide_abs d) 0x1f2 = 1 →
    ide_abs (ide_outb 0x1f7 IDE_CMD_WRITE d) =
      Ctl (c_disk (ide_abs d)) (c_regs (ide_abs d)) (Some true) (c_err (ide_abs (ide_outb 0x1f7 IDE_CMD_WRITE d)));
  ide_data_in d : c_cmd (ide_abs d) = Some false → c_err (ide_abs d) = false →
    (ide_insl d).1 = c_disk (ide_abs d) (drive (ide_abs d)) (sector (ide_abs d)) ∧
    ide_abs (ide_insl d).2 = Ctl (c_disk (ide_abs d)) (c_regs (ide_abs d)) None false;
  ide_data_out d data : c_cmd (ide_abs d) = Some true →
    ide_abs (ide_outsl data d) =
      Ctl (blocks_upd (drive (ide_abs d)) (sector (ide_abs d)) data (c_disk (ide_abs d))) (c_regs (ide_abs d)) None
        (c_err (ide_abs (ide_outsl data d)))
}.

(** * The driver *)

Section ide.
Context `{D : IdeDevice}.

Record ide_sys := IdeSys {
  id_lock : bool;
  id_queue : option nat;
  id_qnext : nat → option nat;
  id_bufs : list buf;
  id_havedisk1 : bool;
  id_dev : ide_state;
  id_sleeping : gset nat
}.
Definition id_lk : lens ide_sys bool := Lens id_lock
  (λ b s, IdeSys b (id_queue s) (id_qnext s) (id_bufs s) (id_havedisk1 s) (id_dev s) (id_sleeping s)).
Definition id_arr : lens ide_sys (list buf) := Lens id_bufs
  (λ l s, IdeSys (id_lock s) (id_queue s) (id_qnext s) l (id_havedisk1 s) (id_dev s) (id_sleeping s)).
Definition set_queue (q : option nat) : M ide_sys unit :=
  mmod (λ s, IdeSys (id_lock s) q (id_qnext s) (id_bufs s) (id_havedisk1 s) (id_dev s) (id_sleeping s)).
Definition set_qnext (i : nat) (q : option nat) : M ide_sys unit :=
  mmod (λ s, IdeSys (id_lock s) (id_queue s) (<[i := q]> (id_qnext s)) (id_bufs s) (id_havedisk1 s) (id_dev s) (id_sleeping s)).
Definition put_buf (i : nat) (b : buf) : M ide_sys unit :=
  mmod (λ s, IdeSys (id_lock s) (id_queue s) (id_qnext s) (<[i := b]> (id_bufs s)) (id_havedisk1 s) (id_dev s) (id_sleeping s)).
Definition get_buf (i : nat) : M ide_sys buf := b ← mget (λ s, id_bufs s !! i); mopt b.
Definition put_dev (d : ide_state) (s : ide_sys) : ide_sys :=
  IdeSys (id_lock s) (id_queue s) (id_qnext s) (id_bufs s) (id_havedisk1 s) d (id_sleeping s).

Definition inb (p : Z) : M ide_sys Z := λ s, let '(v, d) := ide_inb p (id_dev s) in Ok (v, put_dev d s).
Definition outb (p v : Z) : M ide_sys unit := mmod (λ s, put_dev (ide_outb p v (id_dev s)) s).
Definition insl : M ide_sys (list Z) := λ s, let '(l, d) := ide_insl (id_dev s) in Ok (l, put_dev d s).
Definition outsl (data : list Z) : M ide_sys unit := mmod (λ s, put_dev (ide_outsl data (id_dev s)) s).
Definition set_sleeping (f : gset nat → gset nat) : M ide_sys unit :=
  mmod (λ s, IdeSys (id_lock s) (id_queue s) (id_qnext s) (id_bufs s) (id_havedisk1 s) (id_dev s) (f (id_sleeping s))).

(** The wait for the controller; [fuel] bounds the looks at its status. *)
Fixpoint idewait (fuel : nat) (checkerr : bool) : M ide_sys Z :=
  match fuel with
  | O => mnofuel
  | S fuel =>
      r ← inb 0x1f7;
      if negb (Z.land r (Z.lor IDE_BSY IDE_DRDY) =? IDE_DRDY) then idewait fuel checkerr
      else if checkerr && negb (Z.land r (Z.lor IDE_DF IDE_ERR) =? 0) then mret (-1) else mret 0
  end.

Definition idestart (fuel : nat) (ob : option nat) : M ide_sys unit :=
  match ob with
  | None => mpanic "idestart"
  | Some i =>
      b ← get_buf i;
      let sector_per_block := BSIZE / SECTOR_SIZE in
      let sector := s32 (b_blockno b * sector_per_block) in
      let read_cmd := if sector_per_block =? 1 then IDE_CMD_READ else IDE_CMD_RDMUL in
      let write_cmd := if sector_per_block =? 1 then IDE_CMD_WRITE else IDE_CMD_WRMUL in
      if 7 <? sector_per_block then mpanic "idestart" else
      idewait fuel false;;
      outb 0x3f6 0;;
      outb 0x1f2 sector_per_block;;
      outb 0x1f3 (Z.land sector 0xff);;
      outb 0x1f4 (Z.land (Z.shiftr sector 8) 0xff);;
      outb 0x1f5 (Z.land (Z.shiftr sector 16) 0xff);;
      outb 0x1f6 (Z.lor (Z.lor 0xe0 (Z.shiftl (Z.land (b_dev b) 1) 4)) (Z.land (Z.shiftr sector 24) 0x0f));;
      if negb (Z.land (b_flags b) B_DIRTY =? 0) then outb 0x1f7 write_cmd;; outsl (b_data b)
      else outb 0x1f7 read_cmd
  end.

Definition ideintr (fuel : nat) : M ide_sys unit :=
  acquire id_lk;;
  q ← mget id_queue;
  match q with
  | None => release id_lk
  | Some i =>
      n ← mget (λ s, id_qnext s i);
      set_queue n;;
      b ← get_buf i;
      (if Z.land (b_flags b) B_DIRTY =? 0 then
         r ← idewait fuel true;
         if 0 <=? r then data ← insl; put_buf i (f_data data b) else mret tt
       else mret tt);;
      b ← get_buf i;
      put_buf i (f_flags (Z.land (Z.lor (b_flags b) B_VALID) (Z.lnot B_DIRTY)) b);;
      set_sleeping (λ w, w ∖ {[i]});;
      (match n with Some _ => idestart fuel n | None => mret tt end);;
      release id_lk
  end.

(** The walk to the end of the queue: [None] is the address of [idequeue],
    [Some i] that of [qnext] of buffer [i]. *)
Fixpoint queue_end (fuel : nat) (pp : option nat) : M ide_sys (option nat) :=
  match fuel with
  | O => mnofuel
  | S fuel =>
      q ← mget (λ s, match pp with None => id_queue s | Some i => id_qnext s i end);
      match q with None => mret pp | Some i => queue_end fuel (Some i) end
  end.

(** The wait for the end of the request, with the lock held: the process goes
    to sleep on the buffer, which releases the lock, or is done. *)
Definition iderw_test (i : nat) : M ide_sys bool :=
  b ← get_buf i;
  if negb (Z.land (b_flags b) (Z.lor B_VALID B_DIRTY) =? B_VALID)
  then set_sleeping (λ w, {[i]} ∪ w);; release id_lk;; mret false
  else release id_lk;; mret true.

(** [iderw] until the process sleeps. *)
Definition iderw_submit (fuel : nat) (mypid : Z) (i : nat) : M ide_sys bool :=
  l ← zoom_at id_arr i lock_lens (holdingsleep mypid);
  if negb (l : bool) then mpanic "iderw: buf not locked" else
  b ← get_buf i;
  if Z.land (b_flags b) (Z.lor B_VALID B_DIRTY) =? B_VALID then mpanic "iderw: nothing to do"
  else
    h ← mget id_havedisk1;
    if negb (b_dev b =? 0) && negb h then mpanic "iderw: ide disk 1 not present" else
    acquire id_lk;;
    set_qnext i None;;
    n ← mget (λ s, length (id_bufs s));
    pp ← queue_end (S (S n)) None;
    (match pp with None => set_queue (Some i) | Some j => set_qnext j (Some i) end);;
    q ← mget id_queue;
    (if bool_decide (q = Some i) then idestart fuel (Some i) else mret tt);;
    iderw_test i.

(** [iderw] from a wakeup on: [sleep] takes the lock again. *)
Definition iderw_wait (i : nat) : M ide_sys bool := acquire id_lk;; iderw_test i.

(** [ideinit], apart from the routing of the interrupt: is there a second
    drive? *)
Fixpoint probe_disk1 (n : nat) : M ide_sys bool :=
  match n with
  | O => mret false
  | S n => r ← inb 0x1f7; if negb (r =? 0) then mret true else probe_disk1 n
  end.

Definition ideinit (fuel : nat) : M ide_sys unit :=
  idewait fuel false;;
  outb 0x1f6 (Z.lor 0xe0 (Z.shiftl 1 4));;
  h ← probe_disk1 1000;
  mmod (λ s, IdeSys false (id_queue s) (id_qnext s) (id_bufs s) (id_havedisk1 s || h) (id_dev s) (id_sleeping s));;
  outb 0x1f6 (Z.lor 0xe0 (Z.shiftl 0 4)).

(** * What the driver promises *)

(** The requests in the order they came, and the disk after the completed
    ones. *)
Record fifo := Fifo { q_fifo : list nat; q_bufs : list buf; q_disk : blocks }.

(** The first request completes: [err] when the controller could not read. *)
Definition complete (err : bool) (a : fifo) : fifo :=
  match q_fifo a with
  | [] => a
  | i :: q =>
      match q_bufs a !! i with
      | None => a
      | Some b =>
          let data := if dirty b || err then b_data b else q_disk a (b_dev b) (b_blockno b) in
          Fifo q
            (<[i := f_flags (Z.land (Z.lor (b_flags b) B_VALID) (Z.lnot B_DIRTY)) (f_data data b)]> (q_bufs a))
            (if dirty b then blocks_upd (b_dev b) (b_blockno b) (b_data b) (q_disk a) else q_disk a)
      end
  end.

(** A request of a process, an interrupt of the controller, any other change of
    a buffer that is not queued; a sleeping process is killed, which makes it
    runnable; a process that waits for a buffer runs. *)
Inductive ide_op := Submit (pid : Z) (i : nat) | Intr | Touch (i : nat) (b : buf) | Kill (i : nat) | Resume (i : nat).

Definition ide_run (fuel : nat) (o : ide_op) : M (ide_sys) unit :=
  match o with
  | Submit pid i => iderw_submit fuel pid i;; mret tt
  | Intr => ideintr fuel
  | Touch i b => put_buf i b
  | Kill i => set_sleeping (λ w, w ∖ {[i]})
  | Resume i => iderw_wait i;; mret tt
  end.

Definition fifo_run (o : ide_op) (err : bool) (a : fifo) : fifo :=
  match o with
  | Submit _ i => Fifo (q_fifo a ++ [i]) (q_bufs a) (q_disk a)
  | Intr => complete err a
  | Touch i b => Fifo (q_fifo a) (<[i := b]> (q_bufs a)) (q_disk a)
  | Kill _ | Resume _ => a
  end.

(** A buffer that a process may hand to the driver. *)
Definition request (have1 : bool) (b : buf) : Prop :=
  Z.land (b_flags b) (Z.lor B_VALID B_DIRTY) ≠ B_VALID ∧
  (b_dev b = 0 ∨ b_dev b = 1 ∧ have1 = true) ∧ 0 ≤ b_blockno b < 2 ^ 28.

Definition op_ok (have1 : bool) (o : ide_op) (a : fifo) : Prop :=
  match o with
  | Submit pid i => i ∉ q_fifo a ∧
      ∃ b, q_bufs a !! i = Some b ∧ b_lock b = sl_held pid ∧ request have1 b
  | Intr => True
  | Touch i _ => i ∉ q_fifo a
  | Kill _ => True
  | Resume i => i ∈ q_fifo a ∨
      ∃ b, q_bufs a !! i = Some b ∧ Z.land (b_flags b) (Z.lor B_VALID B_DIRTY) = B_VALID
  end.

Fixpoint ide_runs (fuel : nat) (os : list ide_op) : M ide_sys unit :=
  match os with [] => mret tt | o :: os => ide_run fuel o;; ide_runs fuel os end.

Fixpoint fifo_runs (os : list (ide_op * bool)) (a : fifo) : fifo :=
  match os with [] => a | (o, err) :: os => fifo_runs os (fifo_run o err a) end.

Fixpoint ops_ok (have1 : bool) (os : list (ide_op * bool)) (a : fifo) : Prop :=
  match os with [] => True | (o, err) :: os => op_ok have1 o a ∧ ops_ok have1 os (fifo_run o err a) end.
End ide.

Arguments ide_sys _ : clear implicits.
Arguments queue_end : simpl never.
Arguments idestart : simpl never.
Arguments idewait : simpl never.

(** * Proofs *)

Section proofs.
Context `{D : IdeDevice} {DO : IdeDeviceOk D}.

Fixpoint linked (nx : nat → option nat) (h : option nat) (q : list nat) : Prop :=
  match q with [] => h = None | i :: q => h = Some i ∧ linked nx (nx i) q end.

(** The controller has taken the first request: a write is on the disk. *)
Definition started (b : buf) (d : blocks) (c : ctl) : Prop :=
  if dirty b then c_disk c = blocks_upd (b_dev b) (b_blockno b) (b_data b) d
  else c_disk c = d ∧ c_cmd c = Some false ∧ drive c = b_dev b ∧ sector c = b_blockno b.

Definition ctl_ok (a : fifo) (c : ctl) : Prop :=
  match q_fifo a with
  | [] => c_disk c = q_disk a
  | i :: _ => ∃ b, q_bufs a !! i = Some b ∧ started b (q_disk a) c
  end.

Record ide_inv (s : ide_sys D) (a : fifo) : Prop := IdeInv {
  ii_lock : id_lock s = false;
  ii_link : linked (id_qnext s) (id_queue s) (q_fifo a);
  ii_nodup : NoDup (q_fifo a);
  ii_req i : i ∈ q_fifo a → ∃ b, q_bufs a !! i = Some b ∧ request (id_havedisk1 s) b;
  ii_bufs : id_bufs s = q_bufs a;
  ii_ctl : ctl_ok a (ide_abs (id_dev s));
  ii_sleep i : i ∈ id_sleeping s → i ∈ q_fifo a
}.

Lemma idewait_spec fuel checkerr s : (ide_polls (id_dev s) < fuel)%nat →
  ∃ d, ide_abs d = ide_abs (id_dev s) ∧
    idewait fuel checkerr s = Ok (if checkerr && c_err (ide_abs d) then -1 else 0, put_dev d s).
Proof.
  revert s. induction fuel as [|fuel IH]; intros s Hf; [lia|].
  unfold idewait; fold (idewait fuel). unfold inb, mbind, M_bind.
  destruct (ide_polls (id_dev s)) as [|n] eqn:Hp.
  - destruct (ide_ready _ Hp) as (H1 & H2 & H3 & H4).
    destruct (ide_inb 0x1f7 (id_dev s)) as [v d] eqn:E. cbn [fst snd] in *.
    rewrite H1, Z.eqb_refl. cbn [negb]. rewrite H2, negb_involutive, <-H3.
    exists d. split; [done|]. by destruct (checkerr && c_err (ide_abs d)).
  - destruct (ide_busy _ _ Hp) as (H1 & H2 & H3).
    destruct (ide_inb 0x1f7 (id_dev s)) as [v d] eqn:E. cbn [fst snd] in *.
    rewrite (proj2 (Z.eqb_neq _ _) H1). cbn [negb].
    destruct (IH (put_dev d s)) as (d' & Hd & Hr); [cbn; lia|].
    exists d'. rewrite Hr. cbn in Hd. by rewrite Hd, H2.
Qed.

Lemma field_bit n o w k : 0 ≤ k → 0 ≤ o → 0 ≤ w →
  Z.testbit (Z.shiftl (Z.land (Z.shiftr n o) (Z.ones w)) o) k = (o <=? k) && (k <? o + w) && Z.testbit n k.
Proof.
  intros Hk Ho Hw. rewrite Z.shiftl_spec by done. destruct (Z.leb_spec o k) as [Hle|Hle]; cbn [andb].
  - rewrite Z.land_spec, Z.shiftr_spec by lia. rewrite Z.testbit_ones_nonneg by lia.
    replace (k - o + o) with k by lia. rewrite andb_comm. f_equal.
    destruct (Z.ltb_spec (k - o) w), (Z.ltb_spec k (o + w)); lia.
  - apply Z.testbit_neg_r. lia.
Qed.

(** The bytes that [idestart] writes to the registers name the block. *)
Lemma sector_bytes n : 0 ≤ n < 2 ^ 28 →
  Z.lor (Z.lor (Z.land n 0xff) (Z.shiftl (Z.land (Z.shiftr n 8) 0xff) 8))
        (Z.lor (Z.shiftl (Z.land (Z.shiftr n 16) 0xff) 16) (Z.shiftl (Z.land (Z.shiftr n 24) 0xf) 24)) = n.
Proof.
  intros Hn. change 0xff with (Z.ones 8). change 0xf with (Z.ones 4).
  apply Z.bits_inj'. intros k Hk. rewrite !Z.lor_spec, !field_bit by lia.
  replace (Z.testbit (Z.land n (Z.ones 8)) k) with ((0 <=? k) && (k <? 0 + 8) && Z.testbit n k).
  2: { rewrite <-field_bit by lia. by rewrite Z.shiftl_0_r, Z.shiftr_0_r. }
  destruct (Z.lt_ge_cases k 28) as [Hlt|Hge].
  - destruct (Z.testbit n k); rewrite ?andb_true_r, ?andb_false_r; [|done].
    destruct (Z.leb_spec 0 k), (Z.ltb_spec k (0 + 8)), (Z.leb_spec 8 k), (Z.ltb_spec k (8 + 8)), (Z.leb_spec 16 k),
      (Z.ltb_spec k (16 + 8)), (Z.leb_spec 24 k), (Z.ltb_spec k (24 + 4)); lia || done.
  - assert (Z.testbit n k = false) as ->; [|by rewrite !andb_false_r].
    rewrite <-(Z.mod_small n (2 ^ 28)) by done. apply Z.mod_pow2_bits_high. lia.
Qed.

Lemma drive_byte dev n : dev = 0 ∨ dev = 1 → 
  Z.lor (Z.lor 0xe0 (Z.shiftl (Z.land dev 1) 4)) (Z.land n 0xf) = 0xe0 + 16 * dev + Z.land n 0xf ∧
  0 ≤ Z.land n 0xf < 16.
Proof.
  intros Hd. change 0xf with (Z.ones 4). rewrite Z.land_ones by lia.
  pose proof (Z.mod_pos_bound n (2 ^ 4) ltac:(lia)) as Hb. split; [|lia]. remember (n mod 2 ^ 4) as x eqn:E. clear E.
  assert (x ∈ seqZ 0 16) as Hx by (apply elem_of_seqZ; lia).
  assert (forallb (λ x, (Z.lor 0xe0 x =? 0xe0 + x) && (Z.lor 0xf0 x =? 0xf0 + x)) (seqZ 0 16) = true) as Hall
    by (by vm_compute).
  rewrite forallb_forall in Hall. apply list_elem_of_In, Hall in Hx.
  apply andb_true_iff in Hx as [H1%Z.eqb_eq H2%Z.eqb_eq]. destruct Hd as [->| ->].
  - change (Z.lor 0xe0 (Z.shiftl (Z.land 0 1) 4)) with 0xe0. lia.
  - change (Z.lor 0xe0 (Z.shiftl (Z.land 1 1) 4)) with 0xf0. lia.
Qed.

Lemma drive_of r dev x : r = 0xe0 + 16 * dev + x → dev = 0 ∨ dev = 1 → 0 ≤ x < 16 →
  Z.land (Z.shiftr r 4) 1 = dev ∧ Z.land r 0xf = x.
Proof.
  intros -> Hd Hx. change 1 with (Z.ones 1) at 1. change 0xf with (Z.ones 4).
  rewrite !Z.land_ones, Z.shiftr_div_pow2 by lia. split.
  - replace ((0xe0 + 16 * dev + x) / 2 ^ 4) with (14 + dev); [destruct Hd as [->| ->]; done|].
    apply (Z.div_unique_pos _ _ _ x); lia.
  - symmetry. apply (Z.mod_unique_pos _ _ (14 + dev)); lia.
Qed.

Lemma outb_eq p v s : outb p v s = Ok (tt, put_dev (ide_outb p v (id_dev s)) s).
Proof. done. Qed.

Lemma put_dev_put d d' (s : ide_sys D) : put_dev d (put_dev d' s) = put_dev d s.
Proof. done. Qed.

Lemma get_buf_Ok i b (s : ide_sys D) : id_bufs s !! i = Some b → get_buf i s = Ok (b, s).
Proof. intros H. unfold get_buf, mbind, M_bind, mget. by rewrite H. Qed.

Lemma reg_byte_u8 n : u8 (Z.land n 0xff) = Z.land n 0xff.
Proof.
  apply u8_small. change 0xff with (Z.ones 8). rewrite Z.land_ones by lia.
  pose proof (Z.mod_pos_bound n (2 ^ 8) ltac:(lia)). lia.
Qed.

(** [idestart] gives the request to the controller. *)
Lemma idestart_spec fuel i b s h : (ide_bound < fuel)%nat → id_bufs s !! i = Some b → request h b →
  ∃ d, idestart fuel (Some i) s = Ok (tt, put_dev d s) ∧ started b (c_disk (ide_abs (id_dev s))) (ide_abs d).
Proof.
  intros Hf Hb (_ & Hdev & Hno). unfold idestart. erewrite bind_Ok by (by apply get_buf_Ok).
  change (BSIZE / SECTOR_SIZE) with 1. rewrite Z.mul_1_r, s32_small by lia.
  change (7 <? 1) with false. change (1 =? 1) with true. cbn iota.
  destruct (idewait_spec fuel false s) as (d & Hd & Hw); [pose proof (ide_polls_bound (id_dev s)); lia|].
  erewrite bind_Ok by exact Hw. do 6 (erewrite bind_Ok by apply outb_eq).
  rewrite !put_dev_put. cbn [id_dev put_dev].
  set (n := b_blockno b) in *. 
  destruct (drive_byte (b_dev b) (Z.shiftr n 24)) as [Hdr Hx]; [tauto|]. rewrite Hdr. clear Hdr.
  remember (0xe0 + 16 * b_dev b + Z.land (Z.shiftr n 24) 0xf) as r eqn:Hr.
  set (d6 := ide_outb 0x1f6 _ _).
  assert (c_disk (ide_abs d6) = c_disk (ide_abs (id_dev s)) ∧ c_regs (ide_abs d6) 0x1f2 = 1 ∧
    drive (ide_abs d6) = b_dev b ∧ sector (ide_abs d6) = n) as (E1 & E2 & E3 & E4).
  { unfold d6. rewrite !ide_reg, ide_ctrl, Hd by lia. unfold drive, sector, set_reg. cbn.
    rewrite !reg_byte_u8. rewrite (u8_small r) by lia.
    destruct (drive_of _ (b_dev b) (Z.land (Z.shiftr n 24) 0xf) Hr) as [-> ->]; [tauto|lia|].
    rewrite sector_bytes by done. done. }
  clearbody d6. rewrite land_dirty, negb_involutive. unfold started. fold (dirty b). destruct (dirty b) eqn:Ed.
  - erewrite bind_Ok by apply outb_eq. eexists. split; [reflexivity|]. cbn [id_dev put_dev].
    rewrite ide_data_out by (by rewrite ide_write). cbn [c_disk]. rewrite ide_write by done.
    unfold drive, sector in *. cbn [c_disk c_regs]. by rewrite E1, E3, E4.
  - eexists. split; [reflexivity|]. cbn [id_dev put_dev]. rewrite ide_read by done.
    unfold drive, sector in *. cbn [c_disk c_regs c_cmd]. by rewrite E1, E3, E4.
Qed.

Lemma linked_ext nx nx' h q : (∀ i, i ∈ q → nx' i = nx i) → linked nx h q → linked nx' h q.
Proof.
  revert h. induction q as [|i q IH]; intros h He; [done|]. cbn [linked]. intros [-> Hl]. split; [done|].
  rewrite He by apply list_elem_of_here. apply IH; [|done]. intros j Hj. apply He. by apply list_elem_of_further.
Qed.

(** The walk stops at the last buffer of the queue. *)
Lemma queue_end_spec q fuel pp s : (length q < fuel)%nat →
  linked (id_qnext s) (match pp with None => id_queue s | Some i => id_qnext s i end) q →
  queue_end fuel pp s = Ok (match last q with Some i => Some i | None => pp end, s).
Proof.
  revert fuel pp. induction q as [|i q IH]; intros fuel pp Hf Hl; (destruct fuel as [|fuel]; [cbn in Hf; lia|]);
    unfold queue_end; fold queue_end; unfold mbind, M_bind, mget; cbn [linked] in Hl.
  - by rewrite Hl.
  - destruct Hl as [-> Hl]. rewrite (IH fuel (Some i)) by (cbn in Hf; lia || done).
    rewrite last_cons. by destruct (last q).
Qed.

(** Appending to the queue. *)
Lemma linked_app nx q i : i ∉ q → NoDup q → nx i = None →
  ∀ h, linked nx h q → linked (match last q with Some j => <[j := Some i]> nx | None => nx end)
    (match q with [] => Some i | _ => h end) (q ++ [i]).
Proof.
  intros Hi Hnd Hn. induction q as [|j q IH]; intros h; [by intros; cbn|].
  cbn [linked app]. intros [-> Hl]. split; [done|].
  apply not_elem_of_cons in Hi as [Hij Hi]. apply NoDup_cons in Hnd as [Hj Hnd]. rewrite last_cons.
  specialize (IH Hi Hnd _ Hl). destruct q as [|k q].
  - cbn in *. rewrite fn_lookup_insert. split; [done|]. by rewrite fn_lookup_insert_ne.
  - destruct (last (k :: q)) as [l|] eqn:El; [|by apply last_None in El].
    rewrite fn_lookup_insert_ne; [done|]. intros ->. apply Hj. by apply last_Some_elem_of.
Qed.

Lemma queue_bound (s : ide_sys D) a : ide_inv s a → (length (q_fifo a) ≤ length (id_bufs s))%nat.
Proof.
  intros I. etrans; [|apply Nat.eq_le_incl, (length_seq (length (id_bufs s)) 0)].
  apply submseteq_length, NoDup_submseteq; [apply (ii_nodup _ _ I)|].
  intros i Hi. apply elem_of_seq. rewrite (ii_bufs _ _ I).
  destruct (ii_req _ _ I i Hi) as (b & Hb & _). apply lookup_lt_Some in Hb. lia.
Qed.

Lemma acquire_id (s : ide_sys D) : id_lock s = false → acquire id_lk s = Ok (tt, put id_lk true s).
Proof. intros E. unfold acquire. simpl. by rewrite E. Qed.

Lemma release_id (s : ide_sys D) : id_lock s = true → release id_lk s = Ok (tt, put id_lk false s).
Proof. intros E. unfold release. simpl. by rewrite E. Qed.

Lemma test_sleeps i b s : id_lock s = true → id_bufs s !! i = Some b →
  Z.land (b_flags b) (Z.lor B_VALID B_DIRTY) ≠ B_VALID →
  iderw_test i s = Ok (false, IdeSys false (id_queue s) (id_qnext s) (id_bufs s) (id_havedisk1 s) (id_dev s)
    ({[i]} ∪ id_sleeping s)).
Proof.
  intros Hl Hb Hv. unfold iderw_test. erewrite bind_Ok by (by apply get_buf_Ok). rewrite (proj2 (Z.eqb_neq _ _) Hv).
  cbn [negb]. erewrite bind_Ok by reflexivity. by erewrite bind_Ok by (by apply release_id).
Qed.

Lemma wait_sleeps i s a : ide_inv s a → i ∈ q_fifo a →
  ∃ s', iderw_wait i s = Ok (false, s') ∧ id_havedisk1 s' = id_havedisk1 s ∧ ide_inv s' a.
Proof.
  intros [Il Ik In Ir Ib Ic Iw] Hi. destruct (Ir i Hi) as (b & Hb & Hfl & _). unfold iderw_wait.
  erewrite bind_Ok by (by apply acquire_id). rewrite (test_sleeps i b) by (done || by cbn; rewrite Ib).
  eexists. split_and!; [reflexivity|done|]. split; cbn; try done. intros j [->%elem_of_singleton|Hj]%elem_of_union; [done|by apply Iw].
Qed.

Lemma wait_over i b s : id_lock s = false → id_bufs s !! i = Some b →
  Z.land (b_flags b) (Z.lor B_VALID B_DIRTY) = B_VALID → iderw_wait i s = Ok (true, s).
Proof.
  intros Hl Hb Hv. unfold iderw_wait. erewrite bind_Ok by (by apply acquire_id). unfold iderw_test.
  erewrite bind_Ok by (by apply get_buf_Ok). rewrite Hv, Z.eqb_refl. cbn [negb].
  erewrite bind_Ok by (by apply release_id). destruct s. cbn in *. by subst.
Qed.

Lemma held_id i b pid (s : ide_sys D) : id_bufs s !! i = Some b → b_lock b = sl_held pid →
  zoom_at id_arr i lock_lens (holdingsleep pid) s = Ok (true, s).
Proof.
  intros Hb Hl. erewrite (zoom_at_Ok id_arr i lock_lens _ s b true (sl_held pid));
    [|done|by cbn; rewrite Hl; apply holdingsleep_Ok].
  destruct s as [lk q nx bs h d sl], b as [fl dv no lck rc pr ne da]. cbn in *. subst lck.
  unfold f_lock. cbn. by rewrite list_insert_id.
Qed.

Lemma submit_spec fuel pid i s a : (ide_bound < fuel)%nat → ide_inv s a →
  op_ok (id_havedisk1 s) (Submit pid i) a →
  ∃ s', iderw_submit fuel pid i s = Ok (false, s') ∧ id_havedisk1 s' = id_havedisk1 s ∧
    ide_inv s' (Fifo (q_fifo a ++ [i]) (q_bufs a) (q_disk a)).
Proof.
  intros Hf I (Hi & b & Hb & Hlk & Hreq). pose proof (queue_bound _ _ I) as Hlen.
  destruct I as [Il Ik In Ir Ib Ic Iw]. unfold iderw_submit.
  assert (id_bufs s !! i = Some b) as Hb' by (by rewrite Ib).
  erewrite bind_Ok by (by eapply held_id). cbn [negb].
  erewrite bind_Ok by (by apply get_buf_Ok).
  pose proof Hreq as (Hfl & Hdev & Hno). rewrite (proj2 (Z.eqb_neq _ _) Hfl).
  erewrite bind_Ok by reflexivity.
  replace (negb (b_dev b =? 0) && negb (id_havedisk1 s)) with false
    by (destruct Hdev as [->|[-> ->]]; [done|by rewrite andb_false_r]).
  erewrite bind_Ok by (by apply acquire_id).
  destruct s as [lk q nx bs h d sl]. cbn in * |-. subst lk bs.
  erewrite bind_Ok by reflexivity. cbn.
  erewrite bind_Ok by reflexivity. cbn.
  assert (linked (<[i := None]> nx) q (q_fifo a)) as Hl1.
  { eapply linked_ext; [|done]. intros j Hj. rewrite fn_lookup_insert_ne; [done|]. by intros ->. }
  erewrite bind_Ok by (apply (queue_end_spec (q_fifo a)); [lia|exact Hl1]).
  pose proof (linked_app (<[i := None]> nx) (q_fifo a) i Hi In (fn_lookup_insert _ _ _) q Hl1) as Hl2.
  assert (NoDup (q_fifo a ++ [i])) as Hnd.
  { apply NoDup_app. split_and!; [done| |apply NoDup_singleton]. intros j Hj ->%list_elem_of_singleton. done. }
  assert (∀ j, j ∈ q_fifo a ++ [i] → ∃ b, q_bufs a !! j = Some b ∧ request h b) as Hr.
  { intros j [Hj| ->%list_elem_of_singleton]%elem_of_app; [by apply Ir|by exists b]. }
  assert (∀ j, j ∈ {[i]} ∪ sl → j ∈ q_fifo a ++ [i]) as Hsl.
  { intros j [->%elem_of_singleton|Hj]%elem_of_union; apply elem_of_app; [right; left|left; by apply Iw]. }
  destruct (q_fifo a) as [|j0 q0] eqn:Eq.
  - cbn [last]. erewrite bind_Ok by reflexivity. cbn. erewrite bind_Ok by reflexivity. cbn.
    rewrite bool_decide_true by done.
    edestruct (idestart_spec fuel i b) as (d' & Hd & Hst); [done| |exact Hreq|].
    2: { erewrite bind_Ok by exact Hd. rewrite (test_sleeps i b) by done. eexists. split_and!; [reflexivity|done|].
         split; cbn in *; try done. exists b. split; [done|]. unfold ctl_ok in Ic. rewrite Eq in Ic. by rewrite <-Ic. }
    done.
  - destruct (last (j0 :: q0)) as [l|] eqn:El; [|by apply last_None in El].
    erewrite bind_Ok by reflexivity. cbn. erewrite bind_Ok by reflexivity. cbn.
    assert (q = Some j0) as -> by (by destruct Ik).
    rewrite bool_decide_false by (intros [= ->]; apply Hi; left).
    erewrite bind_Ok by reflexivity. rewrite (test_sleeps i b) by done. eexists. split_and!; [reflexivity|done|].
    split; cbn in *; try done. unfold ctl_ok in Ic. by rewrite Eq in Ic.
Qed.

(** The first request is completed in its buffer. *)
Lemma intr_data fuel i b s d0 : (ide_bound < fuel)%nat → id_bufs s !! i = Some b →
  started b d0 (ide_abs (id_dev s)) →
  let data := if dirty b || c_err (ide_abs (id_dev s)) then b_data b else d0 (b_dev b) (b_blockno b) in
  ∃ d, (if Z.land (b_flags b) B_DIRTY =? 0 then
          r ← idewait fuel true;
          if 0 <=? r then data ← insl; put_buf i (f_data data b) else mret tt
        else mret tt) s
      = Ok (tt, put id_arr (<[i := f_data data b]> (id_bufs s)) (put_dev d s)) ∧
    c_disk (ide_abs d) = if dirty b then blocks_upd (b_dev b) (b_blockno b) (b_data b) d0 else d0.
Proof.
  intros Hf Hb Hst data. rewrite land_dirty. fold (dirty b).
  assert (f_data (b_data b) b = b) as Hid by (by destruct b).
  assert (id_bufs s = <[i := b]> (id_bufs s)) as Hins by (by rewrite list_insert_id).
  unfold started in Hst. unfold data. destruct (dirty b) eqn:Ed; cbn [negb orb].
  - exists (id_dev s). split; [|done]. rewrite Hid, <-Hins. by destruct s.
  - destruct Hst as (Hd & Hc & Hdr & Hse).
    destruct (idewait_spec fuel true s) as (d & Hda & Hw); [pose proof (ide_polls_bound (id_dev s)); lia|].
    erewrite bind_Ok by exact Hw. rewrite Hda. cbn [andb]. destruct (c_err (ide_abs (id_dev s))) eqn:Ee.
    + exists d. rewrite Hda. split; [|done]. cbn. rewrite Hid, <-Hins. by destruct s.
    + rewrite <-Hda in *. destruct (ide_data_in d Hc Ee) as [Hin Hab].
      change (0 <=? 0) with true. cbn iota. unfold insl, mbind, M_bind. cbn [id_dev put_dev].
      destruct (ide_insl d) as [l d'] eqn:El. cbn [fst snd] in *. exists d'. rewrite Hab. split; [|done].
      rewrite Hin, Hd, Hdr, Hse. done.
Qed.

Lemma intr_spec fuel s a : (ide_bound < fuel)%nat → ide_inv s a →
  ∃ s', ideintr fuel s = Ok (tt, s') ∧ id_havedisk1 s' = id_havedisk1 s ∧
    ide_inv s' (complete (c_err (ide_abs (id_dev s))) a).
Proof.
  intros Hf I. destruct I as [Il Ik In Ir Ib Ic Iw]. unfold ideintr, complete, ctl_ok in *.
  erewrite bind_Ok by (by apply acquire_id). erewrite bind_Ok by reflexivity.
  destruct s as [lk qh nx bs h d sl]. cbn in * |-. subst lk bs. destruct (q_fifo a) as [|i q] eqn:Eq.
  { cbn in Ik |- *. subst qh. rewrite release_id by done. eexists. split_and!; [reflexivity|done|].
    split; cbn; rewrite ?Eq; try done. unfold ctl_ok. by rewrite Eq. }
  destruct Ik as [-> Ik]. destruct Ic as (b & Hb & Hst). rewrite Hb. cbn.
  erewrite bind_Ok by reflexivity. erewrite bind_Ok by reflexivity. cbn.
  erewrite bind_Ok by (by apply get_buf_Ok).
  destruct (intr_data fuel i b (IdeSys true (nx i) nx (q_bufs a) h d sl) (q_disk a) Hf Hb Hst) as (d1 & Hrun & Hdisk).
  erewrite bind_Ok by exact Hrun. clear Hrun. cbn.
  assert (i < length (q_bufs a))%nat as Hlt by (by eapply lookup_lt_Some).
  erewrite bind_Ok by (apply get_buf_Ok; cbn; by apply list_lookup_insert_eq).
  erewrite bind_Ok by reflexivity. cbn. rewrite list_insert_insert_eq. erewrite bind_Ok by reflexivity. cbn.
  set (b2 := f_flags _ (f_data _ b)).
  apply NoDup_cons in In as [Hi Hnd].
  assert (∀ j, j ∈ q → ∃ b0, <[i := b2]> (q_bufs a) !! j = Some b0 ∧ request h b0) as Hr.
  { intros j Hj. rewrite list_lookup_insert_ne by (by intros ->). apply Ir. by right. }
  assert (∀ j, j ∈ sl ∖ {[i]} → j ∈ q) as Hsl.
  { intros j [Hj Hji%not_elem_of_singleton]%elem_of_difference. by apply Iw, elem_of_cons in Hj as [|]. }
  destruct q as [|j q].
  - cbn in Ik. rewrite Ik. erewrite bind_Ok by reflexivity. rewrite release_id by done.
    eexists. split_and!; [reflexivity|done|]. split; cbn; try done.
  - destruct Ik as [-> Ik]. destruct (Hr j) as (bj & Hbj & Hreq); [left|].
    edestruct (idestart_spec fuel j bj) as (d2 & Hrun & Hst2); [done| |exact Hreq|].
    2: { erewrite bind_Ok by exact Hrun. rewrite release_id by done.
         eexists. split_and!; [reflexivity|done|]. split; cbn in *; try done.
         exists bj. split; [done|]. by rewrite <-Hdisk. }
    done.
Qed.

Lemma run_spec fuel o s a : (ide_bound < fuel)%nat → ide_inv s a → op_ok (id_havedisk1 s) o a →
  ∃ s', ide_run fuel o s = Ok (tt, s') ∧ id_havedisk1 s' = id_havedisk1 s ∧
    ide_inv s' (fifo_run o (c_err (ide_abs (id_dev s))) a).
Proof.
  intros Hf I Ho. destruct o as [pid i| |i b|i|i]; cbn [ide_run fifo_run].
  - destruct (submit_spec fuel pid i s a Hf I Ho) as (s' & E & ? & ?). exists s'. by erewrite bind_Ok by exact E.
  - by apply intr_spec.
  - eexists. split_and!; [reflexivity|done|]. cbn in Ho. destruct I as [Il Ik In Ir Ib Ic Iw].
    split; cbn; rewrite ?Ib; try done.
    + intros j Hj. rewrite list_lookup_insert_ne by (by intros ->). by apply Ir.
    + unfold ctl_ok in *. cbn. destruct (q_fifo a) as [|j q]; [done|].
      rewrite list_lookup_insert_ne; [done|]. intros ->. apply Ho. left.
  - destruct I as [Il Ik In Ir Ib Ic Iw]. eexists. split_and!; [reflexivity|done|]. split; cbn; try done.
    intros j [Hj _]%elem_of_difference. by apply Iw.
  - destruct Ho as [Hi|(b & Hb & Hv)].
    + destruct (wait_sleeps i s a I Hi) as (s' & E & ? & ?). exists s'. by erewrite bind_Ok by exact E.
    + exists s. rewrite <-(ii_bufs _ _ I) in Hb. by erewrite bind_Ok by (apply (wait_over i b); [apply I|done|done]).
Qed.

(** Whether the controller reports an error, before each operation. *)
Fixpoint ide_errs (fuel : nat) (os : list ide_op) (s : ide_sys D) : list bool :=
  match os with
  | [] => []
  | o :: os => c_err (ide_abs (id_dev s)) :: match ide_run fuel o s with Ok (_, s) => ide_errs fuel os s | _ => [] end
  end.

Lemma runs_spec fuel os s a : (ide_bound < fuel)%nat → ide_inv s a →
  ops_ok (id_havedisk1 s) (zip os (ide_errs fuel os s)) a →
  ∃ s', ide_runs fuel os s = Ok (tt, s') ∧
    id_havedisk1 s' = id_havedisk1 s ∧ ide_inv s' (fifo_runs (zip os (ide_errs fuel os s)) a).
Proof.
  intros Hf. revert s a. induction os as [|o os IH]; intros s a I Hok; [by exists s|].
  cbn [ide_errs zip zip_with ops_ok] in Hok. destruct Hok as [Ho Hok].
  destruct (run_spec fuel o s a Hf I Ho) as (s1 & Hr1 & Hh & I1). rewrite Hr1 in Hok. rewrite <-Hh in Hok.
  destruct (IH s1 _ I1 Hok) as (s' & Hr & Hh' & I'). exists s'. split_and!; [|by rewrite Hh'|].
  - cbn [ide_runs]. by erewrite bind_Ok by exact Hr1.
  - cbn [ide_errs]. by rewrite Hr1.
Qed.

Lemma complete_bufs err a i q b : q_fifo a = i :: q → q_bufs a !! i = Some b →
  q_fifo (complete err a) = q ∧ (∀ j, j ≠ i → q_bufs (complete err a) !! j = q_bufs a !! j) ∧
  ∃ b', q_bufs (complete err a) !! i = Some b' ∧
    Z.testbit (b_flags b') 1 = true ∧ Z.testbit (b_flags b') 2 = false ∧
    b_data b' = if dirty b || err then b_data b else q_disk a (b_dev b) (b_blockno b).
Proof.
  intros Hq Hb. unfold complete. rewrite Hq, Hb. cbn [q_fifo q_bufs]. split_and!; [done| |].
  - intros j Hj. by apply list_lookup_insert_ne.
  - eexists. split; [apply list_lookup_insert_eq; by eapply lookup_lt_Some|]. cbn [b_flags b_data f_flags f_data].
    rewrite !Z.land_spec, !Z.lor_spec, !Z.lnot_spec by lia.
    change (Z.testbit B_VALID 1) with true. change (Z.testbit B_DIRTY 1) with false.
    change (Z.testbit B_DIRTY 2) with true. by rewrite orb_true_r, andb_false_r.
Qed.

(** Interrupts complete the requests one by one. *)
Lemma intrs_complete fuel q : (ide_bound < fuel)%nat → ∀ s a, ide_inv s a → q_fifo a = q →
  ∃ s', ide_runs fuel (replicate (length q) Intr) s = Ok (tt, s') ∧ id_queue s' = None ∧ id_lock s' = false ∧
    (∀ j, j ∉ q → id_bufs s' !! j = id_bufs s !! j) ∧
    (∀ j, j ∉ id_sleeping s') ∧
    (∀ j, j ∈ q → ∃ b, id_bufs s' !! j = Some b ∧ Z.land (b_flags b) (Z.lor B_VALID B_DIRTY) = B_VALID).
Proof.
  intros Hf. induction q as [|i q IH]; intros s a I Hq.
  - exists s. split; [done|]. destruct I as [Il Ik In Ir Ib Ic Iw]. rewrite Hq in Ik.
    split_and!; [done|done|done| |by intros j Hj%not_elem_of_nil].
    intros j Hj%Iw. rewrite Hq in Hj. by apply not_elem_of_nil in Hj.
  - destruct (run_spec fuel Intr s a Hf I Logic.I) as (s1 & Hr1 & _ & I1). cbn [fifo_run] in I1.
    destruct (ii_req _ _ I i) as (b & Hb & _); [rewrite Hq; left|].
    destruct (complete_bufs (c_err (ide_abs (id_dev s))) a i q b Hq Hb) as (Hq1 & Hne & b' & Hb' & Hv & Hd & _).
    destruct (IH s1 _ I1 Hq1) as (s' & Hr & Hqu & Hl & Hout & Hsl & Hin). exists s'.
    rewrite (ii_bufs _ _ I1) in Hout. rewrite (ii_bufs _ _ I).
    pose proof (ii_nodup _ _ I) as Hnd. rewrite Hq in Hnd. apply NoDup_cons in Hnd as [Hi _].
    split_and!; [cbn [length replicate ide_runs]; by erewrite bind_Ok by exact Hr1|done|done| |done|].
    + intros j [Hji Hj]%not_elem_of_cons. by rewrite Hout, Hne.
    + intros j [->|Hj]%elem_of_cons; [|by apply Hin]. exists b'. rewrite Hout by done. split; [done|].
      apply Z.eqb_eq. by rewrite valid_not_dirty, Hv, Hd.
Qed.

Definition ide_idle (have1 : bool) (bufs : list buf) (d : ide_state) : ide_sys D :=
  IdeSys false None (λ _, None) bufs have1 d ∅.

Lemma idle_inv h bufs d : ide_inv (ide_idle h bufs d) (Fifo [] bufs (c_disk (ide_abs d))).
Proof. split; try done; [apply NoDup_nil_2|]. by intros i Hi%not_elem_of_nil. Qed.

Lemma inb_abs d : ide_abs (ide_inb 0x1f7 d).2 = ide_abs d.
Proof.
  destruct (ide_polls d) eqn:E; [by destruct (ide_ready d E) as (_ & _ & ? & _)|by destruct (ide_busy d _ E) as (_ & ? & _)].
Qed.

Lemma probe_spec n s : ∃ h d, probe_disk1 n s = Ok (h, put_dev d s) ∧ ide_abs d = ide_abs (id_dev s).
Proof.
  revert s. induction n as [|n IH]; intros s; cbn [probe_disk1].
  - exists false, (id_dev s). by destruct s.
  - unfold inb, mbind, M_bind. pose proof (inb_abs (id_dev s)) as Ha. destruct (ide_inb _ _) as [r d]. cbn in Ha.
    destruct (r =? 0); cbn [negb]; [|by exists true, d].
    destruct (IH (put_dev d s)) as (h & d' & -> & Hd). exists h, d'. by rewrite Hd, <-Ha.
Qed.

(** [ideinit] leaves the driver idle and the disk as it is. *)
Lemma ideinit_idle fuel bufs d : (ide_bound < fuel)%nat →
  ∃ h d', ideinit fuel (ide_idle false bufs d) = Ok (tt, ide_idle h bufs d') ∧
    c_disk (ide_abs d') = c_disk (ide_abs d).
Proof.
  intros Hf. unfold ideinit.
  destruct (idewait_spec fuel false (ide_idle false bufs d)) as (d1 & Hd1 & Hw);
    [pose proof (ide_polls_bound d); cbn; lia|].
  erewrite bind_Ok by exact Hw. erewrite bind_Ok by apply outb_eq. cbn [put_dev id_dev ide_idle].
  edestruct (probe_spec 1000) as (h & d2 & Hp & Hd2). erewrite bind_Ok by exact Hp. cbn [id_dev put_dev] in Hd2.
  erewrite bind_Ok by reflexivity. exists h. eexists. split; [reflexivity|].
  cbn [put_dev id_dev]. rewrite ide_reg by lia. cbn [c_disk set_reg]. rewrite Hd2, ide_reg by lia. cbn [c_disk set_reg].
  by rewrite Hd1.
Qed.

Lemma ide_runs_app fuel os1 os2 s s1 : ide_runs fuel os1 s = Ok (tt, s1) →
  ide_runs fuel (os1 ++ os2) s = ide_runs fuel os2 s1.
Proof.
  revert s. induction os1 as [|o os1 IH]; intros s; cbn [ide_runs app]; [by intros [= ->]|].
  intros ([] & s2 & H1 & H2)%bind_Ok_inv. erewrite bind_Ok by exact H1. by apply IH.
Qed.

Lemma submits_spec fuel (rs : list (Z * nat)) : (ide_bound < fuel)%nat → ∀ s a, ide_inv s a →
  NoDup (q_fifo a ++ rs.*2) →
  (∀ pid i, (pid, i) ∈ rs → ∃ b, q_bufs a !! i = Some b ∧ b_lock b = sl_held pid ∧ request (id_havedisk1 s) b) →
  ∃ s', ide_runs fuel ((λ '(pid, i), Submit pid i) <$> rs) s = Ok (tt, s') ∧
    ide_inv s' (Fifo (q_fifo a ++ rs.*2) (q_bufs a) (q_disk a)).
Proof.
  intros Hf. induction rs as [|[pid i] rs IH]; intros s a I Hnd Hreq.
  - exists s. split; [done|]. cbn. rewrite app_nil_r. by destruct a.
  - destruct (submit_spec fuel pid i s a Hf I) as (s1 & Hr1 & Hh & I1).
    { split; [|apply Hreq; left]. intros Hi. apply NoDup_app in Hnd as (_ & Hd & _). apply (Hd i Hi). left. }
    destruct (IH s1 _ I1) as (s' & Hr & I').
    { cbn. by rewrite <-app_assoc. }
    { intros p j Hj. rewrite Hh. apply Hreq. by right. }
    exists s'. split; [cbn [fmap list_fmap ide_runs ide_run]; rewrite bind_assoc; by erewrite bind_Ok by exact Hr1|].
    cbn in I'. by rewrite <-app_assoc in I'.
Qed.

(** C38. The disk driver is a queue of requests.  From an idle driver, for every
    interleaving of requests of processes, interrupts of the controller, changes
    of buffers that are not queued, kills of sleeping processes and runs of
    processes that wait, the driver runs to the end.  Its buffers are those of
    the abstract queue, which completes the requests in the order they came, a
    write on the disk and a read from it; only a read for which the controller
    reports an error leaves the data of the buffer as they were.  A process
    waits as long as its buffer is queued, and none sleeps on a buffer that is
    not: every wakeup comes.  When the queue is empty the disk is the abstract
    disk. *)
Theorem ide_refines_fifo fuel h bufs d os : (ide_bound < fuel)%nat →
  let oes := zip os (ide_errs fuel os (ide_idle h bufs d)) in
  ops_ok h oes (Fifo [] bufs (c_disk (ide_abs d))) →
  ∃ s', ide_runs fuel os (ide_idle h bufs d) = Ok (tt, s') ∧
    let a := fifo_runs oes (Fifo [] bufs (c_disk (ide_abs d))) in
    id_bufs s' = q_bufs a ∧ id_queue s' = head (q_fifo a) ∧
    (∀ i, i ∈ q_fifo a → ∃ s'', iderw_wait i s' = Ok (false, s'')) ∧
    (∀ i, i ∈ id_sleeping s' → i ∈ q_fifo a) ∧
    (q_fifo a = [] → c_disk (ide_abs (id_dev s')) = q_disk a).
Proof.
  intros Hf oes Hok. destruct (runs_spec fuel os _ _ Hf (idle_inv h bufs d) Hok) as (s' & Hr & _ & I).
  exists s'. split; [done|]. cbv zeta. split_and!.
  - apply (ii_bufs _ _ I).
  - pose proof (ii_link _ _ I) as Hk. unfold oes. destruct (q_fifo _); [done|]. by destruct Hk.
  - intros i Hi. destruct (wait_sleeps i s' _ I Hi) as (s'' & E & _). by exists s''.
  - apply (ii_sleep _ _ I).
  - intros Hq. pose proof (ii_ctl _ _ I) as Hc. unfold ctl_ok in Hc. fold oes in Hc. by rewrite Hq in Hc.
Qed.

(** Every request completes.  When processes have handed the driver a
    sequence of requests, as many interrupts as there are requests empty the
    queue; then no process sleeps, and each that waits for a buffer is done. *)
Lemma ide_requests_complete fuel h bufs d (rs : list (Z * nat)) : (ide_bound < fuel)%nat → NoDup rs.*2 →
  (∀ pid i, (pid, i) ∈ rs → ∃ b, bufs !! i = Some b ∧ b_lock b = sl_held pid ∧ request h b) →
  ∃ s', ide_runs fuel (((λ '(pid, i), Submit pid i) <$> rs) ++ replicate (length rs) Intr) (ide_idle h bufs d)
      = Ok (tt, s') ∧
    id_queue s' = None ∧ (∀ i, i ∉ id_sleeping s') ∧ ∀ pid i, (pid, i) ∈ rs → iderw_wait i s' = Ok (true, s').
Proof.
  intros Hf Hnd Hreq.
  destruct (submits_spec fuel rs Hf _ _ (idle_inv h bufs d) Hnd Hreq) as (s1 & Hr1 & I1).
  destruct (intrs_complete fuel rs.*2 Hf s1 _ I1 eq_refl) as (s' & Hr & Hq & Hl & _ & Hsl & Hin).
  exists s'. split_and!; [|done|done|].
  - erewrite ide_runs_app by exact Hr1. by rewrite length_fmap in Hr.
  - intros pid i Hi. destruct (Hin i) as (b & Hb & Hv); [|by eapply wait_over].
    by apply (list_elem_of_fmap_2 snd _ (pid, i)).
Qed.

End proofs.

(** * A controller *)

(** A controller that is busy for one look at its status after each command
    and fails the reads of the sectors that [bad] names. *)
Record wctl := WCtl { w_ctl : ctl; w_busy : bool }.

Section machine.
Variable bad : Z → bool.

Definition w_outb (p v : Z) (d : wctl) : wctl :=
  let c := w_ctl d in
  if (0x1f2 <=? p) && (p <=? 0x1f6) then WCtl (set_reg p (u8 v) c) (w_busy d)
  else if p =? 0x1f7 then
    WCtl (Ctl (c_disk c) (c_regs c) (Some (v =? IDE_CMD_WRITE)) ((v =? IDE_CMD_READ) && bad (sector c))) true
  else d.

#[local] Instance wide : IdeDevice := {|
  ide_state := wctl;
  ide_inb p d := if w_busy d then (IDE_BSY, WCtl (w_ctl d) false)
                 else (if c_err (w_ctl d) then Z.lor IDE_DRDY IDE_ERR else IDE_DRDY, d);
  ide_outb := w_outb;
  ide_insl d := let c := w_ctl d in
    (c_disk c (drive c) (sector c), WCtl (Ctl (c_disk c) (c_regs c) None (c_err c)) (w_busy d));
  ide_outsl data d := let c := w_ctl d in
    WCtl (Ctl (blocks_upd (drive c) (sector c) data (c_disk c)) (c_regs c) None false) (w_busy d)
|}.

#[local] Instance wide_ok : IdeDeviceOk wide.
Proof.
  refine {| ide_abs := w_ctl : @ide_state wide → ctl; ide_polls := λ d : @ide_state wide, if w_busy d then 1%nat else 0%nat;
            ide_bound := 1%nat |}.
  - intros d. destruct (w_busy d); lia.
  - intros [c []] n; cbn; [|done]. intros [= <-]. done.
  - intros [c []]; cbn; [done|]. intros _. by destruct (c_err c).
  - intros d p v Hp. cbn. unfold w_outb.
    destruct (Z.leb_spec 0x1f2 p), (Z.leb_spec p 0x1f6); lia || done.
  - done.
  - intros d _. done.
  - intros d _. done.
  - intros d _ He. cbn in *. by rewrite He.
  - intros d data _. done.
Defined.
End machine.

(** A drive of zero blocks, a write and then a read of the same block, while
    another block cannot be read. *)
Definition wdrive : wctl := WCtl (Ctl (λ _ _, [0; 0]) (λ _, 0) None false) true.
Definition wreq (flags bno : Z) (data : list Z) : buf := Buf flags 1 bno (sl_held 7) 1 None None data.
Definition wbufs : list buf := [wreq B_DIRTY 0x1234567 [8; 9]; wreq 0 0x1234567 [1; 1]; wreq 0 3 [5; 5]].
Definition wops : list ide_op := [Submit 7 0; Submit 7 1; Kill 1; Resume 1; Intr; Resume 0; Submit 7 2; Intr; Intr].

Example wide_run :
  (∃ s, ide_runs (D := wide (λ n, n =? 3)) 2 wops (ide_idle (D := wide (λ n, n =? 3)) true wbufs wdrive) = Ok (tt, s) ∧
    b_data <$> id_bufs s = [[8; 9]; [8; 9]; [5; 5]] ∧ b_flags <$> id_bufs s = [B_VALID; B_VALID; B_VALID] ∧
    id_sleeping s = ∅).
Proof. eexists. split; [vm_compute; reflexivity|]. by vm_compute. Qed.

Lemma wsubmit_ok i a b : bool_decide (i ∉ q_fifo a) = true → q_bufs a !! i = Some b → b_lock b = sl_held 7 →
  (negb (Z.land (b_flags b) (Z.lor B_VALID B_DIRTY) =? B_VALID) && (b_dev b =? 1) &&
    (0 <=? b_blockno b) && (b_blockno b <? 2 ^ 28)) = true →
  op_ok true (Submit 7 i) a.
Proof.
  intros Hi%bool_decide_eq_true Hb Hl (((Hf%negb_true_iff%Z.eqb_neq & Hd%Z.eqb_eq)%andb_true_iff
    & H0%Z.leb_le)%andb_true_iff & H1%Z.ltb_lt)%andb_true_iff.
  split; [done|]. exists b. split; [done|]. split; [done|]. split; [done|]. split; [by right|done].
Qed.

Lemma ide_refines_fifo_witness :
  let D := wide (λ n, n =? 3) in let DO := wide_ok (λ n, n =? 3) in
  ide_errs (D := D) 2 wops (ide_idle (D := D) true wbufs wdrive) = [false; false; false; false; false; false; false; false; true] ∧
  ∃ s', ide_runs (D := D) 2 wops (ide_idle (D := D) true wbufs wdrive) = Ok (tt, s') ∧
    let a := fifo_runs (zip wops (ide_errs (D := D) 2 wops (ide_idle (D := D) true wbufs wdrive)))
               (Fifo [] wbufs (c_disk (ide_abs (D := D) wdrive))) in
    id_bufs s' = q_bufs a ∧ id_queue s' = head (q_fifo a) ∧
    (∀ i, i ∈ q_fifo a → ∃ s'', iderw_wait (D := D) i s' = Ok (false, s'')) ∧
    (∀ i, i ∈ id_sleeping s' → i ∈ q_fifo a) ∧
    (q_fifo a = [] → c_disk (ide_abs (D := D) (id_dev s')) = q_disk a).
Proof.
  intros D DO. assert (ide_errs (D := D) 2 wops (ide_idle (D := D) true wbufs wdrive) =
    [false; false; false; false; false; false; false; false; true]) as He by (vm_compute; reflexivity).
  split; [exact He|]. apply (ide_refines_fifo (D := D) (DO := DO) 2 true wbufs wdrive wops).
  - cbn. lia.
  - rewrite He. split; [by eapply wsubmit_ok|]. split; [by eapply wsubmit_ok|]. split; [done|].
    split; [left; by apply list_elem_of_lookup_2 with 1%nat|]. split; [done|].
    split; [right; eexists; split; reflexivity|].
    split; [by eapply wsubmit_ok|]. exact (conj I (conj I I)).
Defined.
