(* ===== verification/Cache.v ===== *)
(** The buffer cache as one thread uses it.

    [cache s V H D] relates a state of bio.c to what its caller knows: the
    contents [V] of every block, the buffers [H] it holds with the block each
    stands for, and the blocks [D] that are pinned in the cache because they
    are dirty.  Each operation of bio.c is a step on [V], [H], [D] and the
    disk; log.c and fs.c are verified against these steps. *)

From Stdlib Require Import ZArith Lia.
From stdpp Require Import base numbers strings option gmap sets list list_numbers fin_maps fin_map_dom.
From S2P Require Import Prelude Spinlock Sleeplock DList Bio.

Section cache.
Context `{BlockDriver} {DOk : BlockDriverOk _}.
Variable mypid : Z.

Record cache (s : bcache_state) (V : blocks) (Hd : gmap nat (Z * Z)) (D : gset (Z * Z)) : Prop := {
  ca_rep : ∃ L, bio_rep s L;
  ca_view : ∀ x y, x ≠ 0 → block (bc_bufs s) (bc_disk s) x y = V x y;
  ca_held : ∀ i k, Hd !! i = Some k → (i < NBUF)%nat ∧ k.1 ≠ 0 ∧ ∃ b, bc_bufs s !! i = Some b ∧
    (b_dev b, b_blockno b) = k ∧ b_lock b = sl_held mypid ∧ b_refcnt b = 1 ∧ valid b = true;
  ca_idle : ∀ i b, (i < NBUF)%nat → Hd !! i = None → bc_bufs s !! i = Some b →
    b_refcnt b = 0 ∧ sl_locked (b_lock b) = false;
  ca_dirty : ∀ i b, (i < NBUF)%nat → bc_bufs s !! i = Some b →
    dirty b = true ↔ (b_dev b, b_blockno b) ∈ D;
  ca_pinned : ∀ k, k ∈ D → k.1 ≠ 0 ∧ ∃ i b, (i < NBUF)%nat ∧ bc_bufs s !! i = Some b ∧
    (b_dev b, b_blockno b) = k
}.

(** The block is not held. *)
Definition not_held (Hd : gmap nat (Z * Z)) (dev bno : Z) : Prop := ∀ i, Hd !! i ≠ Some (dev, bno).

Lemma cache_unlocked s V Hd D dev bno : cache s V Hd D → not_held Hd dev bno →
  unlocked (bc_bufs s) dev bno.
Proof.
  intros Hc Hn i b Hi Hb <- <-. destruct (Hd !! i) as [k|] eqn:E.
  - destruct (ca_held _ _ _ _ Hc i k E) as (_ & _ & b' & Hb' & <- & _).
    rewrite Hb in Hb'. apply (inj Some) in Hb' as <-. by destruct (Hn i).
  - by apply (ca_idle _ _ _ _ Hc i b).
Qed.

(** With fewer held and pinned buffers than there are, one can be recycled. *)
Lemma cache_has_free s V Hd D : cache s V Hd D → (size Hd + size D < NBUF)%nat →
  has_free (bc_bufs s).
Proof.
  intros Hc Hlt. destruct (ca_rep _ _ _ _ Hc) as [L [Hl _ Hco]].
  pose proof (co_len _ _ Hco) as Hlen. set (bs := bc_bufs s) in *.
  set (isd i := match bs !! i with Some b => dirty b | None => false end).
  destruct (decide (Exists (λ i, Hd !! i = None ∧ isd i = false) (seq 0 NBUF))) as [He|Hne].
  { apply Exists_exists in He as (i & Hi%elem_of_seq & Hn & Hnd).
    destruct (lookup_lt_is_Some_2 bs i) as [b Hb]; [lia|]. exists i, b. split; [lia|].
    unfold isd in Hnd. rewrite Hb in Hnd. split_and!; try done. by apply (ca_idle _ _ _ _ Hc i b); [lia|..]. }
  exfalso. apply not_Exists_Forall in Hne; [|apply _].
  set (DL := filter (λ i, isd i = true) (seq 0 NBUF)).
  assert (HDL : (length DL ≤ size D)%nat).
  { set (key i := match bs !! i with Some b => (b_dev b, b_blockno b) | None => (0, 0) end).
    assert (Hk : ∀ i, i ∈ DL → (i < NBUF)%nat ∧ ∃ b, bs !! i = Some b ∧ key i = (b_dev b, b_blockno b) ∧ key i ∈ D).
    { intros i [Hd' Hi%elem_of_seq]%list_elem_of_filter. unfold isd, key in *.
      destruct (bs !! i) as [b|] eqn:Hb; [|done]. split; [lia|]. exists b. split_and!; try done.
      by apply (ca_dirty _ _ _ _ Hc i b); [lia|..]. }
    rewrite <-(length_fmap key DL). unfold size, set_size. simpl.
    apply submseteq_length, NoDup_submseteq.
    - apply NoDup_fmap_2_strong; [|apply NoDup_filter, NoDup_seq].
      intros i j Hi Hj E. destruct (Hk i Hi) as (Hi' & b & Hb & Eb & Hin), (Hk j Hj) as (Hj' & c & Hcj & Ec & _).
      apply (co_keys _ _ Hco i j b c); try done; [split; congruence|].
      destruct (ca_pinned _ _ _ _ Hc _ Hin) as [Hz _]. rewrite Eb in Hz. done.
    - intros k (i & -> & Hi)%list_elem_of_fmap. apply elem_of_elements. by destruct (Hk i Hi) as (_ & ? & _ & _ & ?). }
  assert (HN : (NBUF ≤ length (elements (dom Hd) ++ DL))%nat).
  { rewrite <-(length_seq NBUF 0) at 1. apply submseteq_length, NoDup_submseteq; [apply NoDup_seq|].
    intros i Hi. rewrite Forall_forall in Hne. specialize (Hne i Hi).
    apply elem_of_app. destruct (Hd !! i) eqn:E.
    - left. apply elem_of_elements, elem_of_dom. eauto.
    - right. apply list_elem_of_filter. split; [|done]. destruct (isd i) eqn:Ei; [done|]. naive_solver. }
  rewrite length_app in HN. change (length (elements (dom Hd))) with (size (dom Hd)) in HN.
  rewrite size_dom in HN. lia.
Qed.

(** The blocks that are neither held nor pinned are as on the disk. *)
Lemma cache_clean s V Hd D dev bno : cache s V Hd D → dev ≠ 0 → not_held Hd dev bno →
  (dev, bno) ∉ D → V dev bno = bc_disk s dev bno.
Proof.
  intros Hc Hdev Hn HD. rewrite <-(ca_view _ _ _ _ Hc) by done.
  destruct (ca_rep _ _ _ _ Hc) as [L [Hl _ Hco]].
  destruct (decide (Exists (λ i, key_is (bc_bufs s) dev bno i = true) (seq 0 NBUF))) as [He|Hne].
  - apply Exists_exists in He as (i & Hi%elem_of_seq & Hk). unfold key_is in Hk.
    destruct (bc_bufs s !! i) as [b|] eqn:Hb; [|done].
    apply andb_true_iff in Hk as [<-%Z.eqb_eq <-%Z.eqb_eq].
    rewrite (block_cached _ _ i b) by (done || lia). destruct (valid b) eqn:Hv; [|done].
    destruct (co_good _ _ Hco i b ltac:(lia) Hb) as (_ & _ & _ & Hg). apply Hg; [|done|].
    + by eapply (cache_unlocked _ _ _ _ _ _ Hc Hn i); [lia|..].
    + destruct (dirty b) eqn:Hdi; [|done]. exfalso. by apply HD, (ca_dirty _ _ _ _ Hc i b); [lia|..].
  - apply block_uncached. intros j c Hj Hcj [E1 E2]. apply not_Exists_Forall in Hne; [|apply _].
    rewrite Forall_forall in Hne. apply (Hne j); [apply elem_of_seq; lia|].
    unfold key_is. by rewrite Hcj, E1, E2, !Z.eqb_refl.
Qed.

(** The holder changes its buffer, and perhaps the block on the disk. *)
Lemma cache_set s V Hd D i dev bno b b' (d' : disk) : cache s V Hd D → Hd !! i = Some (dev, bno) →
  bc_bufs s !! i = Some b → b_dev b' = dev → b_blockno b' = bno → b_lock b' = b_lock b →
  b_refcnt b' = b_refcnt b → b_next b' = b_next b → b_prev b' = b_prev b → valid b' = true →
  (∀ x y, ¬ (x = dev ∧ y = bno) → d' x y = bc_disk s x y) →
  cache (Bcache (<[i := b']> (bc_bufs s)) (bc_lock s) d') (blocks_upd dev bno (b_data b') V) Hd
    (if dirty b' then {[(dev, bno)]} ∪ D else D ∖ {[(dev, bno)]}).
Proof.
  intros Hc Hi Hb E1 E2 E3 E4 E5 E6 Hv Hd'.
  destruct (ca_held _ _ _ _ Hc i _ Hi) as (HiN & Hdev & b0 & Hb0 & Ek & Hlk & Href & Hv0). simpl in Hdev.
  rewrite Hb in Hb0. apply (inj Some) in Hb0 as <-. injection Ek as K1 K2.
  destruct (ca_rep _ _ _ _ Hc) as [L [Hl Hbl Hco]].
  assert (Hil : (i < length (bc_bufs s))%nat) by (by eapply lookup_lt_Some).
  assert (Hg : good d' b').
  { unfold good. rewrite E3, E4, Hlk, Href. done. }
  assert (Ht : takes (bc_bufs s) b b') by (left; split; congruence).
  assert (Hd2 : ∀ x y, ¬ (x = b_dev b' ∧ y = b_blockno b') → d' x y = bc_disk s x y) by (by rewrite E1, E2).
  assert (Hdev' : b_dev b' ≠ 0) by congruence.
  assert (Hlook : ∀ j c, <[i := b']> (bc_bufs s) !! j = Some c → i = j ∧ c = b' ∨ i ≠ j ∧ bc_bufs s !! j = Some c).
  { intros j c Hj. apply list_lookup_insert_Some in Hj as [(-> & -> & _)|[? ?]]; auto. }
  assert (Huniq : ∀ j c, (j < NBUF)%nat → bc_bufs s !! j = Some c → (b_dev c, b_blockno c) = (dev, bno) → i = j).
  { intros j c Hj Hcj [= F1 F2]. apply (co_keys _ _ Hco i j b c); try done; [split; congruence|congruence]. }
  split; simpl.
  - exists L. split; simpl; [by eapply links_same|done|by eapply coherent_replace].
  - intros x y Hx. rewrite (block_replace (bc_bufs s) (bc_disk s) d' i b b') by done.
    rewrite Hv, E1, E2. unfold blocks_upd. destruct ((x =? dev) && (y =? bno)); [done|by apply Hc].
  - intros j k Hj. destruct (decide (i = j)) as [<-|Hne].
    + rewrite Hi in Hj. apply (inj Some) in Hj as <-. split_and!; try done. exists b'.
      rewrite list_lookup_insert_eq by done. split_and!; congruence.
    + destruct (ca_held _ _ _ _ Hc j k Hj) as (? & ? & c & Hcj & ?). split_and!; try done.
      exists c. by rewrite list_lookup_insert_ne.
  - intros j c Hj Hn [[<- ->]|[? Hcj]]%Hlook; [congruence|]. by apply (ca_idle _ _ _ _ Hc j c).
  - intros j c Hj [[<- ->]|[Hne Hcj]]%Hlook.
    + rewrite E1, E2. destruct (dirty b'); set_solver.
    + rewrite (ca_dirty _ _ _ _ Hc j c) by done.
      assert ((b_dev c, b_blockno c) ≠ (dev, bno)) by (intros E; by apply Hne, (Huniq j c)).
      destruct (dirty b'); set_solver.
  - intros k Hk. destruct (decide (k = (dev, bno))) as [->|Hne].
    + split; [done|]. exists i, b'. rewrite list_lookup_insert_eq by done. split_and!; congruence.
    + assert (HkD : k ∈ D) by (destruct (dirty b'); set_solver).
      destruct (ca_pinned _ _ _ _ Hc k HkD) as (? & j & c & Hj & Hcj & Ek). split; [done|].
      exists j, c. rewrite list_lookup_insert_ne; [done|]. intros <-.
      rewrite Hb in Hcj. apply (inj Some) in Hcj as <-. congruence.
Qed.

Lemma pinned_same (D : gset (Z * Z)) k (b : bool) : b = true ↔ k ∈ D →
  (if b then {[k]} ∪ D else D ∖ {[k]}) = D.
Proof. destruct b; set_solver. Qed.

(** * The steps *)

Lemma bread_step s V Hd D dev bno : cache s V Hd D → dev ≠ 0 → drv_ok dev bno = true →
  not_held Hd dev bno → (dev, bno) ∈ D ∨ (size Hd + size D < NBUF)%nat →
  ∃ i s', bread mypid dev bno s = Ok (i, s') ∧ Hd !! i = None ∧
    cache s' V (<[i := (dev, bno)]> Hd) D ∧ bc_disk s' = bc_disk s.
Proof.
  intros Hc Hdev Hok Hn Hlt. destruct (ca_rep _ _ _ _ Hc) as [L HL]. pose proof HL as [Hl Hbl Hco].
  assert (Hget : gettable (bc_bufs s) dev bno).
  { destruct Hlt as [Hin|Hlt]; [left|right; by eapply cache_has_free].
    destruct (ca_pinned _ _ _ _ Hc _ Hin) as (_ & i & b & ? & ? & [= ? ?]). by exists i, b. }
  destruct (bread_spec mypid s L dev bno HL Hdev Hok (cache_unlocked _ _ _ _ _ _ Hc Hn) Hget) as (i & b0 & b1 & b2 & E & Hg & E2 & Hv & Hdi & Hdata & _).
  pose proof Hg as [Hi Hb0 [K1 K2] Hheld Ht Hnx Hpv Hfree Href _ _ _ _].
  assert (Hil : (i < length (bc_bufs s))%nat) by (by eapply lookup_lt_Some).
  assert (HiN : Hd !! i = None).
  { destruct (Hd !! i) as [k|] eqn:Ek; [|done].
    destruct (ca_held _ _ _ _ Hc i k Ek) as (_ & _ & b & Hb & _ & Hlk & _).
    rewrite Hb0 in Hb. apply (inj Some) in Hb as <-. by rewrite Hlk in Hfree. }
  assert (F : b_dev b2 = dev ∧ b_blockno b2 = bno ∧ b_lock b2 = sl_held mypid ∧ b_refcnt b2 = 1 ∧
    b_next b2 = b_next b0 ∧ b_prev b2 = b_prev b0 ∧ takes (bc_bufs s) b0 b2).
  { rewrite E2. cbn [b_dev b_blockno b_lock b_refcnt b_next b_prev f_flags f_data]. split_and!; try done.
    rewrite Href. by rewrite (proj1 (ca_idle _ _ _ _ Hc i b0 Hi HiN Hb0)). }
  destruct F as (F1 & F2 & F3 & F4 & F5 & F6 & F7).
  exists i, (set_buf i b2 s). split_and!; try done.
  assert (Hgood : good (bc_disk s) b2) by (unfold good; rewrite F3, F4; done).
  assert (Hlook : ∀ j c, <[i := b2]> (bc_bufs s) !! j = Some c → i = j ∧ c = b2 ∨ i ≠ j ∧ bc_bufs s !! j = Some c).
  { intros j c Hj. apply list_lookup_insert_Some in Hj as [(-> & -> & _)|[? ?]]; auto. }
  (* recycling drops only a key that is not pinned *)
  assert (Hkeys : ((dev, bno) ∈ D ↔ dirty b0 = true) ∧ ((b_dev b0, b_blockno b0) ∈ D → (b_dev b0, b_blockno b0) = (dev, bno))).
  { rewrite (ca_dirty _ _ _ _ Hc i b0 Hi Hb0). destruct F7 as [[G1 G2]|(Hno & _ & Hcl)].
    - rewrite <-G1, <-G2, F1, F2. done.
    - assert (HnD : (b_dev b0, b_blockno b0) ∉ D) by (rewrite <-(ca_dirty _ _ _ _ Hc i b0 Hi Hb0); by rewrite Hcl).
      split; [|done]. split; [|done]. intros HD. destruct (ca_pinned _ _ _ _ Hc _ HD) as (_ & j & c & Hj & Hcj & Ek).
      destruct (Hno j c Hj Hcj). injection Ek as E3 E4. split; congruence. }
  destruct Hkeys as [Hk1 Hk2]. split; simpl.
  - exists L. split; simpl; [by eapply links_same|done|]. eapply coherent_replace; try done. congruence.
  - intros x y Hx. rewrite (block_replace (bc_bufs s) (bc_disk s) (bc_disk s) i b0 b2) by (done || congruence).
    rewrite Hv, F1, F2, Hdata, (ca_view _ _ _ _ Hc x y Hx), (ca_view _ _ _ _ Hc dev bno Hdev).
    destruct (Z.eqb_spec x dev) as [->|], (Z.eqb_spec y bno) as [->|]; done.
  - intros j k Hj. apply lookup_insert_Some in Hj as [[<- <-]|[Hne Hj]].
    + split_and!; try done. exists b2. rewrite list_lookup_insert_eq by done. split_and!; congruence.
    + destruct (ca_held _ _ _ _ Hc j k Hj) as (? & ? & c & Hcj & ?). split_and!; try done.
      exists c. by rewrite list_lookup_insert_ne.
  - intros j c Hj Hjn [[<- ->]|[Hne Hcj]]%Hlook; [by rewrite lookup_insert_eq in Hjn|].
    rewrite lookup_insert_ne in Hjn by done. by apply (ca_idle _ _ _ _ Hc j c).
  - intros j c Hj [[<- ->]|[Hne Hcj]]%Hlook; [|by apply (ca_dirty _ _ _ _ Hc j c)]. by rewrite F1, F2, Hdi, Hk1.
  - intros k Hk. destruct (ca_pinned _ _ _ _ Hc k Hk) as (? & j & c & Hj & Hcj & Ek). split; [done|].
    destruct (decide (i = j)) as [<-|Hne].
    + rewrite Hb0 in Hcj. apply (inj Some) in Hcj as <-. subst k. exists i, b2.
      rewrite list_lookup_insert_eq by done. split_and!; try done. rewrite F1, F2. symmetry. by apply Hk2.
    + exists j, c. by rewrite list_lookup_insert_ne.
Qed.

Lemma held_buf s V Hd D i dev bno : cache s V Hd D → Hd !! i = Some (dev, bno) →
  ∃ b, bc_bufs s !! i = Some b ∧ b_dev b = dev ∧ b_blockno b = bno ∧ b_lock b = sl_held mypid ∧
    valid b = true ∧ b_data b = V dev bno ∧ (dirty b = true ↔ (dev, bno) ∈ D).
Proof.
  intros Hc Hi. destruct (ca_held _ _ _ _ Hc i _ Hi) as (HiN & Hdev & b & Hb & Ek & Hlk & _ & Hv).
  injection Ek as <- <-. exists b. split_and!; try done.
  - destruct (ca_rep _ _ _ _ Hc) as [L [_ _ Hco]]. rewrite <-(ca_view _ _ _ _ Hc) by done.
    by rewrite (block_cached _ _ i b), Hv.
  - by apply (ca_dirty _ _ _ _ Hc i b).
Qed.

Lemma bdata_step s V Hd D i dev bno : cache s V Hd D → Hd !! i = Some (dev, bno) →
  bderef (Some i) b_data s = Ok (V dev bno, s) ∧ bderef (Some i) b_blockno s = Ok (bno, s).
Proof.
  intros Hc Hi. destruct (held_buf _ _ _ _ _ _ _ Hc Hi) as (b & Hb & _ & <- & _ & _ & <- & _).
  by rewrite !(bderef_Ok _ _ _ _ Hb).
Qed.

Lemma bset_step s V Hd D i dev bno data : cache s V Hd D → Hd !! i = Some (dev, bno) →
  ∃ s', bassign (Some i) (f_data data) s = Ok (tt, s') ∧
    cache s' (blocks_upd dev bno data V) Hd D ∧ bc_disk s' = bc_disk s.
Proof.
  intros Hc Hi. destruct (held_buf _ _ _ _ _ _ _ Hc Hi) as (b & Hb & K1 & K2 & _ & Hv & _ & Hdi).
  eexists. split; [by apply bassign_Ok|]. split; [|done].
  rewrite <-(pinned_same D (dev, bno) (dirty b)) by done.
  by apply (cache_set s V Hd D i dev bno b (f_data data b) (bc_disk s)).
Qed.

Lemma bpin_step s V Hd D i dev bno : cache s V Hd D → Hd !! i = Some (dev, bno) →
  ∃ f s', bderef (Some i) b_flags s = Ok (f, s) ∧
    bassign (Some i) (f_flags (Z.lor f B_DIRTY)) s = Ok (tt, s') ∧
    cache s' V Hd ({[(dev, bno)]} ∪ D) ∧ bc_disk s' = bc_disk s.
Proof.
  intros Hc Hi. destruct (held_buf _ _ _ _ _ _ _ Hc Hi) as (b & Hb & K1 & K2 & _ & Hv & Hda & _).
  exists (b_flags b). eexists. split_and!; [by apply bderef_Ok|by apply bassign_Ok| |done].
  set (b' := f_flags _ b). assert (Hdi : dirty b' = true).
  { unfold dirty, b'. cbn [b_flags f_flags]. rewrite Z.lor_spec. apply orb_true_r. }
  assert (Hc' : cache (Bcache (<[i := b']> (bc_bufs s)) (bc_lock s) (bc_disk s))
    (blocks_upd dev bno (b_data b') V) Hd ({[(dev, bno)]} ∪ D)).
  { pose proof (cache_set s V Hd D i dev bno b b' (bc_disk s)) as Hs. rewrite Hdi in Hs. apply Hs; try done.
    unfold valid, b'. cbn [b_flags f_flags]. rewrite Z.lor_spec. unfold valid in Hv. by rewrite Hv. }
  destruct Hc'. split; try done. intros x y Hx. rewrite ca_view0 by done. unfold blocks_upd.
  destruct (Z.eqb_spec x dev) as [->|], (Z.eqb_spec y bno) as [->|]; try done.
Qed.

Lemma bwrite_step s V Hd D i dev bno : cache s V Hd D → Hd !! i = Some (dev, bno) →
  drv_ok dev bno = true →
  ∃ s', bwrite mypid i s = Ok (tt, s') ∧ cache s' V Hd (D ∖ {[(dev, bno)]}) ∧
    bc_disk s' = disk_upd dev bno (V dev bno) (bc_disk s).
Proof.
  intros Hc Hi Hok. destruct (held_buf _ _ _ _ _ _ _ Hc Hi) as (b & Hb & K1 & K2 & Hlk & Hv & Hda & _).
  assert (Hil : (i < length (bc_bufs s))%nat) by (by eapply lookup_lt_Some).
  assert (Eb : f_lock (sl_held mypid) b = b) by (destruct b; simpl in *; by subst).
  set (b2 := f_flags (Z.lor (Z.land (Z.lor (b_flags b) B_DIRTY) (Z.lnot B_DIRTY)) B_VALID) b).
  exists (Bcache (<[i := b2]> (bc_bufs s)) (bc_lock s) (disk_upd dev bno (V dev bno) (bc_disk s))).
  assert (Hv2 : valid b2 = true).
  { unfold valid, b2. cbn [b_flags f_flags]. rewrite Z.lor_spec. apply orb_true_r. }
  assert (Hd2 : dirty b2 = false).
  { unfold dirty, b2. cbn [b_flags f_flags]. rewrite Z.lor_spec, Z.land_spec, Z.lnot_spec by lia.
    by rewrite andb_false_r. }
  split_and!; [| |done].
  - unfold bwrite. erewrite bind_Ok by (eapply blk_Ok; [done|rewrite Hlk; apply holdingsleep_Ok]).
    rewrite Eb. cbn [negb]. erewrite bind_Ok by (by apply bderef_Ok, set_buf_lookup).
    erewrite bind_Ok by (by apply bassign_Ok, set_buf_lookup). rewrite set_buf_twice.
    erewrite (iderw_write mypid i); [|by apply set_buf_lookup|done|by cbn; rewrite K1, K2|].
    + rewrite set_buf_twice. cbn [b_dev b_blockno b_data f_flags]. by rewrite K1, K2, Hda.
    + cbn [b_flags f_flags]. rewrite Z.lor_spec. apply orb_true_r.
  - assert (Hc' : cache (Bcache (<[i := b2]> (bc_bufs s)) (bc_lock s) (disk_upd dev bno (V dev bno) (bc_disk s)))
      (blocks_upd dev bno (b_data b2) V) Hd (D ∖ {[(dev, bno)]})).
    { pose proof (cache_set s V Hd D i dev bno b b2 (disk_upd dev bno (V dev bno) (bc_disk s))) as Hs.
      rewrite Hd2 in Hs. apply Hs; try done. intros x y Hne. rewrite disk_upd_blocks. unfold blocks_upd.
      destruct (Z.eqb_spec x dev), (Z.eqb_spec y bno); try done. by destruct Hne. }
    destruct Hc'. split; try done. intros x y Hx. rewrite ca_view0 by done. unfold blocks_upd.
    destruct (Z.eqb_spec x dev) as [->|], (Z.eqb_spec y bno) as [->|]; try done.
Qed.

Lemma brelse_step s V Hd D i dev bno : cache s V Hd D → Hd !! i = Some (dev, bno) →
  (dev, bno) ∈ D ∨ V dev bno = bc_disk s dev bno →
  ∃ s', brelse mypid i s = Ok (tt, s') ∧ cache s' V (delete i Hd) D ∧ bc_disk s' = bc_disk s.
Proof.
  intros Hc Hi Hdirty. destruct (held_buf _ _ _ _ _ _ _ Hc Hi) as (b & Hb & K1 & K2 & Hlk & Hv & Hda & Hdi).
  destruct (ca_held _ _ _ _ Hc i _ Hi) as (HiN & Hdev & b0 & Hb0 & _ & _ & Href & _).
  rewrite Hb in Hb0. apply (inj Some) in Hb0 as <-. simpl in Hdev.
  destruct (ca_rep _ _ _ _ Hc) as [L [Hl Hbl Hco]].
  assert (Hil : (i < length (bc_bufs s))%nat) by (by eapply lookup_lt_Some).
  assert (HiL : i ∈ L) by (by apply (links_elem _ _ _ Hl)).
  apply list_elem_of_split in HiL as (A & B & ->).
  destruct (brelse_run mypid s A i B b Hl Hbl Hb Hlk) as (s' & E & Hbl' & Hdk & Hcore & Hl').
  exists s'. split_and!; try done.
  assert (Hg : good (bc_disk s) (released b)).
  { unfold good, released. cbn [b_lock b_refcnt f_lock f_refcnt]. rewrite Href. do 3 (split; [done|]).
    intros _. split; [done|]. intros _ Hcl. change (b_data b = bc_disk s (b_dev b) (b_blockno b)).
    rewrite Hda, K1, K2. destruct Hdirty as [Hin|]; [|done]. apply Hdi in Hin.
    change (dirty b = false) in Hcl. congruence. }
  assert (Ht : takes (bc_bufs s) b (released b)) by (by left).
  assert (Hdv : b_dev (released b) ≠ 0) by (simpl; congruence).
  assert (Hco' : coherent (<[i := released b]> (bc_bufs s)) (bc_disk s)) by (by eapply coherent_replace).
  assert (Hlook : ∀ j c, bc_bufs s' !! j = Some c →
    i = j ∧ core c = core (released b) ∨ i ≠ j ∧ ∃ c0, bc_bufs s !! j = Some c0 ∧ core c = core c0).
  { intros j c Hj. destruct (core_lookup _ _ _ _ Hcore Hj) as (c0 & Hc0 & Ec).
    apply list_lookup_insert_Some in Hc0 as [(<- & <- & _)|[Hne Hc0]]; [by left|right]. eauto. }
  assert (Hback : ∀ j c0, <[i := released b]> (bc_bufs s) !! j = Some c0 →
    ∃ c, bc_bufs s' !! j = Some c ∧ core c = core c0).
  { intros j c0 Hj. destruct (core_lookup (bc_bufs s') _ j c0 (eq_sym Hcore) Hj) as (c & Hcj & Ec). eauto. }
  split.
  - eexists. split; [exact Hl'|done|]. rewrite Hdk. by eapply coherent_core.
  - intros x y Hx. rewrite Hdk, (block_core _ _ _ x y Hcore).
    rewrite (block_replace (bc_bufs s) (bc_disk s) (bc_disk s) i b (released b)) by done.
    rewrite (ca_view _ _ _ _ Hc x y Hx). cbn [b_dev b_blockno released f_refcnt f_lock]. rewrite K1, K2.
    replace (valid (released b)) with (valid b) by done. rewrite Hv.
    destruct (Z.eqb_spec x dev) as [->|], (Z.eqb_spec y bno) as [->|]; done.
  - intros j k [Hne Hj]%lookup_delete_Some. destruct (ca_held _ _ _ _ Hc j k Hj) as (? & ? & c0 & Hcj & Ek & Eh & Er & Ev).
    split_and!; try done. destruct (Hback j c0) as (c & Hc' & Ec); [by rewrite list_lookup_insert_ne|].
    exists c. apply core_fields in Ec as (E1 & E2 & E3 & E4 & E5 & _). unfold valid in *. split_and!; congruence.
  - intros j c Hj Hjn [[<- Ec]|(Hne & c0 & Hc0 & Ec)]%Hlook; apply core_fields in Ec as (_ & _ & _ & -> & -> & _).
    + unfold released. cbn [b_lock b_refcnt f_lock f_refcnt]. by rewrite Href.
    + rewrite lookup_delete_ne in Hjn by done. by apply (ca_idle _ _ _ _ Hc j c0).
  - intros j c Hj [[<- Ec]|(Hne & c0 & Hc0 & Ec)]%Hlook; apply core_fields in Ec as (E1 & -> & -> & _);
      unfold dirty; rewrite E1; [by apply (ca_dirty _ _ _ _ Hc i b)|by apply (ca_dirty _ _ _ _ Hc j c0)].
  - intros k Hk. destruct (ca_pinned _ _ _ _ Hc k Hk) as (? & j & c & Hj & Hcj & Ek). split; [done|].
    destruct (decide (i = j)) as [<-|Hne].
    + rewrite Hb in Hcj. apply (inj Some) in Hcj as <-.
      destruct (Hback i (released b)) as (c & Hc' & Ec); [by rewrite list_lookup_insert_eq|].
      apply core_fields in Ec as (_ & E2 & E3 & _). exists i, c. simpl in E2, E3. by rewrite E2, E3.
    + destruct (Hback j c) as (c' & Hc' & Ec); [by rewrite list_lookup_insert_ne|].
      apply core_fields in Ec as (_ & E2 & E3 & _). exists j, c'. by rewrite E2, E3.
Qed.

(** * Two buffers at a time *)

(** [a = bread(dev, x); b = bread(dev, y);] with [x] and [y] not held. *)
Lemma bread_two s V D dev x y : cache s V ∅ D → dev ≠ 0 → drv_ok dev x = true → drv_ok dev y = true →
  x ≠ y → (size D < NBUF)%nat → (dev, y) ∈ D ∨ (1 + size D < NBUF)%nat →
  ∃ a b s1 s2, bread mypid dev x s = Ok (a, s1) ∧ bread mypid dev y s1 = Ok (b, s2) ∧
    cache s2 V (<[b := (dev, y)]> {[a := (dev, x)]}) D ∧ a ≠ b ∧ bc_disk s2 = bc_disk s.
Proof.
  intros Hc Hdev Hx Hy Hne Hsz Hget.
  destruct (bread_step s V ∅ D dev x) as (a & s1 & E1 & _ & Hc1 & Hd1); try done.
  { right. by rewrite map_size_empty. }
  destruct (bread_step s1 V (<[a := (dev, x)]> ∅) D dev y) as (b & s2 & E2 & Hb & Hc2 & Hd2); try done.
  { intros i Hi. apply lookup_insert_Some in Hi as [[_ Hi]|[_ Hi]]; [congruence|done]. }
  { rewrite map_size_insert_None, map_size_empty by done. done. }
  exists a, b, s1, s2. split_and!; try done; [|congruence].
  intros ->. by rewrite lookup_insert_eq in Hb.
Qed.

(** Releasing two buffers that may be released. *)
Lemma brelse_two s V D dev x y a b : cache s V (<[b := (dev, y)]> {[a := (dev, x)]}) D → a ≠ b →
  (dev, x) ∈ D ∨ V dev x = bc_disk s dev x → (dev, y) ∈ D ∨ V dev y = bc_disk s dev y →
  (∃ s1 s2, brelse mypid a s = Ok (tt, s1) ∧ brelse mypid b s1 = Ok (tt, s2) ∧ cache s2 V ∅ D ∧
     bc_disk s2 = bc_disk s) ∧
  (∃ s1 s2, brelse mypid b s = Ok (tt, s1) ∧ brelse mypid a s1 = Ok (tt, s2) ∧ cache s2 V ∅ D ∧
     bc_disk s2 = bc_disk s).
Proof.
  intros Hc Hne Hx Hy. set (Hd := <[b := (dev, y)]> {[a := (dev, x)]}) in *.
  assert (Ha : Hd !! a = Some (dev, x)) by (unfold Hd; by rewrite lookup_insert_ne, lookup_singleton_eq).
  assert (Hb : Hd !! b = Some (dev, y)) by (unfold Hd; by rewrite lookup_insert_eq).
  assert (Hab : delete b (delete a Hd) = ∅).
  { unfold Hd. rewrite delete_insert_ne by done. rewrite delete_singleton_eq, delete_insert_eq. by apply delete_empty. }
  split.
  - destruct (brelse_step s V Hd D a dev x) as (s1 & E1 & Hc1 & Hd1); try done.
    destruct (brelse_step s1 V (delete a Hd) D b dev y) as (s2 & E2 & Hc2 & Hd2); try done;
      [by rewrite lookup_delete_ne|by rewrite Hd1|].
    exists s1, s2. rewrite Hab in Hc2. split_and!; try done. congruence.
  - destruct (brelse_step s V Hd D b dev y) as (s1 & E1 & Hc1 & Hd1); try done.
    destruct (brelse_step s1 V (delete b Hd) D a dev x) as (s2 & E2 & Hc2 & Hd2); try done;
      [by rewrite lookup_delete_ne|by rewrite Hd1|].
    exists s1, s2. rewrite delete_delete, Hab in Hc2. split_and!; try done. congruence.
Qed.

(** The cache that [binit] leaves shows the disk, with nothing held. *)
Lemma cache_boot (d : disk) : ∃ s, binit (bcache_bss d) = Ok (tt, s) ∧ cache s d ∅ ∅ ∧ bc_disk s = d.
Proof.
  destruct (binit_rep d) as (s & L & E & HL & Hd & Hf & Hu & Hb & Hc).
  exists s. split; [exact E|]. clear E. split; [|exact Hd]. split.
  - by exists L.
  - by rewrite Hd.
  - intros i k Hi. by rewrite lookup_empty in Hi.
  - intros i b _ _ Hi. destruct (core_fields _ _ (Hc i b Hi)) as (_ & _ & _ & E4 & E5 & _).
    rewrite E4, E5. split; reflexivity.
  - intros i b _ Hi. destruct (core_fields _ _ (Hc i b Hi)) as (E1 & _). unfold dirty. rewrite E1.
    split; [discriminate|]. intros Hk. by apply elem_of_empty in Hk.
  - intros k Hk. by apply elem_of_empty in Hk.
Qed.
End cache.
