(* ===== verification/Log.v ===== *)
(** The write-ahead log (log.c), with the superblock it is found through
    (readsb of fs.c).

    A process that would have to wait for a commit is [Blocked].  Block numbers
    of the header are bit patterns of 32-bit words, the count is signed. *)

From Stdlib Require Import ZArith Lia.
From stdpp Require Import base numbers strings option gmap sets list list_numbers fin_maps fin_map_dom.
From S2P Require Import Prelude Spinlock Sleeplock Mem Block Bio Cache.

(** * Data *)
Abbreviation LOGSIZE := 30.
Abbreviation MAXOPBLOCKS := 10.

Record superblock := Superblock {
  sb_size : Z;
  sb_nblocks : Z;
  sb_ninodes : Z;
  sb_nlog : Z;
  sb_logstart : Z;
  sb_inodestart : Z;
  sb_bmapstart : Z
}.

(** [struct log]; [lh.block] is an array of [LOGSIZE] words. *)
Record log_state := Log {
  lg_lock : bool;
  lg_start : Z;
  lg_size : Z;
  lg_outstanding : Z;
  lg_committing : bool;
  lg_dev : Z;
  lh_n : Z;
  lh_block : list Z
}.

Record log_sys := LogSys { ls_bc : bcache_state; ls_log : log_state }.

Definition LBC : lens log_sys bcache_state := Lens ls_bc (λ b s, LogSys b (ls_log s)).
Definition LLG : lens log_sys log_state := Lens ls_log (λ l s, LogSys (ls_bc s) l).
Definition llk : lens log_sys bool :=
  Lens (λ s, lg_lock (ls_log s)) (λ b s, LogSys (ls_bc s)
    (let l := ls_log s in Log b (lg_start l) (lg_size l) (lg_outstanding l) (lg_committing l)
       (lg_dev l) (lh_n l) (lh_block l))).

Definition w_place (dev start size : Z) (l : log_state) : log_state :=
  Log (lg_lock l) start size (lg_outstanding l) (lg_committing l) dev (lh_n l) (lh_block l).
Definition w_outstanding (v : Z) (l : log_state) : log_state :=
  Log (lg_lock l) (lg_start l) (lg_size l) v (lg_committing l) (lg_dev l) (lh_n l) (lh_block l).
Definition w_committing (v : bool) (l : log_state) : log_state :=
  Log (lg_lock l) (lg_start l) (lg_size l) (lg_outstanding l) v (lg_dev l) (lh_n l) (lh_block l).
Definition w_n (v : Z) (l : log_state) : log_state :=
  Log (lg_lock l) (lg_start l) (lg_size l) (lg_outstanding l) (lg_committing l) (lg_dev l) v (lh_block l).
Definition w_block (i : nat) (v : Z) (l : log_state) : log_state :=
  Log (lg_lock l) (lg_start l) (lg_size l) (lg_outstanding l) (lg_committing l) (lg_dev l) (lh_n l)
    (<[i := v]> (lh_block l)).

(** [log.lh.block[i] = v], which must be inside the array. *)
Definition set_block (i : nat) (v : Z) : M log_sys unit := λ s,
  if (i <? length (lh_block (ls_log s)))%nat then Ok (tt, put LLG (w_block i v (ls_log s)) s) else Fault.
Definition log_get {T} (f : log_state → T) : M log_sys T := mget (λ s, f (ls_log s)).
Definition log_mod (f : log_state → log_state) : M log_sys unit := zoom LLG (mmod f).

Section log.
Context `{BlockDriver}.
Variable mypid : Z.

(** * Operations *)

Definition decode_sb (d : list Z) : superblock :=
  Superblock (get32 d 0) (get32 d 4) (get32 d 8) (get32 d 12) (get32 d 16) (get32 d 20) (get32 d 24).

Definition readsb (dev : Z) : M bcache_state superblock :=
  bp ← bread mypid dev 1;
  d ← bderef (Some bp) b_data;
  brelse mypid bp;;
  mret (decode_sb d).

(** The loop of [install_trans] from [tail] on. *)
Fixpoint install_trans_loop (n tail : nat) : M log_sys unit :=
  match n with
  | O => mret tt
  | S n =>
      dev ← log_get lg_dev;
      start ← log_get lg_start;
      lbuf ← zoom LBC (bread mypid dev (u32 (start + Z.of_nat tail + 1)));
      block ← log_get lh_block;
      bno ← mopt (block !! tail);
      dbuf ← zoom LBC (bread mypid dev bno);
      d ← zoom LBC (bderef (Some lbuf) b_data);
      zoom LBC (bassign (Some dbuf) (f_data d));;
      zoom LBC (bwrite mypid dbuf);;
      zoom LBC (brelse mypid lbuf);;
      zoom LBC (brelse mypid dbuf);;
      install_trans_loop n (S tail)
  end.

Definition install_trans : M log_sys unit :=
  n ← log_get lh_n;
  install_trans_loop (Z.to_nat n) 0.

Fixpoint read_head_loop (n i : nat) (d : list Z) : M log_sys unit :=
  match n with
  | O => mret tt
  | S n => set_block i (get32 d (4 + 4 * i));; read_head_loop n (S i) d
  end.

Definition read_head : M log_sys unit :=
  dev ← log_get lg_dev;
  start ← log_get lg_start;
  b ← zoom LBC (bread mypid dev start);
  d ← zoom LBC (bderef (Some b) b_data);
  log_mod (w_n (s32 (get32 d 0)));;
  n ← log_get lh_n;
  read_head_loop (Z.to_nat n) 0 d;;
  zoom LBC (brelse mypid b).

(** The header as [write_head] leaves it in the buffer. *)
Definition encode_head (d : list Z) (n : Z) (block : list Z) : list Z :=
  put_words (put32 d 0 (u32 n)) 4 (take (Z.to_nat n) block).

Definition write_head : M log_sys unit :=
  dev ← log_get lg_dev;
  start ← log_get lg_start;
  b ← zoom LBC (bread mypid dev start);
  d ← zoom LBC (bderef (Some b) b_data);
  n ← log_get lh_n;
  block ← log_get lh_block;
  zoom LBC (bassign (Some b) (f_data (encode_head d n block)));;
  zoom LBC (bwrite mypid b);;
  zoom LBC (brelse mypid b).

Definition recover_from_log : M log_sys unit :=
  read_head;;
  install_trans;;
  log_mod (w_n 0);;
  write_head.

(** [sizeof(struct logheader)] is 124, below [BSIZE]. *)
Definition initlog (dev : Z) : M log_sys unit :=
  zoom llk (mmod (λ _, false));;
  sb ← zoom LBC (readsb dev);
  log_mod (w_place dev (sb_logstart sb) (sb_nlog sb));;
  recover_from_log.

Definition begin_op : M log_sys unit :=
  acquire llk;;
  l ← log_get id;
  if lg_committing l then mblock
  else if LOGSIZE <? lh_n l + (lg_outstanding l + 1) * MAXOPBLOCKS then mblock
  else
    log_mod (w_outstanding (lg_outstanding l + 1));;
    release llk.

Fixpoint write_log_loop (n tail : nat) : M log_sys unit :=
  match n with
  | O => mret tt
  | S n =>
      dev ← log_get lg_dev;
      start ← log_get lg_start;
      to ← zoom LBC (bread mypid dev (u32 (start + Z.of_nat tail + 1)));
      block ← log_get lh_block;
      bno ← mopt (block !! tail);
      from ← zoom LBC (bread mypid dev bno);
      d ← zoom LBC (bderef (Some from) b_data);
      zoom LBC (bassign (Some to) (f_data d));;
      zoom LBC (bwrite mypid to);;
      zoom LBC (brelse mypid from);;
      zoom LBC (brelse mypid to);;
      write_log_loop n (S tail)
  end.

Definition write_log : M log_sys unit :=
  n ← log_get lh_n;
  write_log_loop (Z.to_nat n) 0.

Definition commit : M log_sys unit :=
  n ← log_get lh_n;
  if 0 <? n then
    write_log;;
    write_head;;
    install_trans;;
    log_mod (w_n 0);;
    write_head
  else mret tt.

Definition end_op : M log_sys unit :=
  acquire llk;;
  l ← log_get id;
  log_mod (w_outstanding (lg_outstanding l - 1));;
  l ← log_get id;
  if lg_committing l then mpanic "log.committing"
  else if lg_outstanding l =? 0 then
    log_mod (w_committing true);;
    release llk;;
    commit;;
    acquire llk;;
    log_mod (w_committing false);;
    release llk
  else release llk.

(** The search of [log_write]: the index of the block, or [n]. *)
Fixpoint absorb (n : nat) (block : list Z) (bno : Z) : nat :=
  match n, block with
  | S n, b :: block => if b =? bno then O else S (absorb n block bno)
  | _, _ => O
  end.

Definition log_write (b : nat) : M log_sys unit :=
  l ← log_get id;
  if (LOGSIZE <=? lh_n l) || (lg_size l - 1 <=? lh_n l) then mpanic "too big a transaction"
  else if lg_outstanding l <? 1 then mpanic "log_write outside of trans"
  else
    acquire llk;;
    bno ← zoom LBC (bderef (Some b) b_blockno);
    let i := absorb (Z.to_nat (lh_n l)) (lh_block l) bno in
    set_block i bno;;
    (if Z.of_nat i =? lh_n l then log_mod (w_n (lh_n l + 1)) else mret tt);;
    f ← zoom LBC (bderef (Some b) b_flags);
    zoom LBC (bassign (Some b) (f_flags (Z.lor f B_DIRTY)));;
    release llk.

(** * Writes of the log *)
Context {DOk : BlockDriverOk _}.

(** The writes [W], in their order, on top of a disk and of a view. *)
Definition disk_app (d : disk) (W : list (Z * Z * list Z)) : disk :=
  Disk (d_init d) (reverse W ++ d_writes d).
Definition view_app (V : blocks) (W : list (Z * Z * list Z)) : blocks := apply_writes (reverse W) V.

(** Home blocks get the contents of the log blocks from [start + tail + 1]. *)
Fixpoint install_writes (dev start : Z) (V : blocks) (tail : nat) (hs : list Z) : list (Z * Z * list Z) :=
  match hs with
  | [] => []
  | y :: hs => (dev, y, V dev (start + Z.of_nat tail + 1)) :: install_writes dev start V (S tail) hs
  end.

(** Log blocks from [start + tail + 1] get the contents of the home blocks. *)
Fixpoint log_writes (dev start : Z) (V : blocks) (tail : nat) (hs : list Z) : list (Z * Z * list Z) :=
  match hs with
  | [] => []
  | y :: hs => (dev, start + Z.of_nat tail + 1, V dev y) :: log_writes dev start V (S tail) hs
  end.

Lemma apply_writes_app W W' V : apply_writes (W ++ W') V = apply_writes W (apply_writes W' V).
Proof. induction W as [|[[dev bno] data] W IH]; simpl; [done|]. by rewrite IH. Qed.

Lemma disk_app_nil d : disk_app d [] = d.
Proof. by destruct d. Qed.
Lemma disk_app_cons d dev bno data W :
  disk_app d ((dev, bno, data) :: W) = disk_app (disk_upd dev bno data d) W.
Proof. unfold disk_app. simpl. by rewrite reverse_cons, <-app_assoc. Qed.
Lemma disk_app_app d W W' : disk_app d (W ++ W') = disk_app (disk_app d W) W'.
Proof. unfold disk_app. simpl. by rewrite reverse_app, <-app_assoc. Qed.
Lemma view_app_cons V dev bno data W :
  view_app V ((dev, bno, data) :: W) = view_app (blocks_upd dev bno data V) W.
Proof. unfold view_app. by rewrite reverse_cons, apply_writes_app. Qed.
Lemma view_app_app V W W' : view_app V (W ++ W') = view_app (view_app V W) W'.
Proof. unfold view_app. by rewrite reverse_app, apply_writes_app. Qed.
Lemma disk_app_blocks d W : disk_blocks (disk_app d W) = view_app (disk_blocks d) W.
Proof. unfold disk_blocks, disk_app, view_app. simpl. by rewrite apply_writes_app. Qed.

Lemma blocks_upd_ne dev bno data V x y : (x, y) ≠ (dev, bno) → blocks_upd dev bno data V x y = V x y.
Proof.
  intros Hne. unfold blocks_upd. destruct (Z.eqb_spec x dev) as [->|], (Z.eqb_spec y bno) as [->|]; done.
Qed.
Lemma blocks_upd_eq dev bno data V : blocks_upd dev bno data V dev bno = data.
Proof. unfold blocks_upd. by rewrite !Z.eqb_refl. Qed.

Lemma install_writes_ext dev start V V' tail hs :
  (∀ k, Z.of_nat tail < k ≤ Z.of_nat tail + Z.of_nat (length hs) → V dev (start + k) = V' dev (start + k)) →
  install_writes dev start V tail hs = install_writes dev start V' tail hs.
Proof.
  revert tail. induction hs as [|y hs IH]; intros tail HV; [done|]. simpl in *. f_equal.
  - do 2 f_equal. replace (start + Z.of_nat tail + 1) with (start + (Z.of_nat tail + 1)) by lia. apply HV. lia.
  - apply IH. intros k Hk. apply HV. lia.
Qed.

Lemma log_writes_ext dev start V V' tail hs :
  (∀ y, y ∈ hs → V dev y = V' dev y) → log_writes dev start V tail hs = log_writes dev start V' tail hs.
Proof.
  revert tail. induction hs as [|y hs IH]; intros tail HV; [done|]. simpl. f_equal.
  - do 2 f_equal. apply HV. set_solver.
  - apply IH. intros z Hz. apply HV. set_solver.
Qed.

(** A block that no write names keeps its contents. *)
Lemma view_app_other V W x y : (∀ w, w ∈ W → w.1 ≠ (x, y)) → view_app V W x y = V x y.
Proof.
  revert V. induction W as [|[[dev bno] data] W IH]; intros V HW; [done|].
  rewrite view_app_cons, IH by (intros w Hw; apply HW; set_solver).
  apply blocks_upd_ne. intros E. apply (HW (dev, bno, data)); [set_solver|done].
Qed.

Lemma install_writes_keys dev start V tail hs w : w ∈ install_writes dev start V tail hs →
  ∃ y, y ∈ hs ∧ w.1 = (dev, y).
Proof.
  revert tail. induction hs as [|y hs IH]; intros tail; simpl; [set_solver|].
  intros [->|Hw]%elem_of_cons; [exists y; set_solver|]. destruct (IH _ Hw) as (z & ? & ?). exists z. set_solver.
Qed.

Lemma log_writes_keys dev start V tail hs w : w ∈ log_writes dev start V tail hs →
  ∃ k, Z.of_nat tail < k ≤ Z.of_nat tail + Z.of_nat (length hs) ∧ w.1 = (dev, start + k).
Proof.
  revert tail. induction hs as [|y hs IH]; intros tail; simpl; [set_solver|].
  intros [->|Hw]%elem_of_cons.
  - exists (Z.of_nat tail + 1). split; [lia|]. simpl. f_equal. lia.
  - destruct (IH _ Hw) as (k & ? & ?). exists k. split; [lia|done].
Qed.

(** What the loops over the header need of the log at [start] and the blocks
    [hs] that remain from [tail] on. *)
Record log_ready (D : gset (Z * Z)) (dev start : Z) (tail : nat) (hs : list Z) : Prop := {
  lr_dev : dev ≠ 0;
  lr_log : ∀ k, Z.of_nat tail < k ≤ Z.of_nat tail + Z.of_nat (length hs) →
    is_u32 (start + k) ∧ drv_ok dev (start + k) = true ∧ (dev, start + k) ∉ D ∧ start + k ∉ hs;
  lr_home : ∀ y, y ∈ hs → drv_ok dev y = true ∧ ((dev, y) ∈ D ∨ (1 + size D < NBUF)%nat);
  lr_size : (size D < NBUF)%nat
}.

Lemma log_ready_next D D' dev start tail y hs : log_ready D dev start tail (y :: hs) →
  (∀ z, z ∈ hs → (dev, z) ∈ D → (dev, z) ∈ D') → D' ⊆ D → log_ready D' dev start (S tail) hs.
Proof.
  intros [Hd Hl Hh Hs] Hin Hsub. assert (size D' ≤ size D)%nat by (by apply subseteq_size).
  split; try done; [| |lia].
  - intros k Hk. destruct (Hl k) as (? & ? & Hn & Hnh); [simpl; lia|]. split_and!; try done; set_solver.
  - intros z Hz. destruct (Hh z) as [? [?|?]]; [set_solver| |]; (split; [done|]); [left; auto|right; lia].
Qed.

Lemma install_loop_spec hs tail bc l V D :
  cache mypid bc V ∅ D → log_ready D (lg_dev l) (lg_start l) tail hs → NoDup hs →
  (∀ i y, hs !! i = Some y → lh_block l !! (tail + i)%nat = Some y) →
  let W := install_writes (lg_dev l) (lg_start l) V tail hs in
  ∃ bc', install_trans_loop (length hs) tail (LogSys bc l) = Ok (tt, LogSys bc' l) ∧
    cache mypid bc' (view_app V W) ∅ (D ∖ list_to_set ((lg_dev l,.) <$> hs)) ∧
    bc_disk bc' = disk_app (bc_disk bc) W.
Proof.
  revert tail bc V D. induction hs as [|y hs IH]; intros tail bc V D Hc Hr Hnd Hbl; simpl.
  { exists bc. rewrite disk_app_nil. split_and!; try done. by replace (D ∖ ∅) with D by set_solver. }
  apply NoDup_cons in Hnd as [Hy Hnd]. pose proof Hr as [Hdev Hlog Hhome Hsz].
  set (dev := lg_dev l) in *. set (x := lg_start l + Z.of_nat tail + 1).
  destruct (Hlog (Z.of_nat tail + 1)) as (Hu & Hxok & HxD & Hxy); [simpl; lia|].
  replace (lg_start l + (Z.of_nat tail + 1)) with x in * by (unfold x; lia).
  destruct (Hhome y) as [Hyok Hyget]; [set_solver|].
  destruct (bread_two mypid bc V D dev x y) as (a & b & s1 & s2 & E1 & E2 & Hc2 & Hab & Hd2); try done; [set_solver|].
  destruct (bdata_step mypid s2 V _ D a dev x Hc2) as [E3 _]; [by rewrite lookup_insert_ne, lookup_singleton_eq|].
  destruct (bset_step mypid s2 V _ D b dev y (V dev x) Hc2) as (s3 & E4 & Hc3 & Hd3); [by rewrite lookup_insert_eq|].
  destruct (bwrite_step mypid s3 _ _ D b dev y Hc3) as (s4 & E5 & Hc4 & Hd4); [by rewrite lookup_insert_eq|done|].
  rewrite blocks_upd_eq in Hd4.
  assert (Hcl : V dev x = bc_disk bc dev x) by (by apply (cache_clean mypid bc V ∅ D)).
  assert (Hdk4 : bc_disk s4 = disk_upd dev y (V dev x) (bc_disk bc)) by congruence.
  destruct (brelse_two mypid s4 (blocks_upd dev y (V dev x) V) (D ∖ {[(dev, y)]}) dev x y a b)
    as [(s5 & s6 & E6 & E7 & Hc6 & Hd6) _]; try done.
  { right. rewrite Hdk4, disk_upd_blocks. rewrite !blocks_upd_ne by (intros [= ->]; set_solver). done. }
  { right. by rewrite Hdk4, disk_upd_blocks, !blocks_upd_eq. }
  destruct (IH (S tail) s6 (blocks_upd dev y (V dev x) V) (D ∖ {[(dev, y)]})) as (bc' & E8 & Hc8 & Hd8); try done.
  { eapply log_ready_next; [exact Hr| |set_solver]. intros z Hz HzD. set_solver. }
  { intros i z Hi. rewrite Nat.add_succ_l, <-Nat.add_succ_r. by apply (Hbl (S i)). }
  assert (Hext : install_writes dev (lg_start l) (blocks_upd dev y (V dev x) V) (S tail) hs =
    install_writes dev (lg_start l) V (S tail) hs).
  { apply install_writes_ext. intros k Hk. apply blocks_upd_ne. intros [= E].
    destruct (Hlog k) as (_ & _ & _ & Hn); [simpl; lia|]. set_solver. }
  fold dev in Hc8, Hd8. rewrite Hext in Hc8, Hd8. exists bc'. split_and!.
  - erewrite bind_Ok by reflexivity. erewrite bind_Ok by reflexivity. simpl ls_log. fold dev.
    fold x. rewrite (u32_small x) by apply Hu. kstep E1.
    erewrite bind_Ok by reflexivity. simpl ls_log.
    pose proof (Hbl 0%nat y eq_refl) as Hb0. rewrite Nat.add_0_r in Hb0. rewrite Hb0.
    erewrite bind_Ok by reflexivity. kstep E2. kstep E3. kstep E4. kstep E5. kstep E6. kstep E7. exact E8.
  - rewrite view_app_cons. by rewrite <-difference_difference_l_L.
  - rewrite disk_app_cons, Hd8. congruence.
Qed.

Lemma write_log_loop_spec hs tail bc l V D :
  cache mypid bc V ∅ D → log_ready D (lg_dev l) (lg_start l) tail hs → NoDup hs →
  (∀ i y, hs !! i = Some y → lh_block l !! (tail + i)%nat = Some y) →
  let W := log_writes (lg_dev l) (lg_start l) V tail hs in
  ∃ bc', write_log_loop (length hs) tail (LogSys bc l) = Ok (tt, LogSys bc' l) ∧
    cache mypid bc' (view_app V W) ∅ D ∧ bc_disk bc' = disk_app (bc_disk bc) W.
Proof.
  revert tail bc V. induction hs as [|y hs IH]; intros tail bc V Hc Hr Hnd Hbl; simpl.
  { exists bc. by rewrite disk_app_nil. }
  apply NoDup_cons in Hnd as [Hy Hnd]. pose proof Hr as [Hdev Hlog Hhome Hsz].
  set (dev := lg_dev l) in *. set (x := lg_start l + Z.of_nat tail + 1).
  destruct (Hlog (Z.of_nat tail + 1)) as (Hu & Hxok & HxD & Hxy); [simpl; lia|].
  replace (lg_start l + (Z.of_nat tail + 1)) with x in * by (unfold x; lia).
  destruct (Hhome y) as [Hyok Hyget]; [set_solver|].
  assert (Hxne : x ≠ y) by (intros ->; set_solver).
  destruct (bread_two mypid bc V D dev x y) as (a & b & s1 & s2 & E1 & E2 & Hc2 & Hab & Hd2); try done.
  destruct (bdata_step mypid s2 V _ D b dev y Hc2) as [E3 _]; [by rewrite lookup_insert_eq|].
  destruct (bset_step mypid s2 V _ D a dev x (V dev y) Hc2) as (s3 & E4 & Hc3 & Hd3);
    [by rewrite lookup_insert_ne, lookup_singleton_eq|].
  destruct (bwrite_step mypid s3 _ _ D a dev x Hc3) as (s4 & E5 & Hc4 & Hd4);
    [by rewrite lookup_insert_ne, lookup_singleton_eq|done|].
  rewrite blocks_upd_eq in Hd4. replace (D ∖ {[(dev, x)]}) with D in Hc4 by set_solver.
  assert (Hdk4 : bc_disk s4 = disk_upd dev x (V dev y) (bc_disk bc)) by congruence.
  destruct (brelse_two mypid s4 (blocks_upd dev x (V dev y) V) D dev x y a b)
    as [_ (s5 & s6 & E6 & E7 & Hc6 & Hd6)]; try done.
  { right. by rewrite Hdk4, disk_upd_blocks, !blocks_upd_eq. }
  { destruct (decide ((dev, y) ∈ D)) as [?|Hn]; [by left|right].
    rewrite Hdk4, disk_upd_blocks. rewrite !blocks_upd_ne by congruence.
    by apply (cache_clean mypid bc V ∅ D). }
  destruct (IH (S tail) s6 (blocks_upd dev x (V dev y) V)) as (bc' & E8 & Hc8 & Hd8); try done.
  { eapply log_ready_next; [exact Hr|done|done]. }
  { intros i z Hi. rewrite Nat.add_succ_l, <-Nat.add_succ_r. by apply (Hbl (S i)). }
  assert (Hext : log_writes dev (lg_start l) (blocks_upd dev x (V dev y) V) (S tail) hs =
    log_writes dev (lg_start l) V (S tail) hs).
  { apply log_writes_ext. intros z Hz. apply blocks_upd_ne. intros [= ->]. set_solver. }
  fold dev in Hc8, Hd8. rewrite Hext in Hc8, Hd8. exists bc'. split_and!.
  - erewrite bind_Ok by reflexivity. erewrite bind_Ok by reflexivity. simpl ls_log. fold dev.
    fold x. rewrite (u32_small x) by apply Hu. kstep E1.
    erewrite bind_Ok by reflexivity. simpl ls_log.
    pose proof (Hbl 0%nat y eq_refl) as Hb0. rewrite Nat.add_0_r in Hb0. rewrite Hb0.
    erewrite bind_Ok by reflexivity. kstep E2. kstep E3. kstep E4. kstep E5. kstep E6. kstep E7. exact E8.
  - by rewrite view_app_cons.
  - rewrite disk_app_cons, Hd8. congruence.
Qed.

(** One buffer: read it, replace its contents, write it through. *)
Lemma write_head_spec bc l V D : let dev := lg_dev l in let start := lg_start l in
  cache mypid bc V ∅ D → dev ≠ 0 → drv_ok dev start = true → (size D < NBUF)%nat → (dev, start) ∉ D →
  let d := encode_head (V dev start) (lh_n l) (lh_block l) in
  ∃ bc', write_head (LogSys bc l) = Ok (tt, LogSys bc' l) ∧
    cache mypid bc' (blocks_upd dev start d V) ∅ D ∧ bc_disk bc' = disk_upd dev start d (bc_disk bc).
Proof.
  intros dev start Hc Hdev Hok Hsz HnD d.
  destruct (bread_step mypid bc V ∅ D dev start) as (i & s1 & E1 & _ & Hc1 & Hd1); try done.
  { right. by rewrite map_size_empty. }
  assert (Hi : <[i := (dev, start)]> (∅ : gmap nat (Z * Z)) !! i = Some (dev, start)) by (by rewrite lookup_insert_eq).
  destruct (bdata_step mypid s1 V _ D i dev start Hc1 Hi) as [E2 _].
  destruct (bset_step mypid s1 V _ D i dev start d Hc1 Hi) as (s2 & E3 & Hc2 & Hd2).
  destruct (bwrite_step mypid s2 _ _ D i dev start Hc2 Hi Hok) as (s3 & E4 & Hc3 & Hd3).
  rewrite blocks_upd_eq in Hd3. replace (D ∖ {[(dev, start)]}) with D in Hc3 by set_solver.
  destruct (brelse_step mypid s3 _ _ D i dev start Hc3 Hi) as (s4 & E5 & Hc4 & Hd4).
  { right. by rewrite Hd3, disk_upd_blocks, !blocks_upd_eq. }
  exists s4. rewrite delete_insert_id in Hc4 by done. split_and!; [|done|congruence].
  unfold write_head. erewrite bind_Ok by reflexivity. erewrite bind_Ok by reflexivity. simpl ls_log.
  fold dev start. kstep E1. kstep E2. erewrite bind_Ok by reflexivity. erewrite bind_Ok by reflexivity.
  simpl ls_log. kstep E3. kstep E4. erewrite zoom_Ok by exact E5. done.
Qed.

Lemma read_head_loop_run n i d bc l : (i + n ≤ length (lh_block l))%nat →
  ∃ bl, read_head_loop n i d (LogSys bc l) = Ok (tt, LogSys bc (Log (lg_lock l) (lg_start l) (lg_size l)
      (lg_outstanding l) (lg_committing l) (lg_dev l) (lh_n l) bl)) ∧
    length bl = length (lh_block l) ∧
    ∀ j, bl !! j = if decide (i ≤ j < i + n)%nat then Some (get32 d (4 + 4 * j)) else lh_block l !! j.
Proof.
  revert i l. induction n as [|n IH]; intros i l Hn; cbn [read_head_loop].
  { exists (lh_block l). split; [by destruct l|]. split; [done|]. intros j. by rewrite decide_False by lia. }
  destruct (IH (S i) (w_block i (get32 d (4 + 4 * i)) l)) as (bl & E & Hlen & Hbl).
  { simpl. rewrite length_insert. lia. }
  exists bl. split_and!.
  - unfold set_block. erewrite bind_Ok; [exact E|]. simpl. by rewrite (proj2 (Nat.ltb_lt _ _)) by lia.
  - rewrite Hlen. simpl. apply length_insert.
  - intros j. rewrite Hbl. simpl. destruct (decide (i = j)) as [<-|Hne].
    + rewrite decide_False by lia. rewrite decide_True by lia. apply list_lookup_insert_eq. lia.
    + rewrite list_lookup_insert_ne by done. repeat case_decide; try lia; done.
Qed.

(** The header that a block holds. *)
Definition head_n (d : list Z) : Z := s32 (get32 d 0).
Definition head_blocks (d : list Z) : list Z := words d 4 (Z.to_nat (head_n d)).

Lemma head_blocks_lookup d i y : head_blocks d !! i = Some y →
  (i < Z.to_nat (head_n d))%nat ∧ y = get32 d (4 + 4 * i).
Proof.
  unfold head_blocks, words. rewrite list_lookup_fmap. intros (k & Hk & ->)%fmap_Some.
  apply lookup_seq in Hk as [-> ?]. done.
Qed.

(** [write_head] and [read_head] are inverse to each other. *)
Lemma encode_head_decode d n block : length d = Z.to_nat BSIZE → 0 ≤ n ≤ Z.of_nat (length block) →
  n ≤ LOGSIZE → Forall is_u32 block →
  head_n (encode_head d n block) = n ∧ head_blocks (encode_head d n block) = take (Z.to_nat n) block ∧
  length (encode_head d n block) = Z.to_nat BSIZE.
Proof.
  intros Hd Hn Hmax Hb. set (l := take (Z.to_nat n) block).
  assert (Hl : length l = Z.to_nat n) by (unfold l; rewrite length_take; lia).
  assert (Hp : length (put32 d 0 (u32 n)) = Z.to_nat BSIZE) by (rewrite put32_length; lia).
  assert (Hh : head_n (encode_head d n block) = n).
  { unfold head_n, encode_head. fold l. rewrite put_words_ne by (rewrite ?Hp; lia).
    rewrite get32_put32 by (lia || apply u32_range). rewrite u32_small by lia. apply s32_small. lia. }
  split_and!; [done| |].
  - unfold head_blocks. rewrite Hh, <-Hl. unfold encode_head. fold l. apply words_put_words; [rewrite Hp; lia|].
    by apply Forall_take.
  - unfold encode_head. fold l. rewrite put_words_length; [done|rewrite Hp; lia].
Qed.

Lemma read_head_spec bc l V D : let dev := lg_dev l in let start := lg_start l in
  cache mypid bc V ∅ D → dev ≠ 0 → drv_ok dev start = true → (size D < NBUF)%nat → (dev, start) ∉ D →
  let d := V dev start in
  head_n d ≤ LOGSIZE → length (lh_block l) = Z.to_nat LOGSIZE →
  ∃ bc' bl, read_head (LogSys bc l) = Ok (tt, LogSys bc' (Log (lg_lock l) start (lg_size l)
      (lg_outstanding l) (lg_committing l) dev (head_n d) bl)) ∧
    cache mypid bc' V ∅ D ∧ bc_disk bc' = bc_disk bc ∧ length bl = Z.to_nat LOGSIZE ∧
    ∀ i y, head_blocks d !! i = Some y → bl !! i = Some y.
Proof.
  intros dev start Hc Hdev Hok Hsz HnD d Hn Hlen.
  destruct (bread_step mypid bc V ∅ D dev start) as (i & s1 & E1 & _ & Hc1 & Hd1); try done.
  { right. by rewrite map_size_empty. }
  assert (Hi : <[i := (dev, start)]> (∅ : gmap nat (Z * Z)) !! i = Some (dev, start)) by (by rewrite lookup_insert_eq).
  destruct (bdata_step mypid s1 V _ D i dev start Hc1 Hi) as [E2 _].
  destruct (brelse_step mypid s1 _ _ D i dev start Hc1 Hi) as (s2 & E3 & Hc2 & Hd2).
  { right. rewrite Hd1. by apply (cache_clean mypid bc V ∅ D). }
  rewrite delete_insert_id in Hc2 by done.
  destruct (read_head_loop_run (Z.to_nat (head_n d)) 0 d s1 (w_n (head_n d) l)) as (bl & E4 & Hbl & Hlk).
  { simpl. rewrite Hlen. lia. }
  exists s2, bl. split_and!; [|done|congruence|by rewrite Hbl|].
  - unfold read_head. erewrite bind_Ok by reflexivity. erewrite bind_Ok by reflexivity. simpl ls_log.
    fold dev start. kstep E1. kstep E2. erewrite bind_Ok by reflexivity. erewrite bind_Ok by reflexivity.
    simpl ls_log. fold (head_n d). erewrite bind_Ok by exact E4. erewrite zoom_Ok by exact E3. done.
  - intros j y [Hj ->]%head_blocks_lookup. rewrite Hlk. by rewrite decide_True by lia.
Qed.

(** * Recovery *)
Lemma recover_spec bc l V : let dev := lg_dev l in let start := lg_start l in
  let d := V dev start in let hs := head_blocks d in
  cache mypid bc V ∅ ∅ → drv_ok dev start = true → start ∉ hs →
  log_ready ∅ dev start 0 hs → NoDup hs → head_n d ≤ LOGSIZE → length (lh_block l) = Z.to_nat LOGSIZE →
  ∃ bc' l', recover_from_log (LogSys bc l) = Ok (tt, LogSys bc' l') ∧ lh_n l' = 0 ∧
    lg_dev l' = dev ∧ lg_start l' = start ∧ lg_size l' = lg_size l ∧
    let W := install_writes dev start V 0 hs ++ [(dev, start, put32 d 0 0)] in
    cache mypid bc' (view_app V W) ∅ ∅ ∧ bc_disk bc' = disk_app (bc_disk bc) W.
Proof.
  intros dev start d hs Hc Hok Hst Hr Hnd Hn Hlen. pose proof (lr_dev _ _ _ _ _ Hr) as Hdev.
  pose proof (lr_size _ _ _ _ _ Hr) as Hsz.
  destruct (read_head_spec bc l V ∅) as (bc1 & bl & E1 & Hc1 & Hd1 & Hbl & Hlk); try done.
  set (l1 := Log _ _ _ _ _ _ _ bl) in E1.
  assert (Hhl : length hs = Z.to_nat (head_n d)) by (unfold hs, head_blocks, words; by rewrite length_fmap, length_seq).
  destruct (install_loop_spec hs 0 bc1 l1 V ∅ Hc1) as (bc2 & E2 & Hc2 & Hd2); try done.
  replace (∅ ∖ _) with (∅ : gset (Z * Z)) in Hc2 by set_solver.
  change (lg_dev l1) with dev in *. change (lg_start l1) with start in *.
  destruct (write_head_spec bc2 (w_n 0 l1) _ ∅ Hc2) as (bc3 & E3 & Hc3 & Hd3); try done.
  assert (Hhd : view_app V (install_writes dev start V 0 hs) dev start = d).
  { apply view_app_other. intros w Hw. destruct (install_writes_keys _ _ _ _ _ _ Hw) as (y & Hy & ->).
    intros [= ->]. done. }
  change (lg_dev (w_n 0 l1)) with dev in *. change (lg_start (w_n 0 l1)) with start in *.
  rewrite Hhd in Hc3, Hd3.
  exists bc3, (w_n 0 l1). split_and!; try done.
  - unfold recover_from_log. erewrite bind_Ok by exact E1. unfold install_trans. rewrite bind_assoc.
    erewrite bind_Ok by reflexivity. simpl ls_log. change (lh_n l1) with (head_n d). rewrite <-Hhl.
    erewrite bind_Ok by exact E2. erewrite bind_Ok by reflexivity. exact E3.
  - cbv zeta. rewrite view_app_app, disk_app_app. split; [exact Hc3|]. by rewrite Hd3, Hd2, Hd1.
Qed.

(** * Commit *)

(** Every home block gets the contents it has in the cache. *)
Definition home_writes (dev : Z) (V : blocks) (hs : list Z) : list (Z * Z * list Z) :=
  (λ y, (dev, y, V dev y)) <$> hs.

Lemma install_writes_home dev start V V' tail hs :
  (∀ i y, hs !! i = Some y → V' dev (start + Z.of_nat (tail + i) + 1) = V dev y) →
  install_writes dev start V' tail hs = home_writes dev V hs.
Proof.
  revert tail. induction hs as [|y hs IH]; intros tail HV; [done|]. simpl. f_equal.
  - pose proof (HV 0%nat y eq_refl) as E. rewrite Nat.add_0_r in E. by rewrite E.
  - apply IH. intros i z Hi. specialize (HV (S i) z Hi). rewrite <-Nat.add_succ_comm in HV. done.
Qed.

Lemma log_writes_lookup dev start V V' tail hs i y : hs !! i = Some y →
  view_app V' (log_writes dev start V tail hs) dev (start + Z.of_nat (tail + i) + 1) = V dev y.
Proof.
  revert V' tail i. induction hs as [|z hs IH]; intros V' tail i Hi; [done|]. cbn [log_writes].
  rewrite view_app_cons. destruct i as [|i]; simpl in Hi.
  - injection Hi as ->. rewrite Nat.add_0_r, view_app_other; [apply blocks_upd_eq|].
    intros w Hw. destruct (log_writes_keys _ _ _ _ _ _ Hw) as (k & Hk & ->). intros [=]. lia.
  - rewrite <-Nat.add_succ_comm. by apply IH.
Qed.

Lemma home_writes_keys dev V hs w : w ∈ home_writes dev V hs → ∃ y, y ∈ hs ∧ w.1 = (dev, y).
Proof. intros (y & -> & Hy)%list_elem_of_fmap. eauto. Qed.

Lemma home_writes_lookup dev V V' hs y : y ∈ hs → view_app V' (home_writes dev V hs) dev y = V dev y.
Proof.
  revert V'. induction hs as [|z hs IH]; intros V' Hy; [set_solver|]. unfold home_writes. cbn [fmap list_fmap].
  fold (home_writes dev V hs). rewrite view_app_cons.
  destruct (decide (y ∈ hs)) as [?|Hn]; [by apply IH|].
  assert (y = z) as -> by set_solver. rewrite view_app_other; [apply blocks_upd_eq|].
  intros w (x & Hx & ->)%home_writes_keys. intros [= ->]. done.
Qed.

(** The transaction that [log] holds: its blocks are pinned, the log area is
    apart from them, and the header on disk is empty. *)
Record txn (bc : bcache_state) (l : log_state) (V : blocks) (hs : list Z) : Prop := {
  tx_cache : cache mypid bc V ∅ (list_to_set ((lg_dev l,.) <$> hs));
  tx_hs : take (Z.to_nat (lh_n l)) (lh_block l) = hs;
  tx_n : lh_n l = Z.of_nat (length hs);
  tx_size : (length hs < NBUF)%nat;
  tx_nodup : NoDup hs;
  tx_block : length (lh_block l) = Z.to_nat LOGSIZE ∧ Forall is_u32 (lh_block l);
  tx_dev : lg_dev l ≠ 0;
  tx_log : ∀ k, 0 ≤ k ≤ Z.of_nat (length hs) →
    is_u32 (lg_start l + k) ∧ drv_ok (lg_dev l) (lg_start l + k) = true ∧ lg_start l + k ∉ hs;
  tx_home : ∀ y, y ∈ hs → drv_ok (lg_dev l) y = true;
  tx_head : length (V (lg_dev l) (lg_start l)) = Z.to_nat BSIZE ∧ head_n (V (lg_dev l) (lg_start l)) = 0
}.

Lemma size_pinned dev (hs : list Z) : (size (list_to_set ((dev,.) <$> hs) : gset (Z * Z)) ≤ length hs)%nat.
Proof.
  induction hs as [|y hs IH]; [rewrite fmap_nil, list_to_set_nil, size_empty; lia|].
  rewrite fmap_cons, list_to_set_cons. cbn [length].
  pose proof (size_union_alt ({[(dev, y)]} : gset (Z * Z)) (list_to_set ((dev,.) <$> hs))) as E.
  rewrite size_singleton in E.
  assert (size (list_to_set ((dev,.) <$> hs) ∖ {[(dev, y)]} : gset (Z * Z)) ≤
          size (list_to_set ((dev,.) <$> hs) : gset (Z * Z)))%nat by (apply subseteq_size; set_solver).
  lia.
Qed.

Lemma elem_pinned dev (hs : list Z) y : (dev, y) ∈ (list_to_set ((dev,.) <$> hs) : gset (Z * Z)) ↔ y ∈ hs.
Proof.
  rewrite elem_of_list_to_set, list_elem_of_fmap. split; [intros (z & [= ->] & ?); done|eauto].
Qed.

Lemma txn_ready bc l V hs : txn bc l V hs →
  log_ready (list_to_set ((lg_dev l,.) <$> hs)) (lg_dev l) (lg_start l) 0 hs ∧
  log_ready ∅ (lg_dev l) (lg_start l) 0 hs.
Proof.
  intros Ht. pose proof (size_pinned (lg_dev l) hs). pose proof (tx_size _ _ _ _ Ht) as Hs.
  assert (Hl : ∀ k, Z.of_nat 0 < k ≤ Z.of_nat 0 + Z.of_nat (length hs) →
    is_u32 (lg_start l + k) ∧ drv_ok (lg_dev l) (lg_start l + k) = true ∧ lg_start l + k ∉ hs).
  { intros k Hk. apply (tx_log _ _ _ _ Ht). lia. }
  split; split; try apply Ht.
  - intros k Hk. destruct (Hl k Hk) as (? & ? & ?). split_and!; try done. by rewrite elem_pinned.
  - intros y Hy. split; [by apply Ht|]. left. by apply elem_pinned.
  - lia.
  - intros k Hk. destruct (Hl k Hk) as (? & ? & ?). by split_and!.
  - intros y Hy. split; [by apply Ht|]. right. rewrite size_empty.
    with_strategy transparent [NBUF] (change NBUF with 30%nat). lia.
  - rewrite size_empty. lia.
Qed.

(** The writes of a commit, in their order. *)
Definition commit_writes (l : log_state) (V : blocks) (hs : list Z) : list (Z * Z * list Z) :=
  let dev := lg_dev l in let start := lg_start l in
  let head := encode_head (V dev start) (lh_n l) (lh_block l) in
  log_writes dev start V 0 hs ++ (dev, start, head) :: home_writes dev V hs ++ [(dev, start, put32 head 0 0)].

Lemma log_writes_length dev start V tail hs : length (log_writes dev start V tail hs) = length hs.
Proof. revert tail. induction hs as [|y hs IH]; intros tail; simpl; [done|]. by rewrite IH. Qed.

Lemma commit_run bc l V hs : txn bc l V hs → hs ≠ [] →
  ∃ bc', commit (LogSys bc l) = Ok (tt, LogSys bc' (w_n 0 l)) ∧
    cache mypid bc' (view_app V (commit_writes l V hs)) ∅ ∅ ∧
    bc_disk bc' = disk_app (bc_disk bc) (commit_writes l V hs).
Proof.
  intros Ht Hne. destruct (txn_ready _ _ _ _ Ht) as [Hr _].
  pose proof Ht as [Hc Hhs Hn Hsz Hnd [Hbl Hbu] Hdev Hlog Hhome [Hhl Hh0]].
  set (D := list_to_set ((lg_dev l,.) <$> hs) : gset (Z * Z)) in *.
  set (dev := lg_dev l) in *. set (start := lg_start l) in *.
  assert (HD : (size D < NBUF)%nat) by (pose proof (size_pinned dev hs); unfold D; lia).
  assert (Hin : ∀ i y, hs !! i = Some y → lh_block l !! (0 + i)%nat = Some y).
  { intros i y Hi. rewrite <-Hhs in Hi. by apply lookup_take_Some in Hi as [? _]. }
  destruct (Hlog 0) as (_ & Hok & Hst); [lia|]. rewrite Z.add_0_r in Hok, Hst.
  assert (HnD : (dev, start) ∉ D) by (unfold D; by rewrite elem_pinned).
  destruct (write_log_loop_spec hs 0 bc l V D Hc Hr Hnd Hin) as (bc1 & E1 & Hc1 & Hd1).
  set (V1 := view_app V _) in Hc1.
  assert (Hhd1 : V1 dev start = V dev start).
  { apply view_app_other. intros w Hw. destruct (log_writes_keys _ _ _ _ _ _ Hw) as (k & Hk & ->).
    intros [= E]. fold start in E. lia. }
  destruct (write_head_spec bc1 l V1 D Hc1) as (bc2 & E2 & Hc2 & Hd2); try done.
  fold dev start in Hc2, Hd2. rewrite Hhd1 in Hc2, Hd2. set (H1 := encode_head _ _ _) in Hc2, Hd2.
  destruct (install_loop_spec hs 0 bc2 l _ D Hc2 Hr Hnd Hin) as (bc3 & E3 & Hc3 & Hd3).
  fold dev start in Hc3, Hd3.
  assert (Hiw : install_writes dev start (blocks_upd dev start H1 V1) 0 hs = home_writes dev V hs).
  { apply install_writes_home. intros i y Hi. rewrite blocks_upd_ne by (intros [= E]; lia).
    by apply log_writes_lookup. }
  rewrite Hiw in Hc3, Hd3. replace (D ∖ list_to_set ((dev,.) <$> hs)) with (∅ : gset (Z * Z)) in Hc3
    by (unfold D; set_solver).
  destruct (write_head_spec bc3 (w_n 0 l) _ ∅ Hc3) as (bc4 & E4 & Hc4 & Hd4); try done.
  { rewrite size_empty. lia. }
  change (lg_dev (w_n 0 l)) with dev in *. change (lg_start (w_n 0 l)) with start in *.
  assert (Hhd3 : view_app (blocks_upd dev start H1 V1) (home_writes dev V hs) dev start = H1).
  { rewrite view_app_other; [apply blocks_upd_eq|]. intros w (y & Hy & ->)%home_writes_keys. intros [= ->]. done. }
  rewrite Hhd3 in Hc4, Hd4. change (encode_head H1 _ _) with (put32 H1 0 0) in Hc4, Hd4.
  exists bc4. unfold commit_writes. fold dev start H1. rewrite view_app_app, view_app_cons, view_app_app.
  rewrite disk_app_app, disk_app_cons, disk_app_app. split_and!; [|exact Hc4|].
  - unfold commit. erewrite bind_Ok by reflexivity. cbn [ls_log].
    rewrite (proj2 (Z.ltb_lt 0 (lh_n l))) by (destruct hs; [done|rewrite Hn; simpl; lia]).
    unfold write_log, install_trans. rewrite !bind_assoc. erewrite bind_Ok by reflexivity. cbn [ls_log].
    rewrite Hn, Nat2Z.id. erewrite bind_Ok by exact E1. erewrite bind_Ok by exact E2.
    rewrite bind_assoc. erewrite bind_Ok by reflexivity. cbn [ls_log]. rewrite Hn, Nat2Z.id.
    erewrite bind_Ok by exact E3. erewrite bind_Ok by reflexivity. exact E4.
  - by rewrite Hd4, Hd3, Hd2, Hd1.
Qed.

(** ** Crashes *)

(** Recovery of a disk with an empty header changes the header only; recovery
    of a committed one installs the blocks of the log. *)
Lemma recover_empty bc0 l0 (d : disk) dev start : lg_dev l0 = dev → lg_start l0 = start →
  cache mypid bc0 d ∅ ∅ → bc_disk bc0 = d → dev ≠ 0 → drv_ok dev start = true → (0 < NBUF)%nat →
  head_n (d dev start) = 0 → length (lh_block l0) = Z.to_nat LOGSIZE →
  ∃ s2, recover_from_log (LogSys bc0 l0) = Ok (tt, s2) ∧
    ∀ y, y ≠ start → bc_disk (ls_bc s2) dev y = d dev y.
Proof.
  intros <- <- Hc Hd Hdev Hok HN Hn Hlen.
  assert (Hh : head_blocks (d (lg_dev l0) (lg_start l0)) = []) by (unfold head_blocks; by rewrite Hn).
  destruct (recover_spec bc0 l0 d) as (bc2 & l2 & E & _ & _ & _ & _ & _ & Hd2); try done; rewrite ?Hh, ?Hn.
  - set_solver.
  - split; try done; [intros k; simpl; lia|set_solver].
  - apply NoDup_nil_2.
  - lia.
  - exists (LogSys bc2 l2). split; [done|]. intros y Hy. simpl. rewrite Hd2, Hd, disk_app_blocks.
    apply view_app_other. intros w. rewrite Hh. simpl. intros ->%list_elem_of_singleton. simpl. congruence.
Qed.

Lemma recover_committed bc l V hs bc0 l0 (d : disk) : txn bc l V hs →
  lg_dev l0 = lg_dev l → lg_start l0 = lg_start l → cache mypid bc0 d ∅ ∅ → bc_disk bc0 = d →
  length (lh_block l0) = Z.to_nat LOGSIZE →
  d (lg_dev l) (lg_start l) = encode_head (V (lg_dev l) (lg_start l)) (lh_n l) (lh_block l) →
  (∀ i y, hs !! i = Some y → d (lg_dev l) (lg_start l + Z.of_nat (0 + i) + 1) = V (lg_dev l) y) →
  ∃ s2, recover_from_log (LogSys bc0 l0) = Ok (tt, s2) ∧
    ∀ y, y ≠ lg_start l → bc_disk (ls_bc s2) (lg_dev l) y =
      if decide (y ∈ hs) then V (lg_dev l) y else d (lg_dev l) y.
Proof.
  intros Ht Edev Est Hc Hd Hlen Hhead Hblocks.
  destruct (txn_ready _ _ _ _ Ht) as [_ Hr].
  pose proof Ht as [_ Hhs Hn Hsz Hnd [Hbl Hbu] Hdev Hlog Hhome [Hhl _]].
  assert (HN : NBUF = 30%nat) by (with_strategy transparent [NBUF] done).
  destruct (encode_head_decode (V (lg_dev l) (lg_start l)) (lh_n l) (lh_block l)) as (Hdn & Hdb & _);
    try done; [lia|lia|]. rewrite <-Hhead, Hhs in Hdb. rewrite <-Hhead in Hdn.
  destruct (Hlog 0) as (_ & Hok & Hst); [lia|]. rewrite Z.add_0_r in Hok, Hst.
  destruct (recover_spec bc0 l0 d) as (bc2 & l2 & E & _ & _ & _ & _ & _ & Hd2); rewrite ?Edev, ?Est, ?Hdb, ?Hdn;
    try done; [lia|].
  exists (LogSys bc2 l2). split; [done|]. intros y Hy. simpl. rewrite Hd2, Hd, disk_app_blocks, Edev, Est, Hdb.
  rewrite (install_writes_home _ _ V) by done. rewrite view_app_app.
  rewrite (view_app_other _ [_]) by (intros w ->%list_elem_of_singleton; simpl; congruence).
  case_decide; [by apply home_writes_lookup|]. apply view_app_other.
  intros w (z & Hz & ->)%home_writes_keys. congruence.
Qed.

(** The disk when the first [k] writes of a commit reached it. *)
Section crash.
Context (bc : bcache_state) (l : log_state) (V : blocks) (hs : list Z) (k : nat) (Ht : txn bc l V hs).
Abbreviation dev := (lg_dev l).
Abbreviation start := (lg_start l).
Abbreviation head := (encode_head (V dev start) (lh_n l) (lh_block l)).
Abbreviation crashed := (disk_app (bc_disk bc) (take k (commit_writes l V hs))).

Lemma txn_clean y : y ∉ hs → V dev y = bc_disk bc dev y.
Proof.
  intros Hy. apply (cache_clean mypid bc V ∅ _ dev y (tx_cache _ _ _ _ Ht)); try done; [apply Ht|by rewrite elem_pinned].
Qed.

Lemma txn_start : drv_ok dev start = true ∧ start ∉ hs.
Proof. destruct (tx_log _ _ _ _ Ht 0) as (_ & Hok & Hst); [lia|]. rewrite Z.add_0_r in Hok, Hst. done. Qed.

Lemma crashed_early y : (k ≤ length hs)%nat → y ≤ start ∨ start + Z.of_nat (length hs) < y →
  crashed dev y = bc_disk bc dev y.
Proof.
  intros Hk Hy. rewrite disk_app_blocks. apply view_app_other. intros w Hw. unfold commit_writes in Hw.
  rewrite take_app_le in Hw by (rewrite log_writes_length; lia).
  apply elem_of_take in Hw as (i & Hw & _). apply list_elem_of_lookup_2 in Hw.
  destruct (log_writes_keys _ _ _ _ _ _ Hw) as (j & Hj & ->). intros [=]. lia.
Qed.

Definition late_writes : list (Z * Z * list Z) :=
  take (k - length hs - 1) (home_writes dev V hs ++ [(dev, start, put32 head 0 0)]).

Lemma crashed_late_writes : (length hs < k)%nat →
  take k (commit_writes l V hs) = log_writes dev start V 0 hs ++ (dev, start, head) :: late_writes.
Proof.
  intros Hk. unfold commit_writes. rewrite take_app_ge by (rewrite log_writes_length; lia). f_equal.
  rewrite log_writes_length. destruct (k - length hs)%nat as [|i] eqn:Ei; [lia|]. cbn [take]. do 2 f_equal.
  unfold late_writes. f_equal. lia.
Qed.

Lemma late_writes_keys w : w ∈ late_writes → ∃ y, (y ∈ hs ∨ y = start) ∧ w.1 = (dev, y).
Proof.
  intros (m & Hw & _)%elem_of_take. apply list_elem_of_lookup_2 in Hw.
  apply elem_of_app in Hw as [(z & Hz & ->)%home_writes_keys| ->%list_elem_of_singleton]; eauto.
Qed.

Lemma crashed_logs i y : (length hs < k)%nat → hs !! i = Some y →
  crashed dev (start + Z.of_nat (0 + i) + 1) = V dev y.
Proof.
  intros Hk Hi. rewrite crashed_late_writes, disk_app_blocks, view_app_app, view_app_cons by done.
  assert (Hil : (i < length hs)%nat) by (by eapply lookup_lt_Some).
  rewrite view_app_other.
  - rewrite blocks_upd_ne by (intros [=]; lia). by apply log_writes_lookup.
  - intros w (z & [Hz| ->] & ->)%late_writes_keys [= E]; [|lia]. subst z.
    destruct (tx_log _ _ _ _ Ht (Z.of_nat i + 1)) as (_ & _ & Hn); [pose proof (tx_size _ _ _ _ Ht); lia|].
    apply Hn. by replace (start + (Z.of_nat i + 1)) with (start + Z.of_nat (0 + i) + 1) by lia.
Qed.

Lemma crashed_home y : (length hs < k)%nat → y < start ∨ start + Z.of_nat (length hs) < y → y ∉ hs →
  crashed dev y = V dev y.
Proof.
  intros Hk Hy Hyn. rewrite txn_clean, crashed_late_writes, disk_app_blocks by done. apply view_app_other.
  intros w [Hw|[-> |Hw]%elem_of_cons]%elem_of_app.
  - destruct (log_writes_keys _ _ _ _ _ _ Hw) as (m & Hm & ->). intros [=]. lia.
  - intros [=]. lia.
  - apply late_writes_keys in Hw as (z & [Hz| ->] & ->); intros [=]; [congruence|lia].
Qed.

Lemma crashed_head : (length hs < k ≤ 2 * length hs + 1)%nat → crashed dev start = head.
Proof.
  intros Hk. rewrite crashed_late_writes, disk_app_blocks, view_app_app, view_app_cons by lia.
  rewrite view_app_other; [apply blocks_upd_eq|]. intros w Hw. unfold late_writes in Hw.
  rewrite take_app_le in Hw by (unfold home_writes; rewrite length_fmap; lia).
  apply elem_of_take in Hw as (m & Hw & _). apply list_elem_of_lookup_2 in Hw.
  apply home_writes_keys in Hw as (z & Hz & ->). intros [= ->]. by apply (proj2 txn_start).
Qed.

Lemma crashed_complete : (2 * length hs + 1 < k)%nat →
  head_n (crashed dev start) = 0 ∧
  ∀ y, y < start ∨ start + Z.of_nat (length hs) < y → crashed dev y = V dev y.
Proof.
  intros Hk. assert (HT : late_writes = home_writes dev V hs ++ [(dev, start, put32 head 0 0)]).
  { unfold late_writes. apply take_ge. unfold home_writes. rewrite length_app, length_fmap. simpl. lia. }
  split.
  - rewrite crashed_late_writes, HT, disk_app_blocks, view_app_app, view_app_cons, view_app_app by lia.
    rewrite view_app_cons. unfold view_app at 1. simpl. rewrite blocks_upd_eq. unfold head_n.
    rewrite get32_put32; [done| |done].
    pose proof Ht as [_ _ Hn Hsz _ [Hbl Hbu] _ _ _ [Hhl _]].
    assert (HN : NBUF = 30%nat) by (with_strategy transparent [NBUF] done).
    destruct (encode_head_decode (V dev start) (lh_n l) (lh_block l)) as (_ & _ & ->); try done; lia.
  - intros y Hy. destruct (decide (y ∈ hs)) as [Hin|Hn']; [|apply crashed_home; try done; lia].
    rewrite crashed_late_writes, HT, disk_app_blocks, view_app_app, view_app_cons, view_app_app by lia.
    rewrite (view_app_other _ [_]) by (intros w ->%list_elem_of_singleton; simpl; intros [=]; lia).
    by apply home_writes_lookup.
Qed.
End crash.

(** C2. A crash at any point of a commit loses nothing but whole transactions:
    whichever prefix of the writes of [commit] reached the disk, the recovery
    that runs at the next boot succeeds and leaves every block outside the log
    as it was before the transaction, if the crash came before the header
    write, or as the transaction has it, if it came after. *)
Theorem commit_crash_safe bc l V hs (k : nat) bc0 l0 :
  txn bc l V hs → hs ≠ [] →
  ∃ bc', commit (LogSys bc l) = Ok (tt, LogSys bc' (w_n 0 l)) ∧
    let W := commit_writes l V hs in
    bc_disk bc' = disk_app (bc_disk bc) W ∧ length W = (2 * length hs + 2)%nat ∧
    (cache mypid bc0 (disk_app (bc_disk bc) (take k W)) ∅ ∅ →
     bc_disk bc0 = disk_app (bc_disk bc) (take k W) → lg_dev l0 = lg_dev l → lg_start l0 = lg_start l →
     length (lh_block l0) = Z.to_nat LOGSIZE →
     ∃ s2, recover_from_log (LogSys bc0 l0) = Ok (tt, s2) ∧
       ∀ y, y < lg_start l ∨ lg_start l + Z.of_nat (length hs) < y →
         bc_disk (ls_bc s2) (lg_dev l) y =
           if decide (k ≤ length hs)%nat then bc_disk bc (lg_dev l) y else V (lg_dev l) y).
Proof.
  intros Ht Hne. destruct (commit_run _ _ _ _ Ht Hne) as (bc' & E & _ & Hd). exists bc'. split; [done|].
  intros W. split; [done|]. split.
  { unfold W, commit_writes. rewrite length_app, log_writes_length. simpl.
    unfold home_writes. rewrite length_app, length_fmap. simpl. lia. }
  intros Hc0 Hd0 Edev Est Hlen. destruct (txn_start _ _ _ _ Ht) as [Hok Hst].
  assert (HN : (0 < NBUF)%nat) by (with_strategy transparent [NBUF] (change NBUF with 30%nat); lia).
  pose proof (tx_dev _ _ _ _ Ht) as Hdev.
  destruct (decide (k ≤ length hs)%nat) as [Hk|Hk].
  - pose proof (crashed_early bc l V hs k) as Hd'.
    edestruct recover_empty as (s2 & E2 & H2); [exact Edev|exact Est|exact Hc0|done..| |done|].
    { unfold W. rewrite Hd' by lia. rewrite <- (txn_clean _ _ _ _ Ht) by done. apply (tx_head _ _ _ _ Ht). }
    exists s2. split; [done|]. intros y Hy. rewrite H2 by lia. apply Hd'; [done|lia].
  - destruct (decide (k ≤ 2 * length hs + 1)%nat) as [Hj|Hj].
    + edestruct recover_committed as (s2 & E2 & H2);
        [exact Ht|exact Edev|exact Est|exact Hc0|done|done|apply (crashed_head _ _ _ _ _ Ht); lia| |].
      { intros i y Hi. apply (crashed_logs _ _ _ _ _ Ht); [lia|done]. }
      exists s2. split; [done|]. intros y Hy. rewrite H2 by lia. case_decide; [done|].
      apply (crashed_home _ _ _ _ _ Ht); (done || lia).
    + destruct (crashed_complete _ _ _ _ k Ht) as [Hn0 Hall]; [lia|].
      edestruct recover_empty as (s2 & E2 & H2); [exact Edev|exact Est|exact Hc0|done..|].
      exists s2. split; [done|]. intros y Hy. rewrite H2 by lia. by apply Hall.
Qed.

(** * Transactions *)

Lemma absorb_spec n block bno : (n ≤ length block)%nat →
  (bno ∈ take n block → ∃ i, absorb n block bno = i ∧ (i < n)%nat ∧ block !! i = Some bno) ∧
  (bno ∉ take n block → absorb n block bno = n).
Proof.
  revert block. induction n as [|n IH]; intros block Hn; [split; [intros Hin; by apply elem_of_nil in Hin|done]|].
  destruct block as [|b block]; [simpl in Hn; lia|]. cbn [absorb take].
  destruct (IH block) as [IH1 IH2]; [simpl in Hn; lia|]. destruct (Z.eqb_spec b bno) as [->|Hne].
  - split; [|set_solver]. intros _. exists 0%nat. split_and!; [done|lia|done].
  - split.
    + intros [->|Hin]%elem_of_cons; [done|]. destruct (IH1 Hin) as (i & -> & ? & ?). exists (S i).
      split_and!; [done|lia|done].
    + intros Hno. f_equal. apply IH2. set_solver.
Qed.

(** A transaction in progress: the header in memory names the blocks [hs],
    which are pinned in the cache. *)
Record tx (s : log_sys) (V : blocks) (Hd : gmap nat (Z * Z)) (hs : list Z) : Prop := {
  tp_cache : cache mypid (ls_bc s) V Hd (list_to_set ((lg_dev (ls_log s),.) <$> hs));
  tp_hs : take (Z.to_nat (lh_n (ls_log s))) (lh_block (ls_log s)) = hs;
  tp_n : lh_n (ls_log s) = Z.of_nat (length hs);
  tp_len : length (lh_block (ls_log s)) = Z.to_nat LOGSIZE;
  tp_lock : lg_lock (ls_log s) = false;
  tp_out : 1 ≤ lg_outstanding (ls_log s)
}.

(** The header after one more block. *)
Definition logged (hs : list Z) (bno : Z) : list Z := if decide (bno ∈ hs) then hs else hs ++ [bno].

(** [b] is the log with the header [hs] of length [n]. *)
Definition same_log (l l' : log_state) : Prop :=
  lg_dev l' = lg_dev l ∧ lg_start l' = lg_start l ∧ lg_size l' = lg_size l ∧
  lg_outstanding l' = lg_outstanding l.

Lemma log_write_step s V Hd hs i bno : tx s V Hd hs → Hd !! i = Some (lg_dev (ls_log s), bno) →
  Z.of_nat (length hs) < LOGSIZE → Z.of_nat (length hs) < lg_size (ls_log s) - 1 →
  ∃ s', log_write i s = Ok (tt, s') ∧ tx s' V Hd (logged hs bno) ∧
    bc_disk (ls_bc s') = bc_disk (ls_bc s) ∧ same_log (ls_log s) (ls_log s').
Proof.
  destruct s as [bc [lk st sz ou co dv n bl]]. intros [Hc Hhs Hn Hlen Hlk Hou] Hi H1 H2. simpl in *. subst lk.
  rewrite <-Hn in H1, H2. unfold log_write. erewrite bind_Ok by reflexivity. cbn [ls_log id lh_n lg_size lg_outstanding].
  rewrite (proj2 (Z.leb_gt _ _)) by done. rewrite (proj2 (Z.leb_gt (sz - 1) _)) by done. simpl orb. cbv iota.
  rewrite (proj2 (Z.ltb_ge _ _)) by done. simpl.
  erewrite bind_Ok by reflexivity.
  destruct (bdata_step mypid bc V Hd _ i dv bno Hc Hi) as [_ E1]. kstep E1.
  assert (Hnl : (Z.to_nat n ≤ length bl)%nat) by lia.
  destruct (absorb_spec (Z.to_nat n) bl bno Hnl) as [Ha1 Ha2]. rewrite Hhs in Ha1, Ha2.
  destruct (bpin_step mypid bc V Hd _ i dv bno Hc Hi) as (f & bc' & E2 & E3 & Hc' & Hd').
  assert (Hai : (absorb (Z.to_nat n) bl bno < length bl)%nat).
  { destruct (decide (bno ∈ hs)) as [Hin|Hno]; [destruct (Ha1 Hin) as (j & -> & ? & _); lia|].
    rewrite Ha2 by done. lia. }
  unfold set_block. erewrite bind_Ok.
  2: { simpl. rewrite (proj2 (Nat.ltb_lt _ _)) by exact Hai. reflexivity. }
  unfold w_block, logged. simpl. destruct (decide (bno ∈ hs)) as [Hin|Hno].
  - destruct (Ha1 Hin) as (j & -> & Hj & Hbj). rewrite list_insert_id by done.
    rewrite (proj2 (Z.eqb_neq _ n)) by lia. erewrite bind_Ok by reflexivity.
    kstep E2. kstep E3. eexists. split; [reflexivity|]. split; [|done]. split; try done. simpl.
    replace (list_to_set ((dv,.) <$> hs)) with ({[(dv, bno)]} ∪ list_to_set ((dv,.) <$> hs) : gset (Z * Z)); [done|].
    apply elem_pinned with (dev := dv) in Hin. set_solver.
  - rewrite Ha2 by done. rewrite Z2Nat.id by lia. rewrite Z.eqb_refl. erewrite bind_Ok by reflexivity.
    kstep E2. kstep E3. eexists. split; [reflexivity|]. split; [|done]. split; simpl; try done.
    + rewrite fmap_app, list_to_set_app_L. simpl. replace ({[(dv, bno)]} ∪ ∅) with ({[(dv, bno)]} : gset (Z * Z)) by set_solver.
      by rewrite (union_comm_L (list_to_set _)).
    + replace (Z.to_nat (n + 1)) with (S (Z.to_nat n)) by lia.
      rewrite (take_S_r _ _ bno) by (apply list_lookup_insert_eq; lia).
      f_equal. rewrite take_insert_ge by lia. done.
    + rewrite length_app. simpl. lia.
    + by rewrite length_insert.
Qed.

(** [log_write] records the block of a buffer once: it panics when the log
    is full, and otherwise pins the block and adds it at the end of the header
    unless the header has it already. *)
Lemma log_write_records s V Hd (hs : list Z) i bno :
  tx s V Hd hs → Hd !! i = Some (lg_dev (ls_log s), bno) →
  if decide (LOGSIZE ≤ Z.of_nat (length hs) ∨ lg_size (ls_log s) - 1 ≤ Z.of_nat (length hs))
  then log_write i s = Panic "too big a transaction"
  else ∃ s', log_write i s = Ok (tt, s') ∧
    tx s' V Hd (if decide (bno ∈ hs) then hs else hs ++ [bno]) ∧
    bc_disk (ls_bc s') = bc_disk (ls_bc s) ∧ same_log (ls_log s) (ls_log s').
Proof.
  intros Ht Hi. case_decide as Hd0.
  - rewrite <-(tp_n _ _ _ _ Ht) in Hd0. unfold log_write. erewrite bind_Ok by reflexivity. cbn [ls_log id].
    destruct Hd0 as [?|?]; [rewrite (proj2 (Z.leb_le LOGSIZE _)) by done; done|].
    rewrite (proj2 (Z.leb_le (lg_size _ - 1) _)) by done. by rewrite orb_true_r.
  - apply log_write_step; [done|done|lia|lia].
Qed.
End log.

(** A disk of zeroes and a log at block 2 of it. *)
Definition zero_disk : disk := Disk (λ _ _, replicate (Z.to_nat BSIZE) 0) [].
Definition log_at (n : Z) (b : Z) : log_state := Log false 2 30 1 false 1 n (b :: replicate 29 0).

Lemma NBUF_30 : NBUF = 30%nat.
Proof. with_strategy transparent [NBUF] done. Qed.

(** Block 100 held, with new contents. *)
Lemma sample_held data : ∃ bc i, cache 1 bc (blocks_upd 1 100 data zero_disk) {[i := (1, 100)]} ∅ ∧
  disk_blocks (bc_disk bc) = zero_disk.
Proof.
  destruct (@cache_boot (memide 1000) (memide_ok 1000) 1 zero_disk) as (s & _ & Hc & Hd).
  destruct (@bread_step (memide 1000) (memide_ok 1000) 1 s zero_disk ∅ ∅ 1 100 Hc) as (i & s1 & _ & _ & Hc1 & Hd1);
    [done|done|done|right; rewrite map_size_empty, size_empty, NBUF_30; lia|].
  destruct (@bset_step (memide 1000) (memide_ok 1000) 1 s1 _ _ ∅ i 1 100 data Hc1) as (s2 & _ & Hc2 & Hd2); [by rewrite lookup_insert_eq|].
  exists s2, i. split; [done|]. congruence.
Qed.

(** The same block logged and released. *)
Lemma sample_txn data : ∃ bc, txn (H := memide 1000) 1 bc (log_at 1 100) (blocks_upd 1 100 data zero_disk) [100] ∧
  disk_blocks (bc_disk bc) = zero_disk.
Proof.
  destruct (sample_held data) as (s2 & i & Hc2 & Hd2).
  destruct (@bpin_step (memide 1000) (memide_ok 1000) 1 s2 _ _ ∅ i 1 100 Hc2) as (f & s3 & _ & _ & Hc3 & Hd3);
    [by rewrite lookup_singleton_eq|].
  destruct (brelse_step 1 s3 _ _ _ i 1 100 Hc3) as (s4 & _ & Hc4 & Hd4);
    [by rewrite lookup_singleton_eq|left; set_solver|].
  rewrite delete_singleton_eq in Hc4. exists s4. split; [|congruence].
  split; try done.
  - rewrite NBUF_30. simpl. lia.
  - apply NoDup_singleton.
  - split; [done|]. change (Forall is_u32 (100 :: replicate 29 0)). constructor; [done|]. by apply Forall_replicate.
  - simpl. intros k Hk. assert (k = 0 ∨ k = 1) as [->| ->] by lia; (split; [done|split; [done|]]);
      by rewrite list_elem_of_singleton.
  - intros y ->%list_elem_of_singleton. done.
Qed.

Lemma commit_crash_safe_witness : ∃ bc bc' bc0 s2, commit (H := memide 1000) 1 (LogSys bc (log_at 1 100)) =
    Ok (tt, LogSys bc' (log_at 0 100)) ∧
  recover_from_log (H := memide 1000) 1 (LogSys bc0 (log_at 0 0)) = Ok (tt, s2) ∧
  bc_disk (ls_bc s2) 1 100 = [7].
Proof.
  destruct (sample_txn [7]) as (bc & Ht & _). set (V := blocks_upd 1 100 [7] zero_disk) in Ht.
  set (W := commit_writes (log_at 1 100) V [100]).
  destruct (@cache_boot (memide 1000) (memide_ok 1000) 1 (disk_app (bc_disk bc) (take 2 W))) as (bc0 & _ & Hc0 & Hd0).
  destruct (@commit_crash_safe (memide 1000) 1 (memide_ok 1000) bc (log_at 1 100) V [100] 2 bc0 (log_at 0 0) Ht)
    as (bc' & E & _ & _ & Hcrash); [done|].
  destruct (Hcrash Hc0 Hd0) as (s2 & E2 & Hd2); [done|done|done|].
  exists bc, bc', bc0, s2. split; [exact E|]. split; [exact E2|].
  specialize (Hd2 100). cbn [lg_dev log_at] in Hd2. rewrite Hd2 by (right; simpl; lia). done.
Defined.

