(* ===== verification/LogRes.v ===== *)
(** Reservation of log space (begin_op, log_write, end_op of log.c): system
    calls as the steps of a state machine, and the bound on the log they keep. *)

From Stdlib Require Import ZArith Lia.
From stdpp Require Import base numbers strings option gmap sets list list_numbers relations.
From S2P Require Import Prelude Spinlock Sleeplock Mem Block Bio Cache Log.

Section res.
Context `{BlockDriver}.
Variable mypid : Z.

(** A state with, for each system call between its [begin_op] and [end_op],
    the number of blocks it has logged. *)
Inductive tstep : log_sys * list nat → log_sys * list nat → Prop :=
  | ts_begin s s' us : begin_op s = Ok (tt, s') → tstep (s, us) (s', us ++ [0%nat])
  | ts_write s s' us k u b : us !! k = Some u → (u < Z.to_nat MAXOPBLOCKS)%nat →
      log_write b s = Ok (tt, s') → tstep (s, us) (s', <[k := S u]> us)
  | ts_end s s' us k u : us !! k = Some u → end_op mypid s = Ok (tt, s') →
      tstep (s, us) (s', delete k us)
  | ts_cache bc bc' l us : tstep (LogSys bc l, us) (LogSys bc' l, us).

(** Blocks that the calls in progress may still log. *)
Definition reserved (us : list nat) : Z :=
  foldr (λ u r, MAXOPBLOCKS - Z.of_nat u + r) 0 us.

Record res_inv (l : log_state) (us : list nat) : Prop := {
  ri_out : lg_outstanding l = Z.of_nat (length us);
  ri_used : Forall (λ u, u ≤ Z.to_nat MAXOPBLOCKS)%nat us;
  ri_n : 0 ≤ lh_n l;
  ri_room : lh_n l + reserved us ≤ LOGSIZE;
  ri_lock : lg_lock l = false ∧ lg_committing l = false
}.

Lemma reserved_app us vs : reserved (us ++ vs) = reserved us + reserved vs.
Proof. induction us as [|u us IH]; simpl; [done|]. lia. Qed.

Lemma reserved_bounds us : Forall (λ u, u ≤ Z.to_nat MAXOPBLOCKS)%nat us →
  0 ≤ reserved us ≤ MAXOPBLOCKS * Z.of_nat (length us).
Proof. induction 1; simpl; lia. Qed.

Lemma reserved_insert us k u v : us !! k = Some u →
  reserved (<[k := v]> us) = reserved us + Z.of_nat u - Z.of_nat v.
Proof.
  intros Hk. apply list_elem_of_split_length in Hk as (A & B & -> & ->).
  rewrite insert_app_r_alt by done. rewrite Nat.sub_diag. simpl. rewrite !reserved_app. simpl. lia.
Qed.

Lemma reserved_delete us k u : us !! k = Some u →
  reserved (delete k us) = reserved us + Z.of_nat u - MAXOPBLOCKS.
Proof.
  intros Hk. apply list_elem_of_split_length in Hk as (A & B & -> & ->).
  rewrite delete_middle, !reserved_app. simpl. lia.
Qed.

(** The operations of a commit that touch the cache leave [log] alone. *)
Lemma zoom_bc_log {A} (m : M bcache_state A) s a s' : zoom LBC m s = Ok (a, s') → ls_log s' = ls_log s.
Proof. unfold zoom. destruct (m _) as [[? ?]| | | |]; [|done..]. by intros [= <- <-]. Qed.

Ltac log_same :=
  repeat match goal with
  | E : (_ ≫= _) _ = Ok _ |- _ => apply bind_Ok_inv in E as (? & ? & ? & E)
  | E : zoom LBC _ _ = Ok _ |- _ => apply zoom_bc_log in E
  | E : log_get _ _ = Ok _ |- _ => injection E as ? ?; subst
  | E : mopt ?o _ = Ok _ |- _ => destruct o; [injection E as ? ?; subst|discriminate E]
  end.

Lemma write_log_loop_log n tail s u s' : write_log_loop mypid n tail s = Ok (u, s') → ls_log s' = ls_log s.
Proof.
  revert tail s. induction n as [|n IH]; intros tail s E; cbn [write_log_loop] in E; [by injection E as _ <-|].
  log_same. apply IH in E. congruence.
Qed.

Lemma install_loop_log n tail s u s' : install_trans_loop mypid n tail s = Ok (u, s') → ls_log s' = ls_log s.
Proof.
  revert tail s. induction n as [|n IH]; intros tail s E; cbn [install_trans_loop] in E; [by injection E as _ <-|].
  log_same. apply IH in E. congruence.
Qed.

Lemma write_head_log s u s' : write_head mypid s = Ok (u, s') → ls_log s' = ls_log s.
Proof. unfold write_head. intros E. log_same. congruence. Qed.

Lemma commit_log s u s' : commit mypid s = Ok (u, s') →
  ls_log s' = if 0 <? lh_n (ls_log s) then w_n 0 (ls_log s) else ls_log s.
Proof.
  unfold commit, write_log, install_trans. intros E. apply bind_Ok_inv in E as (n & s1 & E1 & E).
  injection E1 as <- <-. destruct (0 <? lh_n (ls_log s)); [|by injection E as _ <-].
  log_same.
  repeat match goal with
  | E : write_log_loop _ _ _ _ = Ok _ |- _ => apply write_log_loop_log in E
  | E : install_trans_loop _ _ _ _ = Ok _ |- _ => apply install_loop_log in E
  | E : write_head _ _ = Ok _ |- _ => apply write_head_log in E
  | E : log_mod _ _ = Ok _ |- _ => injection E as ? ?; subst
  end. simpl in *. congruence.
Qed.

Lemma begin_op_inv s s' us : res_inv (ls_log s) us → begin_op s = Ok (tt, s') →
  res_inv (ls_log s') (us ++ [0%nat]) ∧ lg_size (ls_log s') = lg_size (ls_log s).
Proof.
  destruct s as [bc [lk st sz ou co dv n bl]]. intros [Ho Hu Hn Hr [Hl Hc]]. simpl in *. subst lk co ou.
  unfold begin_op. unfold acquire, release. mred. simpl.
  destruct (Z.ltb_spec 30 (n + (Z.of_nat (length us) + 1) * 10)) as [|Hle]; [done|]. intros [= <-].
  pose proof (reserved_bounds us Hu). split; [|done]. split; simpl; try done.
  - rewrite length_app. simpl. lia.
  - apply Forall_app. split; [done|]. constructor; [lia|constructor].
  - rewrite reserved_app. simpl. lia.
Qed.

Lemma log_write_inv s s' us k u b : res_inv (ls_log s) us → us !! k = Some u →
  (u < Z.to_nat MAXOPBLOCKS)%nat → log_write b s = Ok (tt, s') →
  res_inv (ls_log s') (<[k := S u]> us) ∧ lg_size (ls_log s') = lg_size (ls_log s).
Proof.
  destruct s as [bc [lk st sz ou co dv n bl]]. intros [Ho Hu Hn Hr [Hl Hc]] Hk Hlt E. simpl in *. subst lk co.
  unfold log_write in E. apply bind_Ok_inv in E as (l & s1 & E1 & E). injection E1 as <- <-. cbn [ls_log id] in E.
  destruct (_ || _); [discriminate|]. destruct (_ <? 1); [discriminate|].
  apply bind_Ok_inv in E as ([] & s1 & E1 & E). injection E1 as <-.
  apply bind_Ok_inv in E as (bno & s2 & E2 & E). pose proof (zoom_bc_log _ _ _ _ E2) as L2.
  apply bind_Ok_inv in E as ([] & s3 & E3 & E). unfold set_block in E3. destruct (_ <? _)%nat; [|discriminate].
  injection E3 as <-. cbn [lh_n lh_block] in *.
  apply bind_Ok_inv in E as ([] & s4 & E4 & E).
  apply bind_Ok_inv in E as (f & s5 & E5 & E). pose proof (zoom_bc_log _ _ _ _ E5) as L5.
  apply bind_Ok_inv in E as ([] & s6 & E6 & E). pose proof (zoom_bc_log _ _ _ _ E6) as L6.
  assert (Hs4 : ∃ v bl', (v = n ∨ v = n + 1) ∧ ls_log s4 = Log true st sz ou false dv v bl').
  { destruct (_ =? n); injection E4 as <-; simpl; rewrite L2; unfold w_n, w_block; simpl; eexists _, _;
      (split; [|reflexivity]); auto. }
  destruct Hs4 as (v & bl' & Hv & Hs4). unfold release in E. cbn [view llk] in E. rewrite L6, L5, Hs4 in E.
  simpl in E. injection E as <-. simpl. rewrite L6, L5, Hs4. simpl. split; [|done].
  rewrite Ho. split; simpl; try done.
  - by rewrite length_insert.
  - apply Forall_insert; [done|lia].
  - lia.
  - rewrite (reserved_insert _ _ u) by done. lia.
Qed.

Lemma end_op_inv s s' us k u : res_inv (ls_log s) us → us !! k = Some u → end_op mypid s = Ok (tt, s') →
  res_inv (ls_log s') (delete k us) ∧ lg_size (ls_log s') = lg_size (ls_log s).
Proof.
  destruct s as [bc [lk st sz ou co dv n bl]]. intros [Ho Hu Hn Hr [Hl Hc]] Hk E. simpl in *. subst lk co ou.
  assert (Hlen : (k < length us)%nat) by (by eapply lookup_lt_Some).
  assert (Hdel : length (delete k us) = (length us - 1)%nat) by (by rewrite length_delete by eauto).
  assert (Hfor : Forall (λ u, u ≤ Z.to_nat MAXOPBLOCKS)%nat (delete k us)) by (by apply Forall_delete).
  assert (Hku : (u ≤ Z.to_nat MAXOPBLOCKS)%nat) by exact (Forall_lookup_1 _ _ k u Hu Hk).
  pose proof (reserved_delete _ _ _ Hk) as Hrd. pose proof (reserved_bounds _ Hfor) as Hrb.
  unfold end_op in E. do 4 (apply bind_Ok_inv in E as (? & ? & E1 & E); injection E1 as <- <-).
  cbn in E. destruct (Z.eqb_spec (Z.of_nat (length us) - 1) 0) as [Hz|Hz].
  - do 2 (apply bind_Ok_inv in E as (? & ? & E1 & E); injection E1 as <- <-).
    apply bind_Ok_inv in E as ([] & s1 & E1 & E). apply commit_log in E1. cbn in E1.
    destruct s1 as [bc1 l1]. cbn in E1. subst l1.
    destruct (Z.ltb_spec 0 n); (cbn in E; injection E as <-); simpl; (split; [|done]);
      (split; simpl; [lia|done|lia|lia|done]).
  - cbn in E. injection E as <-. simpl. split; [|done]. split; simpl; [lia|done|lia|lia|done].
Qed.

Lemma res_inv_steps x y : rtc tstep x y → res_inv (ls_log x.1) x.2 →
  res_inv (ls_log y.1) y.2 ∧ lg_size (ls_log y.1) = lg_size (ls_log x.1).
Proof.
  induction 1 as [x|x y z Hs _ IH]; [done|]. intros Hx.
  assert (Hy : res_inv (ls_log y.1) y.2 ∧ lg_size (ls_log y.1) = lg_size (ls_log x.1)).
  { destruct Hs; simpl in *; [by eapply begin_op_inv|by eapply log_write_inv|by eapply end_op_inv|done]. }
  destruct Hy as [Hy Es]. destruct (IH Hy) as [Hz Es']. split; [done|congruence].
Qed.

(** A log with no transaction in progress. *)
Record log_idle (l : log_state) : Prop := {
  li_free : lg_lock l = false ∧ lg_committing l = false;
  li_empty : lg_outstanding l = 0 ∧ lh_n l = 0
}.

Lemma log_idle_inv l : log_idle l → res_inv l [].
Proof. intros [[? ?] [? E]]. split; rewrite ?E; simpl; (done || lia). Qed.

(** C18. [begin_op] reserves enough: however system calls interleave, the header
    never holds more than [LOGSIZE] blocks, and a call that has logged fewer
    than [MAXOPBLOCKS] blocks can log another one without a panic, provided
    the log area has room for [LOGSIZE] blocks besides the header. *)
Theorem log_space_reserved s0 s us : log_idle (ls_log s0) → rtc tstep (s0, []) (s, us) →
  0 ≤ lh_n (ls_log s) ≤ LOGSIZE ∧
  ∀ k u b msg, us !! k = Some u → (u < Z.to_nat MAXOPBLOCKS)%nat → LOGSIZE < lg_size (ls_log s0) →
    log_write b s ≠ Panic msg.
Proof.
  intros Hi Hs. destruct (res_inv_steps _ _ Hs (log_idle_inv _ Hi)) as [[Ho Hu Hn Hr [Hl Hc]] Hsz]. simpl in *.
  pose proof (reserved_bounds us Hu). split; [lia|]. intros k u b msg Hk Hlt Hbig.
  assert (Hres : 1 ≤ reserved us).
  { pose proof (reserved_delete _ _ _ Hk). pose proof (reserved_bounds (delete k us) (Forall_delete _ _ _ Hu)). lia. }
  assert (Hpos : 1 ≤ lg_outstanding (ls_log s)).
  { rewrite Ho. apply lookup_lt_Some in Hk. lia. }
  unfold log_write. erewrite bind_Ok by reflexivity. cbn [ls_log id].
  rewrite (proj2 (Z.leb_gt LOGSIZE _)) by lia. rewrite (proj2 (Z.leb_gt (lg_size _ - 1) _)) by lia. simpl.
  rewrite (proj2 (Z.ltb_ge _ 1)) by done. destruct s as [bc l]. simpl in *.
  unfold acquire, set_block, release, zoom, log_mod, mbind, M_bind, bderef, bassign. simpl. rewrite Hl. simpl.
  destruct (bc_bufs bc !! b) as [bf|] eqn:Eb; [|done]. simpl.
  destruct (_ <? _)%nat; [|done]. simpl. destruct (_ =? _); simpl; rewrite Eb; simpl; by rewrite Eb.
Qed.
End res.

(** Runs of system calls. *)
Inductive tcmd := TBegin | TWrite (k b : nat).

Fixpoint trun (cs : list tcmd) (s : log_sys) (us : list nat) : option (log_sys * list nat) :=
  match cs with
  | [] => Some (s, us)
  | TBegin :: cs => match begin_op s with Ok (_, s') => trun cs s' (us ++ [0%nat]) | _ => None end
  | TWrite k b :: cs =>
      match us !! k with
      | Some u => if (u <? 10)%nat then
                    match log_write b s with Ok (_, s') => trun cs s' (<[k := S u]> us) | _ => None end
                  else None
      | None => None
      end
  end.

Lemma trun_steps `{BlockDriver} pid cs s us y : trun cs s us = Some y → rtc (tstep pid) (s, us) y.
Proof.
  revert s us. induction cs as [|[|k b] cs IH]; intros s us E; simpl in E.
  - by injection E as <-.
  - destruct (begin_op s) as [[[] s']| | | |] eqn:Eb; try done. eapply rtc_l; [by apply ts_begin|by apply IH].
  - destruct (us !! k) as [u|] eqn:Ek; [|done]. destruct (Nat.ltb_spec u 10); [|done].
    destruct (log_write b s) as [[[] s']| | | |] eqn:Eb; try done.
    eapply rtc_l; [by eapply (ts_write pid s s' us k u b)|by apply IH].
Qed.

(** A cache whose buffers have the blocks 100, 101, .., and the log as
    [initlog] finds it on a disk made by mkfs, whose superblock says [LOGSIZE]. *)
Definition sample_bc : bcache_state :=
  Bcache ((λ i, Buf 2 1 (100 + Z.of_nat i) (sl_held 1) 1 None None []) <$> seq 0 30) false (Disk (λ _ _, []) []).
Definition sample_log (size : Z) : log_sys :=
  LogSys sample_bc (Log false 2 size 0 false 1 0 (replicate 30 0)).

(** Three calls that log ten blocks each, but for the last block. *)
Definition three_calls : list tcmd :=
  [TBegin; TBegin; TBegin] ++ (TWrite 0 <$> seq 0 10) ++ (TWrite 1 <$> seq 10 10) ++ (TWrite 2 <$> seq 20 9).

(** With the log area that mkfs makes, of [LOGSIZE] blocks including the
    header, the reservation of [begin_op] is one block short: three system
    calls run at once, and the last of the thirty blocks they have reserved
    makes [log_write] panic. *)
Lemma log_space_one_short : ∃ s us, log_idle (ls_log (sample_log 30)) ∧
  rtc (@tstep (memide 1000) 1) (sample_log 30, []) (s, us) ∧ us = [10; 10; 9]%nat ∧
  log_write 29 s = Panic "too big a transaction".
Proof.
  destruct (trun three_calls (sample_log 30) []) as [[s us]|] eqn:E; [|by vm_compute in E].
  pose proof (@trun_steps (memide 1000) 1 three_calls (sample_log 30) [] (s, us) E) as Hs.
  assert (Hu : us = [10; 10; 9]%nat ∧ log_write 29 s = Panic "too big a transaction").
  { vm_compute in E. injection E as <- <-. split; vm_compute; reflexivity. }
  clear E. exists s, us. by split; [split|].
Qed.

Lemma log_space_reserved_witness : ∃ s us,
  rtc (@tstep (memide 1000) 1) (sample_log 31, []) (s, us) ∧ us = [10; 10; 9]%nat ∧
  lh_n (ls_log s) ≤ 30 ∧ ∀ msg, log_write 29 s ≠ Panic msg.
Proof.
  destruct (trun three_calls (sample_log 31) []) as [[s us]|] eqn:E; [|by vm_compute in E].
  pose proof (@trun_steps (memide 1000) 1 three_calls (sample_log 31) [] (s, us) E) as Hs.
  assert (Hu : us = [10; 10; 9]%nat) by (vm_compute in E; injection E as <- <-; reflexivity).
  clear E. exists s, us.
  assert (Hi : log_idle (ls_log (sample_log 31))) by (by split).
  destruct (@log_space_reserved (memide 1000) 1 (sample_log 31) s us Hi Hs) as [Hn Hw].
  split_and!; [done|done|apply Hn|]. intros msg. apply (Hw 2%nat 9%nat); [by rewrite Hu|lia|done].
Defined.
