(* ===== verification/Fs.v ===== *)
(** The file system (fs.c): blocks, inodes, directories and path names.

    A [struct inode *] is an index of [icache.inode], the null pointer is
    [None].  Short fields of an inode hold signed values.  The bytes that
    [readi] copies to its destination are its result; the caller of [writei]
    passes the bytes.  A path is the list of its bytes without the NUL. *)

From Stdlib Require Import ZArith Lia.
From stdpp Require Import base numbers strings option gmap sets list list_numbers.
From S2P Require Import Prelude Spinlock Sleeplock Mem Block Bio Cache Log.

(** * Data *)
Abbreviation NINODE := 50%nat.
Abbreviation NDIRECT := 12.
Abbreviation NINDIRECT := 128.
Abbreviation MAXFILE := 140.
Abbreviation IPB := 8.
Abbreviation BPB := 4096.
Abbreviation DIRSIZ := 14%nat.
Abbreviation T_DIR := 1.
Abbreviation T_FILE := 2.
Abbreviation T_DEV := 3.
Abbreviation NDEV := 10.
Abbreviation ROOTINO := 1.
Abbreviation ROOTDEV := 1.

Definition s16 (z : Z) : Z := (z + 2 ^ 15) mod 2 ^ 16 - 2 ^ 15.

Record inode := Inode {
  i_dev : Z;
  i_inum : Z;
  i_ref : Z;
  i_lock : sleeplock;
  i_valid : bool;
  i_type : Z;
  i_major : Z;
  i_minor : Z;
  i_nlink : Z;
  i_size : Z;
  i_addrs : list Z
}.

(** [struct dinode] *)
Record dinode := Dinode {
  di_type : Z;
  di_major : Z;
  di_minor : Z;
  di_nlink : Z;
  di_size : Z;
  di_addrs : list Z
}.

Record fs_state := FsState {
  fs_ls : log_sys;
  fs_sb : superblock;
  fs_iclk : bool;
  fs_inode : list inode
}.

Definition FLS : lens fs_state log_sys :=
  Lens fs_ls (λ x s, FsState x (fs_sb s) (fs_iclk s) (fs_inode s)).
Definition FBC : lens fs_state bcache_state :=
  Lens (λ s, ls_bc (fs_ls s)) (λ x s, FsState (LogSys x (ls_log (fs_ls s))) (fs_sb s) (fs_iclk s) (fs_inode s)).
Definition iclk : lens fs_state bool :=
  Lens fs_iclk (λ x s, FsState (fs_ls s) (fs_sb s) x (fs_inode s)).
Definition FIC : lens fs_state (list inode) :=
  Lens fs_inode (λ x s, FsState (fs_ls s) (fs_sb s) (fs_iclk s) x).
Definition FSB : lens fs_state superblock :=
  Lens fs_sb (λ x s, FsState (fs_ls s) x (fs_iclk s) (fs_inode s)).

Definition v_dev v (x : inode) := Inode v (i_inum x) (i_ref x) (i_lock x) (i_valid x) (i_type x) (i_major x)
  (i_minor x) (i_nlink x) (i_size x) (i_addrs x).
Definition v_inum v (x : inode) := Inode (i_dev x) v (i_ref x) (i_lock x) (i_valid x) (i_type x) (i_major x)
  (i_minor x) (i_nlink x) (i_size x) (i_addrs x).
Definition v_ref v (x : inode) := Inode (i_dev x) (i_inum x) v (i_lock x) (i_valid x) (i_type x) (i_major x)
  (i_minor x) (i_nlink x) (i_size x) (i_addrs x).
Definition v_lock v (x : inode) := Inode (i_dev x) (i_inum x) (i_ref x) v (i_valid x) (i_type x) (i_major x)
  (i_minor x) (i_nlink x) (i_size x) (i_addrs x).
Definition v_valid v (x : inode) := Inode (i_dev x) (i_inum x) (i_ref x) (i_lock x) v (i_type x) (i_major x)
  (i_minor x) (i_nlink x) (i_size x) (i_addrs x).
Definition v_type v (x : inode) := Inode (i_dev x) (i_inum x) (i_ref x) (i_lock x) (i_valid x) v (i_major x)
  (i_minor x) (i_nlink x) (i_size x) (i_addrs x).
Definition v_major v (x : inode) := Inode (i_dev x) (i_inum x) (i_ref x) (i_lock x) (i_valid x) (i_type x) v
  (i_minor x) (i_nlink x) (i_size x) (i_addrs x).
Definition v_minor v (x : inode) := Inode (i_dev x) (i_inum x) (i_ref x) (i_lock x) (i_valid x) (i_type x)
  (i_major x) v (i_nlink x) (i_size x) (i_addrs x).
Definition v_nlink v (x : inode) := Inode (i_dev x) (i_inum x) (i_ref x) (i_lock x) (i_valid x) (i_type x)
  (i_major x) (i_minor x) v (i_size x) (i_addrs x).
Definition v_size v (x : inode) := Inode (i_dev x) (i_inum x) (i_ref x) (i_lock x) (i_valid x) (i_type x)
  (i_major x) (i_minor x) (i_nlink x) v (i_addrs x).
Definition v_addrs v (x : inode) := Inode (i_dev x) (i_inum x) (i_ref x) (i_lock x) (i_valid x) (i_type x)
  (i_major x) (i_minor x) (i_nlink x) (i_size x) v.
Definition v_dinode (d : dinode) (x : inode) := Inode (i_dev x) (i_inum x) (i_ref x) (i_lock x) (i_valid x)
  (di_type d) (di_major d) (di_minor d) (di_nlink d) (di_size d) (di_addrs d).

Definition inode_lock : lens inode sleeplock := Lens i_lock v_lock.

(** [ip->f] and [ip->f = ..] for an entry of the inode cache. *)
Definition ifld {T} (ip : nat) (f : inode → T) : M fs_state T := λ s,
  match fs_inode s !! ip with Some x => Ok (f x, s) | None => Fault end.
Definition iset (ip : nat) (g : inode → inode) : M fs_state unit := λ s,
  match fs_inode s !! ip with Some x => Ok (tt, put FIC (<[ip := g x]> (fs_inode s)) s) | None => Fault end.
Definition ilk {A} (ip : nat) (m : M sleeplock A) : M fs_state A := zoom_at FIC ip inode_lock m.

(** A [struct dinode] at a byte offset of a block. *)
Definition get_dinode (d : list Z) (o : nat) : dinode :=
  Dinode (s16 (get16 d o)) (s16 (get16 d (o + 2))) (s16 (get16 d (o + 4))) (s16 (get16 d (o + 6)))
    (get32 d (o + 8)) (words d (o + 12) 13).
Definition put_dinode (d : list Z) (o : nat) (x : dinode) : list Z :=
  put_words (put32 (put16 (put16 (put16 (put16 d o (u16 (di_type x))) (o + 2) (u16 (di_major x)))
    (o + 4) (u16 (di_minor x))) (o + 6) (u16 (di_nlink x))) (o + 8) (di_size x)) (o + 12) (di_addrs x).

Definition dinode_of (x : inode) : dinode :=
  Dinode (i_type x) (i_major x) (i_minor x) (i_nlink x) (i_size x) (i_addrs x).

Definition IBLOCK (i : Z) (sb : superblock) : Z := u32 (i / IPB + sb_inodestart sb).
Definition BBLOCK (b : Z) (sb : superblock) : Z := u32 (b / BPB + sb_bmapstart sb).
Definition dinode_off (inum : Z) : nat := Z.to_nat (64 * (inum mod IPB)).

Section fs.
Context `{BlockDriver}.
Variable mypid : Z.
(** [devsw[major].read] and [.write], if the driver is there. *)
Variable devsw_read : Z → option (nat → Z → M fs_state (Z * list Z)).
Variable devsw_write : Z → option (nat → list Z → M fs_state Z).
(** [myproc()->cwd] *)
Variable cwd : nat.

(** * Blocks *)
Definition bzero (dev bno : Z) : M log_sys unit :=
  bp ← zoom LBC (bread mypid dev bno);
  zoom LBC (bassign (Some bp) (f_data (replicate (Z.to_nat BSIZE) 0)));;
  log_write bp;;
  zoom LBC (brelse mypid bp).

(** Bit [bi] of a bitmap block, and the block with it set or cleared. *)
Definition bm_test (d : list Z) (bi : Z) : bool :=
  negb (Z.land (at8 d (bi / 8)) (Z.shiftl 1 (bi mod 8)) =? 0).
Definition bm_set (d : list Z) (bi : Z) : list Z :=
  splice d (Z.to_nat (bi / 8)) [Z.lor (at8 d (bi / 8)) (Z.shiftl 1 (bi mod 8))].
Definition bm_clear (d : list Z) (bi : Z) : list Z :=
  splice d (Z.to_nat (bi / 8)) [Z.land (at8 d (bi / 8)) (Z.lnot (Z.shiftl 1 (bi mod 8)))].

(** The inner loop of [balloc]: the first clear bit among [n] from [bi]. *)
Fixpoint balloc_scan (n : nat) (bi : Z) (d : list Z) : option Z :=
  match n with
  | O => None
  | S n => if bm_test d bi then balloc_scan n (bi + 1) d else Some bi
  end.

Fixpoint balloc_loop (fuel : nat) (sb : superblock) (dev b : Z) : M log_sys Z :=
  match fuel with
  | O => mnofuel
  | S fuel =>
      if b <? sb_size sb then
        bp ← zoom LBC (bread mypid dev (BBLOCK b sb));
        d ← zoom LBC (bderef (Some bp) b_data);
        match balloc_scan (Z.to_nat (Z.min BPB (sb_size sb - b))) 0 d with
        | Some bi =>
            zoom LBC (bassign (Some bp) (f_data (bm_set d bi)));;
            log_write bp;;
            zoom LBC (brelse mypid bp);;
            bzero dev (b + bi);;
            mret (b + bi)
        | None =>
            zoom LBC (brelse mypid bp);;
            balloc_loop fuel sb dev (b + BPB)
        end
      else mpanic "balloc: out of blocks"
  end.

Definition balloc (dev : Z) : M fs_state Z :=
  sb ← mget fs_sb;
  zoom FLS (balloc_loop (S (Z.to_nat (sb_size sb / BPB + 1))) sb dev 0).

Definition bfree (dev b : Z) : M fs_state unit :=
  sb ← mget fs_sb;
  bp ← zoom FBC (bread mypid dev (BBLOCK b sb));
  let bi := b mod BPB in
  d ← zoom FBC (bderef (Some bp) b_data);
  if negb (bm_test d bi) then mpanic "freeing free block"
  else
    zoom FBC (bassign (Some bp) (f_data (bm_clear d bi)));;
    zoom FLS (log_write bp);;
    zoom FBC (brelse mypid bp).

(** * Inodes *)
Fixpoint iinit_loop (n i : nat) : M fs_state unit :=
  match n with O => mret tt | S n => ilk i initsleeplock;; iinit_loop n (S i) end.

Definition iinit (dev : Z) : M fs_state unit :=
  zoom iclk (mmod (λ _, false));;
  iinit_loop NINODE 0;;
  sb ← zoom FBC (readsb mypid dev);
  zoom FSB (mmod (λ _, sb)).

(** The scan of [iget] from [i] on; [empty] is the free entry seen so far. *)
Fixpoint iget_scan (l : list inode) (i : nat) (dev inum : Z) (empty : option nat) : (option nat) * (option nat) :=
  match l with
  | [] => (None, empty)
  | x :: l =>
      if (0 <? i_ref x) && (i_dev x =? dev) && (i_inum x =? inum) then (Some i, empty)
      else iget_scan l (S i) dev inum
             (match empty with None => if i_ref x =? 0 then Some i else None | Some _ => empty end)
  end.

Definition iget (dev inum : Z) : M fs_state nat :=
  acquire iclk;;
  l ← mget fs_inode;
  match iget_scan l 0 dev inum None with
  | (Some ip, _) =>
      r ← ifld ip i_ref;
      iset ip (v_ref (r + 1));;
      release iclk;;
      mret ip
  | (None, None) => mpanic "iget: no inodes"
  | (None, Some ip) =>
      iset ip (v_dev dev);;
      iset ip (v_inum inum);;
      iset ip (v_ref 1);;
      iset ip (v_valid false);;
      release iclk;;
      mret ip
  end.

Fixpoint ialloc_loop (fuel : nat) (dev type inum : Z) : M fs_state nat :=
  match fuel with
  | O => mnofuel
  | S fuel =>
      sb ← mget fs_sb;
      if inum <? sb_ninodes sb then
        bp ← zoom FBC (bread mypid dev (IBLOCK inum sb));
        d ← zoom FBC (bderef (Some bp) b_data);
        if di_type (get_dinode d (dinode_off inum)) =? 0 then
          zoom FBC (bassign (Some bp) (f_data (put_dinode d (dinode_off inum)
            (Dinode type 0 0 0 0 (replicate 13 0)))));;
          zoom FLS (log_write bp);;
          zoom FBC (brelse mypid bp);;
          iget dev inum
        else
          zoom FBC (brelse mypid bp);;
          ialloc_loop fuel dev type (inum + 1)
      else mpanic "ialloc: no inodes"
  end.

Definition ialloc (dev type : Z) : M fs_state nat :=
  sb ← mget fs_sb;
  ialloc_loop (S (Z.to_nat (sb_ninodes sb))) dev type 1.

Definition iupdate (ip : nat) : M fs_state unit :=
  sb ← mget fs_sb;
  x ← ifld ip id;
  bp ← zoom FBC (bread mypid (i_dev x) (IBLOCK (i_inum x) sb));
  d ← zoom FBC (bderef (Some bp) b_data);
  zoom FBC (bassign (Some bp) (f_data (put_dinode d (dinode_off (i_inum x)) (dinode_of x))));;
  zoom FLS (log_write bp);;
  zoom FBC (brelse mypid bp).

Definition idup (ip : nat) : M fs_state nat :=
  acquire iclk;;
  r ← ifld ip i_ref;
  iset ip (v_ref (r + 1));;
  release iclk;;
  mret ip.

Definition ilock (ip : option nat) : M fs_state unit :=
  match ip with
  | None => mpanic "ilock"
  | Some ip =>
      r ← ifld ip i_ref;
      if r <? 1 then mpanic "ilock"
      else
        ilk ip (acquiresleep mypid);;
        v ← ifld ip i_valid;
        if (v : bool) then mret tt
        else
          sb ← mget fs_sb;
          x ← ifld ip id;
          bp ← zoom FBC (bread mypid (i_dev x) (IBLOCK (i_inum x) sb));
          d ← zoom FBC (bderef (Some bp) b_data);
          iset ip (v_dinode (get_dinode d (dinode_off (i_inum x))));;
          zoom FBC (brelse mypid bp);;
          iset ip (v_valid true);;
          ty ← ifld ip i_type;
          if ty =? 0 then mpanic "ilock: no type" else mret tt
  end.

Definition iunlock (ip : option nat) : M fs_state unit :=
  match ip with
  | None => mpanic "iunlock"
  | Some ip =>
      h ← ilk ip (holdingsleep mypid);
      r ← ifld ip i_ref;
      if negb (h : bool) || (r <? 1) then mpanic "iunlock"
      else ilk ip releasesleep
  end.

(** * Inode content *)

(** [ip->addrs[i]] and [ip->addrs[i] = v]. *)
Definition addr (ip i : nat) : M fs_state Z := l ← ifld ip i_addrs; mopt (l !! i).
Definition set_addr (ip i : nat) (v : Z) : M fs_state unit :=
  l ← ifld ip i_addrs;
  if (i <? length l)%nat then iset ip (v_addrs (<[i := v]> l)) else mfault.

(** Entry [bn] of the indirect block [ind], allocating it if necessary. *)
Definition bmap_indirect (dev ind bn : Z) : M fs_state Z :=
  bp ← zoom FBC (bread mypid dev ind);
  d ← zoom FBC (bderef (Some bp) b_data);
  let v := get32 d (Z.to_nat (4 * bn)) in
  r ← (if v =? 0 then
         a ← balloc dev;
         d ← zoom FBC (bderef (Some bp) b_data);
         zoom FBC (bassign (Some bp) (f_data (put32 d (Z.to_nat (4 * bn)) a)));;
         zoom FLS (log_write bp);;
         mret a
       else mret v);
  zoom FBC (brelse mypid bp);;
  mret r.

Definition bmap (ip : nat) (bn : Z) : M fs_state Z :=
  dev ← ifld ip i_dev;
  if bn <? NDIRECT then
    a ← addr ip (Z.to_nat bn);
    if a =? 0 then a ← balloc dev; set_addr ip (Z.to_nat bn) a;; mret a else mret a
  else
    let bn := bn - NDIRECT in
    if bn <? NINDIRECT then
      a ← addr ip (Z.to_nat NDIRECT);
      ind ← (if a =? 0 then a ← balloc dev; set_addr ip (Z.to_nat NDIRECT) a;; mret a else mret a);
      bmap_indirect dev ind bn
    else mpanic "bmap: out of range".

Fixpoint itrunc_direct (n i ip : nat) : M fs_state unit :=
  match n with
  | O => mret tt
  | S n =>
      a ← addr ip i;
      (if a =? 0 then mret tt
       else dev ← ifld ip i_dev; bfree dev a;; set_addr ip i 0);;
      itrunc_direct n (S i) ip
  end.

Fixpoint itrunc_indirect (n j : nat) (dev : Z) (bp : nat) : M fs_state unit :=
  match n with
  | O => mret tt
  | S n =>
      d ← zoom FBC (bderef (Some bp) b_data);
      (if get32 d (4 * j) =? 0 then mret tt else bfree dev (get32 d (4 * j)));;
      itrunc_indirect n (S j) dev bp
  end.

Definition itrunc (ip : nat) : M fs_state unit :=
  itrunc_direct (Z.to_nat NDIRECT) 0 ip;;
  a ← addr ip (Z.to_nat NDIRECT);
  (if a =? 0 then mret tt
   else
     dev ← ifld ip i_dev;
     bp ← zoom FBC (bread mypid dev a);
     itrunc_indirect (Z.to_nat NINDIRECT) 0 dev bp;;
     zoom FBC (brelse mypid bp);;
     bfree dev a;;
     set_addr ip (Z.to_nat NDIRECT) 0);;
  iset ip (v_size 0);;
  iupdate ip.

Definition iput (ip : nat) : M fs_state unit :=
  ilk ip (acquiresleep mypid);;
  x ← ifld ip id;
  (if i_valid x && (i_nlink x =? 0) then
     acquire iclk;;
     r ← ifld ip i_ref;
     release iclk;;
     if r =? 1 then
       itrunc ip;;
       iset ip (v_type 0);;
       iupdate ip;;
       iset ip (v_valid false)
     else mret tt
   else mret tt);;
  ilk ip releasesleep;;
  acquire iclk;;
  r ← ifld ip i_ref;
  iset ip (v_ref (r - 1));;
  release iclk.

Definition iunlockput (ip : nat) : M fs_state unit :=
  iunlock (Some ip);;
  iput ip.

(** [struct stat]: device, inode number, type, links, size. *)
Record stat := Stat { st_dev : Z; st_ino : Z; st_type : Z; st_nlink : Z; st_size : Z }.
Definition stati (ip : nat) : M fs_state stat :=
  x ← ifld ip id;
  mret (Stat (i_dev x) (i_inum x) (i_type x) (i_nlink x) (i_size x)).

Fixpoint readi_loop (fuel ip : nat) (off n tot : Z) : M fs_state (list Z) :=
  match fuel with
  | O => mnofuel
  | S fuel =>
      if tot <? n then
        dev ← ifld ip i_dev;
        b ← bmap ip (off / BSIZE);
        bp ← zoom FBC (bread mypid dev b);
        let m := Z.min (n - tot) (BSIZE - off mod BSIZE) in
        d ← zoom FBC (bderef (Some bp) b_data);
        zoom FBC (brelse mypid bp);;
        rest ← readi_loop fuel ip (off + m) n (tot + m);
        mret (slice d (Z.to_nat (off mod BSIZE)) (Z.to_nat m) ++ rest)
      else mret []
  end.

(** The result and the bytes copied to [dst]. *)
Definition readi (ip : nat) (off n : Z) : M fs_state (Z * list Z) :=
  x ← ifld ip id;
  if i_type x =? T_DEV then
    if (i_major x <? 0) || (NDEV <=? i_major x) then mret (-1, [])
    else match devsw_read (i_major x) with
         | None => mret (-1, [])
         | Some rd => rd ip n
         end
  else if (i_size x <? off) || (u32 (off + n) <? off) then mret (-1, [])
  else
    let n := if i_size x <? u32 (off + n) then u32 (i_size x - off) else n in
    data ← readi_loop (S (S (Z.to_nat (n / BSIZE + 1)))) ip off n 0;
    mret (n, data).

Fixpoint writei_loop (fuel ip : nat) (src : list Z) (off n tot : Z) : M fs_state Z :=
  match fuel with
  | O => mnofuel
  | S fuel =>
      if tot <? n then
        dev ← ifld ip i_dev;
        b ← bmap ip (off / BSIZE);
        bp ← zoom FBC (bread mypid dev b);
        let m := Z.min (n - tot) (BSIZE - off mod BSIZE) in
        d ← zoom FBC (bderef (Some bp) b_data);
        zoom FBC (bassign (Some bp) (f_data (splice d (Z.to_nat (off mod BSIZE)) (take (Z.to_nat m) src))));;
        zoom FLS (log_write bp);;
        zoom FBC (brelse mypid bp);;
        writei_loop fuel ip (drop (Z.to_nat m) src) (off + m) n (tot + m)
      else mret off
  end.

(** [src] holds the [n] bytes at the source address. *)
Definition writei (ip : nat) (src : list Z) (off n : Z) : M fs_state Z :=
  x ← ifld ip id;
  if i_type x =? T_DEV then
    if (i_major x <? 0) || (NDEV <=? i_major x) then mret (-1)
    else match devsw_write (i_major x) with
         | None => mret (-1)
         | Some wr => wr ip (take (Z.to_nat n) src)
         end
  else if (i_size x <? off) || (u32 (off + n) <? off) then mret (-1)
  else if MAXFILE * BSIZE <? u32 (off + n) then mret (-1)
  else
    off' ← writei_loop (S (S (Z.to_nat (n / BSIZE + 1)))) ip src off n 0;
    sz ← ifld ip i_size;
    (if (0 <? n) && (sz <? off') then iset ip (v_size off');; iupdate ip else mret tt);;
    mret n.

(** * Directories *)

(** [strncmp(s, t, n) == 0] on the bytes of two strings, 0 past their end. *)
Fixpoint str_eq (n : nat) (s t : list Z) : bool :=
  match n with
  | O => true
  | S n => (at8 s 0 =? at8 t 0) && ((at8 s 0 =? 0) || str_eq n (drop 1 s) (drop 1 t))
  end.

Definition namecmp_eq (s t : list Z) : bool := str_eq DIRSIZ s t.

(** [strncpy(.., s, n)]: the string, padded with NULs. *)
Fixpoint str_pad (n : nat) (s : list Z) : list Z :=
  match n with
  | O => []
  | S n => if at8 s 0 =? 0 then replicate (S n) 0 else at8 s 0 :: str_pad n (drop 1 s)
  end.

(** The result is the offset of the entry and the inode. *)
Fixpoint dirlookup_loop (fuel dp : nat) (name : list Z) (off : Z) : M fs_state (option (Z * nat)) :=
  match fuel with
  | O => mnofuel
  | S fuel =>
      sz ← ifld dp i_size;
      if off <? sz then
        '(r, de) ← readi dp off 16;
        if negb (r =? 16) then mpanic "dirlookup read"
        else if get16 de 0 =? 0 then dirlookup_loop fuel dp name (off + 16)
        else if namecmp_eq name (drop 2 de) then
          dev ← ifld dp i_dev;
          ip ← iget dev (get16 de 0);
          mret (Some (off, ip))
        else dirlookup_loop fuel dp name (off + 16)
      else mret None
  end.

Definition dirlookup (dp : nat) (name : list Z) : M fs_state (option (Z * nat)) :=
  ty ← ifld dp i_type;
  if negb (ty =? T_DIR) then mpanic "dirlookup not DIR"
  else sz ← ifld dp i_size; dirlookup_loop (S (Z.to_nat (sz / 16 + 1))) dp name 0.

(** The offset of the first empty entry, or the end. *)
Fixpoint dirlink_loop (fuel dp : nat) (off : Z) : M fs_state Z :=
  match fuel with
  | O => mnofuel
  | S fuel =>
      sz ← ifld dp i_size;
      if off <? sz then
        '(r, de) ← readi dp off 16;
        if negb (r =? 16) then mpanic "dirlink read"
        else if get16 de 0 =? 0 then mret off
        else dirlink_loop fuel dp (off + 16)
      else mret off
  end.

Definition dirlink (dp : nat) (name : list Z) (inum : Z) : M fs_state Z :=
  r ← dirlookup dp name;
  match r with
  | Some (_, ip) => iput ip;; mret (-1)
  | None =>
      sz ← ifld dp i_size;
      off ← dirlink_loop (S (Z.to_nat (sz / 16 + 1))) dp 0;
      r ← writei dp (enc16 (u16 inum) ++ str_pad DIRSIZ name) off 16;
      if negb (r =? 16) then mpanic "dirlink" else mret 0
  end.

(** * Paths *)
Fixpoint skip_slash (path : list Z) : list Z :=
  match path with c :: p => if c =? 47 then skip_slash p else path | [] => [] end.

Fixpoint path_elem (path : list Z) : list Z * list Z :=
  match path with
  | c :: p => if (c =? 47) || (c =? 0) then ([], path) else let '(e, r) := path_elem p in (c :: e, r)
  | [] => ([], [])
  end.

(** The rest of the path and the name. *)
Definition skipelem (path : list Z) : option (list Z * list Z) :=
  let path := skip_slash path in
  if at8 path 0 =? 0 then None
  else let '(s, rest) := path_elem path in Some (skip_slash rest, take DIRSIZ s).

(** The inode and the last name. *)
Fixpoint namex_loop (fuel : nat) (parent : bool) (path name : list Z) (ip : nat)
    : M fs_state (option nat * list Z) :=
  match fuel with
  | O => mnofuel
  | S fuel =>
      match skipelem path with
      | Some (path, name) =>
          ilock (Some ip);;
          ty ← ifld ip i_type;
          if negb (ty =? T_DIR) then iunlockput ip;; mret (None, name)
          else if parent && (at8 path 0 =? 0) then iunlock (Some ip);; mret (Some ip, name)
          else
            r ← dirlookup ip name;
            match r with
            | None => iunlockput ip;; mret (None, name)
            | Some (_, next) => iunlockput ip;; namex_loop fuel parent path name next
            end
      | None => if parent then iput ip;; mret (None, name) else mret (Some ip, name)
      end
  end.

Definition namex (path : list Z) (parent : bool) : M fs_state (option nat * list Z) :=
  ip ← (if at8 path 0 =? 47 then iget ROOTDEV ROOTINO else idup cwd);
  namex_loop (S (length path)) parent path [] ip.

Definition namei (path : list Z) : M fs_state (option nat) :=
  '(ip, _) ← namex path false; mret ip.
Definition nameiparent (path : list Z) : M fs_state (option nat * list Z) := namex path true.
End fs.
