(* ===== verification/FsBlocks.v ===== *)
(** Disk blocks inside a transaction (bzero, balloc and bfree of fs.c): the
    steps of the buffer cache under a log, the bitmap, and the allocator. *)

From Stdlib Require Import ZArith Lia.
From stdpp Require Import base numbers strings option gmap sets list list_numbers fin_maps fin_map_dom.
From S2P Require Import Prelude Spinlock Sleeplock Mem Block Bio Cache Log Fs.

(** * Bitmaps *)
Section bitmap.
Implicit Types d : list Z.

Lemma shift1_bit k j : 0 ≤ k → 0 ≤ j → Z.testbit (Z.shiftl 1 k) j = (j =? k).
Proof.
  intros Hk Hj. rewrite Z.shiftl_1_l, Z.pow2_bits_eqb by done. apply Z.eqb_sym.
Qed.

Lemma bm_test_bit d bi : bm_test d bi = Z.testbit (at8 d (bi / 8)) (bi mod 8).
Proof.
  unfold bm_test. rewrite Z.shiftl_1_l. rewrite land_bit by (apply Z.mod_pos_bound; lia). apply negb_involutive.
Qed.

Lemma bit_index bi bj : bi / 8 = bj / 8 → bi mod 8 = bj mod 8 → bi = bj.
Proof. intros. Z.div_mod_to_equations. lia. Qed.

Definition block_len d : Prop := length d = Z.to_nat BSIZE.

Lemma bi_byte bi : 0 ≤ bi < BPB → (Z.to_nat (bi / 8) + 1 ≤ Z.to_nat BSIZE)%nat.
Proof. intros. Z.div_mod_to_equations. lia. Qed.

(** Setting or clearing a bit, seen through the other bits. *)
Lemma bm_write d bi bj v : block_len d → 0 ≤ bi < BPB → 0 ≤ bj < BPB →
  bm_test (splice d (Z.to_nat (bi / 8)) [v]) bj =
    if decide (bj / 8 = bi / 8) then Z.testbit v (bj mod 8) else bm_test d bj.
Proof.
  intros Hd Hi Hj. pose proof (bi_byte bi Hi). rewrite !bm_test_bit.
  assert (0 ≤ bi / 8) by (apply Z.div_pos; lia). assert (0 ≤ bj / 8) by (apply Z.div_pos; lia).
  rewrite at8_splice by (rewrite ?Hd; simpl; lia). simpl. rewrite Z2Nat.id by done.
  destruct (decide (bj / 8 = bi / 8)) as [->|Hne].
  - rewrite decide_True by lia. by rewrite Z.sub_diag.
  - by rewrite decide_False by lia.
Qed.

Lemma bm_test_set d bi bj : block_len d → 0 ≤ bi < BPB → 0 ≤ bj < BPB →
  bm_test (bm_set d bi) bj = if decide (bj = bi) then true else bm_test d bj.
Proof.
  intros Hd Hi Hj. unfold bm_set. rewrite bm_write by done.
  pose proof (Z.mod_pos_bound bi 8 ltac:(lia)). pose proof (Z.mod_pos_bound bj 8 ltac:(lia)).
  destruct (decide (bj / 8 = bi / 8)) as [E|Hne].
  - rewrite Z.lor_spec, shift1_bit by lia. rewrite bm_test_bit, E.
    destruct (Z.eqb_spec (bj mod 8) (bi mod 8)) as [E'|Hne'].
    + rewrite decide_True by (by apply bit_index). apply orb_true_r.
    + rewrite decide_False by congruence. apply orb_false_r.
  - rewrite decide_False by congruence. done.
Qed.

Lemma bm_test_clear d bi bj : block_len d → 0 ≤ bi < BPB → 0 ≤ bj < BPB →
  bm_test (bm_clear d bi) bj = if decide (bj = bi) then false else bm_test d bj.
Proof.
  intros Hd Hi Hj. unfold bm_clear. rewrite bm_write by done.
  pose proof (Z.mod_pos_bound bi 8 ltac:(lia)). pose proof (Z.mod_pos_bound bj 8 ltac:(lia)).
  destruct (decide (bj / 8 = bi / 8)) as [E|Hne].
  - rewrite Z.land_spec, Z.lnot_spec, shift1_bit by lia. rewrite bm_test_bit, E.
    destruct (Z.eqb_spec (bj mod 8) (bi mod 8)) as [E'|Hne'].
    + rewrite decide_True by (by apply bit_index). apply andb_false_r.
    + rewrite decide_False by congruence. apply andb_true_r.
  - rewrite decide_False by congruence. done.
Qed.

Lemma bm_len d bi v : block_len d → 0 ≤ bi < BPB → block_len (splice d (Z.to_nat (bi / 8)) [v]).
Proof. intros Hd Hi. pose proof (bi_byte bi Hi). unfold block_len. rewrite splice_length; [done|]. rewrite Hd. simpl. lia. Qed.

Lemma balloc_scan_Some n bi d r : balloc_scan n bi d = Some r →
  bi ≤ r < bi + Z.of_nat n ∧ bm_test d r = false ∧ ∀ j, bi ≤ j < r → bm_test d j = true.
Proof.
  revert bi. induction n as [|n IH]; intros bi; cbn [balloc_scan]; [done|].
  destruct (bm_test d bi) eqn:E.
  - intros (Hr & Hf & Hall)%IH. split_and!; [lia|lia|done|]. intros j Hj.
    destruct (decide (j = bi)) as [->|]; [done|]. apply Hall. lia.
  - intros [= <-]. split_and!; [lia|lia|done|lia].
Qed.

Lemma balloc_scan_None n bi d : balloc_scan n bi d = None →
  ∀ j, bi ≤ j < bi + Z.of_nat n → bm_test d j = true.
Proof.
  revert bi. induction n as [|n IH]; intros bi; cbn [balloc_scan]; [lia|].
  destruct (bm_test d bi) eqn:E; [|done]. intros Hn j Hj.
  destruct (decide (j = bi)) as [->|]; [done|]. apply (IH _ Hn). lia.
Qed.
End bitmap.

(** * Steps inside a transaction *)
Section steps.
Context `{BlockDriver} {DOk : BlockDriverOk _}.
Variable mypid : Z.

Lemma tx_cache_step bc bc' l V V' Hd Hd' hs : tx mypid (LogSys bc l) V Hd hs →
  cache mypid bc' V' Hd' (list_to_set ((lg_dev l,.) <$> hs)) → tx mypid (LogSys bc' l) V' Hd' hs.
Proof. intros [? ? ? ? ? ?] Hc. by split. Qed.

(** A buffer that is not changed can be released. *)
Definition unchanged (bc : bcache_state) (l : log_state) (V : blocks) (hs : list Z) (bno : Z) : Prop :=
  bno ∈ hs ∨ V (lg_dev l) bno = bc_disk bc (lg_dev l) bno.

Lemma tx_bread bc l V Hd hs bno : tx mypid (LogSys bc l) V Hd hs → lg_dev l ≠ 0 →
  drv_ok (lg_dev l) bno = true → not_held Hd (lg_dev l) bno → (size Hd + length hs < NBUF)%nat →
  ∃ i bc', bread mypid (lg_dev l) bno bc = Ok (i, bc') ∧ Hd !! i = None ∧
    tx mypid (LogSys bc' l) V (<[i := (lg_dev l, bno)]> Hd) hs ∧ bc_disk bc' = bc_disk bc ∧
    unchanged bc' l V hs bno.
Proof.
  intros Ht Hdev Hok Hn Hsz. pose proof (tp_cache _ _ _ _ _ Ht) as Hc. simpl in Hc.
  pose proof (size_pinned (lg_dev l) hs).
  destruct (bread_step mypid bc V Hd _ (lg_dev l) bno Hc Hdev Hok Hn) as (i & bc' & E & Hi & Hc' & Hd'); [right; lia|].
  exists i, bc'. split_and!; try done; [by eapply tx_cache_step|]. unfold unchanged.
  destruct (decide (bno ∈ hs)) as [?|Hno]; [by left|right]. rewrite Hd'.
  apply (cache_clean mypid bc V Hd _ _ _ Hc Hdev Hn). by rewrite elem_pinned.
Qed.

Lemma tx_data bc l V Hd hs i bno : tx mypid (LogSys bc l) V Hd hs → Hd !! i = Some (lg_dev l, bno) →
  bderef (Some i) b_data bc = Ok (V (lg_dev l) bno, bc).
Proof. intros Ht Hi. by apply (bdata_step mypid bc V Hd _ i (lg_dev l) bno (tp_cache _ _ _ _ _ Ht)). Qed.

Lemma tx_set bc l V Hd hs i bno data : tx mypid (LogSys bc l) V Hd hs → Hd !! i = Some (lg_dev l, bno) →
  ∃ bc', bassign (Some i) (f_data data) bc = Ok (tt, bc') ∧
    tx mypid (LogSys bc' l) (blocks_upd (lg_dev l) bno data V) Hd hs ∧ bc_disk bc' = bc_disk bc.
Proof.
  intros Ht Hi. destruct (bset_step mypid bc V Hd _ i _ _ data (tp_cache _ _ _ _ _ Ht) Hi) as (bc' & E & Hc & Hd').
  exists bc'. split_and!; try done. by eapply tx_cache_step.
Qed.

Lemma tx_brelse bc l V Hd hs i bno : tx mypid (LogSys bc l) V Hd hs → Hd !! i = Some (lg_dev l, bno) →
  unchanged bc l V hs bno →
  ∃ bc', brelse mypid i bc = Ok (tt, bc') ∧ tx mypid (LogSys bc' l) V (delete i Hd) hs ∧ bc_disk bc' = bc_disk bc.
Proof.
  intros Ht Hi Hu. destruct (brelse_step mypid bc V Hd _ i _ _ (tp_cache _ _ _ _ _ Ht) Hi) as (bc' & E & Hc & Hd').
  { destruct Hu as [?|?]; [left; by apply elem_pinned|by right]. }
  exists bc'. split_and!; try done. by eapply tx_cache_step.
Qed.

(** Room for [k] more blocks in the log and for two buffers in the cache. *)
Definition log_room (l : log_state) (hs : list Z) (k : nat) : Prop :=
  Z.of_nat (length hs + k) ≤ LOGSIZE - 1 ∧ Z.of_nat (length hs + k) ≤ lg_size l - 1.

Lemma logged_length hs bno : (length (logged hs bno) ≤ length hs + 1)%nat.
Proof. unfold logged. case_decide; [lia|]. rewrite length_app. simpl. lia. Qed.

Lemma logged_again hs bno : bno ∈ hs → logged hs bno = hs.
Proof. intros. unfold logged. by rewrite decide_True. Qed.

Lemma logged_in hs bno : bno ∈ logged hs bno.
Proof. unfold logged. case_decide; set_solver. Qed.

Lemma logged_keeps hs bno y : y ∈ hs → y ∈ logged hs bno.
Proof. unfold logged. case_decide; set_solver. Qed.

(** Change a held block, log it and release it. *)
Lemma tx_update bc l V Hd hs i bno data : tx mypid (LogSys bc l) V Hd hs → Hd !! i = Some (lg_dev l, bno) →
  log_room l hs 1 →
  ∃ bc1 bc2 l' bc3, bassign (Some i) (f_data data) bc = Ok (tt, bc1) ∧
    log_write i (LogSys bc1 l) = Ok (tt, LogSys bc2 l') ∧ brelse mypid i bc2 = Ok (tt, bc3) ∧
    tx mypid (LogSys bc3 l') (blocks_upd (lg_dev l) bno data V) (delete i Hd) (logged hs bno) ∧
    bc_disk bc3 = bc_disk bc ∧ same_log l l'.
Proof.
  intros Ht Hi [Hr1 Hr2]. destruct (tx_set _ _ _ _ _ _ _ data Ht Hi) as (bc1 & E1 & Ht1 & Hd1).
  destruct (log_write_step mypid (LogSys bc1 l) _ _ _ i bno Ht1 Hi) as ([bc2 l'] & E2 & Ht2 & Hd2 & Hl);
    simpl in *; [lia|lia|].
  destruct Hl as (El & ? & ? & ?). destruct (tx_brelse bc2 l' _ Hd _ i bno Ht2) as (bc3 & E3 & Ht3 & Hd3).
  - by rewrite El.
  - left. apply logged_in.
  - exists bc1, bc2, l', bc3. split_and!; try done. congruence.
Qed.

Lemma same_log_trans l1 l2 l3 : same_log l1 l2 → same_log l2 l3 → same_log l1 l3.
Proof. unfold same_log. intuition congruence. Qed.

Lemma log_room_next l l' hs bno k : same_log l l' → log_room l hs (S k) → log_room l' (logged hs bno) k.
Proof.
  intros (_ & _ & Es & _) [H1 H2]. unfold log_room. rewrite Es. pose proof (logged_length hs bno). lia.
Qed.

(** At most one other buffer is held, of a block that is not [bno]. *)
Definition holding_one (Hd : gmap nat (Z * Z)) (hs : list Z) (k : nat) : Prop :=
  (size Hd ≤ 1)%nat ∧ (size Hd + length hs + k ≤ NBUF)%nat.

Lemma holding_none l hs k : log_room l hs k → holding_one ∅ hs k.
Proof. intros [Hr _]. unfold holding_one. rewrite map_size_empty, NBUF_30. lia. Qed.

Lemma bzero_run bc l V Hd hs bno : tx mypid (LogSys bc l) V Hd hs → lg_dev l ≠ 0 →
  drv_ok (lg_dev l) bno = true → not_held Hd (lg_dev l) bno → log_room l hs 1 → holding_one Hd hs 1 →
  ∃ bc' l', bzero mypid (lg_dev l) bno (LogSys bc l) = Ok (tt, LogSys bc' l') ∧
    tx mypid (LogSys bc' l') (blocks_upd (lg_dev l) bno (replicate (Z.to_nat BSIZE) 0) V) Hd (logged hs bno) ∧
    bc_disk bc' = bc_disk bc ∧ same_log l l'.
Proof.
  intros Ht Hdev Hok Hn Hr [Hh1 Hh2].
  destruct (tx_bread bc l V Hd hs bno) as (i & bc1 & E1 & Hi & Ht1 & Hd1 & _); try done; [lia|].
  destruct (tx_update bc1 l V _ hs i bno (replicate (Z.to_nat BSIZE) 0) Ht1) as (bc2 & bc3 & l' & bc4 & E2 & E3 & E4 & Ht4 & Hd4 & Hl);
    [by rewrite lookup_insert_eq|done|].
  rewrite delete_insert_id in Ht4 by done. exists bc4, l'. split_and!; try done; [|congruence].
  unfold bzero. kstep E1. kstep E2. erewrite bind_Ok by exact E3. erewrite zoom_Ok by exact E4. done.
Qed.

(** * The block allocator *)

(** Block [b] is marked in the bitmap. *)
Definition used (V : blocks) (sb : superblock) (dev b : Z) : bool := bm_test (V dev (BBLOCK b sb)) (b mod BPB).

(** The blocks of the file system are on the device, the bitmap blocks are
    among them, and the bitmap marks them as used. *)
Record geom (V : blocks) (sb : superblock) (dev : Z) : Prop := {
  ge_dev : dev ≠ 0;
  ge_blk : ∀ b, 0 ≤ b < sb_size sb → drv_ok dev b = true;
  ge_bm : ∀ b, 0 ≤ b < sb_size sb →
    BBLOCK b sb = b / BPB + sb_bmapstart sb ∧ 0 ≤ BBLOCK b sb < sb_size sb ∧
    block_len (V dev (BBLOCK b sb)) ∧ used V sb dev (BBLOCK b sb) = true
}.

Lemma BBLOCK_word V sb dev b bi : geom V sb dev → 0 ≤ b → b mod BPB = 0 → 0 ≤ bi < BPB → b + bi < sb_size sb →
  BBLOCK (b + bi) sb = BBLOCK b sb ∧ (b + bi) mod BPB = bi.
Proof.
  intros Hg Hb Hm Hi Hs. destruct (ge_bm _ _ _ Hg b ltac:(lia)) as (E1 & _).
  destruct (ge_bm _ _ _ Hg (b + bi) ltac:(lia)) as (E2 & _). rewrite E1, E2.
  Z.div_mod_to_equations. lia.
Qed.

(** The effect of [balloc] on the view: the bit is set and the block zeroed. *)
Definition alloc_view (V : blocks) (sb : superblock) (dev b : Z) : blocks :=
  blocks_upd dev b (replicate (Z.to_nat BSIZE) 0)
    (blocks_upd dev (BBLOCK b sb) (bm_set (V dev (BBLOCK b sb)) (b mod BPB)) V).
Definition free_view (V : blocks) (sb : superblock) (dev b : Z) : blocks :=
  blocks_upd dev (BBLOCK b sb) (bm_clear (V dev (BBLOCK b sb)) (b mod BPB)) V.

(** The held buffers are of blocks in use that are not bitmap blocks. *)
Definition held_used (V : blocks) (sb : superblock) (dev : Z) (Hd : gmap nat (Z * Z)) : Prop :=
  ∀ i k, Hd !! i = Some k → k.1 = dev ∧ used V sb dev k.2 = true ∧ ∀ j, 0 ≤ j < sb_size sb → k.2 ≠ BBLOCK j sb.

Lemma held_none V sb dev : held_used V sb dev ∅.
Proof. intros i k H1. by rewrite lookup_empty in H1. Qed.

Lemma balloc_loop_spec fuel sb b bc l V Hd hs : geom V sb (lg_dev l) → tx mypid (LogSys bc l) V Hd hs →
  held_used V sb (lg_dev l) Hd → log_room l hs 2 → holding_one Hd hs 2 → 0 ≤ b → b mod BPB = 0 → (∀ j, 0 ≤ j < b → j < sb_size sb → used V sb (lg_dev l) j = true) →
  (0 < fuel)%nat → sb_size sb - b ≤ BPB * (Z.of_nat fuel - 1) →
  (∃ r bc' l', balloc_loop mypid fuel sb (lg_dev l) b (LogSys bc l) = Ok (r, LogSys bc' l') ∧
     0 ≤ r < sb_size sb ∧ used V sb (lg_dev l) r = false ∧
     (∀ j, 0 ≤ j < r → used V sb (lg_dev l) j = true) ∧
     tx mypid (LogSys bc' l') (alloc_view V sb (lg_dev l) r) Hd (logged (logged hs (BBLOCK r sb)) r) ∧
     bc_disk bc' = bc_disk bc ∧ same_log l l') ∨
  (balloc_loop mypid fuel sb (lg_dev l) b (LogSys bc l) = Panic "balloc: out of blocks" ∧
     ∀ j, 0 ≤ j < sb_size sb → used V sb (lg_dev l) j = true).
Proof.
  revert b bc. induction fuel as [|fuel IH]; intros b bc Hg Ht Hhu Hr Hho Hb Hm Hall Hf Hsz; [lia|].
  cbn [balloc_loop]. destruct (Z.ltb_spec b (sb_size sb)) as [Hlt|Hge].
  2:{ right. split; [done|]. intros j Hj. apply Hall; lia. }
  destruct (ge_bm _ _ _ Hg b ltac:(lia)) as (_ & Hbb & Hlen & _).
  destruct (tx_bread bc l V Hd hs (BBLOCK b sb)) as (i & bc1 & E1 & Hi & Ht1 & Hd1 & Hu1); try done.
  { exact (ge_dev _ _ _ Hg). } { exact (ge_blk _ _ _ Hg _ Hbb). }
  { intros i Hi. destruct (Hhu i _ Hi) as (_ & _ & Hnb). by apply (Hnb b ltac:(lia)). }
  { destruct Hho. lia. }
  kstep E1. pose proof (tx_data bc1 l V _ hs i (BBLOCK b sb) Ht1 ltac:(by rewrite lookup_insert_eq)) as E2.
  kstep E2. destruct (balloc_scan _ _ _) as [bi|] eqn:Es.
  - left. apply balloc_scan_Some in Es as (Hbi & Hfree & Hless).
    destruct (BBLOCK_word V sb _ b bi Hg Hb Hm ltac:(lia) ltac:(lia)) as [Ew Ei].
    destruct (tx_update bc1 l V _ hs i (BBLOCK b sb) (bm_set (V (lg_dev l) (BBLOCK b sb)) bi) Ht1)
      as (bc2 & bc3 & l' & bc4 & E3 & E4 & E5 & Ht4 & Hd4 & Hl); [by rewrite lookup_insert_eq|destruct Hr; split; lia|].
    rewrite delete_insert_id in Ht4 by done. pose proof Hl as (El & _).
    assert (Hfr : used V sb (lg_dev l) (b + bi) = false) by (unfold used; by rewrite Ew, Ei).
    destruct (bzero_run bc4 l' _ _ _ (b + bi) Ht4) as (bc5 & l2 & E6 & Ht5 & Hd5 & Hl2).
    { rewrite El. exact (ge_dev _ _ _ Hg). } { rewrite El. apply (ge_blk _ _ _ Hg). lia. }
    { rewrite El. intros i' Hi'. destruct (Hhu i' _ Hi') as (_ & Hx & _). simpl in Hx. congruence. }
    { by eapply log_room_next. }
    { destruct Hho. pose proof (logged_length hs (BBLOCK b sb)). unfold holding_one. lia. }
    exists (b + bi), bc5, l2. rewrite El in E6, Ht5. split_and!; [|lia|lia| | | |congruence|by eapply same_log_trans].
    + kstep E3. erewrite bind_Ok by exact E4. kstep E5. erewrite bind_Ok by exact E6. done.
    + done.
    + intros j Hj. destruct (decide (j < b)); [apply Hall; lia|].
      replace j with (b + (j - b)) by lia. unfold used.
      destruct (BBLOCK_word V sb _ b (j - b) Hg Hb Hm ltac:(lia) ltac:(lia)) as [-> ->]. apply Hless. lia.
    + unfold alloc_view. by rewrite Ew, Ei.
  - pose proof (balloc_scan_None _ _ _ Es) as Hfull.
    destruct (tx_brelse bc1 l V _ hs i (BBLOCK b sb) Ht1) as (bc2 & E3 & Ht2 & Hd2); [by rewrite lookup_insert_eq|done|].
    rewrite delete_insert_id in Ht2 by done. kstep E3. rewrite <- Hd1, <- Hd2. apply (IH (b + BPB) bc2); try done; try lia.
    + rewrite <- Z.add_mod_idemp_r, Z.mod_same, Z.add_0_r by lia. done.
    + intros j Hj Hjs. destruct (decide (j < b)); [apply Hall; lia|].
      replace j with (b + (j - b)) by lia. unfold used.
      destruct (BBLOCK_word V sb _ b (j - b) Hg Hb Hm ltac:(lia) ltac:(lia)) as [-> ->]. apply Hfull. lia.
Qed.

(** The bitmap after a bit of block [b] is written. *)
Lemma used_write V sb dev b j (d : list Z) : geom V sb dev → 0 ≤ b < sb_size sb → 0 ≤ j < sb_size sb →
  (∀ k, 0 ≤ k < BPB → k ≠ b mod BPB → bm_test d k = bm_test (V dev (BBLOCK b sb)) k) →
  used (blocks_upd dev (BBLOCK b sb) d V) sb dev j =
    if decide (j = b) then bm_test d (b mod BPB) else used V sb dev j.
Proof.
  intros Hg Hb Hj Hd. unfold used. destruct (ge_bm _ _ _ Hg b Hb) as (Eb & _).
  destruct (ge_bm _ _ _ Hg j Hj) as (Ej & _). destruct (decide (j = b)) as [->|Hne].
  - by rewrite blocks_upd_eq.
  - destruct (decide (BBLOCK j sb = BBLOCK b sb)) as [E|]; [|by rewrite blocks_upd_ne by congruence].
    rewrite E, blocks_upd_eq. apply Hd.
    + apply Z.mod_pos_bound; lia.
    + intros Em. rewrite Ej, Eb in E. apply Hne. Z.div_mod_to_equations. lia.
Qed.

Lemma mod_BPB b : 0 ≤ b mod BPB < BPB.
Proof. apply Z.mod_pos_bound. lia. Qed.
Hint Resolve mod_BPB : core.

Lemma used_free V sb dev b j : geom V sb dev → 0 ≤ b < sb_size sb → 0 ≤ j < sb_size sb →
  used (free_view V sb dev b) sb dev j = if decide (j = b) then false else used V sb dev j.
Proof.
  intros Hg Hb Hj. destruct (ge_bm _ _ _ Hg b Hb) as (_ & _ & Hl & _). unfold free_view.
  rewrite used_write; [|done..|].
  - rewrite bm_test_clear by done. by rewrite (decide_True (P := b mod BPB = b mod BPB)) by done.
  - intros k Hk Hne. rewrite bm_test_clear by done. by rewrite decide_False by done.
Qed.

(** A free block is not a block of the bitmap. *)
Lemma free_not_bitmap V sb dev b j : geom V sb dev → 0 ≤ j < sb_size sb →
  used V sb dev b = false → b ≠ BBLOCK j sb.
Proof. intros Hg Hj Hu ->. destruct (ge_bm _ _ _ Hg j Hj) as (_ & _ & _ & E). congruence. Qed.

Lemma used_upd_other V sb dev b j (d : list Z) : b ≠ BBLOCK j sb → used (blocks_upd dev b d V) sb dev j = used V sb dev j.
Proof. intros Hne. unfold used. by rewrite blocks_upd_ne by congruence. Qed.

Lemma used_alloc V sb dev b j : geom V sb dev → 0 ≤ b < sb_size sb → 0 ≤ j < sb_size sb → used V sb dev b = false →
  used (alloc_view V sb dev b) sb dev j = if decide (j = b) then true else used V sb dev j.
Proof.
  intros Hg Hb Hj Hu. destruct (ge_bm _ _ _ Hg b Hb) as (_ & _ & Hl & _). unfold alloc_view.
  rewrite used_upd_other by (by eapply free_not_bitmap). rewrite used_write; [|done..|].
  - rewrite bm_test_set by done. by rewrite (decide_True (P := b mod BPB = b mod BPB)) by done.
  - intros k Hk Hne. rewrite bm_test_set by done. by rewrite decide_False by done.
Qed.

Lemma geom_alloc V sb dev b : geom V sb dev → 0 ≤ b < sb_size sb → used V sb dev b = false →
  geom (alloc_view V sb dev b) sb dev.
Proof.
  intros Hg Hb Hu. split; [apply Hg|apply Hg|]. intros j Hj.
  destruct (ge_bm _ _ _ Hg j Hj) as (? & Hr & Hl & E). split_and!; try done; try lia.
  - pose proof (free_not_bitmap _ _ _ _ _ Hg Hj Hu). unfold alloc_view. rewrite blocks_upd_ne by congruence.
    destruct (decide (BBLOCK j sb = BBLOCK b sb)) as [Ej|]; [|by rewrite blocks_upd_ne by congruence].
    rewrite <- Ej, blocks_upd_eq. by apply bm_len.
  - rewrite used_alloc by done. by case_decide.
Qed.

Lemma geom_free V sb dev b : geom V sb dev → 0 ≤ b < sb_size sb →
  (∀ j, 0 ≤ j < sb_size sb → b ≠ BBLOCK j sb) → geom (free_view V sb dev b) sb dev.
Proof.
  intros Hg Hb Hu. split; [apply Hg|apply Hg|]. intros j Hj.
  destruct (ge_bm _ _ _ Hg j Hj) as (? & Hr & Hl & E). split_and!; try done; try lia.
  - unfold free_view. destruct (decide (BBLOCK j sb = BBLOCK b sb)) as [Ej|]; [|by rewrite blocks_upd_ne by congruence].
    rewrite <- Ej, blocks_upd_eq. by apply bm_len.
  - rewrite used_free by done. rewrite decide_False; [done|]. intros Ej. by apply (Hu j Hj).
Qed.

Lemma balloc_run s V Hd hs : geom V (fs_sb s) (lg_dev (ls_log (fs_ls s))) → tx mypid (fs_ls s) V Hd hs →
  held_used V (fs_sb s) (lg_dev (ls_log (fs_ls s))) Hd → log_room (ls_log (fs_ls s)) hs 2 → holding_one Hd hs 2 →
  let sb := fs_sb s in let dev := lg_dev (ls_log (fs_ls s)) in
  (∃ b ls', balloc mypid dev s = Ok (b, put FLS ls' s) ∧ 0 ≤ b < sb_size sb ∧ used V sb dev b = false ∧
     (∀ j, 0 ≤ j < b → used V sb dev j = true) ∧
     tx mypid ls' (alloc_view V sb dev b) Hd (logged (logged hs (BBLOCK b sb)) b) ∧
     bc_disk (ls_bc ls') = bc_disk (ls_bc (fs_ls s)) ∧ same_log (ls_log (fs_ls s)) (ls_log ls')) ∨
  (balloc mypid dev s = Panic "balloc: out of blocks" ∧ ∀ j, 0 ≤ j < sb_size sb → used V sb dev j = true).
Proof.
  intros Hg Ht Hhu Hr Hho sb dev. destruct s as [[bc l] sb0 lk ino]. simpl in sb, dev. subst sb dev. simpl in Hg, Ht, Hhu, Hr.
  cbn [fs_ls fs_sb ls_log].
  destruct (balloc_loop_spec (S (Z.to_nat (sb_size sb0 / BPB + 1))) sb0 0 bc l V Hd hs Hg Ht Hhu Hr Hho)
    as [(b & bc' & l' & E & Hb & Hu & Hall & Ht' & Hdk & Hl)|[E Hall]]; try lia; try done.
  { pose proof (Z.div_mod (sb_size sb0) BPB ltac:(lia)). pose proof (mod_BPB (sb_size sb0)). lia. }
  - left. exists b, (LogSys bc' l'). split_and!; try done; try lia.
    unfold balloc. erewrite bind_Ok by reflexivity. cbn [fs_sb]. by erewrite zoom_Ok by exact E.
  - right. split; [|done]. unfold balloc. erewrite bind_Ok by reflexivity. unfold zoom. cbn [FLS fs_sb view fs_ls].
    by rewrite E.
Qed.

Lemma bfree_run s V hs b dev : lg_dev (ls_log (fs_ls s)) = dev → geom V (fs_sb s) dev →
  tx mypid (fs_ls s) V ∅ hs → log_room (ls_log (fs_ls s)) hs 1 → 0 ≤ b < sb_size (fs_sb s) →
  let sb := fs_sb s in
  if used V sb dev b then
    ∃ ls', bfree mypid dev b s = Ok (tt, put FLS ls' s) ∧
      tx mypid ls' (free_view V sb dev b) ∅ (logged hs (BBLOCK b sb)) ∧
      bc_disk (ls_bc ls') = bc_disk (ls_bc (fs_ls s)) ∧ same_log (ls_log (fs_ls s)) (ls_log ls')
  else bfree mypid dev b s = Panic "freeing free block".
Proof.
  intros <- Hg Ht Hr Hb sb. destruct s as [[bc l] sb0 lk ino]. simpl in sb. subst sb.
  cbn [fs_ls fs_sb ls_log] in *. destruct (ge_bm _ _ _ Hg b Hb) as (_ & Hbb & _).
  destruct (tx_bread bc l V ∅ hs (BBLOCK b sb0) Ht) as (i & bc1 & E1 & _ & Ht1 & Hd1 & _); try done.
  { exact (ge_dev _ _ _ Hg). } { exact (ge_blk _ _ _ Hg _ Hbb). }
  { rewrite map_size_empty, NBUF_30. destruct Hr. lia. }
  pose proof (tx_data bc1 l V _ hs i (BBLOCK b sb0) Ht1 ltac:(by rewrite lookup_insert_eq)) as E2.
  destruct (tx_update bc1 l V _ hs i (BBLOCK b sb0) (bm_clear (V (lg_dev l) (BBLOCK b sb0)) (b mod BPB)) Ht1)
    as (bc2 & bc3 & l' & bc4 & E3 & E4 & E5 & Ht4 & Hd4 & Hl); [by rewrite lookup_insert_eq|done|].
  rewrite delete_insert_id in Ht4 by done.
  unfold bfree. erewrite bind_Ok by reflexivity. cbn [fs_sb]. kstep E1. kstep E2.
  destruct (used V sb0 (lg_dev l) b) eqn:Hu; unfold used in Hu; rewrite Hu; cbn [negb]; [|done].
  exists (LogSys bc4 l'). split_and!; try done; [|simpl; congruence].
  kstep E3. kstep E4. by erewrite zoom_Ok by exact E5.
Qed.

(** Inside a transaction with room for two blocks, [balloc] returns the
    lowest block that the bitmap marks as free; afterwards exactly that block
    is marked in addition, it holds zeroes, the bitmap block and the block are
    in the log and nothing else changed, in memory or on the disk.  When the
    bitmap has no free block, [balloc] panics. *)
Lemma balloc_takes_lowest_free s V hs :
  let sb := fs_sb s in let dev := lg_dev (ls_log (fs_ls s)) in
  geom V sb dev → tx mypid (fs_ls s) V ∅ hs → log_room (ls_log (fs_ls s)) hs 2 →
  (∃ b ls' V', balloc mypid dev s = Ok (b, put FLS ls' s) ∧
     tx mypid ls' V' ∅ (logged (logged hs (BBLOCK b sb)) b) ∧ geom V' sb dev ∧
     0 ≤ b < sb_size sb ∧ (∀ j, 0 ≤ j < b → used V sb dev j = true) ∧
     (∀ j, 0 ≤ j < sb_size sb → used V' sb dev j = if decide (j = b) then true else used V sb dev j) ∧
     used V sb dev b = false ∧ V' dev b = replicate (Z.to_nat BSIZE) 0 ∧
     (∀ d y, (d, y) ≠ (dev, b) → (d, y) ≠ (dev, BBLOCK b sb) → V' d y = V d y) ∧
     bc_disk (ls_bc ls') = bc_disk (ls_bc (fs_ls s))) ∨
  (balloc mypid dev s = Panic "balloc: out of blocks" ∧ ∀ j, 0 ≤ j < sb_size sb → used V sb dev j = true).
Proof.
  intros sb dev Hg Ht Hr. destruct (balloc_run s V ∅ hs Hg Ht (held_none _ _ _) Hr (holding_none _ _ _ Hr)) as [(b & ls' & E & Hb & Hu & Hall & Ht' & Hd & _)|?];
    [left|by right].
  exists b, ls', (alloc_view V sb dev b). split_and!; try done; try apply Hb.
  - by apply geom_alloc.
  - intros j Hj. by apply used_alloc.
  - apply blocks_upd_eq.
  - intros d y H1 H2. unfold alloc_view. by rewrite !blocks_upd_ne.
Qed.

(** A block that [balloc] has handed out can be freed in the same
    transaction; [bfree] then leaves the bitmap as it was before the
    allocation, and freeing the block once more panics. *)
Lemma balloc_bfree_roundtrip s V hs b s1 :
  let sb := fs_sb s in let dev := lg_dev (ls_log (fs_ls s)) in
  geom V sb dev → tx mypid (fs_ls s) V ∅ hs → log_room (ls_log (fs_ls s)) hs 3 →
  balloc mypid dev s = Ok (b, s1) →
  ∃ ls2 V2 hs2, bfree mypid dev b s1 = Ok (tt, put FLS ls2 s) ∧ tx mypid ls2 V2 ∅ hs2 ∧
    (∀ j, 0 ≤ j < sb_size sb → used V2 sb dev j = used V sb dev j) ∧
    bfree mypid dev b (put FLS ls2 s) = Panic "freeing free block".
Proof.
  intros sb dev Hg Ht Hr E. pose proof Hr as [Hr1 Hr2].
  assert (Hr' : log_room (ls_log (fs_ls s)) hs 2) by (split; lia).
  destruct (balloc_run s V ∅ hs Hg Ht (held_none _ _ _) Hr' (holding_none _ _ _ Hr')) as [(b' & ls' & E' & Hb & Hu & _ & Ht1 & _ & Hl)|[E' _]];
    fold dev in E'; rewrite E in E'; [|done].
  injection E' as <- ->. clear E.
  assert (Hnb : ∀ j, 0 ≤ j < sb_size sb → b ≠ BBLOCK j sb) by (intros j Hj; by eapply free_not_bitmap).
  pose proof (geom_alloc V sb dev b Hg Hb Hu) as Hg1.
  pose proof (logged_length hs (BBLOCK b sb)) as H1. pose proof (logged_length (logged hs (BBLOCK b sb)) b) as H2.
  assert (H2' : (length (logged (logged hs (BBLOCK b sb)) b) ≤ length hs + 2)%nat) by lia.
  assert (Hroom : ∀ l (h : list Z), same_log (ls_log (fs_ls s)) l → (length h ≤ length hs + 2)%nat → log_room l h 1).
  { intros l h (_ & _ & Es & _) Hh. unfold log_room. rewrite Es. lia. }
  pose proof (bfree_run (put FLS ls' s) _ _ b dev (proj1 Hl) Hg1 Ht1 (Hroom _ _ Hl H2') Hb) as Hf. cbn in Hf.
  change (fs_sb s) with sb in Hf. rewrite used_alloc, decide_True in Hf by done.
  destruct Hf as (ls2 & E2 & Ht2 & _ & Hl2).
  assert (Hused : ∀ j, 0 ≤ j < sb_size sb → used (free_view (alloc_view V sb dev b) sb dev b) sb dev j = used V sb dev j).
  { intros j Hj. rewrite used_free by done. rewrite used_alloc by done. by case_decide; [subst|]. }
  exists ls2, (free_view (alloc_view V sb dev b) sb dev b), (logged (logged (logged hs (BBLOCK b sb)) b) (BBLOCK b sb)).
  split_and!; [exact E2|exact Ht2|exact Hused|].
  pose proof (same_log_trans _ _ _ Hl Hl2) as Hl3.
  pose proof (bfree_run (put FLS ls2 s) _ _ b dev (proj1 Hl3) (geom_free _ _ _ b Hg1 Hb Hnb) Ht2) as Hf.
  cbn in Hf. rewrite used_free, decide_True in Hf by done. apply Hf; [|done]. apply Hroom; [done|].
  rewrite logged_again; [done|]. apply logged_keeps, logged_in.
Qed.
End steps.

(** * A sample file system: 100 blocks, the first 50 in use, the bitmap in block 45 *)
Definition sample_sb : superblock := Superblock 100 50 50 30 2 32 45.
Definition sample_disk : disk :=
  Disk (λ _ b, if b =? 45 then replicate 6 255 ++ [3] ++ replicate 505 0
    else if b =? 48 then [11; 22; 33] ++ replicate 509 0 else replicate (Z.to_nat BSIZE) 0) [].

#[local] Instance sample_driver : BlockDriver := memide 1000.

Lemma sample_geom : geom sample_disk sample_sb 1.
Proof.
  assert (Hbb : ∀ b, 0 ≤ b < 100 → BBLOCK b sample_sb = 45).
  { intros b Hb. unfold BBLOCK. by rewrite Z.div_small by lia. }
  split; [done| |]; cbn [sample_sb sb_size].
  - intros b Hb. cbn. destruct (Z.ltb_spec b 1000); lia || done.
  - intros b Hb. unfold used. rewrite (Hbb b), (Hbb 45) by lia. rewrite Z.div_small by lia. by split_and!.
Qed.

Lemma sample_fs : ∃ bc, tx 1 (LogSys bc (log_at 0 0)) sample_disk ∅ [] ∧ bc_disk bc = sample_disk.
Proof.
  destruct (@cache_boot sample_driver (memide_ok 1000) 1 sample_disk) as (s & _ & Hc & Hd). exists s. by split.
Qed.


