(* ===== verification/FsData.v ===== *)
(** The contents of files (bmap, readi and writei of fs.c): the map from the
    blocks of a file to blocks of the disk, direct and indirect, the bytes of
    a file, and what reading and writing do to them. *)

From Stdlib Require Import ZArith Lia.
From stdpp Require Import base numbers strings option gmap sets list list_numbers fin_maps fin_map_dom.
From S2P Require Import Prelude Spinlock Sleeplock Mem Block Bio Cache Log Fs FsBlocks.

(** * Free blocks *)
Lemma filter_same {A} (P Q : A → Prop) `{!∀ x, Decision (P x), !∀ x, Decision (Q x)} (l : list A) :
  (∀ x, x ∈ l → P x ↔ Q x) → filter P l = filter Q l.
Proof.
  induction l as [|y l IH]; intros Hx; [done|]. rewrite !filter_cons, IH by (intros; apply Hx; by right).
  assert (HPQ : P y ↔ Q y) by (apply Hx; by left). destruct (decide (P y)), (decide (Q y)); tauto.
Qed.

Lemma filter_one {A} (P Q : A → Prop) `{!∀ x, Decision (P x), !∀ x, Decision (Q x)} (l : list A) a :
  NoDup l → a ∈ l → P a → ¬ Q a → (∀ x, x ∈ l → x ≠ a → P x ↔ Q x) →
  length (filter P l) = S (length (filter Q l)).
Proof.
  intros Hnd Ha HP HQ Hx. apply list_elem_of_split in Ha as (l1 & l2 & ->).
  apply NoDup_app in Hnd as (_ & Hd & Hnd). apply NoDup_cons in Hnd as [Hn _].
  rewrite !filter_app, filter_cons_True, filter_cons_False by done. rewrite !length_app. simpl.
  rewrite (filter_same P Q l1), (filter_same P Q l2); [lia| |].
  - intros x Hin. apply Hx; [set_solver|]. by intros ->.
  - intros x Hin. apply Hx; [set_solver|]. intros ->. by apply (Hd a Hin), elem_of_cons; left.
Qed.

(** * Inodes on the disk *)
Definition enc_dinode (x : dinode) : list Z :=
  enc16 (u16 (di_type x)) ++ enc16 (u16 (di_major x)) ++ enc16 (u16 (di_minor x)) ++ enc16 (u16 (di_nlink x)) ++
  enc32 (di_size x) ++ concat (map enc32 (di_addrs x)).

(** The values the fields of an inode can have. *)
Record dinode_ok (x : dinode) : Prop := {
  do_type : -2 ^ 15 ≤ di_type x < 2 ^ 15;
  do_major : -2 ^ 15 ≤ di_major x < 2 ^ 15;
  do_minor : -2 ^ 15 ≤ di_minor x < 2 ^ 15;
  do_nlink : -2 ^ 15 ≤ di_nlink x < 2 ^ 15;
  do_size : is_u32 (di_size x);
  do_addrs : length (di_addrs x) = 13%nat ∧ Forall is_u32 (di_addrs x)
}.

Lemma enc_dinode_length x : length (di_addrs x) = 13%nat → length (enc_dinode x) = 64%nat.
Proof. intros Hl. unfold enc_dinode. rewrite !length_app, enc32s_length, Hl. done. Qed.

Lemma enc_dinode_u8 x : Forall is_u8 (enc_dinode x).
Proof. unfold enc_dinode. rewrite !Forall_app. split_and!; try apply enc_u8. apply enc32s_u8. Qed.

Lemma put_dinode_splice d o x : length (di_addrs x) = 13%nat → (o + 64 ≤ length d)%nat →
  put_dinode d o x = splice d o (enc_dinode x).
Proof.
  intros Hl Hd. unfold put_dinode, enc_dinode. pose proof (enc32s_length (di_addrs x)) as Hw. rewrite Hl in Hw.
  set (a := u16 (di_type x)). set (b := u16 (di_major x)). set (c := u16 (di_minor x)). set (e := u16 (di_nlink x)).
  assert (E1 : put16 (put16 d o a) (o + 2) b = splice d o (enc16 a ++ enc16 b)).
  { apply (splice_app d o (enc16 a)). simpl. lia. }
  assert (E2 : put16 (splice d o (enc16 a ++ enc16 b)) (o + 4) c = splice d o ((enc16 a ++ enc16 b) ++ enc16 c)).
  { apply (splice_app d o (enc16 a ++ enc16 b)). simpl. lia. }
  assert (E3 : put16 (splice d o ((enc16 a ++ enc16 b) ++ enc16 c)) (o + 6) e =
    splice d o (((enc16 a ++ enc16 b) ++ enc16 c) ++ enc16 e)).
  { apply (splice_app d o ((enc16 a ++ enc16 b) ++ enc16 c)). simpl. lia. }
  assert (E4 : put32 (splice d o (((enc16 a ++ enc16 b) ++ enc16 c) ++ enc16 e)) (o + 8) (di_size x) =
    splice d o ((((enc16 a ++ enc16 b) ++ enc16 c) ++ enc16 e) ++ enc32 (di_size x))).
  { apply (splice_app d o (((enc16 a ++ enc16 b) ++ enc16 c) ++ enc16 e)). simpl. lia. }
  rewrite E1, E2, E3, E4. rewrite put_words_splice by (rewrite splice_length; simpl; lia).
  rewrite (splice_app d o ((((enc16 a ++ enc16 b) ++ enc16 c) ++ enc16 e) ++ enc32 (di_size x))) by (rewrite Hw; simpl; lia).
  by rewrite <-!app_assoc.
Qed.

Lemma s16_u16 z : -2 ^ 15 ≤ z < 2 ^ 15 → s16 (u16 z) = z.
Proof.
  intros Hz. unfold s16, u16. change 65536 with (2 ^ 16). rewrite Zplus_mod_idemp_l.
  rewrite Z.mod_small by lia. lia.
Qed.

Lemma u16_range z : 0 ≤ u16 z < 2 ^ 16.
Proof. apply Z.mod_pos_bound. lia. Qed.

(** Reading an inode back. *)
Lemma get_dinode_shift d d' o o' : (∀ j, 0 ≤ j < 64 → at8 d (Z.of_nat o + j) = at8 d' (Z.of_nat o' + j)) →
  get_dinode d o = get_dinode d' o'.
Proof.
  intros Hj. unfold get_dinode.
  assert (Hs : ∀ k j, 0 ≤ j → Z.of_nat k + j < 64 → at8 d (Z.of_nat (o + k) + j) = at8 d' (Z.of_nat (o' + k) + j)).
  { intros k j H1 H2. specialize (Hj (Z.of_nat k + j) ltac:(lia)).
    replace (Z.of_nat (o + k) + j) with (Z.of_nat o + (Z.of_nat k + j)) by lia.
    by replace (Z.of_nat (o' + k) + j) with (Z.of_nat o' + (Z.of_nat k + j)) by lia. }
  f_equal.
  - f_equal. apply get16_shift. intros; apply Hj; lia.
  - f_equal. apply get16_shift. intros; apply Hs; lia.
  - f_equal. apply get16_shift. intros; apply Hs; lia.
  - f_equal. apply get16_shift. intros; apply Hs; lia.
  - apply get32_shift. intros; apply Hs; lia.
  - apply words_shift. intros; apply Hs; lia.
Qed.

Lemma get_enc_dinode x : dinode_ok x → get_dinode (enc_dinode x) 0 = x.
Proof.
  destruct x as [ty mj mn nl sz ad]. intros [H1 H2 H3 H4 H5 [H6 H7]]. cbn [di_type di_major di_minor di_nlink di_size di_addrs] in *.
  set (a := enc16 (u16 ty)). set (b := enc16 (u16 mj)). set (c := enc16 (u16 mn)). set (e := enc16 (u16 nl)).
  set (r := concat (map enc32 ad)). unfold get_dinode.
  change (enc_dinode (Dinode ty mj mn nl sz ad)) with (a ++ b ++ c ++ e ++ enc32 sz ++ r).
  assert (E1 : get16 (a ++ b ++ c ++ e ++ enc32 sz ++ r) 0 = u16 ty) by exact (get16_at [] _ _ (u16_range ty)).
  assert (E2 : get16 (a ++ b ++ c ++ e ++ enc32 sz ++ r) (0 + 2) = u16 mj)
    by exact (get16_at a _ (c ++ e ++ enc32 sz ++ r) (u16_range mj)).
  assert (E3 : get16 (a ++ b ++ c ++ e ++ enc32 sz ++ r) (0 + 4) = u16 mn)
    by exact (get16_at (a ++ b) _ (e ++ enc32 sz ++ r) (u16_range mn)).
  assert (E4 : get16 (a ++ b ++ c ++ e ++ enc32 sz ++ r) (0 + 6) = u16 nl)
    by exact (get16_at (a ++ b ++ c) _ (enc32 sz ++ r) (u16_range nl)).
  assert (E5 : get32 (a ++ b ++ c ++ e ++ enc32 sz ++ r) (0 + 8) = sz) by exact (get32_at (a ++ b ++ c ++ e) _ r H5).
  assert (E6 : words (a ++ b ++ c ++ e ++ enc32 sz ++ r) (0 + 12) 13 = ad).
  { rewrite <- H6. exact (words_at (a ++ b ++ c ++ e ++ enc32 sz) ad H7). }
  rewrite E1, E2, E3, E4, E5, E6. by rewrite !s16_u16.
Qed.

(** The inode that [put_dinode] wrote, and the others of the block. *)
Lemma get_put_dinode d o x : dinode_ok x → (o + 64 ≤ length d)%nat → get_dinode (put_dinode d o x) o = x.
Proof.
  intros Hx Hd. pose proof (do_addrs _ Hx) as [Hl _]. rewrite put_dinode_splice by done.
  rewrite <-(get_enc_dinode x Hx) at 2. apply get_dinode_shift. intros j Hj. rewrite Z.add_0_l.
  apply at8_in; rewrite enc_dinode_length by done; lia.
Qed.

Lemma get_put_dinode_ne d o o' x : length (di_addrs x) = 13%nat → (o + 64 ≤ length d)%nat →
  (o' + 64 ≤ o ∨ o + 64 ≤ o')%nat → get_dinode (put_dinode d o x) o' = get_dinode d o'.
Proof.
  intros Hl Hd Ho. rewrite put_dinode_splice by done. apply get_dinode_shift. intros j Hj.
  rewrite at8_splice by (rewrite ?enc_dinode_length by done; lia). rewrite enc_dinode_length by done.
  by rewrite decide_False by lia.
Qed.

Section data.
Context `{BlockDriverOk}.
Variable mypid : Z.

(** How many blocks the bitmap marks as free. *)
Definition nfree (V : blocks) (sb : superblock) (dev : Z) : nat :=
  length (filter (λ j, used V sb dev (Z.of_nat j) = false) (seq 0 (Z.to_nat (sb_size sb)))).

Lemma nfree_alloc V sb dev b : geom V sb dev → 0 ≤ b < sb_size sb → used V sb dev b = false →
  nfree V sb dev = S (nfree (alloc_view V sb dev b) sb dev).
Proof.
  intros Hg Hb Hu. apply (filter_one _ _ _ (Z.to_nat b)).
  - apply NoDup_seq.
  - apply elem_of_seq. lia.
  - by rewrite Z2Nat.id by lia.
  - rewrite Z2Nat.id by lia. rewrite used_alloc, decide_True by done. done.
  - intros j Hj%elem_of_seq Hne. rewrite used_alloc by (done || lia). by rewrite decide_False by lia.
Qed.

Lemma nfree_0 V sb dev : (∀ j, 0 ≤ j < sb_size sb → used V sb dev j = true) → nfree V sb dev = 0%nat.
Proof.
  intros Hu. unfold nfree. rewrite (filter_same _ (λ _, False)); [by induction (seq _ _)|].
  intros j Hj%elem_of_seq. rewrite Hu by lia. done.
Qed.

Lemma nfree_ext V V' sb dev : (∀ j, 0 ≤ j < sb_size sb → used V' sb dev j = used V sb dev j) →
  nfree V' sb dev = nfree V sb dev.
Proof. intros Hu. unfold nfree. f_equal. apply filter_same. intros j Hj%elem_of_seq. by rewrite Hu by lia. Qed.

(** * Files *)

(** The file system: a good bitmap, blocks of the right size, and a bitmap
    that marks block 0 and the blocks of the inodes. *)
Record fsg (V : blocks) (sb : superblock) (dev : Z) : Prop := {
  fg_size : 0 < sb_size sb ≤ 2 ^ 32;
  fg_geom : geom V sb dev;
  fg_block : ∀ b, 0 ≤ b < sb_size sb → block_len (V dev b) ∧ Forall is_u8 (V dev b);
  fg_zero : used V sb dev 0 = true;
  fg_inode : ∀ i, 0 ≤ i < sb_ninodes sb → 0 ≤ IBLOCK i sb < sb_size sb ∧ used V sb dev (IBLOCK i sb) = true ∧
    ∀ j, 0 ≤ j < sb_size sb → IBLOCK i sb ≠ BBLOCK j sb
}.

(** A block that may belong to a file. *)
Record dblock (V : blocks) (sb : superblock) (dev b : Z) : Prop := {
  db_range : 0 < b < sb_size sb;
  db_used : used V sb dev b = true;
  db_bitmap : ∀ j, 0 ≤ j < sb_size sb → b ≠ BBLOCK j sb;
  db_inode : ∀ i, 0 ≤ i < sb_ninodes sb → b ≠ IBLOCK i sb
}.

(** The indirect block of a file and the block that holds block [bn] of it, 0
    when there is none. *)
Definition ind (x : inode) : Z := default 0 (i_addrs x !! 12%nat).
Definition fblock (V : blocks) (x : inode) (bn : Z) : Z :=
  if bn <? NDIRECT then default 0 (i_addrs x !! Z.to_nat bn)
  else if ind x =? 0 then 0 else get32 (V (i_dev x) (ind x)) (Z.to_nat (4 * (bn - NDIRECT))).

(** The bytes of a file; a block that is not there reads as zero. *)
Definition fbyte (V : blocks) (x : inode) (p : Z) : Z :=
  if fblock V x (p / BSIZE) =? 0 then 0 else at8 (V (i_dev x) (fblock V x (p / BSIZE))) (p mod BSIZE).

Abbreviation in_file bn := (0 ≤ bn < MAXFILE).

(** A file: its blocks are blocks for files, each used once, and the bytes below its
    size are there. *)
Record file_ok (V : blocks) (sb : superblock) (dev : Z) (x : inode) : Prop := {
  fo_dev : i_dev x = dev;
  fo_len : length (i_addrs x) = 13%nat;
  fo_size : 0 ≤ i_size x ≤ MAXFILE * BSIZE;
  fo_ind : ind x ≠ 0 → dblock V sb dev (ind x);
  fo_map : ∀ bn, in_file bn → fblock V x bn ≠ 0 → dblock V sb dev (fblock V x bn) ∧ fblock V x bn ≠ ind x;
  fo_inj : ∀ bn bn', in_file bn → in_file bn' → fblock V x bn ≠ 0 → fblock V x bn = fblock V x bn' → bn = bn';
  fo_full : ∀ bn, 0 ≤ bn → bn * BSIZE < i_size x → fblock V x bn ≠ 0
}.

Definition owns (V : blocks) (x : inode) (b : Z) : Prop :=
  b ≠ 0 ∧ (b = ind x ∨ ∃ bn, in_file bn ∧ fblock V x bn = b).

Definition used_mono (V V' : blocks) (sb : superblock) (dev : Z) : Prop :=
  ∀ b, 0 ≤ b < sb_size sb → used V sb dev b = true → used V' sb dev b = true.

Lemma dblock_mono V V' sb dev b : used_mono V V' sb dev → dblock V sb dev b → dblock V' sb dev b.
Proof. intros Hm [Hr Hu Hb Hi]. split; try done. apply Hm; [lia|done]. Qed.

Lemma owns_dblock V sb dev x b : file_ok V sb dev x → owns V x b → dblock V sb dev b.
Proof. intros Hf [H0 [->|(bn & Hbn & <-)]]; [by apply Hf|by apply (fo_map _ _ _ _ Hf)]. Qed.

(** What gains one block, and perhaps the indirect block, is still a file. *)
Lemma file_extend V V' sb dev x x' bn a : file_ok V sb dev x → used_mono V V' sb dev →
  i_dev x' = i_dev x → i_size x' = i_size x → length (i_addrs x') = 13%nat →
  fblock V x bn = 0 → (∀ bn', in_file bn' → fblock V' x' bn' = if decide (bn' = bn) then a else fblock V x bn') →
  (a ≠ 0 → dblock V' sb dev a ∧ used V sb dev a = false ∧ a ≠ ind x') →
  (ind x' ≠ 0 → dblock V' sb dev (ind x') ∧ (ind x' = ind x ∨ used V sb dev (ind x') = false)) →
  file_ok V' sb dev x'.
Proof.
  intros Hf Hm Hdv Hsz Hl H0 Hmap Ha Hi.
  assert (Hold : ∀ bn', in_file bn' → fblock V x bn' ≠ 0 → dblock V sb dev (fblock V x bn')) by (intros; by apply Hf).
  split; try done.
  - rewrite Hdv. apply Hf.
  - rewrite Hsz. apply Hf.
  - intros Hi0. by apply Hi.
  - intros bn' Hb. rewrite Hmap by done. case_decide as Hd; [intros Ha0; destruct (Ha Ha0) as (? & ? & ?); done|]. intros Hn.
    split; [by apply (dblock_mono V), Hold|]. intros E. assert (Hi0 : ind x' ≠ 0) by congruence.
    destruct (Hi Hi0) as [_ [Ei|Ei]].
    + rewrite Ei in E. by apply (fo_map _ _ _ _ Hf bn' Hb Hn).
    + rewrite <- E in Ei. by rewrite (db_used _ _ _ _ (Hold bn' Hb Hn)) in Ei.
  - intros b1 b2 H1 H2. rewrite !Hmap by done. repeat case_decide; subst; try done.
    + intros Ha0 E. destruct (Ha Ha0) as (_ & Hu & _). rewrite E in Hu. rewrite E in Ha0.
      by rewrite (db_used _ _ _ _ (Hold b2 H2 Ha0)) in Hu.
    + intros Hn E. assert (Ha0 : a ≠ 0) by congruence. destruct (Ha Ha0) as (_ & Hu & _). rewrite <- E in Hu.
      by rewrite (db_used _ _ _ _ (Hold b1 H1 Hn)) in Hu.
    + apply Hf; done.
  - intros b1 Hb Hlt. pose proof (fo_size _ _ _ _ Hf). rewrite Hsz in Hlt. pose proof (fo_full _ _ _ _ Hf b1 Hb Hlt) as Hx.
    rewrite Hmap by lia. case_decide; [by subst|done].
Qed.

(** A file whose indirect block is not touched. *)
Lemma fblock_frame V V' x bn : (ind x ≠ 0 → V' (i_dev x) (ind x) = V (i_dev x) (ind x)) → fblock V' x bn = fblock V x bn.
Proof. intros Hi. unfold fblock. case_match; [done|]. destruct (Z.eqb_spec (ind x) 0); [done|]. by rewrite Hi. Qed.

Lemma file_frame V V' sb dev x : file_ok V sb dev x → used_mono V V' sb dev →
  (ind x ≠ 0 → V' (i_dev x) (ind x) = V (i_dev x) (ind x)) → file_ok V' sb dev x.
Proof.
  intros Hf Hm Hi. assert (Hb : ∀ bn, fblock V' x bn = fblock V x bn) by (intros; by apply fblock_frame).
  destruct Hf. split; try done; [eauto using dblock_mono|..]; intros; rewrite ?Hb in *; eauto.
  destruct (fo_map0 bn) as [? ?]; eauto using dblock_mono.
Qed.

(** * Views *)
Lemma bm_set_u8 d bi : Forall is_u8 d → Forall is_u8 (bm_set d bi).
Proof.
  intros Hd. apply splice_u8; [done|]. constructor; [|done]. pose proof (at8_u8 d (bi / 8) Hd) as [Ha1 Ha2].
  assert (Hm : 0 ≤ bi mod 8 < 8) by (apply Z.mod_pos_bound; lia). unfold is_u8 in *. split.
  - apply Z.lor_nonneg. rewrite Z.shiftl_nonneg. lia.
  - destruct (Z.eq_dec (Z.lor (at8 d (bi / 8)) (Z.shiftl 1 (bi mod 8))) 0) as [->|Hne]; [lia|].
    apply (Z.log2_lt_cancel _ 256). rewrite Z.log2_lor by (rewrite ?Z.shiftl_nonneg; lia).
    rewrite Z.shiftl_1_l, Z.log2_pow2 by lia. change (Z.log2 256) with 8.
    destruct (decide (at8 d (bi / 8) = 0)) as [->|]; [simpl; lia|].
    assert (Z.log2 (at8 d (bi / 8)) < 8); [apply Z.log2_lt_pow2; simpl; lia|lia].
Qed.

Lemma not_bitmap_used V sb dev b (d : list Z) j : (∀ j, 0 ≤ j < sb_size sb → b ≠ BBLOCK j sb) → 0 ≤ j < sb_size sb →
  used (blocks_upd dev b d V) sb dev j = used V sb dev j.
Proof. intros Hb Hj. apply used_upd_other. by apply Hb. Qed.

(** Writing a block that is not of the bitmap. *)
Lemma fsg_upd V sb dev b (d : list Z) : fsg V sb dev → (∀ j, 0 ≤ j < sb_size sb → b ≠ BBLOCK j sb) →
  block_len d → Forall is_u8 d → fsg (blocks_upd dev b d V) sb dev.
Proof.
  intros [Hs Hg Hbl Hz Hi] Hb Hl Hu. split; [done|..].
  - destruct Hg as [Hd Hk Hm]. split; [done|done|]. intros j Hj. destruct (Hm j Hj) as (E1 & E2 & E3 & E4).
    rewrite not_bitmap_used by done. split_and!; try done; try lia. rewrite blocks_upd_ne; [done|].
    intros [= E]. by apply (Hb j Hj).
  - intros y Hy. destruct (decide (y = b)) as [->|Hne]; [by rewrite blocks_upd_eq|].
    rewrite blocks_upd_ne by congruence. by apply Hbl.
  - by rewrite not_bitmap_used by (done || lia).
  - intros i Hin. destruct (Hi i Hin) as (H1 & H2 & H3). by rewrite not_bitmap_used.
Qed.

Lemma used_mono_upd V sb dev b (d : list Z) : (∀ j, 0 ≤ j < sb_size sb → b ≠ BBLOCK j sb) →
  used_mono V (blocks_upd dev b d V) sb dev.
Proof. intros Hb y Hy. by rewrite not_bitmap_used. Qed.

Lemma used_mono_trans V1 V2 V3 sb dev : used_mono V1 V2 sb dev → used_mono V2 V3 sb dev → used_mono V1 V3 sb dev.
Proof. intros H1 H2 b Hb Hu. by apply H2, H1. Qed.

Section alloc.
Context (V : blocks) (sb : superblock) (dev b : Z).
Hypotheses (Hg : fsg V sb dev) (Hb : 0 ≤ b < sb_size sb) (Hu : used V sb dev b = false).

Lemma alloc_mono : used_mono V (alloc_view V sb dev b) sb dev.
Proof. intros y Hy Huy. rewrite used_alloc by (done || apply Hg). by case_decide. Qed.

Lemma alloc_not_bitmap j : 0 ≤ j < sb_size sb → b ≠ BBLOCK j sb.
Proof. intros Hj. by eapply free_not_bitmap; [apply Hg|..]. Qed.

Lemma alloc_dblock : dblock (alloc_view V sb dev b) sb dev b.
Proof.
  split.
  - assert (b ≠ 0); [|lia]. intros ->. by rewrite (fg_zero _ _ _ Hg) in Hu.
  - rewrite used_alloc by (done || apply Hg). by rewrite decide_True.
  - exact alloc_not_bitmap.
  - intros i Hi ->. destruct (fg_inode _ _ _ Hg i Hi) as (_ & E & _). congruence.
Qed.

Lemma alloc_zero : alloc_view V sb dev b dev b = replicate (Z.to_nat BSIZE) 0.
Proof. apply blocks_upd_eq. Qed.

Lemma alloc_keep y : used V sb dev y = true → (∀ j, 0 ≤ j < sb_size sb → y ≠ BBLOCK j sb) →
  alloc_view V sb dev b dev y = V dev y.
Proof.
  intros Hy Hn. unfold alloc_view. rewrite blocks_upd_ne by (intros [= ->]; congruence).
  rewrite blocks_upd_ne; [done|]. intros [= ->]. by apply (Hn b Hb).
Qed.

Lemma alloc_fsg : fsg (alloc_view V sb dev b) sb dev.
Proof.
  assert (Hz : Forall is_u8 (replicate (Z.to_nat BSIZE) 0)) by (apply Forall_replicate; done).
  split; [apply Hg|by apply geom_alloc; [apply Hg|..]|..].
  - intros y Hy. unfold alloc_view. destruct (decide (y = b)) as [->|]; [by rewrite blocks_upd_eq|].
    rewrite blocks_upd_ne by congruence. destruct (fg_block _ _ _ Hg y Hy) as [Hl Hu8].
    destruct (decide (y = BBLOCK b sb)) as [->|]; [|by rewrite blocks_upd_ne by congruence].
    rewrite blocks_upd_eq. split; [|by apply bm_set_u8]. by apply bm_len, mod_BPB.
  - apply alloc_mono; [pose proof (fg_size _ _ _ Hg); lia|apply Hg].
  - intros i Hi. destruct (fg_inode _ _ _ Hg i Hi) as (H1 & H2 & H3). split_and!; try done; try lia. by apply alloc_mono.
Qed.
End alloc.

(** * The block map grows *)

(** What [bmap] does to a file: blocks are added, which hold zeroes, and
    nothing else changes but the entries of its indirect block. *)
Record grown (sb : superblock) (dev : Z) (V : blocks) (x : inode) (V' : blocks) (x' : inode) : Prop := {
  gr_meta : x' = v_addrs (i_addrs x') x;
  gr_fsg : fsg V' sb dev;
  gr_file : file_ok V' sb dev x';
  gr_map : ∀ bn, in_file bn → fblock V x bn ≠ 0 → fblock V' x' bn = fblock V x bn;
  gr_new : ∀ bn, in_file bn → fblock V x bn = 0 → fblock V' x' bn ≠ 0 →
    used V sb dev (fblock V' x' bn) = false ∧ V' dev (fblock V' x' bn) = replicate (Z.to_nat BSIZE) 0;
  gr_ind : ind x' = ind x ∨ used V sb dev (ind x') = false;
  gr_keep : ∀ b, 0 ≤ b < sb_size sb → used V sb dev b = true → (∀ j, 0 ≤ j < sb_size sb → b ≠ BBLOCK j sb) →
    b ≠ ind x → V' dev b = V dev b;
  gr_used : used_mono V V' sb dev
}.

Lemma grown_refl sb dev V x : fsg V sb dev → file_ok V sb dev x → grown sb dev V x V x.
Proof. intros Hg Hf. split; try done; [by destruct x|by left|by intros b]. Qed.

Lemma grown_trans sb dev V1 x1 V2 x2 V3 x3 : file_ok V1 sb dev x1 → grown sb dev V1 x1 V2 x2 → grown sb dev V2 x2 V3 x3 →
  grown sb dev V1 x1 V3 x3.
Proof.
  intros Hf G1 G2. assert (Hb0 : ∀ b, 0 ≤ b < sb_size sb → used V2 sb dev b = false → used V1 sb dev b = false).
  { intros b Hb Hu. destruct (used V1 sb dev b) eqn:E; [|done]. by rewrite (gr_used _ _ _ _ _ _ G1 b Hb E) in Hu. }
  assert (Hrange : ∀ bn, in_file bn → fblock V3 x3 bn ≠ 0 → 0 ≤ fblock V3 x3 bn < sb_size sb).
  { intros bn Hbn Hn. destruct (fo_map _ _ _ _ (gr_file _ _ _ _ _ _ G2) bn Hbn Hn) as [[Hr _ _ _] _]. lia. }
  split; try apply G2.
  - rewrite (gr_meta _ _ _ _ _ _ G2), (gr_meta _ _ _ _ _ _ G1). done.
  - intros bn Hbn Hn. pose proof (gr_map _ _ _ _ _ _ G1 bn Hbn Hn) as E1.
    rewrite (gr_map _ _ _ _ _ _ G2 bn Hbn); [done|congruence].
  - intros bn Hbn H0 H3. destruct (decide (fblock V2 x2 bn = 0)) as [E|Hn].
    + destruct (gr_new _ _ _ _ _ _ G2 bn Hbn E H3) as [Hu Hz]. split; [|done]. apply Hb0; [by apply Hrange|done].
    + pose proof (gr_map _ _ _ _ _ _ G2 bn Hbn Hn) as E. rewrite E.
      destruct (gr_new _ _ _ _ _ _ G1 bn Hbn H0 Hn) as [Hu Hz]. split; [done|].
      destruct (fo_map _ _ _ _ (gr_file _ _ _ _ _ _ G1) bn Hbn Hn) as [[Hr Hus Hbm _] Hi].
      rewrite (gr_keep _ _ _ _ _ _ G2); [done|lia|done|done|done].
  - destruct (gr_ind _ _ _ _ _ _ G2) as [->|Hu]; [apply G1|].
    destruct (decide (ind x3 = 0)) as [E|Hn].
    + rewrite E in Hu. by rewrite (fg_zero _ _ _ (gr_fsg _ _ _ _ _ _ G1)) in Hu.
    + right. apply Hb0; [|done]. destruct (fo_ind _ _ _ _ (gr_file _ _ _ _ _ _ G2) Hn). lia.
  - intros b Hb Hu Hbm Hi. rewrite (gr_keep _ _ _ _ _ _ G2 b Hb); [by apply G1|by apply G1|done|].
    destruct (gr_ind _ _ _ _ _ _ G1) as [->|Hu']; [done|]. intros ->. congruence.
  - eapply used_mono_trans; [apply G1|apply G2].
Qed.

(** The bytes of the file are those it had. *)
Lemma grown_byte sb dev V x V' x' p : file_ok V sb dev x → grown sb dev V x V' x' → 0 ≤ p < MAXFILE * BSIZE →
  fbyte V' x' p = fbyte V x p.
Proof.
  intros Hf G Hp. assert (Hbn : in_file (p / BSIZE)) by (Z.div_mod_to_equations; lia).
  assert (Hd' : i_dev x' = dev) by (by rewrite (gr_meta _ _ _ _ _ _ G); apply Hf).
  unfold fbyte. rewrite Hd', (fo_dev _ _ _ _ Hf). destruct (Z.eqb_spec (fblock V x (p / BSIZE)) 0) as [E|Hn].
  - destruct (Z.eqb_spec (fblock V' x' (p / BSIZE)) 0) as [_|Hn]; [done|].
    destruct (gr_new _ _ _ _ _ _ G _ Hbn E Hn) as [_ ->]. unfold at8.
    destruct (_ !! _) as [v|] eqn:Ev; [|done]. by apply lookup_replicate in Ev as [-> _].
  - rewrite (gr_map _ _ _ _ _ _ G _ Hbn Hn). rewrite (proj2 (Z.eqb_neq _ _) Hn). f_equal.
    destruct (fo_map _ _ _ _ Hf _ Hbn Hn) as [[Hr Hu Hbm _] Hi]. apply (gr_keep _ _ _ _ _ _ G); (done || lia).
Qed.

Section grow.
Context (V : blocks) (sb : superblock) (dev : Z) (x : inode) (b : Z).
Hypotheses (Hg : fsg V sb dev) (Hf : file_ok V sb dev x).
Hypotheses (Hb : 0 ≤ b < sb_size sb) (Hu : used V sb dev b = false).
Let V1 := alloc_view V sb dev b.

Lemma fresh_nonzero : b ≠ 0.
Proof. pose proof (alloc_dblock V sb dev b Hg Hb Hu) as []. lia. Qed.

Lemma fresh_ind : ind x ≠ 0 → V1 dev (ind x) = V dev (ind x).
Proof. intros Hn. destruct (fo_ind _ _ _ _ Hf Hn). by apply alloc_keep. Qed.

Lemma fresh_not_ind : b ≠ ind x.
Proof.
  intros E. assert (Hn : ind x ≠ 0) by (rewrite <- E; apply fresh_nonzero).
  destruct (fo_ind _ _ _ _ Hf Hn) as [_ Hx _ _]. congruence.
Qed.

(** One more entry [bn] of the map, and a block [b] that was free. *)
Lemma grow_one V' x' bn : in_file bn → fblock V x bn = 0 → x' = v_addrs (i_addrs x') x → length (i_addrs x') = 13%nat →
  fsg V' sb dev → used_mono V1 V' sb dev → (∀ y, y ≠ ind x → V' dev y = V1 dev y) →
  ind x' = ind x → (∀ bn', in_file bn' → fblock V' x' bn' = if decide (bn' = bn) then b else fblock V x bn') →
  grown sb dev V x V' x'.
Proof.
  intros Hbn H0 Hx Hl Hg' Hm Hk Hi Hmap. pose proof fresh_nonzero. pose proof fresh_not_ind.
  assert (Hm' : used_mono V V' sb dev) by (eapply used_mono_trans; [by apply alloc_mono|done]).
  assert (Hdb : dblock V' sb dev b) by (by eapply dblock_mono, alloc_dblock).
  split; try done.
  - apply (file_extend V V' sb dev x x' bn b); try done; try (by rewrite Hx).
    + intros _. by rewrite Hi.
    + rewrite Hi. intros Hn. split; [|by left]. by eapply dblock_mono, Hf.
  - intros bn' Hb' Hn. rewrite Hmap by done. case_decide; [by subst|done].
  - intros bn' Hb' E. rewrite Hmap by done. case_decide as Hd; [intros _|done]. split; [done|].
    rewrite Hk by done. apply alloc_zero.
  - by left.
  - intros y Hy Huy Hbm Hn. rewrite Hk by done. by apply alloc_keep.
Qed.

Lemma grow_direct bn : 0 ≤ bn < NDIRECT → fblock V x bn = 0 →
  let x' := v_addrs (<[Z.to_nat bn := b]> (i_addrs x)) x in
  grown sb dev V x V1 x' ∧ fblock V1 x' bn = b.
Proof.
  intros Hbn H0 x'. assert (Hl : length (i_addrs x) = 13%nat) by apply Hf.
  assert (Hi : ind x' = ind x) by (unfold ind; simpl; by rewrite list_lookup_insert_ne by lia).
  assert (Hmap : ∀ bn', in_file bn' → fblock V1 x' bn' = if decide (bn' = bn) then b else fblock V x bn').
  { intros bn' Hb'. unfold fblock. rewrite Hi. simpl. destruct (Z.ltb_spec bn' NDIRECT).
    - case_decide as Hd; [subst; by rewrite list_lookup_insert_eq by lia|].
      by rewrite list_lookup_insert_ne by lia.
    - rewrite decide_False by lia. destruct (Z.eqb_spec (ind x) 0); [done|].
      by rewrite (fo_dev _ _ _ _ Hf), fresh_ind. }
  split; [|rewrite Hmap by lia; by rewrite decide_True].
  apply (grow_one V1 x' bn); try done; [lia|simpl; by rewrite length_insert|by apply alloc_fsg|by intros ?].
Qed.

Lemma grow_entry bn : NDIRECT ≤ bn < MAXFILE → ind x ≠ 0 → fblock V x bn = 0 →
  let V' := blocks_upd dev (ind x) (put32 (V dev (ind x)) (Z.to_nat (4 * (bn - NDIRECT))) b) V1 in
  grown sb dev V x V' x ∧ fblock V' x bn = b.
Proof.
  intros Hbn Hn H0 V'. pose proof (fo_ind _ _ _ _ Hf Hn) as [Hr Hui Hbm _]. pose proof (fo_dev _ _ _ _ Hf) as Hdv.
  destruct (fg_block _ _ _ Hg (ind x) ltac:(lia)) as [Hl Hu8]. unfold block_len in Hl.
  assert (Hmap : ∀ bn', in_file bn' → fblock V' x bn' = if decide (bn' = bn) then b else fblock V x bn').
  { intros bn' Hb'. unfold fblock. destruct (Z.ltb_spec bn' NDIRECT); [by rewrite decide_False by lia|].
    rewrite (proj2 (Z.eqb_neq _ _) Hn), Hdv. unfold V'. rewrite blocks_upd_eq. case_decide as Hd.
    - subst. apply get32_put32; [lia|]. pose proof (fg_size _ _ _ Hg). unfold is_u32. lia.
    - unfold put32. apply get32_splice_ne; simpl; lia. }
  split; [|rewrite Hmap by lia; by rewrite decide_True].
  apply (grow_one V' x bn); try done; [lia|by destruct x|apply Hf|..].
  - apply fsg_upd; [by apply alloc_fsg|done|unfold block_len; by rewrite put32_length by lia|].
    apply splice_u8; [done|apply enc_u8].
  - by apply used_mono_upd.
  - intros y Hy. unfold V'. by rewrite blocks_upd_ne by congruence.
Qed.

Lemma grow_ind : ind x = 0 →
  let x' := v_addrs (<[12%nat := b]> (i_addrs x)) x in
  grown sb dev V x V1 x' ∧ ind x' = b ∧ ∀ bn, in_file bn → fblock V1 x' bn = fblock V x bn.
Proof.
  intros H0 x'. assert (Hl : length (i_addrs x) = 13%nat) by apply Hf. pose proof fresh_nonzero as Hbn0.
  assert (Hi : ind x' = b) by (unfold ind; simpl; by rewrite list_lookup_insert_eq by lia).
  assert (Hdb : dblock V1 sb dev b) by (by apply alloc_dblock).
  assert (Hmap : ∀ bn, in_file bn → fblock V1 x' bn = fblock V x bn).
  { intros bn Hbn. unfold fblock. rewrite Hi, H0. simpl. destruct (Z.ltb_spec bn NDIRECT).
    - by rewrite list_lookup_insert_ne by lia.
    - rewrite (proj2 (Z.eqb_neq b 0) Hbn0), (fo_dev _ _ _ _ Hf). unfold V1. rewrite alloc_zero.
      unfold get32. apply load32_zero. intros y Hy. unfold at8. destruct (_ !! _) as [v|] eqn:Ev; [|done].
      by apply lookup_replicate in Ev as [-> _]. }
  split_and!; [|done|done]. split; try done.
  - by apply alloc_fsg.
  - destruct (decide (fblock V x 139 = 0)) as [E|E].
    + apply (file_extend V V1 sb dev x x' 139 0); try done; [by apply alloc_mono|simpl; by rewrite length_insert| |].
      * intros bn' Hb'. rewrite Hmap by done. case_decide as Hd; [by rewrite Hd|done].
      * intros _. rewrite Hi. split; [done|by right].
    + exfalso. apply E. unfold fblock. by rewrite H0.
  - intros bn Hbn _. by apply Hmap.
  - intros bn Hbn E. by rewrite Hmap by done.
  - right. by rewrite Hi.
  - intros y Hy Huy Hbm _. by apply alloc_keep.
  - by apply alloc_mono.
Qed.
End grow.

(** * [bmap] *)
Lemma balloc_step s V Hd hs : let sb := fs_sb s in let dev := lg_dev (ls_log (fs_ls s)) in
  fsg V sb dev → tx mypid (fs_ls s) V Hd hs → held_used V sb dev Hd → log_room (ls_log (fs_ls s)) hs 2 →
  holding_one Hd hs 2 → (0 < nfree V sb dev)%nat →
  ∃ b ls' hs', balloc mypid dev s = Ok (b, put FLS ls' s) ∧ 0 ≤ b < sb_size sb ∧ used V sb dev b = false ∧
    tx mypid ls' (alloc_view V sb dev b) Hd hs' ∧ (length hs' ≤ length hs + 2)%nat ∧
    nfree V sb dev = S (nfree (alloc_view V sb dev b) sb dev) ∧
    bc_disk (ls_bc ls') = bc_disk (ls_bc (fs_ls s)) ∧ same_log (ls_log (fs_ls s)) (ls_log ls').
Proof.
  intros sb dev Hg Ht Hhu Hr Hho Hn. subst sb dev. pose proof (fg_geom _ _ _ Hg) as Hgm.
  destruct (balloc_run mypid s V Hd hs Hgm Ht Hhu Hr Hho) as [(b & ls' & E & Hb & Hu & _ & Ht' & Hd' & Hl)|[_ Hall]].
  - eexists b, ls', _. split_and!; try done; try lia.
    + pose proof (logged_length hs (BBLOCK b (fs_sb s))). pose proof (logged_length (logged hs (BBLOCK b (fs_sb s))) b). lia.
    + by apply nfree_alloc.
  - exfalso. rewrite nfree_0 in Hn; [lia|done].
Qed.

Lemma ifld_run {T} s ip x (f : inode → T) : fs_inode s !! ip = Some x → ifld ip f s = Ok (f x, s).
Proof. unfold ifld. by intros ->. Qed.

Lemma iset_run s ip x g : fs_inode s !! ip = Some x → iset ip g s = Ok (tt, put FIC (<[ip := g x]> (fs_inode s)) s).
Proof. unfold iset. by intros ->. Qed.

Lemma addr_run s ip x i : fs_inode s !! ip = Some x → (i < length (i_addrs x))%nat →
  addr ip i s = Ok (default 0 (i_addrs x !! i), s).
Proof.
  intros Hx Hi. unfold addr. erewrite bind_Ok by (by apply ifld_run).
  destruct (lookup_lt_is_Some_2 (i_addrs x) i Hi) as [v ->]. done.
Qed.

Lemma set_addr_run s ip x i v : fs_inode s !! ip = Some x → (i < length (i_addrs x))%nat →
  set_addr ip i v s = Ok (tt, put FIC (<[ip := v_addrs (<[i := v]> (i_addrs x)) x]> (fs_inode s)) s).
Proof.
  intros Hx Hi. unfold set_addr. erewrite bind_Ok by (by apply ifld_run). apply Nat.ltb_lt in Hi as ->.
  unfold iset. by rewrite Hx.
Qed.

(** Reading a block: [bread], the data, [brelse]. *)
Lemma cache_read bc V Dp dev bno : cache mypid bc V ∅ Dp → dev ≠ 0 → drv_ok dev bno = true → (size Dp < NBUF)%nat →
  ∃ i bc1 bc2, bread mypid dev bno bc = Ok (i, bc1) ∧ bderef (Some i) b_data bc1 = Ok (V dev bno, bc1) ∧
    brelse mypid i bc1 = Ok (tt, bc2) ∧ cache mypid bc2 V ∅ Dp ∧ bc_disk bc2 = bc_disk bc.
Proof.
  intros Hc Hdev Hok Hsz. assert (Hn : not_held ∅ dev bno) by (intros ?; by rewrite lookup_empty).
  destruct (bread_step mypid bc V ∅ Dp dev bno Hc Hdev Hok Hn) as (i & bc1 & E1 & _ & Hc1 & Hd1);
    [right; by rewrite map_size_empty|].
  assert (Hi : (<[i := (dev, bno)]> ∅ : gmap nat (Z * Z)) !! i = Some (dev, bno)) by (by apply lookup_insert_eq).
  pose proof (bdata_step mypid bc1 V _ Dp i dev bno Hc1 Hi) as E2.
  destruct (brelse_step mypid bc1 V _ Dp i dev bno Hc1 Hi) as (bc2 & E3 & Hc2 & Hd2).
  { destruct (decide ((dev, bno) ∈ Dp)) as [?|Hno]; [by left|right]. rewrite Hd1. by apply (cache_clean mypid bc V ∅ Dp). }
  rewrite delete_insert_id in Hc2 by done. exists i, bc1, bc2. split_and!; try done; [apply E2|congruence].
Qed.

(** A block that is there. *)
Lemma bmap_found s V Dp ip x bn dev : let sb := fs_sb s in
  fs_inode s !! ip = Some x → cache mypid (ls_bc (fs_ls s)) V ∅ Dp → fsg V sb dev → file_ok V sb dev x → in_file bn →
  (size Dp < NBUF)%nat → fblock V x bn ≠ 0 →
  ∃ bc', bmap mypid ip bn s = Ok (fblock V x bn, put FBC bc' s) ∧ cache mypid bc' V ∅ Dp ∧ bc_disk bc' = bc_disk (ls_bc (fs_ls s)).
Proof.
  intros sb Hx Hc Hg Hf Hbn Hlen Hn. destruct s as [[bc l] sb0 lk ino]. simpl in sb, Hx, Hc. subst sb.
  cbn [fs_ls fs_sb ls_log ls_bc] in *. pose proof (fo_dev _ _ _ _ Hf) as Hdv. pose proof (fo_len _ _ _ _ Hf) as Hl.
  set (s := FsState (LogSys bc l) sb0 lk ino) in *.
  assert (Eaddr : ∀ i, (i < 13)%nat → addr ip i s = Ok (default 0 (i_addrs x !! i), s)) by (intros; apply addr_run; [done|lia]).
  unfold bmap. erewrite bind_Ok by (by apply ifld_run). revert Hn. unfold fblock.
  destruct (Z.ltb_spec bn NDIRECT); intros Hn.
  { erewrite bind_Ok by (apply Eaddr; lia). rewrite (proj2 (Z.eqb_neq _ _) Hn). exists bc. by split_and!. }
  destruct (Z.ltb_spec (bn - NDIRECT) NINDIRECT); [|lia]. erewrite bind_Ok by (apply Eaddr; lia).
  change (default 0 (i_addrs x !! Z.to_nat NDIRECT)) with (ind x).
  destruct (Z.eqb_spec (ind x) 0) as [|Hi]; [done|]. erewrite bind_Ok by reflexivity.
  rewrite Hdv in *. destruct (fo_ind _ _ _ _ Hf Hi) as [Hr Hu Hbm _].
  destruct (cache_read bc V Dp dev (ind x) Hc) as (i & bc1 & bc2 & E1 & E2 & E3 & Hc2 & Hd2); [apply Hg| |done|].
  { apply (ge_blk _ _ _ (fg_geom _ _ _ Hg)). lia. }
  exists bc2. split_and!; [|done|done].
  unfold bmap_indirect. kstep E1. kstep E2. rewrite (proj2 (Z.eqb_neq _ _) Hn). erewrite bind_Ok by reflexivity.
  kstep E3. done.
Qed.

Lemma nfree_upd V sb dev b (d : list Z) : (∀ j, 0 ≤ j < sb_size sb → b ≠ BBLOCK j sb) →
  nfree (blocks_upd dev b d V) sb dev = nfree V sb dev.
Proof. intros Hb. apply nfree_ext. intros j Hj. by apply not_bitmap_used. Qed.

Lemma bmap_indirect_run s V hs x bn : let sb := fs_sb s in let dev := lg_dev (ls_log (fs_ls s)) in
  tx mypid (fs_ls s) V ∅ hs → fsg V sb dev → file_ok V sb dev x → NDIRECT ≤ bn < MAXFILE → ind x ≠ 0 →
  log_room (ls_log (fs_ls s)) hs 3 → (0 < nfree V sb dev)%nat →
  ∃ ls' V' hs', bmap_indirect mypid dev (ind x) (bn - NDIRECT) s = Ok (fblock V' x bn, put FLS ls' s) ∧
    tx mypid ls' V' ∅ hs' ∧ grown sb dev V x V' x ∧ fblock V' x bn ≠ 0 ∧ (length hs' ≤ length hs + 3)%nat ∧
    (nfree V sb dev ≤ nfree V' sb dev + 1)%nat ∧ bc_disk (ls_bc ls') = bc_disk (ls_bc (fs_ls s)) ∧
    same_log (ls_log (fs_ls s)) (ls_log ls').
Proof.
  intros sb dev Ht Hg Hf Hbn Hi [Hr1 Hr2] Hn. destruct s as [[bc l] sb0 lk ino]. simpl in sb, dev. subst sb dev.
  cbn [fs_ls fs_sb ls_log ls_bc] in *. pose proof (fo_dev _ _ _ _ Hf) as Hdv.
  destruct (fo_ind _ _ _ _ Hf Hi) as [Hr Hu Hbm _].
  assert (Hfb : fblock V x bn = get32 (V (lg_dev l) (ind x)) (Z.to_nat (4 * (bn - NDIRECT)))).
  { unfold fblock. destruct (Z.ltb_spec bn NDIRECT); [lia|]. by rewrite (proj2 (Z.eqb_neq _ _) Hi), Hdv. }
  destruct (tx_bread mypid bc l V ∅ hs (ind x) Ht) as (i & bc1 & E1 & _ & Ht1 & Hd1 & Hu1).
  { apply Hg. } { apply (ge_blk _ _ _ (fg_geom _ _ _ Hg)). lia. } { intros ?. by rewrite lookup_empty. }
  { rewrite map_size_empty, NBUF_30. lia. }
  set (Hd := <[i := (lg_dev l, ind x)]> ∅ : gmap nat (Z * Z)) in *.
  assert (Hi1 : Hd !! i = Some (lg_dev l, ind x)) by (by apply lookup_insert_eq).
  pose proof (tx_data mypid bc1 l V _ hs i (ind x) Ht1 Hi1) as E2.
  unfold bmap_indirect. kstep E1. kstep E2. rewrite <- Hfb. destruct (Z.eqb_spec (fblock V x bn) 0) as [H0|Hne].
  - destruct (balloc_step (FsState (LogSys bc1 l) sb0 lk ino) V Hd hs) as (b & ls2 & hs2 & E3 & Hb & Hub & Ht2 & Hl2 & Hn2 & Hd2 & Hs2);
      try done.
    { intros j k Hk. unfold Hd in Hk. apply lookup_insert_Some in Hk as [[_ <-]|[_ Hk]]; [done|by rewrite lookup_empty in Hk]. }
    { split; simpl; lia. }
    { split; unfold Hd; rewrite map_size_insert_None, map_size_empty, ?NBUF_30 by done; simpl; lia. }
    destruct ls2 as [bc2 l2]. cbn [fs_ls fs_sb ls_log ls_bc] in *. pose proof Hs2 as (El & _ & Esz & _).
    assert (Ekeep : alloc_view V sb0 (lg_dev l) b (lg_dev l) (ind x) = V (lg_dev l) (ind x)) by (by apply fresh_ind).
    pose proof (tx_data mypid bc2 l2 _ Hd hs2 i (ind x) Ht2 ltac:(by rewrite El)) as E4. rewrite El, Ekeep in E4.
    set (d' := put32 (V (lg_dev l) (ind x)) (Z.to_nat (4 * (bn - NDIRECT))) b).
    destruct (tx_update mypid bc2 l2 _ Hd hs2 i (ind x) d' Ht2) as (bc3 & bc4 & l5 & bc6 & E5 & E6 & E7 & Ht6 & Hd6 & Hs6).
    { by rewrite El. } { split; [|rewrite Esz]; lia. }
    rewrite El in Ht6. unfold Hd in Ht6. rewrite delete_insert_id in Ht6 by done.
    destruct (grow_entry V sb0 (lg_dev l) x b Hg Hf Hb Hub bn Hbn Hi H0) as [HG HFb]. fold d' in HG, HFb.
    eexists (LogSys bc6 l5), _, _. split_and!; [|exact Ht6|exact HG|..].
    + erewrite bind_Ok by (erewrite bind_Ok by exact E3; kstep E4; kstep E5; kstep E6; reflexivity).
      kstep E7. by rewrite HFb.
    + rewrite HFb. by eapply (fresh_nonzero V sb0 (lg_dev l)).
    + pose proof (logged_length hs2 (ind x)). lia.
    + rewrite nfree_upd by done. lia.
    + simpl. congruence.
    + by eapply same_log_trans.
  - destruct (tx_brelse mypid bc1 l V _ hs i (ind x) Ht1) as (bc2 & E3 & Ht2 & Hd2); [done|done|].
    unfold Hd in Ht2. rewrite delete_insert_id in Ht2 by done. exists (LogSys bc2 l), V, hs.
    split_and!; try done; try lia; [|by apply grown_refl|simpl; congruence]. erewrite bind_Ok by reflexivity. by kstep E3.
Qed.

(** [bmap] returns the block of the file, allocating it if necessary. *)
Lemma bmap_run s V hs ip x bn : let sb := fs_sb s in let dev := lg_dev (ls_log (fs_ls s)) in
  fs_inode s !! ip = Some x → tx mypid (fs_ls s) V ∅ hs → fsg V sb dev → file_ok V sb dev x → in_file bn →
  log_room (ls_log (fs_ls s)) hs 5 → (2 ≤ nfree V sb dev)%nat →
  ∃ ls' x' V' hs', bmap mypid ip bn s = Ok (fblock V' x' bn, put FIC (<[ip := x']> (fs_inode s)) (put FLS ls' s)) ∧
    tx mypid ls' V' ∅ hs' ∧ grown sb dev V x V' x' ∧ fblock V' x' bn ≠ 0 ∧ (length hs' ≤ length hs + 5)%nat ∧
    (nfree V sb dev ≤ nfree V' sb dev + 2)%nat ∧ bc_disk (ls_bc ls') = bc_disk (ls_bc (fs_ls s)) ∧
    same_log (ls_log (fs_ls s)) (ls_log ls').
Proof.
  intros sb dev Hx Ht Hg Hf Hbn [Hr1 Hr2] Hn. destruct (decide (fblock V x bn = 0)) as [H0|Hne].
  2:{ destruct (bmap_found s V _ ip x bn dev Hx (tp_cache _ _ _ _ _ Ht) Hg Hf Hbn) as (bc' & E & Hc' & Hd'); [|done|].
    { pose proof (size_pinned dev hs). fold dev. rewrite NBUF_30. lia. }
    exists (LogSys bc' (ls_log (fs_ls s))), x, V, hs. split_and!; try done; try lia; [| |by apply grown_refl].
    2:{ destruct s as [[bc l] ? ? ?]. by eapply tx_cache_step. }
    rewrite E. rewrite list_insert_id by done. by destruct s as [[] ? ? ?]. }
  destruct s as [[bc l] sb0 lk ino]. simpl in sb, dev, Hx, Ht. subst sb dev.
  cbn [fs_ls fs_sb ls_log ls_bc] in *. pose proof (fo_dev _ _ _ _ Hf) as Hdv. pose proof (fo_len _ _ _ _ Hf) as Hl.
  set (s := FsState (LogSys bc l) sb0 lk ino) in *.
  assert (Eaddr : ∀ i, (i < 13)%nat → addr ip i s = Ok (default 0 (i_addrs x !! i), s)) by (intros; apply addr_run; [done|lia]).
  unfold bmap. erewrite bind_Ok by (by apply ifld_run). rewrite Hdv. destruct (Z.ltb_spec bn NDIRECT).
  - erewrite bind_Ok by (apply Eaddr; lia). pose proof H0 as Ha. unfold fblock in Ha.
    destruct (Z.ltb_spec bn NDIRECT); [|lia]. rewrite Ha. cbn [Z.eqb].
    destruct (balloc_step s V ∅ hs) as (b & ls' & hs' & E & Hb & Hu & Ht' & Hl' & Hn' & Hd' & Hs'); try done.
    { split; simpl; lia. } { apply (holding_none l). split; simpl; lia. } { simpl. lia. }
    destruct (grow_direct V sb0 (lg_dev l) x b Hg Hf Hb Hu bn ltac:(lia) H0) as [HG HFb].
    cbn [s fs_sb fs_ls ls_log ls_bc] in *. eexists ls', _, _, hs'. split_and!; [|exact Ht'|exact HG|..]; try done; try (simpl in *; lia).
    + erewrite bind_Ok by exact E. erewrite bind_Ok by (apply (set_addr_run _ _ x); [done|lia]). by rewrite HFb.
    + rewrite HFb. by eapply (fresh_nonzero V sb0 (lg_dev l)).
  - destruct (Z.ltb_spec (bn - NDIRECT) NINDIRECT); [|lia]. erewrite bind_Ok by (apply Eaddr; lia).
    change (default 0 (i_addrs x !! Z.to_nat NDIRECT)) with (ind x). destruct (Z.eqb_spec (ind x) 0) as [Hi|Hi].
    + destruct (balloc_step s V ∅ hs) as (b & [bc1 l1] & hs1 & E & Hb & Hu & Ht1 & Hl1 & Hn1 & Hd1 & Hs1); try done.
      { split; simpl; lia. } { apply (holding_none l). split; simpl; lia. } { simpl. lia. }
      destruct (grow_ind V sb0 (lg_dev l) x b Hg Hf Hb Hu Hi) as (HG1 & Hi1 & Hmap1).
      set (x1 := v_addrs (<[12%nat := b]> (i_addrs x)) x) in *. cbn [s fs_sb fs_ls ls_log ls_bc] in *. pose proof Hs1 as (El & _ & Esz & _).
      destruct (bmap_indirect_run (FsState (LogSys bc1 l1) sb0 lk (<[ip := x1]> ino)) (alloc_view V sb0 (lg_dev l) b) hs1 x1 bn)
        as (ls2 & V2 & hs2 & E2 & Ht2 & HG2 & HF2 & Hl2 & Hn2 & Hd2 & Hs2); cbn [fs_sb fs_ls ls_log ls_bc] in *;
        rewrite ?El in *; try done; try lia.
      { apply HG1. } { apply HG1. } { rewrite Hi1. by eapply (fresh_nonzero V sb0 (lg_dev l)). }
      { split; [|rewrite Esz]; lia. }
      rewrite Hi1 in E2. exists ls2, x1, V2, hs2. split_and!; try done; try lia.
      * erewrite bind_Ok by (erewrite bind_Ok by exact E; erewrite bind_Ok by (apply (set_addr_run _ _ x); [done|simpl; lia]); reflexivity).
        exact E2.
      * by eapply grown_trans.
      * congruence.
      * by eapply same_log_trans.
    + erewrite bind_Ok by reflexivity.
      destruct (bmap_indirect_run s V hs x bn) as (ls2 & V2 & hs2 & E2 & Ht2 & HG2 & HF2 & Hl2 & Hn2 & Hd2 & Hs2); try done; try (simpl; lia).
      { split; simpl; lia. }
      exists ls2, x, V2, hs2. split_and!; try done; try (simpl in *; lia).
      rewrite list_insert_id by done. exact E2.
Qed.

Lemma fbyte_u8 V sb dev x p : fsg V sb dev → file_ok V sb dev x → 0 ≤ p < MAXFILE * BSIZE → is_u8 (fbyte V x p).
Proof.
  intros Hg Hf Hp. unfold fbyte. destruct (Z.eqb_spec (fblock V x (p / BSIZE)) 0) as [|Hn]; [done|].
  destruct (fo_map _ _ _ _ Hf (p / BSIZE)) as [[Hr _ _ _] _]; [Z.div_mod_to_equations; lia|done|].
  rewrite (fo_dev _ _ _ _ Hf). apply at8_u8. apply (fg_block _ _ _ Hg). lia.
Qed.

(** * [readi] *)
Definition file_bytes (V : blocks) (x : inode) (off n : Z) : list Z :=
  (λ i, fbyte V x (off + Z.of_nat i)) <$> seq 0 (Z.to_nat n).

Lemma file_bytes_app V x off n m : 0 ≤ n → 0 ≤ m →
  file_bytes V x off (n + m) = file_bytes V x off n ++ file_bytes V x (off + n) m.
Proof.
  intros Hn Hm. unfold file_bytes. rewrite Z2Nat.inj_add by done. rewrite seq_app, fmap_app. f_equal. simpl.
  pose proof (fmap_add_seq (Z.to_nat n) 0 (Z.to_nat m)) as E. rewrite Nat.add_0_r in E.
  rewrite <-E, <-list_fmap_compose. apply list_fmap_ext. intros i y Hy.
  apply lookup_seq in Hy as [-> _]. simpl. f_equal. lia.
Qed.

Lemma file_bytes_length V x off n : length (file_bytes V x off n) = Z.to_nat n.
Proof. unfold file_bytes. by rewrite length_fmap, length_seq. Qed.

Lemma file_bytes_lookup V x off n i : 0 ≤ i < n → file_bytes V x off n !! Z.to_nat i = Some (fbyte V x (off + i)).
Proof. intros Hi. unfold file_bytes. rewrite list_lookup_fmap, lookup_seq_lt by lia. simpl. do 2 f_equal. lia. Qed.

(** Bytes of one block. *)
Lemma block_bytes V sb dev x off m : fsg V sb dev → file_ok V sb dev x → 0 ≤ off → 0 ≤ m → off mod BSIZE + m ≤ BSIZE →
  off / BSIZE < MAXFILE → fblock V x (off / BSIZE) ≠ 0 →
  slice (V dev (fblock V x (off / BSIZE))) (Z.to_nat (off mod BSIZE)) (Z.to_nat m) = file_bytes V x off m.
Proof.
  intros Hg Hf Hoff Hm Hle Hmax Hn. assert (Hbn : in_file (off / BSIZE)) by (Z.div_mod_to_equations; lia).
  destruct (fo_map _ _ _ _ Hf _ Hbn Hn) as [[Hr _ _ _] _]. destruct (fg_block _ _ _ Hg (fblock V x (off / BSIZE)) ltac:(lia)) as [Hl _].
  pose proof (Z.mod_pos_bound off BSIZE ltac:(lia)). unfold block_len in Hl. apply list_eq. intros i.
  destruct (decide (i < Z.to_nat m)%nat) as [Hi|Hi].
  - rewrite slice_lookup by done. replace i with (Z.to_nat (Z.of_nat i)) at 2 by lia.
    rewrite file_bytes_lookup by lia. unfold fbyte.
    assert (E1 : (off + Z.of_nat i) / BSIZE = off / BSIZE) by (Z.div_mod_to_equations; lia).
    assert (E2 : (off + Z.of_nat i) mod BSIZE = off mod BSIZE + Z.of_nat i) by (Z.div_mod_to_equations; lia).
    rewrite E1, E2, (proj2 (Z.eqb_neq _ _) Hn), (fo_dev _ _ _ _ Hf). unfold at8.
    replace (Z.to_nat (off mod BSIZE + Z.of_nat i)) with (Z.to_nat (off mod BSIZE) + i)%nat by lia.
    destruct (lookup_lt_is_Some_2 (V dev (fblock V x (off / BSIZE))) (Z.to_nat (off mod BSIZE) + i)) as [v ->]; [lia|done].
  - rewrite !lookup_ge_None_2; [done|rewrite file_bytes_length; lia|].
    unfold slice. rewrite length_take, length_drop. lia.
Qed.

Section readi.
Variable devsw_read : Z → option (nat → Z → M fs_state (Z * list Z)).

Lemma readi_loop_run fuel s V Dp dev ip x off n tot : let sb := fs_sb s in
  fs_inode s !! ip = Some x → cache mypid (ls_bc (fs_ls s)) V ∅ Dp → fsg V sb dev → file_ok V sb dev x →
  (size Dp < NBUF)%nat → 0 ≤ off → 0 ≤ tot ≤ n → off + (n - tot) ≤ i_size x →
  (0 < fuel)%nat → (tot < n → n - tot + off mod BSIZE ≤ (Z.of_nat fuel - 1) * BSIZE) →
  ∃ bc', readi_loop mypid fuel ip off n tot s = Ok (file_bytes V x off (n - tot), put FBC bc' s) ∧
    cache mypid bc' V ∅ Dp ∧ bc_disk bc' = bc_disk (ls_bc (fs_ls s)).
Proof.
  revert s off tot. induction fuel as [|fuel IH]; intros s off tot sb Hx Hc Hg Hf Hlen Hoff Htot Hsz Hfu Hfuel; [lia|].
  destruct s as [[bc l] sb0 lk ino]. simpl in sb, Hx, Hc. subst sb. cbn [fs_ls fs_sb ls_log ls_bc] in *.
  pose proof (fo_size _ _ _ _ Hf) as Hmax. cbn [readi_loop]. destruct (Z.ltb_spec tot n) as [Hlt|Hge].
  2:{ exists bc. replace (n - tot) with 0 by lia. by split_and!. }
  specialize (Hfuel Hlt). pose proof (Z.mod_pos_bound off BSIZE ltac:(lia)) as Hmod.
  assert (Hn : fblock V x (off / BSIZE) ≠ 0) by (apply Hf; Z.div_mod_to_equations; lia).
  assert (Hbn : in_file (off / BSIZE)) by (Z.div_mod_to_equations; lia).
  set (s := FsState (LogSys bc l) sb0 lk ino). erewrite bind_Ok by (by apply ifld_run).
  destruct (bmap_found s V Dp ip x (off / BSIZE) dev) as (bc1 & E1 & Hc1 & Hd1); try done.
  erewrite bind_Ok by exact E1. rewrite (fo_dev _ _ _ _ Hf).
  destruct (fo_map _ _ _ _ Hf _ Hbn Hn) as [[Hr _ _ _] _]. cbn [s fs_ls ls_log ls_bc] in Hc1, Hd1.
  destruct (cache_read bc1 V Dp dev (fblock V x (off / BSIZE)) Hc1) as (i & bc2 & bc3 & E2 & E3 & E4 & Hc3 & Hd3);
    [apply Hg|apply (ge_blk _ _ _ (fg_geom _ _ _ Hg)); lia|done|].
  kstep E2. kstep E3. kstep E4.
  set (m := Z.min (n - tot) (BSIZE - off mod BSIZE)).
  destruct (IH (FsState (LogSys bc3 l) sb0 lk ino) (off + m) (tot + m)) as (bc4 & E5 & Hc5 & Hd5); try done; try lia.
  { intros Hlt'. assert (m = BSIZE - off mod BSIZE) as -> by lia.
    replace ((off + (BSIZE - off mod BSIZE)) mod BSIZE) with 0 by (Z.div_mod_to_equations; lia). lia. }
  erewrite bind_Ok by exact E5. exists bc4. split_and!; [|done|cbn in *; congruence].
  rewrite (block_bytes V sb0) by (done || lia). mred. do 2 f_equal.
  replace (n - tot) with (m + (n - (tot + m))) by lia. by rewrite file_bytes_app by lia.
Qed.

(** The bytes of the file from [off] on, as many of the [n] as there are. *)
Lemma readi_run s V Dp dev ip x off n : let sb := fs_sb s in
  fs_inode s !! ip = Some x → cache mypid (ls_bc (fs_ls s)) V ∅ Dp → fsg V sb dev → file_ok V sb dev x → i_type x ≠ T_DEV →
  (size Dp < NBUF)%nat → is_u32 off → is_u32 n → off ≤ i_size x → off + n < 2 ^ 32 →
  let m := Z.min n (i_size x - off) in
  ∃ bc', readi mypid devsw_read ip off n s = Ok ((m, file_bytes V x off m), put FBC bc' s) ∧
    cache mypid bc' V ∅ Dp ∧ bc_disk bc' = bc_disk (ls_bc (fs_ls s)).
Proof.
  intros sb Hx Hc Hg Hf Hty Hlen [Hoff _] [Hn _] Hsz Hw m. pose proof (fo_size _ _ _ _ Hf) as Hmax.
  unfold readi. erewrite bind_Ok by (by apply ifld_run). change (id x) with x.
  rewrite (proj2 (Z.eqb_neq _ _) Hty).
  rewrite (u32_small (off + n)) by (unfold is_u32; lia).
  rewrite (proj2 (Z.ltb_ge _ _)) by done. rewrite (proj2 (Z.ltb_ge _ _)) by lia. cbn [orb].
  assert (Em : (if i_size x <? off + n then u32 (i_size x - off) else n) = m).
  { destruct (Z.ltb_spec (i_size x) (off + n)); [rewrite u32_small by (unfold is_u32; lia)|]; lia. }
  rewrite Em. destruct (readi_loop_run (S (S (Z.to_nat (m / BSIZE + 1)))) s V Dp dev ip x off m 0) as (bc' & E & Hc' & Hd');
    try done; try lia.
  { intros _. pose proof (Z.mod_pos_bound off BSIZE ltac:(lia)). Z.div_mod_to_equations. lia. }
  rewrite Z.sub_0_r in E. erewrite bind_Ok by exact E. by exists bc'.
Qed.
End readi.

(** * [iupdate] *)
Lemma dinode_off_range i : (dinode_off i + 64 ≤ Z.to_nat BSIZE)%nat.
Proof. unfold dinode_off. pose proof (Z.mod_pos_bound i IPB ltac:(lia)). lia. Qed.

(** The block of an inode with the inode written to it. *)
Definition inode_block (V : blocks) (sb : superblock) (dev : Z) (x : inode) : list Z :=
  put_dinode (V dev (IBLOCK (i_inum x) sb)) (dinode_off (i_inum x)) (dinode_of x).
Definition iupdate_view (V : blocks) (sb : superblock) (dev : Z) (x : inode) : blocks :=
  blocks_upd dev (IBLOCK (i_inum x) sb) (inode_block V sb dev x) V.

Section inode_view.
Context (V : blocks) (sb : superblock) (dev : Z) (x : inode).
Hypotheses (Hg : fsg V sb dev) (Hi : 0 ≤ i_inum x < sb_ninodes sb) (Hl : length (i_addrs x) = 13%nat).

Lemma inode_block_eq : inode_block V sb dev x =
  splice (V dev (IBLOCK (i_inum x) sb)) (dinode_off (i_inum x)) (enc_dinode (dinode_of x)).
Proof.
  destruct (fg_inode _ _ _ Hg _ Hi) as (Hr & _). destruct (fg_block _ _ _ Hg _ Hr) as [Hlen _].
  apply put_dinode_splice; [done|]. rewrite Hlen. apply dinode_off_range.
Qed.

Lemma inode_block_ok : block_len (inode_block V sb dev x) ∧ Forall is_u8 (inode_block V sb dev x).
Proof.
  destruct (fg_inode _ _ _ Hg _ Hi) as (Hr & _). destruct (fg_block _ _ _ Hg _ Hr) as [Hlen Hu8].
  pose proof (dinode_off_range (i_inum x)). rewrite inode_block_eq. unfold block_len in *. split.
  - by rewrite splice_length by (rewrite enc_dinode_length by done; lia).
  - apply splice_u8; [done|apply enc_dinode_u8].
Qed.

Lemma iupdate_fsg : fsg (iupdate_view V sb dev x) sb dev.
Proof. destruct inode_block_ok. apply fsg_upd; try done. apply (fg_inode _ _ _ Hg _ Hi). Qed.

Lemma iupdate_mono : used_mono V (iupdate_view V sb dev x) sb dev.
Proof. apply used_mono_upd. apply (fg_inode _ _ _ Hg _ Hi). Qed.

Lemma iupdate_keep b : b ≠ IBLOCK (i_inum x) sb → iupdate_view V sb dev x dev b = V dev b.
Proof. intros Hb. unfold iupdate_view. by rewrite blocks_upd_ne by congruence. Qed.

(** Files do not notice. *)
Lemma iupdate_file y : file_ok V sb dev y → file_ok (iupdate_view V sb dev x) sb dev y.
Proof.
  intros Hf. apply (file_frame V); [done|by apply iupdate_mono|]. intros Hn. rewrite (fo_dev _ _ _ _ Hf).
  apply iupdate_keep. by apply (fo_ind _ _ _ _ Hf Hn).
Qed.

Lemma iupdate_byte y p : file_ok V sb dev y → 0 ≤ p < MAXFILE * BSIZE → fbyte (iupdate_view V sb dev x) y p = fbyte V y p.
Proof.
  intros Hf Hp. assert (Hbn : in_file (p / BSIZE)) by (Z.div_mod_to_equations; lia).
  assert (E : fblock (iupdate_view V sb dev x) y (p / BSIZE) = fblock V y (p / BSIZE)).
  { apply fblock_frame. intros Hn. rewrite (fo_dev _ _ _ _ Hf). apply iupdate_keep. by apply (fo_ind _ _ _ _ Hf Hn). }
  unfold fbyte. rewrite E. destruct (Z.eqb_spec (fblock V y (p / BSIZE)) 0) as [|Hn]; [done|].
  rewrite (fo_dev _ _ _ _ Hf), iupdate_keep; [done|]. by apply (fo_map _ _ _ _ Hf _ Hbn Hn).
Qed.
End inode_view.

Lemma iupdate_run s V hs ip x : let sb := fs_sb s in let dev := lg_dev (ls_log (fs_ls s)) in
  fs_inode s !! ip = Some x → tx mypid (fs_ls s) V ∅ hs → fsg V sb dev → i_dev x = dev →
  0 ≤ i_inum x < sb_ninodes sb → log_room (ls_log (fs_ls s)) hs 1 →
  ∃ ls', iupdate mypid ip s = Ok (tt, put FLS ls' s) ∧ tx mypid ls' (iupdate_view V sb dev x) ∅ (logged hs (IBLOCK (i_inum x) sb)) ∧
    bc_disk (ls_bc ls') = bc_disk (ls_bc (fs_ls s)) ∧ same_log (ls_log (fs_ls s)) (ls_log ls').
Proof.
  intros sb dev Hx Ht Hg Hdv Hi Hr. destruct s as [[bc l] sb0 lk ino]. simpl in sb, dev, Hx, Ht, Hdv. subst sb dev.
  cbn [fs_ls fs_sb ls_log ls_bc] in *. destruct (fg_inode _ _ _ Hg _ Hi) as (Hrg & _).
  destruct (tx_bread mypid bc l V ∅ hs (IBLOCK (i_inum x) sb0) Ht) as (i & bc1 & E1 & _ & Ht1 & Hd1 & _).
  { apply Hg. } { apply (ge_blk _ _ _ (fg_geom _ _ _ Hg)). lia. } { intros ?. by rewrite lookup_empty. }
  { rewrite map_size_empty, NBUF_30. destruct Hr. lia. }
  pose proof (tx_data mypid bc1 l V _ hs i _ Ht1 ltac:(by rewrite lookup_insert_eq)) as E2.
  destruct (tx_update mypid bc1 l V _ hs i (IBLOCK (i_inum x) sb0) (inode_block V sb0 (lg_dev l) x) Ht1)
    as (bc2 & bc3 & l' & bc4 & E3 & E4 & E5 & Ht4 & Hd4 & Hl); [by rewrite lookup_insert_eq|done|].
  rewrite delete_insert_id in Ht4 by done. exists (LogSys bc4 l'). split_and!; try done; [|simpl; congruence].
  unfold iupdate. erewrite bind_Ok by reflexivity. erewrite bind_Ok by (by apply ifld_run). change (id x) with x.
  rewrite Hdv. cbn [fs_sb]. kstep E1. kstep E2. kstep E3. kstep E4. by erewrite zoom_Ok by exact E5.
Qed.

(** * [writei] *)

(** The bytes [l] written at [off] over [f]. *)
Definition put_bytes (f : Z → Z) (off : Z) (l : list Z) (p : Z) : Z :=
  if decide (off ≤ p < off + Z.of_nat (length l)) then at8 l (p - off) else f p.

Lemma put_bytes_app f off l l' p : put_bytes (put_bytes f off l) (off + Z.of_nat (length l)) l' p = put_bytes f off (l ++ l') p.
Proof.
  unfold put_bytes. rewrite length_app. repeat case_decide; try lia; try done.
  - replace (p - off) with (Z.of_nat (length l) + (p - (off + Z.of_nat (length l)))) by lia. by rewrite at8_app_r by lia.
  - by rewrite at8_app_l by lia.
Qed.

(** What writing [l] at [off] does to a file: its bytes are replaced, it may
    gain blocks, and the blocks of others stay as they are. *)
Record wrote (sb : superblock) (dev : Z) (V : blocks) (x : inode) (off : Z) (l : list Z) (V' : blocks) (x' : inode) : Prop := {
  wr_meta : x' = v_addrs (i_addrs x') x;
  wr_fsg : fsg V' sb dev;
  wr_file : file_ok V' sb dev x';
  wr_byte : ∀ p, 0 ≤ p < MAXFILE * BSIZE → fbyte V' x' p = put_bytes (fbyte V x) off l p;
  wr_there : ∀ p, off ≤ p < off + Z.of_nat (length l) → fblock V' x' (p / BSIZE) ≠ 0;
  wr_grow : ∀ bn, in_file bn → fblock V x bn ≠ 0 → fblock V' x' bn ≠ 0;
  wr_keep : ∀ b, 0 < b < sb_size sb → used V sb dev b = true → (∀ j, 0 ≤ j < sb_size sb → b ≠ BBLOCK j sb) →
    ¬ owns V x b → V' dev b = V dev b;
  wr_owns : ∀ b, 0 ≤ b < sb_size sb → used V sb dev b = true → owns V' x' b → owns V x b;
  wr_used : used_mono V V' sb dev
}.

Lemma wrote_nil sb dev V x off : fsg V sb dev → file_ok V sb dev x → wrote sb dev V x off [] V x.
Proof.
  intros Hg Hf. split; try done; [by destruct x| |simpl; lia|by intros b].
  intros p Hp. unfold put_bytes. simpl. by rewrite decide_False by lia.
Qed.

Lemma wrote_app sb dev V1 x1 off l1 V2 x2 l2 V3 x3 : wrote sb dev V1 x1 off l1 V2 x2 →
  wrote sb dev V2 x2 (off + Z.of_nat (length l1)) l2 V3 x3 → 0 ≤ off → off + Z.of_nat (length l1) ≤ MAXFILE * BSIZE →
  wrote sb dev V1 x1 off (l1 ++ l2) V3 x3.
Proof.
  intros W1 W2 Hoff Hmax. split; try apply W2.
  - rewrite (wr_meta _ _ _ _ _ _ _ _ W2), (wr_meta _ _ _ _ _ _ _ _ W1). done.
  - intros p Hp. rewrite (wr_byte _ _ _ _ _ _ _ _ W2) by done. rewrite <- put_bytes_app. unfold put_bytes at 1 2.
    case_decide; [done|]. by rewrite (wr_byte _ _ _ _ _ _ _ _ W1).
  - intros p Hp. rewrite length_app in Hp. destruct (decide (p < off + Z.of_nat (length l1))).
    + apply (wr_grow _ _ _ _ _ _ _ _ W2); [Z.div_mod_to_equations; lia|]. apply (wr_there _ _ _ _ _ _ _ _ W1). lia.
    + apply (wr_there _ _ _ _ _ _ _ _ W2). lia.
  - intros bn Hbn Hn. by apply (wr_grow _ _ _ _ _ _ _ _ W2), (wr_grow _ _ _ _ _ _ _ _ W1).
  - intros b Hb Hu Hbm Hno. rewrite (wr_keep _ _ _ _ _ _ _ _ W2); [by apply W1|done|apply W1; [lia|done]|done|].
    intros Ho. apply Hno. apply (wr_owns _ _ _ _ _ _ _ _ W1); [lia|done|done].
  - intros b Hb Hu Ho. apply (wr_owns _ _ _ _ _ _ _ _ W1); [done..|]. apply (wr_owns _ _ _ _ _ _ _ _ W2); [done| |done].
    by apply W1.
  - eapply used_mono_trans; [apply W1|apply W2].
Qed.

(** One block: it is there after [bmap], and some of its bytes are replaced. *)
Lemma wrote_block sb dev V x V1 x1 off l : fsg V sb dev → file_ok V sb dev x → grown sb dev V x V1 x1 → 0 ≤ off →
  off / BSIZE < MAXFILE → fblock V1 x1 (off / BSIZE) ≠ 0 → off mod BSIZE + Z.of_nat (length l) ≤ BSIZE → Forall is_u8 l →
  let a := fblock V1 x1 (off / BSIZE) in
  let V' := blocks_upd dev a (splice (V1 dev a) (Z.to_nat (off mod BSIZE)) l) V1 in
  wrote sb dev V x off l V' x1.
Proof.
  intros Hg Hf G Hoff Hmax Hn Hl Hu8 a V'. set (bn := off / BSIZE) in *.
  assert (Hbn : in_file bn) by (unfold bn; Z.div_mod_to_equations; lia). pose proof (Z.mod_pos_bound off BSIZE ltac:(lia)) as Hm.
  pose proof (gr_file _ _ _ _ _ _ G) as Hf1. pose proof (gr_fsg _ _ _ _ _ _ G) as Hg1.
  destruct (fo_map _ _ _ _ Hf1 bn Hbn Hn) as [[Har Hau Hab Hai] Hain]. fold a in Har, Hau, Hab, Hai, Hain.
  destruct (fg_block _ _ _ Hg1 a ltac:(lia)) as [Hlen Ha8]. unfold block_len in Hlen.
  assert (Hd1 : i_dev x1 = dev) by apply Hf1. assert (Han : (a =? 0) = false) by (by apply Z.eqb_neq).
  assert (Hfb : ∀ bn', fblock V' x1 bn' = fblock V1 x1 bn').
  { intros bn'. apply fblock_frame. intros Hi. rewrite Hd1. unfold V'. by rewrite blocks_upd_ne by congruence. }
  assert (Hm1 : used_mono V1 V' sb dev) by (by apply used_mono_upd).
  split.
  - apply G.
  - apply fsg_upd; [done|done|unfold block_len; by rewrite splice_length by lia|by apply splice_u8].
  - apply (file_frame V1); [done|done|]. intros Hi. rewrite Hd1. unfold V'. by rewrite blocks_upd_ne by congruence.
  - intros p Hp. unfold put_bytes. assert (Hbp : in_file (p / BSIZE)) by (Z.div_mod_to_equations; lia).
    unfold fbyte at 1. rewrite Hfb, Hd1. destruct (decide (p / BSIZE = bn)) as [E|E].
    + rewrite E. fold a. rewrite Han. unfold V'. rewrite blocks_upd_eq.
      rewrite at8_splice by (rewrite ?Hlen; Z.div_mod_to_equations; lia). rewrite Z2Nat.id by lia.
      assert (Ep : p mod BSIZE = p - off + off mod BSIZE) by (unfold bn in E; Z.div_mod_to_equations; lia).
      rewrite Ep. repeat case_decide; try lia; [f_equal; lia|].
      rewrite <-(grown_byte sb dev V x V1 x1 p Hf G Hp). unfold fbyte. rewrite E, Hd1. fold a. by rewrite Han, Ep.
    + rewrite decide_False by (unfold bn in E; Z.div_mod_to_equations; lia).
      rewrite <-(grown_byte sb dev V x V1 x1 p Hf G Hp). unfold fbyte. rewrite Hd1.
      destruct (Z.eqb_spec (fblock V1 x1 (p / BSIZE)) 0) as [|Hn']; [done|]. unfold V'. rewrite blocks_upd_ne; [done|].
      intros [= E']. apply E. by apply (fo_inj _ _ _ _ Hf1).
  - intros p Hp. rewrite Hfb. replace (p / BSIZE) with bn by (unfold bn; Z.div_mod_to_equations; lia). done.
  - intros bn' Hbn' Hn'. rewrite Hfb. by rewrite (gr_map _ _ _ _ _ _ G bn' Hbn' Hn').
  - intros b Hb Hu Hbm Hno. assert (Hba : b ≠ a).
    { intros ->. destruct (decide (fblock V x bn = 0)) as [E|E].
      - destruct (gr_new _ _ _ _ _ _ G bn Hbn E Hn). unfold a in Hu. congruence.
      - apply Hno. split; [lia|]. right. exists bn. split; [done|]. by rewrite <-(gr_map _ _ _ _ _ _ G bn Hbn E). }
    unfold V'. rewrite blocks_upd_ne by congruence. apply (gr_keep _ _ _ _ _ _ G); [lia|done|done|].
    intros ->. apply Hno. split; [lia|by left].
  - intros b Hb Hu [H0 [->|(bn' & Hbn' & E)]].
    + destruct (gr_ind _ _ _ _ _ _ G) as [E|E]; [|congruence]. split; [done|by left].
    + rewrite Hfb in E. split; [done|]. right. exists bn'. split; [done|].
      destruct (decide (fblock V x bn' = 0)) as [E0|E0]; [|by rewrite <-(gr_map _ _ _ _ _ _ G bn' Hbn' E0)].
      destruct (gr_new _ _ _ _ _ _ G bn' Hbn' E0) as [Hx _]; congruence.
  - eapply used_mono_trans; [apply G|done].
Qed.

(** How many blocks the bytes from [off] to [off + n] lie in. *)
Definition nblk (off n : Z) : nat := if decide (n ≤ 0) then 0 else Z.to_nat ((off mod BSIZE + n + (BSIZE - 1)) / BSIZE).

Lemma nblk_step off n : 0 < n → let m := Z.min n (BSIZE - off mod BSIZE) in nblk off n = S (nblk (off + m) (n - m)).
Proof.
  intros Hn m. pose proof (Z.mod_pos_bound off BSIZE ltac:(lia)) as Hm. unfold nblk. rewrite decide_False by lia.
  destruct (decide (n ≤ BSIZE - off mod BSIZE)) as [Hle|Hgt].
  - rewrite decide_True by lia. assert (E : (off mod BSIZE + n + (BSIZE - 1)) / BSIZE = 1); [|by rewrite E].
    symmetry. apply (Z.div_unique _ _ 1 (off mod BSIZE + n - 1)); lia.
  - rewrite decide_False by lia. assert (m = BSIZE - off mod BSIZE) as -> by lia.
    replace ((off + (BSIZE - off mod BSIZE)) mod BSIZE) with 0 by (Z.div_mod_to_equations; lia).
    assert (E : (off mod BSIZE + n + (BSIZE - 1)) / BSIZE = (0 + (n - (BSIZE - off mod BSIZE)) + (BSIZE - 1)) / BSIZE + 1).
    { rewrite <- Z.div_add by lia. f_equal. lia. }
    rewrite E. pose proof (Z.div_pos (0 + (n - (BSIZE - off mod BSIZE)) + (BSIZE - 1)) BSIZE ltac:(lia) ltac:(lia)). lia.
Qed.

Lemma nblk_bound off n : 0 ≤ n → (Z.of_nat (nblk off n) - 2) * BSIZE < n.
Proof.
  intros Hn. unfold nblk. case_decide; [lia|]. pose proof (Z.mod_pos_bound off BSIZE ltac:(lia)).
  rewrite Z2Nat.id by (apply Z.div_pos; lia). Z.div_mod_to_equations. lia.
Qed.

(** The body of the loop of [writei]. *)
Definition write_body (ip : nat) (off : Z) (l : list Z) : M fs_state unit :=
  dev ← ifld ip i_dev;
  b ← bmap mypid ip (off / BSIZE);
  bp ← zoom FBC (bread mypid dev b);
  d ← zoom FBC (bderef (Some bp) b_data);
  zoom FBC (bassign (Some bp) (f_data (splice d (Z.to_nat (off mod BSIZE)) l)));;
  zoom FLS (log_write bp);;
  zoom FBC (brelse mypid bp).

(** A turn is the body and the rest. *)
Lemma write_turn {A} ip off l (k : M fs_state A) s s1 : write_body ip off l s = Ok (tt, s1) →
  (dev ← ifld ip i_dev;
   b ← bmap mypid ip (off / BSIZE);
   bp ← zoom FBC (bread mypid dev b);
   d ← zoom FBC (bderef (Some bp) b_data);
   zoom FBC (bassign (Some bp) (f_data (splice d (Z.to_nat (off mod BSIZE)) l)));;
   zoom FLS (log_write bp);;
   zoom FBC (brelse mypid bp);; k) s = k s1.
Proof.
  unfold write_body. intros E.
  do 6 (apply bind_Ok_inv in E as (? & ? & E1 & E); erewrite bind_Ok by exact E1; clear E1).
  by erewrite bind_Ok by exact E.
Qed.

Lemma write_body_run s V hs ip x off l : let sb := fs_sb s in let dev := lg_dev (ls_log (fs_ls s)) in
  fs_inode s !! ip = Some x → tx mypid (fs_ls s) V ∅ hs → fsg V sb dev → file_ok V sb dev x →
  0 ≤ off → off / BSIZE < MAXFILE → off mod BSIZE + Z.of_nat (length l) ≤ BSIZE → Forall is_u8 l →
  log_room (ls_log (fs_ls s)) hs 6 → (2 ≤ nfree V sb dev)%nat →
  ∃ ls' x' V' hs', write_body ip off l s = Ok (tt, put FIC (<[ip := x']> (fs_inode s)) (put FLS ls' s)) ∧
    tx mypid ls' V' ∅ hs' ∧ wrote sb dev V x off l V' x' ∧ (length hs' ≤ length hs + 6)%nat ∧
    (nfree V sb dev ≤ nfree V' sb dev + 2)%nat ∧ bc_disk (ls_bc ls') = bc_disk (ls_bc (fs_ls s)) ∧
    same_log (ls_log (fs_ls s)) (ls_log ls').
Proof.
  intros sb dev Hx Ht Hg Hf Hoff Hmax Hl Hu8 [Hr1 Hr2] Hn. assert (Hbn : in_file (off / BSIZE)) by (Z.div_mod_to_equations; lia).
  destruct (bmap_run s V hs ip x (off / BSIZE)) as ([bc1 l1] & x1 & V1 & hs1 & E1 & Ht1 & HG & Hn1 & Hl1 & Hf1 & Hd1 & Hs1);
    try done; [split; lia|].
  pose proof Hs1 as (El & _ & Esz & _). cbn [ls_log ls_bc] in *.
  destruct (fo_map _ _ _ _ (gr_file _ _ _ _ _ _ HG) _ Hbn Hn1) as [[Har _ Hab _] _].
  pose proof (wrote_block sb dev V x V1 x1 off l Hg Hf HG Hoff Hmax Hn1 Hl Hu8) as HW.
  set (a := fblock V1 x1 (off / BSIZE)) in *. cbv zeta in HW. fold dev in El, Har. fold sb in Har, Hab.
  destruct (tx_bread mypid bc1 l1 V1 ∅ hs1 a Ht1) as (i & bc2 & E2 & _ & Ht2 & Hd2 & _).
  { rewrite El. apply Hg. } { rewrite El. apply (ge_blk _ _ _ (fg_geom _ _ _ Hg)). lia. } { intros ?. by rewrite lookup_empty. }
  { rewrite map_size_empty, NBUF_30. lia. }
  pose proof (tx_data mypid bc2 l1 V1 _ hs1 i a Ht2 ltac:(by rewrite lookup_insert_eq)) as E3.
  destruct (tx_update mypid bc2 l1 V1 _ hs1 i a (splice (V1 dev a) (Z.to_nat (off mod BSIZE)) l) Ht2)
    as (bc3 & bc4 & l5 & bc6 & E4 & E5 & E6 & Ht6 & Hd6 & Hs6); [by rewrite lookup_insert_eq|split; rewrite ?Esz; lia|].
  rewrite delete_insert_id in Ht6 by done. rewrite El in Ht6, E2, E3.
  eexists (LogSys bc6 l5), x1, _, _. split_and!; [|exact Ht6|exact HW|..].
  - unfold write_body. erewrite bind_Ok by (by apply ifld_run). rewrite (fo_dev _ _ _ _ Hf).
    erewrite bind_Ok by exact E1. fold a dev. kstep E2. kstep E3. kstep E4. kstep E5. erewrite zoom_Ok by exact E6. done.
  - pose proof (logged_length hs1 a). lia.
  - rewrite nfree_upd by done. done.
  - simpl. congruence.
  - by eapply same_log_trans.
Qed.

Lemma writei_loop_run fuel s V hs ip x src off n tot : let sb := fs_sb s in let dev := lg_dev (ls_log (fs_ls s)) in
  fs_inode s !! ip = Some x → tx mypid (fs_ls s) V ∅ hs → fsg V sb dev → file_ok V sb dev x →
  0 ≤ off → 0 ≤ tot ≤ n → off + (n - tot) ≤ MAXFILE * BSIZE → Z.of_nat (length src) = n - tot → Forall is_u8 src →
  let k := nblk off (n - tot) in
  log_room (ls_log (fs_ls s)) hs (6 * k) → (2 * k ≤ nfree V sb dev)%nat → (k < fuel)%nat →
  ∃ ls' x' V' hs', writei_loop mypid fuel ip src off n tot s =
      Ok (off + (n - tot), put FIC (<[ip := x']> (fs_inode s)) (put FLS ls' s)) ∧
    tx mypid ls' V' ∅ hs' ∧ wrote sb dev V x off src V' x' ∧ (length hs' ≤ length hs + 6 * k)%nat ∧
    bc_disk (ls_bc ls') = bc_disk (ls_bc (fs_ls s)) ∧ same_log (ls_log (fs_ls s)) (ls_log ls').
Proof.
  revert s V hs x src off tot. induction fuel as [|fuel IH];
    intros s V hs x src off tot sb dev Hx Ht Hg Hf Hoff Htot Hmax Hlen Hu8 k [Hr1 Hr2] Hn Hfu; [lia|].
  cbn [writei_loop]. destruct (Z.ltb_spec tot n) as [Hlt|Hge].
  2:{ destruct src; [|simpl in Hlen; lia]. exists (fs_ls s), x, V, hs. replace (n - tot) with 0 by lia.
    rewrite Z.add_0_r, list_insert_id by done. split_and!; try done; [by destruct s|by apply wrote_nil|lia]. }
  pose proof (Z.mod_pos_bound off BSIZE ltac:(lia)) as Hmod. pose proof (nblk_step off (n - tot) ltac:(lia)) as Hk.
  set (m := Z.min (n - tot) (BSIZE - off mod BSIZE)) in *. cbv zeta in Hk. fold k in Hk.
  replace (n - tot - m) with (n - (tot + m)) in Hk by lia. set (k' := nblk (off + m) (n - (tot + m))) in *.
  assert (Hl1 : Z.of_nat (length (take (Z.to_nat m) src)) = m) by (rewrite length_take; lia).
  destruct (write_body_run s V hs ip x off (take (Z.to_nat m) src)) as (ls1 & x1 & V1 & hs1 & E1 & Ht1 & W1 & Hh1 & Hf1 & Hd1 & Hs1);
    try done; try lia.
  { Z.div_mod_to_equations. lia. } { by apply Forall_take. } { split; lia. } { fold sb dev. lia. }
  pose proof Hs1 as (El & _ & Esz & _).
  destruct (IH (put FIC (<[ip := x1]> (fs_inode s)) (put FLS ls1 s)) V1 hs1 x1 (drop (Z.to_nat m) src) (off + m) (tot + m))
    as (ls2 & x2 & V2 & hs2 & E2 & Ht2 & W2 & Hh2 & Hd2 & Hs2);
    cbn [put FIC FLS fs_ls fs_sb fs_inode fs_iclk] in *; rewrite ?El; try done; try lia.
  { rewrite list_lookup_insert_eq; [done|by eapply lookup_lt_Some]. } { apply W1. } { apply W1. }
  { rewrite length_drop. lia. } { by apply Forall_drop. }
  { fold k'. split; rewrite ?Esz; lia. }
  { fold sb dev k'. fold sb dev in Hf1. lia. }
  rewrite El in W2. fold sb dev in W2. exists ls2, x2, V2, hs2. split_and!; try done.
  - rewrite (write_turn _ _ _ _ _ _ E1). rewrite E2. do 2 f_equal; [lia|]. f_equal. by rewrite list_insert_insert_eq.
  - rewrite <-(take_drop (Z.to_nat m) src). apply (wrote_app _ _ _ _ _ _ V1 x1); try lia; [done|]. by rewrite Hl1.
  - fold k' in Hh2. lia.
  - congruence.
  - by eapply same_log_trans.
Qed.

(** The file after its size is set. *)
Lemma file_resize V sb dev x x' sz : file_ok V sb dev x → i_size x ≤ sz ≤ MAXFILE * BSIZE → x' = v_size sz x →
  (∀ p, i_size x ≤ p < sz → fblock V x (p / BSIZE) ≠ 0) → file_ok V sb dev x'.
Proof.
  intros Hf Hsz -> Hp. assert (Hb : ∀ bn, fblock V (v_size sz x) bn = fblock V x bn) by done.
  pose proof (fo_size _ _ _ _ Hf) as Hmx. destruct Hf. split; try done; [simpl; lia|]. intros bn Hb0 Hlt. rewrite Hb. simpl in Hlt.
  destruct (decide (bn * BSIZE < i_size x)); [by apply fo_full0|].
  rewrite <-(Z.div_mul bn BSIZE) by lia. apply Hp. lia.
Qed.

(** Files with different blocks. *)
Definition apart (V : blocks) (x y : inode) : Prop := ∀ b, owns V x b → ¬ owns V y b.

Lemma file_other V V' sb dev y : file_ok V sb dev y → used_mono V V' sb dev →
  (∀ b, owns V y b → V' dev b = V dev b) → file_ok V' sb dev y ∧
  (∀ p, 0 ≤ p < MAXFILE * BSIZE → fbyte V' y p = fbyte V y p) ∧ ∀ b, owns V' y b → owns V y b.
Proof.
  intros Hf Hm Hk. pose proof (fo_dev _ _ _ _ Hf) as Hdv.
  assert (Hi : ind y ≠ 0 → V' (i_dev y) (ind y) = V (i_dev y) (ind y)).
  { intros Hn. rewrite Hdv. apply Hk. split; [done|by left]. }
  split; [by apply (file_frame V)|]. split.
  - intros p Hp. unfold fbyte. rewrite (fblock_frame V V' y) by done. rewrite Hdv.
    destruct (Z.eqb_spec (fblock V y (p / BSIZE)) 0) as [|Hn]; [done|]. rewrite Hk; [done|].
    split; [done|]. right. exists (p / BSIZE). split; [Z.div_mod_to_equations; lia|done].
  - intros b [H0 [->|(bn & Hbn & E)]]; split; try done; [by left|]. right. exists bn.
    by rewrite <- E, (fblock_frame V V' y).
Qed.

(** The [short] fields of an inode. *)
Definition shorts (x : inode) : Prop :=
  -2 ^ 15 ≤ i_type x < 2 ^ 15 ∧ -2 ^ 15 ≤ i_major x < 2 ^ 15 ∧ -2 ^ 15 ≤ i_minor x < 2 ^ 15 ∧ -2 ^ 15 ≤ i_nlink x < 2 ^ 15.

Lemma file_dinode V sb dev x : fsg V sb dev → file_ok V sb dev x → shorts x → dinode_ok (dinode_of x).
Proof.
  intros Hg Hf (? & ? & ? & ?). pose proof (fo_size _ _ _ _ Hf). pose proof (fg_size _ _ _ Hg).
  split; try done; simpl; [unfold is_u32; lia|]. split; [apply Hf|]. apply Forall_lookup. intros i a Ha.
  pose proof (lookup_lt_Some _ _ _ Ha) as Hi. rewrite (fo_len _ _ _ _ Hf) in Hi. unfold is_u32.
  destruct (decide (a = 0)) as [->|Hn]; [lia|]. destruct (decide (i = 12%nat)) as [->|Hne].
  - assert (E : ind x = a) by (unfold ind; by rewrite Ha). destruct (fo_ind _ _ _ _ Hf) as [Hr _ _ _]; [congruence|]. lia.
  - assert (E : fblock V x (Z.of_nat i) = a).
    { unfold fblock. destruct (Z.ltb_spec (Z.of_nat i) NDIRECT); [|lia]. by rewrite Nat2Z.id, Ha. }
    destruct (fo_map _ _ _ _ Hf (Z.of_nat i)) as [[Hr _ _ _] _]; [lia|congruence|]. lia.
Qed.

(** What a call of [writei] leaves: the bytes are in the file, which may have
    grown, and the other files are as they were. *)
Record written (sb : superblock) (dev : Z) (V : blocks) (x : inode) (off : Z) (src : list Z) (V' : blocks) (x' : inode) : Prop := {
  wn_fsg : fsg V' sb dev;
  wn_file : file_ok V' sb dev x';
  wn_size : i_size x' = Z.max (i_size x) (off + Z.of_nat (length src));
  wn_meta : x' = v_size (i_size x') (v_addrs (i_addrs x') x);
  wn_byte : ∀ p, 0 ≤ p < MAXFILE * BSIZE → fbyte V' x' p = put_bytes (fbyte V x) off src p;
  wn_disk : i_size x < i_size x' →
    get_dinode (V' dev (IBLOCK (i_inum x) sb)) (dinode_off (i_inum x)) = dinode_of x';
  wn_other : ∀ y, file_ok V sb dev y → apart V x y → file_ok V' sb dev y ∧ apart V' x' y ∧
    ∀ p, 0 ≤ p < MAXFILE * BSIZE → fbyte V' y p = fbyte V y p
}.

Lemma wrote_other sb dev V x off l V' x' y : wrote sb dev V x off l V' x' → file_ok V sb dev y → apart V x y →
  file_ok V' sb dev y ∧ apart V' x' y ∧ (∀ p, 0 ≤ p < MAXFILE * BSIZE → fbyte V' y p = fbyte V y p).
Proof.
  intros W Hf Ha. destruct (file_other V V' sb dev y Hf) as (Hf' & Hb & Ho); [apply W| |].
  - intros b Hb. destruct (owns_dblock _ _ _ _ _ Hf Hb) as [Hr Hu Hbm _]. apply (wr_keep _ _ _ _ _ _ _ _ W); [lia|done|done|].
    intros Hx. by apply (Ha b).
  - split_and!; [done| |done]. intros b Hx' Hy. apply Ho in Hy. apply (Ha b); [|done].
    destruct (owns_dblock _ _ _ _ _ Hf Hy) as [Hr Hu _ _]. apply (wr_owns _ _ _ _ _ _ _ _ W); [lia|done|done].
Qed.

Lemma written_same sb dev V x off src V' x' : wrote sb dev V x off src V' x' →
  off + Z.of_nat (length src) ≤ i_size x → written sb dev V x off src V' x'.
Proof.
  intros W Hsz. pose proof (wr_meta _ _ _ _ _ _ _ _ W) as Hm. assert (E : i_size x' = i_size x) by (by rewrite Hm).
  split; [apply W|apply W|lia| |apply W|lia|intros y Hy Ha; by eapply wrote_other].
  rewrite Hm at 1. rewrite E. by destruct x.
Qed.

Section grows.
Context (sb : superblock) (dev : Z) (V : blocks) (x : inode) (off : Z) (src : list Z) (V1 : blocks) (x1 : inode).
Hypotheses (W : wrote sb dev V x off src V1 x1) (Hsh : shorts x).
Hypotheses (Hin : 0 ≤ i_inum x < sb_ninodes sb) (Hoff : 0 ≤ off ≤ i_size x).
Hypotheses (Hmax : off + Z.of_nat (length src) ≤ MAXFILE * BSIZE) (Hgr : i_size x < off + Z.of_nat (length src)).
Let x2 := v_size (off + Z.of_nat (length src)) x1.
Let V2 := iupdate_view V1 sb dev x2.

Lemma grows_meta : i_inum x2 = i_inum x ∧ i_dev x2 = i_dev x ∧ i_size x1 = i_size x ∧ shorts x2.
Proof. unfold x2, shorts. rewrite (wr_meta _ _ _ _ _ _ _ _ W). done. Qed.

Lemma grows_file : file_ok V1 sb dev x2.
Proof.
  destruct grows_meta as (_ & _ & Es & _).
  apply (file_resize V1 sb dev x1 x2 (off + Z.of_nat (length src))); [apply W|lia|done|].
  intros p Hp. apply (wr_there _ _ _ _ _ _ _ _ W). lia.
Qed.

Lemma written_grows : written sb dev V x off src V2 x2.
Proof.
  destruct grows_meta as (En & Ed & Es & Hsh2). pose proof grows_file as Hf2.
  pose proof (wr_fsg _ _ _ _ _ _ _ _ W) as Hg1. assert (Hin2 : 0 ≤ i_inum x2 < sb_ninodes sb) by (by rewrite En).
  assert (Hl2 : length (i_addrs x2) = 13%nat) by apply Hf2.
  assert (Hother : ∀ y, file_ok V1 sb dev y → file_ok V2 sb dev y ∧
    (∀ p, 0 ≤ p < MAXFILE * BSIZE → fbyte V2 y p = fbyte V1 y p) ∧ ∀ b, owns V2 y b → owns V1 y b).
  { intros y Hy. apply file_other; [done|by apply iupdate_mono|]. intros b Hb. apply iupdate_keep.
    by apply (owns_dblock _ _ _ _ _ Hy Hb). }
  destruct (Hother x2 Hf2) as (Hf2' & Hb2 & Ho2). split.
  - by apply iupdate_fsg.
  - done.
  - simpl. lia.
  - unfold x2. rewrite (wr_meta _ _ _ _ _ _ _ _ W). done.
  - intros p Hp. rewrite Hb2 by done. apply (wr_byte _ _ _ _ _ _ _ _ W p Hp).
  - intros _. unfold V2, iupdate_view. rewrite <- En, blocks_upd_eq. unfold inode_block.
    destruct (fg_inode _ _ _ Hg1 _ Hin2) as (Hr & _). destruct (fg_block _ _ _ Hg1 _ Hr) as [Hlen _].
    apply get_put_dinode; [by eapply file_dinode|]. rewrite Hlen. apply dinode_off_range.
  - intros y Hy Ha. destruct (wrote_other _ _ _ _ _ _ _ _ y W Hy Ha) as (Hy1 & Ha1 & Hb1).
    destruct (Hother y Hy1) as (Hy2 & Hb & Ho). split_and!; [done| |].
    + intros b H1 H2. by apply (Ha1 b); [apply Ho2|apply Ho].
    + intros p Hp. by rewrite Hb, Hb1.
Qed.
End grows.

Section writei.
Variable devsw_write : Z → option (nat → list Z → M fs_state Z).

Lemma writei_run s V hs ip x src off n : let sb := fs_sb s in let dev := lg_dev (ls_log (fs_ls s)) in
  fs_inode s !! ip = Some x → tx mypid (fs_ls s) V ∅ hs → fsg V sb dev → file_ok V sb dev x → shorts x → i_type x ≠ T_DEV →
  0 ≤ i_inum x < sb_ninodes sb → 0 ≤ off ≤ i_size x → Z.of_nat (length src) = n → off + n ≤ MAXFILE * BSIZE → Forall is_u8 src →
  log_room (ls_log (fs_ls s)) hs (6 * nblk off n + 1) → (2 * nblk off n ≤ nfree V sb dev)%nat →
  ∃ ls' x' V' hs', writei mypid devsw_write ip src off n s = Ok (n, put FIC (<[ip := x']> (fs_inode s)) (put FLS ls' s)) ∧
    tx mypid ls' V' ∅ hs' ∧ written sb dev V x off src V' x' ∧ (length hs' ≤ length hs + 6 * nblk off n + 1)%nat ∧
    bc_disk (ls_bc ls') = bc_disk (ls_bc (fs_ls s)) ∧ same_log (ls_log (fs_ls s)) (ls_log ls').
Proof.
  intros sb dev Hx Ht Hg Hf Hsh Hty Hin Hoff Hlen Hmax Hu8 [Hr1 Hr2] Hn. pose proof (fo_size _ _ _ _ Hf) as Hsz.
  assert (Hn0 : 0 ≤ n) by lia. pose proof (nblk_bound off n Hn0) as Hk. set (k := nblk off n) in *.
  destruct (writei_loop_run (S (S (Z.to_nat (n / BSIZE + 1)))) s V hs ip x src off n 0)
    as (ls1 & x1 & V1 & hs1 & E1 & Ht1 & W1 & Hh1 & Hd1 & Hs1); rewrite ?Z.sub_0_r; try done; try lia.
  { fold k. split; lia. } { Z.div_mod_to_equations. lia. }
  rewrite Z.sub_0_r in E1, Hh1. fold k in Hh1. pose proof (wr_file _ _ _ _ _ _ _ _ W1) as Hf1.
  pose proof (wr_meta _ _ _ _ _ _ _ _ W1) as Hm1. assert (Hsz1 : i_size x1 = i_size x) by (by rewrite Hm1).
  set (s1 := put FIC (<[ip := x1]> (fs_inode s)) (put FLS ls1 s)) in *.
  assert (Hx1 : fs_inode s1 !! ip = Some x1) by (simpl; rewrite list_lookup_insert_eq; [done|by eapply lookup_lt_Some]).
  unfold writei. erewrite bind_Ok by (by apply ifld_run). change (id x) with x.
  rewrite (proj2 (Z.eqb_neq _ _) Hty). rewrite (u32_small (off + n)) by lia.
  rewrite (proj2 (Z.ltb_ge (i_size x) off)) by lia. rewrite (proj2 (Z.ltb_ge (off + n) off)) by lia. cbn [orb].
  rewrite (proj2 (Z.ltb_ge _ _)) by done. erewrite bind_Ok by exact E1. erewrite bind_Ok by (by apply ifld_run).
  rewrite Hsz1. destruct (Z.ltb_spec 0 n) as [Hpos|Hneg]; [destruct (Z.ltb_spec (i_size x) (off + n)) as [Hgr|Hng]|]; cbn [andb].
  - rewrite <- Hlen in Hgr. pose proof (grows_meta sb dev V x off src V1 x1 W1 Hsh) as (En & Ed & _).
    pose proof (written_grows sb dev V x off src V1 x1 W1 Hsh Hin Hoff ltac:(by rewrite Hlen) Hgr) as HW. rewrite Hlen in *.
    set (x2 := v_size (off + n) x1) in *. set (s2 := put FIC (<[ip := x2]> (fs_inode s)) (put FLS ls1 s)).
    pose proof Hs1 as (El & _ & Esz & _).
    destruct (iupdate_run s2 V1 hs1 ip x2) as (ls3 & E3 & Ht3 & Hd3 & Hs3); cbn [s2 put FIC FLS fs_ls fs_sb fs_inode fs_iclk] in *;
      rewrite ?El; try done.
    { rewrite list_lookup_insert_eq; [done|by eapply lookup_lt_Some]. } { apply W1. }
    { rewrite Ed. apply Hf. } { by rewrite En. } { split; rewrite ?Esz; lia. }
    rewrite El in Ht3. eexists ls3, x2, _, _. split_and!; [|exact Ht3|exact HW|..].
    + erewrite bind_Ok; [|erewrite bind_Ok by (unfold iset; rewrite Hx1; reflexivity)].
      2: { simpl. rewrite list_insert_insert_eq. exact E3. }
      done.
    + pose proof (logged_length hs1 (IBLOCK (i_inum x2) (fs_sb s))). lia.
    + congruence.
    + by eapply same_log_trans.
  - erewrite bind_Ok by reflexivity. exists ls1, x1, V1, hs1. split_and!; try done; [|lia]. apply written_same; [done|lia].
  - erewrite bind_Ok by reflexivity. exists ls1, x1, V1, hs1. split_and!; try done; [|lia]. apply written_same; [done|lia].
Qed.
End writei.

(** * Properties *)
Lemma put_bytes_read V V' x x' off src : (∀ p, 0 ≤ p < MAXFILE * BSIZE → fbyte V' x' p = put_bytes (fbyte V x) off src p) →
  0 ≤ off → off + Z.of_nat (length src) ≤ MAXFILE * BSIZE → file_bytes V' x' off (Z.of_nat (length src)) = src.
Proof.
  intros Hb Hoff Hmax. apply list_eq. intros i. destruct (decide (i < length src)%nat) as [Hi|Hi].
  - pose proof (file_bytes_lookup V' x' off (Z.of_nat (length src)) (Z.of_nat i) ltac:(lia)) as E.
    rewrite Nat2Z.id in E. rewrite E, Hb by lia. unfold put_bytes. rewrite decide_True by lia.
    replace (off + Z.of_nat i - off) with (Z.of_nat i) by lia. unfold at8. rewrite Nat2Z.id.
    destruct (lookup_lt_is_Some_2 src i Hi) as [v ->]. done.
  - rewrite !lookup_ge_None_2; [done|lia|rewrite file_bytes_length; lia].
Qed.

Section properties.
Variable devsw_read : Z → option (nat → Z → M fs_state (Z * list Z)).
Variable devsw_write : Z → option (nat → list Z → M fs_state Z).

(** C23. [readi] of a file (direct and indirect blocks alike) returns the bytes
    of the file from [off] on, [n] of them or as many as there are up to its
    size, and changes nothing but which blocks are cached.  A read that starts
    past the end of the file, or whose end is not a 32-bit number, returns -1. *)
Theorem readi_contents s V Dp dev ip x off n : let sb := fs_sb s in
  fs_inode s !! ip = Some x → cache mypid (ls_bc (fs_ls s)) V ∅ Dp → fsg V sb dev → file_ok V sb dev x → i_type x ≠ T_DEV →
  (size Dp < NBUF)%nat → is_u32 off → is_u32 n →
  if decide (off ≤ i_size x ∧ off + n < 2 ^ 32) then
    let m := Z.min n (i_size x - off) in
    ∃ bc', readi mypid devsw_read ip off n s = Ok ((m, file_bytes V x off m), put FBC bc' s) ∧
      cache mypid bc' V ∅ Dp ∧ bc_disk bc' = bc_disk (ls_bc (fs_ls s))
  else readi mypid devsw_read ip off n s = Ok ((-1, []), s).
Proof.
  intros sb Hx Hc Hg Hf Hty Hlen Hoff Hn. case_decide as Hd; [by apply (readi_run devsw_read s V Dp dev); (done || apply Hd)|].
  unfold readi. erewrite bind_Ok by (by apply ifld_run). change (id x) with x. rewrite (proj2 (Z.eqb_neq _ _) Hty).
  destruct (Z.ltb_spec (i_size x) off); [done|]. destruct (Z.ltb_spec (u32 (off + n)) off) as [|Hw]; [done|].
  exfalso. apply Hd. split; [done|]. destruct (decide (off + n < 2 ^ 32)); [done|]. exfalso.
  unfold is_u32 in *. unfold u32 in Hw. assert (E : (off + n) mod 2 ^ 32 = off + n - 2 ^ 32).
  { symmetry. apply (Z.mod_unique _ _ 1); lia. }
  rewrite E in Hw. lia.
Qed.

(** C6. Inside a transaction with room, [writei] puts the [n] bytes of [src] at
    [off] of the file, whose end it may extend: afterwards every byte of the
    file is the byte written or the byte that was there, the size is the larger
    of the old size and the end of what was written, the blocks that were
    allocated are the file's alone, a file that grew has its new inode in the
    block of the inode, no byte of another file has changed, and nothing has
    reached the disk. *)
Theorem writei_contents s V hs ip x src off n : let sb := fs_sb s in let dev := lg_dev (ls_log (fs_ls s)) in
  fs_inode s !! ip = Some x → tx mypid (fs_ls s) V ∅ hs → fsg V sb dev → file_ok V sb dev x → shorts x → i_type x ≠ T_DEV →
  0 ≤ i_inum x < sb_ninodes sb → 0 ≤ off ≤ i_size x → Z.of_nat (length src) = n → off + n ≤ MAXFILE * BSIZE → Forall is_u8 src →
  log_room (ls_log (fs_ls s)) hs (6 * nblk off n + 1) → (2 * nblk off n ≤ nfree V sb dev)%nat →
  ∃ s' x' V' hs', writei mypid devsw_write ip src off n s = Ok (n, s') ∧ fs_inode s' = <[ip := x']> (fs_inode s) ∧
    tx mypid (fs_ls s') V' ∅ hs' ∧ written sb dev V x off src V' x' ∧
    bc_disk (ls_bc (fs_ls s')) = bc_disk (ls_bc (fs_ls s)).
Proof.
  intros sb dev Hx Ht Hg Hf Hsh Hty Hin Hoff Hlen Hmax Hu8 Hr Hn.
  destruct (writei_run devsw_write s V hs ip x src off n) as (ls' & x' & V' & hs' & E & Ht' & HW & _ & Hd & _); try done.
  eexists _, x', V', hs'. split; [exact E|]. by split_and!.
Qed.

(** C7. What is written is read back: in the same transaction, [readi] of the
    range that [writei] wrote returns its bytes, whether they were put in
    blocks the file had or in new ones, direct or indirect, in one block or
    across several. *)
Theorem writei_readi_roundtrip s V hs ip x src off n s' : let sb := fs_sb s in let dev := lg_dev (ls_log (fs_ls s)) in
  fs_inode s !! ip = Some x → tx mypid (fs_ls s) V ∅ hs → fsg V sb dev → file_ok V sb dev x → shorts x → i_type x ≠ T_DEV →
  0 ≤ i_inum x < sb_ninodes sb → 0 ≤ off ≤ i_size x → Z.of_nat (length src) = n → off + n ≤ MAXFILE * BSIZE → Forall is_u8 src →
  log_room (ls_log (fs_ls s)) hs (6 * nblk off n + 1) → (2 * nblk off n ≤ nfree V sb dev)%nat →
  writei mypid devsw_write ip src off n s = Ok (n, s') →
  ∃ s'', readi mypid devsw_read ip off n s' = Ok ((n, src), s'').
Proof.
  intros sb dev Hx Ht Hg Hf Hsh Hty Hin Hoff Hlen Hmax Hu8 [Hr1 Hr2] Hn E.
  destruct (writei_run devsw_write s V hs ip x src off n) as (ls' & x' & V' & hs' & E' & Ht' & HW & Hh & _ & (El & _)); try done.
  rewrite E in E'. injection E' as ->. pose proof (wn_size _ _ _ _ _ _ _ _ HW) as Hsz.
  pose proof (tp_cache _ _ _ _ _ Ht') as Hc'. set (Dp := list_to_set _ : gset (Z * Z)) in Hc'.
  edestruct (readi_run devsw_read (put FIC (<[ip := x']> (fs_inode s)) (put FLS ls' s)) V' Dp dev ip x' off n)
    as (bc' & E2 & _); cbn [put FIC FLS fs_ls fs_sb fs_inode fs_iclk]; try done.
  { rewrite list_lookup_insert_eq; [done|by eapply lookup_lt_Some]. } { apply HW. } { apply HW. }
  { by rewrite (wn_meta _ _ _ _ _ _ _ _ HW). }
  { pose proof (size_pinned (lg_dev (ls_log ls')) hs') as Hp. fold Dp in Hp. rewrite NBUF_30. lia. }
  { unfold is_u32. lia. } { unfold is_u32. lia. } { lia. } { lia. }
  eexists. etrans; [exact E2|]. replace (n `min` (i_size x' - off)) with n by lia. do 3 f_equal. rewrite <- Hlen.
  apply (put_bytes_read V V' x x'); [apply HW|lia|lia].
Qed.
End properties.
End data.

(** * A sample: the file system of 100 blocks and an empty file *)
#[local] Existing Instance sample_driver.

Definition sample_inode : inode := Inode 1 5 1 (SleepLock false true 1) true T_FILE 0 0 1 0 (replicate 13 0).

Lemma sample_fsg : fsg sample_disk sample_sb 1.
Proof.
  assert (Hb : ∀ b, block_len (sample_disk 1 b) ∧ Forall is_u8 (sample_disk 1 b)).
  { intros b. change (sample_disk 1 b) with
      (if b =? 45 then replicate 6 255 ++ [3] ++ replicate 505 0
       else if b =? 48 then [11; 22; 33] ++ replicate 509 0 else replicate (Z.to_nat BSIZE) 0).
    destruct (b =? 45); [|destruct (b =? 48)]; (split; [done|]).
    - apply Forall_app. split; [by apply Forall_replicate|]. apply Forall_cons. split; [done|by apply Forall_replicate].
    - apply Forall_app. split; [by repeat constructor|by apply Forall_replicate].
    - by apply Forall_replicate. }
  split; [simpl; lia|exact sample_geom|intros b _; apply Hb|by vm_compute|].
  intros i Hi. cbn [sample_sb sb_ninodes] in Hi. assert (Hd : 0 ≤ i / 8 < 7) by (Z.div_mod_to_equations; lia).
  assert (Ei : IBLOCK i sample_sb = i / 8 + 32) by (apply u32_small; cbn [sample_sb sb_inodestart]; lia).
  rewrite Ei. cbn [sample_sb sb_size]. split_and!; [lia|lia| |].
  - assert (Hall : forallb (λ k, used sample_disk sample_sb 1 (Z.of_nat k)) (seq 32 7) = true) by (vm_compute; reflexivity).
    rewrite List.forallb_forall in Hall. specialize (Hall (Z.to_nat (i / 8 + 32))). rewrite Z2Nat.id in Hall by lia.
    apply Hall, List.in_seq. lia.
  - intros j Hj. unfold BBLOCK. rewrite (Z.div_small j) by lia. change (u32 (0 + sb_bmapstart sample_sb)) with 45. lia.
Qed.

Lemma sample_file : file_ok sample_disk sample_sb 1 sample_inode.
Proof.
  assert (H0 : ∀ bn, fblock sample_disk sample_inode bn = 0).
  { intros bn. unfold fblock. destruct (_ <? _); [|done]. cbn [sample_inode i_addrs].
    destruct (_ !! _) as [v|] eqn:E; [|done]. by apply lookup_replicate in E as [-> _]. }
  split; try done; intros; rewrite ?H0 in *; try done. simpl in *. lia.
Qed.

Lemma sample_nfree : nfree sample_disk sample_sb 1 = 50%nat.
Proof. vm_compute. reflexivity. Qed.

(** The file system with the empty file as entry 0 of the inode cache. *)
Lemma sample_state : ∃ s, fs_inode s = [sample_inode] ∧ fs_sb s = sample_sb ∧ ls_log (fs_ls s) = log_at 0 0 ∧
  tx 1 (fs_ls s) sample_disk ∅ [].
Proof.
  destruct sample_fs as (bc & Ht & _). by exists (FsState (LogSys bc (log_at 0 0)) sample_sb false [sample_inode]).
Qed.

Lemma readi_contents_witness : ∃ s s', readi 1 (λ _, None) 0 0 100 s = Ok ((0, []), s').
Proof.
  destruct sample_state as (s & Ei & Es & El & Ht). exists s.
  pose proof (readi_contents 1 (λ _, None) s sample_disk ∅ 1 0 sample_inode 0 100) as Hr. cbv zeta in Hr. rewrite Ei, Es in Hr.
  rewrite decide_True in Hr by (simpl; lia).
  destruct Hr as (bc' & E & _); try done; [|exact sample_fsg|exact sample_file|rewrite NBUF_30, size_empty; lia|].
  { pose proof (tp_cache _ _ _ _ _ Ht) as Hc. exact Hc. }
  eexists. exact E.
Defined.

Lemma sample_room : Forall is_u8 [7; 8; 9] ∧ log_room (log_at 0 0) [] (6 * nblk 0 3 + 1) ∧
  (2 * nblk 0 3 ≤ nfree sample_disk sample_sb 1)%nat.
Proof.
  split; [by repeat constructor|]. split; [split; vm_compute; discriminate|]. rewrite sample_nfree. vm_compute. lia.
Qed.

Lemma writei_contents_witness : ∃ s s' x' V', writei 1 (λ _, None) 0 [7; 8; 9] 0 3 s = Ok (3, s') ∧
  written sample_sb 1 sample_disk sample_inode 0 [7; 8; 9] V' x' ∧ i_size x' = 3.
Proof.
  destruct sample_state as (s & Ei & Es & El & Ht), sample_room as (Hu8 & Hroom & Hfree). exists s.
  pose proof (writei_contents 1 (λ _, None) s sample_disk [] 0 sample_inode [7; 8; 9] 0 3) as Hw. cbv zeta in Hw.
  rewrite Ei, Es, El in Hw.
  destruct Hw as (s' & x' & V' & hs' & E & _ & _ & HW & _); try done; [exact sample_fsg|exact sample_file|].
  exists s', x', V'. split_and!; [exact E|exact HW|exact (wn_size _ _ _ _ _ _ _ _ HW)].
Defined.

Lemma writei_readi_roundtrip_witness : ∃ s s' s'', writei 1 (λ _, None) 0 [7; 8; 9] 0 3 s = Ok (3, s') ∧
  readi 1 (λ _, None) 0 0 3 s' = Ok ((3, [7; 8; 9]), s'').
Proof.
  destruct sample_state as (s & Ei & Es & El & Ht), sample_room as (Hu8 & Hroom & Hfree). exists s.
  pose proof (writei_run 1 (λ _, None) s sample_disk [] 0 sample_inode [7; 8; 9] 0 3) as Hw. cbv zeta in Hw.
  rewrite Ei, Es, El in Hw. destruct Hw as (ls' & x' & V' & hs' & E & _); try done; [exact sample_fsg|exact sample_file|].
  pose proof (writei_readi_roundtrip 1 (λ _, None) (λ _, None) s sample_disk [] 0 sample_inode [7; 8; 9] 0 3) as Hr.
  cbv zeta in Hr. rewrite Ei, Es, El in Hr. edestruct Hr as (s'' & E2); try done; [exact sample_fsg|exact sample_file|].
  eexists _, s''. split; [exact E|exact E2].
Defined.
