(* ===== verification/Boot.v ===== *)
(** Starting the machine: the boot loader (bootmain.c) and the search for
    processors (mp.c).

    The boot loader reads the kernel from the disk through the interface
    [IdeDevice] of the disk controller, which it shares with the driver, into
    physical memory.  mp.c reads the tables that the BIOS left in memory; its
    theorems are over tables in that format. *)

From Stdlib Require Import ZArith Lia Sorted.
From stdpp Require Import base functions numbers strings option gmap sets list list_numbers.
From S2P Require Import Prelude Mem Block Bio Ide Vm.

(** * The boot loader *)

Section loader.
Context `{D : IdeDevice}.

Record loader := Loader { ld_mem : mem; ld_dev : ide_state }.

Definition l_inb (p : Z) : M loader Z := λ s, let '(v, d) := ide_inb p (ld_dev s) in Ok (v, Loader (ld_mem s) d).
Definition l_outb (p v : Z) : M loader unit := mmod (λ s, Loader (ld_mem s) (ide_outb p v (ld_dev s))).
Definition l_insl (dst : Z) : M loader unit := λ s,
  let '(l, d) := ide_insl (ld_dev s) in Ok (tt, Loader (write_bytes (ld_mem s) dst l) d).

(** [fuel] bounds the looks at the status and the sectors of a segment. *)
Fixpoint waitdisk (fuel : nat) : M loader unit :=
  match fuel with
  | O => mnofuel
  | S fuel => r ← l_inb 0x1f7; if negb (Z.land r 0xC0 =? 0x40) then waitdisk fuel else mret tt
  end.

Definition readsect (fuel : nat) (dst offset : Z) : M loader unit :=
  waitdisk fuel;;
  l_outb 0x1f2 1;;
  l_outb 0x1f3 offset;;
  l_outb 0x1f4 (Z.shiftr offset 8);;
  l_outb 0x1f5 (Z.shiftr offset 16);;
  l_outb 0x1f6 (Z.lor (Z.shiftr offset 24) 0xE0);;
  l_outb 0x1f7 0x20;;
  waitdisk fuel;;
  l_insl dst.

Fixpoint readseg_loop (fuel n : nat) (pa epa offset : Z) : M loader unit :=
  match n with
  | O => mnofuel
  | S n =>
      if pa <? epa then readsect fuel pa offset;; readseg_loop fuel n (u32 (pa + 512)) epa (u32 (offset + 1))
      else mret tt
  end.

Definition readseg (fuel : nat) (pa count offset : Z) : M loader unit :=
  let epa := u32 (pa + count) in
  let pa := u32 (pa - offset mod 512) in
  let offset := u32 (offset / 512 + 1) in
  readseg_loop fuel fuel pa epa offset.

Definition ELF_HDR : Z := 0x10000.

(** The [n] headers from [ph] on. *)
Fixpoint load_segments (fuel n : nat) (ph : Z) : M loader unit :=
  match n with
  | O => mret tt
  | S n =>
      m ← mget ld_mem;
      let pa := load32 m (ph + 12) in
      let filesz := load32 m (ph + 16) in
      let memsz := load32 m (ph + 20) in
      readseg fuel pa filesz (load32 m (ph + 4));;
      (if filesz <? memsz then
         mmod (λ s, Loader (stosb (ld_mem s) (u32 (pa + filesz)) 0 (Z.to_nat (memsz - filesz))) (ld_dev s))
       else mret tt);;
      load_segments fuel n (ph + 32)
  end.

(** The entry point that is called, or none when the image is not ELF. *)
Definition bootmain (fuel : nat) : M loader (option Z) :=
  readseg fuel ELF_HDR 4096 0;;
  m ← mget ld_mem;
  if negb (load32 m ELF_HDR =? 0x464C457F) then mret None
  else
    let phnum := m (ELF_HDR + 44) + 2 ^ 8 * m (ELF_HDR + 45) in
    load_segments fuel (Z.to_nat phnum) (ELF_HDR + load32 m (ELF_HDR + 28));;
    m ← mget ld_mem;
    mret (Some (load32 m (ELF_HDR + 24))).
End loader.
#[global] Arguments loader D : clear implicits.

(** ** What the loader reads *)

(** A program header, and where its sectors start. *)
Record seg := Seg { sg_off : Z; sg_pa : Z; sg_filesz : Z; sg_memsz : Z }.
Definition seg_at (m : mem) (ph : Z) : seg :=
  Seg (load32 m (ph + 4)) (load32 m (ph + 12)) (load32 m (ph + 16)) (load32 m (ph + 20)).
Definition sg_lo (g : seg) : Z := sg_pa g - sg_off g mod 512.

Section image.
(** The bytes of the kernel file. *)
Variable img : mem.

(** The segments come in increasing order. *)
Definition before (a b : seg) : Prop := sg_pa a + sg_memsz a ≤ sg_lo b.

(** A segment in memory: its bytes of the file, then zeros. *)
Definition seg_loaded (m : mem) (g : seg) : Prop :=
  ∀ x, 0 ≤ x < sg_memsz g → m (sg_pa g + x) = if x <? sg_filesz g then img (sg_off g + x) else 0.

Definition header_in (m : mem) : Prop := ∀ x, ELF_HDR ≤ x < ELF_HDR + 4096 → m x = img (x - ELF_HDR).

Lemma header_load32 m a : header_in m → ELF_HDR ≤ a → a + 4 ≤ ELF_HDR + 4096 → load32 m a = load32 img (a - ELF_HDR).
Proof.
  intros Hm H1 H2. unfold load32. rewrite !Hm by lia. repeat f_equal; lia.
Qed.

Lemma header_seg m ph : header_in m → ELF_HDR ≤ ph → ph + 32 ≤ ELF_HDR + 4096 → seg_at m ph = seg_at img (ph - ELF_HDR).
Proof.
  intros Hm H1 H2. unfold seg_at. f_equal; (rewrite header_load32 by (done || lia)); f_equal; lia.
Qed.

Lemma seg_loaded_keep m m' g lo : seg_loaded m g → (∀ x, x < lo → m' x = m x) → sg_pa g + sg_memsz g ≤ lo → seg_loaded m' g.
Proof. intros Hg Hm Hlo x Hx. rewrite Hm by lia. by apply Hg. Qed.

End image.

Section loads.
Context `{D : IdeDevice} `{DO : !IdeDeviceOk D}.

Variable img : mem.

(** The file starts at sector 1 of the first drive. *)
Definition on_disk (d : ide_state) : Prop :=
  ∀ k, 0 ≤ k < 2 ^ 28 - 1 → c_disk (ide_abs d) 0 (k + 1) = read_bytes img (512 * k) 512.

(** Reading sectors succeeds; the loader does not look at errors. *)
Hypothesis no_errors : ∀ d, c_regs (ide_abs d) 0x1f2 = 1 → c_err (ide_abs (ide_outb 0x1f7 0x20 d)) = false.

Variable fuel : nat.
Hypothesis Hfuel : (ide_bound < fuel)%nat.

Lemma waitdisk_spec n s : (ide_polls (ld_dev s) < n)%nat →
  ∃ d, ide_abs d = ide_abs (ld_dev s) ∧ waitdisk n s = Ok (tt, Loader (ld_mem s) d).
Proof.
  revert s. induction n as [|n IH]; intros s Hn; [lia|]. cbn [waitdisk]. unfold l_inb, mbind, M_bind.
  destruct (ide_polls (ld_dev s)) as [|k] eqn:Hp.
  - destruct (ide_ready _ Hp) as (H1 & _ & H3 & _). destruct (ide_inb 0x1f7 (ld_dev s)) as [v d]. cbn [fst snd] in *.
    change (Z.lor IDE_BSY IDE_DRDY) with 0xC0 in H1. rewrite H1. by exists d.
  - destruct (ide_busy _ _ Hp) as (H1 & H2 & H3). destruct (ide_inb 0x1f7 (ld_dev s)) as [v d]. cbn [fst snd] in *.
    change (Z.lor IDE_BSY IDE_DRDY) with 0xC0 in H1. rewrite (proj2 (Z.eqb_neq _ _) H1). cbn [negb].
    destruct (IH (Loader (ld_mem s) d)) as (d' & Hd & Hr); [cbn; lia|]. exists d'. rewrite Hr. cbn in Hd. by rewrite Hd, H2.
Qed.

Lemma waitdisk_fuel s : ∃ d, ide_abs d = ide_abs (ld_dev s) ∧ waitdisk fuel s = Ok (tt, Loader (ld_mem s) d).
Proof. apply waitdisk_spec. pose proof (ide_polls_bound (ld_dev s)). lia. Qed.

Lemma u8_land n : u8 n = Z.land n 0xff.
Proof. unfold u8. change 0xff with (Z.ones 8). by rewrite Z.land_ones by lia. Qed.

Lemma head_byte n : 0 ≤ n < 2 ^ 24 → u8 (Z.lor (Z.shiftr n 24) 0xE0) = 0xE0 ∧ Z.land (Z.shiftr n 24) 0xf = 0.
Proof. intros Hn. by rewrite Z.shiftr_div_pow2, Z.div_small by lia. Qed.

Lemma readsect_spec dst k s : on_disk (ld_dev s) → 0 ≤ k < 2 ^ 24 - 1 →
  ∃ d, readsect fuel dst (k + 1) s = Ok (tt, Loader (write_bytes (ld_mem s) dst (read_bytes img (512 * k) 512)) d) ∧
    on_disk d.
Proof.
  intros Hdisk Hk. unfold readsect. destruct (waitdisk_fuel s) as (d0 & Hd0 & Hw). erewrite bind_Ok by exact Hw.
  do 6 (erewrite bind_Ok by reflexivity). cbn [ld_mem ld_dev].
  set (d5 := ide_outb 0x1f6 _ _). set (n := k + 1) in *.
  assert (c_disk (ide_abs d5) = c_disk (ide_abs (ld_dev s)) ∧ c_regs (ide_abs d5) 0x1f2 = 1 ∧
    drive (ide_abs d5) = 0 ∧ sector (ide_abs d5) = n) as (E1 & E2 & E3 & E4).
  { unfold d5. rewrite !ide_reg, Hd0 by lia. destruct (head_byte n) as [-> Hz]; [lia|]. unfold drive, sector, set_reg. cbn.
    rewrite !u8_land. split_and!; [done|done|done|]. rewrite <-(sector_bytes n) at 4 by lia. by rewrite Hz. }
  clearbody d5. destruct (waitdisk_fuel (Loader (ld_mem s) (ide_outb 0x1f7 0x20 d5))) as (d6 & Hd6 & Hw6). cbn [ld_dev ld_mem] in *.
  erewrite bind_Ok by exact Hw6. unfold l_insl. cbn [ld_dev ld_mem].
  assert (ide_abs d6 = Ctl (c_disk (ide_abs d5)) (c_regs (ide_abs d5)) (Some false) false) as Ed6.
  { rewrite Hd6, ide_read by done. by rewrite no_errors. }
  destruct (ide_data_in d6) as [Hin Hout]; [by rewrite Ed6|by rewrite Ed6|]. destruct (ide_insl d6) as [l d7]. cbn [fst snd] in *.
  exists d7. rewrite Hin, Ed6. unfold drive, sector in *. cbn [c_disk c_regs]. rewrite E3, E4, E1. split.
  - unfold n. rewrite (Hdisk k) by lia. done.
  - unfold on_disk. rewrite Hout, Ed6. cbn [c_disk]. by rewrite E1.
Qed.

Lemma write_read_bytes m dst b n x : write_bytes m dst (read_bytes img b n) x =
  if within x dst (Z.of_nat n) then img (b + (x - dst)) else m x.
Proof.
  assert (length (read_bytes img b n) = n) as Hl by (unfold read_bytes; by rewrite length_fmap, length_seq).
  destruct (within x dst (Z.of_nat n)) eqn:E; within_cases; try done; try (apply write_bytes_out; rewrite Hl; lia).
  pose proof (write_bytes_read m dst (read_bytes img b n)) as Hr. rewrite Hl in Hr.
  apply (f_equal (λ l, l !! Z.to_nat (x - dst))) in Hr. unfold read_bytes in Hr. rewrite !list_lookup_fmap in Hr.
  rewrite lookup_seq_lt in Hr by lia. cbn in Hr. injection Hr as Hr. rewrite Z2Nat.id in Hr by lia.
  by replace (dst + (x - dst)) with x in Hr by lia.
Qed.

(** The sectors from [k] on go to [pa] until [epa]. *)
Lemma readseg_loop_spec n : ∀ pa epa k s, on_disk (ld_dev s) → 0 ≤ pa → 0 ≤ epa → epa + 512 ≤ 2 ^ 32 → 0 ≤ k →
  512 * k + (epa - pa) + 512 ≤ 2 ^ 32 → (Z.to_nat ((epa - pa + 511) / 512) < n)%nat →
  ∃ m d hi, readseg_loop fuel n pa epa (k + 1) s = Ok (tt, Loader m d) ∧ on_disk d ∧ pa ≤ hi ∧ epa ≤ hi ∧
    ∀ x, m x = if (pa <=? x) && (x <? hi) then img (512 * k + (x - pa)) else ld_mem s x.
Proof.
  induction n as [|n IH]; intros pa epa k s Hdisk Hpa Hepa He Hk Hs Hn; [lia|]. cbn [readseg_loop].
  destruct (Z.ltb_spec pa epa) as [Hlt|Hge].
  - destruct (readsect_spec pa k s Hdisk) as (d & E0 & Hd); [lia|].
    erewrite bind_Ok by exact E0. rewrite (u32_small (pa + 512)), (u32_small (k + 1 + 1)) by lia.
    destruct (IH (pa + 512) epa (k + 1) (Loader (write_bytes (ld_mem s) pa (read_bytes img (512 * k) 512)) d))
      as (m & d' & hi & E & Hd' & H1 & H2 & Hm); [done|lia..| |].
    { assert ((epa - pa + 511) / 512 = (epa - (pa + 512) + 511) / 512 + 1) as E by (rewrite <-Z.div_add by lia; f_equal; lia).
      pose proof (Z.div_pos (epa - (pa + 512) + 511) 512). lia. }
    exists m, d', hi. split_and!; [done|done|lia|lia|]. intros x. rewrite Hm. cbn [ld_mem]. rewrite write_read_bytes.
    destruct (Z.leb_spec (pa + 512) x), (Z.ltb_spec x hi), (Z.leb_spec pa x); within_cases; try lia; try done; f_equal; lia.
  - exists (ld_mem s), (ld_dev s), pa. split_and!; [by destruct s|done|lia|lia|].
    intros x. destruct (Z.leb_spec pa x), (Z.ltb_spec x pa); try done; lia.
Qed.

Lemma readseg_spec pa count off s : on_disk (ld_dev s) → 0 ≤ off → 0 ≤ count → off mod 512 ≤ pa → pa + count + 512 ≤ 2 ^ 32 →
  off + count + 512 ≤ 2 ^ 32 → (Z.to_nat (count / 512) + 3 < fuel)%nat →
  ∃ m d hi, readseg fuel pa count off s = Ok (tt, Loader m d) ∧ on_disk d ∧ pa - off mod 512 ≤ hi ∧ pa + count ≤ hi ∧
    ∀ x, m x = if (pa - off mod 512 <=? x) && (x <? hi) then img (off + (x - pa)) else ld_mem s x.
Proof.
  intros Hdisk Ho Hc Hpa He Hoc Hf. unfold readseg. pose proof (Z.mod_pos_bound off 512 ltac:(lia)) as Hmod.
  pose proof (Z.div_mod off 512 ltac:(lia)) as Hdm. pose proof (Z.div_pos off 512 ltac:(lia) ltac:(lia)) as Hdp.
  rewrite (u32_small (pa + count)), (u32_small (pa - off mod 512)), (u32_small (off / 512 + 1)) by lia.
  destruct (readseg_loop_spec fuel (pa - off mod 512) (pa + count) (off / 512) s) as (m & d & hi & E & Hd & H1 & H2 & Hm); [done|lia..| |].
  { pose proof (Z.div_mod count 512 ltac:(lia)). pose proof (Z.mod_pos_bound count 512 ltac:(lia)). pose proof (Z.div_pos count 512 ltac:(lia) ltac:(lia)).
    assert ((pa + count - (pa - off mod 512) + 511) / 512 ≤ count / 512 + 2) as Hle; [|lia].
    apply Z.lt_succ_r. apply Z.div_lt_upper_bound; lia. }
  exists m, d, hi. split_and!; [done|done|done|done|]. intros x. rewrite Hm.
  by replace (512 * (off / 512) + (x - (pa - off mod 512))) with (off + (x - pa)) by lia.
Qed.

(** A segment lies above the page with the headers and does not wrap. *)
Definition boot_seg_ok (g : seg) : Prop :=
  ELF_HDR + 4096 ≤ sg_lo g ∧ sg_filesz g ≤ sg_memsz g ∧ sg_pa g + sg_memsz g + 512 ≤ 2 ^ 32 ∧
  sg_off g + sg_filesz g + 512 ≤ 2 ^ 32 ∧ (Z.to_nat (sg_filesz g / 512) + 3 < fuel)%nat.

Hypothesis Himg : bytes img.

(** One round of the loop loads its segment, and keeps what lies below. *)
Lemma load_segment n ph s g : on_disk (ld_dev s) → header_in img (ld_mem s) → ELF_HDR ≤ ph → ph + 32 ≤ ELF_HDR + 4096 →
  seg_at img (ph - ELF_HDR) = g → boot_seg_ok g →
  ∃ s', load_segments fuel (S n) ph s = load_segments fuel n (ph + 32) s' ∧ on_disk (ld_dev s') ∧ seg_loaded img (ld_mem s') g ∧
    ∀ x, x < sg_lo g → ld_mem s' x = ld_mem s x.
Proof.
  intros Hdisk Hh H1 H2 Hg (Hlo & Hfm & Hpm & Hof & Hfu). cbn [load_segments]. erewrite bind_Ok by reflexivity. cbv zeta.
  rewrite <-(header_seg img _ _ Hh H1 H2) in Hg. subst g. unfold seg_at, sg_lo in *. cbn [sg_off sg_pa sg_filesz sg_memsz] in *.
  set (pa := load32 (ld_mem s) (ph + 12)) in *. set (fsz := load32 (ld_mem s) (ph + 16)) in *.
  set (msz := load32 (ld_mem s) (ph + 20)) in *. set (off := load32 (ld_mem s) (ph + 4)) in *.
  assert (0 ≤ off ∧ 0 ≤ fsz) as [Ho Hfs].
  { unfold off, fsz. rewrite (header_load32 img _ (ph + 4)), (header_load32 img _ (ph + 16)) by (done || lia). split; apply (load32_u32 img _ Himg). }
  pose proof (Z.mod_pos_bound off 512 ltac:(lia)) as Hmod.
  destruct (readseg_spec pa fsz off s) as (m & d & hi & E & Hd & Hhi1 & Hhi2 & Hm); [done|done|done|unfold ELF_HDR in *; lia|lia|lia|lia|].
  erewrite bind_Ok by exact E. destruct (Z.ltb_spec fsz msz) as [Hlt|Hge].
  - erewrite bind_Ok by reflexivity. eexists. split; [reflexivity|]. cbn [ld_mem ld_dev]. unfold ELF_HDR in *.
    rewrite u32_small by lia. split_and!; [done| |].
    + intros x Hx. cbn in Hx |- *. rewrite stosb_spec, Hm. within_cases; destruct (Z.ltb_spec x fsz); try lia; try done; cbn [andb]; f_equal; lia.
    + intros x Hx. rewrite stosb_spec, Hm. within_cases; try lia; done.
  - erewrite bind_Ok by reflexivity. eexists. split; [reflexivity|]. cbn [ld_mem ld_dev]. unfold ELF_HDR in *. split_and!; [done| |].
    + intros x Hx. cbn in Hx |- *. rewrite Hm. rewrite (proj2 (Z.ltb_lt x fsz)) by lia.
      rewrite (proj2 (Z.leb_le _ _)), (proj2 (Z.ltb_lt _ _)) by lia. cbn [andb]. f_equal. lia.
    + intros x Hx. rewrite Hm. rewrite (proj2 (Z.leb_gt _ _)) by lia. done.
Qed.

Lemma load_segments_spec gs : ∀ ph s ds, on_disk (ld_dev s) → header_in img (ld_mem s) → ELF_HDR ≤ ph →
  ph + 32 * Z.of_nat (length gs) ≤ ELF_HDR + 4096 →
  (∀ i g, gs !! i = Some g → seg_at img (ph - ELF_HDR + 32 * Z.of_nat i) = g) →
  Forall boot_seg_ok gs → StronglySorted before gs → Forall (λ d, Forall (before d) gs) ds → Forall (seg_loaded img (ld_mem s)) ds →
  ∃ s', load_segments fuel (length gs) ph s = Ok (tt, s') ∧ header_in img (ld_mem s') ∧ Forall (seg_loaded img (ld_mem s')) (ds ++ gs).
Proof.
  induction gs as [|g gs IH]; intros ph s ds Hdisk Hh H1 H2 Hat Hok Hsort Hds Hl.
  { exists s. by rewrite app_nil_r. }
  cbn [length] in *. apply Forall_cons in Hok as [Hg Hok]. apply StronglySorted_inv in Hsort as [Hsort Hgb].
  destruct (load_segment (length gs) ph s g Hdisk Hh H1) as (s1 & -> & Hd1 & Hg1 & Hkeep); [lia| |done|].
  { specialize (Hat 0%nat g eq_refl). by rewrite Z.mul_0_r, Z.add_0_r in Hat. }
  destruct (IH (ph + 32) s1 (ds ++ [g])) as (s' & Hrun & Hh' & Hl'); [done| |lia|lia| |done|done| | |].
  - intros x Hx. rewrite Hkeep; [by apply Hh|]. destruct Hg. lia.
  - intros i g' Hg'. rewrite <-(Hat (S i) g' Hg'). f_equal. lia.
  - apply Forall_app. split; [|by constructor]. eapply Forall_impl; [exact Hds|]. by intros d [_ Hd]%Forall_cons.
  - apply Forall_app. split; [|by constructor]. rewrite Forall_forall in Hl, Hds |- *. intros d Hd.
    apply (seg_loaded_keep img (ld_mem s) _ _ (sg_lo g)); [by apply Hl|done|]. specialize (Hds d Hd). by apply Forall_inv in Hds.
  - exists s'. split_and!; [done|done|]. by rewrite <-app_assoc in Hl'.
Qed.
End loads.

Definition phnum_of (m : mem) : Z := m 44 + 2 ^ 8 * m 45.

(** The segments that an image lists in its first page. *)
Definition segs_of (img : mem) : list seg :=
  (λ i, seg_at img (load32 img 28 + 32 * Z.of_nat i)) <$> seq 0 (Z.to_nat (phnum_of img)).

(** A kernel image that the loader can load: an ELF file with its program
    headers in the first page, and segments in increasing order that fit. *)
Definition bootable (fuel : nat) (img : mem) : Prop :=
  bytes img ∧ load32 img 0 = 0x464C457F ∧ load32 img 28 + 32 * phnum_of img ≤ 4096 ∧
  Forall (boot_seg_ok fuel) (segs_of img) ∧ StronglySorted before (segs_of img).

(** C34. The boot loader, on a disk that holds a bootable kernel image from sector
    1 on and whose controller reports no errors, ends and calls the entry point
    of the image with every segment in place: each byte of a segment at its
    physical address is the byte of the file, or zero beyond the part that is in
    the file, although whole sectors are copied around the segments. *)
Theorem bootmain_loads_kernel `{D : IdeDevice} `{DO : !IdeDeviceOk D} img fuel (s : loader D) : on_disk img (ld_dev s) →
  (∀ d, c_regs (ide_abs d) 0x1f2 = 1 → c_err (ide_abs (ide_outb 0x1f7 0x20 d)) = false) →
  (ide_bound + 12 < fuel)%nat → bootable fuel img →
  ∃ s', bootmain fuel s = Ok (Some (load32 img 24), s') ∧ Forall (seg_loaded img (ld_mem s')) (segs_of img).
Proof.
  intros Hdisk Herr Hf (Hb & Hmagic & Hph & Hok & Hsort). unfold bootmain.
  destruct (readseg_spec img Herr fuel ltac:(lia) ELF_HDR 4096 0 s) as (m & d & hi & E & Hd & Hhi1 & Hhi2 & Hm); [done|done|done|done|done|done|change (Z.to_nat (4096 / 512)) with 8%nat; lia|].
  erewrite bind_Ok by exact E. erewrite bind_Ok by reflexivity. cbn [ld_mem].
  assert (header_in img m) as Hh.
  { intros x Hx. rewrite Hm. change (0 mod 512) with 0. rewrite (proj2 (Z.leb_le _ _)), (proj2 (Z.ltb_lt _ _)) by lia. done. }
  rewrite (header_load32 img m ELF_HDR), (header_load32 img m (ELF_HDR + 28)) by (done || unfold ELF_HDR; lia).
  change (ELF_HDR - ELF_HDR) with 0. change (ELF_HDR + 28 - ELF_HDR) with 28. rewrite Hmagic. cbn [Z.eqb Pos.eqb negb].
  assert (m (ELF_HDR + 44) + 2 ^ 8 * m (ELF_HDR + 45) = phnum_of img) as -> by (rewrite !Hh by (unfold ELF_HDR; lia); done).
  assert (length (segs_of img) = Z.to_nat (phnum_of img)) as Hlen by (unfold segs_of; by rewrite length_fmap, length_seq).
  pose proof (load32_u32 img 28 Hb) as H28. unfold is_u32 in H28.
  assert (0 ≤ phnum_of img) as Hpn by (unfold phnum_of; pose proof (Hb 44); pose proof (Hb 45); unfold is_u8 in *; lia).
  destruct (load_segments_spec img Herr fuel ltac:(lia) Hb (segs_of img) (ELF_HDR + load32 img 28) (Loader m d) [])
    as (s' & Hrun & Hh' & Hl); [done|done|lia|lia| |done|done|done|done|].
  { intros i g Hg. unfold segs_of in Hg. rewrite list_lookup_fmap in Hg. apply fmap_Some in Hg as (j & Hj & ->).
    apply lookup_seq in Hj as [-> _]. f_equal. lia. }
  rewrite Hlen in Hrun. erewrite bind_Ok by exact Hrun. erewrite bind_Ok by reflexivity. exists s'. split; [|done].
  rewrite (header_load32 img) by (done || unfold ELF_HDR; lia). done.
Qed.

(** A kernel of one segment, five bytes from offset 600 that go to 0x100058 with
    five zeros after them. *)
Definition demo_header : list Z :=
  [0x7F; 0x45; 0x4C; 0x46] ++ replicate 20 0 ++ enc32 0x10005A ++ enc32 52 ++ replicate 12 0 ++ enc16 1 ++ replicate 6 0 ++
  enc32 1 ++ enc32 600 ++ enc32 0x80100058 ++ enc32 0x100058 ++ enc32 5 ++ enc32 10 ++ enc32 7 ++ enc32 4096.
Definition demo_kernel : mem := at8 (demo_header ++ replicate 516 0 ++ [1; 2; 3; 4; 5; 6]).
Definition demo_disk : wctl :=
  WCtl (Ctl (λ _ k, read_bytes demo_kernel (512 * (k - 1)) 512) (λ _, 0) None false) true.

Lemma demo_bootable : bootable 14 demo_kernel.
Proof.
  assert (bytes demo_kernel) as Hb.
  { intros a. apply at8_u8. apply (bool_decide_unpack _). by vm_compute. }
  split; [exact Hb|]. split; [by vm_compute|]. split; [by vm_compute|].
  assert (segs_of demo_kernel = [Seg 600 0x100058 5 10]) as -> by (by vm_compute).
  split; [|repeat constructor]. constructor; [|constructor]. unfold boot_seg_ok, sg_lo. cbn [sg_off sg_pa sg_filesz sg_memsz].
  split_and!; vm_compute; (done || lia).
Qed.

Lemma bootmain_loads_kernel_witness :
  let D := wide (λ _, false) in let DO := wide_ok (λ _, false) in
  ∃ s', bootmain (D := D) 14 (Loader (D := D) (λ _, 7) demo_disk) = Ok (Some 0x10005A, s') ∧
    ld_mem s' 0x10005A = 3 ∧ ld_mem s' 0x10005F = 0.
Proof.
  intros D DO.
  destruct (bootmain_loads_kernel (D := D) (DO := DO) demo_kernel 14 (Loader (D := D) (λ _, 7) demo_disk)) as (s' & Hrun & Hl).
  - intros k Hk. cbn. by replace (k + 1 - 1) with k by lia.
  - done.
  - cbn. lia.
  - exact demo_bootable.
  - assert (segs_of demo_kernel = [Seg 600 0x100058 5 10]) as E by (by vm_compute). rewrite E in Hl. apply Forall_inv in Hl.
    assert (load32 demo_kernel 24 = 0x10005A) as E24 by (by vm_compute). rewrite E24 in Hrun.
    assert (demo_kernel (600 + 2) = 3) as E2 by (by vm_compute).
    pose proof (Hl 2) as H2. pose proof (Hl 7) as H7. cbn [sg_pa sg_off sg_memsz sg_filesz] in H2, H7.
    change (2 <? 5) with true in H2. change (7 <? 5) with false in H7. rewrite E2 in H2.
    exists s'. split; [exact Hrun|]. split; [apply H2; lia|apply H7; lia].
Defined.
