(* ===== verification/Mp.v ===== *)
(** The search for processors (mp.c).

    The BIOS leaves a floating structure and a configuration table in low
    memory.  [mpinit] finds them by their signatures and checksums and takes
    from the table the processors, the I/O APIC and the address of the local
    APICs.  The memory is not changed and is a parameter. *)

From Stdlib Require Import ZArith Lia.
From stdpp Require Import base numbers strings option gmap sets list list_numbers.
From S2P Require Import Prelude Mem Block.

Abbreviation NCPU := 8%nat.
Abbreviation MPPROC := 0.
Abbreviation MPBUS := 1.
Abbreviation MPIOAPIC := 2.
Abbreviation MPIOINTR := 3.
Abbreviation MPLINTR := 4.

(** The APIC ids of [cpus[0]] to [cpus[ncpu - 1]], [ioapicid], [lapic], and the
    bytes written to ports. *)
Record mp_state := MpState { ms_cpus : list Z; ms_ioapicid : Z; ms_lapic : Z; ms_out : list (Z * Z) }.

Section mp.
Variable m : mem.
(** What [inb(0x23)] returns. *)
Variable imcr : Z.

Fixpoint sum_loop (n : nat) (addr sum : Z) : Z :=
  match n with O => sum | S n => sum_loop n (addr + 1) (s32 (sum + m addr)) end.
Definition sum (addr len : Z) : Z := u8 (sum_loop (Z.to_nat len) addr 0).

(** [memcmp(p, s, 4) == 0] with a string constant. *)
Definition has_sig (p : Z) (s : list Z) : bool := bool_decide (read_bytes m p 4 = s).

Fixpoint mpsearch_loop (n : nat) (p e : Z) : option Z :=
  match n with
  | O => None
  | S n =>
      if p <? e then
        if has_sig p [95; 77; 80; 95] && (sum p 16 =? 0) then Some p else mpsearch_loop n (p + 16) e
      else None
  end.

(** The loop ends after [len / 16] rounds. *)
Definition mpsearch1 (a len : Z) : option Z :=
  let addr := P2V a in mpsearch_loop (Z.to_nat (len / 16 + 1)) addr (addr + len).

Definition mpsearch : option Z :=
  let bda := P2V 0x400 in
  let p := Z.shiftl (Z.lor (Z.shiftl (m (bda + 0x0F)) 8) (m (bda + 0x0E))) 4 in
  match
    if negb (p =? 0) then mpsearch1 p 1024
    else mpsearch1 (Z.lor (Z.shiftl (m (bda + 0x14)) 8) (m (bda + 0x13)) * 1024 - 1024) 1024
  with
  | Some mp => Some mp
  | None => mpsearch1 0xF0000 0x10000
  end.

Definition load16 (a : Z) : Z := m a + 2 ^ 8 * m (a + 1).

(** The floating structure and the configuration table. *)
Definition mpconfig : option (Z * Z) :=
  mp ← mpsearch;
  if load32 m (mp + 4) =? 0 then None
  else
    let conf := P2V (load32 m (mp + 4)) in
    if negb (has_sig conf [80; 67; 77; 80]) then None
    else if negb (m (conf + 6) =? 1) && negb (m (conf + 6) =? 4) then None
    else if negb (sum conf (load16 (conf + 4)) =? 0) then None
    else Some (mp, conf).

(** The entries from [p] to [e].  An entry of another type is looked at again
    and again. *)
Fixpoint mpinit_loop (fuel : nat) (ismp : bool) (p e : Z) : M mp_state bool :=
  match fuel with
  | O => mnofuel
  | S fuel =>
      if p <? e then
        let t := m p in
        if t =? MPPROC then
          mmod (λ s, if (length (ms_cpus s) <? NCPU)%nat
                     then MpState (ms_cpus s ++ [m (p + 1)]) (ms_ioapicid s) (ms_lapic s) (ms_out s) else s);;
          mpinit_loop fuel ismp (p + 20) e
        else if t =? MPIOAPIC then
          mmod (λ s, MpState (ms_cpus s) (m (p + 1)) (ms_lapic s) (ms_out s));;
          mpinit_loop fuel ismp (p + 8) e
        else if (t =? MPBUS) || (t =? MPIOINTR) || (t =? MPLINTR) then mpinit_loop fuel ismp (p + 8) e
        else mpinit_loop fuel false p e
      else mret ismp
  end.

Definition mpinit (fuel : nat) : M mp_state unit :=
  match mpconfig with
  | None => mpanic "Expect to run on an SMP"
  | Some (mp, conf) =>
      mmod (λ s, MpState (ms_cpus s) (ms_ioapicid s) (load32 m (conf + 36)) (ms_out s));;
      ismp ← mpinit_loop fuel true (conf + 44) (conf + load16 (conf + 4));
      if negb ismp then mpanic "Didn't find a suitable machine"
      else if negb (m (mp + 12) =? 0) then
        mmod (λ s, MpState (ms_cpus s) (ms_ioapicid s) (ms_lapic s) (ms_out s ++ [(0x22, 0x70); (0x23, Z.lor imcr 1)]))
      else mret tt
  end.

(** * The search *)

(** The first of the places [p], [p + 16], .. below [e] at which the test holds. *)
Lemma mpsearch_loop_spec n : ∀ p e, (Z.to_nat ((e - p + 15) / 16) ≤ n)%nat →
  match mpsearch_loop n p e with
  | Some q => ∃ k, 0 ≤ k ∧ q = p + 16 * k ∧ q < e ∧ has_sig q [95; 77; 80; 95] = true ∧ sum q 16 = 0 ∧
      ∀ i, 0 ≤ i < k → has_sig (p + 16 * i) [95; 77; 80; 95] && (sum (p + 16 * i) 16 =? 0) = false
  | None => ∀ i, 0 ≤ i → p + 16 * i < e → has_sig (p + 16 * i) [95; 77; 80; 95] && (sum (p + 16 * i) 16 =? 0) = false
  end.
Proof.
  induction n as [|n IH]; intros p e Hn; cbn [mpsearch_loop].
  - intros i Hi He. exfalso. pose proof (Z.div_str_pos (e - p + 15) 16). lia.
  - destruct (Z.ltb_spec p e) as [Hlt|Hge]; [|intros i Hi He; lia].
    destruct (has_sig p _ && (sum p 16 =? 0)) eqn:E.
    + exists 0. pose proof E as [E1 E2%Z.eqb_eq]%andb_true_iff. split_and!; [lia|lia|lia|done|done|lia].
    + specialize (IH (p + 16) e). assert ((e - p + 15) / 16 = (e - (p + 16) + 15) / 16 + 1) as Ed by (rewrite <-Z.div_add by lia; f_equal; lia).
      pose proof (Z.div_pos (e - (p + 16) + 15) 16). specialize (IH ltac:(lia)).
      destruct (mpsearch_loop n (p + 16) e) as [q|].
      * destruct IH as (k & Hk & -> & Hq & Hs & Hsum & Hmin). exists (k + 1). split_and!; [lia|lia|lia|done|done|].
        intros i Hi. destruct (Z.eq_dec i 0) as [->|]; [by rewrite Z.mul_0_r, Z.add_0_r|].
        replace (p + 16 * i) with (p + 16 + 16 * (i - 1)) by lia. apply Hmin. lia.
      * intros i Hi He. destruct (Z.eq_dec i 0) as [->|]; [by rewrite Z.mul_0_r, Z.add_0_r|].
        replace (p + 16 * i) with (p + 16 + 16 * (i - 1)) by lia. apply IH; lia.
Qed.

(** * Tables *)

(** An entry: a processor with its APIC id, an I/O APIC with its id, or one of
    the types that are skipped, each with the bytes that are not looked at. *)
Inductive entry := EProc (apicid : Z) (rest : list Z) | EIoapic (apicno : Z) (rest : list Z) | EOther (t : Z) (rest : list Z).

Definition enc_entry (e : entry) : list Z :=
  match e with EProc a l => MPPROC :: a :: l | EIoapic a l => MPIOAPIC :: a :: l | EOther t l => t :: l end.
Definition entry_ok (e : entry) : Prop :=
  match e with
  | EProc _ l => length l = 18%nat
  | EIoapic _ l => length l = 6%nat
  | EOther t l => t ∈ [MPBUS; MPIOINTR; MPLINTR] ∧ length l = 7%nat
  end.
Definition enc_table (es : list entry) : list Z := es ≫= enc_entry.

Definition apicids (es : list entry) : list Z := omap (λ e, match e with EProc a _ => Some a | _ => None end) es.
Definition ioapics (es : list entry) : list Z := omap (λ e, match e with EIoapic a _ => Some a | _ => None end) es.

(** What [mpinit] makes of the entries. *)
Definition with_entries (es : list entry) (s : mp_state) : mp_state :=
  MpState (take NCPU (ms_cpus s ++ apicids es)) (default (ms_ioapicid s) (last (ioapics es))) (ms_lapic s) (ms_out s).

Definition holds_at (p : Z) (l : list Z) : Prop := ∀ i b, l !! i = Some b → m (p + Z.of_nat i) = b.

Lemma holds_at_app p a b : holds_at p (a ++ b) → holds_at p a ∧ holds_at (p + Z.of_nat (length a)) b.
Proof.
  intros H. split; intros i x Hi.
  - apply H. rewrite lookup_app_l by (by eapply lookup_lt_Some). done.
  - replace (p + Z.of_nat (length a) + Z.of_nat i) with (p + Z.of_nat (length a + i)) by lia. apply H.
    rewrite lookup_app_r by lia. by replace (length a + i - length a)%nat with i by lia.
Qed.

Lemma take_full (l r : list Z) x : (length l = NCPU)%nat → take NCPU (l ++ x :: r) = take NCPU (l ++ r).
Proof. intros Hl. rewrite !take_app_le by lia. done. Qed.

(** One entry. *)
Lemma mpinit_entry fuel ismp p e x s : entry_ok x → holds_at p (enc_entry x) → p < e → (length (ms_cpus s) ≤ NCPU)%nat →
  ∃ s', mpinit_loop (S fuel) ismp p e s = mpinit_loop fuel ismp (p + Z.of_nat (length (enc_entry x))) e s' ∧
    (length (ms_cpus s') ≤ NCPU)%nat ∧ ∀ es, with_entries es s' = with_entries (x :: es) s.
Proof.
  intros Hok Hat Hlt Hn. cbn [mpinit_loop]. rewrite (proj2 (Z.ltb_lt _ _)) by lia.
  pose proof (Hat 0%nat) as H0. rewrite Z.add_0_r in H0. pose proof (Hat 1%nat) as H1. change (Z.of_nat 1) with 1 in H1.
  destruct x as [a l|a l|t l]; cbn [enc_entry length lookup list_lookup] in *.
  - rewrite (H0 _ eq_refl), (H1 _ eq_refl), Hok. change (MPPROC =? MPPROC) with true. cbn iota. erewrite bind_Ok by reflexivity.
    eexists. split; [reflexivity|]. unfold with_entries. destruct (Nat.ltb_spec (length (ms_cpus s)) NCPU) as [Hl|Hl]; cbn.
    + rewrite length_app. cbn. split; [lia|]. intros es. by rewrite <-app_assoc.
    + split; [lia|]. intros es. f_equal. symmetry. apply take_full. lia.
  - rewrite (H0 _ eq_refl), (H1 _ eq_refl), Hok. change (MPIOAPIC =? MPPROC) with false. change (MPIOAPIC =? MPIOAPIC) with true. cbn iota.
    erewrite bind_Ok by reflexivity. eexists. split; [reflexivity|]. cbn. split; [done|]. intros es. unfold with_entries. cbn.
    f_equal. change (omap _ es) with (ioapics es). destruct (ioapics es) as [|y l'] eqn:E; [done|]. rewrite last_cons_cons.
    destruct (last (y :: l')) eqn:El; [done|]. by apply last_None in El.
  - rewrite (H0 _ eq_refl). destruct Hok as [Ht ->]. exists s. split; [|done].
    rewrite !elem_of_cons, elem_of_nil in Ht. destruct Ht as [->|[->|[->|[]]]]; done.
Qed.

Lemma mpinit_loop_spec es : ∀ fuel ismp p e s, Forall entry_ok es → holds_at p (enc_table es) →
  p + Z.of_nat (length (enc_table es)) ≤ e → (length (ms_cpus s) ≤ NCPU)%nat → (length es ≤ fuel)%nat →
  mpinit_loop fuel ismp p e s =
    mpinit_loop (fuel - length es) ismp (p + Z.of_nat (length (enc_table es))) e (with_entries es s).
Proof.
  induction es as [|x es IH]; intros fuel ismp p e s Hok Hat He Hn Hf.
  { unfold with_entries. cbn. rewrite app_nil_r, take_ge by done. rewrite Z.add_0_r, Nat.sub_0_r. by destruct s. }
  apply Forall_cons in Hok as [Hx Hok]. unfold enc_table in *. cbn [mbind list_bind] in *. rewrite length_app in *.
  apply holds_at_app in Hat as [Hat1 Hat2]. destruct fuel as [|fuel]; [cbn in Hf; lia|]. cbn [length] in Hf.
  assert (0 < length (enc_entry x))%nat as Hpos by (destruct x; cbn; lia).
  destruct (mpinit_entry fuel ismp p e x s Hx Hat1) as (s' & -> & Hn' & Hw); [lia|done|].
  rewrite IH; [|done|done|lia|done|lia]. rewrite Hw. f_equal. lia.
Qed.

Lemma mpinit_loop_short es : ∀ fuel ismp p e s, Forall entry_ok es → holds_at p (enc_table es) →
  p + Z.of_nat (length (enc_table es)) ≤ e → (length (ms_cpus s) ≤ NCPU)%nat → (fuel < length es)%nat →
  mpinit_loop fuel ismp p e s = NoFuel.
Proof.
  intros fuel ismp p e s Hok Hat He Hn Hf. rewrite <-(take_drop fuel es) in Hok, Hat, He. unfold enc_table in *. rewrite bind_app in Hat, He.
  apply Forall_app in Hok as [Hok _]. apply holds_at_app in Hat as [Hat _]. rewrite length_app in He.
  rewrite (mpinit_loop_spec (take fuel es)) by (done || (unfold enc_table; lia) || (rewrite length_take; lia)).
  rewrite length_take. by replace (fuel - fuel `min` length es)%nat with 0%nat by lia.
Qed.
End mp.

(** C35. When the BIOS tables are found, [mpinit] on a configuration table with
    known entries returns with the APIC ids of its processors, the first [NCPU]
    of them in order, the id of its last I/O APIC and its address of the local
    APICs.  When an entry of an unknown type follows known ones it does not
    reach its panic: it never returns. *)
Theorem mpinit_reads_table m imcr mp conf es s : mpconfig m = Some (mp, conf) → Forall entry_ok es →
  holds_at m (conf + 44) (enc_table es) → ms_cpus s = [] →
  (load16 m (conf + 4) = 44 + Z.of_nat (length (enc_table es)) →
     ∀ fuel, (length es < fuel)%nat →
       mpinit m imcr fuel s = Ok (tt, MpState (take NCPU (apicids es)) (default (ms_ioapicid s) (last (ioapics es)))
         (load32 m (conf + 36)) (ms_out s ++ if m (mp + 12) =? 0 then [] else [(0x22, 0x70); (0x23, Z.lor imcr 1)]))) ∧
  (44 + Z.of_nat (length (enc_table es)) < load16 m (conf + 4) → m (conf + 44 + Z.of_nat (length (enc_table es))) ∉ [0; 1; 2; 3; 4] →
     ∀ fuel, mpinit m imcr fuel s = NoFuel).
Proof.
  intros Hconf Hok Hat Hs. unfold mpinit. rewrite Hconf. split.
  - intros Hlen fuel Hf. erewrite bind_Ok by reflexivity.
    erewrite bind_Ok by (rewrite (mpinit_loop_spec m es) by (done || lia || (cbn; rewrite Hs; cbn; lia));
      destruct (fuel - length es)%nat eqn:Ef; [lia|]; cbn [mpinit_loop]; rewrite (proj2 (Z.ltb_ge _ _)) by lia; reflexivity).
    cbn [negb]. unfold with_entries. cbn [ms_cpus ms_ioapicid ms_lapic ms_out]. rewrite Hs. cbn [app].
    destruct (m (mp + 12) =? 0); cbn [negb]; [by rewrite app_nil_r|done].
  - intros Hlen Hbad fuel. erewrite bind_Ok by reflexivity. set (s1 := MpState _ _ _ _).
    assert (∀ fuel ismp s, mpinit_loop m fuel ismp (conf + 44 + Z.of_nat (length (enc_table es))) (conf + load16 m (conf + 4)) s = NoFuel) as Hspin.
    { intros f. induction f as [|f IH]; intros ismp s'; [done|]. cbn [mpinit_loop]. rewrite (proj2 (Z.ltb_lt _ _)) by lia.
      rewrite !not_elem_of_cons in Hbad. destruct Hbad as (H0 & H1 & H2 & H3 & H4 & _).
      rewrite !(proj2 (Z.eqb_neq _ _)) by done. cbn [orb]. apply IH. }
    assert (mpinit_loop m fuel true (conf + 44) (conf + load16 m (conf + 4)) s1 = NoFuel) as E.
    { destruct (le_lt_dec (length es) fuel) as [Hle|Hlt].
      - rewrite (mpinit_loop_spec m es) by (done || lia || (cbn; rewrite Hs; cbn; lia)). apply Hspin.
      - apply (mpinit_loop_short m es); (done || lia || (cbn; rewrite Hs; cbn; lia)). }
    unfold mbind, M_bind. by rewrite E.
Qed.

(** A machine with two processors and an I/O APIC. *)
Definition demo_entries : list entry := [EProc 0 (replicate 18 20); EProc 3 (replicate 18 20); EOther MPBUS (replicate 7 0); EIoapic 5 (replicate 6 0)].
Definition demo_mp : list Z := [95; 77; 80; 95] ++ enc32 0x9FD00 ++ [1; 4; 26; 0; 0x80; 0; 0; 0].
Definition demo_conf : list Z :=
  [80; 67; 77; 80] ++ enc16 100 ++ [4; 171] ++ replicate 26 0 ++ enc16 4 ++ enc32 0xFEE00000 ++ replicate 4 0 ++ enc_table demo_entries.
Definition demo_bios : mem := λ a,
  if within a (P2V 0x40E) 2 then at8 (enc16 0x9FC0) (a - P2V 0x40E)
  else if within a (P2V 0x9FC20) 16 then at8 demo_mp (a - P2V 0x9FC20)
  else if within a (P2V 0x9FD00) 100 then at8 demo_conf (a - P2V 0x9FD00)
  else 0.

Lemma mpinit_reads_table_witness :
  mpinit demo_bios 4 5 (MpState [] 0 0 []) = Ok (tt, MpState [0; 3] 5 0xFEE00000 [(0x22, 0x70); (0x23, 5)]).
Proof.
  assert (mpconfig demo_bios = Some (P2V 0x9FC20, P2V 0x9FD00)) as E by (by vm_compute).
  destruct (mpinit_reads_table demo_bios 4 (P2V 0x9FC20) (P2V 0x9FD00) demo_entries (MpState [] 0 0 [])) as [H _].
  - exact E.
  - repeat constructor.
  - intros i b Hi. assert (Forall (λ i, demo_bios (P2V 0x9FD00 + 44 + Z.of_nat i) = default 0 (enc_table demo_entries !! i))
      (seq 0 (length (enc_table demo_entries)))) as Hall by (apply (bool_decide_unpack _); by vm_compute).
    rewrite Forall_forall in Hall. specialize (Hall i). rewrite Hi in Hall. apply Hall. apply elem_of_seq.
    apply lookup_lt_Some in Hi. lia.
  - done.
  - assert (load16 demo_bios (P2V 0x9FD00 + 4) = 44 + Z.of_nat (length (enc_table demo_entries))) as El by (by vm_compute).
    specialize (H El 5%nat ltac:(cbn; lia)). rewrite H. by vm_compute.
Defined.
