(* ===== verification/Mkfs.v ===== *)
(** The file system builder (mkfs.c): the program of the build that writes the
    first image of the file system.  Its image is a file of sectors of the
    host; a sector past the end cannot be read, and one that was skipped is
    zero.  Calls of the host that fail on their own (a full disk) are not
    modelled; [exit(1)] and a failed [assert] are panics.

    The theorems say that the kernel finds in the image what mkfs was given:
    the invariants of the file system that FsBlocks.v and FsData.v assume hold
    of it, and its files have their names and bytes. *)

From Stdlib Require Import ZArith Lia.
From stdpp Require Import base functions numbers strings option gmap sets list list_numbers.
From S2P Require Import Prelude Spinlock Sleeplock Mem Block Bio Cache Log Fs FsBlocks FsData.

(** * The program *)

Abbreviation NINODES := 200.
Abbreviation FSSIZE := 1000.
Abbreviation SWAP_SIZE := 20480.
Abbreviation NO_SWAP := 3.

Definition nbitmap : Z := FSSIZE / (BSIZE * 8) + 1.
Definition ninodeblocks : Z := NINODES / IPB + 1.
Definition nlog : Z := LOGSIZE.
Definition nmeta : Z := 2 + nlog + ninodeblocks + nbitmap.
Definition nblocks : Z := FSSIZE - nmeta + SWAP_SIZE * NO_SWAP.

(** The conversions to the byte order of the target, on a host that has it. *)
Definition xshort (x : Z) : Z := u16 x.
Definition xint (x : Z) : Z := u32 x.

Definition mk_sb : superblock :=
  Superblock (xint FSSIZE) (xint nblocks) (xint NINODES) (xint nlog) (xint 2) (xint (2 + nlog))
    (xint (2 + nlog + ninodeblocks)).

Definition zeroes : list Z := replicate (Z.to_nat BSIZE) 0.

(** The image, the number of its sectors, and the counters. *)
Record mkfs := Mk {
  mk_im : Z → list Z;
  mk_n : Z;
  mk_freeinode : Z;
  mk_freeblock : Z
}.

(** The sector at the offset [sec * BSIZE], a [uint]. *)
Definition at_sector (sec : Z) : Z := u32 (sec * BSIZE) / BSIZE.

Definition wsect (sec : Z) (d : list Z) : M mkfs unit :=
  mmod (λ s, Mk (<[at_sector sec := d]> (mk_im s)) (Z.max (mk_n s) (at_sector sec + 1))
    (mk_freeinode s) (mk_freeblock s)).

Definition rsect (sec : Z) : M mkfs (list Z) :=
  n ← mget mk_n;
  if at_sector sec <? n then mget (λ s, mk_im s (at_sector sec)) else mpanic "read".

Definition winode (inum : Z) (ip : dinode) : M mkfs unit :=
  let bn := IBLOCK inum mk_sb in
  buf ← rsect bn;
  wsect bn (put_dinode buf (dinode_off inum) ip).

Definition rinode (inum : Z) : M mkfs dinode :=
  let bn := IBLOCK inum mk_sb in
  buf ← rsect bn;
  mret (get_dinode buf (dinode_off inum)).

(** [freeblock++] *)
Definition take_freeblock : M mkfs Z := λ s,
  Ok (mk_freeblock s, Mk (mk_im s) (mk_n s) (mk_freeinode s) (u32 (mk_freeblock s + 1))).

Definition mk_ialloc (type : Z) : M mkfs Z :=
  inum ← mget mk_freeinode;
  mmod (λ s, Mk (mk_im s) (mk_n s) (u32 (mk_freeinode s + 1)) (mk_freeblock s));;
  winode inum (Dinode (s16 (xshort type)) 0 0 (s16 (xshort 1)) (xint 0) (replicate 13 0));;
  mret inum.

(** The loop of [balloc] over the blocks [i .. i + n). *)
Fixpoint mark_used (n : nat) (i : Z) (buf : list Z) : list Z :=
  match n with O => buf | S n => mark_used n (i + 1) (bm_set buf i) end.

Definition mk_balloc (used : Z) : M mkfs unit :=
  if negb (used <? BSIZE * 8) then mpanic "used < BSIZE*8"
  else wsect (sb_bmapstart mk_sb) (mark_used (Z.to_nat used) 0 zeroes).

Definition set_daddr (i : Z) (v : Z) (d : dinode) : dinode :=
  Dinode (di_type d) (di_major d) (di_minor d) (di_nlink d) (di_size d) (<[Z.to_nat i := v]> (di_addrs d)).
Definition daddr (i : Z) (d : dinode) : Z := default 0 (di_addrs d !! Z.to_nat i).
Definition set_dsize (v : Z) (d : dinode) : dinode :=
  Dinode (di_type d) (di_major d) (di_minor d) (di_nlink d) v (di_addrs d).

(** The block of [iappend] that finds or allocates block [fbn] of the file. *)
Definition iappend_block (din : dinode) (fbn : Z) : M mkfs (dinode * Z) :=
  if fbn <? NDIRECT then
    din ← (if xint (daddr fbn din) =? 0 then f ← take_freeblock; mret (set_daddr fbn (xint f) din)
           else mret din);
    mret (din, xint (daddr fbn din))
  else
    din ← (if xint (daddr NDIRECT din) =? 0 then f ← take_freeblock; mret (set_daddr NDIRECT (xint f) din)
           else mret din);
    indirect ← rsect (xint (daddr NDIRECT din));
    let k := Z.to_nat (4 * (fbn - NDIRECT)) in
    indirect ←
      (if get32 indirect k =? 0 then
         f ← take_freeblock;
         let indirect := put32 indirect k (xint f) in
         wsect (xint (daddr NDIRECT din)) indirect;;
         mret indirect
       else mret indirect);
    mret (din, xint (get32 indirect k)).

Fixpoint iappend_loop (fuel : nat) (din : dinode) (off : Z) (p : list Z) : M mkfs (dinode * Z) :=
  match fuel with
  | O => mnofuel
  | S fuel =>
      let n := Z.of_nat (length p) in
      if 0 <? n then
        let fbn := off / BSIZE in
        if negb (fbn <? MAXFILE) then mpanic "fbn < MAXFILE" else
        r ← iappend_block din fbn;
        let n1 := Z.min n (u32 ((fbn + 1) * BSIZE - off)) in
        buf ← rsect r.2;
        wsect r.2 (splice buf (Z.to_nat (off - fbn * BSIZE)) (take (Z.to_nat n1) p));;
        iappend_loop fuel r.1 (u32 (off + n1)) (drop (Z.to_nat n1) p)
      else mret (din, off)
  end.

Definition iappend (inum : Z) (p : list Z) : M mkfs unit :=
  din ← rinode inum;
  r ← iappend_loop (S (length p)) din (xint (di_size din)) p;
  winode inum (set_dsize (xint r.2) r.1).

(** A [struct dirent] *)
Definition dirent (inum : Z) (name : list Z) : list Z := enc16 (xshort inum) ++ str_pad DIRSIZ name.

(** An argument of mkfs: the name of a file of the host and, if it can be
    opened, what the calls of [read] return one after the other. *)
Definition host_file : Type := list Z * option (list (list Z)).

Definition strip_name (name : list Z) : list Z :=
  match name with 95 :: name => name | _ => name end.

Fixpoint copy_chunks (inum : Z) (chunks : list (list Z)) : M mkfs unit :=
  match chunks with [] => mret tt | c :: chunks => iappend inum c;; copy_chunks inum chunks end.

Definition add_file (rootino : Z) (f : host_file) : M mkfs unit :=
  if bool_decide (47 ∈ f.1) then mpanic "index(argv[i], '/') == 0" else
  match f.2 with
  | None => mpanic "open"
  | Some chunks =>
      inum ← mk_ialloc T_FILE;
      iappend rootino (dirent inum (strip_name f.1));;
      copy_chunks inum chunks
  end.

Fixpoint add_files (rootino : Z) (fs : list host_file) : M mkfs unit :=
  match fs with [] => mret tt | f :: fs => add_file rootino f;; add_files rootino fs end.

Fixpoint clear_image (n : nat) (i : Z) : M mkfs unit :=
  match n with O => mret tt | S n => wsect i zeroes;; clear_image n (i + 1) end.

Definition enc_sb (x : superblock) : list Z :=
  concat (map enc32 [sb_size x; sb_nblocks x; sb_ninodes x; sb_nlog x; sb_logstart x; sb_inodestart x; sb_bmapstart x]).

(** The root directory with the entries "." and "..". *)
Definition make_root : M mkfs Z :=
  rootino ← mk_ialloc T_DIR;
  if negb (rootino =? ROOTINO) then mpanic "rootino == ROOTINO" else
  iappend rootino (dirent rootino [46]);;
  iappend rootino (dirent rootino [46; 46]);;
  mret rootino.

Definition mkfs_main (fs : list host_file) : M mkfs unit :=
  mmod (λ s, Mk (mk_im s) (mk_n s) (mk_freeinode s) nmeta);;
  clear_image (Z.to_nat FSSIZE) 0;;
  wsect 1 (splice zeroes 0 (enc_sb mk_sb));;
  rootino ← make_root;
  add_files rootino fs;;
  din ← rinode rootino;
  let off := xint (di_size din) in
  let off := u32 ((off / BSIZE + 1) * BSIZE) in
  winode rootino (set_dsize (xint off) din);;
  used ← mget mk_freeblock;
  mk_balloc used.

(** The empty file of the host and the counters at the start. *)
Definition mk_start : mkfs := Mk (λ _, zeroes) 0 1 0.

Arguments iappend_loop : simpl never.
(** * Sectors *)

Lemma zeroes_len : block_len zeroes.
Proof. apply length_replicate. Qed.

Lemma zeroes_u8 : Forall is_u8 zeroes.
Proof. apply Forall_replicate. unfold is_u8. lia. Qed.

Lemma at8_zeroes a : at8 zeroes a = 0.
Proof.
  unfold at8. destruct (zeroes !! Z.to_nat a) eqn:E; [|done]. by apply lookup_replicate in E as [-> _].
Qed.

Lemma get32_zeroes k : get32 zeroes k = 0.
Proof. unfold get32, load32. by rewrite !at8_zeroes. Qed.

#[global] Opaque zeroes.

Lemma nmeta_eq : nmeta = 59.
Proof. done. Qed.

Lemma at_sector_id sec : 0 ≤ sec < 2 ^ 23 → at_sector sec = sec.
Proof. intros H. unfold at_sector. rewrite u32_small by lia. by rewrite Z.div_mul. Qed.

Definition mk_view (s : mkfs) : blocks := λ _ b, mk_im s b.
Definition set_im (b : Z) (d : list Z) (s : mkfs) : mkfs :=
  Mk (<[b := d]> (mk_im s)) (mk_n s) (mk_freeinode s) (mk_freeblock s).
Definition set_free (f : Z) (s : mkfs) : mkfs := Mk (mk_im s) (mk_n s) (mk_freeinode s) f.

(** The image while it is built: its sectors are there, and those that are not
    allocated yet are zero. *)
Record mk_ok (s : mkfs) : Prop := {
  mo_n : mk_n s = FSSIZE;
  mo_block b : block_len (mk_im s b) ∧ Forall is_u8 (mk_im s b);
  mo_zero b : mk_freeblock s ≤ b → mk_im s b = zeroes;
  mo_free : nmeta ≤ mk_freeblock s ≤ FSSIZE
}.

Lemma rsect_Ok s b : mk_ok s → 0 ≤ b < FSSIZE → rsect b s = Ok (mk_im s b, s).
Proof.
  intros Hs Hb. unfold rsect. erewrite bind_Ok by reflexivity. rewrite at_sector_id, (mo_n _ Hs) by lia.
  by rewrite (proj2 (Z.ltb_lt _ _)) by lia.
Qed.

Lemma wsect_Ok s b d : mk_ok s → 0 ≤ b < FSSIZE → wsect b d s = Ok (tt, set_im b d s).
Proof.
  intros Hs Hb. unfold wsect, mmod. rewrite at_sector_id, (mo_n _ Hs) by lia. unfold set_im. rewrite (mo_n _ Hs).
  by rewrite Z.max_l by lia.
Qed.

Lemma mk_ok_set s b d : mk_ok s → b < mk_freeblock s → block_len d → Forall is_u8 d → mk_ok (set_im b d s).
Proof.
  intros [Hn Hb Hz Hf] Hlt Hl Hu. split; cbn; try done.
  - intros b'. destruct (decide (b' = b)) as [->|Hne]; [by rewrite fn_lookup_insert|by rewrite fn_lookup_insert_ne].
  - intros b' Hb'. rewrite fn_lookup_insert_ne by lia. by apply Hz.
Qed.

Lemma mk_ok_take s : mk_ok s → mk_freeblock s < FSSIZE →
  take_freeblock s = Ok (mk_freeblock s, set_free (mk_freeblock s + 1) s) ∧ mk_ok (set_free (mk_freeblock s + 1) s).
Proof.
  intros [Hn Hb Hz Hf] Hlt. rewrite nmeta_eq in Hf. unfold take_freeblock. rewrite u32_small by lia. split; [done|].
  split; cbn; try done; [|rewrite nmeta_eq; lia]. intros b Hb'. apply Hz. lia.
Qed.

(** * Files of the image *)

(** The inode as [ilock] reads it from the disk. *)
Definition with_dinode (dev i : Z) (d : dinode) : inode :=
  v_dinode d (Inode dev i 1 (SleepLock false false 0) true 0 0 0 0 0 []).
Definition loaded (dev : Z) (V : blocks) (i : Z) : inode :=
  with_dinode dev i (get_dinode (V dev (IBLOCK i mk_sb)) (dinode_off i)).

Abbreviation in_file bn := (0 ≤ bn < MAXFILE).

(** The blocks of a file of contents [c], below [fb]; the last block is zero
    past the contents. *)
Record body (V : blocks) (fb : Z) (x : inode) (c : list Z) : Prop := {
  bo_len : length (i_addrs x) = 13%nat;
  bo_owns b : owns V x b → nmeta ≤ b < fb;
  bo_alloc bn : in_file bn → fblock V x bn ≠ 0 ↔ bn * BSIZE < Z.of_nat (length c);
  bo_ind : ind x ≠ 0 ↔ NDIRECT * BSIZE < Z.of_nat (length c);
  bo_ne bn : in_file bn → fblock V x bn ≠ 0 → fblock V x bn ≠ ind x;
  bo_inj bn bn' : in_file bn → in_file bn' → fblock V x bn ≠ 0 → fblock V x bn = fblock V x bn' → bn = bn';
  bo_bytes p : 0 ≤ p < MAXFILE * BSIZE → fbyte V x p = at8 c p
}.

(** What [iappend_block] gives: block [a] is block [fbn] of the file. *)
Record block_found (x : inode) (s : mkfs) (fbn : Z) (x' : inode) (s' : mkfs) (a : Z) : Prop := {
  bf_ok : mk_ok s';
  bf_inode : mk_freeinode s' = mk_freeinode s;
  bf_len : length (i_addrs x') = 13%nat;
  bf_map bn : in_file bn → fblock (mk_view s') x' bn = if decide (bn = fbn) then a else fblock (mk_view s) x bn;
  bf_old : fblock (mk_view s) x fbn ≠ 0 → a = fblock (mk_view s) x fbn;
  bf_new : fblock (mk_view s) x fbn = 0 → mk_freeblock s ≤ a < mk_freeblock s';
  bf_ne : a ≠ ind x';
  bf_ind : ind x' = ind x ∨ ind x = 0 ∧ mk_freeblock s ≤ ind x' < mk_freeblock s';
  bf_ind12 : ind x' ≠ 0 ↔ ind x ≠ 0 ∨ NDIRECT ≤ fbn;
  bf_frame b : b ≠ ind x' ∨ b < nmeta → mk_im s' b = mk_im s b;
  bf_count : mk_freeblock s' = mk_freeblock s + (if fblock (mk_view s) x fbn =? 0 then 1 else 0)
    + (if (NDIRECT <=? fbn) && (ind x =? 0) then 1 else 0)
}.

Lemma with_ind dev i d : ind (with_dinode dev i d) = daddr NDIRECT d.
Proof. done. Qed.

Lemma with_fblock dev i d s bn : fblock (mk_view s) (with_dinode dev i d) bn =
  if bn <? NDIRECT then daddr bn d
  else if daddr NDIRECT d =? 0 then 0 else get32 (mk_im s (daddr NDIRECT d)) (Z.to_nat (4 * (bn - NDIRECT))).
Proof. done. Qed.

Lemma daddr_set i j v d : 0 ≤ i < 13 → 0 ≤ j → length (di_addrs d) = 13%nat →
  daddr j (set_daddr i v d) = if decide (j = i) then v else daddr j d.
Proof.
  intros Hi Hj Hl. unfold daddr. cbn [di_addrs set_daddr]. case_decide as Hd.
  - subst j. by rewrite list_lookup_insert_eq by lia.
  - by rewrite list_lookup_insert_ne by lia.
Qed.

Lemma owned_small V fb x c b : body V fb x c → fb ≤ FSSIZE → owns V x b → xint b = b.
Proof. intros Hb Hf Ho. apply u32_small. pose proof (bo_owns _ _ _ _ Hb b Ho). rewrite nmeta_eq in *. lia. Qed.

Lemma ind_small V fb x c : body V fb x c → fb ≤ FSSIZE → xint (ind x) = ind x ∧ (ind x = 0 ∨ nmeta ≤ ind x < fb).
Proof.
  intros Hb Hf. destruct (decide (ind x = 0)) as [E|E]; [rewrite E; auto|].
  assert (owns V x (ind x)) as Ho by (split; [done|by left]).
  split; [by eapply owned_small|right; by eapply bo_owns].
Qed.

Lemma fblock_small V fb x c bn : body V fb x c → fb ≤ FSSIZE → in_file bn →
  xint (fblock V x bn) = fblock V x bn ∧ (fblock V x bn = 0 ∨ nmeta ≤ fblock V x bn < fb).
Proof.
  intros Hb Hf Hbn. destruct (decide (fblock V x bn = 0)) as [E|E]; [rewrite E; auto|].
  assert (owns V x (fblock V x bn)) as Ho by (split; [done|right; eauto]).
  split; [by eapply owned_small|right; by eapply bo_owns].
Qed.

(** A block that the file already has. *)
Lemma block_found_same dev i d s c fbn : let x := with_dinode dev i d in
  mk_ok s → body (mk_view s) (mk_freeblock s) x c → in_file fbn → fblock (mk_view s) x fbn ≠ 0 →
  block_found x s fbn x s (fblock (mk_view s) x fbn).
Proof.
  intros x Hs Hb Hbn Ha.
  assert (NDIRECT ≤ fbn → ind x ≠ 0) as Hi.
  { intros Hle Hz. apply Ha. unfold fblock. rewrite (proj2 (Z.ltb_ge _ _)) by lia. by rewrite Hz. }
  split; try done; try (by left).
  - apply Hb.
  - intros bn _. by case_decide; subst.
  - by apply (bo_ne _ _ _ _ Hb).
  - split; [auto|]. intros [H|H]; auto.
  - rewrite (proj2 (Z.eqb_neq _ _) Ha). destruct (Z.leb_spec NDIRECT fbn); cbn [andb]; [|lia].
    rewrite (proj2 (Z.eqb_neq _ _)) by auto. lia.
Qed.

(** A new direct block. *)
Lemma block_found_direct dev i d s c fbn : let x := with_dinode dev i d in let f := mk_freeblock s in
  mk_ok s → f < FSSIZE → body (mk_view s) f x c → 0 ≤ fbn < NDIRECT → fblock (mk_view s) x fbn = 0 →
  block_found x s fbn (with_dinode dev i (set_daddr fbn f d)) (set_free (f + 1) s) f.
Proof.
  intros x f Hs Hlt Hb Hbn Ha. pose proof (bo_len _ _ _ _ Hb) as Hl. cbn in Hl.
  pose proof (mo_free _ Hs) as Hf. rewrite nmeta_eq in Hf. fold f in Hf.
  assert (ind (with_dinode dev i (set_daddr fbn f d)) = ind x) as Hi.
  { rewrite !with_ind, daddr_set by lia. by rewrite decide_False by lia. }
  destruct (ind_small _ _ _ _ Hb ltac:(lia)) as [_ Hir].
  split; rewrite ?Hi; try done.
  - by apply mk_ok_take.
  - cbn. by rewrite length_insert.
  - intros bn Hin. unfold x. rewrite !with_fblock. change (mk_im (set_free _ s)) with (mk_im s).
    rewrite !daddr_set by lia. rewrite (decide_False (P := NDIRECT = fbn)) by lia.
    destruct (Z.ltb_spec bn NDIRECT); [done|]. by rewrite decide_False by lia.
  - intros _. cbn. lia.
  - intros E. rewrite nmeta_eq in Hir. lia.
  - by left.
  - split; [auto|]. intros [|]; [done|lia].
  - rewrite Ha, (proj2 (Z.leb_gt _ _)) by lia. cbn. lia.
Qed.

(** A new block in an indirect block that is there. *)
Lemma block_found_indirect dev i d s c fbn : let x := with_dinode dev i d in let f := mk_freeblock s in
  mk_ok s → f < FSSIZE → body (mk_view s) f x c → NDIRECT ≤ fbn < MAXFILE → ind x ≠ 0 → fblock (mk_view s) x fbn = 0 →
  block_found x s fbn x
    (set_im (ind x) (put32 (mk_im s (ind x)) (Z.to_nat (4 * (fbn - NDIRECT))) f) (set_free (f + 1) s)) f.
Proof.
  intros x f Hs Hlt Hb Hbn Hi Ha. 
  pose proof (mo_free _ Hs) as Hf. rewrite nmeta_eq in Hf. fold f in Hf.
  destruct (ind_small _ _ _ _ Hb ltac:(lia)) as [_ [|Hir]]; [done|]. rewrite nmeta_eq in Hir.
  destruct (mo_block _ Hs (ind x)) as [Hlen Hu8]. unfold block_len in Hlen.
  destruct (mk_ok_take s Hs Hlt) as [_ Hs1].
  split; try done.
  - apply mk_ok_set; [done|cbn; lia| |].
    + unfold block_len. rewrite put32_length; lia.
    + apply splice_u8; [done|apply enc_u8].
  - apply Hb.
  - intros bn Hin. unfold x. rewrite !with_fblock. rewrite <-with_ind with (dev := dev) (i := i). fold x.
    cbn [mk_im set_im set_free]. rewrite fn_lookup_insert.
    destruct (Z.ltb_spec bn NDIRECT); [by rewrite decide_False by lia|].
    rewrite (proj2 (Z.eqb_neq _ _) Hi). case_decide as Hd.
    + subst bn. rewrite get32_put32 by (lia || (unfold is_u32; lia)). done.
    + unfold put32. rewrite get32_splice_ne by (rewrite ?enc32_length; lia). done.
  - intros _. cbn. lia.
  - lia.
  - by left.
  - split; auto.
  - intros b Hor. cbn. rewrite fn_lookup_insert_ne; [done|]. rewrite nmeta_eq in Hor. lia.
  - rewrite Ha, (proj2 (Z.eqb_neq _ _) Hi), andb_false_r. cbn. lia.
Qed.

(** A new indirect block with a first block. *)
Lemma block_found_first dev i d s c fbn : let x := with_dinode dev i d in let f := mk_freeblock s in
  mk_ok s → f + 1 < FSSIZE → body (mk_view s) f x c → NDIRECT ≤ fbn < MAXFILE → ind x = 0 →
  block_found x s fbn (with_dinode dev i (set_daddr NDIRECT f d))
    (set_im f (put32 zeroes (Z.to_nat (4 * (fbn - NDIRECT))) (f + 1)) (set_free (f + 1 + 1) (set_free (f + 1) s))) (f + 1).
Proof.
  intros x f Hs Hlt Hb Hbn Hi. pose proof (bo_len _ _ _ _ Hb) as Hl. cbn in Hl.
  pose proof (mo_free _ Hs) as Hf. rewrite nmeta_eq in Hf. fold f in Hf.
  pose proof zeroes_len as Hlen. unfold block_len in Hlen.
  destruct (mk_ok_take s Hs ltac:(lia)) as [_ Hs1]. fold f in Hs1.
  destruct (mk_ok_take _ Hs1 ltac:(cbn; lia)) as [_ Hs2]. cbn in Hs2.
  assert (ind (with_dinode dev i (set_daddr NDIRECT f d)) = f) as Hi'.
  { rewrite with_ind, daddr_set by lia. done. }
  assert (fblock (mk_view s) x fbn = 0) as Ha.
  { unfold x. rewrite with_fblock, (proj2 (Z.ltb_ge _ _)) by lia. rewrite <-(with_ind dev i). fold x. by rewrite Hi. }
  split; rewrite ?Hi'; try done.
  - apply mk_ok_set; [done|cbn; lia| |].
    + unfold block_len. rewrite put32_length; lia.
    + apply splice_u8; [apply zeroes_u8|apply enc_u8].
  - cbn. by rewrite length_insert.
  - intros bn Hin. unfold x. rewrite !with_fblock. rewrite <-!(with_ind dev i). fold x. rewrite Hi', Hi.
    cbn [mk_im set_im]. rewrite fn_lookup_insert, daddr_set by lia. change (0 =? 0) with true. cbn iota.
    destruct (Z.ltb_spec bn NDIRECT); [by rewrite !decide_False by lia|].
    rewrite (proj2 (Z.eqb_neq _ _)) by lia. case_decide as Hd.
    + subst bn. rewrite get32_put32 by (lia || (unfold is_u32; lia)). done.
    + unfold put32. rewrite get32_splice_ne by (rewrite ?enc32_length; lia). apply get32_zeroes.
  - intros _. cbn. lia.
  - lia.
  - right. split; [done|]. cbn. lia.
  - split; [|lia]. auto with lia.
  - intros b Hor. cbn. rewrite fn_lookup_insert_ne; [done|]. rewrite nmeta_eq in Hor. lia.
  - rewrite Ha, Hi, (proj2 (Z.leb_le _ _)) by lia. cbn. lia.
Qed.

Lemma take_Ok s : mk_ok s → mk_freeblock s < FSSIZE →
  take_freeblock s = Ok (mk_freeblock s, set_free (mk_freeblock s + 1) s).
Proof. intros Hs Hlt. by apply mk_ok_take. Qed.

Lemma free_xint s : mk_ok s → xint (mk_freeblock s) = mk_freeblock s.
Proof. intros Hs. pose proof (mo_free _ Hs) as Hf. rewrite nmeta_eq in Hf. apply u32_small. lia. Qed.

(** The metadata of an inode does not change with its blocks. *)
Definition same_meta (d d' : dinode) : Prop :=
  di_type d' = di_type d ∧ di_major d' = di_major d ∧ di_minor d' = di_minor d ∧ di_nlink d' = di_nlink d ∧
  di_size d' = di_size d.

Lemma iappend_block_spec dev i d s c fbn : let x := with_dinode dev i d in
  mk_ok s → body (mk_view s) (mk_freeblock s) x c → in_file fbn →
  mk_freeblock s + (if fblock (mk_view s) x fbn =? 0 then 1 else 0)
    + (if (NDIRECT <=? fbn) && (ind x =? 0) then 1 else 0) ≤ FSSIZE →
  ∃ d' a s', iappend_block d fbn s = Ok ((d', a), s') ∧ same_meta d d' ∧
    block_found x s fbn (with_dinode dev i d') s' a.
Proof.
  intros x Hs Hb Hin Hroom.
  pose proof (mo_free _ Hs) as Hf. rewrite nmeta_eq in Hf. pose proof (free_xint _ Hs) as Hfx.
  destruct (ind_small _ _ _ _ Hb ltac:(lia)) as [Hix Hir].
  destruct (fblock_small _ _ _ _ _ Hb ltac:(lia) Hin) as [Hbx Hbr].
  pose proof (bo_len _ _ _ _ Hb) as Hl. cbn in Hl. unfold iappend_block.
  assert (fblock (mk_view s) x fbn = 0 → mk_freeblock s < FSSIZE) as Hroom1.
  { intros E. rewrite E in Hroom. cbn in Hroom. destruct ((NDIRECT <=? fbn) && (ind x =? 0)); lia. }
  pose proof (with_ind dev i d) as Ei. pose proof (with_fblock dev i d s fbn) as Ef. fold x in Ei, Ef. rewrite <-Ei in Ef |- *.
  destruct (Z.ltb_spec fbn NDIRECT) as [Hd|Hd].
  - rewrite <-Ef, Hbx. destruct (Z.eqb_spec (fblock (mk_view s) x fbn) 0) as [E|E].
    + rewrite bind_assoc. erewrite bind_Ok by (apply take_Ok; auto). erewrite bind_Ok by reflexivity.
      rewrite daddr_set by lia. rewrite decide_True by done. rewrite !Hfx. do 3 eexists. split; [reflexivity|].
      split; [done|]. apply (block_found_direct dev i d s c); auto; lia.
    + erewrite bind_Ok by reflexivity. rewrite <-Ef, Hbx. do 3 eexists. split; [reflexivity|]. split; [done|].
      by apply (block_found_same dev i d s c).
  - rewrite Hix. destruct (Z.eqb_spec (ind x) 0) as [E|E].
    + assert (fblock (mk_view s) x fbn = 0) as E0 by done.
      rewrite E0, (proj2 (Z.leb_le _ _)) in Hroom by done. cbn in Hroom.
      destruct (mk_ok_take s Hs ltac:(lia)) as [Ht Hs1].
      rewrite bind_assoc. erewrite bind_Ok by exact Ht. erewrite bind_Ok by reflexivity.
      rewrite daddr_set by lia. rewrite decide_True by done. rewrite !Hfx.
      erewrite bind_Ok by (apply rsect_Ok; [done|lia]). cbn [mk_im set_free].
      rewrite (mo_zero _ Hs) by lia. rewrite get32_zeroes. change (0 =? 0) with true. cbn iota.
      destruct (mk_ok_take _ Hs1 ltac:(cbn; lia)) as [Ht2 Hs2]. cbn [mk_freeblock set_free] in Ht2, Hs2.
      rewrite bind_assoc. erewrite bind_Ok by exact Ht2. rewrite bind_assoc.
      erewrite bind_Ok by (apply wsect_Ok; [exact Hs2|lia]). erewrite bind_Ok by reflexivity.
      assert (xint (mk_freeblock s + 1) = mk_freeblock s + 1) as Hx1 by (apply u32_small; lia).
      rewrite Hx1, get32_put32, Hx1 by ((rewrite (zeroes_len); lia) || (unfold is_u32; lia)).
      do 3 eexists. split; [reflexivity|]. split; [done|]. by apply (block_found_first dev i d s c); (done || lia).
    + erewrite bind_Ok by reflexivity. rewrite <-Ei, Hix. destruct Hir as [|Hir]; [done|]. rewrite nmeta_eq in Hir.
      erewrite bind_Ok by (apply rsect_Ok; [done|lia]). rewrite <-Ef.
      destruct (Z.eqb_spec (fblock (mk_view s) x fbn) 0) as [E0|E0].
      * destruct (mk_ok_take s Hs (Hroom1 E0)) as [Ht Hs1].
        rewrite bind_assoc. erewrite bind_Ok by exact Ht. rewrite bind_assoc.
        erewrite bind_Ok by (apply wsect_Ok; [exact Hs1|lia]). erewrite bind_Ok by reflexivity.
        destruct (mo_block _ Hs (ind x)) as [Hlen _]. unfold block_len in Hlen.
        rewrite Hfx, get32_put32, Hfx by (lia || (unfold is_u32; lia)).
        do 3 eexists. split; [reflexivity|]. split; [done|]. apply (block_found_indirect dev i d s c); auto; lia.
      * erewrite bind_Ok by reflexivity. rewrite <-Ef, Hbx. do 3 eexists. split; [reflexivity|]. split; [done|].
        by apply (block_found_same dev i d s c).
Qed.

(** ** Appending to a file *)

Section append.
Context (dev : Z) (s : mkfs) (x : inode) (c : list Z) (x' : inode) (s' : mkfs) (a : Z).
Let L : Z := Z.of_nat (length c).
Let fbn : Z := L / BSIZE.
Hypotheses (Hs : mk_ok s) (Hb : body (mk_view s) (mk_freeblock s) x c) (Hin : in_file fbn).
Hypothesis (Hf : block_found x s fbn x' s' a).

#[local] Lemma last_block : fbn * BSIZE ≤ L < (fbn + 1) * BSIZE.
Proof.
  unfold fbn. pose proof (Z.div_mod L BSIZE ltac:(lia)). pose proof (Z.mod_pos_bound L BSIZE ltac:(lia)). lia.
Qed.

#[local] Lemma found_free : mk_freeblock s ≤ mk_freeblock s'.
Proof. rewrite (bf_count _ _ _ _ _ _ Hf). repeat case_match; lia. Qed.

#[local] Lemma found_range : nmeta ≤ a < mk_freeblock s' ∧ (a = fblock (mk_view s) x fbn ∨ mk_freeblock s ≤ a).
Proof.
  pose proof found_free. pose proof (mo_free _ Hs). destruct (decide (fblock (mk_view s) x fbn = 0)) as [E|E].
  - pose proof (bf_new _ _ _ _ _ _ Hf E). split; [lia|right; lia].
  - rewrite (bf_old _ _ _ _ _ _ Hf E). split; [|by left].
    enough (nmeta ≤ fblock (mk_view s) x fbn < mk_freeblock s) by lia.
    apply (bo_owns _ _ _ _ Hb). split; [done|right; eauto].
Qed.

#[local] Lemma found_last : fblock (mk_view s) x fbn ≠ 0 ↔ L mod BSIZE ≠ 0.
Proof.
  rewrite (bo_alloc _ _ _ _ Hb) by done. fold L. unfold fbn. pose proof (Z.div_mod L BSIZE ltac:(lia)).
  pose proof (Z.mod_pos_bound L BSIZE ltac:(lia)). lia.
Qed.

(** Another block of the file is neither the new block nor the indirect one. *)
#[local] Lemma found_other bn : in_file bn → bn ≠ fbn → fblock (mk_view s) x bn ≠ 0 →
  fblock (mk_view s) x bn ≠ a ∧ fblock (mk_view s) x bn ≠ ind x'.
Proof.
  intros Hbn Hne H0.
  assert (nmeta ≤ fblock (mk_view s) x bn < mk_freeblock s) as Hr
    by (apply (bo_owns _ _ _ _ Hb); split; [done|right; eauto]).
  split.
  - destruct found_range as [_ [->|Hge]]; [|lia]. intros E. by apply Hne, (bo_inj _ _ _ _ Hb).
  - destruct (bf_ind _ _ _ _ _ _ Hf) as [->|[_ Hge]]; [by apply (bo_ne _ _ _ _ Hb)|lia].
Qed.

Context (data : list Z).
Let s2 := set_im a data s'.

#[local] Lemma append_map bn : in_file bn →
  fblock (mk_view s2) x' bn = if decide (bn = fbn) then a else fblock (mk_view s) x bn.
Proof.
  intros Hbn. rewrite <-(bf_map _ _ _ _ _ _ Hf bn Hbn). apply fblock_frame. intros _. cbn.
  rewrite fn_lookup_insert_ne; [done|]. apply (bf_ne _ _ _ _ _ _ Hf).
Qed.

(** The blocks that stay as they are. *)
#[local] Lemma append_frame b : b < nmeta ∨ b < mk_freeblock s ∧ ¬ owns (mk_view s) x b → mk_im s2 b = mk_im s b.
Proof.
  intros Hor. destruct found_range as [Hr Ha]. unfold s2. cbn. rewrite fn_lookup_insert_ne.
  - apply (bf_frame _ _ _ _ _ _ Hf). destruct Hor as [|[Hlt Ho]]; [by right|].
    destruct (decide (b < nmeta)) as [|Hge]; [by right|left]. rewrite nmeta_eq in Hge. intros ->.
    destruct (bf_ind _ _ _ _ _ _ Hf) as [E|[_ Hge']]; [|lia]. apply Ho. split; [lia|]. left. done.
  - intros ->. destruct Hor as [|[Hlt Ho]]; [lia|]. destruct Ha as [->|]; [|lia].
    apply Ho. rewrite nmeta_eq in Hr. split; [lia|]. right. eauto.
Qed.

#[local] Lemma append_owns b : owns (mk_view s2) x' b → owns (mk_view s) x b ∨ mk_freeblock s ≤ b < mk_freeblock s'.
Proof.
  intros [H0 [->|(bn & Hbn & E)]].
  - destruct (bf_ind _ _ _ _ _ _ Hf) as [E|[_ Hge]]; [|by right]. left. split; [done|by left].
  - rewrite append_map in E by done. case_decide as Hd; subst b.
    + destruct found_range as [Hr [Ha|Ha]]; [left; split; [done|right; eauto]|right; lia].
    + left. split; [done|right; eauto].
Qed.

(** The contents with [l] appended, when [data] has [l] at the end of the file. *)
Context (l : list Z).
Hypothesis (Hl : 0 < Z.of_nat (length l) ≤ (fbn + 1) * BSIZE - L).
Hypothesis (Hdata : data = splice (mk_im s' a) (Z.to_nat (L - fbn * BSIZE)) l).

#[local] Lemma append_fits : 0 ≤ L - fbn * BSIZE ∧ (Z.to_nat (L - fbn * BSIZE) + length l ≤ length (mk_im s' a))%nat.
Proof.
  destruct (mo_block _ (bf_ok _ _ _ _ _ _ Hf) a) as [Hlen _]. rewrite Hlen.
  pose proof last_block. lia.
Qed.

#[local] Lemma append_at8 p : 0 ≤ p → ¬ L ≤ p < L + Z.of_nat (length l) → at8 (c ++ l) p = at8 c p.
Proof.
  intros H0 Hp. destruct (decide (p < L)); [apply at8_app_l; unfold L in *; lia|].
  unfold at8. rewrite !lookup_ge_None_2; [done|unfold L in *; lia|rewrite length_app; unfold L in *; lia].
Qed.

(** The block [a] before the write has the contents so far. *)
#[local] Lemma append_before p : p / BSIZE = fbn → at8 (mk_im s' a) (p mod BSIZE) = at8 c p.
Proof.
  intros Hp. assert (0 ≤ p < MAXFILE * BSIZE) as Hpr.
  { pose proof (Z.div_mod p BSIZE ltac:(lia)). pose proof (Z.mod_pos_bound p BSIZE ltac:(lia)). lia. }
  rewrite (bf_frame _ _ _ _ _ _ Hf) by (left; apply (bf_ne _ _ _ _ _ _ Hf)).
  destruct (decide (fblock (mk_view s) x fbn = 0)) as [E|E].
  - rewrite (mo_zero _ Hs), at8_zeroes by (by apply (bf_new _ _ _ _ _ _ Hf)).
    rewrite <-(bo_bytes _ _ _ _ Hb) by done. unfold fbyte. by rewrite Hp, E.
  - rewrite <-(bo_bytes _ _ _ _ Hb) by done. unfold fbyte.
    rewrite Hp, (proj2 (Z.eqb_neq _ _) E). by rewrite (bf_old _ _ _ _ _ _ Hf E).
Qed.

#[local] Lemma append_bytes p : 0 ≤ p < MAXFILE * BSIZE → fbyte (mk_view s2) x' p = at8 (c ++ l) p.
Proof.
  intros Hp. pose proof last_block as HfL. assert (0 ≤ L) as HL by (unfold L; lia).
  pose proof (Z.div_mod p BSIZE ltac:(lia)) as Hpd. pose proof (Z.mod_pos_bound p BSIZE ltac:(lia)) as Hpm.
  assert (in_file (p / BSIZE)) as Hpin by lia.
  unfold fbyte. rewrite append_map by done. destruct append_fits as [H0 Hfit]. case_decide as Hd.
  - destruct found_range as [Hr _]. rewrite nmeta_eq in Hr. rewrite (proj2 (Z.eqb_neq _ _)) by lia.
    unfold mk_view, s2. cbn [mk_im set_im]. rewrite fn_lookup_insert, Hdata, at8_splice by lia.
    rewrite Z2Nat.id by lia. case_decide as Hc.
    + rewrite <-(at8_app_r c l) by lia. f_equal. unfold L in *. lia.
    + rewrite append_before, append_at8 by lia. done.
  - rewrite append_at8 by nia. rewrite <-(bo_bytes _ _ _ _ Hb) by done. unfold fbyte.
    destruct (Z.eqb_spec (fblock (mk_view s) x (p / BSIZE)) 0) as [|Hnz]; [done|].
    destruct (found_other _ Hpin Hd Hnz) as [Hna Hni].
    change (mk_view s2 (i_dev x')) with (mk_im s2). change (mk_view s (i_dev x)) with (mk_im s).
    unfold s2. cbn [mk_im set_im]. rewrite fn_lookup_insert_ne by done.
    by rewrite (bf_frame _ _ _ _ _ _ Hf) by (by left).
Qed.

#[local] Lemma append_body : body (mk_view s2) (mk_freeblock s') x' (c ++ l).
Proof.
  pose proof found_free as Hff. destruct found_range as [Hr Hra]. rewrite nmeta_eq in Hr.
  pose proof last_block as HfL.
  assert (Z.of_nat (length (c ++ l)) = L + Z.of_nat (length l)) as HL' by (rewrite length_app; unfold L; lia).
  split.
  - apply (bf_len _ _ _ _ _ _ Hf).
  - intros b [Ho|Hge]%append_owns; [pose proof (bo_owns _ _ _ _ Hb b Ho); lia|].
    pose proof (mo_free _ Hs). rewrite nmeta_eq in *. lia.
  - intros bn Hbn. rewrite append_map by done. rewrite HL'. case_decide as Hd; [rewrite Hd; split; lia|].
    rewrite (bo_alloc _ _ _ _ Hb) by done. fold L. nia.
  - rewrite HL', (bf_ind12 _ _ _ _ _ _ Hf), (bo_ind _ _ _ _ Hb). fold L. nia.
  - intros bn Hbn. rewrite append_map by done. case_decide as Hd; [intros _; apply (bf_ne _ _ _ _ _ _ Hf)|].
    intros H0. by apply found_other.
  - intros bn bn' Hbn Hbn'. rewrite !append_map by done. intros H0 E.
    destruct (decide (bn = fbn)) as [E1|E1], (decide (bn' = fbn)) as [E2|E2].
    + congruence.
    + destruct (found_other bn' Hbn' E2) as [Hn _]; [by rewrite <-E|]. congruence.
    + destruct (found_other bn Hbn E1 H0) as [Hn _]. congruence.
    + by apply (bo_inj _ _ _ _ Hb).
  - apply append_bytes.
Qed.
End append.

(** The blocks of a file of [n] bytes, its indirect block included. *)
Definition blocks_for (n : Z) : Z := (n + (BSIZE - 1)) / BSIZE + (if NDIRECT * BSIZE <? n then 1 else 0).

Lemma blocks_for_step x s c n : body (mk_view s) (mk_freeblock s) x c → let L := Z.of_nat (length c) in
  in_file (L / BSIZE) → 0 < n ≤ (L / BSIZE + 1) * BSIZE - L →
  blocks_for (L + n) = blocks_for L + (if fblock (mk_view s) x (L / BSIZE) =? 0 then 1 else 0)
    + (if (NDIRECT <=? L / BSIZE) && (ind x =? 0) then 1 else 0).
Proof.
  intros Hb L Hin Hn. pose proof (found_last s x c Hb Hin) as Hlast. fold L in Hlast.
  pose proof (bo_ind _ _ _ _ Hb) as Hi. fold L in Hi.
  pose proof (Z.div_mod L BSIZE ltac:(lia)) as Hdm. pose proof (Z.mod_pos_bound L BSIZE ltac:(lia)) as Hm.
  set (k := L / BSIZE) in *. set (r := L mod BSIZE) in *.
  assert ((L + n + (BSIZE - 1)) / BSIZE = k + 1) as E1.
  { symmetry. apply (Z.div_unique_pos _ _ _ (r + n - 1)); lia. }
  unfold blocks_for. rewrite E1. destruct (Z.eqb_spec (fblock (mk_view s) x k) 0) as [E|E].
  - assert (r = 0) as Hr by lia. assert ((L + (BSIZE - 1)) / BSIZE = k) as E2.
    { symmetry. apply (Z.div_unique_pos _ _ _ (BSIZE - 1)); lia. }
    rewrite E2. destruct (Z.eqb_spec (ind x) 0), (Z.leb_spec NDIRECT k), (Z.ltb_spec (NDIRECT * BSIZE) L),
      (Z.ltb_spec (NDIRECT * BSIZE) (L + n)); cbn [andb]; lia.
  - assert ((L + (BSIZE - 1)) / BSIZE = k + 1) as E2.
    { symmetry. apply (Z.div_unique_pos _ _ _ (r - 1)); lia. }
    rewrite E2. destruct (Z.eqb_spec (ind x) 0), (Z.leb_spec NDIRECT k), (Z.ltb_spec (NDIRECT * BSIZE) L),
      (Z.ltb_spec (NDIRECT * BSIZE) (L + n)); cbn [andb]; lia.
Qed.

Lemma blocks_for_mono n m : n ≤ m → blocks_for n ≤ blocks_for m.
Proof.
  intros H. unfold blocks_for. assert ((n + (BSIZE - 1)) / BSIZE ≤ (m + (BSIZE - 1)) / BSIZE) by (apply Z.div_le_mono; lia).
  destruct (Z.ltb_spec (NDIRECT * BSIZE) n), (Z.ltb_spec (NDIRECT * BSIZE) m); lia.
Qed.

(** What appending [p] to a file does to the image. *)
Record appended (s : mkfs) (x : inode) (c p : list Z) (s' : mkfs) (x' : inode) : Prop := {
  ap_ok : mk_ok s';
  ap_inode : mk_freeinode s' = mk_freeinode s;
  ap_body : body (mk_view s') (mk_freeblock s') x' (c ++ p);
  ap_frame b : b < nmeta ∨ b < mk_freeblock s ∧ ¬ owns (mk_view s) x b → mk_im s' b = mk_im s b;
  ap_owns b : owns (mk_view s') x' b → owns (mk_view s) x b ∨ mk_freeblock s ≤ b;
  ap_count : mk_freeblock s' = mk_freeblock s + blocks_for (Z.of_nat (length c) + Z.of_nat (length p))
    - blocks_for (Z.of_nat (length c))
}.

Lemma appended_refl s x c : mk_ok s → body (mk_view s) (mk_freeblock s) x c → appended s x c [] s x.
Proof. intros Hs Hb. split; rewrite ?app_nil_r; try done; [by left|]. cbn [length]. rewrite Z.add_0_r. lia. Qed.

Lemma appended_trans s x c p s1 x1 q s2 x2 : appended s x c p s1 x1 → appended s1 x1 (c ++ p) q s2 x2 →
  appended s x c (p ++ q) s2 x2.
Proof.
  intros [Ho Hi Hb Hf Hw Hc] [Ho' Hi' Hb' Hf' Hw' Hc']. rewrite length_app in Hc'.
  assert (mk_freeblock s ≤ mk_freeblock s1) as Hle.
  { rewrite Hc. pose proof (blocks_for_mono (Z.of_nat (length c)) (Z.of_nat (length c) + Z.of_nat (length p))). lia. }
  split; [done|by rewrite Hi'|by rewrite app_assoc| | |].
  - intros b Hor. rewrite Hf', Hf; [done|done|]. destruct Hor as [|[Hlt Hn]]; [by left|right].
    split; [lia|]. intros [|]%Hw; [done|lia].
  - intros b [H|H]%Hw'; [by apply Hw|right; lia].
  - rewrite Hc', Hc, length_app, !Nat2Z.inj_add, Z.add_assoc. lia.
Qed.

(** One round of the loop. *)
Lemma iappend_round dev i d s c p : let x := with_dinode dev i d in let L := Z.of_nat (length c) in
  let n1 := Z.min (Z.of_nat (length p)) ((L / BSIZE + 1) * BSIZE - L) in let l := take (Z.to_nat n1) p in
  mk_ok s → body (mk_view s) (mk_freeblock s) x c → p ≠ [] → Forall is_u8 p →
  L + Z.of_nat (length p) ≤ MAXFILE * BSIZE →
  mk_freeblock s + blocks_for (L + Z.of_nat (length p)) - blocks_for L ≤ FSSIZE →
  ∃ d' a s1 s2, iappend_block d (L / BSIZE) s = Ok ((d', a), s1) ∧ same_meta d d' ∧
    rsect a s1 = Ok (mk_im s1 a, s1) ∧
    wsect a (splice (mk_im s1 a) (Z.to_nat (L - L / BSIZE * BSIZE)) l) s1 = Ok (tt, s2) ∧
    appended s x c l s2 (with_dinode dev i d') ∧ 0 < n1 ∧ Z.of_nat (length l) = n1.
Proof.
  intros x L n1 l Hs Hb Hp Hu Hmax Hroom.
  pose proof (Z.div_mod L BSIZE ltac:(lia)) as Hdm. pose proof (Z.mod_pos_bound L BSIZE ltac:(lia)) as Hm.
  assert (0 < Z.of_nat (length p)) as Hp0 by (destruct p; [done|cbn; lia]).
  assert (in_file (L / BSIZE)) as Hin by (split; [apply Z.div_pos; lia|apply Z.div_lt_upper_bound; lia]).
  assert (0 < n1 ≤ (L / BSIZE + 1) * BSIZE - L) as Hn1 by lia.
  assert (Z.of_nat (length l) = n1) as Hll by (unfold l; rewrite length_take; lia).
  pose proof (blocks_for_step x s c n1 Hb Hin Hn1) as Hbf. fold L in Hbf.
  pose proof (blocks_for_mono (L + n1) (L + Z.of_nat (length p)) ltac:(lia)) as Hmono.
  destruct (iappend_block_spec dev i d s c (L / BSIZE)) as (d' & a & s1 & Hrun & Hmeta & Hfound);
    [done|done|done|fold x; lia|].
  pose proof (found_range s x c _ s1 a Hs Hb Hin Hfound) as [Hr Hra]. pose proof (mo_free _ (bf_ok _ _ _ _ _ _ Hfound)) as Hf1.
  assert (0 ≤ a < FSSIZE) as Ha by (rewrite nmeta_eq in *; lia).
  exists d', a, s1. eexists. split; [done|]. split; [done|]. split; [by apply rsect_Ok; [apply Hfound|]|].
  split; [by apply wsect_Ok; [apply Hfound|]|].
  destruct (append_fits s x c _ s1 a Hfound l ltac:(rewrite Hll; exact Hn1)) as [H0 Hfit].
  destruct (mo_block _ (bf_ok _ _ _ _ _ _ Hfound) a) as [Hlen Hu8].
  split; [|lia]. split.
  - apply mk_ok_set; [apply Hfound|lia| |].
    + unfold block_len. by rewrite splice_length.
    + apply splice_u8; [done|]. by apply Forall_take.
  - apply Hfound.
  - change (mk_freeblock (set_im _ _ s1)) with (mk_freeblock s1).
    apply (append_body s x c _ s1 a Hs Hb Hin Hfound _ l); [by rewrite Hll|done].
  - intros b Hor. by apply (append_frame s x c _ s1 a Hs Hb Hin Hfound).
  - intros b Ho%(append_owns s x c _ s1 a Hs Hb Hin Hfound). destruct Ho as [|[]]; auto.
  - cbn [mk_freeblock set_im]. rewrite (bf_count _ _ _ _ _ _ Hfound). rewrite Hll. fold x L. lia.
Qed.

Lemma same_meta_trans d1 d2 d3 : same_meta d1 d2 → same_meta d2 d3 → same_meta d1 d3.
Proof. intros (?&?&?&?&?) (?&?&?&?&?). unfold same_meta. split_and!; congruence. Qed.

Lemma iappend_loop_spec dev i fuel : ∀ d s c p, let x := with_dinode dev i d in let L := Z.of_nat (length c) in
  mk_ok s → body (mk_view s) (mk_freeblock s) x c → Forall is_u8 p → (length p < fuel)%nat →
  L + Z.of_nat (length p) ≤ MAXFILE * BSIZE →
  mk_freeblock s + blocks_for (L + Z.of_nat (length p)) - blocks_for L ≤ FSSIZE →
  ∃ d' s', iappend_loop fuel d L p s = Ok ((d', L + Z.of_nat (length p)), s') ∧ same_meta d d' ∧
    appended s x c p s' (with_dinode dev i d').
Proof.
  induction fuel as [|fuel IH]; intros d s c p x L Hs Hb Hu Hfuel Hmax Hroom; [lia|].
  unfold iappend_loop; fold iappend_loop. destruct p as [|v q] eqn:Ep.
  { cbn. exists d, s. rewrite Z.add_0_r. split; [done|]. split; [done|]. by apply appended_refl. }
  rewrite <-Ep in *. assert (p ≠ []) as Hp by (by rewrite Ep). clear v q Ep.
  assert (0 < Z.of_nat (length p)) as Hp0 by (destruct p; [done|cbn; lia]).
  destruct (iappend_round dev i d s c p Hs Hb Hp Hu Hmax Hroom) as (d1 & a & s1 & s2 & Hblk & Hm1 & Hr & Hw & Hap & Hn1 & Hll).
  fold L in Hblk, Hr, Hw, Hap, Hn1, Hll. set (n1 := Z.min _ _) in *.
  rewrite (proj2 (Z.ltb_lt _ _)) by done.
  pose proof (Z.mod_pos_bound L BSIZE ltac:(lia)). pose proof (Z.div_mod L BSIZE ltac:(lia)).
  rewrite (proj2 (Z.ltb_lt (L / BSIZE) _)) by (apply Z.div_lt_upper_bound; lia). cbn [negb].
  erewrite bind_Ok by exact Hblk. cbn [fst snd]. erewrite bind_Ok by exact Hr.
  rewrite (u32_small ((L / BSIZE + 1) * BSIZE - L)) by lia. fold n1. erewrite bind_Ok by exact Hw.
  assert (n1 ≤ Z.of_nat (length p)) as Hle by lia.
  rewrite u32_small by lia.
  set (l := take (Z.to_nat n1) p) in *. set (r := drop (Z.to_nat n1) p).
  assert (p = l ++ r) as Hsplit by (symmetry; apply take_drop).
  assert (Z.of_nat (length r) = Z.of_nat (length p) - n1) as Hlr by (unfold r; rewrite length_drop; lia).
  pose proof (ap_count _ _ _ _ _ _ Hap) as Hcount. fold L in Hcount. rewrite Hll in Hcount.
  destruct (IH d1 s2 (c ++ l) r) as (d' & s' & Hrun & Hm2 & Hap2).
  - apply Hap.
  - apply Hap.
  - unfold r. by apply Forall_drop.
  - unfold r. rewrite length_drop. lia.
  - rewrite length_app. lia.
  - rewrite length_app, Nat2Z.inj_add, Hll, Hlr. fold L.
    replace (L + n1 + (Z.of_nat (length p) - n1)) with (L + Z.of_nat (length p)) by lia. lia.
  - exists d', s'. split; [|split; [by eapply same_meta_trans|]].
    + rewrite length_app, Nat2Z.inj_add, Hll, Hlr in Hrun. fold L in Hrun. rewrite Hrun. do 2 f_equal. f_equal. lia.
    + rewrite Hsplit. by eapply appended_trans.
Qed.

(** * The image *)

Fixpoint total_blocks (fs : list (Z * list Z)) : Z :=
  match fs with [] => 0 | f :: fs => blocks_for (Z.of_nat (length f.2)) + total_blocks fs end.

(** The image holds the files [fs], a type and the contents of each; the
    file at position [k] has the inode [k + 1]. *)
Record image (dev : Z) (s : mkfs) (fs : list (Z * list Z)) : Prop := {
  im_ok : mk_ok s;
  im_next : mk_freeinode s = Z.of_nat (length fs) + 1;
  im_room : mk_freeinode s ≤ NINODES;
  im_file k ty c : fs !! k = Some (ty, c) → let x := loaded dev (mk_view s) (Z.of_nat k + 1) in
    i_type x = ty ∧ i_nlink x = 1 ∧ i_size x = Z.of_nat (length c) ∧ dinode_ok (dinode_of x) ∧
    body (mk_view s) (mk_freeblock s) x c ∧ Z.of_nat (length c) ≤ MAXFILE * BSIZE;
  im_apart j k : (j < length fs)%nat → (k < length fs)%nat → j ≠ k →
    apart (mk_view s) (loaded dev (mk_view s) (Z.of_nat j + 1)) (loaded dev (mk_view s) (Z.of_nat k + 1));
  im_free i : mk_freeinode s ≤ i < NINODES → i_type (loaded dev (mk_view s) i) = 0;
  im_count : mk_freeblock s = nmeta + total_blocks fs;
  im_sb : mk_im s 1 = splice zeroes 0 (enc_sb mk_sb);
  im_log : mk_im s (sb_logstart mk_sb) = zeroes
}.

Lemma IBLOCK_range i : 0 ≤ i < 208 → IBLOCK i mk_sb = i / 8 + 32 ∧ 32 ≤ IBLOCK i mk_sb < 58.
Proof.
  intros Hi. unfold IBLOCK. change (sb_inodestart mk_sb) with 32. change IPB with 8.
  assert (0 ≤ i / 8 < 26) by (split; [apply Z.div_pos; lia|apply Z.div_lt_upper_bound; lia]).
  rewrite u32_small by lia. lia.
Qed.

Lemma dinode_off_fits i : (dinode_off i + 64 ≤ Z.to_nat BSIZE)%nat.
Proof. unfold dinode_off. pose proof (Z.mod_pos_bound i 8 ltac:(lia)). lia. Qed.

Lemma dinode_off_ne i j : 0 ≤ i < 208 → 0 ≤ j < 208 → i ≠ j → IBLOCK i mk_sb = IBLOCK j mk_sb →
  (dinode_off j + 64 ≤ dinode_off i ∨ dinode_off i + 64 ≤ dinode_off j)%nat.
Proof.
  intros Hi Hj Hne E. destruct (IBLOCK_range i Hi) as [Ei _], (IBLOCK_range j Hj) as [Ej _]. unfold dinode_off.
  change IPB with 8. pose proof (Z.mod_pos_bound i 8 ltac:(lia)). pose proof (Z.mod_pos_bound j 8 ltac:(lia)).
  pose proof (Z.div_mod i 8 ltac:(lia)). pose proof (Z.div_mod j 8 ltac:(lia)). lia.
Qed.

(** Writing an inode. *)
Definition put_inode (i : Z) (d : dinode) (s : mkfs) : mkfs :=
  set_im (IBLOCK i mk_sb) (put_dinode (mk_im s (IBLOCK i mk_sb)) (dinode_off i) d) s.

Lemma winode_spec s i d : mk_ok s → 0 ≤ i < 208 → length (di_addrs d) = 13%nat →
  winode i d s = Ok (tt, put_inode i d s) ∧ mk_ok (put_inode i d s).
Proof.
  intros Hs Hi Hl. destruct (IBLOCK_range i Hi) as [_ Hr]. unfold winode.
  erewrite bind_Ok by (apply rsect_Ok; [done|lia]). split; [by apply wsect_Ok; [|lia]|].
  destruct (mo_block _ Hs (IBLOCK i mk_sb)) as [Hlen Hu8]. pose proof (dinode_off_fits i).
  pose proof (mo_free _ Hs) as Hf. rewrite nmeta_eq in Hf.
  assert (dinode_off i + 64 ≤ length (mk_im s (IBLOCK i mk_sb)))%nat by (by rewrite Hlen).
  apply mk_ok_set; [done|lia| |]; rewrite put_dinode_splice by done.
  - unfold block_len. rewrite splice_length; [done|]. by rewrite enc_dinode_length.
  - apply splice_u8; [done|apply enc_dinode_u8].
Qed.

Lemma loaded_put dev s i j d : mk_ok s → 0 ≤ i < 208 → 0 ≤ j < 208 → dinode_ok d →
  loaded dev (mk_view (put_inode i d s)) j = if decide (j = i) then with_dinode dev i d else loaded dev (mk_view s) j.
Proof.
  intros Hs Hi Hj Hd. destruct (mo_block _ Hs (IBLOCK i mk_sb)) as [Hlen _]. pose proof (dinode_off_fits i).
  assert (dinode_off i + 64 ≤ length (mk_im s (IBLOCK i mk_sb)))%nat by (by rewrite Hlen).
  unfold loaded, mk_view, put_inode. cbn [mk_im set_im]. case_decide as E.
  - subst j. rewrite fn_lookup_insert. by rewrite get_put_dinode.
  - destruct (decide (IBLOCK j mk_sb = IBLOCK i mk_sb)) as [Eb|Eb].
    + rewrite Eb, fn_lookup_insert. rewrite get_put_dinode_ne; [done|apply Hd|done|]. by apply dinode_off_ne.
    + by rewrite fn_lookup_insert_ne.
Qed.

Lemma loaded_frame dev s s' j : 0 ≤ j < 208 → (∀ b, b < nmeta → mk_im s' b = mk_im s b) →
  loaded dev (mk_view s') j = loaded dev (mk_view s) j.
Proof.
  intros Hj Hf. destruct (IBLOCK_range j Hj) as [_ Hr]. unfold loaded, mk_view. rewrite Hf; [done|]. rewrite nmeta_eq. lia.
Qed.

(** A file whose blocks are left alone. *)
Lemma owns_frame V V' x b : (∀ b', owns V x b' → V' (i_dev x) b' = V (i_dev x) b') → owns V' x b ↔ owns V x b.
Proof.
  intros Hf. assert (∀ bn, fblock V' x bn = fblock V x bn) as E.
  { intros bn. apply fblock_frame. intros Hi. apply Hf. split; [done|by left]. }
  unfold owns. by setoid_rewrite E.
Qed.

Lemma body_frame V V' fb fb' x c : body V fb x c → fb ≤ fb' →
  (∀ b, owns V x b → V' (i_dev x) b = V (i_dev x) b) → body V' fb' x c.
Proof.
  intros [Hl Ho Ha Hi Hne Hj Hp] Hle Hf. assert (∀ bn, fblock V' x bn = fblock V x bn) as E.
  { intros bn. apply fblock_frame. intros Hi0. apply Hf. split; [done|by left]. }
  split; [done| | |done| | |].
  - intros b Hb. apply (owns_frame V V') in Hb; [|done]. apply Ho in Hb. lia.
  - intros bn. rewrite E. apply Ha.
  - intros bn. rewrite E. apply Hne.
  - intros bn bn'. rewrite !E. apply Hj.
  - intros p Hpr. rewrite <-Hp by done. unfold fbyte. rewrite E.
    destruct (Z.eqb_spec (fblock V x (p / BSIZE)) 0) as [|Hnz]; [done|]. rewrite Hf; [done|].
    split; [done|]. right. exists (p / BSIZE). split; [|done].
    split; [apply Z.div_pos; lia|apply Z.div_lt_upper_bound; lia].
Qed.

Lemma body_size V fb dev i d n c : body V fb (with_dinode dev i d) c → body V fb (with_dinode dev i (set_dsize n d)) c.
Proof. intros [? ? ? ? ? ? ?]. by split. Qed.

(** The addresses of a file of the image are words. *)
Lemma body_addrs V fb x c : body V fb x c → fb ≤ FSSIZE → Forall is_u32 (i_addrs x).
Proof.
  intros Hb Hf. apply Forall_lookup. intros k v Hk. pose proof (bo_len _ _ _ _ Hb) as Hl.
  assert (k < 13)%nat as Hk13 by (rewrite <-Hl; by eapply lookup_lt_Some).
  destruct (decide (k = 12)%nat) as [->|Hne].
  - destruct (ind_small _ _ _ _ Hb Hf) as [_ Hr]. unfold ind in Hr. rewrite Hk in Hr. cbn in Hr.
    unfold is_u32. rewrite nmeta_eq in Hr. lia.
  - destruct (fblock_small _ _ _ _ (Z.of_nat k) Hb Hf ltac:(lia)) as [_ Hr].
    unfold fblock in Hr. rewrite (proj2 (Z.ltb_lt _ _)), Nat2Z.id, Hk in Hr by lia. cbn in Hr.
    unfold is_u32. rewrite nmeta_eq in Hr. lia.
Qed.

Lemma total_blocks_insert fs k ty c ty' c' : fs !! k = Some (ty, c) →
  total_blocks (<[k := (ty', c')]> fs) = total_blocks fs - blocks_for (Z.of_nat (length c)) + blocks_for (Z.of_nat (length c')).
Proof.
  revert k. induction fs as [|f fs IH]; intros [|k]; try done.
  - intros [= ->]. cbn. lia.
  - intros Hk. cbn. rewrite IH by done. lia.
Qed.

Lemma total_blocks_app fs gs : total_blocks (fs ++ gs) = total_blocks fs + total_blocks gs.
Proof. induction fs as [|f fs IH]; cbn; [done|]. rewrite IH. lia. Qed.

Lemma blocks_for_nonneg n : 0 ≤ n → 0 ≤ blocks_for n.
Proof. intros Hn. pose proof (blocks_for_mono 0 n Hn). by change (blocks_for 0) with 0 in *. Qed.

Lemma image_inum dev s fs j : image dev s fs → (j < length fs)%nat → 0 < Z.of_nat j + 1 < NINODES.
Proof. intros Him Hj. pose proof (im_next _ _ _ Him). pose proof (im_room _ _ _ Him). lia. Qed.

Lemma image_inum_at dev s fs j f : image dev s fs → fs !! j = Some f → 0 < Z.of_nat j + 1 < NINODES.
Proof. intros Him Hj. apply (image_inum dev s fs j Him). by eapply lookup_lt_Some. Qed.

(** The inode of file [k] is rewritten with the blocks of [p] appended, and the
    rest of the image stays. *)
Section append_image.
Context (dev : Z) (s : mkfs) (fs : list (Z * list Z)) (k : nat) (ty : Z) (c p : list Z) (s1 : mkfs) (d1 : dinode).
Let i := Z.of_nat k + 1.
Let x := loaded dev (mk_view s) i.
Let n := Z.of_nat (length c) + Z.of_nat (length p).
Let x2 := with_dinode dev i (set_dsize n d1).
Let s2 := put_inode i (set_dsize n d1) s1.
Hypotheses (Him : image dev s fs) (Hk : fs !! k = Some (ty, c)) (Hn : n ≤ MAXFILE * BSIZE).
Hypothesis (Hm : same_meta (get_dinode (mk_im s (IBLOCK i mk_sb)) (dinode_off i)) d1).
Hypothesis (Hap : appended s x c p s1 (with_dinode dev i d1)).

#[local] Lemma ai_i : 0 < i < NINODES.
Proof. by apply (image_inum_at dev s fs k (ty, c)). Qed.

#[local] Lemma ai_dinode : dinode_ok (set_dsize n d1).
Proof.
  destruct (im_file _ _ _ Him k ty c Hk) as (_ & _ & _ & [D1 D2 D3 D4 D5 D6] & _ & _).
  destruct Hm as (E1 & E2 & E3 & E4 & E5). pose proof (mo_free _ (ap_ok _ _ _ _ _ _ Hap)).
  split; cbn [di_type di_major di_minor di_nlink di_size di_addrs set_dsize]; rewrite ?E1, ?E2, ?E3, ?E4; try done.
  - unfold is_u32, n in *. lia.
  - split; [apply (bo_len _ _ _ _ (ap_body _ _ _ _ _ _ Hap))|].
    apply (body_addrs _ _ _ _ (ap_body _ _ _ _ _ _ Hap)). lia.
Qed.

#[local] Lemma ai_loaded j : 0 ≤ j < NINODES → loaded dev (mk_view s2) j = if decide (j = i) then x2 else loaded dev (mk_view s) j.
Proof.
  intros Hj. pose proof ai_i. unfold s2. rewrite loaded_put; [|apply Hap|lia|lia|apply ai_dinode].
  rewrite (loaded_frame dev s s1); [done|lia|]. intros b Hb. apply (ap_frame _ _ _ _ _ _ Hap). by left.
Qed.

#[local] Lemma ai_blocks b : b < 32 ∨ nmeta ≤ b → mk_im s2 b = mk_im s1 b.
Proof.
  intros Hb. pose proof ai_i. destruct (IBLOCK_range i) as [_ Hr]; [lia|]. rewrite nmeta_eq in Hb.
  cbn. by rewrite fn_lookup_insert_ne by lia.
Qed.

#[local] Lemma ai_free_le : mk_freeblock s ≤ mk_freeblock s1.
Proof.
  rewrite (ap_count _ _ _ _ _ _ Hap). pose proof (blocks_for_mono (Z.of_nat (length c)) n ltac:(unfold n; lia)).
  unfold n in *. lia.
Qed.

Section other.
Context (j : nat) (tj : Z) (cj : list Z).
Hypotheses (Hj : fs !! j = Some (tj, cj)) (Hjk : j ≠ k).
Let xj := loaded dev (mk_view s) (Z.of_nat j + 1).

#[local] Lemma ai_other b : owns (mk_view s) xj b → mk_im s2 b = mk_im s b.
Proof.
  intros Ho. destruct (im_file _ _ _ Him j tj cj Hj) as (_ & _ & _ & _ & Hb & _).
  pose proof (bo_owns _ _ _ _ Hb b Ho) as Hr. rewrite ai_blocks by (right; lia).
  apply (ap_frame _ _ _ _ _ _ Hap). right. split; [lia|].
  apply (im_apart _ _ _ Him j k); [by eapply lookup_lt_Some|by eapply lookup_lt_Some|done|done].
Qed.

#[local] Lemma ai_other_owns b : owns (mk_view s2) xj b ↔ owns (mk_view s) xj b.
Proof. apply owns_frame. intros b' Hb'. by apply ai_other. Qed.

#[local] Lemma ai_other_body : body (mk_view s) (mk_freeblock s) xj cj →
  body (mk_view s2) (mk_freeblock s2) xj cj.
Proof. intros Hb. apply (body_frame _ _ _ _ _ _ Hb ai_free_le). intros b Ho. by apply ai_other. Qed.
End other.

#[local] Lemma ai_this b : owns (mk_view s1) x2 b → mk_im s2 b = mk_im s1 b.
Proof.
  intros Ho. pose proof (bo_owns _ _ _ _ (ap_body _ _ _ _ _ _ Hap) b Ho) as Hr. apply ai_blocks. right. lia.
Qed.

#[local] Lemma ai_this_owns b : owns (mk_view s2) x2 b → owns (mk_view s) x b ∨ mk_freeblock s ≤ b.
Proof.
  intros Ho. apply (owns_frame (mk_view s1)) in Ho; [|intros b' Hb'; by apply ai_this].
  by apply (ap_owns _ _ _ _ _ _ Hap).
Qed.

#[local] Lemma ai_this_body : body (mk_view s2) (mk_freeblock s2) x2 (c ++ p).
Proof.
  eapply body_frame; [by apply body_size, (ap_body _ _ _ _ _ _ Hap)|done|intros b Ho; by apply ai_this].
Qed.

#[local] Lemma ai_apart j b : (j < length fs)%nat → j ≠ k →
  owns (mk_view s2) x2 b → ¬ owns (mk_view s2) (loaded dev (mk_view s) (Z.of_nat j + 1)) b.
Proof.
  intros Hj Hjk Ho2 Hoj. destruct (lookup_lt_is_Some_2 _ _ Hj) as [[tj cj] Hf].
  apply (ai_other_owns j tj cj Hf Hjk) in Hoj. destruct (ai_this_owns b Ho2) as [Ho|Hge].
  - by apply (im_apart _ _ _ Him j k Hj (lookup_lt_Some _ _ _ Hk) Hjk b).
  - destruct (im_file _ _ _ Him j tj cj Hf) as (_ & _ & _ & _ & Hb & _). pose proof (bo_owns _ _ _ _ Hb b Hoj). lia.
Qed.

Lemma image_append : image dev s2 (<[k := (ty, c ++ p)]> fs).
Proof.
  pose proof ai_i as Hi. pose proof Him as [Hok Hnx Hrm Hfile Hap0 Hfr Hct Hsb Hlg].
  assert (mk_freeinode s2 = mk_freeinode s) as Hfi by apply (ap_inode _ _ _ _ _ _ Hap).
  assert (∀ b, b < 32 → mk_im s2 b = mk_im s b) as Hlow.
  { intros b Hb. rewrite ai_blocks by (by left). apply (ap_frame _ _ _ _ _ _ Hap). left. rewrite nmeta_eq. lia. }
  split; rewrite ?Hfi, ?length_insert; try done.
  - apply winode_spec; [apply Hap|lia|apply (bo_len _ _ _ _ (ap_body _ _ _ _ _ _ Hap))].
  - intros j tj cj Hj. pose proof (lookup_lt_Some _ _ _ Hj) as Hlt. rewrite length_insert in Hlt.
    pose proof (image_inum _ _ _ j Him Hlt). rewrite ai_loaded by lia. destruct (decide (j = k)) as [->|Hne].
    + rewrite list_lookup_insert_eq in Hj by done. injection Hj as <- <-. rewrite decide_True by done.
      destruct (Hfile k ty c Hk) as (Hty & Hnl & _). destruct Hm as (E1 & E2 & E3 & E4 & E5).
      split_and!; [by rewrite <-Hty|by rewrite <-Hnl| |apply ai_dinode|apply ai_this_body|].
      * cbn. rewrite length_app. unfold n. lia.
      * rewrite length_app. unfold n in Hn. lia.
    + rewrite list_lookup_insert_ne in Hj by done. rewrite decide_False by (unfold i; lia).
      destruct (Hfile j tj cj Hj) as (? & ? & ? & ? & Hb & ?). split_and!; try done. by apply (ai_other_body j tj).
  - intros j1 j2 H1 H2 Hne. pose proof (image_inum _ _ _ j1 Him H1). pose proof (image_inum _ _ _ j2 Him H2). rewrite !ai_loaded by lia.
    intros b. destruct (decide (j1 = k)) as [E1|E1], (decide (j2 = k)) as [E2|E2]; [lia|..].
    + rewrite decide_True, decide_False by (unfold i; lia). by apply ai_apart.
    + rewrite decide_False, decide_True by (unfold i; lia). intros Ho1 Ho2. exact (ai_apart j1 b H1 E1 Ho2 Ho1).
    + rewrite !decide_False by (unfold i; lia).
      destruct (lookup_lt_is_Some_2 _ _ H1) as [[t1 c1] F1], (lookup_lt_is_Some_2 _ _ H2) as [[t2 c2] F2].
      rewrite (ai_other_owns j1 t1 c1), (ai_other_owns j2 t2 c2) by done. by apply Hap0.
  - intros j Hj. rewrite ai_loaded by (pose proof (lookup_lt_Some _ _ _ Hk); lia).
    rewrite decide_False by (unfold i; pose proof (lookup_lt_Some _ _ _ Hk); lia). by apply Hfr.
  - change (mk_freeblock s2) with (mk_freeblock s1). rewrite (ap_count _ _ _ _ _ _ Hap), Hct.
    rewrite (total_blocks_insert _ _ _ _ _ _ Hk), length_app, Nat2Z.inj_add. lia.
  - by rewrite Hlow.
  - by rewrite Hlow.
Qed.
End append_image.

Lemma iappend_spec dev s fs k ty c p : image dev s fs → fs !! k = Some (ty, c) → Forall is_u8 p →
  Z.of_nat (length (c ++ p)) ≤ MAXFILE * BSIZE → nmeta + total_blocks (<[k := (ty, c ++ p)]> fs) ≤ FSSIZE →
  ∃ s', iappend (Z.of_nat k + 1) p s = Ok (tt, s') ∧ image dev s' (<[k := (ty, c ++ p)]> fs).
Proof.
  intros Him Hk Hu Hmax Hroom. set (i := Z.of_nat k + 1). pose proof (image_inum_at dev s fs k _ Him Hk) as Hi. fold i in Hi.
  rewrite (total_blocks_insert _ _ _ _ _ _ Hk) in Hroom. rewrite length_app, Nat2Z.inj_add in Hmax, Hroom.
  pose proof (im_ok _ _ _ Him) as Hok. pose proof (im_count _ _ _ Him) as Hct.
  destruct (im_file _ _ _ Him k ty c Hk) as (_ & _ & Hsz & _ & Hbody & _). fold i in Hsz, Hbody.
  destruct (IBLOCK_range i) as [_ Hr]; [lia|].
  unfold iappend, rinode. rewrite bind_assoc. erewrite bind_Ok by (apply rsect_Ok; [done|lia]).
  erewrite bind_Ok by reflexivity. set (d := get_dinode _ _).
  assert (xint (di_size d) = Z.of_nat (length c)) as ->.
  { change (di_size d) with (i_size (loaded dev (mk_view s) i)). rewrite Hsz. apply u32_small. lia. }
  destruct (iappend_loop_spec dev i (S (length p)) d s c p) as (d1 & s1 & Hrun & Hm & Hap); try done; try lia.
  erewrite bind_Ok by exact Hrun. cbn [fst snd]. unfold xint. rewrite u32_small by lia.
  pose proof (image_append dev s fs k ty c p s1 d1 Him Hk Hmax Hm Hap) as Him'. fold i in Him'.
  destruct (winode_spec s1 i (set_dsize (Z.of_nat (length c) + Z.of_nat (length p)) d1)) as [-> _];
    [apply Hap|lia|apply (bo_len _ _ _ _ (ap_body _ _ _ _ _ _ Hap))|]. eauto.
Qed.

(** A file with no bytes. *)
Definition empty_dinode (ty : Z) : dinode := Dinode ty 0 0 1 0 (replicate 13 0).

Lemma empty_addr dev i ty k : default 0 (i_addrs (with_dinode dev i (empty_dinode ty)) !! k) = 0.
Proof.
  change (i_addrs _) with (replicate 13 0). destruct (replicate 13 0 !! k) eqn:E; [|done].
  by apply lookup_replicate in E as [-> _].
Qed.

Lemma empty_fblock V dev i ty bn : fblock V (with_dinode dev i (empty_dinode ty)) bn = 0.
Proof. unfold fblock, ind. rewrite !empty_addr. by case_match. Qed.

Lemma empty_owns V dev i ty b : ¬ owns V (with_dinode dev i (empty_dinode ty)) b.
Proof.
  intros [H0 [H|(bn & _ & H)]]; apply H0; [by rewrite H; unfold ind; rewrite empty_addr|].
  by rewrite empty_fblock in H.
Qed.

Lemma empty_body V fb dev i ty : body V fb (with_dinode dev i (empty_dinode ty)) [].
Proof.
  split; [done| | | | | |].
  - by intros b Hb%empty_owns.
  - intros bn Hbn. rewrite empty_fblock. cbn [length]. split; [done|lia].
  - unfold ind. rewrite empty_addr. cbn [length]. split; [done|lia].
  - intros bn _. by rewrite empty_fblock.
  - intros bn bn' _ _. by rewrite empty_fblock.
  - intros p _. unfold fbyte. by rewrite empty_fblock.
Qed.

(** A new file in the image. *)
Lemma image_new dev s fs ty : image dev s fs → Z.of_nat (length fs) + 1 < NINODES → 0 ≤ ty < 2 ^ 15 →
  let i := Z.of_nat (length fs) + 1 in
  image dev (put_inode i (empty_dinode ty) (Mk (mk_im s) (mk_n s) (i + 1) (mk_freeblock s))) (fs ++ [(ty, [])]).
Proof.
  intros Him Hlt Hty i. set (s1 := Mk _ _ _ _). set (s2 := put_inode _ _ _).
  pose proof Him as [Hok Hnx Hrm Hfile Hap0 Hfr Hct Hsb Hlg].
  assert (mk_ok s1) as Hok1 by (destruct Hok; by split).
  assert (dinode_ok (empty_dinode ty)) as Hd by (split; cbn; try done; try lia; split; [done|by apply (Forall_replicate is_u32 13)]).
  assert (∀ j, 0 ≤ j < NINODES → loaded dev (mk_view s2) j =
    if decide (j = i) then with_dinode dev i (empty_dinode ty) else loaded dev (mk_view s) j) as Hload.
  { intros j Hj. unfold s2. rewrite loaded_put by (done || lia). done. }
  destruct (IBLOCK_range i) as [_ Hr]; [lia|].
  assert (∀ b, b < 32 ∨ nmeta ≤ b → mk_im s2 b = mk_im s b) as Hbl.
  { intros b Hb. rewrite nmeta_eq in Hb. cbn. by rewrite fn_lookup_insert_ne by lia. }
  assert (∀ k f, fs !! k = Some f → ∀ b, owns (mk_view s) (loaded dev (mk_view s) (Z.of_nat k + 1)) b → mk_im s2 b = mk_im s b) as Hown.
  { intros k [t c] Hk b Ho. destruct (Hfile k t c Hk) as (_ & _ & _ & _ & Hb & _). apply Hbl. right.
    by apply (bo_owns _ _ _ _ Hb). }
  split; rewrite ?length_app; cbn [length]; try done.
  - apply winode_spec; [done|lia|done].
  - cbn. unfold i. lia.
  - cbn. lia.
  - intros k t c [Hk|[Hge Hk]]%lookup_app_Some.
    + pose proof (image_inum_at _ _ _ _ _ Him Hk). pose proof (lookup_lt_Some _ _ _ Hk).
      rewrite Hload, decide_False by (unfold i; lia). destruct (Hfile k t c Hk) as (? & ? & ? & ? & Hb & ?).
      split_and!; try done. apply (body_frame _ _ _ _ _ _ Hb); [done|]. by apply (Hown k (t, c)).
    + apply list_lookup_singleton_Some in Hk as [Hk [= <- <-]].
      rewrite Hload, decide_True by (unfold i; lia). split_and!; try done. apply empty_body.
  - intros j k Hj Hk Hne b. rewrite !Hload by lia.
    destruct (decide (Z.of_nat j + 1 = i)), (decide (Z.of_nat k + 1 = i)); [lia|by intros ?%empty_owns|by intros _ ?%empty_owns|].
    destruct (lookup_lt_is_Some_2 fs j) as [fj Fj]; [lia|]. destruct (lookup_lt_is_Some_2 fs k) as [fk Fk]; [lia|].
    rewrite (owns_frame (mk_view s)) by (by apply (Hown j fj)).
    rewrite (owns_frame (mk_view s) (mk_view s2)) by (by apply (Hown k fk)). apply Hap0; lia.
  - intros j Hj. cbn in Hj. rewrite Hload, decide_False by (unfold i in *; lia). apply Hfr. lia.
  - change (mk_freeblock s2) with (mk_freeblock s). rewrite Hct, total_blocks_app.
    change (total_blocks [(ty, [])]) with 0. lia.
  - rewrite Hbl; [done|]. lia.
  - rewrite Hbl; [done|]. change (sb_logstart mk_sb) with 2. lia.
Qed.

Lemma ialloc_spec dev s fs ty : image dev s fs → Z.of_nat (length fs) + 1 < NINODES → 0 ≤ ty < 2 ^ 15 →
  ∃ s', mk_ialloc ty s = Ok (Z.of_nat (length fs) + 1, s') ∧ image dev s' (fs ++ [(ty, [])]).
Proof.
  intros Him Hlt Hty. pose proof Him as [Hok Hnx Hrm Hfile Hap0 Hfr Hct Hsb Hlg]. unfold mk_ialloc.
  erewrite bind_Ok by reflexivity. erewrite bind_Ok by reflexivity. rewrite (u32_small (mk_freeinode s + 1)) by lia. rewrite Hnx.
  set (i := Z.of_nat (length fs) + 1). set (s1 := Mk _ _ _ _).
  assert (mk_ok s1) as Hok1 by (destruct Hok; by split).
  assert (Dinode (s16 (xshort ty)) 0 0 (s16 (xshort 1)) (xint 0) (replicate 13 0) = empty_dinode ty) as ->.
  { unfold empty_dinode, xshort. by rewrite s16_u16 by lia. }
  destruct (winode_spec s1 i (empty_dinode ty) Hok1) as [Hw Hok2]; [lia|done|].
  erewrite bind_Ok by exact Hw. eexists. split; [reflexivity|].
  apply (image_new dev s fs ty Him Hlt Hty).
Qed.

(** * The steps of main *)

Lemma str_pad_length n l : length (str_pad n l) = n.
Proof.
  revert l. induction n as [|n IH]; intros l; [done|]. cbn [str_pad]. case_match; [apply length_replicate|].
  cbn. by rewrite IH.
Qed.

Lemma str_pad_u8 n l : Forall is_u8 l → Forall is_u8 (str_pad n l).
Proof.
  revert l. induction n as [|n IH]; intros l Hl; [constructor|]. cbn [str_pad]. case_match.
  - apply (Forall_replicate is_u8 (S n)). unfold is_u8. lia.
  - constructor; [by apply at8_u8|]. apply IH. by apply Forall_drop.
Qed.

Lemma dirent_length i name : length (dirent i name) = 16%nat.
Proof. unfold dirent. by rewrite length_app, str_pad_length. Qed.

Lemma dirent_u8 i name : Forall is_u8 name → Forall is_u8 (dirent i name).
Proof. intros H. apply Forall_app. split; [apply enc_u8|by apply str_pad_u8]. Qed.

Lemma copy_chunks_spec dev k ty chunks : ∀ s fs c, image dev s fs → fs !! k = Some (ty, c) →
  Forall (Forall is_u8) chunks → Z.of_nat (length (c ++ concat chunks)) ≤ MAXFILE * BSIZE →
  nmeta + total_blocks (<[k := (ty, c ++ concat chunks)]> fs) ≤ FSSIZE →
  ∃ s', copy_chunks (Z.of_nat k + 1) chunks s = Ok (tt, s') ∧ image dev s' (<[k := (ty, c ++ concat chunks)]> fs).
Proof.
  induction chunks as [|q chunks IH]; intros s fs c Him Hk Hu Hmax Hroom; cbn [copy_chunks concat] in *.
  { exists s. split; [done|]. rewrite app_nil_r. by rewrite list_insert_id. }
  apply Forall_cons in Hu as [Hq Hu]. rewrite app_assoc in *.
  assert (k < length fs)%nat as Hlt by (by eapply lookup_lt_Some).
  rewrite (total_blocks_insert _ _ _ _ _ _ Hk) in Hroom.
  pose proof (blocks_for_mono (Z.of_nat (length (c ++ q))) (Z.of_nat (length ((c ++ q) ++ concat chunks)))
    ltac:(rewrite (length_app (c ++ q)); lia)) as Hmono.
  destruct (iappend_spec dev s fs k ty c q Him Hk Hq) as (s1 & Hrun & Him1).
  - rewrite (length_app (c ++ q)) in Hmax. lia.
  - rewrite (total_blocks_insert _ _ _ _ _ _ Hk). lia.
  - assert (<[k := (ty, c ++ q)]> fs !! k = Some (ty, c ++ q)) as Hk1 by (by apply list_lookup_insert_eq).
    destruct (IH s1 _ (c ++ q) Him1 Hk1 Hu Hmax) as (s' & Hrun' & Him').
    + rewrite (total_blocks_insert _ _ _ _ _ _ Hk1), (total_blocks_insert _ _ _ _ _ _ Hk). lia.
    + exists s'. erewrite bind_Ok by exact Hrun. split; [done|]. by rewrite list_insert_insert_eq in Him'.
Qed.

(** What mkfs is given: files that can be opened, without slashes in their names
    and not longer than the kernel can store. *)
Definition host_ok (f : host_file) : Prop :=
  47 ∉ f.1 ∧ Forall is_u8 f.1 ∧
  ∃ chunks, f.2 = Some chunks ∧ Forall (Forall is_u8) chunks ∧ Z.of_nat (length (concat chunks)) ≤ MAXFILE * BSIZE.

Definition contents (f : host_file) : list Z := concat (default [] f.2).
Fixpoint entries (i : Z) (fs : list host_file) : list Z :=
  match fs with [] => [] | f :: fs => dirent i (strip_name f.1) ++ entries (i + 1) fs end.

Lemma strip_u8 name : Forall is_u8 name → Forall is_u8 (strip_name name).
Proof. intros H. unfold strip_name. repeat case_match; try done. by apply Forall_cons in H as [_ H]. Qed.

Lemma dir_entries_length i fs : length (entries i fs) = (16 * length fs)%nat.
Proof.
  revert i. induction fs as [|f fs IH]; intros i; [done|]. cbn [entries length]. rewrite length_app, dirent_length, IH. lia.
Qed.

Lemma total_blocks_nonneg fs : 0 ≤ total_blocks fs.
Proof. induction fs as [|f fs IH]; cbn; [done|]. pose proof (blocks_for_nonneg (Z.of_nat (length f.2))). lia. Qed.

Lemma insert_last {A} (x : A) l y z : <[S (length l) := z]> (x :: l ++ [y]) = x :: l ++ [z].
Proof.
  trans (x :: <[length l := z]> (l ++ [y])); [done|]. rewrite insert_app_r_alt by lia. by rewrite Nat.sub_diag.
Qed.

Lemma add_file_spec dev s D G f : let i := Z.of_nat (length G) + 2 in
  image dev s ((T_DIR, D) :: G) → host_ok f → i < NINODES →
  let D' := D ++ dirent i (strip_name f.1) in
  Z.of_nat (length D') ≤ MAXFILE * BSIZE →
  nmeta + total_blocks ((T_DIR, D') :: G ++ [(T_FILE, contents f)]) ≤ FSSIZE →
  ∃ s', add_file ROOTINO f s = Ok (tt, s') ∧ image dev s' ((T_DIR, D') :: G ++ [(T_FILE, contents f)]).
Proof.
  intros i Him (Hsl & Hu & chunks & Hch & Hcu & Hlen) Hi D' Hmax Hroom.
  assert (contents f = concat chunks) as Hc by (unfold contents; by rewrite Hch). rewrite Hc in *. clear Hc.
  unfold add_file. rewrite bool_decide_false, Hch by done.
  destruct (ialloc_spec dev s _ T_FILE Him) as (s1 & Hrun1 & Him1); [cbn [length]; lia|lia|].
  erewrite bind_Ok by exact Hrun1. replace (Z.of_nat (length ((T_DIR, D) :: G)) + 1) with i by (cbn [length]; lia).
  cbn [total_blocks snd] in Hroom. rewrite total_blocks_app in Hroom. cbn [total_blocks snd] in Hroom.
  pose proof (blocks_for_nonneg (Z.of_nat (length (concat chunks))) ltac:(lia)) as Hnn.
  destruct (iappend_spec dev s1 _ 0 T_DIR D (dirent i (strip_name f.1)) Him1 eq_refl) as (s2 & Hrun2 & Him2);
    [by apply dirent_u8, strip_u8|done| |].
  { cbn [insert list_insert app total_blocks snd]. rewrite total_blocks_app. change (total_blocks [(T_FILE, [])]) with 0. fold D'. lia. }
  erewrite bind_Ok by exact Hrun2. cbn [insert list_insert app] in Him2. fold D' in Him2.
  assert (((T_DIR, D') :: G ++ [(T_FILE, [])]) !! S (length G) = Some (T_FILE, [])) as Hk.
  { change ((G ++ [(T_FILE, [])]) !! length G = Some (T_FILE, [])). by rewrite lookup_app_r, Nat.sub_diag by lia. }
  assert (<[S (length G) := (T_FILE, concat chunks)]> ((T_DIR, D') :: G ++ [(T_FILE, [])]) =
    (T_DIR, D') :: G ++ [(T_FILE, concat chunks)]) as Hins.
  { apply insert_last. }
  destruct (copy_chunks_spec dev _ T_FILE chunks s2 _ [] Him2 Hk Hcu Hlen) as (s3 & Hrun3 & Him3).
  { rewrite app_nil_l, Hins. cbn [total_blocks snd]. rewrite total_blocks_app. cbn [total_blocks snd]. lia. }
  rewrite app_nil_l, Hins in Him3. replace (Z.of_nat (S (length G)) + 1) with i in Hrun3 by lia. eauto.
Qed.

Lemma add_files_spec dev fs : ∀ s D G, let i := Z.of_nat (length G) + 2 in
  image dev s ((T_DIR, D) :: G) → Forall host_ok fs → i + Z.of_nat (length fs) ≤ NINODES →
  let D' := D ++ entries i fs in let G' := G ++ ((λ f, (T_FILE, contents f)) <$> fs) in
  Z.of_nat (length D') ≤ MAXFILE * BSIZE → nmeta + total_blocks ((T_DIR, D') :: G') ≤ FSSIZE →
  ∃ s', add_files ROOTINO fs s = Ok (tt, s') ∧ image dev s' ((T_DIR, D') :: G').
Proof.
  induction fs as [|f fs IH]; intros s D G i Him Hok Hi D' G' Hmax Hroom; cbn [add_files entries fmap list_fmap] in *.
  { exists s. unfold D', G'. by rewrite !app_nil_r. }
  apply Forall_cons in Hok as [Hf Hok]. cbn [length] in Hi.
  set (D1 := D ++ dirent i (strip_name f.1)). set (G1 := G ++ [(T_FILE, contents f)]).
  assert (D' = D1 ++ entries (i + 1) fs) as HD by (unfold D', D1; by rewrite app_assoc).
  assert (G' = G1 ++ ((λ f, (T_FILE, contents f)) <$> fs)) as HG by (unfold G', G1; by rewrite <-app_assoc).
  assert (Z.of_nat (length G1) + 2 = i + 1) as Hi1 by (unfold G1, i; rewrite length_app; cbn; lia).
  clearbody D' G'. subst D' G'. rewrite length_app in Hmax. cbn [total_blocks snd] in Hroom.
  rewrite length_app, total_blocks_app in Hroom.
  pose proof (total_blocks_nonneg ((λ f, (T_FILE, contents f)) <$> fs)) as Hnn.
  pose proof (blocks_for_mono (Z.of_nat (length D1)) (Z.of_nat (length D1 + length (entries (i + 1) fs))) ltac:(lia)) as Hmono.
  pose proof (add_file_spec dev s D G f Him Hf) as Hadd. cbv zeta in Hadd. fold i in Hadd. fold D1 G1 in Hadd.
  destruct Hadd as (s1 & Hrun1 & Him1); [lia|lia|cbn [total_blocks snd]; lia|].
  erewrite bind_Ok by exact Hrun1. rewrite <-Hi1 in *.
  apply (IH s1 D1 G1 Him1 Hok); [lia|rewrite length_app; lia|].
  cbn [total_blocks snd]. rewrite length_app, total_blocks_app. lia.
Qed.

Lemma clear_image_spec n : ∀ i s, (∀ b, mk_im s b = zeroes) → 0 ≤ i → mk_n s = i → i + Z.of_nat n ≤ 2 ^ 23 →
  ∃ s', clear_image n i s = Ok (tt, s') ∧ (∀ b, mk_im s' b = zeroes) ∧ mk_n s' = i + Z.of_nat n ∧
    mk_freeinode s' = mk_freeinode s ∧ mk_freeblock s' = mk_freeblock s.
Proof.
  induction n as [|n IH]; intros i s Hz Hi Hn Hle; cbn [clear_image].
  { exists s. rewrite Z.add_0_r. done. }
  erewrite bind_Ok by reflexivity. rewrite at_sector_id by lia.
  edestruct (IH (i + 1)) as (s' & Hrun & Hz' & Hn' & Hf1 & Hf2); [| | | |exists s'; split; [exact Hrun|]].
  - intros b. cbn. destruct (decide (b = i)) as [->|]; [by rewrite fn_lookup_insert|by rewrite fn_lookup_insert_ne].
  - lia.
  - cbn. lia.
  - lia.
  - split_and!; try done. lia.
Qed.

(** The empty file system. *)
Lemma image_empty dev s : (∀ b, mk_im s b = zeroes) → mk_n s = FSSIZE → mk_freeinode s = 1 → mk_freeblock s = nmeta →
  wsect 1 (splice zeroes 0 (enc_sb mk_sb)) s = Ok (tt, set_im 1 (splice zeroes 0 (enc_sb mk_sb)) s) ∧
  image dev (set_im 1 (splice zeroes 0 (enc_sb mk_sb)) s) [].
Proof.
  intros Hz Hn Hi Hf. pose proof nmeta_eq as Hnm.
  assert (mk_ok s) as Hok.
  { split; [done| |done|lia]. intros b. rewrite Hz. split; [apply zeroes_len|apply zeroes_u8]. }
  split; [by apply wsect_Ok|].
  assert (length (enc_sb mk_sb) = 28%nat) as Hl by done.
  assert (mk_ok (set_im 1 (splice zeroes 0 (enc_sb mk_sb)) s)) as Hok1.
  { apply mk_ok_set; [done|lia| |].
    - unfold block_len. rewrite splice_length; [apply zeroes_len|]. rewrite zeroes_len, Hl. lia.
    - apply splice_u8; [apply zeroes_u8|apply enc32s_u8]. }
  split; cbn [length]; try done.
  - cbn. lia.
  - intros j k Hj. lia.
  - intros i Hir. cbn in Hir. destruct (IBLOCK_range i) as [_ Hr]; [lia|]. unfold loaded, mk_view. cbn [mk_im set_im].
    rewrite fn_lookup_insert_ne by lia. rewrite Hz. cbn. unfold get16. by rewrite !at8_zeroes.
  - cbn [mk_im set_im]. rewrite fn_lookup_insert_ne by done. apply Hz.
Qed.

(** The bitmap. *)
Lemma mark_used_spec n : ∀ i d, block_len d → Forall is_u8 d → 0 ≤ i → i + Z.of_nat n ≤ BPB →
  block_len (mark_used n i d) ∧ Forall is_u8 (mark_used n i d) ∧
  ∀ b, 0 ≤ b < BPB → bm_test (mark_used n i d) b = bool_decide (i ≤ b < i + Z.of_nat n) || bm_test d b.
Proof.
  induction n as [|n IH]; intros i d Hd Hu Hi Hle; cbn [mark_used].
  { split_and!; try done. intros b Hb. by rewrite bool_decide_false by lia. }
  destruct (IH (i + 1) (bm_set d i)) as (Hl & Hu' & Hb').
  - apply bm_len; [done|lia].
  - by apply bm_set_u8.
  - lia.
  - lia.
  - split_and!; try done. intros b Hb. rewrite Hb', bm_test_set by (done || lia).
    repeat case_bool_decide; case_decide; try done; lia.
Qed.

(** * The kernel's view of the image *)

Lemma BBLOCK_mk b : 0 ≤ b < FSSIZE → BBLOCK b mk_sb = 58 ∧ b mod BPB = b.
Proof.
  intros Hb. split; [|apply Z.mod_small; lia]. unfold BBLOCK. rewrite Z.div_small by lia. done.
Qed.

Section kernel_view.
Context `{BlockDriver} (dev : Z) (V : blocks) (fb : Z).
Hypotheses (Hdev : dev ≠ 0) (Hdrv : ∀ b, 0 ≤ b < FSSIZE → drv_ok dev b = true).
Hypothesis (Hblk : ∀ b, block_len (V dev b) ∧ Forall is_u8 (V dev b)).
Hypothesis (Hused : ∀ b, 0 ≤ b < FSSIZE → used V mk_sb dev b = (b <? fb)).
Hypothesis (Hfb : nmeta ≤ fb ≤ FSSIZE).

#[local] Lemma view_fsg : fsg V mk_sb dev.
Proof.
  rewrite nmeta_eq in Hfb.
  assert (∀ b, 0 ≤ b < 59 → used V mk_sb dev b = true) as Hlow.
  { intros b Hb. rewrite Hused by lia. apply Z.ltb_lt. lia. }
  split.
  - by change (sb_size mk_sb) with FSSIZE.
  - split; [done|done|]. intros b Hb. change (sb_size mk_sb) with FSSIZE in *. destruct (BBLOCK_mk b Hb) as [E _].
    rewrite E. split_and!; [|lia|lia|apply Hblk|apply Hlow; lia]. by rewrite Z.div_small by lia.
  - intros b _. apply Hblk.
  - by apply Hlow.
  - intros i Hi. change (sb_ninodes mk_sb) with NINODES in Hi. change (sb_size mk_sb) with FSSIZE.
    destruct (IBLOCK_range i) as [_ Hr]; [lia|]. split; [lia|]. split; [apply Hlow; lia|].
    intros j Hj. destruct (BBLOCK_mk j Hj) as [-> _]. lia.
Qed.

#[local] Lemma view_dblock b : nmeta ≤ b < fb → dblock V mk_sb dev b.
Proof.
  intros Hb. rewrite nmeta_eq in *. split; change (sb_size mk_sb) with FSSIZE; change (sb_ninodes mk_sb) with NINODES.
  - lia.
  - rewrite Hused by lia. apply Z.ltb_lt. lia.
  - intros j Hj. destruct (BBLOCK_mk j Hj) as [-> _]. lia.
  - intros i Hi. destruct (IBLOCK_range i) as [_ Hr]; lia.
Qed.

(** The size may be rounded up inside the last block. *)
#[local] Lemma view_file_ok x c : body V fb x c → i_dev x = dev → 0 ≤ i_size x ≤ MAXFILE * BSIZE →
  (∀ bn, 0 ≤ bn → bn * BSIZE < i_size x → bn * BSIZE < Z.of_nat (length c)) → file_ok V mk_sb dev x.
Proof.
  intros Hb Hx Hs Hr. split; try done.
  - apply Hb.
  - intros Hi. apply view_dblock, (bo_owns _ _ _ _ Hb). split; [done|by left].
  - intros bn Hbn H0. split; [|by apply (bo_ne _ _ _ _ Hb)].
    apply view_dblock, (bo_owns _ _ _ _ Hb). split; [done|]. right. eauto.
  - apply Hb.
  - intros bn Hbn Hlt. apply (bo_alloc _ _ _ _ Hb); [lia|]. by apply Hr.
Qed.
End kernel_view.

(** The bytes of a file up to a size past its contents. *)
Lemma body_bytes V fb x c n : body V fb x c → (length c ≤ n)%nat → Z.of_nat n ≤ MAXFILE * BSIZE →
  file_bytes V x 0 (Z.of_nat n) = c ++ replicate (n - length c) 0.
Proof.
  intros Hb Hle Hm. apply list_eq. intros j. unfold file_bytes. rewrite Nat2Z.id.
  destruct (decide (j < n)%nat) as [Hj|Hj].
  - rewrite list_lookup_fmap, lookup_seq_lt by done. cbn [fmap option_fmap option_map].
    rewrite Nat.add_0_l, Z.add_0_l, (bo_bytes _ _ _ _ Hb) by lia. unfold at8. rewrite Nat2Z.id.
    destruct (decide (j < length c)%nat) as [Hc|Hc].
    + rewrite lookup_app_l by done. by destruct (lookup_lt_is_Some_2 c j Hc) as [v ->].
    + rewrite lookup_app_r, lookup_replicate_2 by lia. by rewrite lookup_ge_None_2 by lia.
  - rewrite !lookup_ge_None_2; [done|rewrite length_app, length_replicate; lia|rewrite length_fmap, length_seq; lia].
Qed.

(** ** The last steps of main: the size of the root and the bitmap *)

Definition finished (s : mkfs) (off : Z) : mkfs :=
  let d := get_dinode (mk_im s (IBLOCK ROOTINO mk_sb)) (dinode_off ROOTINO) in
  set_im 58 (mark_used (Z.to_nat (mk_freeblock s)) 0 zeroes) (put_inode ROOTINO (set_dsize off d) s).

Section finish.
Context (dev : Z) (s : mkfs) (D : list Z) (G : list (Z * list Z)).
Hypothesis (Him : image dev s ((T_DIR, D) :: G)).
Let off := (Z.of_nat (length D) / BSIZE + 1) * BSIZE.
Hypothesis (Hoff : off ≤ MAXFILE * BSIZE).
Let s' := finished s off.
Let root := with_dinode dev ROOTINO (set_dsize off (get_dinode (mk_im s (IBLOCK ROOTINO mk_sb)) (dinode_off ROOTINO))).

#[local] Lemma fin_off : Z.of_nat (length D) < off ∧ 0 < off.
Proof.
  unfold off. pose proof (Z.div_mod (Z.of_nat (length D)) BSIZE ltac:(lia)).
  pose proof (Z.mod_pos_bound (Z.of_nat (length D)) BSIZE ltac:(lia)). lia.
Qed.

#[local] Lemma fin_root : dinode_ok (set_dsize off (get_dinode (mk_im s (IBLOCK ROOTINO mk_sb)) (dinode_off ROOTINO))).
Proof.
  destruct (im_file _ _ _ Him 0 T_DIR D eq_refl) as (_ & _ & _ & [D1 D2 D3 D4 D5 D6] & _ & _).
  pose proof fin_off. split; try done. cbn. unfold is_u32. lia.
Qed.

#[local] Lemma fin_blocks b : b < 32 ∨ nmeta ≤ b → mk_im s' b = mk_im s b.
Proof.
  intros Hb. rewrite nmeta_eq in Hb. destruct (IBLOCK_range ROOTINO) as [_ Hr]; [lia|].
  unfold s', finished. cbn [mk_im set_im put_inode]. by rewrite !fn_lookup_insert_ne by lia.
Qed.

#[local] Lemma fin_loaded j : 0 ≤ j < NINODES →
  loaded dev (mk_view s') j = if decide (j = ROOTINO) then root else loaded dev (mk_view s) j.
Proof.
  intros Hj. destruct (IBLOCK_range j) as [_ Hr]; [lia|].
  etrans; [|apply (loaded_put dev s ROOTINO j); [apply Him|lia|lia|apply fin_root]].
  unfold loaded, mk_view, s', finished. cbn [mk_im set_im]. by rewrite fn_lookup_insert_ne by lia.
Qed.

#[local] Lemma fin_owns k f b : ((T_DIR, D) :: G) !! k = Some f →
  owns (mk_view s) (loaded dev (mk_view s) (Z.of_nat k + 1)) b → mk_im s' b = mk_im s b.
Proof.
  intros Hk Ho. destruct f as [t c]. destruct (im_file _ _ _ Him k t c Hk) as (_ & _ & _ & _ & Hb & _).
  apply fin_blocks. right. by apply (bo_owns _ _ _ _ Hb).
Qed.

#[local] Lemma fin_body k t c : ((T_DIR, D) :: G) !! k = Some (t, c) →
  body (mk_view s') (mk_freeblock s) (loaded dev (mk_view s) (Z.of_nat k + 1)) c.
Proof.
  intros Hk. destruct (im_file _ _ _ Him k t c Hk) as (_ & _ & _ & _ & Hb & _).
  apply (body_frame _ _ _ _ _ _ Hb); [done|]. intros b. by apply (fin_owns k (t, c)).
Qed.

#[local] Lemma fin_root_body : body (mk_view s') (mk_freeblock s) root D.
Proof. pose proof (fin_body 0 T_DIR D eq_refl) as Hb. by apply body_size. Qed.

#[local] Lemma fin_map : block_len (mk_im s' 58) ∧ Forall is_u8 (mk_im s' 58) ∧
  ∀ b, 0 ≤ b < FSSIZE → used (mk_view s') mk_sb dev b = (b <? mk_freeblock s).
Proof.
  pose proof (mo_free _ (im_ok _ _ _ Him)) as Hf. rewrite nmeta_eq in Hf.
  destruct (mark_used_spec (Z.to_nat (mk_freeblock s)) 0 zeroes) as (Hl & Hu & Hb); [apply zeroes_len|apply zeroes_u8|lia|lia|].
  assert (mk_im s' 58 = mark_used (Z.to_nat (mk_freeblock s)) 0 zeroes) as E by (cbn; by rewrite fn_lookup_insert).
  rewrite E. split_and!; [done|done|]. intros b Hbr. unfold used, mk_view. destruct (BBLOCK_mk b Hbr) as [-> ->].
  rewrite E, Hb by lia. rewrite bm_test_bit, at8_zeroes, Z.bits_0, orb_false_r.
  case_bool_decide; destruct (Z.ltb_spec b (mk_freeblock s)); done || lia.
Qed.

#[local] Lemma fin_sectors b : block_len (mk_im s' b) ∧ Forall is_u8 (mk_im s' b).
Proof.
  destruct (decide (b = 58)) as [->|Hne]; [destruct fin_map as (? & ? & _); done|].
  unfold s', finished. cbn [mk_im set_im]. rewrite fn_lookup_insert_ne by done.
  apply winode_spec; [apply Him|lia|apply fin_root].
Qed.
End finish.

(** ** The theorem *)

Definition root_dir (fs : list host_file) : list Z :=
  (dirent ROOTINO [46] ++ dirent ROOTINO [46; 46]) ++ entries 2 fs.
Definition mk_files (fs : list host_file) : list (Z * list Z) :=
  (T_DIR, root_dir fs) :: ((λ f, (T_FILE, contents f)) <$> fs).

Lemma root_dir_length fs : Z.of_nat (length (root_dir fs)) = 16 * (2 + Z.of_nat (length fs)).
Proof. unfold root_dir. rewrite !length_app, !dirent_length, dir_entries_length. lia. Qed.

(** The root directory with its first two entries. *)
Lemma main_root dev s : image dev s [] → nmeta + 1 ≤ FSSIZE →
  ∃ s', make_root s = Ok (ROOTINO, s') ∧
    image dev s' [(T_DIR, dirent ROOTINO [46] ++ dirent ROOTINO [46; 46])].
Proof.
  intros Him Hroom. rewrite nmeta_eq in Hroom. unfold make_root.
  assert (∀ name, Forall is_u8 name → Forall is_u8 (dirent ROOTINO name)) as Hu by (intros; by apply dirent_u8).
  destruct (ialloc_spec dev s [] T_DIR Him) as (s1 & Hrun1 & Him1); [cbn; lia|lia|].
  erewrite bind_Ok by exact Hrun1. change (Z.of_nat (length []) + 1) with ROOTINO.
  change (negb (ROOTINO =? ROOTINO)) with false. cbn iota. cbn [app] in Him1.
  destruct (iappend_spec dev s1 _ 0 T_DIR [] (dirent ROOTINO [46]) Him1 eq_refl) as (s2 & Hrun2 & Him2).
  { apply Hu. repeat constructor; unfold is_u8; lia. }
  { rewrite length_app, dirent_length. cbn. lia. }
  { by vm_compute. }
  erewrite bind_Ok by exact Hrun2. cbn [insert list_insert] in Him2.
  destruct (iappend_spec dev s2 _ 0 T_DIR ([] ++ dirent ROOTINO [46]) (dirent ROOTINO [46; 46]) Him2 eq_refl) as (s3 & Hrun3 & Him3).
  { apply Hu. repeat constructor; unfold is_u8; lia. }
  { rewrite !length_app, !dirent_length. cbn. lia. }
  { by vm_compute. }
  erewrite bind_Ok by exact Hrun3. exists s3. by split.
Qed.

Lemma main_run dev fs : Forall host_ok fs → 2 + Z.of_nat (length fs) ≤ NINODES →
  nmeta + total_blocks (mk_files fs) ≤ FSSIZE →
  let off := (Z.of_nat (length (root_dir fs)) / BSIZE + 1) * BSIZE in
  ∃ s, mkfs_main fs mk_start = Ok (tt, finished s off) ∧ image dev s (mk_files fs) ∧ off ≤ MAXFILE * BSIZE.
Proof.
  intros Hok Hlen Hroom off. unfold mkfs_main.
  assert (off ≤ MAXFILE * BSIZE) as Hoff.
  { unfold off. rewrite root_dir_length.
    assert (16 * (2 + Z.of_nat (length fs)) / BSIZE ≤ 6) by (apply Z.lt_succ_r, Z.div_lt_upper_bound; lia). lia. }
  erewrite bind_Ok by reflexivity.
  edestruct (clear_image_spec (Z.to_nat FSSIZE) 0) as (s0 & Hrun0 & Hz & Hn & Hi & Hf);
    [| | | |erewrite bind_Ok by exact Hrun0]; [done|done|done|lia|].
  destruct (image_empty dev s0 Hz) as [Hw Him0]; [rewrite Hn; lia|done|done|].
  erewrite bind_Ok by exact Hw.
  destruct (main_root dev _ Him0) as (s1 & Hrun1 & Him1); [by vm_compute|]. erewrite bind_Ok by exact Hrun1.
  destruct (add_files_spec dev fs s1 _ [] Him1 Hok) as (s2 & Hrun2 & Him2); [cbn [length]; lia| |exact Hroom|].
  { change (Z.of_nat (length (root_dir fs)) ≤ MAXFILE * BSIZE). rewrite root_dir_length. lia. }
  erewrite bind_Ok by exact Hrun2. change (_ :: _) with (mk_files fs) in Him2.
  destruct (IBLOCK_range ROOTINO) as [_ Hr]; [lia|]. pose proof (im_ok _ _ _ Him2) as Hok2.
  unfold rinode. rewrite bind_assoc. erewrite bind_Ok by (apply rsect_Ok; [done|lia]). erewrite bind_Ok by reflexivity.
  destruct (im_file _ _ _ Him2 0 T_DIR (root_dir fs) eq_refl) as (_ & _ & Hsz & [_ _ _ _ _ [Hl _]] & _ & Hmax).
  set (d := get_dinode _ _). assert (xint (di_size d) = Z.of_nat (length (root_dir fs))) as ->.
  { change (di_size d) with (i_size (loaded dev (mk_view s2) (Z.of_nat 0 + 1))). rewrite Hsz. apply u32_small. lia. }
  assert (0 ≤ off) as Hoff0 by (unfold off; pose proof (Z.div_pos (Z.of_nat (length (root_dir fs))) BSIZE ltac:(lia) ltac:(lia)); lia).
  fold off. unfold xint. rewrite !(u32_small off) by lia.
  destruct (winode_spec s2 ROOTINO (set_dsize off d) Hok2) as [Hw2 Hok3]; [lia|done|].
  erewrite bind_Ok by exact Hw2. erewrite bind_Ok by reflexivity.
  exists s2. split; [|done]. pose proof (mo_free _ Hok2) as Hf2. unfold mk_balloc.
  change (mk_freeblock (put_inode _ _ s2)) with (mk_freeblock s2). rewrite (proj2 (Z.ltb_lt _ _)) by lia. cbn [negb].
  by rewrite wsect_Ok by done.
Qed.

(** The superblock is what the kernel decodes. *)
Lemma decode_enc_sb : decode_sb (splice zeroes 0 (enc_sb mk_sb)) = mk_sb.
Proof. by vm_compute. Qed.

(** A file system with the files [fs]: the superblock, an empty log, the
    invariants of blocks, bitmap and inodes that the kernel relies on, the files
    with their bytes, the root directory, whose size is rounded up, and no block in
    two files. *)
Record mk_fs `{BlockDriver} (dev : Z) (fs : list host_file) (V : blocks) : Prop := {
  mf_sb : decode_sb (V dev 1) = mk_sb;
  mf_log : head_n (V dev (sb_logstart mk_sb)) = 0;
  mf_fsg : fsg V mk_sb dev;
  mf_file k f : fs !! k = Some f → let x := loaded dev V (Z.of_nat k + 2) in
    i_type x = T_FILE ∧ i_nlink x = 1 ∧ file_ok V mk_sb dev x ∧ file_bytes V x 0 (i_size x) = contents f;
  mf_root : let root := loaded dev V ROOTINO in let n := Z.of_nat (length (root_dir fs)) in
    i_type root = T_DIR ∧ i_size root = (n / BSIZE + 1) * BSIZE ∧
    (n mod BSIZE ≠ 0 → file_ok V mk_sb dev root) ∧ (n mod BSIZE = 0 → fblock V root (n / BSIZE) = 0) ∧
    file_bytes V root 0 (i_size root) = root_dir fs ++ replicate (Z.to_nat (i_size root - n)) 0;
  mf_apart i j : 1 ≤ i ≤ Z.of_nat (length fs) + 1 → 1 ≤ j ≤ Z.of_nat (length fs) + 1 → i ≠ j →
    apart V (loaded dev V i) (loaded dev V j);
  mf_free i : Z.of_nat (length fs) + 2 ≤ i < NINODES → i_type (loaded dev V i) = 0;
  mf_used b : 0 ≤ b < FSSIZE → used V mk_sb dev b = (b <? nmeta + total_blocks (mk_files fs))
}.

Section theorem.
Context `{DOk : BlockDriverOk}.

Section of_image.
Context (dev : Z) (fs : list host_file) (s : mkfs).
Hypotheses (Hdev : dev ≠ 0) (Hdrv : ∀ b, 0 ≤ b < FSSIZE → drv_ok dev b = true).
Hypothesis (Him : image dev s (mk_files fs)).
Let off := (Z.of_nat (length (root_dir fs)) / BSIZE + 1) * BSIZE.
Hypothesis (Hoff : off ≤ MAXFILE * BSIZE).
Let V := mk_view (finished s off).

#[local] Lemma oi_fb : nmeta ≤ mk_freeblock s ≤ FSSIZE.
Proof. apply (mo_free _ (im_ok _ _ _ Him)). Qed.

#[local] Lemma oi_used b : 0 ≤ b < FSSIZE → used V mk_sb dev b = (b <? mk_freeblock s).
Proof. apply (fin_map dev s _ _ Him). Qed.

#[local] Lemma oi_file k f : fs !! k = Some f → let x := loaded dev V (Z.of_nat k + 2) in
  i_type x = T_FILE ∧ i_nlink x = 1 ∧ file_ok V mk_sb dev x ∧ file_bytes V x 0 (i_size x) = contents f.
Proof.
  intros Hk x. assert (mk_files fs !! S k = Some (T_FILE, contents f)) as HS.
  { change (((λ f, (T_FILE, contents f)) <$> fs) !! k = Some (T_FILE, contents f)). by rewrite list_lookup_fmap, Hk. }
  pose proof (image_inum_at _ _ _ _ _ Him HS) as Hi. destruct (im_file _ _ _ Him _ _ _ HS) as (Hty & Hnl & Hsz & _ & _ & Hmax).
  pose proof (fin_body dev s _ _ Him _ _ _ HS) as Hb. fold V in Hb.
  assert (x = loaded dev (mk_view s) (Z.of_nat (S k) + 1)) as Hx.
  { unfold x, V. rewrite (fin_loaded dev s (root_dir fs) _ Him Hoff) by lia. rewrite decide_False by lia. f_equal. lia. }
  rewrite <-Hx in *. split_and!; [done|done| |].
  - apply (view_file_ok dev V (mk_freeblock s) oi_used oi_fb x (contents f)); [done|done|lia|]. by rewrite Hsz.
  - rewrite Hsz, (body_bytes _ _ _ _ _ Hb), Nat.sub_diag by lia. by rewrite app_nil_r.
Qed.

#[local] Lemma oi_root : let root := loaded dev V ROOTINO in let n := Z.of_nat (length (root_dir fs)) in
  i_type root = T_DIR ∧ i_size root = (n / BSIZE + 1) * BSIZE ∧
  (n mod BSIZE ≠ 0 → file_ok V mk_sb dev root) ∧ (n mod BSIZE = 0 → fblock V root (n / BSIZE) = 0) ∧
  file_bytes V root 0 (i_size root) = root_dir fs ++ replicate (Z.to_nat (i_size root - n)) 0.
Proof.
  intros root n. destruct (im_file _ _ _ Him 0 T_DIR (root_dir fs) eq_refl) as (Hty & _ & _ & _ & _ & Hmax).
  pose proof (fin_root_body dev s _ _ Him) as Hb. fold off V in Hb.
  pose proof (fin_off (root_dir fs)) as [Hlt Hpos]. fold off in Hlt, Hpos.
  unfold root, V. rewrite (fin_loaded dev s (root_dir fs) _ Him Hoff) by lia. rewrite decide_True by done.
  set (r := with_dinode _ _ _) in *. change (i_size r) with off. fold V. split_and!; [done|done| | |].
  - intros Hm. apply (view_file_ok dev V (mk_freeblock s) oi_used oi_fb r (root_dir fs)); [done|done|change (i_size r) with off; lia|].
    intros bn _. change (i_size r) with off. unfold off. fold n.
    pose proof (Z.div_mod n BSIZE ltac:(lia)). pose proof (Z.mod_pos_bound n BSIZE ltac:(lia)). lia.
  - intros Hm. destruct (decide (fblock V r (n / BSIZE) = 0)) as [|H0]; [done|]. exfalso.
    apply (bo_alloc _ _ _ _ Hb) in H0; [fold n in H0; pose proof (Z.div_mod n BSIZE ltac:(lia)); lia|].
    pose proof (Z.div_pos n BSIZE ltac:(lia) ltac:(lia)). unfold off in Hoff. fold n in Hoff. lia.
  - rewrite <-(Z2Nat.id off) at 1 by lia. rewrite (body_bytes _ _ _ _ _ Hb) by lia. do 2 f_equal. lia.
Qed.

Lemma image_mk_fs : mk_fs dev fs V.
Proof.
  pose proof oi_fb as Hfb. pose proof nmeta_eq as Hn.
  assert (length (mk_files fs) = S (length fs)) as Hlen by (cbn; by rewrite length_fmap).
  pose proof (im_next _ _ _ Him) as Hnx. rewrite Hlen in Hnx. pose proof (im_room _ _ _ Him) as Hrm.
  pose proof (fin_blocks s (root_dir fs)) as Hbl. fold off in Hbl.
  split.
  - unfold V, mk_view. rewrite Hbl by lia. rewrite (im_sb _ _ _ Him). apply decode_enc_sb.
  - unfold V, mk_view. rewrite Hbl by (change (sb_logstart mk_sb) with 2; lia).
    rewrite (im_log _ _ _ Him). unfold head_n. by rewrite get32_zeroes.
  - apply (view_fsg dev V (mk_freeblock s) Hdev Hdrv); [|apply oi_used|done].
    intros b. apply (fin_sectors dev s _ _ Him Hoff).
  - apply oi_file.
  - apply oi_root.
  - intros i j Hi Hj Hne.
    assert (∀ i, 1 ≤ i ≤ Z.of_nat (length fs) + 1 → ∀ b, owns V (loaded dev V i) b ↔
      owns (mk_view s) (loaded dev (mk_view s) i) b) as Ho.
    { clear i j Hi Hj Hne. intros i Hi b. destruct (lookup_lt_is_Some_2 (mk_files fs) (Z.to_nat (i - 1))) as [f Hf]; [lia|].
      unfold V at 2. rewrite (fin_loaded dev s (root_dir fs) _ Him Hoff) by lia.
      rewrite <-(owns_frame (mk_view s) V (loaded dev (mk_view s) i)); [by case_decide as Hd; [rewrite Hd|]|].
      intros b' Hb'. apply (fin_owns dev s _ _ Him _ f b' Hf). by replace (Z.of_nat (Z.to_nat (i - 1)) + 1) with i by lia. }
    intros b. rewrite !Ho by done. pose proof (im_apart _ _ _ Him (Z.to_nat (i - 1)) (Z.to_nat (j - 1))) as Ha.
    rewrite Hlen in Ha. specialize (Ha ltac:(lia) ltac:(lia) ltac:(lia) b).
    by replace (Z.of_nat (Z.to_nat (i - 1)) + 1) with i in Ha by lia; replace (Z.of_nat (Z.to_nat (j - 1)) + 1) with j in Ha by lia.
  - intros i Hi. unfold V. rewrite (fin_loaded dev s (root_dir fs) _ Him Hoff) by lia. rewrite decide_False by lia.
    apply (im_free _ _ _ Him). lia.
  - intros b Hb. rewrite oi_used, (im_count _ _ _ Him) by done. done.
Qed.
End of_image.

(** C39. The kernel finds in the image of mkfs what mkfs was given.  For files
    that can be opened, have no slash in their names and fit, mkfs ends, and
    its image is a file system as the kernel expects it: the superblock, an empty
    log, and the invariants of blocks, bitmap and inodes under which the theorems
    on the kernel hold.  Each file has an inode with its bytes, and no block
    is in two files.  The root directory has the entries ".", ".." and one for each
    file, with zeroes up to its rounded size; when the entries fill their last block
    the rounded size counts a block that the directory does not have.  The image
    has FSSIZE blocks: the swap areas that sb.nblocks counts are not part of it. *)
Theorem mkfs_builds_fs dev fs : dev ≠ 0 → (∀ b, 0 ≤ b < FSSIZE → drv_ok dev b = true) →
  Forall host_ok fs → 2 + Z.of_nat (length fs) ≤ NINODES → nmeta + total_blocks (mk_files fs) ≤ FSSIZE →
  ∃ s, mkfs_main fs mk_start = Ok (tt, s) ∧ mk_n s = FSSIZE ∧ mk_fs dev fs (mk_view s).
Proof.
  intros Hdev Hdrv Hok Hlen Hroom. destruct (main_run dev fs Hok Hlen Hroom) as (s & Hrun & Him & Hoff).
  eexists. split; [exact Hrun|]. split; [apply (mo_n _ (im_ok _ _ _ Him))|]. by apply image_mk_fs.
Qed.

(** ** The kernel on the image *)

Section boot.
Variable mypid : Z.

(** [ilock] of an inode that is not in memory yet. *)
Lemma ilock_loads s V dev ip x : let sb := fs_sb s in
  let d := get_dinode (V dev (IBLOCK (i_inum x) sb)) (dinode_off (i_inum x)) in
  fs_inode s !! ip = Some x → cache mypid (ls_bc (fs_ls s)) V ∅ ∅ → fsg V sb dev → i_dev x = dev →
  0 ≤ i_inum x < sb_ninodes sb → 1 ≤ i_ref x → sl_lk (i_lock x) = false → sl_locked (i_lock x) = false →
  i_valid x = false → di_type d ≠ 0 →
  ∃ s' x', ilock mypid (Some ip) s = Ok (tt, s') ∧ fs_sb s' = sb ∧ fs_inode s' !! ip = Some x' ∧
    dinode_of x' = d ∧ i_dev x' = dev ∧ i_valid x' = true ∧ cache mypid (ls_bc (fs_ls s')) V ∅ ∅.
Proof.
  intros sb d Hx Hc Hg Hdev Hi Hr Hlk Hld Hv Hty. destruct s as [[bc l] sb0 lk ino]. cbn in sb, Hx, Hc. subst sb.
  assert (ip < length ino)%nat as Hlt by (by eapply lookup_lt_Some).
  unfold ilock. erewrite bind_Ok by (by apply ifld_run). rewrite (proj2 (Z.ltb_ge _ _)) by lia.
  erewrite bind_Ok by (eapply (zoom_at_Ok FIC ip inode_lock); [exact Hx|by apply acquiresleep_Ok]).
  cbn [view FIC put inode_lock fs_inode fs_ls fs_sb fs_iclk].
  assert (<[ip := v_lock (sl_held mypid) x]> ino !! ip = Some (v_lock (sl_held mypid) x)) as Hx1 by (by apply list_lookup_insert_eq).
  erewrite bind_Ok by (by apply ifld_run). cbn [i_valid v_lock]. rewrite Hv.
  erewrite bind_Ok by reflexivity. erewrite bind_Ok by (by apply ifld_run).
  change (i_dev (id _)) with (i_dev x). change (i_inum (id _)) with (i_inum x). cbn [fs_sb]. rewrite Hdev.
  destruct (fg_inode _ _ _ Hg (i_inum x) Hi) as (Hb & _ & _).
  destruct (cache_read mypid bc V ∅ dev (IBLOCK (i_inum x) sb0) Hc) as (i & bc1 & bc2 & E1 & E2 & E3 & Hc2 & _);
    [apply (ge_dev _ _ _ (fg_geom _ _ _ Hg))|by apply (ge_blk _ _ _ (fg_geom _ _ _ Hg))|rewrite size_empty, NBUF_30; lia|].
  kstep E1. kstep E2. fold d. erewrite bind_Ok by (apply iset_run; exact Hx1). kstep E3.
  cbn [put FIC FBC fs_inode fs_ls fs_sb fs_iclk ls_log].
  erewrite bind_Ok by (apply iset_run; cbn; by apply list_lookup_insert_eq; rewrite length_insert).
  cbn [put FIC fs_inode fs_ls fs_sb fs_iclk].
  erewrite bind_Ok by (apply ifld_run; cbn; by apply list_lookup_insert_eq; rewrite !length_insert).
  change (i_type _) with (di_type d). rewrite (proj2 (Z.eqb_neq _ _) Hty).
  eexists _, _. split; [reflexivity|]. split; [done|]. split; [cbn; by apply list_lookup_insert_eq; rewrite !length_insert|].
  by destruct d.
Qed.

(** Files with the same inode on the disk. *)
Lemma same_dinode V sb dev x x' n : i_dev x' = i_dev x → dinode_of x' = dinode_of x → file_ok V sb dev x →
  file_ok V sb dev x' ∧ i_type x' = i_type x ∧ i_size x' = i_size x ∧ file_bytes V x' 0 n = file_bytes V x 0 n.
Proof.
  intros Hdev Hd. injection Hd as Ht _ _ _ Hs Ha.
  assert (ind x' = ind x) as Hi by (unfold ind; by rewrite Ha).
  assert (∀ bn, fblock V x' bn = fblock V x bn) as Hb by (intros bn; unfold fblock; by rewrite Ha, Hi, Hdev).
  intros [F1 F2 F3 F4 F5 F6 F7]. split_and!; try done.
  - split; rewrite ?Hdev, ?Ha, ?Hs, ?Hi; try done; setoid_rewrite Hb; done.
  - unfold file_bytes, fbyte. apply list_fmap_ext. intros. by rewrite Hb, Hdev.
Qed.

(** C40. What mkfs puts into a file the kernel reads from it.  After mkfs, a
    kernel that boots its buffer cache on the image reads the superblock of
    mkfs, and locking the inode of a file and reading the file from the start returns
    the bytes that mkfs read on the host, whatever their pieces. *)
Theorem mkfs_kernel_reads devsw_read dev fs k f n : dev ≠ 0 → (∀ b, 0 ≤ b < FSSIZE → drv_ok dev b = true) →
  Forall host_ok fs → 2 + Z.of_nat (length fs) ≤ NINODES → nmeta + total_blocks (mk_files fs) ≤ FSSIZE →
  fs !! k = Some f → Z.of_nat (length (contents f)) ≤ n < 2 ^ 32 →
  ∃ s bc, mkfs_main fs mk_start = Ok (tt, s) ∧ binit (bcache_bss (Disk (mk_view s) [])) = Ok (tt, bc) ∧
    (∃ bc', readsb mypid dev bc = Ok (mk_sb, bc')) ∧
    ∀ log lk inodes ip x, inodes !! ip = Some x → i_dev x = dev → i_inum x = Z.of_nat k + 2 → 1 ≤ i_ref x →
      i_lock x = SleepLock false false 0 → i_valid x = false →
      ∃ s', (ilock mypid (Some ip);; readi mypid devsw_read ip 0 n) (FsState (LogSys bc log) mk_sb lk inodes)
        = Ok ((Z.of_nat (length (contents f)), contents f), s').
Proof.
  intros Hdev Hdrv Hok Hlen Hroom Hf Hn.
  destruct (main_run dev fs Hok Hlen Hroom) as (s0 & Hrun & Him & Hoff).
  pose proof (image_mk_fs dev fs s0 Hdev Hdrv Him Hoff) as HF. set (s := finished s0 _) in *. clearbody s.
  destruct (cache_boot mypid (Disk (mk_view s) [])) as (bc & Hboot & Hc & _).
  change (disk_blocks (Disk (mk_view s) [])) with (mk_view s) in Hc.
  exists s, bc. split; [exact Hrun|]. split; [exact Hboot|]. clear Hrun Hboot Him. split.
  - destruct (cache_read mypid bc (mk_view s) ∅ dev 1 Hc) as (i & bc1 & bc2 & E1 & E2 & E3 & _);
      [done|by apply Hdrv|rewrite size_empty, NBUF_30; lia|].
    unfold readsb. erewrite bind_Ok by exact E1. erewrite bind_Ok by exact E2. erewrite bind_Ok by exact E3.
    exists bc2. by rewrite (mf_sb _ _ _ HF).
  - intros log lk inodes ip x Hx Hxd Hxi Hxr Hxl Hxv. assert (k < length fs)%nat as Hk by (by eapply lookup_lt_Some).
    destruct (mf_file _ _ _ HF k f Hf) as (Hty & _ & Hfo & Hby).
    set (st := FsState (LogSys bc log) mk_sb lk inodes).
    destruct (ilock_loads st (mk_view s) dev ip x) as (st1 & x1 & E1 & Hsb1 & Hx1 & Hd1 & Hdev1 & _ & Hc1); try done.
    { apply (mf_fsg _ _ _ HF). }
    { rewrite Hxi. change (sb_ninodes (fs_sb st)) with NINODES. lia. }
    { by rewrite Hxl. }
    { by rewrite Hxl. }
    { rewrite Hxi. cbn [fs_sb st]. change (i_type (loaded dev (mk_view s) (Z.of_nat k + 2)) ≠ 0). by rewrite Hty. }
    erewrite bind_Ok by exact E1. rewrite Hxi in Hd1.
    destruct (same_dinode (mk_view s) mk_sb dev (loaded dev (mk_view s) (Z.of_nat k + 2)) x1
      (i_size (loaded dev (mk_view s) (Z.of_nat k + 2))) Hdev1 Hd1 Hfo) as (Hfo1 & Hty1 & Hsz1 & Hby1).
    assert (i_size x1 = Z.of_nat (length (contents f))) as Hsz.
    { pose proof (fo_size _ _ _ _ Hfo). rewrite Hsz1, <-Hby, file_bytes_length. lia. }
    destruct (readi_run mypid devsw_read st1 (mk_view s) ∅ dev ip x1 0 n) as (bc2 & E2 & _); rewrite ?Hsb1; try done.
    { apply (mf_fsg _ _ _ HF). }
    { by rewrite Hty1, Hty. }
    { rewrite size_empty, NBUF_30. lia. }
    { unfold is_u32. lia. }
    { lia. }
    { lia. }
    rewrite Z.sub_0_r, Hsz, Z.min_r in E2 by lia. rewrite E2. eexists. do 3 f_equal. by rewrite <-Hsz, Hsz1, Hby1.
Qed.
End boot.
End theorem.

(** * An image *)

Definition sample_files : list host_file :=
  [([82; 69; 65; 68; 77; 69], Some [[104; 105]; [33]]); ([95; 115; 104], Some [[127; 69]])].

Lemma sample_host : Forall host_ok sample_files.
Proof.
  assert (∀ name cs, bool_decide (47 ∈ name) = false → forallb (λ b, (0 <=? b) && (b <? 256)) (name ++ concat cs) = true →
    (length (concat cs) <=? 4)%nat = true → host_ok (name, Some cs)) as Hh.
  { intros name cs Hn%bool_decide_eq_false Hb Hl%Nat.leb_le. rewrite forallb_forall in Hb.
    assert (∀ b, b ∈ name ++ concat cs → is_u8 b) as Hu by (intros b Hi%list_elem_of_In%Hb; unfold is_u8; lia).
    split; [done|]. split; [apply Forall_forall; intros b Hi; apply Hu, elem_of_app; by left|].
    exists cs. split; [done|]. split; [|lia]. apply Forall_forall. intros c Hc. apply Forall_forall. intros b Hi.
    apply Hu, elem_of_app. right. apply list_elem_of_In, in_concat. exists c. split; by apply list_elem_of_In. }
  apply Forall_cons. split; [by apply Hh|]. apply Forall_cons. split; [by apply Hh|]. constructor.
Qed.

Lemma sample_drv b : 0 ≤ b < FSSIZE → @drv_ok (memide FSSIZE) 1 b = true.
Proof. intros Hb. cbn. rewrite !andb_true_iff. lia. Qed.

Lemma mkfs_builds_fs_witness : ∃ s, mkfs_main sample_files mk_start = Ok (tt, s) ∧ mk_n s = FSSIZE ∧
  @mk_fs (memide FSSIZE) 1 sample_files (mk_view s).
Proof.
  apply (@mkfs_builds_fs (memide FSSIZE) 1 sample_files); [done|apply sample_drv|apply sample_host|cbn; lia|by vm_compute].
Defined.

Lemma mkfs_kernel_reads_witness : ∃ s bc s' log x,
  mkfs_main sample_files mk_start = Ok (tt, s) ∧
  @binit (bcache_bss (Disk (mk_view s) [])) = Ok (tt, bc) ∧
  (ilock (H := memide FSSIZE) 1 (Some 0%nat);; readi (H := memide FSSIZE) 1 (λ _, None) 0 0 100)
    (FsState (LogSys bc log) mk_sb false [x]) = Ok ((3, [104; 105; 33]), s').
Proof.
  destruct (@mkfs_kernel_reads (memide FSSIZE) (memide_ok FSSIZE) 1 (λ _, None) 1 sample_files 0
    ([82; 69; 65; 68; 77; 69], Some [[104; 105]; [33]]) 100) as (s & bc & Hrun & Hboot & _ & Hread);
    [done|apply sample_drv|apply sample_host|cbn; lia|by vm_compute|done|cbn; lia|].
  destruct (Hread (log_at 0 0) false [Inode 1 2 1 (SleepLock false false 0) false 0 0 0 0 0 []] 0%nat
    (Inode 1 2 1 (SleepLock false false 0) false 0 0 0 0 0 [])) as (s' & E); [done|done|done|cbn; lia|done|done|].
  exists s, bc, s', (log_at 0 0), (Inode 1 2 1 (SleepLock false false 0) false 0 0 0 0 0 []). by split_and!.
Defined.
