(* ===== verification/FsPath.v ===== *)
(** Path names (skipelem of fs.c): walking a path element by element visits
    the non-empty parts between its slashes. *)

From Stdlib Require Import ZArith Lia.
From stdpp Require Import base numbers strings option list list_numbers.
From S2P Require Import Prelude Mem Block Fs.

(** * The parts of a path *)

(** All parts between slashes, and those that are not empty. *)
Fixpoint fields (p : list Z) : list (list Z) :=
  match p with
  | [] => [[]]
  | c :: p =>
      if c =? 47 then [] :: fields p
      else match fields p with f :: fs => (c :: f) :: fs | [] => [[c]] end
  end.
Definition elems (p : list Z) : list (list Z) := filter (λ e, e ≠ []) (fields p).

(** The names that the loop of [namex] looks up, one call of [skipelem] each. *)
Fixpoint walk (fuel : nat) (path : list Z) : option (list (list Z)) :=
  match fuel with
  | O => None
  | S fuel =>
      match skipelem path with
      | None => Some []
      | Some (rest, name) => names ← walk fuel rest; Some (name :: names)
      end
  end.

Definition no_nul (p : list Z) : Prop := Forall (λ c, c ≠ 0) p.

Lemma elems_slash p : elems (47 :: p) = elems p.
Proof. unfold elems. cbn [fields]. rewrite Z.eqb_refl. by rewrite filter_cons_False by tauto. Qed.

Lemma skip_slash_elems p : elems (skip_slash p) = elems p.
Proof.
  induction p as [|c p IH]; [done|]. cbn [skip_slash]. destruct (Z.eqb_spec c 47) as [->|]; [|done].
  by rewrite IH, elems_slash.
Qed.

Lemma skip_slash_length p : (length (skip_slash p) ≤ length p)%nat.
Proof. induction p as [|c p IH]; [done|]. cbn [skip_slash]. destruct (c =? 47); simpl; lia. Qed.

Lemma skip_slash_head p c q : skip_slash p = c :: q → c ≠ 47.
Proof.
  induction p as [|d p IH]; [done|]. cbn [skip_slash]. destruct (Z.eqb_spec d 47); [done|]. by intros [= <- _].
Qed.

Lemma skip_slash_nul p : no_nul p → no_nul (skip_slash p).
Proof.
  induction 1 as [|c p Hc Hp IH]; [constructor|]. cbn [skip_slash]. destruct (c =? 47); [done|]. by constructor.
Qed.

(** The first part and what follows it. *)
Lemma path_elem_fields p e r : no_nul p → path_elem p = (e, r) →
  fields p = e :: (match r with [] => [] | _ :: q => fields q end) ∧ p = e ++ r ∧ ∀ c q, r = c :: q → c = 47.
Proof.
  intros Hp. revert e r. induction Hp as [|c p Hc Hp IH]; intros e r; cbn [path_elem].
  { intros [= <- <-]. done. }
  destruct (Z.eqb_spec c 47) as [->|Hs]; simpl.
  { intros [= <- <-]. split_and!; try done. by intros c q [= <- _]. }
  destruct (Z.eqb_spec c 0) as [|_]; [done|]. simpl. destruct (path_elem p) as [e' r'] eqn:E. intros [= <- <-].
  destruct (IH e' r' eq_refl) as (Hf & Hpe & Hr). cbn [fields]. rewrite (proj2 (Z.eqb_neq c 47)) by done. rewrite Hf.
  split_and!; try done. simpl. by rewrite <- Hpe.
Qed.

Lemma at8_head p : no_nul p → (at8 p 0 =? 0) = true ↔ p = [].
Proof.
  intros Hp. destruct Hp as [|c p Hc _]; [done|]. unfold at8. simpl. rewrite Z.eqb_eq. split; [|done]. by intros ->.
Qed.

Lemma skipelem_elems p : no_nul p →
  match skipelem p with
  | None => elems p = []
  | Some (rest, name) =>
      ∃ e, elems p = e :: elems rest ∧ name = take DIRSIZ e ∧ no_nul rest ∧ (length rest < length p)%nat
  end.
Proof.
  intros Hp. unfold skipelem. pose proof (skip_slash_nul p Hp) as Hq. pose proof (skip_slash_length p) as Hl.
  rewrite <- (skip_slash_elems p). pose proof (skip_slash_head p) as Hh. revert Hq Hl Hh.
  generalize (skip_slash p). intros q Hq Hl Hh. destruct (at8 q 0 =? 0) eqn:E0.
  { apply at8_head in E0 as ->; done. }
  destruct (path_elem q) as [e r] eqn:E. destruct (path_elem_fields q e r Hq E) as (Hf & Hqe & Hr).
  exists e. assert (He : e ≠ []).
  { intros ->. destruct q as [|c q]; [by rewrite (proj2 (at8_head [] Hq)) in E0|].
    simpl in Hqe. apply (Hh c q eq_refl). apply (Hr c q). by rewrite Hqe. }
  assert (Hnr : no_nul r) by (unfold no_nul in *; rewrite Hqe in Hq; by apply Forall_app in Hq as [_ ?]).
  split_and!; try done; [|by apply skip_slash_nul|].
  - rewrite skip_slash_elems. unfold elems at 1. rewrite Hf, filter_cons_True by done. f_equal.
    destruct r as [|c r]; [done|]. rewrite (Hr c r eq_refl). by rewrite elems_slash.
  - pose proof (skip_slash_length r). rewrite Hqe, length_app in Hl. destruct e; [done|]. simpl in Hl. lia.
Qed.

Lemma walk_elems fuel p : no_nul p → (length p < fuel)%nat → walk fuel p = Some (take DIRSIZ <$> elems p).
Proof.
  revert p. induction fuel as [|fuel IH]; intros p Hp Hl; [lia|]. cbn [walk].
  pose proof (skipelem_elems p Hp) as Hs. destruct (skipelem p) as [[rest name]|].
  - destruct Hs as (e & -> & -> & Hr & Hlt). by rewrite IH by (done || lia).
  - by rewrite Hs.
Qed.

(** C26. Repeated calls of [skipelem], as in the loop of [namex], end after at
    most one call per byte of the path, and give exactly the non-empty parts of
    the path between slashes, in order, each cut to [DIRSIZ] bytes. *)
Theorem skipelem_splits_path p : no_nul p → walk (S (length p)) p = Some (take DIRSIZ <$> elems p).
Proof. intros Hp. apply walk_elems; [done|lia]. Qed.

(** //a/bb/ *)
Lemma skipelem_splits_path_witness :
  let p := [47; 47; 97; 47; 98; 98; 47] in no_nul p ∧ walk 8 p = Some [[97]; [98; 98]].
Proof.
  intros p. assert (Hp : no_nul p) by (repeat constructor; lia). split; [exact Hp|].
  pose proof (skipelem_splits_path p Hp) as H. exact H.
Defined.
