(* ===== verification/Devsw.v ===== *)
(** The console as a device of the file system: [consoleread] and
    [consolewrite] (console.c) with the inode of the device, which they unlock
    while they work on the console. *)

From Stdlib Require Import ZArith Lia.
From stdpp Require Import base numbers strings option gmap sets list list_numbers.
From S2P Require Import Prelude Printf Spinlock Sleeplock Block Console Bio Log Fs FsBlocks FsData.

Definition DFS : lens (fs_state * console) fs_state := Lens fst (λ x s, (x, snd s)).
Definition DCON : lens (fs_state * console) console := Lens snd (λ x s, (fst s, x)).

Section devsw.
Context `{BlockDriver}.
Variable mypid : Z.

Definition consolewrite_ip (ip : nat) (buf : list Z) : M (fs_state * console) Z :=
  zoom DFS (iunlock mypid (Some ip));;
  n ← zoom DCON (consolewrite buf);
  zoom DFS (ilock mypid (Some ip));;
  mret n.

(** [consoleread] up to its first sleep, during which the inode stays
    unlocked. *)
Definition consoleread_ip (ip : nat) (killed : bool) (n : nat) : M (fs_state * console) cread :=
  zoom DFS (iunlock mypid (Some ip));;
  x ← zoom DCON (consoleread killed [] n);
  (match x with CSleep _ => mret tt | _ => zoom DFS (ilock mypid (Some ip)) end);;
  mret x.

(** The inode of the device, in memory and locked by the process. *)
Definition inode_held (s : fs_state) (ip : nat) (x : inode) : Prop :=
  fs_inode s !! ip = Some x ∧ i_lock x = sl_held mypid ∧ 1 ≤ i_ref x ∧ i_valid x = true.

Definition inode_unlocked (s : fs_state) (ip : nat) (x : inode) : fs_state :=
  put FIC (<[ip := v_lock (SleepLock false false 0) x]> (fs_inode s)) s.

Lemma iunlock_held s ip x : inode_held s ip x → iunlock mypid (Some ip) s = Ok (tt, inode_unlocked s ip x).
Proof.
  intros (Hx & Hl & Hr & Hv). destruct s as [ls sb lk ino]. cbn in Hx. unfold iunlock, ilk.
  assert (put FIC (<[ip := v_lock (sl_held mypid) x]> ino) (FsState ls sb lk ino) = FsState ls sb lk ino) as Es.
  { cbn. f_equal. apply list_insert_id. rewrite Hx. f_equal. destruct x. cbn in *. by subst. }
  erewrite bind_Ok by (eapply (zoom_at_Ok FIC ip inode_lock); [exact Hx|cbn; rewrite Hl; apply holdingsleep_Ok]).
  cbn [view put inode_lock FIC fs_inode] in *. rewrite Es. erewrite bind_Ok by (by apply ifld_run).
  rewrite (proj2 (Z.ltb_ge _ _)) by lia. cbn [negb orb].
  erewrite (zoom_at_Ok FIC ip inode_lock); [reflexivity|exact Hx|cbn; rewrite Hl; apply releasesleep_Ok].
Qed.

Lemma ilock_again s ip x : inode_held s ip x → ilock mypid (Some ip) (inode_unlocked s ip x) = Ok (tt, s).
Proof.
  intros (Hx & Hl & Hr & Hv). destruct s as [ls sb lk ino]. cbn in Hx. unfold ilock, ilk, inode_unlocked.
  assert (ip < length ino)%nat as Hlt by (by eapply lookup_lt_Some). cbn [put FIC fs_inode fs_ls fs_sb fs_iclk].
  set (x0 := v_lock (SleepLock false false 0) x).
  assert (<[ip := x0]> ino !! ip = Some x0) as Hx0 by (by apply list_lookup_insert_eq).
  erewrite bind_Ok by (by apply ifld_run). rewrite (proj2 (Z.ltb_ge _ _)) by (cbn; lia).
  erewrite bind_Ok by (eapply (zoom_at_Ok FIC ip inode_lock); [exact Hx0|by apply acquiresleep_Ok]).
  cbn [view put inode_lock FIC fs_inode fs_ls fs_sb fs_iclk]. rewrite list_insert_insert_eq.
  assert (v_lock (sl_held mypid) x0 = x) as -> by (destruct x; cbn in *; by subst). rewrite list_insert_id by done.
  erewrite bind_Ok by (by apply ifld_run). by rewrite Hv.
Qed.

(** A write to the console by a process that holds the inode: it prints the
    bytes, returns their number, and the process holds the inode again. *)
Lemma consolewrite_ip_run ip x buf fs c t : inode_held fs ip x → cons_inv c t →
  ∃ c', consolewrite_ip ip buf (fs, c) = Ok (Z.of_nat (length buf), (fs, c')) ∧
    cons_inv c' (tty_step (cn_uart c) [] (OWrite buf) t).2.
Proof.
  intros Hh Hi. destruct (cop_refines [] (OWrite buf) c t Hi Logic.I) as (c' & E & _ & Hi').
  exists c'. split; [|done]. apply bind_Ok_inv in E as (n & c1 & E & [= <-]).
  assert (n = Z.of_nat (length buf)) as ->.
  { unfold consolewrite in E. do 3 (apply bind_Ok_inv in E as ([] & ? & _ & E)). by injection E as <-. }
  unfold consolewrite_ip. erewrite zoom_bind by (by apply iunlock_held). erewrite zoom_bind by exact E. cbn [put DFS DCON fst snd].
  by erewrite zoom_bind by (by apply ilock_again).
Qed.
End devsw.
