(* ===== verification/Pipe.v ===== *)
(** Pipes (pipe.c): [struct pipe], and the loops of [pipewrite] and
    [piperead] up to the next sleep.  The functions with their effect on
    processes and memory are in [File]. *)

From Stdlib Require Import ZArith Lia.
From stdpp Require Import base numbers strings option list list_numbers relations.
From S2P Require Import Prelude Mem.

Abbreviation PIPESIZE := 512.

(** The lock is held from the start of a loop to its end, sleeping apart. *)
Record pipe := Pipe {
  pp_lock : bool;
  pp_data : list Z;
  pp_nread : Z;
  pp_nwrite : Z;
  pp_readopen : bool;
  pp_writeopen : bool
}.

Definition pp_put_lock x p := Pipe x (pp_data p) (pp_nread p) (pp_nwrite p) (pp_readopen p) (pp_writeopen p).
Definition pp_put_data x p := Pipe (pp_lock p) x (pp_nread p) (pp_nwrite p) (pp_readopen p) (pp_writeopen p).
Definition pp_put_nread x p := Pipe (pp_lock p) (pp_data p) x (pp_nwrite p) (pp_readopen p) (pp_writeopen p).
Definition pp_put_nwrite x p := Pipe (pp_lock p) (pp_data p) (pp_nread p) x (pp_readopen p) (pp_writeopen p).
Definition pp_put_readopen x p := Pipe (pp_lock p) (pp_data p) (pp_nread p) (pp_nwrite p) x (pp_writeopen p).
Definition pp_put_writeopen x p := Pipe (pp_lock p) (pp_data p) (pp_nread p) (pp_nwrite p) (pp_readopen p) x.

(** What ends a run of a loop: all done, or the error return or a sleep with
    the bytes not yet written. *)
Inductive pwrite_end := WDone | WFail (rest : list Z) | WSleep (rest : list Z).

Definition pipe_full (p : pipe) : bool := pp_nwrite p =? u32 (pp_nread p + PIPESIZE).
Definition pipe_empty (p : pipe) : bool := pp_nread p =? pp_nwrite p.

(** [p->data[p->nwrite++ % PIPESIZE] = c] *)
Definition pipe_put (c : Z) (p : pipe) : pipe :=
  pp_put_nwrite (u32 (pp_nwrite p + 1)) (pp_put_data (<[Z.to_nat (pp_nwrite p mod PIPESIZE) := c]> (pp_data p)) p).

(** The loop of [pipewrite] from a byte on, until it ends or sleeps. *)
Fixpoint pipewrite_run (killed : bool) (addr : list Z) (p : pipe) : pwrite_end * pipe :=
  match addr with
  | [] => (WDone, p)
  | c :: rest =>
      if pipe_full p then
        if negb (pp_readopen p) || killed then (WFail addr, p) else (WSleep addr, p)
      else pipewrite_run killed rest (pipe_put c p)
  end.

(** [p->data[p->nread++ % PIPESIZE]] *)
Definition pipe_get (p : pipe) : Z * pipe :=
  (pp_data p !!! Z.to_nat (pp_nread p mod PIPESIZE), pp_put_nread (u32 (pp_nread p + 1)) p).

(** The copy loop of [piperead]: at most [n] bytes. *)
Fixpoint piperead_copy (n : nat) (p : pipe) : list Z * pipe :=
  match n with
  | O => ([], p)
  | S n =>
      if pipe_empty p then ([], p)
      else let '(c, p) := pipe_get p in let '(l, p) := piperead_copy n p in (c :: l, p)
  end.

Inductive pread_end := RDone (bytes : list Z) | RFail | RSleep.

Definition piperead_run (killed : bool) (n : nat) (p : pipe) : pread_end * pipe :=
  if pipe_empty p && pp_writeopen p then if killed then (RFail, p) else (RSleep, p)
  else let '(l, p) := piperead_copy n p in (RDone l, p).

(** * A pipe is a bounded queue *)
Record pipe_rep (p : pipe) (q : list Z) : Prop := {
  pr_len : length (pp_data p) = Z.to_nat PIPESIZE;
  pr_read : is_u32 (pp_nread p);
  pr_write : pp_nwrite p = u32 (pp_nread p + Z.of_nat (length q));
  pr_room : Z.of_nat (length q) ≤ PIPESIZE;
  pr_bytes : ∀ k c, q !! k = Some c → pp_data p !! Z.to_nat ((pp_nread p + Z.of_nat k) mod PIPESIZE) = Some c
}.

Lemma u32_mod_512 z : u32 z mod PIPESIZE = z mod PIPESIZE.
Proof.
  unfold u32. change (2 ^ 32) with (512 * 8388608). rewrite Z.rem_mul_r by lia.
  rewrite Z.mul_comm, Z_mod_plus_full. by rewrite Z.mod_mod.
Qed.

Lemma u32_add_inj a m n : 0 ≤ m ≤ PIPESIZE → 0 ≤ n ≤ PIPESIZE → u32 (a + m) = u32 (a + n) → m = n.
Proof. unfold u32. intros Hm Hn E. Z.div_mod_to_equations. lia. Qed.

Lemma pipe_full_spec p q : pipe_rep p q → pipe_full p = bool_decide (length q = Z.to_nat PIPESIZE).
Proof.
  intros [_ _ Hw Hr _]. unfold pipe_full. rewrite Hw. case_bool_decide as E.
  - rewrite E. by rewrite Z.eqb_eq.
  - apply Z.eqb_neq. intros E'. apply u32_add_inj in E'; lia.
Qed.

Lemma pipe_empty_spec p q : pipe_rep p q → pipe_empty p = bool_decide (q = []).
Proof.
  intros [_ Hn Hw Hr _]. unfold pipe_empty. rewrite Hw. case_bool_decide as E.
  - subst q. simpl. rewrite Z.add_0_r. rewrite Z.eqb_eq. by rewrite u32_small.
  - apply Z.eqb_neq. rewrite <- (u32_small (pp_nread p)) at 1 by done. rewrite <- (Z.add_0_r (pp_nread p)) at 1.
    intros E'. apply u32_add_inj in E'; [|lia..]. apply E. by destruct q.
Qed.

(** Different bytes of the queue are in different cells. *)
Lemma cell_inj a m n : 0 ≤ m < PIPESIZE → 0 ≤ n < PIPESIZE →
  (a + m) mod PIPESIZE = (a + n) mod PIPESIZE → m = n.
Proof. intros Hm Hn E. Z.div_mod_to_equations. lia. Qed.

Lemma cell_range a : (Z.to_nat (a mod PIPESIZE) < Z.to_nat PIPESIZE)%nat.
Proof. pose proof (Z.mod_pos_bound a PIPESIZE). lia. Qed.

Lemma pipe_put_rep p q c : pipe_rep p q → length q ≠ Z.to_nat PIPESIZE → pipe_rep (pipe_put c p) (q ++ [c]).
Proof.
  intros [Hl Hn Hw Hr Hb] Hne. split; simpl; try done.
  - by rewrite length_insert.
  - rewrite Hw, length_app. simpl. unfold u32. rewrite Zplus_mod_idemp_l. f_equal. lia.
  - rewrite length_app. simpl. lia.
  - intros k x Hk. rewrite Hw, u32_mod_512. apply lookup_app_Some in Hk as [Hk|[Hge Hk]].
    + pose proof (lookup_lt_Some _ _ _ Hk). rewrite list_lookup_insert_ne; [by apply Hb|].
      pose proof (Z.mod_pos_bound (pp_nread p + Z.of_nat (length q)) PIPESIZE).
      pose proof (Z.mod_pos_bound (pp_nread p + Z.of_nat k) PIPESIZE).
      intros E%Z2Nat.inj; [|lia..]. apply cell_inj in E; lia.
    + apply list_lookup_singleton_Some in Hk as [Hk <-]. replace k with (length q) by lia.
      rewrite list_lookup_insert_eq; [done|]. rewrite Hl. apply cell_range.
Qed.

Lemma pipe_get_rep p c q : pipe_rep p (c :: q) → ∃ p', pipe_get p = (c, p') ∧ pipe_rep p' q ∧
  pp_readopen p' = pp_readopen p ∧ pp_writeopen p' = pp_writeopen p.
Proof.
  intros [Hl Hn Hw Hr Hb]. eexists. unfold pipe_get.
  pose proof (Hb 0%nat c eq_refl) as H0. rewrite Z.add_0_r in H0.
  rewrite (list_lookup_total_correct _ _ _ H0). split; [done|]. split; [|done].
  simpl in Hr. split; simpl; try done.
  - unfold is_u32, u32. apply Z.mod_pos_bound. lia.
  - rewrite Hw. simpl. unfold u32. rewrite Zplus_mod_idemp_l. f_equal. lia.
  - lia.
  - intros k x Hk. rewrite <- (Hb (S k) x Hk). do 2 f_equal.
    rewrite <- Zplus_mod_idemp_l, u32_mod_512, Zplus_mod_idemp_l. f_equal. lia.
Qed.

(** The bytes a run of the write loop gets into the pipe, and how it ends. *)
Definition room (q : list Z) : nat := Z.to_nat PIPESIZE - length q.

Definition write_end (killed readopen : bool) (addr q : list Z) : pwrite_end :=
  if decide (length addr ≤ room q)%nat then WDone
  else if negb readopen || killed then WFail (drop (room q) addr) else WSleep (drop (room q) addr).

Lemma pipewrite_run_rep killed addr p q : pipe_rep p q →
  ∃ p', pipewrite_run killed addr p = (write_end killed (pp_readopen p) addr q, p') ∧
    pipe_rep p' (q ++ take (room q) addr) ∧ pp_readopen p' = pp_readopen p ∧ pp_writeopen p' = pp_writeopen p.
Proof.
  revert p q. induction addr as [|c addr IH]; intros p q Hp.
  { exists p. rewrite take_nil, app_nil_r. split_and!; try done. }
  pose proof (pr_room _ _ Hp) as Hr. cbn [pipewrite_run]. rewrite (pipe_full_spec p q Hp). case_bool_decide as Hf.
  - exists p. assert (Hz : room q = 0%nat) by (unfold room; lia). unfold write_end. rewrite Hz.
    rewrite decide_False by (simpl; lia). rewrite take_0, drop_0, app_nil_r. split_and!; try done.
    by destruct (_ || _).
  - destruct (IH (pipe_put c p) (q ++ [c])) as (p' & E & Hp' & Ho & Hw); [by apply pipe_put_rep|].
    assert (Hz : room q = S (room (q ++ [c]))) by (unfold room; rewrite length_app; simpl; lia).
    exists p'. rewrite E, Hz. split_and!; try done.
    + unfold write_end. rewrite Hz. simpl. repeat case_decide; (done || lia).
    + simpl. by rewrite cons_middle, app_assoc.
Qed.

Lemma piperead_copy_rep n p q : pipe_rep p q →
  ∃ p', piperead_copy n p = (take n q, p') ∧ pipe_rep p' (drop n q) ∧
    pp_readopen p' = pp_readopen p ∧ pp_writeopen p' = pp_writeopen p.
Proof.
  revert p q. induction n as [|n IH]; intros p q Hp; [by exists p|]. cbn [piperead_copy].
  rewrite (pipe_empty_spec p q Hp). case_bool_decide as Hq; [subst q; by exists p|].
  destruct q as [|c q]; [done|]. destruct (pipe_get_rep p c q Hp) as (p1 & E1 & Hp1 & Ho1 & Hw1). rewrite E1.
  destruct (IH p1 q Hp1) as (p2 & E2 & Hp2 & Ho2 & Hw2). rewrite E2. exists p2.
  split_and!; try done; congruence.
Qed.

Lemma piperead_run_rep killed n p q : pipe_rep p q →
  ∃ p', piperead_run killed n p =
      (if decide (q = [] ∧ pp_writeopen p = true) then if killed then RFail else RSleep else RDone (take n q), p') ∧
    pipe_rep p' (if decide (q = [] ∧ pp_writeopen p = true) then q else drop n q) ∧
    pp_readopen p' = pp_readopen p ∧ pp_writeopen p' = pp_writeopen p.
Proof.
  intros Hp. unfold piperead_run. rewrite (pipe_empty_spec p q Hp).
  destruct (piperead_copy_rep n p q Hp) as (p' & E & Hp' & Ho & Hw).
  case_decide as Hd.
  - destruct Hd as [-> Hwo]. exists p. rewrite bool_decide_true, Hwo by done. by destruct killed.
  - exists p'. rewrite E. destruct (bool_decide (q = []) && pp_writeopen p) eqn:Hb; [|done].
    apply andb_true_iff in Hb as [Hb%bool_decide_eq_true_1 ?]. by destruct Hd.
Qed.

(** * Processes on a pipe *)

(** What a process does with the pipe: nothing, run in the loop of [pipewrite]
    or [piperead], or sleep there. *)
Inductive pstat := PIdle | PWrite (rest : list Z) | PRead (n : nat) | PSleepW (rest : list Z) | PSleepR (n : nat).

(** [wakeup(&p->nread)] and [wakeup(&p->nwrite)] *)
Definition wake_readers (x : pstat) : pstat := match x with PSleepR n => PRead n | _ => x end.
Definition wake_writers (x : pstat) : pstat := match x with PSleepW l => PWrite l | _ => x end.

(** The pipe, the processes, and the bytes put in and taken out so far. *)
Record pipe_sys := PipeSys { py_pipe : pipe; py_procs : list pstat; py_in : list Z; py_out : list Z }.

Definition writes (x : pstat) : bool := match x with PWrite _ | PSleepW _ => true | _ => false end.
Definition reads (x : pstat) : bool := match x with PRead _ | PSleepR _ => true | _ => false end.

(** One process runs with the lock of the pipe held.  A process in a call has
    the file open, so the last close of an end comes when no process is in a
    call on it.  Without [kills] no process is killed; [kill] sets the flag of
    a process and makes it runnable where it sleeps. *)
Inductive pipe_step (kills : bool) : pipe_sys → pipe_sys → Prop :=
| ps_call_write p l i w r addr : l !! i = Some PIdle →
    pp_writeopen p = true → pipe_step kills (PipeSys p l w r) (PipeSys p (<[i := PWrite addr]> l) w r)
| ps_call_read p l i w r n : l !! i = Some PIdle →
    pp_readopen p = true → pipe_step kills (PipeSys p l w r) (PipeSys p (<[i := PRead n]> l) w r)
| ps_write_done p p' l i w r addr killed : l !! i = Some (PWrite addr) → (killed = true → kills = true) →
    pipewrite_run killed addr p = (WDone, p') →
    pipe_step kills (PipeSys p l w r) (PipeSys p' (wake_readers <$> <[i := PIdle]> l) (w ++ addr) r)
| ps_write_fail p p' l i w r put rest killed : l !! i = Some (PWrite (put ++ rest)) → (killed = true → kills = true) →
    pipewrite_run killed (put ++ rest) p = (WFail rest, p') →
    pipe_step kills (PipeSys p l w r) (PipeSys p' (<[i := PIdle]> l) (w ++ put) r)
| ps_write_sleep p p' l i w r put rest killed : l !! i = Some (PWrite (put ++ rest)) → (killed = true → kills = true) →
    pipewrite_run killed (put ++ rest) p = (WSleep rest, p') →
    pipe_step kills (PipeSys p l w r) (PipeSys p' (<[i := PSleepW rest]> (wake_readers <$> l)) (w ++ put) r)
| ps_read_done p p' l i w r n killed bytes : l !! i = Some (PRead n) → (killed = true → kills = true) →
    piperead_run killed n p = (RDone bytes, p') →
    pipe_step kills (PipeSys p l w r) (PipeSys p' (wake_writers <$> <[i := PIdle]> l) w (r ++ bytes))
| ps_read_fail p p' l i w r n killed : l !! i = Some (PRead n) → (killed = true → kills = true) →
    piperead_run killed n p = (RFail, p') →
    pipe_step kills (PipeSys p l w r) (PipeSys p' (<[i := PIdle]> l) w r)
| ps_read_sleep p p' l i w r n killed : l !! i = Some (PRead n) → (killed = true → kills = true) →
    piperead_run killed n p = (RSleep, p') →
    pipe_step kills (PipeSys p l w r) (PipeSys p' (<[i := PSleepR n]> l) w r)
| ps_close_write p l w r : Forall (λ x, writes x = false) l →
    pipe_step kills (PipeSys p l w r) (PipeSys (pp_put_writeopen false p) (wake_readers <$> l) w r)
| ps_close_read p l w r : Forall (λ x, reads x = false) l →
    pipe_step kills (PipeSys p l w r) (PipeSys (pp_put_readopen false p) (wake_writers <$> l) w r)
| ps_kill p l i w r x : kills = true → l !! i = Some x →
    pipe_step kills (PipeSys p l w r) (PipeSys p (<[i := wake_writers (wake_readers x)]> l) w r).

Definition pipe0 : pipe := Pipe false (replicate (Z.to_nat PIPESIZE) 0) 0 0 true true.

Lemma pipe0_rep : pipe_rep pipe0 [].
Proof. split; done. Qed.

(** A run that ends before all bytes are written fills the pipe. *)
Lemma write_end_stop killed ro put rest q :
  write_end killed ro (put ++ rest) q = WFail rest ∨ write_end killed ro (put ++ rest) q = WSleep rest →
  put = take (room q) (put ++ rest) ∧ rest ≠ [] ∧ length put = room q.
Proof.
  unfold write_end. intros H.
  assert (Hd : ¬ (length (put ++ rest) ≤ room q)%nat ∧ drop (room q) (put ++ rest) = rest).
  { case_decide; [by destruct H|]. split; [done|]. destruct (_ || _), H as [[= H]|[= H]]; done. }
  destruct Hd as [Hlt Hd]. assert (Hl : length put = room q).
  { apply (f_equal length) in Hd. rewrite length_drop, length_app in Hd. rewrite length_app in Hlt. lia. }
  split_and!; [by rewrite <- Hl, take_app_length| |done]. intros ->. rewrite length_app in Hlt. simpl in Hlt. lia.
Qed.

(** A process sleeps only while what it waits for has not happened: a writer
    while the pipe is full, a reader while it is empty. *)
Definition pstat_ok (kills ro wo : bool) (q : list Z) (x : pstat) : Prop :=
  match x with
  | PIdle => True
  | PWrite _ => wo = true
  | PRead _ => ro = true
  | PSleepW l => wo = true ∧ ro = true ∧ l ≠ [] ∧ length q = Z.to_nat PIPESIZE
  | PSleepR _ => ro = true ∧ (kills = false → wo = true ∧ q = [])
  end.

Definition pipe_inv (kills : bool) (s : pipe_sys) (q : list Z) : Prop :=
  pipe_rep (py_pipe s) q ∧ py_in s = py_out s ++ q ∧
  Forall (pstat_ok kills (pp_readopen (py_pipe s)) (pp_writeopen (py_pipe s)) q) (py_procs s).

Lemma Forall_wake (f : pstat → pstat) (P Q : pstat → Prop) l : Forall P l → (∀ x, P x → Q (f x)) → Forall Q (f <$> l).
Proof. intros Hl HPQ. rewrite Forall_fmap. eapply Forall_impl; [exact Hl|]. intros x Hx. by apply HPQ. Qed.

Lemma Forall_call (P : pstat → Prop) l i x : Forall P l → P x → Forall P (<[i := x]> l).
Proof. intros. by apply Forall_insert. Qed.

Section step_inv.
Variables (kills : bool) (p : pipe) (l : list pstat) (w r q : list Z).
Hypothesis Hinv : pipe_inv kills (PipeSys p l w r) q.

Abbreviation ok := (pstat_ok kills (pp_readopen p) (pp_writeopen p)).

Lemma inv_rep : pipe_rep p q.
Proof. apply Hinv. Qed.
Lemma inv_ok : Forall (ok q) l.
Proof. apply Hinv. Qed.
Lemma inv_at i x : l !! i = Some x → ok q x.
Proof. intros Hi. exact (Forall_lookup_1 _ _ _ _ inv_ok Hi). Qed.

Lemma inv_write_done i addr k p' : l !! i = Some (PWrite addr) → pipewrite_run k addr p = (WDone, p') →
  pipe_inv kills (PipeSys p' (wake_readers <$> <[i := PIdle]> l) (w ++ addr) r) (q ++ addr).
Proof.
  intros Hi E. destruct (pipewrite_run_rep k addr p q inv_rep) as (p1 & E1 & Hp1 & Hro & Hwo). rewrite E in E1.
  injection E1 as Ee <-. unfold write_end in Ee. case_decide as Hle; [|by destruct (_ || _)].
  rewrite take_ge in Hp1 by done. destruct Hinv as (_ & Hin & Hok). simpl in *. split_and!; [done| |].
  { by rewrite Hin, app_assoc. }
  cbn [py_pipe py_procs]. rewrite Hro, Hwo. apply (Forall_wake _ (ok q)); [by apply Forall_call|].
  intros [] Hx; simpl in *; try done; [|apply Hx]. destruct Hx as (? & ? & ? & Hq). split_and!; try done.
  rewrite length_app. unfold room in Hle. lia.
Qed.

Lemma inv_write_stop put rest k p' e : pipewrite_run k (put ++ rest) p = (e, p') → e = WFail rest ∨ e = WSleep rest →
  pipe_rep p' (q ++ put) ∧ w ++ put = r ++ q ++ put ∧ pp_readopen p' = pp_readopen p ∧
  pp_writeopen p' = pp_writeopen p ∧ rest ≠ [] ∧ length (q ++ put) = Z.to_nat PIPESIZE ∧
  e = write_end k (pp_readopen p) (put ++ rest) q.
Proof.
  intros E He. destruct (pipewrite_run_rep k (put ++ rest) p q inv_rep) as (p1 & E1 & Hp1 & Hro & Hwo). rewrite E in E1.
  injection E1 as Ee <-. destruct (write_end_stop k (pp_readopen p) put rest q) as (Hpu & Hre & Hl); [by rewrite <- Ee|].
  rewrite <- Hpu in Hp1. destruct Hinv as (Hrep & Hin & _). simpl in Hin. split_and!; try done.
  - by rewrite Hin, <- app_assoc.
  - pose proof (pr_room _ _ Hrep). rewrite length_app, Hl. unfold room. lia.
Qed.

Lemma inv_write_fail i put rest k p' : (k = true → kills = true) → pipewrite_run k (put ++ rest) p = (WFail rest, p') →
  pipe_inv kills (PipeSys p' (<[i := PIdle]> l) (w ++ put) r) (q ++ put).
Proof.
  intros Hk E. destruct (inv_write_stop _ _ _ _ _ E) as (Hp' & Hw & Hro & Hwo & Hne & Hfull & Ee); [by left|].
  split_and!; [done|done|]. cbn [py_pipe py_procs]. rewrite Hro, Hwo. apply Forall_call; [|done].
  eapply Forall_impl; [exact inv_ok|]. intros [] Hx; simpl in *; try done; [by destruct Hx as (? & ? & ? & _)|].
  destruct Hx as [Hr0 _]. split; [done|]. intros Hkl. unfold write_end in Ee. case_decide; [done|].
  rewrite Hr0 in Ee. destruct k; [by rewrite Hk in Hkl|done].
Qed.

Lemma inv_write_sleep i put rest k p' : l !! i = Some (PWrite (put ++ rest)) →
  pipewrite_run k (put ++ rest) p = (WSleep rest, p') →
  pipe_inv kills (PipeSys p' (<[i := PSleepW rest]> (wake_readers <$> l)) (w ++ put) r) (q ++ put).
Proof.
  intros Hi E. destruct (inv_write_stop _ _ _ _ _ E) as (Hp' & Hw & Hro & Hwo & Hne & Hfull & Ee); [by right|].
  pose proof (inv_at _ _ Hi) as Hx. split_and!; [done|done|]. cbn [py_pipe py_procs]. rewrite Hro, Hwo. apply Forall_call.
  - apply (Forall_wake _ (ok q)); [exact inv_ok|]. intros [] Hy; simpl in *; try done; [|apply Hy].
    by destruct Hy as (? & ? & ? & _).
  - unfold write_end in Ee. case_decide; [done|]. simpl in *. by destruct (pp_readopen p).
Qed.

Lemma inv_read_done i n k bytes p' : piperead_run k n p = (RDone bytes, p') →
  pipe_inv kills (PipeSys p' (wake_writers <$> <[i := PIdle]> l) w (r ++ bytes)) (drop n q).
Proof.
  intros E. destruct (piperead_run_rep k n p q inv_rep) as (p1 & E1 & Hp1 & Hro & Hwo). rewrite E in E1.
  injection E1 as Ee <-. case_decide as Hd; [by destruct k|]. injection Ee as ->.
  destruct Hinv as (_ & Hin & _). simpl in Hin. split_and!; [done| |].
  { cbn [py_in py_out]. by rewrite <- app_assoc, take_drop. }
  cbn [py_pipe py_procs]. rewrite Hro, Hwo.
  apply (Forall_wake _ (ok q)); [apply Forall_call; [exact inv_ok|done]|].
  intros [] Hx; simpl in *; try done; [apply Hx|]. destruct Hx as [? Hx]. split; [done|]. intros Hkl.
  destruct Hd. by destruct (Hx Hkl) as [? ->].
Qed.

Lemma inv_read_stop i n k p' e : l !! i = Some (PRead n) → piperead_run k n p = (e, p') → e = RFail ∨ e = RSleep →
  pipe_inv kills (PipeSys p' (<[i := if e is RSleep then PSleepR n else PIdle]> l) w r) q.
Proof.
  intros Hi E He. destruct (piperead_run_rep k n p q inv_rep) as (p1 & E1 & Hp1 & Hro & Hwo). rewrite E in E1.
  injection E1 as Ee <-. pose proof (inv_at _ _ Hi) as Hx. simpl in Hx.
  case_decide as Hd; [|by destruct He as [-> | ->]]. destruct Hinv as (_ & Hin & _).
  split_and!; [done|done|]. cbn [py_pipe py_procs]. rewrite Hro, Hwo. apply Forall_call; [exact inv_ok|].
  destruct He as [-> | ->]; [done|]. split; [done|]. intros _. by destruct Hd.
Qed.

Lemma inv_close_write : Forall (λ x, writes x = false) l →
  pipe_inv kills (PipeSys (pp_put_writeopen false p) (wake_readers <$> l) w r) q.
Proof.
  intros Hn. destruct Hinv as ([] & Hin & Hok). split_and!; [by split|done|]. cbn [py_pipe py_procs].
  apply (Forall_wake _ (λ x, ok q x ∧ writes x = false)); [by apply Forall_and|].
  intros [] [Hx Hy]; simpl in *; try done. apply Hx.
Qed.

Lemma inv_close_read : Forall (λ x, reads x = false) l →
  pipe_inv kills (PipeSys (pp_put_readopen false p) (wake_writers <$> l) w r) q.
Proof.
  intros Hn. destruct Hinv as ([] & Hin & Hok). split_and!; [by split|done|]. cbn [py_pipe py_procs].
  apply (Forall_wake _ (λ x, ok q x ∧ reads x = false)); [by apply Forall_and|].
  intros [] [Hx Hy]; simpl in *; try done. apply Hx.
Qed.

Lemma inv_kill i x : l !! i = Some x → pipe_inv kills (PipeSys p (<[i := wake_writers (wake_readers x)]> l) w r) q.
Proof.
  intros Hi. pose proof (inv_at _ _ Hi) as Hx. destruct Hinv as (? & ? & ?). split_and!; try done.
  apply Forall_call; [done|]. by destruct x; simpl in *; destruct_and?.
Qed.
End step_inv.

Lemma pipe_step_inv kills s s' q : pipe_step kills s s' → pipe_inv kills s q → ∃ q', pipe_inv kills s' q'.
Proof.
  intros Hs Hinv. destruct Hs.
  - exists q. destruct Hinv as (? & ? & ?). split_and!; try done. by apply Forall_call.
  - exists q. destruct Hinv as (? & ? & ?). split_and!; try done. by apply Forall_call.
  - eexists. by eapply inv_write_done.
  - eexists. by eapply inv_write_fail.
  - eexists. by eapply inv_write_sleep.
  - eexists. by eapply inv_read_done.
  - eexists. eapply (inv_read_stop _ _ _ _ _ _ Hinv i n killed p' RFail); eauto.
  - eexists. eapply (inv_read_stop _ _ _ _ _ _ Hinv i n killed p' RSleep); eauto.
  - eexists. by apply inv_close_write.
  - eexists. by apply inv_close_read.
  - eexists. by apply inv_kill.
Qed.

Lemma pipe_steps_inv kills s s' q : rtc (pipe_step kills) s s' → pipe_inv kills s q → ∃ q', pipe_inv kills s' q'.
Proof.
  intros Hs. revert q. induction Hs as [s|s1 s2 s3 Hs _ IH]; intros q Hq; [by exists q|].
  destruct (pipe_step_inv _ _ _ _ Hs Hq) as (q' & Hq'). by apply (IH q').
Qed.

Definition pipe_boot (n : nat) : pipe_sys := PipeSys pipe0 (replicate n PIdle) [] [].

Lemma pipe_boot_inv kills n : pipe_inv kills (pipe_boot n) [].
Proof. split_and!; [apply pipe0_rep|done|]. by apply Forall_replicate. Qed.

(** C19. In every interleaving of writers and readers on a pipe, sleeps, kills
    and closes included, the bytes that readers got are the first bytes that
    writers put in, in their order; the pipe holds the others, at most
    [PIPESIZE] of them, through the wrap-around of both counters. *)
Theorem pipe_is_fifo kills n s : rtc (pipe_step kills) (pipe_boot n) s →
  ∃ q, pipe_rep (py_pipe s) q ∧ py_in s = py_out s ++ q ∧ (length q ≤ Z.to_nat PIPESIZE)%nat.
Proof.
  intros Hs. destruct (pipe_steps_inv _ _ _ _ Hs (pipe_boot_inv kills n)) as (q & Hrep & Hin & _).
  exists q. split_and!; try done. pose proof (pr_room _ _ Hrep). lia.
Qed.

(** C20. Without killed processes no process sleeps on a pipe after what it
    waits for has happened: a sleeping writer has bytes left, the pipe is full
    and its read end open; a sleeping reader means that the pipe is empty and
    its write end open.  So a reader and a writer never sleep at the same
    time. *)
Theorem pipe_no_lost_wakeup n s : rtc (pipe_step false) (pipe_boot n) s →
  (∀ i l, py_procs s !! i = Some (PSleepW l) →
    l ≠ [] ∧ pipe_full (py_pipe s) = true ∧ pp_readopen (py_pipe s) = true ∧ pp_writeopen (py_pipe s) = true) ∧
  (∀ i m, py_procs s !! i = Some (PSleepR m) →
    pipe_empty (py_pipe s) = true ∧ pp_writeopen (py_pipe s) = true ∧ pp_readopen (py_pipe s) = true) ∧
  (∀ i j l m, py_procs s !! i = Some (PSleepW l) → py_procs s !! j ≠ Some (PSleepR m)).
Proof.
  intros Hs. destruct (pipe_steps_inv _ _ _ _ Hs (pipe_boot_inv false n)) as (q & Hrep & _ & Hok).
  rewrite (pipe_full_spec _ _ Hrep), (pipe_empty_spec _ _ Hrep).
  assert (HW : ∀ i l, py_procs s !! i = Some (PSleepW l) → l ≠ [] ∧ length q = Z.to_nat PIPESIZE ∧
    pp_readopen (py_pipe s) = true ∧ pp_writeopen (py_pipe s) = true).
  { intros i l Hi. by destruct (Forall_lookup_1 _ _ _ _ Hok Hi) as (? & ? & ? & ?). }
  assert (HR : ∀ i m, py_procs s !! i = Some (PSleepR m) → q = [] ∧ pp_writeopen (py_pipe s) = true ∧
    pp_readopen (py_pipe s) = true).
  { intros i m Hi. destruct (Forall_lookup_1 _ _ _ _ Hok Hi) as (? & Hx). by destruct Hx. }
  split_and!.
  - intros i l Hi. destruct (HW i l Hi) as (? & ? & ? & ?). by rewrite bool_decide_true.
  - intros i m Hi. destruct (HR i m Hi) as (? & ? & ?). by rewrite bool_decide_true.
  - intros i j l m Hi Hj. destruct (HW i l Hi) as (_ & Hq & _). destruct (HR j m Hj) as [-> _]. done.
Qed.

(** * A write completes *)

(** A step of a system in which both ends stay open and process [j] is the
    only one that makes calls: reads of [n] bytes, one after the other. *)
Definition copying (j n : nat) (s s' : pipe_sys) : Prop :=
  pipe_step false s s' ∧ pp_readopen (py_pipe s') = true ∧ pp_writeopen (py_pipe s') = true ∧
  ∀ k, py_procs s !! k = Some PIdle → py_procs s' !! k = Some PIdle ∨ k = j ∧ py_procs s' !! k = Some (PRead n).

Definition unwritten (x : pstat) : list Z := match x with PWrite l | PSleepW l => l | _ => [] end.

(** Process [i] writes, process [j] reads, the others are idle. *)
Definition two_procs (N i j : nat) (x y : pstat) : list pstat := <[j := y]> (<[i := x]> (replicate N PIdle)).

Definition writer_stat (x : pstat) : Prop := match x with PWrite _ | PSleepW _ | PIdle => True | _ => False end.
Definition reader_stat (n : nat) (x : pstat) : Prop := x = PIdle ∨ x = PRead n ∨ x = PSleepR n.

Lemma not_killed (k : bool) : (k = true → false = true) → k = false.
Proof. destruct k; [|done]. intros H. discriminate H. done. Qed.

Section copying.
Variables (N i j n : nat).
Hypotheses (Hi : (i < N)%nat) (Hj : (j < N)%nat) (Hij : i ≠ j) (Hn : (0 < n)%nat).

Record copy_inv (total : list Z) (s : pipe_sys) (x y : pstat) (q : list Z) : Prop := {
  ci_inv : pipe_inv false s q;
  ci_ends : pp_readopen (py_pipe s) = true ∧ pp_writeopen (py_pipe s) = true;
  ci_procs : py_procs s = two_procs N i j x y;
  ci_writer : writer_stat x;
  ci_reader : reader_stat n y;
  ci_total : py_in s ++ unwritten x = total
}.

(** What is left to do: every step makes it smaller. *)
Definition copy_measure (x y : pstat) (q : list Z) : nat :=
  10 * (length q + length (unwritten x)) + (match x with PWrite _ => 3 | _ => 0 end) +
  (match y with PIdle => 2 | PRead _ => 1 | _ => 0 end).

Lemma two_procs_i x y : two_procs N i j x y !! i = Some x.
Proof. unfold two_procs. rewrite list_lookup_insert_ne, list_lookup_insert_eq; rewrite ?length_replicate; done. Qed.
Lemma two_procs_j x y : two_procs N i j x y !! j = Some y.
Proof. unfold two_procs. rewrite list_lookup_insert_eq; [done|]. by rewrite length_insert, length_replicate. Qed.
Lemma two_procs_other x y k z : two_procs N i j x y !! k = Some z → k ≠ i → k ≠ j → z = PIdle.
Proof.
  intros Hk ??. unfold two_procs in Hk. rewrite !list_lookup_insert_ne in Hk by done.
  by apply lookup_replicate in Hk as [-> _].
Qed.
Lemma two_procs_set_i x y x' : <[i := x']> (two_procs N i j x y) = two_procs N i j x' y.
Proof. unfold two_procs. by rewrite (list_insert_insert_ne _ i j) by done; rewrite list_insert_insert_eq. Qed.
Lemma two_procs_set_j x y y' : <[j := y']> (two_procs N i j x y) = two_procs N i j x y'.
Proof. unfold two_procs. by rewrite list_insert_insert_eq. Qed.
Lemma two_procs_fmap f x y : f PIdle = PIdle → f <$> two_procs N i j x y = two_procs N i j (f x) (f y).
Proof. intros Hf. unfold two_procs. by rewrite !list_fmap_insert, fmap_replicate, Hf. Qed.

(** Who runs is the writer or the reader. *)
Lemma two_procs_inv x y k z : two_procs N i j x y !! k = Some z → z ≠ PIdle → k = i ∧ z = x ∨ k = j ∧ z = y.
Proof.
  intros Hk Hz. destruct (decide (k = i)) as [->|?].
  { left. rewrite two_procs_i in Hk. by injection Hk. }
  destruct (decide (k = j)) as [->|?].
  { right. rewrite two_procs_j in Hk. by injection Hk. }
  by apply two_procs_other in Hk.
Qed.

Lemma two_procs_write x y k l : writer_stat x → reader_stat n y → two_procs N i j x y !! k = Some (PWrite l) →
  k = i ∧ x = PWrite l.
Proof. intros Hx Hy Hk. apply two_procs_inv in Hk as [[-> <-]|[_ <-]]; [done| |done]. by destruct Hy as [|[|]]. Qed.
Lemma two_procs_read x y k m : writer_stat x → two_procs N i j x y !! k = Some (PRead m) → k = j ∧ y = PRead m.
Proof. intros Hx Hk. by apply two_procs_inv in Hk as [[_ <-]|[-> <-]]. Qed.

(** A finished write leaves nothing to write and wakes the reader. *)
Lemma copy_write_done total p p' x y q w r l : copy_inv total (PipeSys p (two_procs N i j x y) w r) x y q →
  x = PWrite l → pipewrite_run false l p = (WDone, p') → pp_readopen p' = true ∧ pp_writeopen p' = true →
  copy_inv total (PipeSys p' (wake_readers <$> <[i := PIdle]> (two_procs N i j x y)) (w ++ l) r) PIdle (wake_readers y) (q ++ l) ∧
  (copy_measure PIdle (wake_readers y) (q ++ l) < copy_measure x y q)%nat.
Proof.
  intros [Hinv _ _ _ Hy Ht] -> E Ho. split.
  - split; try done.
    + eapply inv_write_done; [exact Hinv|apply two_procs_i|done].
    + cbn [py_procs]. by rewrite two_procs_set_i, two_procs_fmap.
    + destruct Hy as [->|[-> | ->]]; unfold reader_stat; simpl; auto.
    + simpl in *. by rewrite app_nil_r.
  - unfold copy_measure. rewrite length_app. destruct Hy as [->|[-> | ->]]; simpl; lia.
Qed.

Lemma copy_write_sleep total p p' x y q w r put rest : copy_inv total (PipeSys p (two_procs N i j x y) w r) x y q →
  x = PWrite (put ++ rest) → pipewrite_run false (put ++ rest) p = (WSleep rest, p') →
  pp_readopen p' = true ∧ pp_writeopen p' = true →
  copy_inv total (PipeSys p' (<[i := PSleepW rest]> (wake_readers <$> two_procs N i j x y)) (w ++ put) r)
    (PSleepW rest) (wake_readers y) (q ++ put) ∧
  (copy_measure (PSleepW rest) (wake_readers y) (q ++ put) < copy_measure x y q)%nat.
Proof.
  intros [Hinv _ _ _ Hy Ht] -> E Ho. split.
  - split; try done.
    + eapply inv_write_sleep; [exact Hinv|apply two_procs_i|done].
    + cbn [py_procs]. by rewrite two_procs_fmap, two_procs_set_i.
    + destruct Hy as [->|[-> | ->]]; unfold reader_stat; simpl; auto.
    + simpl in *. by rewrite <- app_assoc.
  - unfold copy_measure. cbn [unwritten]. rewrite !length_app. destruct Hy as [->|[-> | ->]]; simpl; lia.
Qed.

(** A finished read took a byte and wakes the writer. *)
Lemma copy_read_done total p p' x y q w r bytes : copy_inv total (PipeSys p (two_procs N i j x y) w r) x y q →
  y = PRead n → piperead_run false n p = (RDone bytes, p') → pp_readopen p' = true ∧ pp_writeopen p' = true →
  copy_inv total (PipeSys p' (wake_writers <$> <[j := PIdle]> (two_procs N i j x y)) w (r ++ bytes))
    (wake_writers x) PIdle (drop n q) ∧
  (copy_measure (wake_writers x) PIdle (drop n q) < copy_measure x y q)%nat.
Proof.
  intros [Hinv [_ Hw] _ Hx _ Ht] -> E Ho. pose proof (inv_read_done _ _ _ _ _ _ Hinv j n false bytes p' E) as Hinv'. split.
  - split; try done.
    + cbn [py_procs]. by rewrite two_procs_set_j, two_procs_fmap.
    + by destruct x.
    + by left.
    + by destruct x.
  - destruct (piperead_run_rep false n p q (inv_rep _ _ _ _ _ _ Hinv)) as (p1 & E1 & _).
    rewrite E in E1. case_decide as Hd; [done|]. simpl in Hw.
    assert (Hq : (0 < length q)%nat) by (destruct q; [by destruct Hd|simpl; lia]).
    unfold copy_measure. rewrite length_drop. destruct x; simpl; lia.
Qed.

Lemma copy_read_sleep total p p' x y q w r : copy_inv total (PipeSys p (two_procs N i j x y) w r) x y q →
  y = PRead n → piperead_run false n p = (RSleep, p') → pp_readopen p' = true ∧ pp_writeopen p' = true →
  copy_inv total (PipeSys p' (<[j := PSleepR n]> (two_procs N i j x y)) w r) x (PSleepR n) q ∧
  (copy_measure x (PSleepR n) q < copy_measure x y q)%nat.
Proof.
  intros [Hinv _ _ Hx _ Ht] -> E Ho. split.
  - split; try done.
    + eapply (inv_read_stop _ _ _ _ _ _ Hinv j n false p' RSleep); [apply two_procs_j|done|by right].
    + cbn [py_procs]. by rewrite two_procs_set_j.
    + by right; right.
  - unfold copy_measure. simpl. lia.
Qed.

Lemma copying_inv total s s' x y q : copy_inv total s x y q → copying j n s s' →
  ∃ x' y' q', copy_inv total s' x' y' q' ∧ (copy_measure x' y' q' < copy_measure x y q)%nat.
Proof.
  intros Hc (Hs & Hro & Hwo & Hcall). pose proof (ci_ends _ _ _ _ _ Hc) as Hends. pose proof (ci_writer _ _ _ _ _ Hc) as Hx.
  pose proof (ci_reader _ _ _ _ _ Hc) as Hy. pose proof (ci_procs _ _ _ _ _ Hc) as Hp.
  destruct Hs; cbn [py_procs py_pipe] in *; subst l; repeat match goal with H : _ → false = true |- _ => apply not_killed in H; subst end.
  - exfalso. specialize (Hcall _ H). rewrite list_lookup_insert_eq in Hcall by (by eapply lookup_lt_Some).
    by destruct Hcall as [|[_ ?]].
  - specialize (Hcall _ H). rewrite list_lookup_insert_eq in Hcall by (by eapply lookup_lt_Some).
    destruct Hcall as [?|[-> [= ->]]]; [done|]. rewrite two_procs_j in H. injection H as ->.
    exists x, (PRead n), q. split; [|unfold copy_measure; simpl; lia]. destruct Hc as [(? & ? & ?) ? _ _ _ ?]. split; try done.
    + split_and!; try done. by apply Forall_call.
    + cbn [py_procs]. by rewrite two_procs_set_j.
    + by right; left.
  - apply two_procs_write in H as [-> ->]; [|done..]. do 3 eexists. by eapply copy_write_done.
  - exfalso. destruct (inv_write_stop _ _ _ _ _ _ (ci_inv _ _ _ _ _ Hc) _ _ _ _ _ H1) as (_ & _ & _ & _ & _ & _ & E); [by left|].
    unfold write_end in E. case_decide; [done|]. by rewrite (proj1 Hends) in E.
  - apply two_procs_write in H as [-> ->]; [|done..]. do 3 eexists. by eapply copy_write_sleep.
  - apply two_procs_read in H as [-> ->]; [|done..]. destruct Hy as [|[[= ->]|]]; [done| |done].
    do 3 eexists. by eapply copy_read_done.
  - exfalso. destruct (piperead_run_rep false n0 p q (inv_rep _ _ _ _ _ _ (ci_inv _ _ _ _ _ Hc))) as (p1 & E1 & _).
    rewrite H1 in E1. by case_decide.
  - apply two_procs_read in H as [-> ->]; [|done..]. destruct Hy as [|[[= ->]|]]; [done| |done].
    do 3 eexists. by eapply copy_read_sleep.
  - done.
  - done.
  - done.
Qed.

Lemma copying_sn total s x y q : copy_inv total s x y q → sn (copying j n) s.
Proof.
  remember (copy_measure x y q) as m eqn:Hm. revert s x y q Hm.
  induction (lt_wf m) as [m _ IH]. intros s x y q -> Hc. constructor. intros s' Hs.
  destruct (copying_inv _ _ _ _ _ _ Hc Hs) as (x' & y' & q' & Hc' & Hlt). by eapply IH.
Qed.

Lemma copying_steps_inv total s s' x y q : rtc (copying j n) s s' → copy_inv total s x y q →
  ∃ x' y' q', copy_inv total s' x' y' q'.
Proof.
  intros Hs. revert x y q. induction Hs as [s|s1 s2 s3 Hs _ IH]; intros x y q Hc; [by eauto|].
  destruct (copying_inv _ _ _ _ _ _ Hc Hs) as (x' & y' & q' & Hc' & _). by eapply IH.
Qed.

(** Where no step is left, the reader has everything. *)
Lemma copying_nf total s x y q : copy_inv total s x y q → nf (copying j n) s →
  x = PIdle ∧ y = PSleepR n ∧ q = [].
Proof.
  intros [Hinv [Hro Hwo] Hp Hx Hy Ht] Hnf. destruct s as [p l w r]. simpl in *. subst l.
  destruct (piperead_run_rep false n p q (inv_rep _ _ _ _ _ _ Hinv)) as (p1 & E1 & _ & Hro1 & Hwo1).
  assert (Hsleep : y = PSleepR n).
  { destruct Hy as [->|[-> | ->]]; [exfalso|exfalso|done].
    - apply Hnf. eexists. split; [apply (ps_call_read _ _ _ j _ _ n); [apply two_procs_j|done]|]. split_and!; try done.
      intros k Hk. cbn [py_procs] in *. destruct (decide (k = j)) as [->|?].
      + right. split; [done|]. rewrite two_procs_set_j. apply two_procs_j.
      + left. by rewrite list_lookup_insert_ne.
    - apply Hnf. case_decide.
      + eexists. split; [by eapply (ps_read_sleep _ _ _ _ j _ _ n false); [apply two_procs_j| |exact E1]|].
        simpl. split_and!; [congruence..|]. intros k Hk. left. rewrite list_lookup_insert_ne; [done|].
        intros <-. by rewrite two_procs_j in Hk.
      + eexists. split; [by eapply (ps_read_done _ _ _ _ j _ _ n false); [apply two_procs_j| |exact E1]|].
        simpl. split_and!; [congruence..|]. intros k Hk. left. rewrite list_lookup_fmap, list_lookup_insert_ne, Hk; [done|].
        intros <-. by rewrite two_procs_j in Hk. }
  subst y. assert (Hq : q = []).
  { destruct (inv_at _ _ _ _ _ _ Hinv _ _ (two_procs_j _ _)) as [_ Hq]. by apply Hq. }
  subst q. split_and!; [|done|done]. destruct x as [|l| |l|]; try done; exfalso.
  - apply Hnf. destruct (pipewrite_run_rep false l p [] (inv_rep _ _ _ _ _ _ Hinv)) as (p2 & E2 & _ & Hro2 & Hwo2).
    assert (Hk : ∀ z k, two_procs N i j (PWrite l) (PSleepR n) !! k = Some PIdle →
      <[i := z]> (two_procs N i j (PWrite l) (PSleepR n)) !! k = Some PIdle).
    { intros z k Hk. rewrite list_lookup_insert_ne; [done|]. intros <-. by rewrite two_procs_i in Hk. }
    unfold write_end in E2. rewrite Hro in E2. case_decide.
    + eexists. split; [by eapply (ps_write_done _ _ _ _ i _ _ l false); [apply two_procs_i| |exact E2]|].
      simpl. split_and!; [congruence..|]. intros k Hl. left. by rewrite list_lookup_fmap, Hk.
    + eexists. split.
      { eapply (ps_write_sleep _ _ _ _ i _ _ (take (room []) l) (drop (room []) l) false).
        - rewrite take_drop. apply two_procs_i.
        - done.
        - by rewrite take_drop. }
      simpl. split_and!; [congruence..|]. intros k Hl. left.
      rewrite list_lookup_insert_ne; [by rewrite list_lookup_fmap, Hl|]. intros <-. by rewrite two_procs_i in Hl.
  - by destruct (inv_at _ _ _ _ _ _ Hinv _ _ (two_procs_i _ _)) as (_ & _ & _ & ?).
Qed.
End copying.

(** C21. A write of any length returns, by the sleeps and wakeups of the code
    alone.  From any state reached without kills in which both ends are open,
    process [i] is in a write of [addr] and the others are in no call, let
    process [j] read [n] bytes again and again.  Then every run is finite, and
    where it cannot go on the write has returned, the reader sleeps on an empty
    pipe, and the readers got the bytes put in before, then those of [addr]. *)
Theorem pipe_write_completes N i j n addr s : (0 < n)%nat → i ≠ j → (i < N)%nat → (j < N)%nat →
  rtc (pipe_step false) (pipe_boot N) s → py_procs s = <[i := PWrite addr]> (replicate N PIdle) →
  pp_readopen (py_pipe s) = true → pp_writeopen (py_pipe s) = true →
  sn (copying j n) s ∧
  ∀ s', rtc (copying j n) s s' → nf (copying j n) s' →
    py_procs s' = <[j := PSleepR n]> (replicate N PIdle) ∧ pipe_empty (py_pipe s') = true ∧
    py_out s' = py_in s ++ addr.
Proof.
  intros Hn Hij Hi Hj Hs Hp Hro Hwo. destruct (pipe_steps_inv _ _ _ _ Hs (pipe_boot_inv false N)) as (q & Hinv).
  assert (Hc : copy_inv N i j n (py_in s ++ addr) s (PWrite addr) PIdle q).
  { split; try done; [|by left]. rewrite Hp. unfold two_procs. rewrite (list_insert_id _ j); [done|].
    rewrite list_lookup_insert_ne by done. by apply lookup_replicate_2. }
  split; [exact (copying_sn N i j n Hi Hj Hij Hn _ _ _ _ _ Hc)|]. intros s' Hs' Hnf.
  destruct (copying_steps_inv N i j n Hi Hj Hij Hn _ _ _ _ _ _ Hs' Hc) as (x & y & q' & Hc').
  destruct (copying_nf N i j n Hi Hj Hij _ _ _ _ _ Hc' Hnf) as (-> & -> & ->).
  destruct Hc' as [(Hrep & Hin & _) _ -> _ _ Ht]. simpl in Ht. rewrite app_nil_r in Hin, Ht. split_and!.
  - unfold two_procs. by rewrite (list_insert_id (replicate _ _)) by by apply lookup_replicate_2.
  - by rewrite (pipe_empty_spec _ _ Hrep), bool_decide_true.
  - by rewrite <- Hin, Ht.
Qed.

(** A killed writer can leave a reader asleep on a full pipe: [pipewrite]
    returns -1 without waking the readers. *)
Lemma pipe_killed_writer_no_wakeup : ∃ s, rtc (pipe_step true) (pipe_boot 2) s ∧
  py_procs s = [PSleepR 1; PIdle] ∧ pipe_full (py_pipe s) = true.
Proof.
  destruct (pipewrite_run_rep true (replicate 512 7 ++ [7]) pipe0 [] pipe0_rep) as (p' & E & Hp' & _).
  exists (PipeSys p' [PSleepR 1; PIdle] (replicate 512 7) []). split_and!; [|done|].
  - eapply rtc_l; [by apply (ps_call_read _ _ _ 0 _ _ 1)|]. eapply rtc_l; [by apply (ps_read_sleep _ _ pipe0 _ 0 _ _ 1 false)|].
    eapply rtc_l; [by apply (ps_call_write _ _ _ 1 _ _ (replicate 512 7 ++ [7]))|]. apply rtc_once.
    by apply (ps_write_fail true pipe0 p' [PSleepR 1; PWrite (replicate 512 7 ++ [7])] 1 [] [] (replicate 512 7) [7] true).
  - cbn [py_pipe]. rewrite (pipe_full_spec _ _ Hp'). reflexivity.
Qed.

Lemma pipe_is_fifo_witness : ∃ s, rtc (pipe_step true) (pipe_boot 1) s ∧ py_in s = [5; 6] ∧
  ∃ q, py_in s = py_out s ++ q.
Proof.
  set (p' := (pipewrite_run false [5; 6] pipe0).2). set (s := PipeSys p' [PIdle] [5; 6] []).
  assert (Hs : rtc (pipe_step true) (pipe_boot 1) s).
  { eapply rtc_l; [by apply (ps_call_write _ _ _ 0 _ _ [5; 6])|]. apply rtc_once.
    by apply (ps_write_done _ pipe0 p' [PWrite [5; 6]] 0 [] [] [5; 6] false). }
  exists s. split_and!; try done. destruct (pipe_is_fifo true 1 s Hs) as (q & _ & Hq & _). by exists q.
Defined.

Lemma pipe_no_lost_wakeup_witness : ∃ s, rtc (pipe_step false) (pipe_boot 1) s ∧
  py_procs s !! 0%nat = Some (PSleepR 1) ∧ pipe_empty (py_pipe s) = true.
Proof.
  set (s := PipeSys pipe0 [PSleepR 1] [] []).
  assert (Hs : rtc (pipe_step false) (pipe_boot 1) s).
  { eapply rtc_l; [by apply (ps_call_read _ _ _ 0 _ _ 1)|]. apply rtc_once.
    by apply (ps_read_sleep _ pipe0 pipe0 [PRead 1] 0 [] [] 1 false). }
  destruct (pipe_no_lost_wakeup 1 s Hs) as (_ & Hr & _). exists s. split_and!; [exact Hs|reflexivity|].
  exact (proj1 (Hr 0%nat 1%nat eq_refl)).
Defined.

Lemma pipe_write_completes_witness : ∃ s, rtc (pipe_step false) (pipe_boot 2) s ∧
  py_procs s = [PWrite (replicate 600 9); PIdle] ∧ sn (copying 1 1) s.
Proof.
  set (s := PipeSys pipe0 [PWrite (replicate 600 9); PIdle] [] []).
  assert (Hs : rtc (pipe_step false) (pipe_boot 2) s).
  { apply rtc_once. by apply (ps_call_write _ _ [PIdle; PIdle] 0 _ _ (replicate 600 9)). }
  exists s. split_and!; [exact Hs|reflexivity|].
  refine (proj1 (pipe_write_completes 2 0 1 1 (replicate 600 9) s _ _ _ _ Hs _ _ _)); (lia || reflexivity).
Defined.
