(* ===== verification/Proc.v ===== *)
(** Processes (proc.h, proc.c).

    [ptable.proc] is an array of [NPROC] processes; a pointer into it is an
    index, the null pointer is [None].  This file holds [struct proc], the
    functions that work on the table alone, and the life cycle of processes on
    several CPUs as a step relation: a step is what one CPU does while it holds
    [ptable.lock].  Functions that also allocate memory are in [Paging]. *)

From Stdlib Require Import ZArith Lia.
From stdpp Require Import base numbers strings option gmap sets list list_numbers relations.
From S2P Require Import Prelude Spinlock.

(** * Data *)
Definition NPROC : nat := Z.to_nat 64.
#[global] Opaque NPROC.

Inductive procstate := UNUSED | EMBRYO | SLEEPING | RUNNABLE | RUNNING | ZOMBIE.
#[export] Instance procstate_eq_dec : EqDecision procstate.
Proof. solve_decision. Defined.

Record ph_info := PhInfo { ph_filesz : Z; ph_memsz : Z; ph_vaddr : Z; ph_off : Z }.
Record inode_info := InodeInfo { ii_dev : Z; ii_inum : Z }.

(** The saved registers that the kernel uses. *)
Record trapframe := Tf { tf_eax : Z; tf_esp : Z; tf_eip : Z }.

(** Open files are indices of [ftable.file], the current directory is one of
    [icache.inode]. *)
Record proc := Proc {
  p_sz : Z;
  p_pgdir : Z;
  p_kstack : Z;
  p_state : procstate;
  p_pid : Z;
  p_parent : option nat;
  p_tf : trapframe;
  p_chan : Z;
  p_killed : Z;
  p_ofile : list (option nat);
  p_cwd : option nat;
  p_name : list Z;
  p_path : list Z;
  p_cdb_size : Z;
  p_ph : ph_info;
  p_ip : inode_info;
  p_swap_list : option nat;
  p_forked : Z;
  p_write_buffer : list Z;
  p_stack_buffer : list Z;
  p_heap_buffer : list Z
}.

Definition proc0 : proc :=
  Proc 0 0 0 UNUSED 0 None (Tf 0 0 0) 0 0 (replicate 16 None) None (replicate 16 0) (replicate 512 0) 0
    (PhInfo 0 0 0 0) (InodeInfo 0 0) None 0 (replicate (Z.to_nat 4096) 0) (replicate (Z.to_nat 4096) 0)
    (replicate (Z.to_nat 4096) 0).

Definition w_sz v p := Proc v (p_pgdir p) (p_kstack p) (p_state p) (p_pid p) (p_parent p) (p_tf p) (p_chan
  p) (p_killed p) (p_ofile p) (p_cwd p) (p_name p) (p_path p) (p_cdb_size p) (p_ph p) (p_ip p) (p_swap_list
  p) (p_forked p) (p_write_buffer p) (p_stack_buffer p) (p_heap_buffer p).
Definition w_pgdir v p := Proc (p_sz p) v (p_kstack p) (p_state p) (p_pid p) (p_parent p) (p_tf p) (p_chan
  p) (p_killed p) (p_ofile p) (p_cwd p) (p_name p) (p_path p) (p_cdb_size p) (p_ph p) (p_ip p) (p_swap_list
  p) (p_forked p) (p_write_buffer p) (p_stack_buffer p) (p_heap_buffer p).
Definition w_kstack v p := Proc (p_sz p) (p_pgdir p) v (p_state p) (p_pid p) (p_parent p) (p_tf p) (p_chan
  p) (p_killed p) (p_ofile p) (p_cwd p) (p_name p) (p_path p) (p_cdb_size p) (p_ph p) (p_ip p) (p_swap_list
  p) (p_forked p) (p_write_buffer p) (p_stack_buffer p) (p_heap_buffer p).
Definition w_state v p := Proc (p_sz p) (p_pgdir p) (p_kstack p) v (p_pid p) (p_parent p) (p_tf p) (p_chan
  p) (p_killed p) (p_ofile p) (p_cwd p) (p_name p) (p_path p) (p_cdb_size p) (p_ph p) (p_ip p) (p_swap_list
  p) (p_forked p) (p_write_buffer p) (p_stack_buffer p) (p_heap_buffer p).
Definition w_ppid v p := Proc (p_sz p) (p_pgdir p) (p_kstack p) (p_state p) v (p_parent p) (p_tf p) (p_chan
  p) (p_killed p) (p_ofile p) (p_cwd p) (p_name p) (p_path p) (p_cdb_size p) (p_ph p) (p_ip p) (p_swap_list
  p) (p_forked p) (p_write_buffer p) (p_stack_buffer p) (p_heap_buffer p).
Definition w_parent v p := Proc (p_sz p) (p_pgdir p) (p_kstack p) (p_state p) (p_pid p) v (p_tf p) (p_chan
  p) (p_killed p) (p_ofile p) (p_cwd p) (p_name p) (p_path p) (p_cdb_size p) (p_ph p) (p_ip p) (p_swap_list
  p) (p_forked p) (p_write_buffer p) (p_stack_buffer p) (p_heap_buffer p).
Definition w_tf v p := Proc (p_sz p) (p_pgdir p) (p_kstack p) (p_state p) (p_pid p) (p_parent p) v (p_chan
  p) (p_killed p) (p_ofile p) (p_cwd p) (p_name p) (p_path p) (p_cdb_size p) (p_ph p) (p_ip p) (p_swap_list
  p) (p_forked p) (p_write_buffer p) (p_stack_buffer p) (p_heap_buffer p).
Definition w_chan v p := Proc (p_sz p) (p_pgdir p) (p_kstack p) (p_state p) (p_pid p) (p_parent p) (p_tf p)
  v (p_killed p) (p_ofile p) (p_cwd p) (p_name p) (p_path p) (p_cdb_size p) (p_ph p) (p_ip p) (p_swap_list
  p) (p_forked p) (p_write_buffer p) (p_stack_buffer p) (p_heap_buffer p).
Definition w_killed v p := Proc (p_sz p) (p_pgdir p) (p_kstack p) (p_state p) (p_pid p) (p_parent p) (p_tf
  p) (p_chan p) v (p_ofile p) (p_cwd p) (p_name p) (p_path p) (p_cdb_size p) (p_ph p) (p_ip p) (p_swap_list
  p) (p_forked p) (p_write_buffer p) (p_stack_buffer p) (p_heap_buffer p).
Definition w_ofile v p := Proc (p_sz p) (p_pgdir p) (p_kstack p) (p_state p) (p_pid p) (p_parent p) (p_tf p)
  (p_chan p) (p_killed p) v (p_cwd p) (p_name p) (p_path p) (p_cdb_size p) (p_ph p) (p_ip p) (p_swap_list p)
  (p_forked p) (p_write_buffer p) (p_stack_buffer p) (p_heap_buffer p).
Definition w_cwd v p := Proc (p_sz p) (p_pgdir p) (p_kstack p) (p_state p) (p_pid p) (p_parent p) (p_tf p)
  (p_chan p) (p_killed p) (p_ofile p) v (p_name p) (p_path p) (p_cdb_size p) (p_ph p) (p_ip p) (p_swap_list
  p) (p_forked p) (p_write_buffer p) (p_stack_buffer p) (p_heap_buffer p).
Definition w_name v p := Proc (p_sz p) (p_pgdir p) (p_kstack p) (p_state p) (p_pid p) (p_parent p) (p_tf p)
  (p_chan p) (p_killed p) (p_ofile p) (p_cwd p) v (p_path p) (p_cdb_size p) (p_ph p) (p_ip p) (p_swap_list
  p) (p_forked p) (p_write_buffer p) (p_stack_buffer p) (p_heap_buffer p).
Definition w_path v p := Proc (p_sz p) (p_pgdir p) (p_kstack p) (p_state p) (p_pid p) (p_parent p) (p_tf p)
  (p_chan p) (p_killed p) (p_ofile p) (p_cwd p) (p_name p) v (p_cdb_size p) (p_ph p) (p_ip p) (p_swap_list
  p) (p_forked p) (p_write_buffer p) (p_stack_buffer p) (p_heap_buffer p).
Definition w_cdb_size v p := Proc (p_sz p) (p_pgdir p) (p_kstack p) (p_state p) (p_pid p) (p_parent p) (p_tf
  p) (p_chan p) (p_killed p) (p_ofile p) (p_cwd p) (p_name p) (p_path p) v (p_ph p) (p_ip p) (p_swap_list p)
  (p_forked p) (p_write_buffer p) (p_stack_buffer p) (p_heap_buffer p).
Definition w_ph v p := Proc (p_sz p) (p_pgdir p) (p_kstack p) (p_state p) (p_pid p) (p_parent p) (p_tf p)
  (p_chan p) (p_killed p) (p_ofile p) (p_cwd p) (p_name p) (p_path p) (p_cdb_size p) v (p_ip p) (p_swap_list
  p) (p_forked p) (p_write_buffer p) (p_stack_buffer p) (p_heap_buffer p).
Definition w_ip v p := Proc (p_sz p) (p_pgdir p) (p_kstack p) (p_state p) (p_pid p) (p_parent p) (p_tf p)
  (p_chan p) (p_killed p) (p_ofile p) (p_cwd p) (p_name p) (p_path p) (p_cdb_size p) (p_ph p) v (p_swap_list
  p) (p_forked p) (p_write_buffer p) (p_stack_buffer p) (p_heap_buffer p).
Definition w_swap_list v p := Proc (p_sz p) (p_pgdir p) (p_kstack p) (p_state p) (p_pid p) (p_parent p)
  (p_tf p) (p_chan p) (p_killed p) (p_ofile p) (p_cwd p) (p_name p) (p_path p) (p_cdb_size p) (p_ph p) (p_ip
  p) v (p_forked p) (p_write_buffer p) (p_stack_buffer p) (p_heap_buffer p).
Definition w_forked v p := Proc (p_sz p) (p_pgdir p) (p_kstack p) (p_state p) (p_pid p) (p_parent p) (p_tf
  p) (p_chan p) (p_killed p) (p_ofile p) (p_cwd p) (p_name p) (p_path p) (p_cdb_size p) (p_ph p) (p_ip p)
  (p_swap_list p) v (p_write_buffer p) (p_stack_buffer p) (p_heap_buffer p).
Definition w_write_buffer v p := Proc (p_sz p) (p_pgdir p) (p_kstack p) (p_state p) (p_pid p) (p_parent p)
  (p_tf p) (p_chan p) (p_killed p) (p_ofile p) (p_cwd p) (p_name p) (p_path p) (p_cdb_size p) (p_ph p) (p_ip
  p) (p_swap_list p) (p_forked p) v (p_stack_buffer p) (p_heap_buffer p).
Definition w_stack_buffer v p := Proc (p_sz p) (p_pgdir p) (p_kstack p) (p_state p) (p_pid p) (p_parent p)
  (p_tf p) (p_chan p) (p_killed p) (p_ofile p) (p_cwd p) (p_name p) (p_path p) (p_cdb_size p) (p_ph p) (p_ip
  p) (p_swap_list p) (p_forked p) (p_write_buffer p) v (p_heap_buffer p).
Definition w_heap_buffer v p := Proc (p_sz p) (p_pgdir p) (p_kstack p) (p_state p) (p_pid p) (p_parent p)
  (p_tf p) (p_chan p) (p_killed p) (p_ofile p) (p_cwd p) (p_name p) (p_path p) (p_cdb_size p) (p_ph p) (p_ip
  p) (p_swap_list p) (p_forked p) (p_write_buffer p) (p_stack_buffer p) v.

Record ptable_state := Ptable {
  pt_proc : list proc;
  pt_lock : bool;
  nextpid : Z;
  initproc : option nat
}.

Definition pt_lk : lens ptable_state bool :=
  Lens pt_lock (λ b s, Ptable (pt_proc s) b (nextpid s) (initproc s)).
Definition pt_arr : lens ptable_state (list proc) :=
  Lens pt_proc (λ l s, Ptable l (pt_lock s) (nextpid s) (initproc s)).

Definition pget {T} (i : nat) (f : proc → T) : M ptable_state T := λ s,
  match pt_proc s !! i with Some p => Ok (f p, s) | None => Fault end.
Definition pset (i : nat) (g : proc → proc) : M ptable_state unit := λ s,
  match pt_proc s !! i with
  | Some p => Ok (tt, put pt_arr (<[i := g p]> (pt_proc s)) s)
  | None => Fault
  end.

(** * Operations *)

(** The first process a test holds of: the scans over [ptable.proc]. *)
Definition pfind (f : proc → bool) (l : list proc) : option nat :=
  fst <$> list_find (λ p, f p = true) l.

Definition get_proc (pid : Z) : M ptable_state (option nat) :=
  mget (λ s, pfind (λ p, p_pid p =? pid) (pt_proc s)).

Definition wakeup1_proc (chan : Z) (p : proc) : proc :=
  if bool_decide (p_state p = SLEEPING) && (p_chan p =? chan) then w_state RUNNABLE p else p.

Definition wakeup1 (chan : Z) : M ptable_state unit :=
  mmod (λ s, put pt_arr (wakeup1_proc chan <$> pt_proc s) s).

Definition wakeup (chan : Z) : M ptable_state unit :=
  acquire pt_lk;; wakeup1 chan;; release pt_lk.

Definition kill (pid : Z) : M ptable_state Z :=
  acquire pt_lk;;
  r ← get_proc pid;
  match r with
  | Some i =>
      pset i (w_killed 1);;
      st ← pget i p_state;
      (if decide (st = SLEEPING) then pset i (w_state RUNNABLE) else mret tt);;
      release pt_lk;;
      mret 0
  | None => release pt_lk;; mret (-1)
  end.

(** The part of [allocproc] under [ptable.lock]. *)
Definition allocproc_slot : M ptable_state (option nat) :=
  acquire pt_lk;;
  r ← mget (λ s, pfind (λ p, bool_decide (p_state p = UNUSED)) (pt_proc s));
  match r with
  | None => release pt_lk;; mret None
  | Some i =>
      pset i (w_state EMBRYO);;
      n ← mget nextpid;
      pset i (w_ppid n);;
      mmod (λ s, Ptable (pt_proc s) (pt_lock s) (s32 (nextpid s + 1)) (initproc s));;
      release pt_lk;;
      mret (Some i)
  end.

(** The address of a process as a sleep channel: [&ptable.proc[i]]; 0 is the
    null pointer. *)
Definition proc_chan (i : option nat) : Z :=
  match i with Some i => Z.of_nat i + 1 | None => 0 end.

(** [exit] from the acquire on: wake the parent, hand the children to init. *)
Definition exit_child (i cur : nat) : M ptable_state unit :=
  par ← pget i p_parent;
  if decide (par = Some cur) then
    init ← mget initproc;
    pset i (w_parent init);;
    st ← pget i p_state;
    if decide (st = ZOMBIE) then wakeup1 (proc_chan init) else mret tt
  else mret tt.

Fixpoint exit_loop (n i cur : nat) : M ptable_state unit :=
  match n with
  | O => mret tt
  | S n => exit_child i cur;; exit_loop n (S i) cur
  end.

Definition exit_table (cur : nat) : M ptable_state unit :=
  init ← mget initproc;
  if decide (init = Some cur) then mpanic "init exiting"
  else
    acquire pt_lk;;
    par ← pget cur p_parent;
    wakeup1 (proc_chan par);;
    exit_loop NPROC 0 cur;;
    pset cur (w_state ZOMBIE).

(** One pass of the scan of [wait]: the first zombie child, and whether there
    is a child. *)
Definition wait_scan (cur : nat) : M ptable_state (option nat * bool) :=
  mget (λ s,
    (pfind (λ p, bool_decide (p_parent p = Some cur) && bool_decide (p_state p = ZOMBIE)) (pt_proc s),
     existsb (λ p, bool_decide (p_parent p = Some cur)) (pt_proc s))).

(** The entry [wait] clears. *)
Definition reap (p : proc) : proc :=
  w_state UNUSED (w_killed 0 (w_name (match p_name p with [] => [] | _ :: l => 0 :: l end)
    (w_parent None (w_ppid 0 p)))).

(** * What the operations do *)

(** A process, or the same woken up. *)
Definition woken (p p' : proc) : Prop :=
  p' = p ∨ p_state p = SLEEPING ∧ p' = w_state RUNNABLE p.

Lemma wakeup1_proc_woken chan p : woken p (wakeup1_proc chan p).
Proof.
  unfold wakeup1_proc. destruct (bool_decide_reflect (p_state p = SLEEPING)) as [E|E];
    [|by left]. simpl. destruct (p_chan p =? chan); [by right|by left].
Qed.

Lemma woken_trans p q r : woken p q → woken q r → woken p r.
Proof. intros [->|[E ->]] [->|[E' ->]]; [by left|by right|by right|by simpl in E']. Qed.

Lemma pset_Ok s i p g : pt_proc s !! i = Some p →
  pset i g s = Ok (tt, put pt_arr (<[i := g p]> (pt_proc s)) s).
Proof. intros E. unfold pset. by rewrite E. Qed.

Lemma pget_Ok {T} s i p (f : proc → T) : pt_proc s !! i = Some p → pget i f s = Ok (f p, s).
Proof. intros E. unfold pget. by rewrite E. Qed.

Lemma pfind_Some f l i : pfind f l = Some i →
  ∃ p, l !! i = Some p ∧ f p = true ∧ ∀ j q, (j < i)%nat → l !! j = Some q → f q = false.
Proof.
  unfold pfind. intros ([k p] & E & ->)%fmap_Some. apply list_find_Some in E as (E & Hf & Hmin).
  exists p. split_and!; try done. intros j q Hj Hq. specialize (Hmin j q Hq Hj). by destruct (f q).
Qed.

Lemma pfind_None f l : pfind f l = None → ∀ i p, l !! i = Some p → f p = false.
Proof.
  unfold pfind. intros E%fmap_None i p Hp. apply list_find_None in E.
  apply list_elem_of_lookup_2 in Hp. rewrite Forall_forall in E. specialize (E p Hp). by destruct (f p).
Qed.

(** A process after [exit] of [cur], its parent changed if [moved]. *)
Definition exited_child (cur : nat) (init : option nat) (moved : bool) (p p' : proc) : Prop :=
  ∃ q, woken p q ∧ p' = if moved && bool_decide (p_parent p = Some cur) then w_parent init q else q.

Lemma woken_parent p q : woken p q → p_parent q = p_parent p.
Proof. by intros [->|[_ ->]]. Qed.

(** The table changes entry by entry. *)
Definition evolves (R : nat → proc → proc → Prop) (s s' : ptable_state) : Prop :=
  pt_lock s' = pt_lock s ∧ nextpid s' = nextpid s ∧ initproc s' = initproc s ∧
  length (pt_proc s') = length (pt_proc s) ∧
  ∀ k p, pt_proc s !! k = Some p → ∃ p', pt_proc s' !! k = Some p' ∧ R k p p'.

Lemma wakeup1_evolves chan s : ∃ s', wakeup1 chan s = Ok (tt, s') ∧ evolves (λ _, woken) s s'.
Proof.
  eexists. split; [reflexivity|]. unfold evolves. simpl. rewrite length_fmap. split_and!; try done.
  intros k p Hp. exists (wakeup1_proc chan p). rewrite list_lookup_fmap, Hp. split; [done|].
  apply wakeup1_proc_woken.
Qed.

Lemma exit_child_evolves i cur s : (i < length (pt_proc s))%nat →
  ∃ s', exit_child i cur s = Ok (tt, s') ∧
    evolves (λ k, exited_child cur (initproc s) (bool_decide (k = i))) s s'.
Proof.
  intros Hi. destruct (lookup_lt_is_Some_2 _ _ Hi) as [p Hp]. unfold exit_child.
  erewrite bind_Ok by (by apply pget_Ok). case_decide as Hpar.
  2: { exists s. split; [done|]. unfold evolves. split_and!; try done. intros k q Hq. exists q.
       split; [done|]. exists q. split; [by left|]. case_bool_decide; [subst k|done].
       simplify_eq. by rewrite bool_decide_false. }
  erewrite bind_Ok by reflexivity. erewrite bind_Ok by (by apply pset_Ok).
  erewrite bind_Ok by (apply pget_Ok; simpl; by apply list_lookup_insert_eq).
  set (s1 := put pt_arr _ s).
  assert (Hev : ∀ s2, evolves (λ _, woken) s1 s2 →
    evolves (λ k, exited_child cur (initproc s) (bool_decide (k = i))) s s2).
  { intros s2 (E1 & E2 & E3 & E4 & Hk). unfold evolves. simpl in E4. rewrite length_insert in E4.
    split_and!; try done. intros k q Hq. destruct (decide (k = i)) as [->|Hne].
    - destruct (Hk i (w_parent (initproc s) p)) as (q' & Hq' & Hw);
        [simpl; by apply list_lookup_insert_eq|]. exists q'. split; [done|].
      rewrite bool_decide_true by done. rewrite Hp in Hq. injection Hq as <-.
      destruct Hw as [->|[Es ->]]; [exists p; split; [by left|]|exists (w_state RUNNABLE p); split; [by right|]];
        by rewrite bool_decide_true.
    - destruct (Hk k q) as (q' & Hq' & Hw); [simpl; by rewrite list_lookup_insert_ne|].
      exists q'. split; [done|]. exists q'. by rewrite bool_decide_false. }
  case_decide.
  - destruct (wakeup1_evolves (proc_chan (initproc s)) s1) as (s2 & -> & Hs2). eauto.
  - exists s1. split; [done|]. apply Hev. unfold evolves. split_and!; try done.
    intros k q Hq. exists q. split; [done|by left].
Qed.

Lemma exit_loop_evolves n i cur s : (i + n = length (pt_proc s))%nat → initproc s ≠ Some cur →
  ∃ s', exit_loop n i cur s = Ok (tt, s') ∧
    evolves (λ k, exited_child cur (initproc s) (bool_decide (i ≤ k)%nat)) s s'.
Proof.
  revert i s. induction n as [|n IH]; intros i s Hlen Hinit.
  { exists s. split; [done|]. unfold evolves. split_and!; try done. intros k p Hk. exists p.
    split; [done|]. exists p. split; [by left|]. apply lookup_lt_Some in Hk.
    by rewrite bool_decide_false by lia. }
  cbn [exit_loop].
  destruct (exit_child_evolves i cur s ltac:(lia)) as (s1 & E1 & El & En & Ei & Elen & Hk1).
  erewrite bind_Ok by exact E1.
  destruct (IH (S i) s1) as (s2 & -> & El2 & En2 & Ei2 & Elen2 & Hk2); [lia|congruence|].
  exists s2. split; [done|]. unfold evolves. split_and!; try congruence. intros k p Hk.
  destruct (Hk1 k p Hk) as (p1 & Hp1 & q1 & Hq1 & ->).
  destruct (Hk2 k _ Hp1) as (p2 & Hp2 & q2 & Hq2 & ->). eexists. split; [exact Hp2|].
  rewrite Ei in *. assert (Hpq : p_parent q1 = p_parent p) by (by apply woken_parent).
  assert (k = i ∨ k < i ∨ i < k)%nat as [->|[Hlt|Hgt]] by lia.
  - rewrite (bool_decide_true (i = i)), (bool_decide_false (S i ≤ i)%nat), (bool_decide_true (i ≤ i)%nat)
      in * by lia. unfold exited_child. simpl in *.
    destruct (bool_decide (p_parent p = Some cur)) eqn:Hpar.
    + destruct Hq2 as [->|[Es ->]]; [by exists q1|]. exists (w_state RUNNABLE q1). split; [|done].
      eapply woken_trans; [done|by right].
    + exists q2. split; [by eapply woken_trans|done].
  - rewrite (bool_decide_false (k = i)), (bool_decide_false (S i ≤ k)%nat), (bool_decide_false (i ≤ k)%nat)
      in * by lia. simpl in *. exists q2. split; [by eapply woken_trans|done].
  - rewrite (bool_decide_false (k = i)), (bool_decide_true (S i ≤ k)%nat), (bool_decide_true (i ≤ k)%nat)
      in * by lia. simpl in *. exists q2. rewrite Hpq. split; [by eapply woken_trans|done].
Qed.

(** Every process after [exit] of [cur]. *)
Definition after_exit (cur : nat) (init : option nat) (k : nat) (p p' : proc) : Prop :=
  ∃ q, woken p q ∧
    let r := if bool_decide (p_parent p = Some cur) then w_parent init q else q in
    p' = if bool_decide (k = cur) then w_state ZOMBIE r else r.

Lemma exit_table_spec cur s : length (pt_proc s) = NPROC → (cur < NPROC)%nat → pt_lock s = false →
  initproc s ≠ Some cur →
  ∃ s', exit_table cur s = Ok (tt, s') ∧ pt_lock s' = true ∧ nextpid s' = nextpid s ∧
    initproc s' = initproc s ∧ length (pt_proc s') = NPROC ∧
    ∀ k p, pt_proc s !! k = Some p → ∃ p', pt_proc s' !! k = Some p' ∧
      after_exit cur (initproc s) k p p'.
Proof.
  intros Hlen Hcur Hlk Hinit. unfold exit_table. erewrite bind_Ok by reflexivity.
  rewrite decide_False by done.
  erewrite bind_Ok by (unfold acquire; simpl; by rewrite Hlk).
  set (s0 := put pt_lk true s).
  destruct (lookup_lt_is_Some_2 (pt_proc s0) cur) as [pc Hpc]; [simpl; lia|].
  erewrite bind_Ok by (by apply pget_Ok).
  destruct (wakeup1_evolves (proc_chan (p_parent pc)) s0) as (s1 & E1 & El1 & En1 & Ei1 & Elen1 & Hk1).
  erewrite bind_Ok by exact E1.
  destruct (exit_loop_evolves NPROC 0 cur s1) as (s2 & E2 & El2 & En2 & Ei2 & Elen2 & Hk2).
  { simpl in Elen1. lia. }
  { by rewrite Ei1. }
  erewrite bind_Ok by exact E2.
  destruct (lookup_lt_is_Some_2 (pt_proc s2) cur) as [pc2 Hpc2]; [simpl in *; lia|].
  rewrite (pset_Ok _ _ _ _ Hpc2). eexists. split; [reflexivity|]. cbn [put pt_arr pt_lock nextpid initproc pt_proc].
  rewrite length_insert. split_and!; try (simpl in *; congruence).
  intros k p Hk. destruct (Hk1 k p Hk) as (p1 & Hp1 & Hw1).
  destruct (Hk2 k p1 Hp1) as (p2 & Hp2 & q & Hq & Ep2). rewrite bool_decide_true in Ep2 by lia. simpl in Ep2.
  rewrite Ei1 in Ep2. cbn [initproc put pt_lk s0] in Ep2.
  assert (Hpar : p_parent p1 = p_parent p) by (by apply woken_parent). rewrite Hpar in Ep2.
  destruct (decide (k = cur)) as [->|Hne].
  - rewrite list_lookup_insert_eq by (by eapply lookup_lt_Some). eexists. split; [done|].
    exists q. rewrite (bool_decide_true (cur = cur)) by done. split; [by eapply woken_trans|].
    cbv zeta. rewrite Hp2 in Hpc2. simplify_eq. done.
  - rewrite list_lookup_insert_ne by done. exists p2. split; [done|].
    exists q. rewrite (bool_decide_false (k = cur)) by done. split; [by eapply woken_trans|done].
Qed.

Lemma kill_spec pid s : pt_lock s = false →
  kill pid s = match pfind (λ p, p_pid p =? pid) (pt_proc s) with
    | Some i => Ok (0, put pt_arr (alter (λ p, let q := w_killed 1 p in
        if decide (p_state p = SLEEPING) then w_state RUNNABLE q else q) i (pt_proc s)) s)
    | None => Ok (-1, s)
    end.
Proof.
  intros Hlk. unfold kill. erewrite bind_Ok by (unfold acquire; simpl; by rewrite Hlk).
  unfold get_proc. erewrite bind_Ok by reflexivity. cbn [pt_proc put pt_lk].
  destruct (pfind _ (pt_proc s)) as [i|] eqn:E.
  - destruct (pfind_Some _ _ _ E) as (p & Hp & _ & _).
    erewrite bind_Ok by (by apply pset_Ok).
    assert (Hil : (i < length (pt_proc s))%nat) by (by eapply lookup_lt_Some).
    erewrite bind_Ok by (apply pget_Ok; simpl; by apply list_lookup_insert_eq).
    cbn [p_state w_killed]. destruct s as [l lk n ip]. simpl in Hlk, Hp, Hil |- *. subst lk.
    assert (Ha : ∀ g, alter g i l = <[i := g p]> l).
    { intros g. apply list_eq. intros j. rewrite list_lookup_alter.
      destruct (decide (i = j)) as [<-|]; [rewrite Hp, list_lookup_insert_eq by done; done|].
      by rewrite list_lookup_insert_ne. }
    rewrite Ha. case_decide.
    + erewrite bind_Ok by (apply pset_Ok; simpl; by apply list_lookup_insert_eq).
      erewrite bind_Ok by reflexivity. simpl. by rewrite list_insert_insert_eq.
    + erewrite bind_Ok by reflexivity. done.
  - erewrite bind_Ok by reflexivity. by destruct s; simpl in *; subst.
Qed.

Lemma allocproc_slot_spec s : pt_lock s = false →
  allocproc_slot s = match pfind (λ p, bool_decide (p_state p = UNUSED)) (pt_proc s) with
    | Some i => Ok (Some i, Ptable (alter (λ p, w_ppid (nextpid s) (w_state EMBRYO p)) i (pt_proc s))
        false (s32 (nextpid s + 1)) (initproc s))
    | None => Ok (None, s)
    end.
Proof.
  intros Hlk. unfold allocproc_slot. erewrite bind_Ok by (unfold acquire; simpl; by rewrite Hlk).
  erewrite bind_Ok by reflexivity. cbn [pt_proc put pt_lk].
  destruct (pfind _ (pt_proc s)) as [i|] eqn:E.
  - destruct (pfind_Some _ _ _ E) as (p & Hp & _ & _).
    assert (Hil : (i < length (pt_proc s))%nat) by (by eapply lookup_lt_Some).
    erewrite bind_Ok by (by apply pset_Ok). erewrite bind_Ok by reflexivity.
    erewrite bind_Ok by (apply pset_Ok; simpl; by apply list_lookup_insert_eq).
    erewrite bind_Ok by reflexivity. erewrite bind_Ok by reflexivity.
    destruct s as [l lk n ip]. simpl in *. subst lk. unfold mret, M_ret. do 3 f_equal.
    rewrite list_insert_insert_eq. apply list_eq. intros j. rewrite list_lookup_alter.
    destruct (decide (i = j)) as [<-|]; [rewrite Hp, list_lookup_insert_eq by done; done|].
    by rewrite list_lookup_insert_ne.
  - erewrite bind_Ok by reflexivity. by destruct s; simpl in *; subst.
Qed.

(** * The life cycle of processes *)

(** The checks of [sched] (interrupts are off while the lock is held). *)
Definition sched (cur : nat) : M ptable_state unit :=
  h ← holding pt_lk;
  if negb (h : bool) then mpanic "sched ptable.lock"
  else
    st ← pget cur p_state;
    if decide (st = RUNNING) then mpanic "sched running" else mret tt.

(** [yield], [sleep] and [exit] up to the switch to the scheduler. *)
Definition yield (cur : nat) : M ptable_state unit :=
  acquire pt_lk;; pset cur (w_state RUNNABLE);; sched cur.
Definition sleep (cur : nat) (chan : Z) : M ptable_state unit :=
  acquire pt_lk;; pset cur (w_chan chan);; pset cur (w_state SLEEPING);; sched cur.
Definition exit (cur : nat) : M ptable_state unit := exit_table cur;; sched cur.

(** The table and the process each CPU runs. *)
Record sys := Sys { sy_pt : ptable_state; sy_cpu : list (option nat) }.

Definition unlock : ptable_state → ptable_state := put pt_lk false.

Inductive pstep : sys → sys → Prop :=
| st_sched pt cpu c j p :
    cpu !! c = Some None → pt_proc pt !! j = Some p → p_state p = RUNNABLE →
    pstep (Sys pt cpu)
      (Sys (put pt_arr (<[j := w_state RUNNING p]> (pt_proc pt)) pt) (<[c := Some j]> cpu))
| st_yield pt cpu c i pt' :
    cpu !! c = Some (Some i) → yield i pt = Ok (tt, pt') →
    pstep (Sys pt cpu) (Sys (unlock pt') (<[c := None]> cpu))
| st_sleep pt cpu c i chan pt' :
    cpu !! c = Some (Some i) → sleep i chan pt = Ok (tt, pt') →
    pstep (Sys pt cpu) (Sys (unlock pt') (<[c := None]> cpu))
| st_exit pt cpu c i pt' :
    cpu !! c = Some (Some i) → exit i pt = Ok (tt, pt') →
    pstep (Sys pt cpu) (Sys (unlock pt') (<[c := None]> cpu))
| st_wakeup pt cpu chan pt' :
    wakeup chan pt = Ok (tt, pt') → pstep (Sys pt cpu) (Sys pt' cpu)
| st_kill pt cpu pid r pt' :
    kill pid pt = Ok (r, pt') → pstep (Sys pt cpu) (Sys pt' cpu)
| st_alloc pt cpu c i r pt' :
    cpu !! c = Some (Some i) → allocproc_slot pt = Ok (r, pt') →
    pstep (Sys pt cpu) (Sys pt' cpu)
| st_abort pt cpu c i j p :
    cpu !! c = Some (Some i) → pt_proc pt !! j = Some p → p_state p = EMBRYO →
    pstep (Sys pt cpu) (Sys (put pt_arr (<[j := w_state UNUSED p]> (pt_proc pt)) pt) cpu)
| st_ready pt cpu c i j p :
    cpu !! c = Some (Some i) → pt_proc pt !! j = Some p → p_state p = EMBRYO →
    pstep (Sys pt cpu)
      (Sys (put pt_arr (<[j := w_state RUNNABLE (w_parent (Some i) p)]> (pt_proc pt)) pt) cpu)
| st_reap pt cpu c i j b p :
    cpu !! c = Some (Some i) → wait_scan i pt = Ok ((Some j, b), pt) → pt_proc pt !! j = Some p →
    pstep (Sys pt cpu) (Sys (put pt_arr (<[j := reap p]> (pt_proc pt)) pt) cpu).

(** Runs with the number of pids that [allocproc] gave out on the way. *)
Definition issued (s s' : sys) : nat := if decide (nextpid (sy_pt s') = nextpid (sy_pt s)) then 0 else 1.

Inductive prun (s : sys) : nat → sys → Prop :=
| prun_refl : prun s 0 s
| prun_step k s1 s2 : prun s k s1 → pstep s1 s2 → prun s (issued s1 s2 + k) s2.

(** [nextpid] has not wrapped around: every pid up to here is new. *)
Definition pids_left (k : nat) : Prop := Z.of_nat k ≤ 2 ^ 31 - 2.

(** After [userinit]: one runnable process, init, and idle CPUs. *)
Definition sys_boot (ncpu : nat) : sys :=
  Sys (Ptable (<[0%nat := w_state RUNNABLE (w_ppid 1 proc0)]> (replicate NPROC proc0)) false 2 (Some 0%nat))
    (replicate ncpu None).

Definition alive (p : proc) : Prop :=
  p_state p = SLEEPING ∨ p_state p = RUNNABLE ∨ p_state p = RUNNING.
Definition fresh (p : proc) : Prop := p_state p = UNUSED ∨ p_state p = EMBRYO.

Record pinv (n : nat) (s : sys) : Prop := {
  pi_len : length (pt_proc (sy_pt s)) = NPROC;
  pi_lock : pt_lock (sy_pt s) = false;
  pi_next : nextpid (sy_pt s) = s32 (2 + Z.of_nat n);
  pi_cpu : ∀ c i, sy_cpu s !! c = Some (Some i) →
    ∃ p, pt_proc (sy_pt s) !! i = Some p ∧ p_state p = RUNNING;
  pi_run : ∀ i p, pt_proc (sy_pt s) !! i = Some p → p_state p = RUNNING →
    ∃ c, sy_cpu s !! c = Some (Some i);
  pi_excl : ∀ c d i, sy_cpu s !! c = Some (Some i) → sy_cpu s !! d = Some (Some i) → c = d;
  pi_pid : pids_left n → ∀ i p, pt_proc (sy_pt s) !! i = Some p → p_state p ≠ UNUSED →
    0 < p_pid p < 2 + Z.of_nat n;
  pi_uniq : pids_left n → ∀ i j p q, pt_proc (sy_pt s) !! i = Some p → pt_proc (sy_pt s) !! j = Some q →
    p_state p ≠ UNUSED → p_state q ≠ UNUSED → p_pid p = p_pid q → i = j;
  pi_init : ∃ i p, initproc (sy_pt s) = Some i ∧ pt_proc (sy_pt s) !! i = Some p ∧ alive p;
  pi_parent : ∀ i p k, pt_proc (sy_pt s) !! i = Some p → p_parent p = Some k →
    ¬ fresh p ∧ ∃ q, pt_proc (sy_pt s) !! k = Some q ∧ alive q
}.

Lemma alive_not_fresh p : alive p → ¬ fresh p.
Proof. unfold alive, fresh. intros [E|[E|E]]; rewrite E; by intros [?|?]. Qed.

(** Changes that a wakeup or a kill makes. *)
Definition mild (p p' : proc) : Prop :=
  p_pid p' = p_pid p ∧ p_parent p' = p_parent p ∧
  (p_state p' = p_state p ∨ p_state p = SLEEPING ∧ p_state p' = RUNNABLE).

Lemma mild_states p p' : mild p p' →
  (p_state p' = RUNNING ↔ p_state p = RUNNING) ∧ (p_state p' = UNUSED ↔ p_state p = UNUSED) ∧
  (alive p' ↔ alive p) ∧ (fresh p' ↔ fresh p).
Proof.
  intros (_ & _ & [E|[E1 E2]]); unfold alive, fresh; [rewrite E|rewrite E1, E2]; naive_solver.
Qed.

Lemma woken_mild p p' : woken p p' → mild p p'.
Proof. intros [->|[E ->]]; unfold mild; auto. Qed.

Lemma pinv_mild m pt cpu pt' :
  pt_lock pt' = false → nextpid pt' = nextpid pt → initproc pt' = initproc pt →
  length (pt_proc pt') = length (pt_proc pt) →
  (∀ k p, pt_proc pt !! k = Some p → ∃ p', pt_proc pt' !! k = Some p' ∧ mild p p') →
  pinv m (Sys pt cpu) → pinv m (Sys pt' cpu).
Proof.
  intros El En Ei Elen Hk [H1 H2 H3 H4 H5 H6 H7 H8 H9 H10]. simpl in *.
  assert (Hback : ∀ k p', pt_proc pt' !! k = Some p' → ∃ p, pt_proc pt !! k = Some p ∧ mild p p').
  { intros k p' Hp'. assert (Hkl : (k < length (pt_proc pt))%nat) by (rewrite <-Elen; by eapply lookup_lt_Some).
    destruct (lookup_lt_is_Some_2 _ _ Hkl) as [p Hp]. destruct (Hk k p Hp) as (q & Hq & Hm).
    exists p. by simplify_eq. }
  split; simpl; try done; try congruence; try (by rewrite En).
  - intros c i Hc. destruct (H4 c i Hc) as (p & Hp & Hs). destruct (Hk i p Hp) as (p' & Hp' & Hm).
    exists p'. split; [done|]. by apply (mild_states _ _ Hm).
  - intros i p' Hp' Hs. destruct (Hback i p' Hp') as (p & Hp & Hm). apply (H5 i p Hp).
    by apply (mild_states _ _ Hm).
  - intros Hf i p' Hp' Hs. destruct (Hback i p' Hp') as (p & Hp & Hm).
    rewrite (proj1 Hm). apply (H7 Hf i p Hp). by rewrite <-(proj1 (proj2 (mild_states _ _ Hm))).
  - intros Hf i j p' q' Hp' Hq' Hs Ht Epid.
    destruct (Hback i p' Hp') as (p & Hp & Hm), (Hback j q' Hq') as (q & Hq & Hm').
    apply (H8 Hf i j p q Hp Hq).
    + by rewrite <-(proj1 (proj2 (mild_states _ _ Hm))).
    + by rewrite <-(proj1 (proj2 (mild_states _ _ Hm'))).
    + destruct Hm as [<- _], Hm' as [<- _]. done.
  - destruct H9 as (i & p & E & Hp & Ha). destruct (Hk i p Hp) as (p' & Hp' & Hm).
    exists i, p'. rewrite Ei. split_and!; try done. by apply (mild_states _ _ Hm).
  - intros i p' k Hp' Hpar. destruct (Hback i p' Hp') as (p & Hp & Hm).
    destruct (H10 i p k Hp) as (Hnf & q & Hq & Ha); [destruct Hm as (_ & <- & _); done|].
    split; [by rewrite (proj2 (proj2 (proj2 (mild_states _ _ Hm))))|].
    destruct (Hk k q Hq) as (q' & Hq' & Hm'). exists q'. split; [done|]. by apply (mild_states _ _ Hm').
Qed.

(** Entry [i], running on CPU [c], stops running. *)
Lemma pinv_off m pt cpu c i p p' : cpu !! c = Some (Some i) → pt_proc pt !! i = Some p →
  p_pid p' = p_pid p → p_parent p' = p_parent p → alive p' → p_state p' ≠ RUNNING →
  pinv m (Sys pt cpu) →
  pinv m (Sys (put pt_arr (<[i := p']> (pt_proc pt)) pt) (<[c := None]> cpu)).
Proof.
  intros Hc Hp Epid Epar Ha Hnr [H1 H2 H3 H4 H5 H6 H7 H8 H9 H10]. simpl in *.
  assert (Hil : (i < length (pt_proc pt))%nat) by (by eapply lookup_lt_Some).
  destruct (H4 c i Hc) as (p0 & Hp0 & Hrun). simplify_eq.
  assert (Hal : ∀ k q, pt_proc pt !! k = Some q → alive q →
    ∃ q', <[i := p']> (pt_proc pt) !! k = Some q' ∧ alive q').
  { intros k q Hq Hqa. destruct (decide (i = k)) as [<-|Hne];
      [exists p'; by rewrite list_lookup_insert_eq|exists q; by rewrite list_lookup_insert_ne]. }
  split; simpl; try done.
  - by rewrite length_insert.
  - intros d j Hd. apply list_lookup_insert_Some in Hd as [(_ & ? & _)|[Hne Hd]]; [done|].
    destruct (H4 d j Hd) as (q & Hq & Hs). exists q. rewrite list_lookup_insert_ne; [done|].
    intros <-. apply Hne. by apply (H6 c d i).
  - intros j q Hq Hs. apply list_lookup_insert_Some in Hq as [(_ & <- & _)|[Hne Hq]]; [done|].
    destruct (H5 j q Hq Hs) as [d Hd]. exists d. rewrite list_lookup_insert_ne; [done|].
    intros <-. congruence.
  - intros d e j Hd He. apply list_lookup_insert_Some in Hd as [(_ & ? & _)|[Hne Hd]]; [done|].
    apply list_lookup_insert_Some in He as [(_ & ? & _)|[Hne' He]]; [done|]. by apply (H6 d e j).
  - intros Hf j q Hq Hs. apply list_lookup_insert_Some in Hq as [(-> & <- & _)|[Hne Hq]]; [|by apply (H7 Hf j)].
    rewrite Epid. apply (H7 Hf j p Hp). by rewrite Hrun.
  - intros Hf j k q r Hq Hr Hs Ht Epq.
    apply list_lookup_insert_Some in Hq as [(-> & <- & _)|[Hne Hq]];
      apply list_lookup_insert_Some in Hr as [(-> & <- & _)|[Hne' Hr]]; try done.
    + apply (H8 Hf j k p r); try done; [by rewrite Hrun|congruence].
    + apply (H8 Hf j k q p); try done; [by rewrite Hrun|congruence].
    + by apply (H8 Hf j k q r).
  - destruct H9 as (k & q & E & Hq & Hqa). destruct (Hal k q Hq Hqa) as (q' & ? & ?). by exists k, q'.
  - intros j q k Hq Hpar. apply list_lookup_insert_Some in Hq as [(-> & <- & _)|[Hne Hq]].
    + split; [by apply alive_not_fresh|].
      destruct (H10 j p k Hp) as (_ & r & Hr & Hra); [congruence|]. by apply (Hal k r).
    + destruct (H10 j q k Hq Hpar) as (Hnf & r & Hr & Hra). split; [done|]. by apply (Hal k r).
Qed.

(** CPU [c] starts to run entry [j]. *)
Lemma pinv_on m pt cpu c j p : cpu !! c = Some None → pt_proc pt !! j = Some p → p_state p = RUNNABLE →
  pinv m (Sys pt cpu) →
  pinv m (Sys (put pt_arr (<[j := w_state RUNNING p]> (pt_proc pt)) pt) (<[c := Some j]> cpu)).
Proof.
  intros Hc Hp Hst [H1 H2 H3 H4 H5 H6 H7 H8 H9 H10]. simpl in *.
  assert (Hjl : (j < length (pt_proc pt))%nat) by (by eapply lookup_lt_Some).
  assert (Hcl : (c < length cpu)%nat) by (by eapply lookup_lt_Some).
  assert (Hnone : ∀ d, cpu !! d ≠ Some (Some j)).
  { intros d Hd. destruct (H4 d j Hd) as (q & Hq & Hs). simplify_eq. congruence. }
  set (p' := w_state RUNNING p).
  assert (Hal : ∀ k q, pt_proc pt !! k = Some q → alive q →
    ∃ q', <[j := p']> (pt_proc pt) !! k = Some q' ∧ alive q').
  { intros k q Hq Hqa. destruct (decide (j = k)) as [<-|Hne];
      [exists p'; rewrite list_lookup_insert_eq by done; split; [done|by right; right]|
       exists q; by rewrite list_lookup_insert_ne]. }
  assert (Hu : p_state p ≠ UNUSED) by congruence.
  split; simpl; try done.
  - by rewrite length_insert.
  - intros d k Hd. apply list_lookup_insert_Some in Hd as [(_ & [= <-] & _)|[Hne Hd]].
    + exists p'. by rewrite list_lookup_insert_eq.
    + destruct (H4 d k Hd) as (q & Hq & Hs). exists q. rewrite list_lookup_insert_ne; [done|].
      intros <-. by apply (Hnone d).
  - intros k q Hq Hs. apply list_lookup_insert_Some in Hq as [(<- & _ & _)|[Hne Hq]].
    + exists c. by apply list_lookup_insert_eq.
    + destruct (H5 k q Hq Hs) as [d Hd]. exists d. rewrite list_lookup_insert_ne; [done|].
      intros <-. congruence.
  - intros d e k Hd He.
    apply list_lookup_insert_Some in Hd as [(<- & Hd & _)|[Hne Hd]];
      apply list_lookup_insert_Some in He as [(<- & He & _)|[Hne' He]]; simplify_eq; try done.
    + by destruct (Hnone e).
    + by destruct (Hnone d).
    + by apply (H6 d e k).
  - intros Hf k q Hq Hs. apply list_lookup_insert_Some in Hq as [(-> & <- & _)|[Hne Hq]]; [|by apply (H7 Hf k)].
    by apply (H7 Hf k p).
  - intros Hf i k q r Hq Hr Hs Ht Epq.
    apply list_lookup_insert_Some in Hq as [(-> & <- & _)|[Hne Hq]];
      apply list_lookup_insert_Some in Hr as [(-> & <- & _)|[Hne' Hr]]; try done.
    + by apply (H8 Hf i k p r).
    + by apply (H8 Hf i k q p).
    + by apply (H8 Hf i k q r).
  - destruct H9 as (k & q & E & Hq & Hqa). destruct (Hal k q Hq Hqa) as (q' & ? & ?). by exists k, q'.
  - intros i q k Hq Hpar. apply list_lookup_insert_Some in Hq as [(-> & <- & _)|[Hne Hq]].
    + destruct (H10 i p k Hp Hpar) as (_ & r & Hr & Hra). split; [by intros [?|?]|by apply (Hal k r)].
    + destruct (H10 i q k Hq Hpar) as (Hnf & r & Hr & Hra). split; [done|]. by apply (Hal k r).
Qed.

(** Entry [j], which no CPU runs, changes; [n] is the new [nextpid], after [m']
    pids in all. *)
Lemma pinv_entry m m' pt cpu j p p' n : pt_proc pt !! j = Some p → p_state p ≠ RUNNING → p_state p' ≠ RUNNING →
  n = s32 (2 + Z.of_nat m') → (m ≤ m')%nat →
  (pids_left m' → p_state p' ≠ UNUSED → 0 < p_pid p' < 2 + Z.of_nat m' ∧
     ∀ k q, k ≠ j → pt_proc pt !! k = Some q → p_state q ≠ UNUSED → p_pid q ≠ p_pid p') →
  ¬ alive p →
  (∀ k, p_parent p' = Some k → ¬ fresh p' ∧ ∃ q, k ≠ j ∧ pt_proc pt !! k = Some q ∧ alive q) →
  pinv m (Sys pt cpu) →
  pinv m' (Sys (Ptable (<[j := p']> (pt_proc pt)) (pt_lock pt) n (initproc pt)) cpu).
Proof.
  intros Hp Hr Hr' Hn Hm Hpid Hna Hpar [H1 H2 H3 H4 H5 H6 H7 H8 H9 H10]. simpl in *.
  assert (Hjl : (j < length (pt_proc pt))%nat) by (by eapply lookup_lt_Some).
  assert (Hfm : pids_left m' → pids_left m) by (unfold pids_left; lia).
  assert (Hal : ∀ k q, pt_proc pt !! k = Some q → alive q →
    ∃ q', <[j := p']> (pt_proc pt) !! k = Some q' ∧ alive q').
  { intros k q Hq Hqa. exists q. rewrite list_lookup_insert_ne; [done|]. intros <-. by simplify_eq. }
  split; simpl; try done.
  - by rewrite length_insert.
  - intros d k Hd. destruct (H4 d k Hd) as (q & Hq & Hs). exists q.
    rewrite list_lookup_insert_ne; [done|]. intros <-. by simplify_eq.
  - intros k q Hq Hs. apply list_lookup_insert_Some in Hq as [(_ & <- & _)|[Hne Hq]]; [done|]. by apply (H5 k q).
  - intros Hf k q Hq Hs. apply list_lookup_insert_Some in Hq as [(_ & <- & _)|[Hne Hq]]; [by apply Hpid|].
    specialize (H7 (Hfm Hf) k q Hq Hs). lia.
  - intros Hf i k q r Hq Hr0 Hs Ht Epq.
    apply list_lookup_insert_Some in Hq as [(-> & <- & _)|[Hne Hq]];
      apply list_lookup_insert_Some in Hr0 as [(-> & <- & _)|[Hne' Hr0]]; try done.
    + destruct (Hpid Hf Hs) as [_ Hu]. by destruct (Hu k r); [congruence|..].
    + destruct (Hpid Hf Ht) as [_ Hu]. by destruct (Hu i q); [congruence|..].
    + by apply (H8 (Hfm Hf) i k q r).
  - destruct H9 as (k & q & E & Hq & Hqa). destruct (Hal k q Hq Hqa) as (q' & ? & ?). by exists k, q'.
  - intros i q k Hq Hpk. apply list_lookup_insert_Some in Hq as [(-> & <- & _)|[Hne Hq]].
    + destruct (Hpar k Hpk) as (Hnf & r & Hkj & Hkr & Hra). split; [done|]. by apply (Hal k r).
    + destruct (H10 i q k Hq Hpk) as (Hnf & r & Hkr & Hra). split; [done|]. by apply (Hal k r).
Qed.

(** [exit] of the process that runs on CPU [c]. *)
Lemma pinv_exit m pt cpu c i pt' : cpu !! c = Some (Some i) → initproc pt ≠ Some i →
  pt_lock pt' = false → nextpid pt' = nextpid pt → initproc pt' = initproc pt →
  length (pt_proc pt') = NPROC →
  (∀ k p, pt_proc pt !! k = Some p → ∃ p', pt_proc pt' !! k = Some p' ∧ after_exit i (initproc pt) k p p') →
  pinv m (Sys pt cpu) → pinv m (Sys pt' (<[c := None]> cpu)).
Proof.
  intros Hc Hini El En Ei Elen Hk [H1 H2 H3 H4 H5 H6 H7 H8 H9 H10]. simpl in *.
  assert (Hfw : ∀ k p, pt_proc pt !! k = Some p → k ≠ i →
    ∃ p', pt_proc pt' !! k = Some p' ∧ p_pid p' = p_pid p ∧
      p_parent p' = (if bool_decide (p_parent p = Some i) then initproc pt else p_parent p) ∧
      (p_state p' = RUNNING ↔ p_state p = RUNNING) ∧ (p_state p' = UNUSED ↔ p_state p = UNUSED) ∧
      (alive p' ↔ alive p) ∧ (fresh p' ↔ fresh p)).
  { intros k p Hp Hne. destruct (Hk k p Hp) as (p' & Hp' & q & Hw & E). exists p'. split; [done|].
    rewrite (bool_decide_false (k = i)) in E by done. apply woken_mild in Hw as Hm.
    pose proof (mild_states _ _ Hm) as Hms. destruct Hm as (M1 & M2 & _).
    case_bool_decide; cbv zeta in E; subst p'; do 2 (split; [done|]); exact Hms. }
  assert (Hme : ∀ p, pt_proc pt !! i = Some p → ∃ p', pt_proc pt' !! i = Some p' ∧
    p_pid p' = p_pid p ∧ p_state p' = ZOMBIE ∧
    p_parent p' = if bool_decide (p_parent p = Some i) then initproc pt else p_parent p).
  { intros p Hp. destruct (Hk i p Hp) as (p' & Hp' & q & Hw & E). exists p'. split; [done|].
    rewrite (bool_decide_true (i = i)) in E by done. apply woken_mild in Hw as (M1 & M2 & _).
    case_bool_decide; cbv zeta in E; subst p'; done. }
  assert (Hbk : ∀ k p', pt_proc pt' !! k = Some p' → ∃ p, pt_proc pt !! k = Some p).
  { intros k p' Hp'. apply lookup_lt_is_Some_2. rewrite H1, <-Elen. by eapply lookup_lt_Some. }
  destruct (H4 c i Hc) as (pi & Hpi & Hrun). destruct (Hme pi Hpi) as (zi & Hzi & Zpid & Zst & Zpar).
  destruct H9 as (i0 & p0 & E0 & Hp0 & Ha0).
  assert (Hi0 : i0 ≠ i) by congruence.
  assert (Hal : ∀ k q, pt_proc pt !! k = Some q → alive q → k ≠ i →
    ∃ q', pt_proc pt' !! k = Some q' ∧ alive q').
  { intros k q Hq Hqa Hne. destruct (Hfw k q Hq Hne) as (q' & Hq' & _ & _ & _ & _ & Hq1 & _).
    exists q'. by rewrite Hq1. }
  split; simpl; try done; try congruence.
  - intros d j Hd. apply list_lookup_insert_Some in Hd as [(_ & ? & _)|[Hne Hd]]; [done|].
    destruct (H4 d j Hd) as (q & Hq & Hs). assert (Hji : j ≠ i) by (intros ->; apply Hne; by apply (H6 c d i)).
    destruct (Hfw j q Hq Hji) as (q' & Hq' & _ & _ & Hr & _). exists q'. by rewrite Hr.
  - intros j q' Hq' Hs. destruct (Hbk j q' Hq') as [q Hq].
    destruct (decide (j = i)) as [->|Hji]; [congruence|].
    destruct (Hfw j q Hq Hji) as (q'' & Hq'' & _ & _ & Hr & _). simplify_eq.
    destruct (H5 j q Hq ltac:(by apply Hr)) as [d Hd]. exists d.
    rewrite list_lookup_insert_ne; [done|]. intros <-. congruence.
  - intros d e j Hd He. apply list_lookup_insert_Some in Hd as [(_ & ? & _)|[Hne Hd]]; [done|].
    apply list_lookup_insert_Some in He as [(_ & ? & _)|[Hne' He]]; [done|]. by apply (H6 d e j).
  - intros Hf j q' Hq' Hs. destruct (Hbk j q' Hq') as [q Hq].
    destruct (decide (j = i)) as [->|Hji].
    + simplify_eq. rewrite Zpid. apply (H7 Hf i pi Hpi). congruence.
    + destruct (Hfw j q Hq Hji) as (q'' & Hq'' & Ep & _ & _ & Hu & _). simplify_eq. rewrite Ep.
      apply (H7 Hf j q Hq). by rewrite <-Hu.
  - assert (Hpu : ∀ j q', pt_proc pt' !! j = Some q' → p_state q' ≠ UNUSED →
      ∃ q, pt_proc pt !! j = Some q ∧ p_state q ≠ UNUSED ∧ p_pid q' = p_pid q).
    { intros j q' Hq' Hs. destruct (Hbk j q' Hq') as [q Hq]. exists q. split; [done|].
      destruct (decide (j = i)) as [->|Hji]; [simplify_eq; split; [congruence|done]|].
      destruct (Hfw j q Hq Hji) as (q'' & Hq'' & Ep & _ & _ & Hu & _). simplify_eq. by rewrite <-Hu. }
    intros Hf j k q r Hq Hr Hs Ht Epq. destruct (Hpu j q Hq Hs) as (q0 & Hq0 & Hs0 & Eq0).
    destruct (Hpu k r Hr Ht) as (r0 & Hr0 & Ht0 & Er0). apply (H8 Hf j k q0 r0); congruence.
  - exists i0. destruct (Hal i0 p0 Hp0 Ha0 Hi0) as (q' & Hq' & Hqa). exists q'. split_and!; try done. congruence.
  - assert (Hnew : ∀ j q k, pt_proc pt !! j = Some q →
      (if bool_decide (p_parent q = Some i) then initproc pt else p_parent q) = Some k →
      ¬ fresh q ∧ ∃ r, pt_proc pt' !! k = Some r ∧ alive r).
    { intros j q k Hq. destruct (bool_decide_reflect (p_parent q = Some i)) as [Hpq|Hpq]; intros Hpk.
      - rewrite E0 in Hpk. simplify_eq. split; [by apply (H10 j q i Hq Hpq)|]. by apply (Hal k p0).
      - destruct (H10 j q k Hq Hpk) as (Hnf & r & Hr & Hra). split; [done|]. apply (Hal k r); try done.
        intros ->. congruence. }
    intros j q' k Hq' Hpk. destruct (Hbk j q' Hq') as [q Hq].
    destruct (decide (j = i)) as [->|Hji].
    + simplify_eq. split; [unfold fresh; rewrite Zst; by intros [?|?]|]. apply (Hnew i pi k Hpi). congruence.
    + destruct (Hfw j q Hq Hji) as (q'' & Hq'' & _ & Epar & _ & _ & _ & Hf). simplify_eq.
      rewrite Hf. apply (Hnew j q k Hq). congruence.
Qed.

Lemma sched_Ok cur s p : pt_lock s = true → pt_proc s !! cur = Some p → p_state p ≠ RUNNING →
  sched cur s = Ok (tt, s).
Proof.
  intros Hl Hp Hs. unfold sched, holding. erewrite bind_Ok by reflexivity. simpl. rewrite Hl. simpl.
  erewrite bind_Ok by (by apply pget_Ok). by rewrite decide_False.
Qed.

Lemma yield_run i s p : pt_lock s = false → pt_proc s !! i = Some p →
  yield i s = Ok (tt, put pt_lk true (put pt_arr (<[i := w_state RUNNABLE p]> (pt_proc s)) s)).
Proof.
  intros Hl Hp. unfold yield. erewrite bind_Ok by (unfold acquire; simpl; by rewrite Hl).
  assert (Hil : (i < length (pt_proc s))%nat) by (by eapply lookup_lt_Some).
  erewrite bind_Ok by (by apply pset_Ok).
  by erewrite sched_Ok by (done || (simpl; by apply list_lookup_insert_eq)).
Qed.

Lemma sleep_run i chan s p : pt_lock s = false → pt_proc s !! i = Some p →
  sleep i chan s =
    Ok (tt, put pt_lk true (put pt_arr (<[i := w_state SLEEPING (w_chan chan p)]> (pt_proc s)) s)).
Proof.
  intros Hl Hp. unfold sleep. erewrite bind_Ok by (unfold acquire; simpl; by rewrite Hl).
  assert (Hil : (i < length (pt_proc s))%nat) by (by eapply lookup_lt_Some).
  erewrite bind_Ok by (by apply pset_Ok).
  erewrite bind_Ok by (apply pset_Ok; simpl; by apply list_lookup_insert_eq). simpl.
  rewrite list_insert_insert_eq.
  by erewrite sched_Ok by (done || (simpl; by apply list_lookup_insert_eq)).
Qed.

Lemma insert_alter {A} (l : list A) i x (f : A → A) : l !! i = Some x → alter f i l = <[i := f x]> l.
Proof.
  intros Hx. apply list_eq. intros j. rewrite list_lookup_alter. destruct (decide (i = j)) as [<-|].
  - rewrite Hx, list_lookup_insert_eq by (by eapply lookup_lt_Some). done.
  - by rewrite list_lookup_insert_ne.
Qed.

Lemma s32_add1 z : s32 (s32 z + 1) = s32 (z + 1).
Proof. unfold s32. Z.to_euclidean_division_equations; lia. Qed.

Lemma pinv_same m s s' : nextpid (sy_pt s') = nextpid (sy_pt s) → pinv m s' → pinv (issued s s' + m) s'.
Proof. intros E. unfold issued. by rewrite decide_True. Qed.

Lemma issued_new s s' : nextpid (sy_pt s') = s32 (nextpid (sy_pt s) + 1) → issued s s' = 1%nat.
Proof.
  intros E. unfold issued. rewrite decide_False; [done|]. rewrite E. unfold s32.
  Z.to_euclidean_division_equations; lia.
Qed.

Lemma pinv_pstep m s s' : pstep s s' → pinv m s → pinv (issued s s' + m) s'.
Proof.
  intros Hst Hi. pose proof Hi as [H1 H2 H3 H4 H5 H6 H7 H8 H9 H10].
  destruct Hst as [pt cpu c j p Hc Hp Hs|pt cpu c i pt' Hc E|pt cpu c i chan pt' Hc E|pt cpu c i pt' Hc E
    |pt cpu chan pt' E|pt cpu pid r pt' E|pt cpu c i r pt' Hc E|pt cpu c i j p Hc Hp Hs
    |pt cpu c i j p Hc Hp Hs|pt cpu c i j b p Hc E Hp]; simpl in *.
  - apply pinv_same; [done|]. by apply pinv_on.
  - destruct (H4 c i Hc) as (p & Hp & Hs). rewrite (yield_run i pt p) in E by done. simplify_eq.
    apply pinv_same; [done|].
    assert (Hx := pinv_off m pt cpu c i p (w_state RUNNABLE p) Hc Hp eq_refl eq_refl
      (or_intror (or_introl eq_refl)) ltac:(done) Hi).
    by destruct pt; simpl in *; subst.
  - destruct (H4 c i Hc) as (p & Hp & Hs). rewrite (sleep_run i chan pt p) in E by done. simplify_eq.
    apply pinv_same; [done|].
    assert (Hx := pinv_off m pt cpu c i p (w_state SLEEPING (w_chan chan p)) Hc Hp eq_refl eq_refl
      (or_introl eq_refl) ltac:(done) Hi).
    by destruct pt; simpl in *; subst.
  - destruct (decide (initproc pt = Some i)) as [Hini|Hini].
    { unfold exit, exit_table in E. exfalso. revert E. rewrite bind_assoc.
      erewrite bind_Ok by reflexivity. rewrite decide_True by done. done. }
    assert (Hil : (i < NPROC)%nat).
    { destruct (H4 c i Hc) as (p & Hp & _). rewrite <-H1. by eapply lookup_lt_Some. }
    destruct (exit_table_spec i pt H1 Hil H2 Hini) as (pt1 & E1 & L1 & N1 & I1 & Len1 & Hk).
    unfold exit in E. erewrite bind_Ok in E by exact E1.
    assert (pt' = pt1) as ->.
    { destruct (H4 c i Hc) as (p & Hp & _). destruct (Hk i p Hp) as (p' & Hp' & q & _ & Eq).
      rewrite (bool_decide_true (i = i)) in Eq by done.
      erewrite sched_Ok in E; [by simplify_eq|done|exact Hp'|]. rewrite Eq. by simpl. }
    apply pinv_same; [done|]. by apply (pinv_exit m pt cpu c i).
  - unfold wakeup in E. erewrite bind_Ok in E by (unfold acquire; simpl; by rewrite H2).
    destruct (wakeup1_evolves chan (put pt_lk true pt)) as (s1 & E1 & El & En & Ei & Elen & Hk).
    erewrite bind_Ok in E by exact E1. unfold release in E. simpl in *. rewrite El in E. simplify_eq.
    apply pinv_same; [done|]. apply (pinv_mild m pt); try done. simpl. intros k p Hp. destruct (Hk k p Hp) as (p' & Hp' & Hw).
    exists p'. split; [done|]. by apply woken_mild.
  - rewrite kill_spec in E by done. destruct (pfind _ _) as [i|] eqn:Ef; simplify_eq; [|by apply pinv_same].
    destruct (pfind_Some _ _ _ Ef) as (p & Hp & _). apply pinv_same; [done|].
    apply (pinv_mild m pt); try done; simpl; [by rewrite length_alter|].
    intros k q Hq. rewrite list_lookup_alter. case_decide as Hik; [subst k|by exists q; split; [done|apply woken_mild; left]].
    rewrite Hq. eexists. split; [done|]. unfold mild. simpl. case_decide; simpl; auto.
  - rewrite allocproc_slot_spec in E by done. destruct (pfind _ _) as [j|] eqn:Ef; simplify_eq; [|by apply pinv_same].
    destruct (pfind_Some _ _ _ Ef) as (p & Hp & Hu & _). apply bool_decide_eq_true in Hu.
    rewrite (insert_alter _ _ _ _ Hp), issued_new by done.
    assert (Hx := pinv_entry m (S m) pt cpu j p (w_ppid (nextpid pt) (w_state EMBRYO p)) (s32 (nextpid pt + 1)) Hp).
    rewrite H2 in Hx. apply Hx; simpl; try done; try lia; try congruence.
    + rewrite H3, s32_add1. f_equal. lia.
    + intros Hl _. unfold pids_left in *. rewrite H3, s32_small by lia. split; [lia|].
      intros k q Hkj Hq Hqu. specialize (H7 ltac:(lia) k q Hq Hqu). lia.
    + unfold alive. rewrite Hu. naive_solver.
    + intros k Hpar. destruct (H10 j p k Hp Hpar) as [Hnf _]. exfalso. apply Hnf. by left.
  - assert (Hx := pinv_entry m m pt cpu j p (w_state UNUSED p) (nextpid pt) Hp).
    apply pinv_same; [done|]. destruct pt as [l lk n ip]. simpl in *. apply Hx; simpl; try done; try lia; try congruence.
    + unfold alive. rewrite Hs. naive_solver.
    + intros k Hpar. destruct (H10 j p k Hp Hpar) as [Hnf _]. exfalso. apply Hnf. by right.
  - assert (Hx := pinv_entry m m pt cpu j p (w_state RUNNABLE (w_parent (Some i) p)) (nextpid pt) Hp).
    apply pinv_same; [done|]. destruct pt as [l lk n ip]. simpl in *. apply Hx; simpl; try done; try lia; try congruence.
    + intros Hl _. split; [apply (H7 Hl j p Hp); congruence|]. intros k q Hkj Hq Hqu Epid.
      apply Hkj. apply (H8 Hl k j q p); try done. congruence.
    + unfold alive. rewrite Hs. naive_solver.
    + intros k [= <-]. split; [by intros [?|?]|]. destruct (H4 c i Hc) as (q & Hq & Hqs).
      exists q. split_and!; try done; [intros ->; simplify_eq; congruence|by right; right].
  - unfold wait_scan, mget in E. injection E as Ef _. destruct (pfind_Some _ _ _ Ef) as (p0 & Hp0 & Hz & _).
    simplify_eq. apply andb_true_iff in Hz as [Hpar%bool_decide_eq_true Hz%bool_decide_eq_true].
    assert (Hx := pinv_entry m m pt cpu j p (reap p) (nextpid pt) Hp).
    apply pinv_same; [done|]. destruct pt as [l lk n ip]. simpl in *. apply Hx; simpl; try done; try lia; try congruence.
    unfold alive. rewrite Hz. naive_solver.
Qed.

Lemma pinv_boot n : pinv 0 (sys_boot n).
Proof.
  assert (H0 : (0 < NPROC)%nat) by (with_strategy transparent [NPROC] vm_compute; lia).
  assert (Hl : length (replicate NPROC proc0) = NPROC) by apply length_replicate.
  assert (Hp : ∀ i p, <[0%nat := w_state RUNNABLE (w_ppid 1 proc0)]> (replicate NPROC proc0) !! i = Some p →
    i = 0%nat ∧ p = w_state RUNNABLE (w_ppid 1 proc0) ∨ i ≠ 0%nat ∧ p = proc0).
  { intros i p [(<- & <- & _)|[Hne E]]%list_lookup_insert_Some; [by left|right].
    apply lookup_replicate in E as [-> _]. by split. }
  assert (Hc : ∀ c x, replicate n (None : option nat) !! c = Some x → x = None).
  { intros c x E. by apply lookup_replicate in E as [-> _]. }
  split; cbn [sy_pt sy_cpu sys_boot pt_proc pt_lock nextpid initproc]; try done.
  - intros c i E. by apply Hc in E.
  - intros i p [[-> ->]|[_ ->]]%Hp; done.
  - intros c d i E. by apply Hc in E.
  - intros _ i p [[-> ->]|[_ ->]]%Hp; simpl; [lia|done].
  - intros _ i j p q [[-> ->]|[_ ->]]%Hp [[-> ->]|[_ ->]]%Hp; done.
  - exists 0%nat, (w_state RUNNABLE (w_ppid 1 proc0)). split; [done|].
    split; [by apply list_lookup_insert_eq; rewrite Hl|by right; left].
  - intros i p k [[-> ->]|[_ ->]]%Hp; done.
Qed.

Lemma pinv_prun n k s : prun (sys_boot n) k s → pinv k s.
Proof. induction 1 as [|k s1 s2 _ IH Hs]; [apply pinv_boot|by apply pinv_pstep]. Qed.

Lemma rtc_prun s s' : rtc pstep s s' → ∃ k, prun s k s'.
Proof.
  revert s'. apply rtc_ind_r; [by exists 0%nat; constructor|]. intros s1 s2 _ Hs [k Hk]. eexists. by econstructor.
Qed.

(** C11. On any number of CPUs and in any interleaving of scheduling, yield,
    sleep, wakeup, kill, fork, exit and wait: a process is RUNNING exactly when
    one CPU runs it, and no other does; the parent of a process is a process
    that is alive, so a zombie always has a parent that can reap it; and init
    never dies.  Processes that are not UNUSED have distinct positive pids as
    long as [nextpid], an int that only goes up, has not wrapped around: up to
    2^31 - 2 pids given out since the start. *)
Theorem process_invariants n s : rtc pstep (sys_boot n) s →
  (∀ i p, pt_proc (sy_pt s) !! i = Some p →
    (p_state p = RUNNING ↔ ∃ c, sy_cpu s !! c = Some (Some i) ∧
       ∀ d, sy_cpu s !! d = Some (Some i) → d = c)) ∧
  (∀ k, prun (sys_boot n) k s → Z.of_nat k ≤ 2 ^ 31 - 2 →
    ∀ i j p q, pt_proc (sy_pt s) !! i = Some p → pt_proc (sy_pt s) !! j = Some q →
      p_state p ≠ UNUSED → p_state q ≠ UNUSED → 0 < p_pid p ∧ (p_pid p = p_pid q → i = j)) ∧
  (∀ i p k, pt_proc (sy_pt s) !! i = Some p → p_parent p = Some k →
    ∃ q, pt_proc (sy_pt s) !! k = Some q ∧ alive q) ∧
  (∃ i p, initproc (sy_pt s) = Some i ∧ pt_proc (sy_pt s) !! i = Some p ∧ alive p).
Proof.
  intros [k0 Hi%pinv_prun]%rtc_prun. destruct Hi as [H1 H2 _ H4 H5 H6 _ _ H9 H10]. split_and!.
  - intros i p Hp. split.
    + intros Hs. destruct (H5 i p Hp Hs) as [c Hc]. exists c. split; [done|]. intros d Hd. by apply (H6 d c i).
    + intros (c & Hc & _). destruct (H4 c i Hc) as (q & Hq & Hs). by simplify_eq.
  - intros k Hk%pinv_prun Hl i j p q Hp Hq Hs Ht. split; [by apply (pi_pid _ _ Hk Hl i p Hp)|].
    by apply (pi_uniq _ _ Hk Hl i j p q).
  - intros i p k Hp Hk. by destruct (H10 i p k Hp Hk).
  - done.
Qed.

Lemma process_invariants_witness :
  let s := Sys (Ptable (<[0%nat := w_state RUNNING (w_ppid 1 proc0)]> (replicate NPROC proc0)) false 2 (Some 0%nat))
             [Some 0%nat; None] in
  rtc pstep (sys_boot 2) s ∧
  (∃ i p, initproc (sy_pt s) = Some i ∧ pt_proc (sy_pt s) !! i = Some p ∧ alive p).
Proof.
  intros s. assert (Hr : rtc pstep (sys_boot 2) s).
  { apply rtc_once. pose proof (st_sched (sy_pt (sys_boot 2)) [None; None] 0 0
      (w_state RUNNABLE (w_ppid 1 proc0)) eq_refl) as Hs.
    apply Hs; [|done]. vm_compute. reflexivity. }
  split; [exact Hr|]. exact (proj2 (proj2 (proj2 (process_invariants 2 s Hr)))).
Defined.
