(* ===== verification/Kernel.v ===== *)
(** The state of the kernel: a record of the states of its parts, with a lens
    for each, through which a function of a part runs on the whole.  A page of
    memory that holds a [struct pipe] is an entry of [kn_pipes] at the address
    of the page. *)

From Stdlib Require Import ZArith Lia.
From stdpp Require Import base numbers strings option gmap sets list list_numbers.
From S2P Require Import Prelude Spinlock Lru Swap Mem Kalloc Bio Log Fs Pipe Proc.

(** * Open files (file.h) *)
Inductive ftype := FD_NONE | FD_PIPE | FD_INODE.
#[export] Instance ftype_eq_dec : EqDecision ftype.
Proof. solve_decision. Defined.

Record file := File {
  fl_type : ftype;
  fl_ref : Z;
  fl_readable : bool;
  fl_writable : bool;
  fl_pipe : Z;
  fl_ip : nat;
  fl_off : Z
}.
Definition file0 : file := File FD_NONE 0 false false 0 0 0.
Definition NFILE : nat := 100.
Definition NOFILE : nat := 16.

Record ftable_state := Ftable { ft_file : list file; ft_lock : bool }.

Definition ft_lk : lens ftable_state bool := Lens ft_lock (λ x s, Ftable (ft_file s) x).
Definition ft_arr : lens ftable_state (list file) := Lens ft_file (λ x s, Ftable x (ft_lock s)).

(** * The kernel *)
Record kernel := Kernel {
  kn_km : kmem_state;
  kn_lru : lru_state;
  kn_swap : swap_state;
  kn_fs : fs_state;
  kn_pt : ptable_state;
  kn_ft : ftable_state;
  kn_pipes : gmap Z pipe;
  kn_ticks : Z;
  kn_tickslk : bool
}.

Definition KM : lens kernel kmem_state := Lens kn_km (λ x s, Kernel x (kn_lru s) (kn_swap s) (kn_fs s)
  (kn_pt s) (kn_ft s) (kn_pipes s) (kn_ticks s) (kn_tickslk s)).
Definition LRU : lens kernel lru_state := Lens kn_lru (λ x s, Kernel (kn_km s) x (kn_swap s) (kn_fs s)
  (kn_pt s) (kn_ft s) (kn_pipes s) (kn_ticks s) (kn_tickslk s)).
Definition SWAP : lens kernel swap_state := Lens kn_swap (λ x s, Kernel (kn_km s) (kn_lru s) x (kn_fs s)
  (kn_pt s) (kn_ft s) (kn_pipes s) (kn_ticks s) (kn_tickslk s)).
Definition FS : lens kernel fs_state := Lens kn_fs (λ x s, Kernel (kn_km s) (kn_lru s) (kn_swap s) x (kn_pt
  s) (kn_ft s) (kn_pipes s) (kn_ticks s) (kn_tickslk s)).
Definition PT : lens kernel ptable_state := Lens kn_pt (λ x s, Kernel (kn_km s) (kn_lru s) (kn_swap s)
  (kn_fs s) x (kn_ft s) (kn_pipes s) (kn_ticks s) (kn_tickslk s)).
Definition FT : lens kernel ftable_state := Lens kn_ft (λ x s, Kernel (kn_km s) (kn_lru s) (kn_swap s)
  (kn_fs s) (kn_pt s) x (kn_pipes s) (kn_ticks s) (kn_tickslk s)).
Definition PIPES : lens kernel (gmap Z pipe) := Lens kn_pipes (λ x s, Kernel (kn_km s) (kn_lru s) (kn_swap
  s) (kn_fs s) (kn_pt s) (kn_ft s) x (kn_ticks s) (kn_tickslk s)).
Definition TICKS : lens kernel Z := Lens kn_ticks (λ x s, Kernel (kn_km s) (kn_lru s) (kn_swap s) (kn_fs s)
  (kn_pt s) (kn_ft s) (kn_pipes s) x (kn_tickslk s)).
Definition tickslock : lens kernel bool := Lens kn_tickslk (λ x s, Kernel (kn_km s) (kn_lru s) (kn_swap s)
  (kn_fs s) (kn_pt s) (kn_ft s) (kn_pipes s) (kn_ticks s) x).

(** The buffer cache, inside the log of the file system. *)
Definition kn_bc (s : kernel) : bcache_state := view FBC (kn_fs s).
Arguments kn_bc !s /.
Definition BC : lens kernel bcache_state := Lens kn_bc (λ x s, Kernel (kn_km s) (kn_lru s) (kn_swap s) (put
  FBC x (kn_fs s)) (kn_pt s) (kn_ft s) (kn_pipes s) (kn_ticks s) (kn_tickslk s)).
