(* ===== verification/Paging.v ===== *)
(** Demand paging: the kernel functions that tie the page allocator, the page
    tables, the LRU list, the swap slots and the disk together (lru_swap.c,
    fs.c, kalloc.c, vm.c, proc.c, demandpage.c).

    A [struct proc *] is an index of the process table. *)

From Stdlib Require Import ZArith Lia.
From stdpp Require Import base numbers strings option gmap sets list list_numbers.
From S2P Require Import Prelude Spinlock Bitmap Lru Swap Mem Kalloc Vm Sleeplock Bio Log Fs Proc Kernel.

(** [SWAP1_START], [SWAP2_START], [SWAP3_START] of the three swap spaces. *)
Definition swap_start (kind : Z) : Z :=
  if kind =? 0 then 1000 else if kind =? 1 then 3000 else 3280.

Section paging.
Context `{KernelImage} `{BlockDriver}.
(** The running process: [myproc()] and [myproc()->pid]. *)
Variables (cur : nat) (mypid : Z).

(** * Pages on the swap disk (fs.c) *)
Fixpoint writeswap_loop (n : nat) (buf : list Z) (dev bno : Z) : M bcache_state unit :=
  match n with
  | O => mret tt
  | S n =>
      b ← bget mypid dev bno;
      bassign (Some b) (f_data (take (Z.to_nat BSIZE) buf));;
      bwrite mypid b;;
      brelse mypid b;;
      writeswap_loop n (drop (Z.to_nat BSIZE) buf) dev (bno + 1)
  end.

Definition writeswap (buf : list Z) (dev bno : Z) : M kernel unit :=
  zoom BC (writeswap_loop 8 buf dev bno).

(** * Eviction *)

(** [klru_free_swap]: the address [v] is a user address when swapping out. *)
Definition klru_free_swap (p : nat) (v : Z) : M kernel unit :=
  if bad_page v then
    pid ← zoom PT (pget p p_pid);
    zoom LRU (lru_free_frame pid v)
  else zoom KM (kfree_push v).

(** [swap_out], [swap_out_stack] and [swap_out_heap] differ in the swap space
    and in the buffer they write. *)
Definition swap_out_with (kind : Z) (buffer : proc → list Z) (p : nat) (vaddr : Z) : M kernel Z :=
  sl ← zoom PT (pget p p_swap_list);
  r ← zoom SWAP (swap_append sl vaddr kind);
  match r with
  | None => mret (-1)
  | Some (findex, sl') =>
      zoom PT (pset p (w_swap_list sl'));;
      buf ← zoom PT (pget p buffer);
      writeswap buf ROOTDEV (swap_start kind + findex * 8);;
      pgdir ← zoom PT (pget p p_pgdir);
      zoom KM (demappages_swap_out pgdir vaddr);;
      klru_free_swap p vaddr;;
      mret 1
  end.

Definition swap_out : nat → Z → M kernel Z := swap_out_with 0 p_write_buffer.
Definition swap_out_stack : nat → Z → M kernel Z := swap_out_with 1 p_stack_buffer.
Definition swap_out_heap : nat → Z → M kernel Z := swap_out_with 2 p_heap_buffer.

Definition swap_free (pid : Z) : M kernel unit :=
  r ← zoom PT (get_proc pid);
  match r with
  | None => mret tt
  | Some p =>
      forked ← zoom PT (pget p p_forked);
      sl ← zoom PT (pget p p_swap_list);
      if forked =? 0 then
        sl' ← zoom SWAP (swap_free_list sl);
        zoom PT (pset p (w_swap_list sl'))
      else zoom PT (pset p (w_swap_list None))
  end.

(** The body of the loop of [get_lru]: one page leaves the list.  Its owner may
    have exited, its page may be gone. *)
Definition evict_page (pid_lru vaddr_lru : Z) : M kernel unit :=
  pr ← zoom PT (get_proc pid_lru);
  match pr with
  | None => zoom LRU (lru_free pid_lru);; swap_free pid_lru
  | Some p =>
      pgdir ← zoom PT (pget p p_pgdir);
      data ← zoom KM (read_vaddr pgdir vaddr_lru);
      match data with
      | None => mret tt
      | Some d =>
          zoom PT (pset p (w_write_buffer d));;
          r ← swap_out p vaddr_lru;
          if r <? 0 then mpanic "Swap Space is Full" else mret tt
      end
  end.

Definition get_lru_evict : M kernel unit :=
  index ← zoom LRU lru_delete;
  if index <? 0 then mpanic "LRU full as well as empty."
  else
    pid_lru ← zoom LRU (lru_get_pid_frame index);
    vaddr_lru ← zoom LRU (lru_get_vaddr_frame index);
    zoom LRU (lru_release_frame index);;
    evict_page pid_lru vaddr_lru.

Fixpoint get_lru_loop (fuel : nat) (pid vaddr : Z) : M kernel unit :=
  match fuel with
  | O => mnofuel
  | S fuel =>
      r ← zoom LRU (lru_insert pid vaddr);
      if r <? 0 then get_lru_evict;; get_lru_loop fuel pid vaddr else mret tt
  end.

(** A page that leaves the list makes room, so the body runs at most once. *)
Definition get_lru (pid vaddr : Z) : M kernel unit := get_lru_loop 2 pid vaddr.

Definition kalloc (pid lru : Z) : M kernel Z := kalloc_with KM get_lru pid lru.

(** * Bringing a page back *)
Fixpoint readswap_loop (n : nat) (mem dev bno : Z) : M kernel unit :=
  match n with
  | O => mret tt
  | S n =>
      b ← zoom BC (bread mypid dev bno);
      d ← zoom BC (bderef (Some b) b_data);
      zoom KM (kwrite mem d);;
      zoom BC (brelse mypid b);;
      readswap_loop n (mem + BSIZE) dev (bno + 1)
  end.

Definition readswap (p : nat) (dev bno : Z) : M kernel Z :=
  pid ← zoom PT (pget p p_pid);
  mem ← kalloc pid (-1);
  if mem =? 0 then mpanic "No Free Page"
  else readswap_loop 8 mem dev bno;; mret mem.

(** [swap_in], [swap_in_stack] and [swap_in_heap] differ in the swap space. *)
Definition swap_in_with (kind : Z) (p : nat) (vaddr : Z) : M kernel Z :=
  sl ← zoom PT (pget p p_swap_list);
  r ← zoom SWAP (swap_take sl vaddr);
  match r with
  | None => mret (-1)
  | Some (findex, sl') =>
      zoom PT (pset p (w_swap_list sl'));;
      mem ← readswap p ROOTDEV (swap_start kind + Z.of_nat findex * 8);
      pgdir ← zoom PT (pget p p_pgdir);
      zoom KM (mappages_swap_in pgdir mem vaddr)
  end.

Definition swap_in : nat → Z → M kernel Z := swap_in_with 0.
Definition swap_in_stack : nat → Z → M kernel Z := swap_in_with 1.
Definition swap_in_heap : nat → Z → M kernel Z := swap_in_with 2.

(** [swapfunc_ptr_arr[n][1]]; [n] out of range is a wild pointer. *)
Definition swapfunc_in (n : Z) : nat → Z → M kernel Z :=
  if n =? 0 then swap_in else if n =? 1 then swap_in_stack else if n =? 2 then swap_in_heap
  else λ _ _, mfault.

(** * Address spaces (vm.c) *)
Fixpoint allocuvm_loop (fuel : nat) (pgdir a newsz setpte mem : Z) : M kernel Z :=
  match fuel with
  | O => mnofuel
  | S fuel =>
      if a <? newsz then
        mem ← (if setpte =? 1 then
                 pid ← zoom PT (pget cur p_pid);
                 cdb ← zoom PT (pget cur p_cdb_size);
                 mem ← kalloc pid (if cdb <? a then a else -1);
                 zoom KM (kmemset mem 0 PGSIZE);;
                 mret mem
               else mret mem);
        r ← zoom KM (mappages pgdir a PGSIZE (V2P mem) (Z.lor PTE_W PTE_U) setpte);
        if r <? 0 then mret 0
        else allocuvm_loop fuel pgdir (a + PGSIZE) newsz setpte mem
      else mret newsz
  end.

Definition allocuvm (pgdir oldsz newsz setpte : Z) : M kernel Z :=
  if KERNBASE <=? newsz then mret 0
  else if newsz <? oldsz then mret oldsz
  else allocuvm_loop (S (Z.to_nat (newsz / PGSIZE + 1))) pgdir (PGROUNDUP oldsz) newsz setpte (V2P 0).

(** The loop of [copyuvm]; [false] is the jump to [bad]. *)
Fixpoint copyuvm_loop (fuel : nat) (old new : nat) (d i mem : Z) : M kernel bool :=
  match fuel with
  | O => mnofuel
  | S fuel =>
      sz ← zoom PT (pget old p_sz);
      if i <? sz then
        pgdir ← zoom PT (pget old p_pgdir);
        pte ← zoom KM (walkpgdir pgdir i false);
        if pte =? 0 then mpanic "copyuvm: pte should exist"
        else
          e ← zoom KM (ldw pte);
          if Z.land e PTE_P =? 0 then
            r ← zoom KM (mappages d i PGSIZE (V2P mem) (Z.lor PTE_W PTE_U) 0);
            if r <? 0 then mret false else copyuvm_loop fuel old new d (i + PGSIZE) mem
          else
            npid ← zoom PT (pget new p_pid);
            cdb ← zoom PT (pget old p_cdb_size);
            mem ← kalloc npid (if cdb <? i then i else -1);
            if mem =? 0 then mret false
            else
              zoom KM (kmemmove mem (P2V (PTE_ADDR e)) PGSIZE);;
              r ← zoom KM (mappages d i PGSIZE (V2P mem) (PTE_FLAGS e) 1);
              if r <? 0 then klru_free_swap new mem;; mret false
              else copyuvm_loop fuel old new d (i + PGSIZE) mem
      else mret true
  end.

Definition copyuvm (old new : nat) : M kernel Z :=
  d ← zoom KM setupkvm;
  if d =? 0 then mret 0
  else
    sz ← zoom PT (pget old p_sz);
    ok ← copyuvm_loop (S (Z.to_nat (sz / PGSIZE + 1))) old new d 0 0;
    if (ok : bool) then mret d
    else
      npid ← zoom PT (pget new p_pid);
      zoom LRU (lru_free npid);;
      swap_free npid;;
      zoom KM (freevm d);;
      mret 0.

(** * proc.c *)
Fixpoint growproc_swap (n : nat) (i : Z) : M kernel Z :=
  match n with
  | O => mret 0
  | S n =>
      zoom PT (pset cur (w_heap_buffer (replicate (Z.to_nat PGSIZE) 0)));;
      sz ← zoom PT (pget cur p_sz);
      r ← swap_out_heap cur (sz + i * PGSIZE);
      if r <? 0 then mret (-1) else growproc_swap n (i + 1)
  end.

(** [switchuvm] changes no state of the model. *)
Definition growproc (n : Z) : M kernel Z :=
  sz ← zoom PT (pget cur p_sz);
  pgdir ← zoom PT (pget cur p_pgdir);
  if n =? 0 then mret 0
  else if 0 <? n then
    sz' ← allocuvm pgdir sz (u32 (sz + n)) 0;
    if sz' =? 0 then mret (-1)
    else
      r ← growproc_swap (Z.to_nat ((PGROUNDUP sz' - PGROUNDUP sz) / PGSIZE)) 0;
      if r <? 0 then mret (-1)
      else zoom PT (pset cur (w_sz sz'));; mret 0
  else
    sz' ← zoom KM (deallocuvm pgdir sz (u32 (sz + n)));
    if sz' =? 0 then mret (-1)
    else zoom PT (pset cur (w_sz sz'));; mret 0.

(** The memory part of [wait] for a zombie [j]. *)
Definition wait_free (j : nat) : M kernel Z :=
  pid ← zoom PT (pget j p_pid);
  kstack ← zoom PT (pget j p_kstack);
  zoom KM (kfree kstack);;
  zoom PT (pset j (w_kstack 0));;
  zoom LRU (lru_free pid);;
  swap_free pid;;
  pgdir ← zoom PT (pget j p_pgdir);
  zoom KM (freevm pgdir);;
  zoom PT (pset j reap);;
  mret pid.

(** * The page fault handler (demandpage.c) *)

(** [devsw[major].read] *)
Variable devsw_read : Z → option (nat → Z → M fs_state (Z * list Z)).

(** [loaduvm] of vm.c *)
Fixpoint loaduvm_loop (fuel : nat) (pgdir addr : Z) (ip : nat) (offset sz i : Z) : M kernel Z :=
  match fuel with
  | O => mnofuel
  | S fuel =>
      if i <? sz then
        pte ← zoom KM (walkpgdir pgdir (u32 (addr + i)) false);
        if pte =? 0 then mpanic "loaduvm: address should exist"
        else
          e ← zoom KM (ldw pte);
          let n := if sz - i <? PGSIZE then sz - i else PGSIZE in
          '(r, data) ← zoom FS (readi mypid devsw_read ip (u32 (offset + i)) n);
          zoom KM (kwrite (P2V (PTE_ADDR e)) data);;
          if negb (r =? n) then mret (-1)
          else loaduvm_loop fuel pgdir addr ip offset sz (i + PGSIZE)
      else mret 0
  end.

Definition loaduvm (pgdir addr : Z) (ip : nat) (offset sz : Z) : M kernel Z :=
  if negb (addr mod PGSIZE =? 0) then mpanic "loaduvm: addr must be page aligned"
  else loaduvm_loop (S (Z.to_nat (sz / PGSIZE + 1))) pgdir addr ip offset sz 0.

(** The body of the loop over the program headers; both turns read [ph[0]]. *)
Definition pgflt_load (ip : nat) (addr mem : Z) : M kernel unit :=
  ph ← zoom PT (pget cur p_ph);
  pgdir ← zoom PT (pget cur p_pgdir);
  if (ph_vaddr ph <=? addr) && (addr <=? u32 (ph_vaddr ph + ph_memsz ph)) then
    if addr + PGSIZE <=? u32 (ph_vaddr ph + ph_filesz ph) then
      loaduvm pgdir (u32 (ph_vaddr ph + addr)) ip (u32 (ph_off ph + addr)) PGSIZE;;
      mret tt
    else if ph_filesz ph <=? addr then
      if addr + PGSIZE <=? ph_memsz ph then zoom KM (kstosb mem 0 PGSIZE)
      else zoom KM (kstosb mem 0 (ph_memsz ph - addr))
    else
      loaduvm pgdir (u32 (ph_vaddr ph + addr)) ip (u32 (ph_off ph + addr))
        (ph_filesz ph - addr);;
      zoom KM (kstosb (mem + (ph_filesz ph - addr)) 0 (PGSIZE - (ph_filesz ph - addr)))
  else mret tt.

Definition pgflt_handler (cr2 : Z) : M kernel unit :=
  let addr := PGROUNDDOWN cr2 in
  if KERNBASE <? addr then mpanic "Over the KERNBASE!"
  else
    sl ← zoom PT (pget cur p_swap_list);
    swapno ← zoom SWAP (swap_check sl addr);
    if 0 <=? swapno then
      pid ← zoom PT (pget cur p_pid);
      get_lru pid addr;;
      r ← swapfunc_in swapno cur addr;
      if r <? 0 then mpanic "Swap In not working!" else mret tt
    else
      mem ← kalloc (-1) (-1);
      if mem =? 0 then mpanic "No Free Page"
      else
        pgdir ← zoom PT (pget cur p_pgdir);
        r ← zoom KM (mappages pgdir addr PGSIZE (V2P mem) (Z.lor (Z.lor PTE_W PTE_U) PTE_P) 1);
        if r <? 0 then mpanic "Error in Mappages"
        else
          i ← zoom PT (pget cur p_ip);
          ip ← zoom FS (iget (ii_dev i) (ii_inum i));
          pgflt_load ip addr mem;;
          pgflt_load ip addr mem.
End paging.

Section swapio.
Context `{KernelImage} {IOk : KernelImageOk _} `{BlockDriver} {DOk : BlockDriverOk _}.
Variables (cur : nat) (mypid : Z).

(** The blocks of a page in a buffer. *)
Definition chunk (buf : list Z) (k : Z) : list Z :=
  take (Z.to_nat BSIZE) (drop (Z.to_nat (BSIZE * k)) buf).

(** The [n] blocks from [bno] exist and nobody has them locked. *)
Definition swap_blocks (bs : list buf) (bno n : Z) : Prop :=
  ∀ y, bno ≤ y < bno + n → drv_ok ROOTDEV y = true ∧ unlocked bs ROOTDEV y.

Lemma writeswap_loop_spec n buf bno s L : bio_rep s L → has_free (bc_bufs s) →
  swap_blocks (bc_bufs s) bno (Z.of_nat n) →
  ∃ s' L', writeswap_loop mypid n buf ROOTDEV bno s = Ok (tt, s') ∧ bio_rep s' L' ∧
    has_free (bc_bufs s') ∧ (∀ x y, unlocked (bc_bufs s) x y → unlocked (bc_bufs s') x y) ∧
    ∀ x y, x ≠ 0 → block (bc_bufs s') (bc_disk s') x y =
      if (x =? ROOTDEV) && within y bno (Z.of_nat n) then chunk buf (y - bno)
      else block (bc_bufs s) (bc_disk s) x y.
Proof.
  revert buf bno s L. induction n as [|n IH]; intros buf bno s L HL Hf Hb.
  { exists s, L. split_and!; try done. intros x y Hx. within_cases; rewrite ?andb_false_r; (done || lia). }
  cbn [writeswap_loop]. destruct (Hb bno ltac:(lia)) as [Hok Hu].
  destruct (write_block_spec mypid s L ROOTDEV bno (take (Z.to_nat BSIZE) buf) HL ltac:(done) Hok Hu Hf)
    as (s1 & L1 & E1 & HL1 & _ & Hf1 & Hu1 & Hb1).
  destruct (IH (drop (Z.to_nat BSIZE) buf) (bno + 1) s1 L1 HL1 Hf1) as (s2 & L2 & E2 & HL2 & Hf2 & Hu2 & Hb2).
  { intros y Hy. destruct (Hb y ltac:(lia)) as [? ?]. split; [done|by apply Hu1]. }
  exists s2, L2. split_and!; try done; [|by eauto|].
  - rewrite <-E2. unfold write_block in E1.
    apply bind_Ok_inv in E1 as (b & t1 & Eb & E1). rewrite (bind_Ok _ _ _ _ _ Eb).
    apply bind_Ok_inv in E1 as ([] & t2 & Ea & E1). rewrite (bind_Ok _ _ _ _ _ Ea).
    apply bind_Ok_inv in E1 as ([] & t3 & Ew & Er). rewrite (bind_Ok _ _ _ _ _ Ew).
    by rewrite (bind_Ok _ _ _ _ _ Er).
  - intros x y Hx. rewrite Hb2, Hb1 by done. destruct (Z.eqb_spec x ROOTDEV) as [->|]; [|done]. simpl.
    destruct (Z.eqb_spec y bno) as [->|Hy].
    + within_cases; try lia. rewrite Z.sub_diag. done.
    + within_cases; try done; try lia. unfold chunk. rewrite drop_drop. do 2 f_equal. lia.
Qed.

(** The contents of [n] consecutive blocks. *)
Fixpoint blocks_from (f : Z → list Z) (bno : Z) (n : nat) : list Z :=
  match n with O => [] | S n => f bno ++ blocks_from f (bno + 1) n end.

Lemma blocks_from_ext f g bno n : (∀ y, bno ≤ y < bno + Z.of_nat n → f y = g y) →
  blocks_from f bno n = blocks_from g bno n.
Proof.
  revert bno. induction n as [|n IH]; intros bno Hfg; [done|]. cbn [blocks_from].
  rewrite Hfg by lia. f_equal. apply IH. intros y Hy. apply Hfg. lia.
Qed.

Lemma blocks_from_length f bno n :
  (∀ y, bno ≤ y < bno + Z.of_nat n → length (f y) = Z.to_nat BSIZE) →
  Z.of_nat (length (blocks_from f bno n)) = BSIZE * Z.of_nat n.
Proof.
  revert bno. induction n as [|n IH]; intros bno Hf; [done|]. cbn [blocks_from].
  rewrite length_app, Hf by lia. rewrite Nat2Z.inj_add, IH; [lia|]. intros y Hy. apply Hf. lia.
Qed.

(** Reading back the blocks of a buffer gives the buffer. *)
Lemma blocks_from_chunks buf bno n :
  blocks_from (λ y, chunk buf (y - bno)) bno n = take (Z.to_nat (BSIZE * Z.of_nat n)) buf.
Proof.
  revert buf bno. induction n as [|n IH]; intros buf bno; [done|]. cbn [blocks_from].
  replace (Z.to_nat (BSIZE * Z.of_nat (S n))) with (Z.to_nat BSIZE + Z.to_nat (BSIZE * Z.of_nat n))%nat by lia.
  rewrite <-take_take_drop. f_equal.
  { unfold chunk. by rewrite Z.sub_diag. }
  rewrite <-(IH _ (bno + 1)). apply blocks_from_ext. intros y Hy. unfold chunk.
  rewrite drop_drop. do 2 f_equal. lia.
Qed.

Lemma readswap_loop_spec n mem bno s L : bio_rep (kn_bc s) L → has_free (bc_bufs (kn_bc s)) →
  swap_blocks (bc_bufs (kn_bc s)) bno (Z.of_nat n) →
  (∀ y, bno ≤ y < bno + Z.of_nat n →
     length (block (bc_bufs (kn_bc s)) (bc_disk (kn_bc s)) ROOTDEV y) = Z.to_nat BSIZE) →
  KERNBASE ≤ mem ∧ mem + BSIZE * Z.of_nat n ≤ KERNBASE + PHYSTOP →
  ∃ bc' L', readswap_loop mypid n mem ROOTDEV bno s = Ok (tt, put KM (set_mem
      (write_bytes (k_mem (kn_km s)) mem
         (blocks_from (block (bc_bufs (kn_bc s)) (bc_disk (kn_bc s)) ROOTDEV) bno n)) (kn_km s))
      (put BC bc' s)) ∧
    bio_rep bc' L' ∧ has_free (bc_bufs bc') ∧
    (∀ x y, unlocked (bc_bufs (kn_bc s)) x y → unlocked (bc_bufs bc') x y) ∧
    ∀ x y, x ≠ 0 → block (bc_bufs bc') (bc_disk bc') x y =
      block (bc_bufs (kn_bc s)) (bc_disk (kn_bc s)) x y.
Proof.
  revert mem bno s L. induction n as [|n IH]; intros mem bno s L HL Hf Hb Hlen Hm.
  { exists (kn_bc s), L. split_and!; try done. by destruct s as [[] ? ? [[] ? ? ?] ? ? ? ? ?]. }
  cbn [readswap_loop blocks_from]. destruct (Hb bno ltac:(lia)) as [Hok Hu].
  destruct (read_block_spec mypid (kn_bc s) L ROOTDEV bno HL ltac:(done) Hok Hu Hf)
    as (c1 & L1 & E1 & HL1 & _ & Hf1 & Hu1 & Hb1).
  set (d := block (bc_bufs (kn_bc s)) (bc_disk (kn_bc s)) ROOTDEV bno) in *.
  assert (Hd : length d = Z.to_nat BSIZE) by (apply Hlen; lia).
  assert (Hmd : mapped mem (Z.of_nat (length d)) = true).
  { rewrite Hd. unfold mapped. apply andb_true_iff. split; apply Z.leb_le; lia. }
  unfold read_block in E1.
  apply bind_Ok_inv in E1 as (b & t1 & Eb & E1).
  apply bind_Ok_inv in E1 as (d' & t2 & Ed & E1).
  apply bind_Ok_inv in E1 as ([] & t3 & Er & E1).
  injection E1 as -> ->.
  rewrite (zoom_bind BC _ _ _ _ _ Eb), (zoom_bind BC _ _ (put BC t1 s) _ _ Ed).
  rewrite (zoom_bind KM _ _ _ tt (set_mem (write_bytes (k_mem (kn_km s)) mem d) (kn_km s)))
    by (unfold kwrite; simpl; by rewrite Hmd).
  rewrite (zoom_bind BC _ _ _ tt c1) by exact Er.
  destruct (IH (mem + BSIZE) (bno + 1) (put BC c1 (put KM
    (set_mem (write_bytes (k_mem (kn_km s)) mem d) (kn_km s)) s)) L1 HL1 Hf1) as (c2 & L2 & E2 & HL2 & Hf2 & Hu2 & Hb2).
  - intros y Hy. destruct (Hb y ltac:(lia)). simpl. eauto.
  - intros y Hy. simpl. rewrite Hb1 by done. apply Hlen. lia.
  - lia.
  - exists c2, L2. split_and!; try done; [|eauto|intros x y Hx; simpl in Hb2; by rewrite Hb2, Hb1].
    replace (put BC c1 _) with (put BC c1 (put KM
      (set_mem (write_bytes (k_mem (kn_km s)) mem d) (kn_km s)) s)) by done.
    rewrite E2. simpl. rewrite write_bytes_app, Hd.
    by rewrite (blocks_from_ext _ _ (bno + 1) n (λ y _, Hb1 ROOTDEV y ltac:(done))).
Qed.

(** [kalloc] for no process or without an LRU entry pops the free list. *)
Lemma kalloc_plain pid lru s F : negb (pid =? -1) && negb (lru =? -1) = false → kmem_rep (kn_km s) F →
  kalloc mypid pid lru s = Ok (k_freelist (kn_km s), put KM (popped (kn_km s)) s).
Proof.
  intros Hno HF. pose proof (kr_lock _ _ HF) as Hl. unfold kalloc, kalloc_with, popped.
  rewrite Hno. mred. unfold zoom, if_use_lock, acquire, release.
  destruct s as [[m lk u r] lr sw bc pt]. simpl in *. subst lk.
  assert (Hld : r ≠ 0 → mapped r 4 = true).
  { intros Hr. destruct F as [|p F]; [by destruct HF|].
    apply kmem_head in HF as (Hp & Hok & _). simpl in Hp. subst r.
    apply (page_ok_mapped p); [done|lia|lia]. }
  destruct u; simpl; (destruct (Z.eqb_spec r 0) as [->|Hr]; [done|]); simpl;
    unfold ldw; rewrite Hld by done; done.
Qed.

Lemma kalloc_noevict pid s F : kmem_rep (kn_km s) F →
  kalloc mypid pid (-1) s = Ok (k_freelist (kn_km s), put KM (popped (kn_km s)) s).
Proof. apply kalloc_plain, andb_false_r. Qed.

(** * The state around one process *)

(** The parts of the kernel are well formed, and [p] is the process [pr] with
    the swap slots [L], beside the slots [O] of other processes. *)
Record kn_wf (s : kernel) (p : nat) (pr : proc) (L O : list nat) (F : list Z) : Prop := {
  kw_km : kmem_rep (kn_km s) F;
  kw_dir : pt_wf (k_mem (kn_km s)) (p_pgdir pr) F;
  kw_proc : pt_proc (kn_pt s) !! p = Some pr;
  kw_swap : swap_rep (kn_swap s) (p_swap_list pr) L O;
  kw_bio : ∃ B, bio_rep (kn_bc s) B;
  kw_free : has_free (bc_bufs (kn_bc s))
}.

(** The view of the disk through the buffer cache. *)
Definition disk_view (s : kernel) : Z → Z → list Z := block (bc_bufs (kn_bc s)) (bc_disk (kn_bc s)).

(** Locks on buffers are only given back. *)
Definition keeps_unlocked (s s' : kernel) : Prop :=
  ∀ x y, unlocked (bc_bufs (kn_bc s)) x y → unlocked (bc_bufs (kn_bc s')) x y.

Lemma pset_lookup pt p pr g : pt_proc pt !! p = Some pr →
  pt_proc (put pt_arr (<[p := g pr]> (pt_proc pt)) pt) !! p = Some (g pr).
Proof. intros E. apply list_lookup_insert_eq. by eapply lookup_lt_Some. Qed.

Lemma user_bad_page v : 0 ≤ v < KERNBASE → bad_page v = true.
Proof.
  intros Hv. unfold bad_page. pose proof image_data_lo. pose proof image_data_hi.
  rewrite (proj2 (Z.ltb_lt v image_end)) by lia. by rewrite orb_true_r.
Qed.

Definition lru_room (q : list (Z * Z)) (e : Z * Z) : Prop :=
  LruSpec.guard q (LruSpec.remove e q) = Some (LruSpec.remove e q).

Lemma swap_out_spec kind buffer s p pr L O F q v i t :
  kn_wf s p pr L O F → lru_abs (kn_lru s) q → lru_room q (p_pid pr, v) →
  0 ≤ v < KERNBASE → table (k_mem (kn_km s)) (p_pgdir pr) (PDX v) = Some t →
  (∀ sl, buffer (w_swap_list sl pr) = buffer pr) →
  first_free 0 (swap_bitmap (kn_swap s)) = Some i →
  swap_blocks (bc_bufs (kn_bc s)) (swap_start kind + Z.of_nat i * 8) 8 →
  ∃ s' sl', swap_out_with mypid kind buffer p v s = Ok (1, s') ∧
    kn_wf s' p (w_swap_list sl' pr) (L ++ [i]) O F ∧
    lru_abs (kn_lru s') (LruSpec.remove (p_pid pr, v) q) ∧
    sinfo (swap_frame_list (kn_swap s')) i = Some (v, kind, 1) ∧ i ∉ L ++ O ∧
    (∀ j, j ≠ i → sinfo (swap_frame_list (kn_swap s')) j = sinfo (swap_frame_list (kn_swap s)) j) ∧
    (∀ x y, x ≠ 0 → disk_view s' x y =
       if (x =? ROOTDEV) && within y (swap_start kind + Z.of_nat i * 8) 8
       then chunk (buffer pr) (y - (swap_start kind + Z.of_nat i * 8)) else disk_view s x y) ∧
    keeps_unlocked s s' ∧
    (∀ j, 0 ≤ j < 1024 → table (k_mem (kn_km s')) (p_pgdir pr) j = table (k_mem (kn_km s)) (p_pgdir pr) j) ∧
    (∀ va, is_u32 va → pte_of (k_mem (kn_km s')) (p_pgdir pr) va =
       if decide (pg va = pg v) then Z.land (pte_of (k_mem (kn_km s)) (p_pgdir pr) v) (Z.lnot PTE_P)
       else pte_of (k_mem (kn_km s)) (p_pgdir pr) va) ∧
    (∀ x, pg x ≠ t → k_mem (kn_km s') x = k_mem (kn_km s) x) ∧
    (∀ j, j ≠ p → pt_proc (kn_pt s') !! j = pt_proc (kn_pt s) !! j).
Proof.
  intros [Hkm Hdir Hp Hsw [B HB] Hfree] Hlru Hroom Hv Ht Hbuf Hi Hblk.
  assert (Hva : is_u32 v) by (unfold is_u32; lia).
  destruct (swap_append_rep _ _ _ _ Hsw v kind i Hi) as (sw & sl' & Ea & Hsw' & Hfresh & Hinfo & Hoth & _).
  destruct (writeswap_loop_spec 8 (buffer pr) (swap_start kind + Z.of_nat i * 8) (kn_bc s) B HB Hfree Hblk)
    as (bc & B' & Ew & HB' & Hfree' & Hun & Hdisk).
  destruct (demappages_run _ _ _ v t Hkm Hdir Hva Ht) as (km & Ed & [Hkm' Hdir' _ _ _ _] & Htab & Hpte & Hout).
  destruct (lru_free_frame_abs _ _ _ _ Hlru Hroom) as (lr & El & Hlru').
  set (pt := put pt_arr (<[p := w_swap_list sl' pr]> (pt_proc (kn_pt s))) (kn_pt s)).
  assert (Hp' : pt_proc pt !! p = Some (w_swap_list sl' pr)) by (by apply pset_lookup).
  exists (put KM km (put LRU lr (put SWAP sw (put BC bc (put PT pt s))))), sl'. split_and!; try done.
  - unfold swap_out_with, writeswap, klru_free_swap.
    kstep (pget_Ok _ _ _ p_swap_list Hp). kstep Ea. kstep (pset_Ok _ _ _ (w_swap_list sl') Hp).
    kstep (pget_Ok pt _ _ buffer Hp'). rewrite Hbuf. kstep Ew.
    kstep (pget_Ok pt _ _ p_pgdir Hp'). kstep Ed. rewrite user_bad_page by done.
    erewrite bind_Ok; [reflexivity|]. kstep (pget_Ok pt _ _ p_pid Hp').
    erewrite zoom_Ok by exact El. done.
  - split; try done. by exists B'.
  - intros j Hj. by apply list_lookup_insert_ne.
Qed.

(** [readswap]: the first free page gets the eight blocks. *)
Lemma readswap_spec s p pr f F bno B :
  kmem_rep (kn_km s) (f :: F) → pt_proc (kn_pt s) !! p = Some pr → bio_rep (kn_bc s) B →
  has_free (bc_bufs (kn_bc s)) → swap_blocks (bc_bufs (kn_bc s)) bno 8 →
  (∀ y, bno ≤ y < bno + 8 →
     length (disk_view s ROOTDEV y) = Z.to_nat BSIZE ∧ Forall is_u8 (disk_view s ROOTDEV y)) →
  ∃ s' B', readswap mypid p ROOTDEV bno s = Ok (f, s') ∧
    kmem_rep (kn_km s') F ∧ bio_rep (kn_bc s') B' ∧ has_free (bc_bufs (kn_bc s')) ∧
    keeps_unlocked s s' ∧ (∀ x y, x ≠ 0 → disk_view s' x y = disk_view s x y) ∧
    read_bytes (k_mem (kn_km s')) f (Z.to_nat PGSIZE) = blocks_from (disk_view s ROOTDEV) bno 8 ∧
    (∀ x, pg x ≠ f → k_mem (kn_km s') x = k_mem (kn_km s) x) ∧
    kn_lru s' = kn_lru s ∧ kn_swap s' = kn_swap s ∧ kn_pt s' = kn_pt s.
Proof.
  intros Hkm Hp HB Hfree Hblk Hlen. destruct (kmem_head _ _ _ Hkm) as (Hhd & Hok & Hf0).
  destruct (popped_cons _ _ _ Hkm) as (Hpop & Hmem & _ & _).
  pose proof (page_ok_range _ Hok) as Hr. pose proof Hok as (Hal & _ & _).
  set (data := blocks_from (disk_view s ROOTDEV) bno 8).
  assert (Hdl : length data = Z.to_nat PGSIZE).
  { pose proof (blocks_from_length (disk_view s ROOTDEV) bno 8 (λ y Hy, proj1 (Hlen y Hy))) as Hl.
    fold data in Hl. lia. }
  destruct (readswap_loop_spec 8 f bno (put KM (popped (kn_km s)) s) B)
    as (bc & B' & E & HB' & Hf' & Hun & Hdisk); try done; [apply Hlen|lia|].
  simpl in E. rewrite Hmem in E.
  change (blocks_from (block _ _ _) bno 8) with data in E.
  exists (put KM (set_mem (write_bytes (k_mem (kn_km s)) f data) (popped (kn_km s))) (put BC bc s)), B'.
  assert (Hout : ∀ x, x < f ∨ f + PGSIZE ≤ x → write_bytes (k_mem (kn_km s)) f data x = k_mem (kn_km s) x).
  { intros x Hx. apply write_bytes_out. rewrite Hdl. lia. }
  split_and!; try done.
  - unfold readswap. kstep (pget_Ok _ _ _ p_pid Hp).
    erewrite bind_Ok by (apply (kalloc_noevict _ _ (f :: F)); exact Hkm). simpl. rewrite Hhd.
    rewrite (proj2 (Z.eqb_neq f 0)) by done. by erewrite bind_Ok by exact E.
  - apply kmem_rep_write with f; try done.
    + by apply NoDup_cons_1_1, (kr_nodup _ _ Hkm).
    + apply write_bytes_bytes; [apply Hkm|]. unfold data.
      assert (Hall : ∀ y, bno ≤ y < bno + 8 → Forall is_u8 (disk_view s ROOTDEV y)) by apply Hlen.
      clear -Hall. change 8 with (Z.of_nat 8) in Hall. revert bno Hall. generalize 8%nat as n.
      induction n as [|n IH]; intros bno Hall; [constructor|]. cbn [blocks_from].
      apply Forall_app. split; [apply Hall; lia|apply IH; intros; apply Hall; lia].
    + intros x Hx. rewrite Hmem. by apply Hout.
  - simpl. rewrite <-Hdl. apply write_bytes_read.
  - intros x Hx. apply pg_ne in Hx; [|done]. by apply Hout.
Qed.

Lemma swap_in_spec kind s p pr A x B O f F v k t :
  kn_wf s p pr (A ++ x :: B) O (f :: F) →
  (∀ i, i ∈ A → ¬ holds (swap_frame_list (kn_swap s)) v i) →
  sinfo (swap_frame_list (kn_swap s)) x = Some (v, k, 1) →
  0 ≤ v < KERNBASE → v mod PGSIZE = 0 → table (k_mem (kn_km s)) (p_pgdir pr) (PDX v) = Some t →
  let bno := swap_start kind + Z.of_nat x * 8 in
  swap_blocks (bc_bufs (kn_bc s)) bno 8 →
  (∀ y, bno ≤ y < bno + 8 →
     length (disk_view s ROOTDEV y) = Z.to_nat BSIZE ∧ Forall is_u8 (disk_view s ROOTDEV y)) →
  ∃ s' sl', swap_in_with mypid kind p v s = Ok (0, s') ∧
    kn_wf s' p (w_swap_list sl' pr) (A ++ B) O F ∧ kn_lru s' = kn_lru s ∧
    (∀ x y, x ≠ 0 → disk_view s' x y = disk_view s x y) ∧
    (∀ va, is_u32 va → pte_of (k_mem (kn_km s')) (p_pgdir pr) va =
       if decide (pg va = v) then map_entry v (V2P f) (Z.lor PTE_W PTE_U) 1 v
       else pte_of (k_mem (kn_km s)) (p_pgdir pr) va) ∧
    read_bytes (k_mem (kn_km s')) f (Z.to_nat PGSIZE) = blocks_from (disk_view s ROOTDEV) bno 8 ∧
    (∀ z, pg z ≠ f → pg z ≠ t → k_mem (kn_km s') z = k_mem (kn_km s) z) ∧
    (∀ j, j ≠ p → pt_proc (kn_pt s') !! j = pt_proc (kn_pt s) !! j).
Proof.
  intros [Hkm Hdir Hp Hsw [Bi HB] Hfree] HA Hinfo Hv Hal Ht bno Hblk Hlen.
  assert (Hva : is_u32 v) by (unfold is_u32; lia).
  destruct (swap_take_last _ _ _ _ _ _ _ _ Hsw HA Hinfo) as (sw & sl' & Ea & Hsw' & _ & _).
  set (pt := put pt_arr (<[p := w_swap_list sl' pr]> (pt_proc (kn_pt s))) (kn_pt s)).
  assert (Hp' : pt_proc pt !! p = Some (w_swap_list sl' pr)) by (by apply pset_lookup).
  destruct (readswap_spec (put PT pt (put SWAP sw s)) p _ f F bno Bi Hkm Hp' HB Hfree Hblk Hlen)
    as (s1 & B1 & E1 & Hkm1 & HB1 & Hf1 & Hun1 & Hd1 & Hrd & Hout & Hlr & Hsw1 & Hpt1).
  destruct (kmem_head _ _ _ Hkm) as (_ & Hok & _).
  assert (Hfo : ∀ z, owned (k_mem (kn_km s)) (p_pgdir pr) (pg z) →
                k_mem (kn_km s1) z = k_mem (kn_km s) z).
  { intros z Hz. apply Hout. intros Hzf. apply (owned_not_free _ _ _ _ Hdir Hz). rewrite Hzf. set_solver. }
  destruct (pt_frame _ _ _ _ Hdir Hfo) as (Htab1 & _ & Hpte1).
  assert (Hdir1 : pt_wf (k_mem (kn_km s1)) (p_pgdir pr) F).
  { eapply pt_wf_frame; [exact Hdir|done|]. intros w Hw HwF. apply (owned_not_free _ _ _ _ Hdir Hw). set_solver. }
  destruct (V2P_page f Hok) as (Hu & _ & _).
  destruct (mappages_one (p_pgdir pr) v (V2P f) (Z.lor PTE_W PTE_U) 1 (kn_km s1) F t)
    as (km & E2 & [Hkm2 Hdir2 _ _ _ _] & _ & Hpte2 & Hout2); try done; [by rewrite Htab1 by by apply PDX_range|].
  assert (Htf : t ≠ f).
  { intros ->. apply (owned_not_free _ _ _ f Hdir); [|set_solver]. right. exists (PDX v).
    split; [by apply PDX_range|done]. }
  exists (put KM km s1), sl'. split_and!.
  - unfold swap_in_with. kstep (pget_Ok _ _ _ p_swap_list Hp). kstep Ea.
    kstep (pset_Ok _ _ _ (w_swap_list sl') Hp). erewrite bind_Ok by exact E1.
    assert (Hp1 : pt_proc (kn_pt s1) !! p = Some (w_swap_list sl' pr)) by (by rewrite Hpt1).
    kstep (pget_Ok _ _ _ p_pgdir Hp1).
    erewrite zoom_Ok; [done|]. unfold mappages_swap_in. rewrite u32_small by done.
    by erewrite bind_Ok by exact E2.
  - split; simpl; rewrite ?Hpt1, ?Hsw1; try done. by exists B1.
  - done.
  - done.
  - intros va Hw. simpl. rewrite Hpte2 by done. case_decide; [done|by apply Hpte1].
  - etrans; [|exact Hrd]. apply read_bytes_ext. intros z Hz. apply Hout2.
    rewrite (pg_eq f); [done|apply Hok|lia].
  - intros z Hzf Hzt. simpl. rewrite Hout2 by done. by apply Hout.
  - intros j Hj. simpl. rewrite Hpt1. by apply list_lookup_insert_ne.
Qed.

(** The buffer of the process that a swap space is written from. *)
Definition swap_buffer (kind : Z) : proc → list Z :=
  if kind =? 0 then p_write_buffer else if kind =? 1 then p_stack_buffer else p_heap_buffer.

Lemma swap_buffer_list kind sl pr : swap_buffer kind (w_swap_list sl pr) = swap_buffer kind pr.
Proof. unfold swap_buffer. by repeat case_match. Qed.

Lemma chunk_ok buf k : Forall is_u8 buf → length buf = Z.to_nat PGSIZE → 0 ≤ k < 8 →
  length (chunk buf k) = Z.to_nat BSIZE ∧ Forall is_u8 (chunk buf k).
Proof.
  intros Hb Hl Hk. unfold chunk. split; [|by apply Forall_take, Forall_drop].
  rewrite length_take, length_drop, Hl. lia.
Qed.

Lemma swapped_in_entry f v : page_ok f → v mod PGSIZE = 0 →
  Z.testbit (map_entry v (V2P f) (Z.lor PTE_W PTE_U) 1 v) 0 = true ∧
  PTE_ADDR (map_entry v (V2P f) (Z.lor PTE_W PTE_U) 1 v) = V2P f ∧
  PTE_FLAGS (map_entry v (V2P f) (Z.lor PTE_W PTE_U) 1 v) = 7.
Proof.
  intros Hok Hal. destruct (V2P_page f Hok) as (Hu & Hm & _).
  assert (Hz : V2P f + (pg v - v) = V2P f) by (unfold pg; lia).
  destruct (map_entry_translate v (V2P f) (Z.lor PTE_W PTE_U) 1 v) as (E1 & E2 & E3);
    [by rewrite Hz|by rewrite Hz|done|]. rewrite E1, E2, E3, Hz. done.
Qed.

Lemma translate_in m pgdir f v : page_ok f → v mod PGSIZE = 0 →
  pte_of m pgdir v = map_entry v (V2P f) (Z.lor PTE_W PTE_U) 1 v →
  translate m pgdir v = Some (V2P f, 7).
Proof.
  intros Hok Hal E. destruct (swapped_in_entry f v Hok Hal) as (E1 & E2 & E3).
  unfold translate. rewrite E, E1, E2, E3, Hal. by rewrite Z.add_0_r.
Qed.

(** The hypotheses on a page that leaves or enters memory. *)
Record swappable (s : kernel) (pr : proc) (kind v : Z) (i : nat) : Prop := {
  sw_kind : 0 ≤ kind < 3;
  sw_addr : 0 ≤ v < KERNBASE ∧ v mod PGSIZE = 0;
  sw_table : is_Some (table (k_mem (kn_km s)) (p_pgdir pr) (PDX v));
  sw_slot : first_free 0 (swap_bitmap (kn_swap s)) = Some i;
  sw_blocks : swap_blocks (bc_bufs (kn_bc s)) (swap_start kind + Z.of_nat i * 8) 8
}.

(** The view of a program whose page [v] has moved to the frame [f] with the
    bytes [buf], when nothing else has changed. *)
Lemma user_byte_moved m m' pgdir F v f buf va t : um_wf m pgdir F KERNBASE → f ∈ F → page_ok f → v mod PGSIZE = 0 →
  table m pgdir (PDX v) = Some t → 0 ≤ v < KERNBASE →
  translate m' pgdir v = Some (V2P f, 7) →
  (∀ va, is_u32 va → pg va ≠ v → pte_of m' pgdir va = pte_of m pgdir va) →
  (∀ z, pg z ≠ f → pg z ≠ t → m' z = m z) →
  read_bytes m' f (Z.to_nat PGSIZE) = buf → 0 ≤ va < KERNBASE →
  user_byte m' pgdir va = if decide (pg va = v) then buf !! Z.to_nat (va - v) else user_byte m pgdir va.
Proof.
  intros Hum HfF Hf Hal Ht Hv Htr Hpte Hout Hbuf Hva. case_decide as Hpg.
  - assert (Hin : v ≤ va < v + PGSIZE) by (unfold pg in Hpg; Z.to_euclidean_division_equations; lia).
    destruct (proj1 (pg_indices va v ltac:(unfold is_u32; lia) ltac:(unfold is_u32; lia))) as [E1 E2];
      [by rewrite Hpg, (pg_eq v) by lia|].
    unfold user_byte, translate, pte_of in *. rewrite E1, E2. destruct (Z.testbit _ 0); [|done].
    injection Htr as Ea _. rewrite Hal, Z.add_0_r in Ea. rewrite Ea. cbn. rewrite <- Hbuf, read_bytes_lookup by lia.
    do 2 f_equal. destruct Hf as (Hfal & Hlo & Hhi). pose proof image_data_lo. pose proof image_data_hi.
    replace (va mod PGSIZE) with (va - v) by (Z.to_euclidean_division_equations; lia).
    unfold P2V, V2P, u32. Z.to_euclidean_division_equations. lia.
  - assert (Hp : pte_of m' pgdir va = pte_of m pgdir va) by (apply Hpte; [unfold is_u32; lia|done]).
    pose proof (frame_of_pte _ _ _ _ Hp) as Hfr.
    assert (Hok : ∀ g, frame_of m pgdir va = Some g → page_ok g) by (intros g Hg; by apply (uw_frame _ _ _ _ Hum va g)).
    rewrite !user_byte_frame by (done || by rewrite Hfr). rewrite Hfr.
    destruct (frame_of m pgdir va) as [g|] eqn:Eg; [|done]. cbn. f_equal.
    destruct (uw_frame _ _ _ _ Hum va g Hva Eg) as (Hg & HgF & Hgo).
    assert (Hpgg : pg (g + va mod PGSIZE) = g) by (apply pg_eq; [apply Hg|]; pose proof (Z.mod_pos_bound va PGSIZE); lia).
    apply Hout; rewrite Hpgg; [intros ->; by apply HgF|]. intros ->. apply Hgo. right. exists (PDX v).
    split; [apply PDX_range; unfold is_u32; lia|done].
Qed.

(** C1. A page that is swapped out and swapped in again comes back with the
    bytes it had: [swap_out], [swap_out_stack] or [swap_out_heap] followed by
    the matching [swap_in] returns 1 and 0, maps the page writable at the first
    free frame, fills the frame with the buffer of the process and gives the
    slot back.  The program sees the bytes of the buffer in the page and what
    it saw before elsewhere; so, where the page was mapped and the buffer has
    its bytes (as [get_lru] copies them), it sees all of its memory as before.
    Of the memory of the machine only the new frame and the page table with
    the entry of the page change, of the disk only the slot, and no other
    process changes. *)
Theorem swap_round_trip kind s p pr L O f F q v i :
  kn_wf s p pr L O (f :: F) → lru_abs (kn_lru s) q → lru_room q (p_pid pr, v) →
  swappable s pr kind v i →
  (∀ j, j ∈ L → ¬ holds (swap_frame_list (kn_swap s)) v j) →
  length (swap_buffer kind pr) = Z.to_nat PGSIZE → Forall is_u8 (swap_buffer kind pr) →
  um_wf (k_mem (kn_km s)) (p_pgdir pr) (f :: F) KERNBASE →
  ∃ s' sl', (r1 ← swap_out_with mypid kind (swap_buffer kind) p v;
             r2 ← swap_in_with mypid kind p v; mret (r1, r2)) s = Ok ((1, 0), s') ∧
    kn_wf s' p (w_swap_list sl' pr) L O F ∧ lru_abs (kn_lru s') (LruSpec.remove (p_pid pr, v) q) ∧
    translate (k_mem (kn_km s')) (p_pgdir pr) v = Some (V2P f, 7) ∧
    (∀ va, 0 ≤ va < KERNBASE → user_byte (k_mem (kn_km s')) (p_pgdir pr) va =
       if decide (pg va = v) then swap_buffer kind pr !! Z.to_nat (va - v)
       else user_byte (k_mem (kn_km s)) (p_pgdir pr) va) ∧
    (∀ g, frame_of (k_mem (kn_km s)) (p_pgdir pr) v = Some g →
       swap_buffer kind pr = read_bytes (k_mem (kn_km s)) g (Z.to_nat PGSIZE) →
       ∀ va, 0 ≤ va < KERNBASE →
         user_byte (k_mem (kn_km s')) (p_pgdir pr) va = user_byte (k_mem (kn_km s)) (p_pgdir pr) va) ∧
    (∀ va, is_u32 va → pg va ≠ v →
       pte_of (k_mem (kn_km s')) (p_pgdir pr) va = pte_of (k_mem (kn_km s)) (p_pgdir pr) va) ∧
    (∀ z, pg z ≠ f → Some (pg z) ≠ table (k_mem (kn_km s)) (p_pgdir pr) (PDX v) →
       k_mem (kn_km s') z = k_mem (kn_km s) z) ∧
    (∀ x y, x ≠ 0 → (x = ROOTDEV → y < swap_start kind + Z.of_nat i * 8 ∨
                                  swap_start kind + Z.of_nat i * 8 + 8 ≤ y) →
       disk_view s' x y = disk_view s x y) ∧
    (∀ j, j ≠ p → pt_proc (kn_pt s') !! j = pt_proc (kn_pt s) !! j).
Proof.
  intros Hwf Hlru Hroom [Hk [Hv Hal] [t Ht] Hslot Hblk] HL Hbl Hbu Hum.
  assert (Hpg : pg v = v) by (unfold pg; lia). assert (Hva : is_u32 v) by (unfold is_u32; lia).
  destruct (swap_out_spec kind (swap_buffer kind) s p pr L O (f :: F) q v i t)
    as (s1 & sl1 & E1 & Hwf1 & Hlru1 & Hinfo & Hfresh & Hoth & Hd1 & Hun & Htab & Hpte1 & Hm1 & Hpr1); try done.
  { intros sl. apply swap_buffer_list. }
  set (bno := swap_start kind + Z.of_nat i * 8) in *.
  assert (Hin : ∀ y, bno ≤ y < bno + 8 → disk_view s1 ROOTDEV y = chunk (swap_buffer kind pr) (y - bno)).
  { intros y Hy. rewrite Hd1 by done. within_cases; (done || lia). }
  destruct (swap_in_spec kind s1 p (w_swap_list sl1 pr) L i [] O f F v kind t Hwf1)
    as (s2 & sl2 & E2 & Hwf2 & Hlr2 & Hd2 & Hpte2 & Hrd & Hm2 & Hpr2); try done.
  { intros j Hj Hh. apply (HL j Hj), (holds_sinfo (swap_frame_list (kn_swap s1))); [|done].
    apply Hoth. intros ->. apply Hfresh. set_solver. }
  { simpl. by rewrite Htab by by apply PDX_range. }
  { intros y Hy. destruct (Hblk y Hy). by split; [|apply Hun]. }
  { intros y Hy. rewrite Hin by done. apply chunk_ok; [done..|]. fold bno in Hy. lia. }
  assert (Hf : page_ok f) by (by eapply kmem_head, Hwf). simpl in Hpte2.
  assert (Htr : translate (k_mem (kn_km s2)) (p_pgdir pr) v = Some (V2P f, 7)).
  { apply translate_in; [done..|]. by rewrite Hpte2, decide_True. }
  assert (Hoth2 : ∀ va, is_u32 va → pg va ≠ v →
    pte_of (k_mem (kn_km s2)) (p_pgdir pr) va = pte_of (k_mem (kn_km s)) (p_pgdir pr) va).
  { intros va Hw Hne. rewrite Hpte2, decide_False by done. rewrite Hpte1 by done. rewrite decide_False; [done|]. by rewrite Hpg. }
  assert (Hm : ∀ z, pg z ≠ f → pg z ≠ t → k_mem (kn_km s2) z = k_mem (kn_km s) z).
  { intros z Hz1 Hz2. by rewrite Hm2, Hm1. }
  assert (Hbytes : read_bytes (k_mem (kn_km s2)) f (Z.to_nat PGSIZE) = swap_buffer kind pr).
  { rewrite Hrd. fold bno. rewrite (blocks_from_ext _ _ bno 8 Hin), blocks_from_chunks. apply take_ge. lia. }
  pose proof (λ va, user_byte_moved _ _ _ _ v f _ va t Hum (list_elem_of_here _ _) Hf Hal Ht Hv Htr Hoth2 Hm Hbytes) as Hub.
  exists s2, sl2. rewrite app_nil_r in Hwf2. rewrite Hlr2. split_and!; try done.
  - rewrite (bind_Ok _ _ _ _ _ E1). by rewrite (bind_Ok _ _ _ _ _ E2).
  - intros g Hg Hb va Hr. rewrite Hub by done. case_decide as Hpv; [|done].
    assert (Hgok : page_ok g) by (by apply (uw_frame _ _ _ _ Hum v g)). rewrite Hb.
    assert (Hrng : v ≤ va < v + PGSIZE) by (unfold pg in Hpv; Z.to_euclidean_division_equations; lia).
    assert (Hfv : frame_of (k_mem (kn_km s)) (p_pgdir pr) va = Some g).
    { rewrite <- Hg. unfold frame_of, pte_of. by destruct (proj1 (pg_indices va v ltac:(unfold is_u32; lia) Hva)) as [-> ->]; [congruence|]. }
    rewrite user_byte_frame by (rewrite Hfv; by intros ? [= <-]). rewrite Hfv, read_bytes_lookup by lia. cbn.
    do 2 f_equal. Z.to_euclidean_division_equations. lia.
  - intros z Hz1 Hz2. apply Hm; [done|]. intros <-. by apply Hz2.
  - intros x y Hx Hy. rewrite Hd2, Hd1 by done. destruct (Z.eqb_spec x ROOTDEV) as [->|]; [|done].
    specialize (Hy eq_refl). within_cases; (done || lia).
  - intros j Hj. by rewrite Hpr2, Hpr1.
Qed.

Lemma land_lnot_P e : Z.testbit (Z.land e (Z.lnot PTE_P)) 0 = false.
Proof. by rewrite Z.land_spec, andb_false_r. Qed.

(** The oldest entry leaves the list. *)
Lemma evict_prefix s pid0 v0 q0 : lru_abs (kn_lru s) ((pid0, v0) :: q0) → q0 ≠ [] →
  ∃ lr, lru_abs lr q0 ∧ get_lru_evict mypid s = evict_page mypid pid0 v0 (put LRU lr s).
Proof.
  intros Hlru Hq0. destruct (lru_evict_abs _ _ _ Hlru Hq0) as (lr & Eev & Hlru1). unfold lru_evict in Eev.
  apply bind_Ok_inv in Eev as (index & l1 & E1 & Eev). destruct (Z.ltb_spec index 0) as [|Hidx]; [done|].
  apply bind_Ok_inv in Eev as (pid1 & l2 & E2 & Eev). apply bind_Ok_inv in Eev as (v1 & l3 & E3 & Eev).
  apply bind_Ok_inv in Eev as ([] & l4 & E4 & Eev). injection Eev as -> -> ->.
  exists lr. split; [done|]. unfold get_lru_evict. kstep E1. rewrite (proj2 (Z.ltb_ge index 0)) by done.
  kstep E2. kstep E3. kstep E4. done.
Qed.

(** Its bytes go to the buffer of the owner. *)
Lemma evict_buffer s p pr L O F pid0 v0 g :
  pfind (λ x, p_pid x =? pid0) (pt_proc (kn_pt s)) = Some p → kn_wf s p pr L O F → is_u32 v0 →
  frame_of (k_mem (kn_km s)) (p_pgdir pr) v0 = Some g → page_ok g →
  let data := read_bytes (k_mem (kn_km s)) g (Z.to_nat PGSIZE) in
  let pt := put pt_arr (<[p := w_write_buffer data pr]> (pt_proc (kn_pt s))) (kn_pt s) in
  p_pid pr = pid0 ∧ kn_wf (put PT pt s) p (w_write_buffer data pr) L O F ∧
  evict_page mypid pid0 v0 s =
    (r ← swap_out mypid p v0; if r <? 0 then mpanic "Swap Space is Full" else mret tt) (put PT pt s).
Proof.
  intros Hfind Hwf Hva Hfr Hg data pt. destruct (pfind_Some _ _ _ Hfind) as (pr0 & Hpr0 & Hpid%Z.eqb_eq & _).
  pose proof Hwf as [Hkm Hdir Hp Hsw HB Hfree]. rewrite Hp in Hpr0. apply (inj Some) in Hpr0 as <-.
  split; [done|]. split; [split; try done; by apply pset_lookup|].
  unfold evict_page, get_proc. erewrite zoom_bind by reflexivity. simpl.
  rewrite Hfind. kstep (pget_Ok _ _ _ p_pgdir Hp). kstep (read_vaddr_run _ _ _ _ _ Hdir Hva Hg Hfr).
  kstep (pset_Ok _ _ _ (w_write_buffer data) Hp). done.
Qed.

Lemma evict_page_spec s p pr L O F pid0 v0 q0 g i :
  lru_abs (kn_lru s) q0 → lru_room q0 (pid0, v0) →
  pfind (λ x, p_pid x =? pid0) (pt_proc (kn_pt s)) = Some p → kn_wf s p pr L O F →
  swappable s pr 0 v0 i → frame_of (k_mem (kn_km s)) (p_pgdir pr) v0 = Some g → page_ok g →
  let data := read_bytes (k_mem (kn_km s)) g (Z.to_nat PGSIZE) in
  ∃ s' sl', evict_page mypid pid0 v0 s = Ok (tt, s') ∧
    lru_abs (kn_lru s') (LruSpec.remove (pid0, v0) q0) ∧
    kn_wf s' p (w_swap_list sl' (w_write_buffer data pr)) (L ++ [i]) O F ∧
    sinfo (swap_frame_list (kn_swap s')) i = Some (v0, 0, 1) ∧
    blocks_from (disk_view s' ROOTDEV) (swap_start 0 + Z.of_nat i * 8) 8 = data ∧
    translate (k_mem (kn_km s')) (p_pgdir pr) v0 = None.
Proof.
  intros Hlru Hroom Hfind Hwf [Hk [Hv Hal] [t Ht] Hslot Hblk] Hfr Hg data.
  assert (Hva : is_u32 v0) by (unfold is_u32; lia).
  destruct (evict_buffer s p pr L O F pid0 v0 g Hfind Hwf Hva Hfr Hg) as (Hpid & Hwf1 & E). fold data in Hwf1, E.
  destruct (swap_out_spec 0 p_write_buffer _ p (w_write_buffer data pr) L O F q0 v0 i t Hwf1)
    as (s' & sl' & Eo & Hwf' & Hlru' & Hinfo & _ & _ & Hdisk & _ & _ & Hpte & _); try done.
  { simpl. by rewrite Hpid. }
  exists s', sl'. simpl in Hlru'. rewrite Hpid in Hlru'. split_and!; try done.
  - rewrite E. by erewrite bind_Ok by exact Eo.
  - erewrite blocks_from_ext with (g := λ y, chunk data (y - (swap_start 0 + Z.of_nat i * 8))).
    + rewrite blocks_from_chunks. apply take_ge. unfold data. rewrite read_bytes_length. lia.
    + intros y Hy. rewrite Hdisk by done. within_cases; (done || lia).
  - unfold translate. rewrite Hpte by done. rewrite decide_True by done. by rewrite land_lnot_P.
Qed.

Lemma evict_page_full s p pr L O F pid0 v0 g :
  pfind (λ x, p_pid x =? pid0) (pt_proc (kn_pt s)) = Some p → kn_wf s p pr L O F → is_u32 v0 →
  frame_of (k_mem (kn_km s)) (p_pgdir pr) v0 = Some g → page_ok g →
  first_free 0 (swap_bitmap (kn_swap s)) = None →
  evict_page mypid pid0 v0 s = Panic "Swap Space is Full".
Proof.
  intros Hfind Hwf Hva Hfr Hg Hfull. destruct (evict_buffer s p pr L O F pid0 v0 g Hfind Hwf Hva Hfr Hg) as (_ & Hwf1 & E).
  rewrite E. destruct Hwf1 as [_ _ Hp Hsw _ _]. unfold swap_out, swap_out_with. rewrite bind_assoc.
  kstep (pget_Ok _ _ _ p_swap_list Hp). rewrite bind_assoc. kstep (swap_append_full _ _ _ _ Hsw v0 0 Hfull).
  erewrite bind_Ok by reflexivity. done.
Qed.

(** A page without an entry in the tables is only dropped. *)
Lemma evict_page_gone s p pr L O F pid0 v0 :
  pfind (λ x, p_pid x =? pid0) (pt_proc (kn_pt s)) = Some p → kn_wf s p pr L O F → is_u32 v0 →
  pte_of (k_mem (kn_km s)) (p_pgdir pr) v0 = 0 → evict_page mypid pid0 v0 s = Ok (tt, s).
Proof.
  intros Hfind [Hkm Hdir Hp Hsw HB Hfree] Hva Hpte.
  destruct (pfind_Some _ _ _ Hfind) as (pr0 & Hpr0 & _). rewrite Hp in Hpr0. apply (inj Some) in Hpr0 as <-.
  unfold evict_page, get_proc. erewrite zoom_bind by reflexivity. simpl. rewrite Hfind.
  kstep (pget_Ok _ _ _ p_pgdir Hp). kstep (read_vaddr_none _ _ _ _ Hdir Hva Hpte). by destruct s.
Qed.

(** The pages of a process that has exited leave all together. *)
Lemma evict_page_dead s pid0 v0 q0 : lru_abs (kn_lru s) q0 →
  pfind (λ x, p_pid x =? pid0) (pt_proc (kn_pt s)) = None →
  LruSpec.guard q0 (LruSpec.free_pages pid0 q0) = Some (LruSpec.free_pages pid0 q0) →
  ∃ lr, evict_page mypid pid0 v0 s = Ok (tt, put LRU lr s) ∧ lru_abs lr (LruSpec.free_pages pid0 q0).
Proof.
  intros Hlru Hfind Hg. destruct (lru_free_abs _ _ _ Hlru Hg) as (lr & E & Hl). exists lr. split; [|done].
  unfold evict_page, get_proc at 1. erewrite zoom_bind by reflexivity. simpl. rewrite Hfind. kstep E.
  unfold swap_free, get_proc. erewrite zoom_bind by reflexivity. simpl. by rewrite Hfind.
Qed.

(** C22. [swap_out] takes the first free slot, writes the buffer of the process
    to its eight blocks and makes the page unmapped: it returns 1, and the
    free list of frames is the one it was, so the frame of the page is not
    returned.  With no free slot it returns -1 and keeps [swap.lk]. *)
Theorem swap_out_outcome s p pr L O F q v i t :
  kn_wf s p pr L O F → lru_abs (kn_lru s) q → lru_room q (p_pid pr, v) →
  0 ≤ v < KERNBASE → table (k_mem (kn_km s)) (p_pgdir pr) (PDX v) = Some t →
  length (p_write_buffer pr) = Z.to_nat PGSIZE →
  (first_free 0 (swap_bitmap (kn_swap s)) = Some i →
   swap_blocks (bc_bufs (kn_bc s)) (swap_start 0 + Z.of_nat i * 8) 8 →
   ∃ s' sl', swap_out mypid p v s = Ok (1, s') ∧ kn_wf s' p (w_swap_list sl' pr) (L ++ [i]) O F ∧
     lru_abs (kn_lru s') (LruSpec.remove (p_pid pr, v) q) ∧
     k_freelist (kn_km s') = k_freelist (kn_km s) ∧
     blocks_from (disk_view s' ROOTDEV) (swap_start 0 + Z.of_nat i * 8) 8 = p_write_buffer pr ∧
     translate (k_mem (kn_km s')) (p_pgdir pr) v = None) ∧
  (first_free 0 (swap_bitmap (kn_swap s)) = None →
   ∃ s', swap_out mypid p v s = Ok (-1, s') ∧ swap_lk (kn_swap s') = true).
Proof.
  intros Hwf Hlru Hroom Hv Ht Hlen. split.
  - intros Hslot Hblk. assert (Hva : is_u32 v) by (unfold is_u32; lia).
    destruct (swap_out_spec 0 p_write_buffer s p pr L O F q v i t)
      as (s' & sl' & Eo & Hwf' & Hlru' & _ & _ & _ & Hdisk & _ & _ & Hpte & _); try done.
    exists s', sl'. split_and!; try done.
    + destruct (kw_km _ _ _ _ _ _ Hwf) as [Hc _ _ _], (kw_km _ _ _ _ _ _ Hwf') as [Hc' _ _ _].
      by destruct F; simpl in *; [congruence|destruct Hc as [-> _], Hc' as [-> _]].
    + erewrite blocks_from_ext with (g := λ y, chunk (p_write_buffer pr) (y - (swap_start 0 + Z.of_nat i * 8))).
      * rewrite blocks_from_chunks. apply take_ge. lia.
      * intros y Hy. rewrite Hdisk by done. within_cases; (done || lia).
    + unfold translate. rewrite Hpte by done. rewrite decide_True by done. by rewrite land_lnot_P.
  - intros Hfull. destruct Hwf as [_ _ Hp Hsw _ _].
    eexists. unfold swap_out, swap_out_with. kstep (pget_Ok _ _ _ p_swap_list Hp).
    kstep (swap_append_full _ _ _ _ Hsw v 0 Hfull). by split.
Qed.

Lemma get_lru_room s q pid v : lru_abs (kn_lru s) q → (length q < MAX_FRAME_LRU)%nat →
  ∃ lr, get_lru mypid pid v s = Ok (tt, put LRU lr s) ∧ lru_abs lr (q ++ [(pid, v)]).
Proof.
  intros Hlru Hq. destruct (lru_insert_abs _ _ pid v Hlru) as (r & lr & E & Hl & Hr & _).
  apply Hr in Hq as Hr0. subst r. exists lr. split.
  - unfold get_lru. cbn [get_lru_loop]. kstep E. done.
  - unfold LruSpec.insert in Hl. by rewrite (proj2 (Nat.ltb_lt _ _)) in Hl.
Qed.

Lemma lru_room_long q e : (2 ≤ length q)%nat → lru_room q e.
Proof.
  intros Hq. unfold lru_room, LruSpec.guard. assert (Hl : (length q ≤ S (length (LruSpec.remove e q)))%nat).
  { clear Hq. induction q as [|x q IH]; simpl; [lia|]. case_decide; simpl; lia. }
  destruct (LruSpec.remove e q); [simpl in Hl; lia|]. by destruct q.
Qed.

Lemma get_lru_done s q pid v : lru_abs (kn_lru s) q → (length q < MAX_FRAME_LRU)%nat →
  ∃ lr, get_lru_loop mypid 1 pid v s = Ok (tt, put LRU lr s) ∧ lru_abs lr (q ++ [(pid, v)]).
Proof.
  intros Hlru Hq. destruct (lru_insert_abs _ _ pid v Hlru) as (r & lr & E & Hl & Hr & _).
  apply Hr in Hq as Hr0. subst r. exists lr. split.
  - cbn [get_lru_loop]. kstep E. done.
  - unfold LruSpec.insert in Hl. by rewrite (proj2 (Nat.ltb_lt _ _)) in Hl.
Qed.

Lemma get_lru_full s pid v pid0 v0 q0 : lru_abs (kn_lru s) ((pid0, v0) :: q0) → S (length q0) = MAX_FRAME_LRU →
  ∃ lr, lru_abs lr q0 ∧ get_lru mypid pid v s = (evict_page mypid pid0 v0;; get_lru_loop mypid 1 pid v) (put LRU lr s).
Proof.
  intros Hlru Hq. destruct (lru_insert_abs _ _ pid v Hlru) as (r & lr & E & Hl & _ & Hr).
  apply Hr in Hq as Hr1. subst r. unfold LruSpec.insert in Hl. rewrite (proj2 (Nat.ltb_ge _ _)) in Hl by (simpl; lia).
  assert (Hq0 : q0 ≠ []) by (intros ->; with_strategy transparent [MAX_FRAME_LRU] by vm_compute in Hq).
  destruct (evict_prefix (put LRU lr s) pid0 v0 q0 Hl Hq0) as (lr1 & Hl1 & Ee). exists lr1. split; [done|].
  unfold get_lru. cbn [get_lru_loop]. kstep E. change (-1 <? 0) with true. cbv iota.
  unfold mbind, M_bind. rewrite Ee. done.
Qed.

End swapio.

(** * A sample kernel: one process with one page, and one free frame *)
#[local] Existing Instance sample_image.
#[local] Existing Instance sample_image_ok.
#[local] Instance sample_disk_driver : BlockDriver := memide 20000.

Definition sample_proc : proc :=
  w_write_buffer (replicate (Z.to_nat PGSIZE) 7) (w_pgdir 0x80200000 (w_ppid 1 (w_state RUNNING proc0))).

(** A page that is put on the free list. *)
Lemma free_page km pgdir F v : kmem_rep km F → pt_wf (k_mem km) pgdir F → page_ok v → v ∉ F → ¬ owned (k_mem km) pgdir v →
  kmem_rep (freed km v) (v :: F) ∧ pt_wf (k_mem (freed km v)) pgdir (v :: F) ∧
  (∀ w, owned (k_mem (freed km v)) pgdir w ↔ owned (k_mem km) pgdir w) ∧
  ∀ va, is_u32 va → pte_of (k_mem (freed km v)) pgdir va = pte_of (k_mem km) pgdir va.
Proof.
  intros HF Hwf Hok Hv Ho. assert (Hm : ∀ x, owned (k_mem km) pgdir (pg x) → k_mem (freed km v) x = k_mem km x).
  { intros x Hx. apply freed_out, pg_ne; [apply Hok|]. intros E. by rewrite E in Hx. }
  destruct (pt_frame _ _ _ _ Hwf Hm) as (_ & How & Hpte). split_and!; [by apply freed_rep| |done|done].
  eapply pt_wf_frame; [exact Hwf|done|]. intros w Hw. apply not_elem_of_cons. split; [by intros ->|by eapply owned_not_free].
Qed.

Lemma sample_mem : ∃ km, kmem_rep km [0x80500000] ∧ pt_wf (k_mem km) 0x80200000 [0x80500000] ∧
  frame_of (k_mem km) 0x80200000 0 = Some 0x80400000 ∧ um_wf (k_mem km) 0x80200000 [0x80500000] KERNBASE.
Proof.
  destruct (one_page_frames 0x80200000 0x80300000 0x80400000)
    as (km & HF & Hwf & Hum & Hf & Ho); [by apply sample_page_ok..|done|done|done|].
  destruct (free_page km 0x80200000 [] 0x80500000 HF Hwf) as (HF1 & Hwf1 & Ho1 & Hp1); [by apply sample_page_ok|set_solver| |].
  { by intros [?|?]%Ho. }
  assert (Hf1 : ∀ va, 0 ≤ va < KERNBASE → frame_of (k_mem (freed km 0x80500000)) 0x80200000 va = frame_of (k_mem km) 0x80200000 va).
  { intros va Hva. apply frame_of_pte, Hp1. unfold is_u32. lia. }
  exists (freed km 0x80500000). split; [exact HF1|]. split; [exact Hwf1|]. split; [by rewrite Hf1, Hf|]. split.
  - intros va v Hva Hv. rewrite Hf1 in Hv by done. destruct (uw_frame _ _ _ _ Hum va v Hva Hv) as (? & _ & ?).
    rewrite Hf in Hv by done. case_decide; [|done]. injection Hv as <-. split_and!; [done|set_solver|by rewrite Ho1].
  - intros va va' v Hva Hva'. rewrite !Hf1 by done. by apply (uw_inj _ _ _ _ Hum).
Qed.

Lemma frame_table m pgdir va v : frame_of m pgdir va = Some v → is_Some (table m pgdir (PDX va)).
Proof. unfold frame_of, pte_of. by destruct (table m pgdir (PDX va)). Qed.

Lemma sample_kernel lr : ∃ s, kn_wf s 0 sample_proc [] [] [0x80500000] ∧ kn_lru s = lr ∧
  pt_proc (kn_pt s) = [sample_proc] ∧ frame_of (k_mem (kn_km s)) 0x80200000 0 = Some 0x80400000 ∧
  swappable s sample_proc 0 0 0 ∧ um_wf (k_mem (kn_km s)) 0x80200000 [0x80500000] KERNBASE.
Proof.
  destruct sample_mem as (km & HF & Hwf & Hfr & Hum). destruct swap_boot as (sw & _ & Hsw & Hff).
  destruct (binit_rep (Disk (λ _ _, replicate 512 0) [])) as (bc & B & _ & HB & Hd & Hfree & Hun & _).
  set (fs := FsState (LogSys bc (Log false 2 30 0 false 1 0 (replicate 30 0))) (Superblock 1000 941 200 30 2 32 58) false
    (replicate NINODE (Inode 0 0 0 (SleepLock false false 0) false 0 0 0 0 0 (replicate 13 0)))).
  exists (Kernel km lr sw fs (Ptable [sample_proc] false 2 None) (Ftable (replicate NFILE file0) false) ∅ 0 false).
  split; [|split; [reflexivity|split; [reflexivity|split; [exact Hfr|split; [|exact Hum]]]]].
  - constructor; [exact HF|exact Hwf|reflexivity|exact Hsw|exists B; exact HB|exact Hfree].
  - constructor; [lia|split; [lia|reflexivity]|exact (frame_table _ _ _ _ Hfr)|exact Hff|].
    intros y Hy. split; [|apply Hun]. cbn in Hy |- *. by rewrite (proj2 (Z.leb_le 0 y)), (proj2 (Z.ltb_lt y 20000)) by lia.
Qed.

(** The page of the process is the oldest, the list is full. *)
Lemma lru_filled n : (n < MAX_FRAME_LRU)%nat → ∃ s, lru_abs s ((1, 0) :: replicate n (2, 4096)).
Proof.
  induction n as [|n IH]; intros Hn.
  - destruct lru_init_abs as (s & _ & Hs). destruct (lru_insert_abs _ _ 1 0 Hs) as (r & s' & _ & Hs' & _).
    exists s'. unfold LruSpec.insert in Hs'. by rewrite (proj2 (Nat.ltb_lt _ _)) in Hs' by (simpl; lia).
  - destruct IH as (s & Hs); [lia|]. destruct (lru_insert_abs _ _ 2 4096 Hs) as (r & s' & _ & Hs' & _).
    exists s'. unfold LruSpec.insert in Hs'.
    rewrite (proj2 (Nat.ltb_lt _ _)) in Hs' by (simpl; rewrite length_replicate; lia).
    simpl in Hs'. by rewrite <- replicate_S_end in Hs'.
Qed.

(** The process has the bytes of its page in its buffer, as [get_lru] leaves it. *)
Lemma sample_evicted lr : ∃ s pr, kn_wf s 0 pr [] [] [0x80500000] ∧ kn_lru s = lr ∧ p_pgdir pr = 0x80200000 ∧ p_pid pr = 1 ∧
  frame_of (k_mem (kn_km s)) 0x80200000 0 = Some 0x80400000 ∧ swappable s pr 0 0 0 ∧
  um_wf (k_mem (kn_km s)) 0x80200000 [0x80500000] KERNBASE ∧
  swap_buffer 0 pr = read_bytes (k_mem (kn_km s)) 0x80400000 (Z.to_nat PGSIZE).
Proof.
  destruct (sample_kernel lr) as (s & Hwf & Hl & Hp & Hfr & Hsw & Hum).
  set (pr := w_write_buffer (read_bytes (k_mem (kn_km s)) 0x80400000 (Z.to_nat PGSIZE)) sample_proc).
  exists (put PT (put pt_arr [pr] (kn_pt s)) s), pr.
  split; [|split; [exact Hl|split; [done|split; [done|split; [exact Hfr|split; [|split; [exact Hum|done]]]]]]].
  - destruct Hwf as [H1 H2 H3 H4 H5 H6]. constructor; [exact H1|exact H2|done|exact H4|exact H5|exact H6].
  - destruct Hsw as [H1 H2 H3 H4 H5]. constructor; [exact H1|exact H2|exact H3|exact H4|exact H5].
Qed.

Lemma swap_round_trip_witness : ∃ s s', (r1 ← swap_out_with 1 0 (swap_buffer 0) 0 0;
    r2 ← swap_in_with 1 0 0 0; mret (r1, r2)) s = Ok ((1, 0), s') ∧
  frame_of (k_mem (kn_km s)) 0x80200000 0 = Some 0x80400000 ∧
  translate (k_mem (kn_km s')) 0x80200000 0 = Some (0x500000, 7) ∧
  ∀ va, 0 ≤ va < KERNBASE → user_byte (k_mem (kn_km s')) 0x80200000 va = user_byte (k_mem (kn_km s)) 0x80200000 va.
Proof.
  destruct lru_init_abs as (lr & _ & Hlru).
  destruct (sample_evicted lr) as (s & pr & Hwf & Hl & Hd & _ & Hfr & Hsw & Hum & Hb). rewrite <- Hl in Hlru. rewrite <- Hd in *.
  destruct (swap_round_trip 1 0 s 0 pr [] [] 0x80500000 [] [] 0 0 Hwf Hlru)
    as (s' & sl' & E & _ & _ & Ht & _ & Hsame & _).
  - reflexivity.
  - exact Hsw.
  - intros j Hj. by apply not_elem_of_nil in Hj.
  - rewrite Hb. apply read_bytes_length.
  - rewrite Hb. unfold read_bytes. apply Forall_fmap, Forall_forall. intros k _. apply (kr_bytes _ _ (kw_km _ _ _ _ _ _ Hwf)).
  - exact Hum.
  - exists s, s'. split; [exact E|]. split; [exact Hfr|]. split; [exact Ht|exact (Hsame _ Hfr Hb)].
Defined.

Lemma swap_out_outcome_witness : ∃ s s', swap_out 1 0 0 s = Ok (1, s') ∧
  k_freelist (kn_km s') = k_freelist (kn_km s) ∧ translate (k_mem (kn_km s')) 0x80200000 0 = None.
Proof.
  destruct lru_init_abs as (lr & _ & Hlru). destruct (sample_kernel lr) as (s & Hwf & Hl & _ & _ & Hsw & _).
  rewrite <- Hl in Hlru. destruct (sw_table _ _ _ _ _ Hsw) as (t & Ht).
  destruct (swap_out_outcome 1 s 0 sample_proc [] [] _ [] 0 0 t Hwf Hlru) as [Ho _].
  - reflexivity.
  - lia.
  - exact Ht.
  - apply length_replicate.
  - destruct (Ho (sw_slot _ _ _ _ _ Hsw) (sw_blocks _ _ _ _ _ Hsw)) as (s' & sl' & E & _ & _ & Hfl & _ & Htr).
    exists s, s'. split; [exact E|]. split; [exact Hfl|exact Htr].
Defined.

