(* ===== verification/CopyUvm.v ===== *)
(** The memory that [fork] gives a child: [copyuvm] of vm.c. *)

From Stdlib Require Import ZArith Lia.
From stdpp Require Import base functions numbers strings option gmap sets list list_numbers.
From S2P Require Import Prelude Spinlock Lru Swap Mem Kalloc Vm Segments Kvm Block Bio Cache Log Fs Pipe Proc Kernel Paging.

Section copyuvm.
Context `{KernelImage} `{BlockDriver}.
Context {IOk : KernelImageOk _}.
Variable mypid : Z.

(** [kalloc] while the LRU list has room. *)
Lemma kalloc_room pid lru s p F q : kmem_rep (kn_km s) (p :: F) → lru_abs (kn_lru s) q → (length q < MAX_FRAME_LRU)%nat →
  ∃ lr q', kalloc mypid pid lru s = Ok (p, put LRU lr (put KM (popped (kn_km s)) s)) ∧ lru_abs lr q' ∧ (length q' ≤ S (length q))%nat.
Proof.
  intros HF Hq Hl. destruct (kmem_head _ _ _ HF) as (Hhd & Hp & Hp0). pose proof (kr_lock _ _ HF) as Hlk.
  destruct (negb (pid =? -1) && negb (lru =? -1)) eqn:Hev.
  2:{ exists (kn_lru s), q. rewrite (kalloc_plain _ _ _ _ (p :: F)) by done. rewrite Hhd. split_and!; [by destruct s|done|lia]. }
  destruct s as [[m lk u r] lr sw fs pt ft pp ti tl]. cbn [kn_km kn_lru k_freelist k_lock] in *. subst r lk.
  assert (ldw p (KmemState m u u p) = Ok (load32 m p, KmemState m u u p)) as Hld.
  { unfold ldw. by rewrite (page_ok_mapped p) by (done || lia). }
  destruct (get_lru_room mypid (Kernel (KmemState m u u (load32 m p)) lr sw fs pt ft pp ti tl) q pid (u32 lru) Hq Hl) as (lr' & E & Hq').
  exists lr', (q ++ [(pid, u32 lru)]). split_and!; [|done|rewrite length_app; cbn; lia].
  unfold kalloc, kalloc_with. rewrite Hev.
  erewrite (zoom_bind KM) with (t := KmemState m u u p) by (unfold if_use_lock, acquire; by destruct u).
  cbn [put KM kn_km]. erewrite (zoom_bind KM) by reflexivity. cbn [k_freelist put KM]. rewrite (proj2 (Z.eqb_neq _ _)) by done. cbn [negb].
  rewrite bind_assoc. erewrite (zoom_bind KM) by exact Hld. rewrite bind_assoc. erewrite (zoom_bind KM) by reflexivity.
  erewrite bind_Ok by exact E. erewrite (zoom_bind KM) with (t := KmemState m false u (load32 m p)) by (unfold if_use_lock, release; by destruct u).
  unfold popped. cbn. rewrite (proj2 (Z.eqb_neq _ _)) by done. done.
Qed.


(** * The state of the copy *)

Section copying.
(** The kernel when [copyuvm] is called, its free pages, the directory of the
    parent and that of the child. *)
Variables (s0 : kernel) (FA : list Z) (pd d : Z).
Abbreviation m0 := (k_mem (kn_km s0)).

(** Address [va] of the child: mapped to a copy of the parent's byte, with the
    parent's permissions, or unmapped as in the parent. *)
Definition sees (m : mem) (F : list Z) (va : Z) : Prop :=
  match translate m0 pd va with
  | Some (pa, fl) => ∃ f, page_ok f ∧ f ∈ FA ∧ f ∉ F ∧ ¬ owned m d f ∧
      translate m d va = Some (V2P f + va mod PGSIZE, fl) ∧ m (f + va mod PGSIZE) = m0 (P2V pa)
  | None => translate m d va = None
  end.

(** Pages below [a] are copied. *)
Record copying (a : Z) (s : kernel) (F : list Z) (q : list (Z * Z)) : Prop := {
  cp_rest : s = put LRU (kn_lru s) (put KM (kn_km s) s0);
  cp_rep : kmem_rep (kn_km s) F;
  cp_wf : pt_wf (k_mem (kn_km s)) d F;
  cp_suf : F `suffix_of` FA;
  cp_own : ∀ v, owned (k_mem (kn_km s)) d v → v ∈ FA;
  cp_lru : lru_abs (kn_lru s) q;
  cp_out : ∀ x, pg x ∉ FA → k_mem (kn_km s) x = m0 x;
  cp_low : ∀ va, 0 ≤ va < a → sees (k_mem (kn_km s)) F va;
  cp_high : ∀ va, is_u32 va → a ≤ va → translate (k_mem (kn_km s)) d va = kernel_map va;
  cp_inj : ∀ va va' pa fl fl', 0 ≤ va < a → 0 ≤ va' < a →
    translate (k_mem (kn_km s)) d va = Some (pa, fl) → translate (k_mem (kn_km s)) d va' = Some (pa, fl') → va = va'
}.

Lemma V2P_off f o : page_ok f → 0 ≤ o < PGSIZE → V2P f + o = f - KERNBASE + o ∧ pg (f + o) = f.
Proof.
  intros Hf Ho. pose proof (page_ok_range f Hf). split; [unfold V2P; rewrite u32_small by lia; lia|]. apply pg_eq; [apply Hf|lia].
Qed.

(** Mapping one more page, [new], keeps the invariant. *)
Lemma copying_step a s F q km F' lr q' (new : option (Z * Z)) : copying a s F q → a mod PGSIZE = 0 → 0 ≤ a → a + PGSIZE ≤ KERNBASE →
  kmem_rep km F' → pt_wf (k_mem km) d F' → F' `suffix_of` F → (∀ v, owned (k_mem km) d v → owned (k_mem (kn_km s)) d v ∨ v ∈ F) →
  (∀ x, ¬ owned (k_mem (kn_km s)) d (pg x) → pg x ∉ F → k_mem km x = k_mem (kn_km s) x) →
  maps (k_mem km) d (λ va, if decide (a ≤ va < a + PGSIZE) then (λ '(p, fl), (V2P p + (va - a), fl)) <$> new else translate (k_mem (kn_km s)) d va) →
  (∀ p fl, new = Some (p, fl) → page_ok p ∧ p ∈ F ∧ p ∉ F' ∧ ¬ owned (k_mem km) d p) →
  (∀ va, a ≤ va < a + PGSIZE → match translate m0 pd va with
     | Some (pa, fl) => ∃ p, new = Some (p, fl) ∧ k_mem km (p + (va - a)) = m0 (P2V pa)
     | None => new = None end) →
  lru_abs lr q' → copying (a + PGSIZE) (put LRU lr (put KM km s)) F' q'.
Proof.
  intros [Hrest HF Hwf Hsuf Hown Hq Hout Hlow Hhigh Hinj] Ha Ha0 Hahi HF' Hwf' Hsuf' Hown' Hfr Hmap Hnew Hsees Hq'.
  assert (∀ va, a ≤ va < a + PGSIZE → va mod PGSIZE = va - a) as Hmod by (intros va Hva; Z.to_euclidean_division_equations; lia).
  assert (∀ va, 0 ≤ va < a + PGSIZE → is_u32 va) as Hu by (intros va Hva; unfold is_u32; lia).
  split; cbn [put LRU KM kn_lru kn_km]; try done.
  - rewrite Hrest. done.
  - by etrans.
  - intros v [?|?]%Hown'; [by apply Hown|by eapply suffix_elem].
  - intros x Hx. rewrite Hfr; [by apply Hout| |]; intros Hc; apply Hx; [by apply Hown|by eapply suffix_elem].
  - intros va Hva. unfold sees. destruct (decide (va < a)) as [Hlt|Hge].
    + specialize (Hlow va ltac:(lia)). unfold sees in Hlow. rewrite Hmap by (apply Hu; lia). rewrite decide_False by lia.
      destruct (translate m0 pd va) as [[pa fl]|]; [|done]. destruct Hlow as (f & Hf & HfA & HfF & Hno & Ht & Hb). exists f.
      split_and!; try done.
      * intros ?. apply HfF. by eapply suffix_elem.
      * by intros [?|?]%Hown'.
      * rewrite <-Hb. destruct (V2P_off f (va mod PGSIZE) Hf) as [_ Hpg]; [apply Z.mod_pos_bound; lia|]. apply Hfr; by rewrite Hpg.
    + specialize (Hsees va ltac:(lia)). rewrite Hmap by (apply Hu; lia). rewrite decide_True, Hmod by lia.
      destruct (translate m0 pd va) as [[pa fl]|]; [|by rewrite Hsees]. destruct Hsees as (p & Ep & Hb). destruct (Hnew p fl Ep) as (? & ? & ? & ?).
      exists p. rewrite Ep. split_and!; try done. by eapply suffix_elem.
  - intros va Hva Hge. rewrite Hmap by done. rewrite decide_False by lia. apply Hhigh; [done|lia].
  - intros va va' pa fl fl' Hva Hva'. rewrite !Hmap by (apply Hu; lia).
    assert (∀ w f pf p pfl, 0 ≤ w < a → translate (k_mem (kn_km s)) d w = Some (pf, f) → new = Some (p, pfl) → ∀ o, 0 ≤ o < PGSIZE → pf ≠ V2P p + o) as Hold.
    { intros w fw pf p pfl Hw Ht Ep o Ho ->. specialize (Hlow w Hw). unfold sees in Hlow. destruct (translate m0 pd w) as [[? ?]|]; [|congruence].
      destruct Hlow as (g & Hg & _ & HgF & _ & Ht' & _). rewrite Ht in Ht'. destruct (Hnew p pfl Ep) as (Hp & HpF & _). simplify_eq.
      destruct (V2P_off p o Hp Ho) as [E1 E2], (V2P_off g (w mod PGSIZE) Hg ltac:(apply Z.mod_pos_bound; lia)) as [E3 E4].
      apply HgF. replace g with p; [done|]. rewrite <-E2, <-E4. f_equal. lia. }
    repeat case_decide; destruct new as [[p pfl]|] eqn:En; cbn; intros; simplify_eq; try lia.
    + exfalso. eapply (Hold va'); [lia|done|done| |done]. lia.
    + exfalso. eapply (Hold va); [lia|done|done| |done]. lia.
    + eapply Hinj; [lia|lia|done|done].
    + eapply Hinj; [lia|lia|done|done].
Qed.

Lemma translate_page m a va : a mod PGSIZE = 0 → 0 ≤ a → a + PGSIZE ≤ KERNBASE → a ≤ va < a + PGSIZE →
  translate m pd va = if Z.testbit (pte_of m pd a) 0 then Some (PTE_ADDR (pte_of m pd a) + (va - a), PTE_FLAGS (pte_of m pd a)) else None.
Proof.
  intros Ha Ha0 Hahi Hva. assert (pg va = pg a) as Epg by (by rewrite !(pg_eq a) by lia).
  apply pg_indices in Epg as [E1 E2]; [|unfold is_u32; lia..]. unfold translate, pte_of. rewrite E1, E2.
  replace (va mod PGSIZE) with (va - a) by (Z.to_euclidean_division_equations; lia). done.
Qed.

Lemma P2V_off x o : page_ok (P2V x) → 0 ≤ o < PGSIZE → P2V (x + o) = P2V x + o.
Proof.
  intros Hp Ho. pose proof (page_ok_range _ Hp). unfold P2V in *. replace (x + o + KERNBASE) with (x + KERNBASE + o) by lia.
  unfold u32 in *. rewrite Z.add_mod, (Z.mod_small o), Z.mod_small by lia. done.
Qed.

Lemma V2P_aligned mem : mem mod PGSIZE = 0 → is_u32 (V2P mem) ∧ V2P mem mod PGSIZE = 0.
Proof.
  intros Hm. unfold V2P. split; [apply u32_range|]. unfold u32. rewrite Z.mod_mod_divide by (by exists 1048576).
  Z.to_euclidean_division_equations. lia.
Qed.

Lemma flags_present e : Z.testbit e 0 = true → 0 ≤ PTE_FLAGS e < PGSIZE ∧ Z.lor (PTE_FLAGS e) PTE_P = PTE_FLAGS e.
Proof.
  intros He. unfold PTE_FLAGS. change 0xFFF with (Z.ones 12). rewrite Z.land_ones by lia. split; [apply Z.mod_pos_bound; lia|].
  apply Z.bits_inj'. intros n Hn. rewrite Z.lor_spec. destruct (decide (n = 0)) as [->|].
  - rewrite Z.mod_pow2_bits_low, orb_true_r by lia. unfold u32. by rewrite Z.mod_pow2_bits_low.
  - assert (Z.testbit 1 n = false) as ->; [|by rewrite orb_false_r]. destruct n; [done|by destruct p|lia].
Qed.

(** The parent as the copy finds it. *)
Context (sz : Z) (Hpd : pt_wf m0 pd FA) (Hum : um_wf m0 pd FA sz).

Lemma parent_same a s F q : copying a s F q → pt_wf (k_mem (kn_km s)) pd F ∧
  (∀ i, 0 ≤ i < 1024 → table (k_mem (kn_km s)) pd i = table m0 pd i) ∧ ∀ va, is_u32 va → pte_of (k_mem (kn_km s)) pd va = pte_of m0 pd va.
Proof.
  intros [_ _ _ Hsuf _ _ Hout _ _ _]. assert (∀ x, owned m0 pd (pg x) → k_mem (kn_km s) x = m0 x) as Hsame.
  { intros x Hx. apply Hout. by eapply owned_not_free. }
  destruct (pt_frame _ _ _ _ Hpd Hsame) as (Ht & _ & Hp). split_and!; [|done|done].
  eapply pt_wf_frame; [done|done|]. intros v Hv Hc. eapply owned_not_free; [done|done|by eapply suffix_elem].
Qed.

(** An absent page: the entry is written without the present bit. *)
Lemma copy_absent a s F q mem : copying a s F q → a mod PGSIZE = 0 → 0 ≤ a → a + PGSIZE ≤ KERNBASE → mem mod PGSIZE = 0 → (1 ≤ length F)%nat →
  Z.testbit (pte_of m0 pd a) 0 = false →
  ∃ km F', mappages d a PGSIZE (V2P mem) (Z.lor PTE_W PTE_U) 0 (kn_km s) = Ok (0, km) ∧ Z.of_nat (length F) - Z.of_nat (length F') ≤ 1 ∧
    copying (a + PGSIZE) (put KM km s) F' q.
Proof.
  intros Hcp Ha Ha0 Hahi Hmem Hn He. pose proof Hcp as [Hrest HF Hwf Hsuf Hown Hq Hout _ _ _].
  destruct (V2P_aligned mem Hmem) as [Hu Hal].
  destruct (map_page (kn_km s) F d (translate (k_mem (kn_km s)) d) (V2P mem) a (Z.lor PTE_W PTE_U) 0) as (km & F' & E & Hs & Hcnt & Hmap); try done; [lia|].
  exists km, F'. split_and!; [done|done|].
  replace (put KM km s) with (put LRU (kn_lru s) (put KM km s)) by (by destruct s).
  apply (copying_step a s F q km F' (kn_lru s) q None); try done; try apply Hs.
  - intros v. rewrite (vs_owned _ _ _ _ _ Hs). naive_solver.
  - intros va Hva. by rewrite (translate_page m0 a), He by done.
Qed.

(** A present page: its bytes are copied to the first free page [p]. *)
Lemma copy_present a s p F q lr q' : copying a s (p :: F) q → a mod PGSIZE = 0 → 0 ≤ a → a + PGSIZE ≤ KERNBASE → a < sz → (1 ≤ length F)%nat →
  Z.testbit (pte_of m0 pd a) 0 = true → lru_abs lr q' →
  let e := pte_of m0 pd a in
  ∃ km1 km F', kmemmove p (P2V (PTE_ADDR e)) PGSIZE (popped (kn_km s)) = Ok (tt, km1) ∧
    mappages d a PGSIZE (V2P p) (PTE_FLAGS e) 1 km1 = Ok (0, km) ∧ Z.of_nat (length F) - Z.of_nat (length F') ≤ 1 ∧
    copying (a + PGSIZE) (put LRU lr (put KM km s)) F' q'.
Proof.
  intros Hcp Ha Ha0 Hahi Hsz Hn He Hq' e. pose proof Hcp as [Hrest HF Hwf Hsuf Hown Hq Hout _ _ _].
  destruct (kmem_head _ _ _ HF) as (_ & Hp & _). destruct (popped_cons _ _ _ HF) as (HF1 & Hpm & _ & _).
  pose proof (kr_nodup _ _ HF) as [HpF _]%NoDup_cons. destruct (flags_present e He) as [Hfl Hor].
  destruct (uw_frame _ _ _ _ Hum a (P2V (PTE_ADDR e))) as (Hv & HvA & _); [lia| |].
  { unfold frame_of. fold e. destruct (Z.eqb_spec (Z.land e PTE_P) 0) as [Hz|]; [|done]. apply land_1 in Hz. unfold e in Hz. congruence. }
  set (v := P2V (PTE_ADDR e)) in *. set (m1 := memmove (k_mem (popped (kn_km s))) p v PGSIZE).
  assert (∀ x, m1 x = if within x p PGSIZE then k_mem (kn_km s) (x - p + v) else k_mem (kn_km s) x) as Hm1 by (intros x; unfold m1; by rewrite memmove_at, Hpm).
  assert (∀ x, pg x ≠ p → m1 x = k_mem (kn_km s) x) as Hm1out.
  { intros x Hx. rewrite Hm1. apply pg_ne in Hx; [|apply Hp]. within_cases; (done || lia). }
  destruct (map_fresh (kn_km s) p F d (translate (k_mem (kn_km s)) d) m1 a (PTE_FLAGS e))
    as (km & F' & E & HF' & Hwf' & Hsuf' & Hcnt & _ & HpF' & Hnp & Hown' & Hmap & Hfr); try done; [by apply memmove_bytes; [|apply HF1]|lia|].
  exists (set_mem m1 (popped (kn_km s))), km, F'. split_and!; try done.
  { unfold kmemmove. by rewrite (page_ok_mapped p), (page_ok_mapped v) by (done || lia). }
  assert (¬ owned (k_mem (kn_km s)) d p) as Hnp0 by (intros Ho; apply (owned_not_free _ _ _ _ Hwf Ho), elem_of_cons; by left).
  apply (copying_step a s (p :: F) q km F' lr q' (Some (p, PTE_FLAGS e))); try done.
  - by apply suffix_cons_r.
  - intros w [?|?]%Hown'; [by left|right]. apply elem_of_cons. by right.
  - intros x Hx HxF. apply not_elem_of_cons in HxF as [Hxp HxF]. by rewrite Hfr, Hm1out.
  - intros va Hva. rewrite Hmap by done. by rewrite Hor.
  - intros p' fl' Ep. simplify_eq. split_and!; [done|apply elem_of_cons; by left|done|done].
  - intros va Hva. rewrite (translate_page m0 a), He by done. fold e. exists p. split; [done|].
    rewrite Hfr; rewrite ?(pg_eq p) by (apply Hp || lia); [|done|done]. rewrite Hm1.
    replace (within _ p PGSIZE) with true by (symmetry; unfold within; rewrite (proj2 (Z.leb_le _ _)), (proj2 (Z.ltb_lt _ _)) by lia; done).
    rewrite P2V_off by (done || lia). fold v. replace (p + (va - a) - p + v) with (v + (va - a)) by lia. apply Hout. by rewrite (pg_eq v) by (apply Hv || lia).
Qed.

(** * The loop *)

Context (old new : nat) (o nw : proc).
Context (Ho : pt_proc (kn_pt s0) !! old = Some o) (Hnw : pt_proc (kn_pt s0) !! new = Some nw) (Hopd : p_pgdir o = pd) (Hosz : p_sz o = sz).
Context (Hsz : 0 ≤ sz ≤ KERNBASE) (Htab : ∀ a, 0 ≤ a < sz → is_Some (table m0 pd (PDX a))).

(** Reading the entry of the parent. *)
Lemma read_entry a s F q : copying a s F q → 0 ≤ a < sz →
  ∃ pte, pte ≠ 0 ∧ walkpgdir pd a false (kn_km s) = Ok (pte, kn_km s) ∧ ldw pte (kn_km s) = Ok (pte_of m0 pd a, kn_km s).
Proof.
  intros Hcp Ha. assert (is_u32 a) as Hu by (unfold is_u32; lia). destruct (parent_same _ _ _ _ Hcp) as (Hwf & Ht & Hp). destruct (Htab a Ha) as [t Et].
  rewrite <-Ht in Et by (by apply PDX_range). pose proof (PTX_range a Hu). destruct (pw_tab _ _ _ Hwf _ _ (PDX_range a Hu) Et) as (Hok & _ & _).
  exists (t + 4 * PTX a). split_and!; [by apply entry_nonzero|by eapply walk_present|]. unfold ldw. rewrite entry_mapped by done.
  rewrite <-Hp by done. unfold pte_of. by rewrite Et.
Qed.

Lemma copyuvm_loop_run n : ∀ fuel a mem s F q, copying a s F q → a mod PGSIZE = 0 → 0 ≤ a < sz + PGSIZE → sz - a ≤ PGSIZE * Z.of_nat n →
  (n < fuel)%nat → (2 * n ≤ length F)%nat → (length q + n ≤ MAX_FRAME_LRU)%nat → mem mod PGSIZE = 0 →
  ∃ b s' F' q', copyuvm_loop mypid fuel old new d a mem s = Ok (true, s') ∧ copying b s' F' q' ∧ b mod PGSIZE = 0 ∧ sz ≤ b < sz + PGSIZE.
Proof.
  induction n as [|n IH]; intros fuel a mem s F q Hcp Ha Ha0 Hn Hf HF Hq Hmem; (destruct fuel as [|fuel]; [lia|]); cbn [copyuvm_loop].
  all: pose proof (f_equal kn_pt (cp_rest _ _ _ _ Hcp)) as Hpt; cbn in Hpt.
  all: assert (∀ T (f : proc → T), zoom PT (pget old f) s = Ok (f o, s)) as Hold by
    (intros T f; unfold zoom, pget; cbn [view PT]; rewrite Hpt, Ho, <-Hpt; by destruct s).
  all: erewrite bind_Ok by apply Hold; rewrite Hosz.
  { rewrite (proj2 (Z.ltb_ge _ _)) by lia. exists a, s, F, q. split_and!; (done || lia). }
  destruct (Z.ltb_spec a sz) as [Hlt|Hge]; [|exists a, s, F, q; split_and!; (done || lia)].
  assert (a + PGSIZE ≤ KERNBASE) as Hahi by (Z.to_euclidean_division_equations; lia).
  assert ((a + PGSIZE) mod PGSIZE = 0) as Ha' by (Z.to_euclidean_division_equations; lia).
  assert (∀ T (f : proc → T), zoom PT (pget new f) s = Ok (f nw, s)) as Hnew.
  { intros T f; unfold zoom, pget; cbn [view PT]. rewrite Hpt, Hnw, <-Hpt. by destruct s. }
  assert (∀ A (m : M kmem_state A) x, m (kn_km s) = Ok (x, kn_km s) → zoom KM m s = Ok (x, s)) as Hkm.
  { intros A m x E. rewrite (zoom_Ok KM m s x (kn_km s) E). by destruct s. }
  destruct (read_entry _ _ _ _ Hcp ltac:(lia)) as (pte & Hpte0 & Ew & El).
  erewrite bind_Ok by apply Hold. rewrite Hopd. erewrite bind_Ok by (by apply Hkm).
  rewrite (proj2 (Z.eqb_neq _ _)) by done. erewrite bind_Ok by (by apply Hkm).
  destruct (Z.testbit (pte_of m0 pd a) 0) eqn:He.
  - assert (Z.land (pte_of m0 pd a) PTE_P =? 0 = false) as -> by (apply Z.eqb_neq; rewrite land_1; congruence).
    erewrite bind_Ok by apply Hnew. erewrite bind_Ok by apply Hold. destruct F as [|p F]; [cbn in HF; lia|]. cbn [length] in HF.
    destruct (kalloc_room (p_pid nw) (if p_cdb_size o <? a then a else -1) s p F q) as (lr & q' & E & Hq' & Hlq); [apply Hcp|apply Hcp|lia|].
    erewrite bind_Ok by exact E. destruct (kmem_head _ _ _ (cp_rep _ _ _ _ Hcp)) as (_ & Hp & Hp0). rewrite (proj2 (Z.eqb_neq _ _)) by done.
    destruct (copy_present a s p F q lr q') as (km1 & km & F' & Em & Ep & Hcnt & Hcp'); try done; try lia.
    erewrite (zoom_bind KM) by exact Em. erewrite (zoom_bind KM) by exact Ep. cbn [Z.ltb Z.compare].
    apply (IH _ (a + PGSIZE) p _ F' q'); try done; try lia; apply Hp.
  - assert (Z.land (pte_of m0 pd a) PTE_P =? 0 = true) as -> by (by apply Z.eqb_eq, land_1).
    destruct (copy_absent a s F q mem) as (km & F' & Ep & Hcnt & Hcp'); try done; try lia.
    erewrite (zoom_bind KM) by exact Ep. cbn [Z.ltb Z.compare]. apply (IH _ (a + PGSIZE) mem _ F' q); try done; lia.
Qed.
End copying.

(** * copyuvm *)

Definition pages (sz : Z) : Z := (sz + PGSIZE - 1) / PGSIZE.

(** C4. [copyuvm], and so [fork], gives the child a copy of the parent's memory.
    With two free pages for each page of the parent, 65 for the kernel's part,
    and room on the LRU list, it returns a well-formed page directory in which
    every address of the parent is mapped with the parent's permissions to a
    byte of the same value in a page taken off the free list, or is unmapped as in
    the parent (paged out or not loaded yet); no two addresses share a byte, and
    above the program there is the kernel only.  The parent's address space and
    all memory that was in use keep their contents, and of the rest of the kernel
    only the LRU list changes. *)
Theorem copyuvm_copies_memory old new o nw s F q : kmem_rep (kn_km s) F → pt_wf (k_mem (kn_km s)) (p_pgdir o) F →
  um_wf (k_mem (kn_km s)) (p_pgdir o) F (p_sz o) → pt_proc (kn_pt s) !! old = Some o → pt_proc (kn_pt s) !! new = Some nw →
  0 ≤ p_sz o ≤ KERNBASE → (∀ a, 0 ≤ a < p_sz o → is_Some (table (k_mem (kn_km s)) (p_pgdir o) (PDX a))) →
  65 + 2 * pages (p_sz o) ≤ Z.of_nat (length F) → lru_abs (kn_lru s) q → (length q + Z.to_nat (pages (p_sz o)) ≤ MAX_FRAME_LRU)%nat →
  ∃ d s' F', copyuvm mypid old new s = Ok (d, s') ∧ d ≠ 0 ∧ s' = put LRU (kn_lru s') (put KM (kn_km s') s) ∧
    kmem_rep (kn_km s') F' ∧ pt_wf (k_mem (kn_km s')) d F' ∧ F' `suffix_of` F ∧
    (∀ x, pg x ∉ F → k_mem (kn_km s') x = k_mem (kn_km s) x) ∧
    (∀ va, is_u32 va → translate (k_mem (kn_km s')) (p_pgdir o) va = translate (k_mem (kn_km s)) (p_pgdir o) va) ∧
    (∀ va, 0 ≤ va < PGSIZE * pages (p_sz o) → match translate (k_mem (kn_km s)) (p_pgdir o) va with
       | Some (pa, fl) => ∃ pa', translate (k_mem (kn_km s')) d va = Some (pa', fl) ∧
           k_mem (kn_km s') (P2V pa') = k_mem (kn_km s) (P2V pa) ∧ pg (P2V pa') ∈ F ∧ pg (P2V pa') ∉ F'
       | None => translate (k_mem (kn_km s')) d va = None
       end) ∧
    (∀ va va' pa fl fl', 0 ≤ va < PGSIZE * pages (p_sz o) → 0 ≤ va' < PGSIZE * pages (p_sz o) →
       translate (k_mem (kn_km s')) d va = Some (pa, fl) → translate (k_mem (kn_km s')) d va' = Some (pa, fl') → va = va') ∧
    ∀ va, is_u32 va → PGSIZE * pages (p_sz o) ≤ va → translate (k_mem (kn_km s')) d va = kernel_map va.
Proof.
  intros HF Hpd Hum Ho Hnw Hsz Htab Hn Hq Hroom. assert (0 ≤ pages (p_sz o) ≤ p_sz o / PGSIZE + 1) as Hpages.
  { unfold pages. Z.to_euclidean_division_equations. lia. }
  unfold copyuvm. destruct (setupkvm_run _ F HF) as (d & km & F1 & E & HF1 & Hd & Hr & Hout).
  destruct Hr as [[-> _]|(Hd0 & Hsuf & Hcnt & Hwf & Hown & Hmap)]; [exfalso; by apply Hd; [lia|]|].
  rewrite (zoom_bind KM _ _ _ _ _ E). rewrite (proj2 (Z.eqb_neq _ _)) by done.
  erewrite (zoom_bind PT) by (apply pget_Ok; exact Ho).
  assert (copying s F (p_pgdir o) d 0 (put KM km s) F1 q) as Hcp.
  { split; try done; [intros; lia|intros; by apply Hmap|intros; lia]. }
  replace (put PT _ _) with (put KM km s) by (by destruct s).
  destruct (copyuvm_loop_run s F (p_pgdir o) d (p_sz o) Hpd Hum old new o nw Ho Hnw eq_refl eq_refl Hsz Htab (Z.to_nat (pages (p_sz o)))
    (S (Z.to_nat (p_sz o / PGSIZE + 1))) 0 0 _ F1 q Hcp) as (b & s' & F' & q' & El & Hcp' & Hb & Hbr); try done; try lia.
  { unfold pages. Z.to_euclidean_division_equations. lia. }
  erewrite bind_Ok by exact El.
  assert (b = PGSIZE * pages (p_sz o)) as -> by (unfold pages; Z.to_euclidean_division_equations; lia).
  destruct (parent_same _ _ _ _ Hpd _ _ _ _ Hcp') as (_ & _ & Hpp). destruct Hcp' as [Hrest HF' Hwf' Hsuf' _ _ Hout' Hlow Hhigh Hinj].
  exists d, s', F'. split_and!; try done.
  - intros va Hva. unfold translate. by rewrite Hpp.
  - intros va Hva. specialize (Hlow va Hva). unfold sees in Hlow. destruct (translate _ (p_pgdir o) va) as [[pa fl]|]; [|done].
    destruct Hlow as (f & Hf & HfA & HfF & _ & Ht & Hby). exists (V2P f + va mod PGSIZE). pose proof (page_ok_range f Hf).
    assert (0 ≤ va mod PGSIZE < PGSIZE) as Hmod by (apply Z.mod_pos_bound; lia). destruct (V2P_off f _ Hf Hmod) as [E1 E2].
    assert (P2V (V2P f + va mod PGSIZE) = f + va mod PGSIZE) as -> by (rewrite E1; unfold P2V; rewrite u32_small; lia).
    rewrite E2. done.
Qed.
End copyuvm.

#[local] Existing Instance sample_image.
#[local] Existing Instance sample_image_ok.

(** A program of one page. *)
Lemma sample_program : ∃ km F pd p, kmem_rep km F ∧ pt_wf (k_mem km) pd F ∧ um_wf (k_mem km) pd F PGSIZE ∧ 100 ≤ Z.of_nat (length F) ∧
  (∀ a, 0 ≤ a < PGSIZE → is_Some (table (k_mem km) pd (PDX a))) ∧ translate (k_mem km) pd 2 = Some (V2P p + 2, 7) ∧ k_mem km (P2V (V2P p + 2)) = 3.
Proof.
  destruct sample_pages as (s & F & HF & Hn & _ & _).
  destruct (setupkvm_run s F HF) as (d & s1 & F1 & _ & HF1 & Hd & Hr & _).
  destruct Hr as [[-> _]|(_ & _ & Hc1 & Hwf1 & _ & Hm1)]; [exfalso; apply Hd; [lia|done]|].
  destruct (inituvm_run d [1; 2; 3] s1 F1 kernel_map) as (p & s2 & F2 & _ & HF2 & Hwf2 & _ & Hc2 & Hp & _ & HpF & Hnp & _ & Hm2 & Hb & _); try done; [|lia|].
  { repeat constructor; done. }
  pose proof (page_ok_range p Hp). assert (∀ o, 0 ≤ o < PGSIZE → P2V (V2P p + o) = p + o) as Hback.
  { intros o Ho. destruct (V2P_off p o Hp Ho) as [-> _]. unfold P2V. rewrite u32_small; lia. }
  assert (∀ va, 0 ≤ va < PGSIZE → frame_of (k_mem s2) d va = Some p ∧ is_Some (table (k_mem s2) d (PDX va))) as Hfr.
  { intros va Hva. assert (translate (k_mem s2) d va = Some (V2P p + va, 7)) as Ht by (rewrite Hm2 by (unfold is_u32; lia); by rewrite decide_True).
    unfold translate, frame_of, pte_of in *. destruct (table (k_mem s2) d (PDX va)); [|done]. split; [|by eexists].
    destruct (Z.testbit _ 0) eqn:E; [|done]. destruct (Z.eqb_spec (Z.land (load32 (k_mem s2) (z + 4 * PTX va)) PTE_P) 0) as [E0|_]; [apply land_1 in E0; congruence|].
    cbn [negb]. f_equal. rewrite (Z.mod_small va) in Ht by lia. injection Ht as Ht _.
    replace (PTE_ADDR _) with (V2P p + 0) by lia. rewrite Hback by lia. lia. }
  exists s2, F2, d, p. split_and!; try done; try lia.
  - split.
    + intros va v Hva Hv. destruct (Hfr va Hva) as [E _]. simplify_eq. done.
    + intros va va' v Hva Hva' _ _. by rewrite !(pg_eq 0) by (done || lia).
  - intros a Ha. by apply Hfr.
  - rewrite Hm2 by done. done.
  - rewrite Hback by lia. by apply Hb.
Qed.

Lemma copyuvm_copies_memory_witness : ∃ s d s' pa, copyuvm (H0 := memide 1000) 1 0 1 s = Ok (d, s') ∧
  translate (k_mem (kn_km s')) d 2 = Some (pa, 7) ∧ k_mem (kn_km s') (P2V pa) = 3 ∧ translate (k_mem (kn_km s')) d 0x1000 = None.
Proof.
  destruct sample_program as (km & F & pd & p & HF & Hwf & Hum & Hn & Htab & Ht & Hb). destruct lru_init_abs as (lr & _ & Hlru).
  set (o := w_pgdir pd (w_sz PGSIZE (w_ppid 1 (w_state RUNNING proc0)))). set (nw := w_ppid 2 (w_state EMBRYO proc0)).
  set (s := Kernel km lr swap_bss (FsState (LogSys (bcache_bss (Disk (λ _ _, []) [])) (Log false 0 0 0 false 0 0 [])) (Superblock 0 0 0 0 0 0 0) false [])
    (Ptable [o; nw] false 3 None) (Ftable [] false) ∅ 0 false).
  destruct (@copyuvm_copies_memory sample_image (memide 1000) sample_image_ok 1 0 1 o nw s F [] HF Hwf Hum eq_refl eq_refl)
    as (d & s' & F' & E & _ & _ & _ & _ & _ & _ & _ & Hcopy & _ & Hhigh); [done|done|change (65 + 2 * 1 ≤ Z.of_nat (length F)); lia|done| |].
  { change (0 + 1 ≤ MAX_FRAME_LRU)%nat. with_strategy transparent [MAX_FRAME_LRU] (apply Nat.leb_le; by vm_compute). }
  specialize (Hcopy 2 ltac:(done)). change (kn_km s) with km in Hcopy. change (p_pgdir _) with pd in Hcopy. rewrite Ht in Hcopy. destruct Hcopy as (pa & Ht' & Hb' & _).
  exists s, d, s', pa. split_and!; [done|done|by rewrite Hb'|]. by rewrite Hhigh.
Defined.
