(* ===== verification/PageFault.v ===== *)
(** The page fault handler (pgflt_handler of demandpage.c): what a process
    finds in a page that it touches for the first time. *)

From Stdlib Require Import ZArith Lia.
From stdpp Require Import base numbers strings option gmap sets list list_numbers.
From S2P Require Import Prelude Spinlock Sleeplock Lru Swap Mem Kalloc Vm Block Bio Cache Log Fs FsBlocks FsData.
From S2P Require Import Pipe Proc Kernel Paging.

(** * The entry that [iget] returns *)
Definition is_inode (dev inum : Z) (x : inode) : bool := (0 <? i_ref x) && (i_dev x =? dev) && (i_inum x =? inum).

Lemma iget_scan_hit l i dev inum e ip x : l !! ip = Some x → is_inode dev inum x = true →
  (∀ j y, (j < ip)%nat → l !! j = Some y → is_inode dev inum y = false) →
  ∃ e', iget_scan l i dev inum e = (Some (i + ip)%nat, e').
Proof.
  revert i e ip. induction l as [|y l IH]; intros i e ip Hx Hi Hj; [done|]. cbn [iget_scan]. destruct ip as [|ip].
  - simpl in Hx. injection Hx as ->. unfold is_inode in Hi. rewrite Hi, Nat.add_0_r. by eexists.
  - pose proof (Hj 0%nat y ltac:(lia) eq_refl) as Hy. unfold is_inode in Hy. rewrite Hy.
    rewrite <- Nat.add_succ_comm. apply IH; [done|done|]. intros j z Hlt Hz. apply (Hj (S j)); [lia|done].
Qed.

Lemma iget_hit s dev inum ip x : fs_iclk s = false → fs_inode s !! ip = Some x → is_inode dev inum x = true →
  (∀ j y, (j < ip)%nat → fs_inode s !! j = Some y → is_inode dev inum y = false) →
  iget dev inum s = Ok (ip, put FIC (<[ip := v_ref (i_ref x + 1) x]> (fs_inode s)) s).
Proof.
  intros Hlk Hx Hi Hj. destruct s as [ls sb lk ino]. simpl in *. subst lk. unfold iget.
  destruct (iget_scan_hit ino 0 dev inum None ip x Hx Hi Hj) as (e' & E).
  erewrite bind_Ok by reflexivity. erewrite bind_Ok by reflexivity. cbn [put fs_inode iclk FIC fs_ls fs_sb fs_iclk]. rewrite E.
  erewrite bind_Ok by (by apply (ifld_run _ ip x)). erewrite bind_Ok by (by apply (iset_run _ ip x)).
  done.
Qed.

(** An entry without references is taken over for another inode: the copy of
    the inode that it held, type, size and addresses, stays in it. *)
Definition recycled (dev inum : Z) (y : inode) : inode := v_valid false (v_ref 1 (v_inum inum (v_dev dev y))).

Lemma iget_scan_miss l i dev inum e : (∀ j y, l !! j = Some y → is_inode dev inum y = false) →
  iget_scan l i dev inum e = (None, match e with Some _ => e | None => (λ k, (i + k)%nat) ∘ fst <$> list_find (λ y, i_ref y = 0) l end).
Proof.
  revert i e. induction l as [|y l IH]; intros i e Hj; cbn [iget_scan list_find]; [by destruct e|].
  pose proof (Hj 0%nat y eq_refl) as Hy. unfold is_inode in Hy. rewrite Hy.
  rewrite IH by (intros j z Hz; by apply (Hj (S j))). destruct e; [done|].
  destruct (Z.eqb_spec (i_ref y) 0) as [E|E]; [rewrite decide_True by done; simpl; by rewrite Nat.add_0_r|].
  rewrite decide_False by done. destruct (list_find _ l) as [[k z]|]; [|done]. simpl. by rewrite Nat.add_succ_r.
Qed.

Lemma iget_miss s dev inum ip y : fs_iclk s = false → fs_inode s !! ip = Some y → i_ref y = 0 →
  (∀ j z, (j < ip)%nat → fs_inode s !! j = Some z → i_ref z ≠ 0) →
  (∀ j z, fs_inode s !! j = Some z → is_inode dev inum z = false) →
  iget dev inum s = Ok (ip, put FIC (<[ip := recycled dev inum y]> (fs_inode s)) s).
Proof.
  intros Hlk Hy Hr Hj Hm. destruct s as [ls sb lk ino]. simpl in *. subst lk. unfold iget.
  assert (Hlt : (ip < length ino)%nat) by (by eapply lookup_lt_Some).
  assert (El : list_find (λ y, i_ref y = 0) ino = Some (ip, y)).
  { apply list_find_Some. split_and!; [done..|]. intros j z Hz Hlt'. by apply (Hj j z). }
  erewrite bind_Ok by reflexivity. erewrite bind_Ok by reflexivity. cbn [put fs_inode iclk FIC fs_ls fs_sb fs_iclk].
  rewrite iget_scan_miss, El by done. cbn [fmap option_fmap option_map compose fst Nat.add].
  erewrite bind_Ok by (by apply (iset_run _ ip y)).
  do 3 (erewrite bind_Ok by (eapply (iset_run _ ip); cbn; by apply list_lookup_insert_eq; rewrite ?length_insert);
    cbn [put fs_inode iclk FIC fs_ls fs_sb fs_iclk]).
  erewrite bind_Ok by reflexivity. by rewrite !list_insert_insert_eq.
Qed.

(** [iget] returns entry [ip], which is then [x]: an entry with references to the
    inode, or the first one without any. *)
Inductive got_inode (dev inum : Z) (l : list inode) (ip : nat) : inode → Prop :=
| got_cached y : l !! ip = Some y → is_inode dev inum y = true →
    (∀ j z, (j < ip)%nat → l !! j = Some z → is_inode dev inum z = false) →
    got_inode dev inum l ip (v_ref (i_ref y + 1) y)
| got_recycled y : l !! ip = Some y → i_ref y = 0 →
    (∀ j z, (j < ip)%nat → l !! j = Some z → i_ref z ≠ 0) →
    (∀ j z, l !! j = Some z → is_inode dev inum z = false) →
    got_inode dev inum l ip (recycled dev inum y).

Lemma iget_got s dev inum ip x : fs_iclk s = false → got_inode dev inum (fs_inode s) ip x →
  iget dev inum s = Ok (ip, put FIC (<[ip := x]> (fs_inode s)) s) ∧ (ip < length (fs_inode s))%nat.
Proof. intros Hlk []; (split; [by apply iget_hit || by apply iget_miss|by eapply lookup_lt_Some]). Qed.

Lemma space_of_none fl v L : (∀ j, j ∈ L → ¬ holds fl v j) → space_of fl v L = -1.
Proof.
  intros HL. unfold space_of. destruct (slot_of fl v L) as [x|] eqn:E; [|done].
  apply slot_of_Some in E as (A & B & -> & Hx & _). exfalso. apply (HL x); set_solver.
Qed.

Lemma write_bytes_at m a l j b : l !! Z.to_nat j = Some b → 0 ≤ j → write_bytes m a l (a + j) = b.
Proof.
  intros Hb Hj. pose proof (lookup_lt_Some _ _ _ Hb) as Hlt. rewrite <-(write_bytes_read m a l) in Hb.
  rewrite read_bytes_lookup in Hb by done. injection Hb as <-. f_equal. lia.
Qed.

Lemma put_PT_id s : put PT (kn_pt s) s = s.
Proof. by destruct s. Qed.

Section fault.
Context `{KernelImage} {IOk : KernelImageOk _} `{BlockDriver} {DOk : BlockDriverOk _}.
Variables (cur : nat) (mypid : Z).
Variable devsw_read : Z → option (nat → Z → M fs_state (Z * list Z)).

(** A page of the process at [v] in the frame [f], which is neither free nor a
    page table. *)
Record in_frame (km : kmem_state) (pgdir v f : Z) (F : list Z) : Prop := {
  if_rep : kmem_rep km F;
  if_wf : pt_wf (k_mem km) pgdir F;
  if_ok : page_ok f;
  if_free : f ∉ F;
  if_own : ¬ owned (k_mem km) pgdir f;
  if_pte : pte_of (k_mem km) pgdir v = map_entry v (V2P f) (Z.lor PTE_W PTE_U) 1 v
}.

(** Writing to the frame. *)
Lemma in_frame_write km pgdir v f F m : in_frame km pgdir v f F → is_u32 v → bytes m →
  (∀ x, pg x ≠ f → m x = k_mem km x) → in_frame (set_mem m km) pgdir v f F ∧
  ∀ va, is_u32 va → pte_of m pgdir va = pte_of (k_mem km) pgdir va.
Proof.
  intros [Hr Hwf Hok Hfr Hown Hpte] Hv Hm Hout.
  assert (Hsame : ∀ x, owned (k_mem km) pgdir (pg x) → m x = k_mem km x).
  { intros x Hx. apply Hout. intros E. by rewrite E in Hx. }
  destruct (pt_frame _ m _ _ Hwf Hsame) as (_ & Ho & Hp). split; [|done]. split; simpl; try done.
  - apply (kmem_rep_write _ _ f); [done|apply Hok|done|done|]. intros x Hx. apply Hout. unfold pg. destruct Hok as [Hal _].
    Z.div_mod_to_equations. lia.
  - eapply pt_wf_frame; [exact Hwf|done|]. intros w Hw. by eapply owned_not_free.
  - by rewrite Ho.
  - by rewrite Hp.
Qed.

Lemma in_page f x : page_ok f → f ≤ x < f + PGSIZE ↔ pg x = f.
Proof. intros [Hal _]. unfold pg. Z.div_mod_to_equations. lia. Qed.

(** [loaduvm] of at most a page into the frame. *)
Lemma loaduvm_page s pr v f F V Dp dev ip x o n : let km := kn_km s in
  in_frame km (p_pgdir pr) v f F → 0 ≤ v < KERNBASE → v mod PGSIZE = 0 →
  fs_inode (kn_fs s) !! ip = Some x → cache mypid (ls_bc (fs_ls (kn_fs s))) V ∅ Dp → fsg V (fs_sb (kn_fs s)) dev →
  file_ok V (fs_sb (kn_fs s)) dev x → i_type x ≠ T_DEV → (size Dp < NBUF)%nat →
  0 ≤ o → 0 < n ≤ PGSIZE → o + n ≤ i_size x →
  ∃ bc' m', loaduvm mypid devsw_read (p_pgdir pr) v ip o n s = Ok (0, put KM (set_mem m' km) (put BC bc' s)) ∧
    in_frame (set_mem m' km) (p_pgdir pr) v f F ∧ cache mypid bc' V ∅ Dp ∧
    (∀ va, is_u32 va → pte_of m' (p_pgdir pr) va = pte_of (k_mem km) (p_pgdir pr) va) ∧
    (∀ j, 0 ≤ j < PGSIZE → m' (f + j) = if decide (j < n) then fbyte V x (o + j) else k_mem km (f + j)) ∧
    (∀ y, pg y ≠ f → m' y = k_mem km y).
Proof.
  intros km Hin Hv Hal Hx Hc Hg Hf Hty Hsz Ho Hn Hle. assert (Hva : is_u32 v) by (unfold is_u32; lia).
  pose proof Hin as [Hr Hwf Hok Hfr Hown Hpte]. destruct (swapped_in_entry f v Hok Hal) as (E1 & E2 & E3).
  pose proof (fo_size _ _ _ _ Hf) as Hmax.
  assert (Ht : ∃ t, table (k_mem km) (p_pgdir pr) (PDX v) = Some t ∧ load32 (k_mem km) (t + 4 * PTX v) = pte_of (k_mem km) (p_pgdir pr) v).
  { unfold pte_of. destruct (table (k_mem km) (p_pgdir pr) (PDX v)) as [t|] eqn:Et; [by exists t|].
    unfold pte_of in Hpte. rewrite Et in Hpte. by rewrite <- Hpte in E1. }
  destruct Ht as (t & Ht & El). destruct (pw_tab _ _ _ Hwf _ _ (PDX_range v Hva) Ht) as (Htok & _ & _).
  destruct (readi_run mypid devsw_read (kn_fs s) V Dp dev ip x o n) as (bc' & Er & Hc' & _); try done; try (unfold is_u32; lia); try lia.
  rewrite Z.min_l in Er by lia. set (l := file_bytes V x o n) in *.
  assert (Hl : length l = Z.to_nat n) by apply file_bytes_length.
  set (m' := write_bytes (k_mem km) f l).
  assert (Hout : ∀ y, pg y ≠ f → m' y = k_mem km y).
  { intros y Hy. apply write_bytes_out. rewrite Hl. pose proof (in_page f y Hok). lia. }
  assert (Hb : bytes m').
  { apply write_bytes_bytes; [apply Hr|]. apply Forall_lookup. intros i b Hi. pose proof (lookup_lt_Some _ _ _ Hi) as Hlt.
    replace i with (Z.to_nat (Z.of_nat i)) in Hi by lia. unfold l in Hi. rewrite file_bytes_lookup in Hi by lia.
    injection Hi as <-. by eapply fbyte_u8; [..|lia]. }
  destruct (in_frame_write km (p_pgdir pr) v f F m' Hin Hva Hb Hout) as [Hin' Hpte'].
  exists bc', m'. split_and!; try done.
  - unfold loaduvm. rewrite Hal. cbn [Z.eqb negb].
    assert (Hfu : ∃ k, Z.to_nat (n / PGSIZE + 1) = S k) by (exists (Z.to_nat (n / PGSIZE)); pose proof (Z.div_pos n PGSIZE); lia).
    destruct Hfu as (k & ->). cbn [loaduvm_loop]. rewrite (proj2 (Z.ltb_lt 0 n)) by lia.
    rewrite (Z.add_0_r v), (u32_small v) by done.
    kstep (walk_present km (p_pgdir pr) v false t F Hwf Hva Ht).
    rewrite (proj2 (Z.eqb_neq _ _)) by (apply entry_nonzero; [done|by apply PTX_range]).
    assert (Eld : ldw (t + 4 * PTX v) km = Ok (pte_of (k_mem km) (p_pgdir pr) v, km)).
    { unfold ldw. rewrite entry_mapped by (done || by apply PTX_range). by rewrite El. }
    kstep Eld. rewrite Hpte, E2, V2P_P2V by (by apply page_ok_u32).
    rewrite Z.sub_0_r. replace (if n <? PGSIZE then n else PGSIZE) with n by (destruct (Z.ltb_spec n PGSIZE); lia).
    rewrite (Z.add_0_r o), (u32_small o) by lia. kstep Er.
    assert (Ew : kwrite f l km = Ok (tt, set_mem m' km)).
    { unfold kwrite. rewrite (page_ok_mapped f); [done|done|lia|rewrite Hl; lia]. }
    kstep Ew. rewrite Z.eqb_refl. cbn [negb]. rewrite (proj2 (Z.ltb_ge _ _)) by lia. by destruct s as [? ? ? [] ? ? ? ? ?].
  - intros j Hj. unfold m'. case_decide as Hd.
    + apply write_bytes_at; [|lia]. unfold l. apply file_bytes_lookup. lia.
    + apply write_bytes_out. lia.
Qed.

(** [stosb] of zeroes inside the frame. *)
Lemma kstosb_frame km pgdir v f F a n : in_frame km pgdir v f F → is_u32 v → f ≤ a → 0 ≤ n → a + n ≤ f + PGSIZE →
  ∃ m', kstosb a 0 n km = Ok (tt, set_mem m' km) ∧ in_frame (set_mem m' km) pgdir v f F ∧
    (∀ va, is_u32 va → pte_of m' pgdir va = pte_of (k_mem km) pgdir va) ∧
    (∀ y, m' y = if within y a n then 0 else k_mem km y).
Proof.
  intros Hin Hva Ha Hn Hle. pose proof Hin as [Hr _ Hok _ _ _]. set (m' := stosb (k_mem km) a 0 (Z.to_nat n)).
  assert (Hat : ∀ y, m' y = if within y a n then 0 else k_mem km y).
  { intros y. unfold m'. rewrite stosb_spec. by rewrite Z2Nat.id. }
  destruct (in_frame_write km pgdir v f F m' Hin Hva) as [Hin' Hp].
  - intros y. rewrite Hat. destruct (within y a n); [done|]. apply Hr.
  - intros y Hy. rewrite Hat. pose proof (in_page f y Hok). within_cases; (done || lia).
  - exists m'. split_and!; try done. unfold kstosb. rewrite (proj2 (Z.leb_le 0 n)) by done. cbn [andb].
    by rewrite (page_ok_mapped f) by (done || lia).
Qed.

(** The segment of the program: bytes of the file, then zeroes. *)
Definition seg_byte (V : blocks) (x : inode) (ph : ph_info) (a : Z) : Z :=
  if decide (a < ph_filesz ph) then fbyte V x (ph_off ph + a) else 0.

(** What the handler leaves in byte [j] of the frame that held [old]: a page that
    begins after the bytes of the file is cleared up to [memsz] only. *)
Definition page_byte (V : blocks) (x : inode) (ph : ph_info) (v : Z) (old : Z → Z) (j : Z) : Z :=
  if decide (ph_filesz ph ≤ v ∧ ph_memsz ph ≤ v + j) then old j else seg_byte V x ph (v + j).

(** A program linked at 0 whose bytes are in the file. *)
Record seg_ok (ph : ph_info) (x : inode) : Prop := {
  sg_vaddr : ph_vaddr ph = 0;
  sg_off : 0 ≤ ph_off ph;
  sg_file : 0 ≤ ph_filesz ph ≤ ph_memsz ph;
  sg_mem : ph_memsz ph < 2 ^ 32;
  sg_there : ph_off ph + ph_filesz ph ≤ i_size x
}.

Lemma pgflt_load_run s pr v f F V Dp dev ip x : let km := kn_km s in
  pt_proc (kn_pt s) !! cur = Some pr → in_frame km (p_pgdir pr) v f F → 0 ≤ v < KERNBASE → v mod PGSIZE = 0 →
  fs_inode (kn_fs s) !! ip = Some x → cache mypid (ls_bc (fs_ls (kn_fs s))) V ∅ Dp → fsg V (fs_sb (kn_fs s)) dev →
  file_ok V (fs_sb (kn_fs s)) dev x → i_type x ≠ T_DEV → (size Dp < NBUF)%nat → seg_ok (p_ph pr) x → v ≤ ph_memsz (p_ph pr) →
  ∃ bc' m', pgflt_load cur mypid devsw_read ip v f s = Ok (tt, put KM (set_mem m' km) (put BC bc' s)) ∧
    in_frame (set_mem m' km) (p_pgdir pr) v f F ∧ cache mypid bc' V ∅ Dp ∧
    (∀ va, is_u32 va → pte_of m' (p_pgdir pr) va = pte_of (k_mem km) (p_pgdir pr) va) ∧
    (∀ j, 0 ≤ j < PGSIZE → m' (f + j) = page_byte V x (p_ph pr) v (λ j, k_mem km (f + j)) j) ∧
    (∀ y, pg y ≠ f → m' y = k_mem km y).
Proof.
  intros km Hp Hin Hv Hal Hx Hc Hg Hf Hty Hsz [Hva Hoff Hfs Hms Hth] Hvm. set (ph := p_ph pr) in *.
  pose proof (fo_size _ _ _ _ Hf) as Hmax. assert (Huv : is_u32 v) by (unfold is_u32; lia). pose proof Hin as [_ _ Hok _ _ _].
  unfold pgflt_load. kstep (pget_Ok _ _ _ p_ph Hp). kstep (pget_Ok _ _ _ p_pgdir Hp). rewrite !put_PT_id. fold ph. rewrite Hva, !Z.add_0_l.
  rewrite (u32_small (ph_memsz ph)), (u32_small (ph_filesz ph)), (u32_small v) by lia.
  rewrite (proj2 (Z.leb_le 0 v)), (proj2 (Z.leb_le v _)) by lia. cbn [andb].
  assert (Hseg : ∀ j, 0 ≤ j → v + j < ph_filesz ph → seg_byte V x ph (v + j) = fbyte V x (ph_off ph + v + j)).
  { intros j Hj Hlt. unfold seg_byte. rewrite decide_True by done. f_equal. lia. }
  assert (Hzero : ∀ j, ph_filesz ph ≤ v + j → seg_byte V x ph (v + j) = 0).
  { intros j Hlt. unfold seg_byte. by rewrite decide_False by lia. }
  destruct (Z.leb_spec (v + PGSIZE) (ph_filesz ph)) as [HA|HA]; [|destruct (Z.leb_spec (ph_filesz ph) v) as [HB|HB]].
  - rewrite (u32_small (ph_off ph + v)) by lia.
    destruct (loaduvm_page s pr v f F V Dp dev ip x (ph_off ph + v) PGSIZE) as (bc' & m' & E & Hin' & Hc' & Hpt & Hby & Hout); try done; try lia.
    exists bc', m'. split_and!; try done; [by erewrite bind_Ok by exact E|].
    intros j Hj. unfold page_byte. rewrite Hby, decide_True, decide_False by lia. by rewrite Hseg by lia.
  - set (n := if v + PGSIZE <=? ph_memsz ph then PGSIZE else ph_memsz ph - v).
    assert (Hn : 0 ≤ n ≤ PGSIZE ∧ (∀ j, 0 ≤ j < PGSIZE → v + j < ph_memsz ph ↔ j < n)).
    { unfold n. destruct (Z.leb_spec (v + PGSIZE) (ph_memsz ph)); split; intros; lia. }
    destruct Hn as [Hn Hjn]. destruct (kstosb_frame km (p_pgdir pr) v f F f n Hin Huv) as (m' & E & Hin' & Hpt & Hby); try lia.
    exists (ls_bc (fs_ls (kn_fs s))), m'. split_and!; try done.
    + transitivity (zoom KM (kstosb f 0 n) s); [unfold n; by destruct (_ <=? _)|]. erewrite zoom_Ok by exact E.
      by destruct s as [? ? ? [[] ? ? ?] ? ? ? ? ?].
    + intros j Hj. unfold page_byte. rewrite Hby, Hzero by lia. specialize (Hjn j Hj).
      case_decide; within_cases; (done || lia).
    + intros y Hy. rewrite Hby. pose proof (in_page f y Hok). within_cases; (done || lia).
  - set (n := ph_filesz ph - v). rewrite (u32_small (ph_off ph + v)) by lia.
    destruct (loaduvm_page s pr v f F V Dp dev ip x (ph_off ph + v) n) as (bc' & m1 & E & Hin1 & Hc' & Hpt1 & Hby1 & Hout1); try done; try lia.
    destruct (kstosb_frame _ (p_pgdir pr) v f F (f + n) (PGSIZE - n) Hin1 Huv) as (m' & E2 & Hin' & Hpt & Hby); try lia.
    exists bc', m'. split_and!; try done.
    + erewrite bind_Ok by exact E. by erewrite zoom_Ok by exact E2.
    + intros va Hw. rewrite Hpt by done. simpl. by apply Hpt1.
    + intros j Hj. unfold page_byte. rewrite (decide_False (P := _ ∧ _)) by lia. rewrite Hby. simpl. destruct (decide (j < n)).
      * within_cases; try lia. rewrite Hby1, decide_True by lia. by rewrite Hseg by lia.
      * rewrite Hzero by lia. within_cases; (done || lia).
    + intros y Hy. rewrite Hby. pose proof (in_page f y Hok). simpl. rewrite Hout1 by done. within_cases; (done || lia).
Qed.

(** What the handler needs: the page is not on the swap disk, its page table is
    there, and [iget] finds an entry for the inode of the program. *)
Record faultable (s : kernel) (pr : proc) (L : list nat) (cr2 v t : Z) (ip : nat) (x : inode) : Prop := {
  fa_addr : is_u32 cr2;
  fa_page : v = pg cr2;
  fa_user : v < KERNBASE;
  fa_swap : ∀ j, j ∈ L → ¬ holds (swap_frame_list (kn_swap s)) v j;
  fa_table : table (k_mem (kn_km s)) (p_pgdir pr) (PDX v) = Some t;
  fa_lock : fs_iclk (kn_fs s) = false;
  fa_inode : got_inode (ii_dev (p_ip pr)) (ii_inum (p_ip pr)) (fs_inode (kn_fs s)) ip x
}.

(** The state in which the page is loaded: it is mapped, and [iget] has taken
    its entry. *)
Definition fault_fs (s : kernel) (ip : nat) (x : inode) : fs_state :=
  put FIC (<[ip := x]> (fs_inode (kn_fs s))) (kn_fs s).

Lemma pgflt_map_run s pr L O f F cr2 v t ip x : kn_wf s cur pr L O (f :: F) → faultable s pr L cr2 v t ip x →
  ∃ km, pgflt_handler cur mypid devsw_read cr2 s =
      (pgflt_load cur mypid devsw_read ip v f;; pgflt_load cur mypid devsw_read ip v f) (put FS (fault_fs s ip x) (put KM km s)) ∧
    in_frame km (p_pgdir pr) v f F ∧
    (∀ va, is_u32 va → pg va ≠ v → pte_of (k_mem km) (p_pgdir pr) va = pte_of (k_mem (kn_km s)) (p_pgdir pr) va) ∧
    (∀ y, pg y ≠ t → k_mem km y = k_mem (kn_km s) y) ∧ t ≠ f.
Proof.
  intros [Hkm Hdir Hp Hsw _ _] [Hcr -> Hlt Hns Ht Hlk Hx]. set (v := pg cr2) in *.
  destruct (pg_spec cr2) as [Hal Hpg]. fold v in Hal, Hpg. assert (Hva : is_u32 v) by (unfold is_u32 in *; Z.div_mod_to_equations; lia).
  destruct (kmem_head _ _ _ Hkm) as (Ehd & Hok & Hne). destruct (popped_cons _ _ _ Hkm) as (Hkm1 & Em & _ & _).
  assert (Hown : ¬ owned (k_mem (kn_km s)) (p_pgdir pr) f).
  { intros Ho. apply (owned_not_free _ _ _ _ Hdir Ho). set_solver. }
  assert (Hdir1 : pt_wf (k_mem (popped (kn_km s))) (p_pgdir pr) F).
  { rewrite Em. eapply pt_wf_frame; [exact Hdir|done|]. intros w Hw HwF. apply (owned_not_free _ _ _ _ Hdir Hw). set_solver. }
  destruct (V2P_page f Hok) as (Hu & _ & _). assert (Htf : t ≠ f).
  { intros ->. apply Hown. right. exists (PDX v). split; [by apply PDX_range|done]. }
  destruct (mappages_one (p_pgdir pr) v (V2P f) (Z.lor (Z.lor PTE_W PTE_U) PTE_P) 1 (popped (kn_km s)) F t)
    as (km & E2 & [Hkm2 Hdir2 _ Ho2 _ _] & _ & Hpte & Hout); try done; [by rewrite Em|].
  exists km. split_and!; try done.
  - match goal with |- _ = ?r => set (rhs := r) end. unfold pgflt_handler. rewrite PGROUNDDOWN_pg by done. fold v. rewrite (proj2 (Z.ltb_ge _ _)) by lia.
    kstep (pget_Ok _ _ _ p_swap_list Hp). rewrite put_PT_id. kstep (swap_check_run _ _ _ _ v Hsw).
    rewrite space_of_none by done. change (0 <=? -1) with false. cbv iota.
    replace (put SWAP (kn_swap s) s) with s by (by destruct s).
    erewrite bind_Ok by (by apply (kalloc_noevict mypid (-1) s (f :: F))). rewrite Ehd, (proj2 (Z.eqb_neq f 0)) by done.
    set (s1 := put KM (popped (kn_km s)) s). assert (Hp1 : pt_proc (kn_pt s1) !! cur = Some pr) by done.
    kstep (pget_Ok _ _ _ p_pgdir Hp1). rewrite put_PT_id. kstep E2. change (0 <? 0) with false. cbv iota.
    kstep (pget_Ok _ _ _ p_ip Hp1).
    assert (Ei : iget (ii_dev (p_ip pr)) (ii_inum (p_ip pr)) (kn_fs s) = Ok (ip, fault_fs s ip x)) by (by apply iget_got).
    kstep Ei. unfold rhs. by destruct s.
  - pose proof (kr_nodup _ _ Hkm) as Hnd. apply NoDup_cons in Hnd as [Hnd _]. split; try done.
    + rewrite Ho2, Em. intros [?|[]]; done.
    + rewrite Hpte by done. rewrite decide_True by (unfold pg; lia). unfold map_entry. by rewrite <-!Z.lor_assoc.
  - intros va Hw Hne'. rewrite Hpte, decide_False by done. by rewrite Em.
  - intros y Hy. rewrite Hout by done. by rewrite Em.
Qed.


(** So where [exec] has given up its reference and the first free entry was left
    with another file [y], the page gets the bytes of that file. *)
Lemma recycled_bytes V y inum ph a : seg_byte V (recycled (i_dev y) inum y) ph a = seg_byte V y ph a.
Proof. by destruct y. Qed.

(** C24. A fault on a user page outside the segment of the program, the heap or
    the stack when they are not on the swap disk, maps the frame as it is: the
    handler clears nothing, and the process finds the bytes of the free page,
    the first four of which are the kernel address of the next free page. *)
Theorem pgflt_exposes_free_page s pr L O f F cr2 v t ip x :
  kn_wf s cur pr L O (f :: F) → faultable s pr L cr2 v t ip x →
  ph_vaddr (p_ph pr) = 0 → 0 ≤ ph_memsz (p_ph pr) < 2 ^ 32 → ph_memsz (p_ph pr) < v →
  ∃ s', pgflt_handler cur mypid devsw_read cr2 s = Ok (tt, s') ∧
    translate (k_mem (kn_km s')) (p_pgdir pr) v = Some (V2P f, 7) ∧
    (∀ j, 0 ≤ j < PGSIZE → k_mem (kn_km s') (f + j) = k_mem (kn_km s) (f + j)) ∧
    load32 (k_mem (kn_km s')) f = match F with g :: _ => g | [] => 0 end.
Proof.
  intros Hwf Hfa Hva Hm Hlt. destruct (pgflt_map_run s pr L O f F cr2 v t ip x Hwf Hfa) as (km & E & Hin & Hpte & Hout & Htf).
  pose proof (kw_proc _ _ _ _ _ _ Hwf) as Hp. destruct (kmem_head _ _ _ (kw_km _ _ _ _ _ _ Hwf)) as (_ & Hok & _).
  set (s1 := put FS (fault_fs s ip x) (put KM km s)) in *. assert (Hp1 : pt_proc (kn_pt s1) !! cur = Some pr) by done.
  assert (El : pgflt_load cur mypid devsw_read ip v f s1 = Ok (tt, s1)).
  { unfold pgflt_load. kstep (pget_Ok _ _ _ p_ph Hp1). kstep (pget_Ok _ _ _ p_pgdir Hp1). rewrite !put_PT_id, Hva, Z.add_0_l.
    rewrite (u32_small (ph_memsz _)) by done. rewrite (proj2 (Z.leb_gt v _)) by done. by rewrite andb_false_r. }
  assert (Hsame : ∀ j, 0 ≤ j < PGSIZE → k_mem km (f + j) = k_mem (kn_km s) (f + j)).
  { intros j Hj. apply Hout. rewrite (pg_eq f); [done|apply Hok|lia]. }
  exists s1. split_and!; try done.
  - rewrite E. by erewrite bind_Ok by exact El.
  - apply translate_in; [done| |apply Hin]. rewrite (fa_page _ _ _ _ _ _ _ _ Hfa). apply pg_spec.
  - simpl. rewrite (load32_ext _ (k_mem (kn_km s))).
    + destruct (kr_chain _ _ (kw_km _ _ _ _ _ _ Hwf)) as (_ & _ & Hch). destruct F as [|g F]; [done|by destruct Hch].
    + intros y Hy. replace y with (f + (y - f)) by lia. apply Hsame. lia.
Qed.
End fault.

(** * A sample: a program of 4099 bytes in nine blocks *)
#[local] Existing Instance sample_image.
#[local] Existing Instance sample_image_ok.
#[local] Existing Instance sample_driver.

Definition prog_inode : inode :=
  Inode 1 5 1 (SleepLock false false 0) true T_FILE 0 0 1 4099 [39; 40; 41; 42; 43; 44; 46; 47; 48; 0; 0; 0; 0].
Definition prog_proc : proc :=
  w_ip (InodeInfo 1 5) (w_ph (PhInfo 4099 8192 0 0) (w_pgdir 0x80200000 (w_ppid 1 (w_state RUNNING proc0)))).

Lemma prog_file : file_ok sample_disk sample_sb 1 prog_inode.
Proof.
  assert (Hb : ∀ bn, 0 ≤ bn < MAXFILE → fblock sample_disk prog_inode bn ≠ 0 → 0 ≤ bn < 9).
  { intros bn Hbn. unfold fblock. destruct (Z.ltb_spec bn NDIRECT); [|done].
    destruct (decide (bn < 9)); [lia|]. assert (bn = 9 ∨ bn = 10 ∨ bn = 11) as [->|[->| ->]] by lia; done. }
  assert (Hcase : ∀ bn, 0 ≤ bn < 9 → bn = 0 ∨ bn = 1 ∨ bn = 2 ∨ bn = 3 ∨ bn = 4 ∨ bn = 5 ∨ bn = 6 ∨ bn = 7 ∨ bn = 8) by lia.
  assert (Hd : ∀ b, 39 ≤ b < 50 → b ≠ 45 → dblock sample_disk sample_sb 1 b).
  { intros b Hb1 Hb2. split; [simpl; lia| | |].
    - assert (Hall : forallb (λ k, used sample_disk sample_sb 1 (Z.of_nat k)) (seq 39 11) = true) by (vm_compute; reflexivity).
      rewrite List.forallb_forall in Hall. specialize (Hall (Z.to_nat b)). rewrite Z2Nat.id in Hall by lia.
      apply Hall, List.in_seq. lia.
    - intros j Hj. simpl in Hj. unfold BBLOCK. rewrite (Z.div_small j) by lia. done.
    - intros i Hi. simpl in Hi. assert (0 ≤ i / 8 < 7) by (Z.div_mod_to_equations; lia).
      unfold IBLOCK. rewrite u32_small by (simpl; lia). simpl. lia. }
  split; try done.
  - intros bn Hbn Hn. specialize (Hcase bn (Hb bn Hbn Hn)).
    split; [apply Hd|]; repeat (destruct Hcase as [->|Hcase]; [by vm_compute|]); subst; by vm_compute.
  - intros b1 b2 H1 H2 Hn E. pose proof (Hb b1 H1 Hn) as C1%Hcase. assert (C2 : 0 ≤ b2 < 9) by (apply Hb; congruence).
    apply Hcase in C2. clear -C1 C2 E.
    repeat (destruct C1 as [->|C1]); repeat (destruct C2 as [->|C2]); subst; try done; by vm_compute in E.
  - intros bn H0 Hlt. simpl in Hlt. assert (C : 0 ≤ bn < 9) by lia. apply Hcase in C.
    repeat (destruct C as [->|C]; [by vm_compute|]); subst; by vm_compute.
Qed.

Lemma prog_mem : ∃ km, kmem_rep km [0x80600000; 0x80500000] ∧ pt_wf (k_mem km) 0x80200000 [0x80600000; 0x80500000] ∧
  is_Some (table (k_mem km) 0x80200000 0).
Proof.
  destruct (one_page_space 0x80200000 0x80300000 0x80400000)
    as (km & HF & Hwf & _ & Hf & Ho); [by apply sample_page_ok..|done|done|done|].
  destruct (free_page km 0x80200000 [] 0x80500000 HF Hwf) as (HF1 & Hwf1 & Ho1 & Hp1); [by apply sample_page_ok|set_solver| |].
  { by intros [?|?]%Ho. }
  destruct (free_page _ 0x80200000 _ 0x80600000 HF1 Hwf1) as (HF2 & Hwf2 & _ & Hp2); [by apply sample_page_ok| | |].
  { by rewrite list_elem_of_singleton. } { by intros [?|?]%Ho1%Ho. }
  eexists. split; [exact HF2|]. split; [exact Hwf2|]. change 0 with (PDX 0). apply (frame_table _ _ _ 0x80400000).
  rewrite <- Hf. apply frame_of_pte. rewrite Hp2 by done. by apply Hp1.
Qed.

Lemma prog_kernel : ∃ s t, kn_wf s 0 prog_proc [] [] [0x80600000; 0x80500000] ∧
  faultable s prog_proc [] 0x1234 0x1000 t 0 (v_ref 2 prog_inode) ∧
  faultable s prog_proc [] 0x5678 0x5000 t 0 (v_ref 2 prog_inode) ∧
  cache 1 (ls_bc (fs_ls (kn_fs s))) sample_disk ∅ ∅ ∧ fs_sb (kn_fs s) = sample_sb.
Proof.
  destruct prog_mem as (km & HF & Hwf & [t Ht]). destruct swap_boot as (sw & _ & Hsw & _). destruct lru_init_abs as (lr & _).
  destruct (@cache_boot sample_driver (memide_ok 1000) 1 sample_disk) as (bc & _ & Hc & _).
  exists (Kernel km lr sw (FsState (LogSys bc (log_at 0 0)) sample_sb false [prog_inode]) (Ptable [prog_proc] false 2 None)
    (Ftable (replicate NFILE file0) false) ∅ 0 false), t.
  split; [|split; [|split; [|split; [exact Hc|reflexivity]]]].
  - constructor; [exact HF|exact Hwf|reflexivity|exact Hsw|exact (ca_rep _ _ _ _ _ Hc)|].
    apply (cache_has_free 1 _ _ _ _ Hc). rewrite map_size_empty, size_empty, NBUF_30. lia.
  - constructor; try reflexivity; [split; lia| |exact Ht|]; [intros j Hj; by apply elem_of_nil in Hj|].
    apply (got_cached _ _ _ 0 prog_inode); [reflexivity..|intros; lia].
  - constructor; try reflexivity; [split; lia| |exact Ht|]; [intros j Hj; by apply elem_of_nil in Hj|].
    apply (got_cached _ _ _ 0 prog_inode); [reflexivity..|intros; lia].
Qed.


Lemma pgflt_exposes_free_page_witness : ∃ s s', pgflt_handler 0 1 (λ _, None) 0x5678 s = Ok (tt, s') ∧
  translate (k_mem (kn_km s')) 0x80200000 0x5000 = Some (0x600000, 7) ∧ load32 (k_mem (kn_km s')) 0x80600000 = 0x80500000.
Proof.
  destruct prog_kernel as (s & t & Hwf & _ & Hfa & _).
  destruct (pgflt_exposes_free_page 0 1 (λ _, None) s prog_proc [] [] 0x80600000 [0x80500000] 0x5678 0x5000 t 0 (v_ref 2 prog_inode) Hwf Hfa)
    as (s' & E & Ht & _ & El); [reflexivity|simpl; lia|simpl; lia|].
  exists s, s'. split; [exact E|]. split; [exact Ht|exact El].
Defined.
