(* ===== verification/File.v ===== *)
(** Open files and pipes (file.c, pipe.c) on the state of the kernel.

    A [struct file *] is an index of [ftable.file].  The bytes that a read
    copies to its address are its result, and the caller of a write passes the
    bytes at the address. *)

From Stdlib Require Import ZArith Lia.
From stdpp Require Import base numbers strings option gmap sets list list_numbers.
From S2P Require Import Prelude Spinlock Mem Kalloc Bio Log Fs Pipe Proc Kernel Paging.

(** * The table of open files *)
Definition fget {T} (f : nat) (g : file → T) : M ftable_state T := λ s,
  match ft_file s !! f with Some x => Ok (g x, s) | None => Fault end.
Definition fset (f : nat) (g : file → file) : M ftable_state unit := λ s,
  match ft_file s !! f with
  | Some x => Ok (tt, put ft_arr (<[f := g x]> (ft_file s)) s)
  | None => Fault
  end.

Definition x_ref v f := File (fl_type f) v (fl_readable f) (fl_writable f) (fl_pipe f) (fl_ip f) (fl_off f).
Definition x_type v f := File v (fl_ref f) (fl_readable f) (fl_writable f) (fl_pipe f) (fl_ip f) (fl_off f).
Definition x_off v f := File (fl_type f) (fl_ref f) (fl_readable f) (fl_writable f) (fl_pipe f) (fl_ip f) v.
(** The fields that an open sets, the reference count apart. *)
Definition x_pipe (r w : bool) (p : Z) f := File FD_PIPE (fl_ref f) r w p (fl_ip f) (fl_off f).
Definition x_inode (r w : bool) (ip : nat) f := File FD_INODE (fl_ref f) r w (fl_pipe f) ip 0.

Definition fileinit : M ftable_state unit := mmod (put ft_lk false).

Definition filealloc : M ftable_state (option nat) :=
  acquire ft_lk;;
  l ← mget ft_file;
  match list_find (λ f, fl_ref f = 0) l with
  | Some (i, _) => fset i (x_ref 1);; release ft_lk;; mret (Some i)
  | None => release ft_lk;; mret None
  end.

Definition filedup (f : nat) : M ftable_state nat :=
  acquire ft_lk;;
  r ← fget f fl_ref;
  if r <? 1 then mpanic "filedup"
  else fset f (x_ref (r + 1));; release ft_lk;; mret f.

(** [fileclose] up to its last release: the file to close, if this was the
    last reference. *)
Definition fileclose_ref (f : nat) : M ftable_state (option file) :=
  acquire ft_lk;;
  r ← fget f fl_ref;
  if r <? 1 then mpanic "fileclose"
  else
    fset f (x_ref (r - 1));;
    if 0 <? r - 1 then release ft_lk;; mret None
    else
      ff ← fget f id;
      fset f (x_ref 0);;
      fset f (x_type FD_NONE);;
      release ft_lk;;
      mret (Some ff).

Section file.
Context `{KernelImage} `{BlockDriver}.
(** The running process: [myproc()] and [myproc()->pid]. *)
Variables (cur : nat) (mypid : Z).
Variable devsw_read : Z → option (nat → Z → M fs_state (Z * list Z)).
Variable devsw_write : Z → option (nat → list Z → M fs_state Z).

(** * Pipes in memory *)

(** [*p] and [*p = ..] of a [struct pipe *]. *)
Definition pipe_at (p : Z) : M kernel pipe := λ s,
  match kn_pipes s !! p with Some x => Ok (x, s) | None => Fault end.
Definition pipe_set (p : Z) (x : pipe) : M kernel unit := zoom PIPES (mmod (insert p x)).

Definition pipe_acquire (p : Z) : M kernel unit :=
  x ← pipe_at p;
  if pp_lock x then mpanic "acquire" else pipe_set p (pp_put_lock true x).
Definition pipe_release (p : Z) : M kernel unit :=
  x ← pipe_at p;
  if pp_lock x then pipe_set p (pp_put_lock false x) else mpanic "release".

(** [&p->nread] and [&p->nwrite] as sleep channels. *)
Definition chan_nread (p : Z) : Z := p + 564.
Definition chan_nwrite (p : Z) : Z := p + 568.

Definition pipeclose (p : Z) (writable : bool) : M kernel unit :=
  pipe_acquire p;;
  x ← pipe_at p;
  (if writable then pipe_set p (pp_put_writeopen false x);; zoom PT (wakeup (chan_nread p))
   else pipe_set p (pp_put_readopen false x);; zoom PT (wakeup (chan_nwrite p)));;
  x ← pipe_at p;
  if negb (pp_readopen x) && negb (pp_writeopen x) then
    pipe_release p;;
    zoom KM (kfree p);;
    zoom PIPES (mmod (delete p))
  else pipe_release p.

Definition pipewrite (p : Z) (addr : list Z) : M kernel Z :=
  pipe_acquire p;;
  killed ← zoom PT (pget cur p_killed);
  x ← pipe_at p;
  match pipewrite_run (negb (killed =? 0)) addr x with
  | (WDone, x) =>
      pipe_set p x;; zoom PT (wakeup (chan_nread p));; pipe_release p;; mret (Z.of_nat (length addr))
  | (WFail _, x) => pipe_set p x;; pipe_release p;; mret (-1)
  | (WSleep _, _) => mblock
  end.

(** [copy] stores the bytes at [addr], an address of the user. *)
Definition piperead (p : Z) (copy : list Z → M kernel unit) (n : Z) : M kernel Z :=
  pipe_acquire p;;
  killed ← zoom PT (pget cur p_killed);
  x ← pipe_at p;
  match piperead_run (negb (killed =? 0)) (Z.to_nat n) x with
  | (RDone bytes, x) =>
      pipe_set p x;; copy bytes;; zoom PT (wakeup (chan_nwrite p));; pipe_release p;; mret (Z.of_nat (length bytes))
  | (RFail, x) => pipe_set p x;; pipe_release p;; mret (-1)
  | (RSleep, _) => mblock
  end.

(** * Files *)
Definition kbegin_op : M kernel unit := zoom FS (zoom FLS begin_op).
Definition kend_op : M kernel unit := zoom FS (zoom FLS (end_op mypid)).

Definition fileclose (f : nat) : M kernel unit :=
  r ← zoom FT (fileclose_ref f);
  match r with
  | None => mret tt
  | Some ff =>
      match fl_type ff with
      | FD_PIPE => pipeclose (fl_pipe ff) (fl_writable ff)
      | FD_INODE => kbegin_op;; zoom FS (iput mypid (fl_ip ff));; kend_op
      | FD_NONE => mret tt
      end
  end.

(** [pipealloc] leaves the two files in [*f0] and [*f1]. *)
Definition pipealloc_bad (f0 f1 : option nat) : M kernel (option (nat * nat)) :=
  (match f0 with Some f => fileclose f | None => mret tt end);;
  (match f1 with Some f => fileclose f | None => mret tt end);;
  mret None.

Definition pipealloc : M kernel (option (nat * nat)) :=
  f0 ← zoom FT filealloc;
  match f0 with
  | None => pipealloc_bad None None
  | Some i =>
      f1 ← zoom FT filealloc;
      match f1 with
      | None => pipealloc_bad (Some i) None
      | Some j =>
          p ← kalloc mypid (-1) 0;
          if p =? 0 then pipealloc_bad (Some i) (Some j)
          else
            d ← zoom KM (mget (λ s, read_bytes (k_mem s) (p + 52) (Z.to_nat PIPESIZE)));
            pipe_set p (Pipe false d 0 0 true true);;
            zoom FT (fset i (x_pipe true false p));;
            zoom FT (fset j (x_pipe false true p));;
            mret (Some (i, j))
      end
  end.

Definition filestat (f : nat) : M kernel (option stat) :=
  x ← zoom FT (fget f id);
  match fl_type x with
  | FD_INODE =>
      zoom FS (ilock mypid (Some (fl_ip x)));;
      st ← zoom FS (stati (fl_ip x));
      zoom FS (iunlock mypid (Some (fl_ip x)));;
      mret (Some st)
  | _ => mret None
  end.

(** [readi] copies block by block with the inode locked; here the bytes are
    stored when it has them all. *)
Definition fileread (f : nat) (copy : list Z → M kernel unit) (n : Z) : M kernel Z :=
  x ← zoom FT (fget f id);
  if negb (fl_readable x) then mret (-1)
  else
    match fl_type x with
    | FD_PIPE => piperead (fl_pipe x) copy n
    | FD_INODE =>
        zoom FS (ilock mypid (Some (fl_ip x)));;
        '(r, bytes) ← zoom FS (readi mypid devsw_read (fl_ip x) (fl_off x) n);
        copy bytes;;
        (if 0 <? r then zoom FT (fset f (x_off (u32 (fl_off x + r)))) else mret tt);;
        zoom FS (iunlock mypid (Some (fl_ip x)));;
        mret r
    | FD_NONE => mpanic "fileread"
    end.

(** [((MAXOPBLOCKS-1-1-2) / 2) * 512] *)
Definition write_max : Z := 1536.

Fixpoint filewrite_loop (fuel f : nat) (addr : list Z) (i n : Z) : M kernel Z :=
  match fuel with
  | O => mnofuel
  | S fuel =>
      if i <? n then
        let n1 := if write_max <? n - i then write_max else n - i in
        x ← zoom FT (fget f id);
        kbegin_op;;
        zoom FS (ilock mypid (Some (fl_ip x)));;
        r ← zoom FS (writei mypid devsw_write (fl_ip x) (drop (Z.to_nat i) addr) (fl_off x) n1);
        (if 0 <? r then zoom FT (fset f (x_off (u32 (fl_off x + r)))) else mret tt);;
        zoom FS (iunlock mypid (Some (fl_ip x)));;
        kend_op;;
        if r <? 0 then mret i
        else if negb (r =? n1) then mpanic "short filewrite"
        else filewrite_loop fuel f addr (i + r) n
      else mret i
  end.

Definition filewrite (f : nat) (addr : list Z) (n : Z) : M kernel Z :=
  x ← zoom FT (fget f id);
  if negb (fl_writable x) then mret (-1)
  else
    match fl_type x with
    | FD_PIPE => pipewrite (fl_pipe x) (take (Z.to_nat n) addr)
    | FD_INODE =>
        i ← filewrite_loop (S (S (Z.to_nat n))) f addr 0 n;
        mret (if i =? n then n else -1)
    | FD_NONE => mpanic "filewrite"
    end.
End file.
