(* ===== verification/User.v ===== *)
(** Access to user memory and system call arguments (syscall.c).

    The kernel runs on the page table of the process, so an access to a user
    address goes through it; an access to a page that is not there runs the
    page fault handler and starts again. *)

From Stdlib Require Import ZArith Lia.
From stdpp Require Import base numbers strings option gmap sets list list_numbers.
From S2P Require Import Prelude Spinlock Mem Kalloc Vm Block Bio Log Fs Proc Kernel Paging.

Section user.
Context `{KernelImage} `{BlockDriver}.
Variables (cur : nat) (mypid : Z).
Variable devsw_read : Z → option (nat → Z → M fs_state (Z * list Z)).

(** The kernel address of a user byte, to read or to write it.  A handler that
    does not make the page accessible would be called for ever. *)
Fixpoint uaddr (fuel : nat) (write : bool) (va : Z) : M kernel Z :=
  match fuel with
  | O => mnofuel
  | S fuel =>
      pgdir ← zoom PT (pget cur p_pgdir);
      pte ← zoom KM (walkpgdir pgdir va false);
      e ← (if pte =? 0 then mret 0 else zoom KM (ldw pte));
      if (Z.land e PTE_P =? 0) || (write && (Z.land e PTE_W =? 0)) then
        pgflt_handler cur mypid devsw_read va;; uaddr fuel write va
      else mret (P2V (PTE_ADDR e) + va mod PGSIZE)
  end.

Fixpoint uread (n : nat) (va : Z) : M kernel (list Z) :=
  match n with
  | O => mret []
  | S n =>
      a ← uaddr 2 false va;
      c ← zoom KM (kread a 1);
      rest ← uread n (u32 (va + 1));
      mret (c ++ rest)
  end.

Fixpoint uwrite (va : Z) (l : list Z) : M kernel unit :=
  match l with
  | [] => mret tt
  | c :: l =>
      a ← uaddr 2 true va;
      zoom KM (kwrite a [c]);;
      uwrite (u32 (va + 1)) l
  end.

(** * Arguments *)

(** The value, or [None] for the result -1. *)
Definition fetchint (a : Z) : M kernel (option Z) :=
  sz ← zoom PT (pget cur p_sz);
  if (sz <=? a) || (sz <? u32 (a + 4)) then mret None
  else w ← uread 4 a; mret (Some (s32 (get32 w 0))).

(** The loop of [fetchstr] from [s] up to [ep]. *)
Fixpoint fetchstr_loop (n : nat) (s : Z) : M kernel (option (list Z)) :=
  match n with
  | O => mret None
  | S n =>
      c ← uread 1 s;
      if at8 c 0 =? 0 then mret (Some [])
      else
        r ← fetchstr_loop n (s + 1);
        mret (match r with Some l => Some (at8 c 0 :: l) | None => None end)
  end.

(** The string at the address: its length is the result of the function. *)
Definition fetchstr (a : Z) : M kernel (option (list Z)) :=
  sz ← zoom PT (pget cur p_sz);
  if sz <=? a then mret None else fetchstr_loop (Z.to_nat (sz - a)) a.

Definition argint (n : Z) : M kernel (option Z) :=
  tf ← zoom PT (pget cur p_tf);
  fetchint (u32 (tf_esp tf + 4 + 4 * n)).

Definition argptr (n size : Z) : M kernel (option Z) :=
  i ← argint n;
  match i with
  | None => mret None
  | Some i =>
      sz ← zoom PT (pget cur p_sz);
      if (size <? 0) || (sz <=? u32 i) || (sz <? u32 (u32 i + size)) then mret None
      else mret (Some (u32 i))
  end.

Definition argstr (n : Z) : M kernel (option (list Z)) :=
  a ← argint n;
  match a with None => mret None | Some a => fetchstr (u32 a) end.
End user.
