(* ===== verification/Process.v ===== *)
(** The life of a process (proc.c, exec.c): [fork], [exit], [wait] and [exec]
    with the memory, the files and the swap slots of the process.

    The trap frame of a process is a field of the process; what [allocproc]
    leaves below it on the kernel stack is used by the context switch only. *)

From Stdlib Require Import ZArith Lia.
From stdpp Require Import base numbers strings option gmap sets list list_numbers.
From S2P Require Import Prelude Spinlock Lru Swap Mem Kalloc Vm Block Bio Log Fs Pipe Proc Kernel Paging File User.

(** [safestrcpy(dst, src, n)] on arrays, for n > 0. *)
Definition str_into (dst src : list Z) (n : nat) : list Z := splice dst 0 (take (n - 1) (cstr src) ++ [0]).

(** * ELF (elf.h) *)
Record elfhdr := Elfhdr { elf_magic : Z; elf_entry : Z; elf_phoff : Z; elf_phnum : Z }.
Record proghdr := Proghdr { pg_type : Z; pg_off : Z; pg_vaddr : Z; pg_filesz : Z; pg_memsz : Z }.
Definition ELF_MAGIC : Z := 0x464C457F.
Definition decode_elf (d : list Z) : elfhdr := Elfhdr (get32 d 0) (get32 d 24) (get32 d 28) (get16 d 44).
Definition decode_ph (d : list Z) : proghdr :=
  Proghdr (get32 d 0) (get32 d 4) (get32 d 8) (get32 d 16) (get32 d 20).

Section process.
Context `{KernelImage} `{BlockDriver}.
Variables (cur : nat) (mypid : Z).
Variable devsw_read : Z → option (nat → Z → M fs_state (Z * list Z)).
Variable devsw_write : Z → option (nat → list Z → M fs_state Z).

(** [sizeof(struct trapframe)], and the offsets of its fields. *)
Definition read_tf (a : Z) : M kmem_state trapframe :=
  eax ← ldw (a + 28);
  eip ← ldw (a + 56);
  esp ← ldw (a + 68);
  mret (Tf eax esp eip).

Definition allocproc : M kernel (option nat) :=
  r ← zoom PT allocproc_slot;
  match r with
  | None => mret None
  | Some p =>
      ks ← kalloc mypid (-1) 0;
      zoom PT (pset p (w_kstack ks));;
      if ks =? 0 then zoom PT (pset p (w_state UNUSED));; mret None
      else
        tf ← zoom KM (read_tf (ks + 4096 - 76));
        zoom PT (pset p (w_tf tf));;
        mret (Some p)
  end.

Fixpoint fork_files (n i np : nat) : M kernel unit :=
  match n with
  | O => mret tt
  | S n =>
      fs ← zoom PT (pget cur p_ofile);
      (match mjoin (fs !! i) with
       | Some f =>
           f ← zoom FT (filedup f);
           ofs ← zoom PT (pget np p_ofile);
           zoom PT (pset np (w_ofile (<[i := Some f]> ofs)))
       | None => mret tt
       end);;
      fork_files n (S i) np
  end.

Definition fork : M kernel Z :=
  r ← allocproc;
  match r with
  | None => mret (-1)
  | Some np =>
      pgdir ← copyuvm mypid cur np;
      zoom PT (pset np (w_pgdir pgdir));;
      if pgdir =? 0 then
        ks ← zoom PT (pget np p_kstack);
        zoom KM (kfree ks);;
        zoom PT (pset np (w_kstack 0));;
        zoom PT (pset np (w_state UNUSED));;
        mret (-1)
      else
        c ← zoom PT (pget cur id);
        zoom PT (pset np (w_sz (p_sz c)));;
        zoom PT (pset np (w_parent (Some cur)));;
        zoom PT (pset np (w_tf (Tf 0 (tf_esp (p_tf c)) (tf_eip (p_tf c)))));;
        fork_files NOFILE 0 np;;
        cwd ← (match p_cwd c with Some d => zoom FS (idup d) | None => mfault end);
        zoom PT (pset np (w_cwd (Some cwd)));;
        zoom PT (pset np (w_forked 0));;
        zoom PT (pset cur (w_forked 1));;
        zoom PT (pset np (w_swap_list (p_swap_list c)));;
        zoom SWAP (swap_fork (p_swap_list c));;
        n ← zoom PT (pget np p_name);
        zoom PT (pset np (w_name (str_into n (p_name c) 16)));;
        pid ← zoom PT (pget np p_pid);
        zoom PT (acquire pt_lk);;
        zoom PT (pset np (w_state RUNNABLE));;
        zoom PT (release pt_lk);;
        mret pid
  end.

Fixpoint exit_files (n i : nat) : M kernel unit :=
  match n with
  | O => mret tt
  | S n =>
      fs ← zoom PT (pget cur p_ofile);
      (match mjoin (fs !! i) with
       | Some f =>
           fileclose mypid f;;
           fs ← zoom PT (pget cur p_ofile);
           zoom PT (pset cur (w_ofile (<[i := None]> fs)))
       | None => mret tt
       end);;
      exit_files n (S i)
  end.

(** [exit] up to the switch to the scheduler, which never comes back. *)
Definition exit_proc : M kernel unit :=
  init ← zoom PT (mget initproc);
  if decide (init = Some cur) then mpanic "init exiting"
  else
    exit_files NOFILE 0;;
    kbegin_op;;
    cwd ← zoom PT (pget cur p_cwd);
    (match cwd with Some d => zoom FS (iput mypid d) | None => mfault end);;
    kend_op mypid;;
    zoom PT (pset cur (w_cwd None));;
    zoom PT (Proc.exit cur).

(** [wait]; sleeping for a child is the outcome [Blocked]. *)
Definition wait : M kernel Z :=
  zoom PT (acquire pt_lk);;
  '(z, havekids) ← zoom PT (wait_scan cur);
  match z with
  | Some j =>
      pid ← wait_free j;
      zoom PT (release pt_lk);;
      mret pid
  | None =>
      killed ← zoom PT (pget cur p_killed);
      if negb (havekids : bool) || negb (killed =? 0) then zoom PT (release pt_lk);; mret (-1)
      else mblock
  end.

(** * exec *)

(** [namei] from the directory of the process. *)
Definition knamei (path : list Z) : M kernel (option nat) :=
  c ← zoom PT (pget cur p_cwd);
  zoom FS (namei mypid devsw_read (default NINODE c) path).

(** [bad:] of [exec]; [ip] is null after the program is loaded. *)
Definition exec_bad (pgdir : Z) (ip : option nat) : M kernel Z :=
  (if pgdir =? 0 then mret tt
   else
     pid ← zoom PT (pget cur p_pid);
     zoom LRU (lru_free pid);;
     Paging.swap_free pid;;
     zoom KM (freevm pgdir));;
  (match ip with
   | Some ip => zoom FS (iunlockput mypid ip);; kend_op mypid
   | None => mret tt
   end);;
  mret (-1).

(** The loop over the program headers: the size, or [None] for a jump to bad. *)
Fixpoint exec_load (n : nat) (pgdir : Z) (ip : nat) (off sz : Z) : M kernel (option Z) :=
  match n with
  | O => mret (Some sz)
  | S n =>
      '(r, d) ← zoom FS (readi mypid devsw_read ip off 32);
      if negb (r =? 32) then mret None
      else
        let ph := decode_ph d in
        if negb (pg_type ph =? 1) then exec_load n pgdir ip (u32 (off + 32)) sz
        else if pg_memsz ph <? pg_filesz ph then mret None
        else if u32 (pg_vaddr ph + pg_memsz ph) <? pg_vaddr ph then mret None
        else if negb (pg_vaddr ph mod PGSIZE =? 0) then mret None
        else
          zoom PT (pset cur (w_ph (PhInfo (pg_filesz ph) (pg_memsz ph) (pg_vaddr ph) (pg_off ph))));;
          sz ← allocuvm cur mypid pgdir sz (u32 (pg_vaddr ph + pg_memsz ph)) 0;
          if sz =? 0 then mret None else exec_load n pgdir ip (u32 (off + 32)) sz
  end.

(** A write to [curproc->stack_buffer]; one that leaves the array is undefined. *)
Definition stack_write (sp : Z) (l : list Z) : M kernel unit :=
  if (0 <=? sp) && (sp + Z.of_nat (length l) <=? PGSIZE) then
    b ← zoom PT (pget cur p_stack_buffer);
    zoom PT (pset cur (w_stack_buffer (splice b (Z.to_nat sp) l)))
  else mfault.

(** The loop over the arguments: the stack pointer and [ustack[3..]]. *)
Fixpoint exec_args (argv : list (list Z)) (argc : nat) (base sp : Z) : M kernel (option (Z * list Z)) :=
  match argv with
  | [] => mret (Some (sp, []))
  | s :: argv =>
      if (32 <=? argc)%nat then mret None
      else
        let sp := Z.land (u32 (sp - (Z.of_nat (length s) + 1))) (u32 (Z.lnot 3)) in
        stack_write sp (s ++ [0]);;
        r ← exec_args argv (S argc) base sp;
        mret (match r with Some (sp', us) => Some (sp', u32 (base + sp) :: us) | None => None end)
  end.

(** The arguments and [ustack] on the new stack: the stack pointer. *)
Definition exec_stack (argv : list (list Z)) (base : Z) : M kernel (option Z) :=
  r ← exec_args argv 0 base PGSIZE;
  match r with
  | None => mret None
  | Some (sp, us) =>
      let argc := Z.of_nat (length argv) in
      let ustack := [0xffffffff; argc; u32 (base + (sp - (argc + 1) * 4))] ++ us ++ [0] in
      let sp := u32 (sp - (3 + argc + 1) * 4) in
      stack_write sp (mjoin (enc32 <$> ustack));;
      mret (Some sp)
  end.

(** The part after the last slash. *)
Fixpoint last_elem (path last : list Z) : list Z :=
  match path with
  | [] => last
  | c :: p => if c =? 47 then last_elem p p else last_elem p last
  end.

(** [curproc->path] and [curproc->name]: the array [path] follows [name], so a
    name of more than 15 bytes goes on in [path]; a path that leaves its array
    is undefined. *)
Definition set_name (path : list Z) : M kernel unit :=
  if (512 <? length path + 1)%nat then mfault
  else
    c ← zoom PT (pget cur id);
    let both := str_into (p_name c ++ splice (p_path c) 0 (path ++ [0])) (last_elem path path) 512 in
    zoom PT (pset cur (w_name (take 16 both)));;
    zoom PT (pset cur (w_path (drop 16 both))).

Definition exec (path : list Z) (argv : list (list Z)) : M kernel Z :=
  kbegin_op;;
  r ← knamei path;
  match r with
  | None => kend_op mypid;; mret (-1)
  | Some ip =>
      zoom FS (ilock mypid (Some ip));;
      x ← zoom FS (ifld ip id);
      zoom PT (pset cur (w_ip (InodeInfo (i_dev x) (i_inum x))));;
      '(r, d) ← zoom FS (readi mypid devsw_read ip 0 52);
      if negb (r =? 52) then exec_bad 0 (Some ip)
      else
        let elf := decode_elf d in
        if negb (elf_magic elf =? ELF_MAGIC) then exec_bad 0 (Some ip)
        else
          pgdir ← zoom KM setupkvm;
          if pgdir =? 0 then exec_bad 0 (Some ip)
          else
            r ← exec_load (Z.to_nat (elf_phnum elf)) pgdir ip (elf_phoff elf) 0;
            match r with
            | None => exec_bad pgdir (Some ip)
            | Some sz =>
                zoom PT (pset cur (w_cdb_size sz));;
                zoom FS (iunlockput mypid ip);;
                kend_op mypid;;
                sz ← allocuvm cur mypid pgdir (PGROUNDUP sz) (u32 (PGROUNDUP sz + 2 * PGSIZE)) 0;
                if sz =? 0 then exec_bad pgdir None
                else
                  zoom KM (clearpteu pgdir (u32 (sz - 2 * PGSIZE)));;
                  cdb ← zoom PT (pget cur p_cdb_size);
                  let base := u32 (PGROUNDUP cdb + PGSIZE) in
                  r ← exec_stack argv base;
                  match r with
                  | None => exec_bad pgdir None
                  | Some sp =>
                      c ← zoom PT (pget cur id);
                      set_name path;;
                      zoom PT (pset cur (w_pgdir pgdir));;
                      zoom PT (pset cur (w_sz sz));;
                      zoom PT (pset cur (w_tf (Tf (tf_eax (p_tf c)) (u32 (base + sp)) (elf_entry elf))));;
                      r ← swap_out_stack mypid cur (u32 (sz - PGSIZE));
                      if r <? 0 then mpanic "Swap Space is Full"
                      else
                        zoom KM (freevm (p_pgdir c));;
                        mret 0
                  end
            end
  end.
End process.
