(* ===== verification/Init.v ===== *)
(** The first process: [userinit] and [forkret] of proc.c.

    The image of initcode.S is a parameter.  Of the trap frame the model keeps
    the registers of [trapframe]; the selectors and flags that [userinit] puts
    beside them are not part of it. *)

From Stdlib Require Import ZArith Lia Ascii String.
From stdpp Require Import base functions numbers strings option gmap sets list list_numbers.
From S2P Require Import Prelude Printf Spinlock Sleeplock Lru Swap Mem Kalloc Vm Segments Kvm Block Bio Cache Log Fs Pipe Proc Kernel Paging File User Process.

Section init.
Context `{KernelImage} `{BlockDriver}.
Variable mypid : Z.
Variable devsw_read : Z → option (nat → Z → M fs_state (Z * list Z)).

Definition userinit (initcode : list Z) : M kernel unit :=
  r ← allocproc mypid;
  zoom PT (mmod (λ s, Ptable (pt_proc s) (pt_lock s) (nextpid s) r));;
  match r with
  | None => mfault
  | Some p =>
      d ← zoom KM setupkvm;
      zoom PT (pset p (w_pgdir d));;
      if d =? 0 then mpanic "userinit: out of memory?"
      else
        zoom KM (inituvm d initcode);;
        zoom PT (pset p (w_sz PGSIZE));;
        zoom PT (pset p (w_swap_list None));;
        zoom PT (pset p (w_tf (Tf 0 0 0)));;
        zoom PT (pset p (λ x, w_tf (Tf (tf_eax (p_tf x)) PGSIZE (tf_eip (p_tf x))) x));;
        zoom PT (pset p (λ x, w_tf (Tf (tf_eax (p_tf x)) (tf_esp (p_tf x)) 0) x));;
        zoom PT (pset p (λ x, w_name (str_into (p_name x) (chars "initcode") 16) x));;
        cwd ← zoom FS (namei mypid devsw_read NINODE (chars "/"));
        zoom PT (pset p (w_cwd cwd));;
        zoom PT (acquire pt_lk);;
        zoom PT (pset p (w_state RUNNABLE));;
        zoom PT (release pt_lk)
  end.

(** The static variable [first] of [forkret], and the kernel. *)
Definition FK : lens (bool * kernel) kernel := Lens snd (λ x s, (s.1, x)).

(** A new process returns from the scheduler here. *)
Definition forkret : M (bool * kernel) unit :=
  zoom FK (zoom PT (release pt_lk));;
  first ← mget fst;
  if (first : bool) then
    mmod (λ s, (false, s.2));;
    zoom FK (zoom FS (iinit mypid ROOTDEV));;
    zoom FK (zoom FS (zoom FLS (initlog mypid ROOTDEV)))
  else mret tt.

Context {IOk : KernelImageOk _}.

(** * The parts of userinit *)

Lemma alter_insert_Some {A} (f : A → A) (l : list A) i x : l !! i = Some x → alter f i l = <[i := f x]> l.
Proof.
  intros Hx. apply list_eq. intros j. rewrite list_lookup_alter. destruct (decide (i = j)) as [<-|]; [|by rewrite list_lookup_insert_ne].
  rewrite Hx, list_lookup_insert_eq by (by eapply lookup_lt_Some). done.
Qed.

(** [allocproc] with a free entry of the table and a free page for the kernel
    stack. *)
Lemma allocproc_run s i x ks F : pt_lock (kn_pt s) = false → pfind (λ p, bool_decide (p_state p = UNUSED)) (pt_proc (kn_pt s)) = Some i →
  pt_proc (kn_pt s) !! i = Some x → kmem_rep (kn_km s) (ks :: F) →
  ∃ tf, allocproc mypid s = Ok (Some i, put PT (Ptable
      (<[i := w_tf tf (w_kstack ks (w_ppid (nextpid (kn_pt s)) (w_state EMBRYO x)))]> (pt_proc (kn_pt s)))
      false (s32 (nextpid (kn_pt s) + 1)) (initproc (kn_pt s))) (put KM (popped (kn_km s)) s)).
Proof.
  intros Hlk Hi Hx HF. destruct (kmem_head _ _ _ HF) as (Hhd & Hks & Hks0). unfold allocproc.
  pose proof (allocproc_slot_spec _ Hlk) as E. rewrite Hi, (alter_insert_Some _ _ _ x Hx) in E. rewrite (zoom_bind PT _ _ _ _ _ E). clear E.
  destruct s as [km lr sw fs [l lk n ip] ft pp ti tl]. cbn [kn_pt kn_km pt_lock pt_proc nextpid initproc] in *. subst lk. cbv beta iota.
  assert (i < length l)%nat as Hlt by (by eapply lookup_lt_Some).
  erewrite bind_Ok by (eapply (kalloc_plain _ _ _ _ (ks :: F)); [done|exact HF]). cbn [kn_km put PT]. rewrite Hhd.
  erewrite (zoom_bind PT) by (eapply pset_Ok; cbn; by apply list_lookup_insert_eq). cbn beta.
  rewrite (proj2 (Z.eqb_neq _ _)) by done.
  destruct (popped_cons _ _ _ HF) as (_ & Hm & _ & _).
  erewrite (zoom_bind KM) by (unfold read_tf; do 3 (erewrite bind_Ok by (unfold ldw; rewrite (page_ok_mapped ks) by (done || lia); reflexivity)); reflexivity).
  cbn beta. erewrite (zoom_bind PT) by (eapply pset_Ok; cbn; by apply list_lookup_insert_eq; rewrite ?length_insert).
  eexists. unfold mret, M_ret. cbn. by rewrite !list_insert_insert_eq.
Qed.

(** [namei("/")] takes an entry of the inode cache for the root directory. *)
Lemma namei_root cwd s ip x : fs_iclk s = false → iget_scan (fs_inode s) 0 ROOTDEV ROOTINO None = (None, Some ip) → fs_inode s !! ip = Some x →
  namei mypid devsw_read cwd (chars "/") s =
    Ok (Some ip, put FIC (<[ip := v_valid false (v_ref 1 (v_inum ROOTINO (v_dev ROOTDEV x)))]> (fs_inode s)) s).
Proof.
  intros Hlk Hscan Hx. assert (ip < length (fs_inode s))%nat as Hlt by (by eapply lookup_lt_Some). destruct s as [ls sb lk l].
  cbn [fs_iclk fs_inode] in *. subst lk.
  unfold namei, namex. change (at8 (chars "/") 0 =? 47) with true. cbn iota. unfold iget. rewrite !bind_assoc.
  erewrite bind_Ok by reflexivity. cbn beta. rewrite !bind_assoc. erewrite bind_Ok by reflexivity. cbn [fs_inode put iclk]. rewrite Hscan. cbn iota beta.
  assert (∀ g x l, l !! ip = Some x → iset ip g (FsState ls sb true l) = Ok (tt, FsState ls sb true (<[ip := g x]> l))) as Hset.
  { intros g y l' Hy. unfold iset. cbn. by rewrite Hy. }
  rewrite !bind_assoc. erewrite bind_Ok by (by apply Hset). rewrite !bind_assoc.
  erewrite bind_Ok by (apply Hset; by rewrite list_lookup_insert_eq).
  rewrite !bind_assoc. erewrite bind_Ok by (apply Hset; by rewrite list_lookup_insert_eq by (by rewrite ?length_insert)).
  rewrite !bind_assoc. erewrite bind_Ok by (apply Hset; by rewrite list_lookup_insert_eq by (by rewrite ?length_insert)).
  cbn. by rewrite !list_insert_insert_eq.
Qed.
(** * The first process *)

Lemma pt_acquire s : pt_lock s = false → acquire pt_lk s = Ok (tt, put pt_lk true s).
Proof. intros E. unfold acquire. cbn [view pt_lk]. by rewrite E. Qed.

(** A write to the entry of the process that is being made. *)
Ltac kred := cbn [view put PT KM FS kn_km kn_lru kn_swap kn_fs kn_pt kn_ft kn_pipes kn_ticks kn_tickslk pt_proc pt_arr pt_lk pt_lock nextpid initproc].
Ltac pset_step :=
  erewrite (zoom_bind PT) by (eapply pset_Ok; kred; apply list_lookup_insert_eq; rewrite ?length_insert; done);
  kred; rewrite list_insert_insert_eq.

Lemma iget_scan_empty l dev inum ip : ∀ k e, iget_scan l k dev inum e = (None, Some ip) →
  e = Some ip ∨ ∃ x, (k ≤ ip)%nat ∧ l !! (ip - k)%nat = Some x ∧ i_ref x = 0.
Proof.
  induction l as [|y l IH]; intros k e E; cbn [iget_scan] in E; [left; congruence|]. destruct (_ && _ && _); [done|].
  apply IH in E as [E|(x & Hk & Hx & Hr)].
  - destruct e; [by left|]. destruct (Z.eqb_spec (i_ref y) 0); [|done]. simplify_eq. right. exists y. by rewrite Nat.sub_diag.
  - right. exists x. split_and!; [lia| |done]. by replace (ip - k)%nat with (S (ip - S k)) by lia.
Qed.

(** What the processor sees of the address space of the first process. *)
Definition init_map (frame va : Z) : option (Z * Z) :=
  if decide (0 ≤ va < PGSIZE) then Some (V2P frame + va, Z.lor (Z.lor PTE_W PTE_U) PTE_P) else kernel_map va.

(** C17. [userinit] makes the first process: with 68 free pages, a free entry of
    the process table and of the inode cache it returns, and process [i] is
    runnable, is [initproc], starts at address 0 with its stack at the end of
    its only page, and has the root directory as its current directory.  The
    processor translates its addresses to one frame of its own, which holds the
    initial code and zeros and is open to users, and to the kernel above
    [KERNBASE].  Frame, kernel stack and page tables are distinct pages off the
    free list; no other process changes. *)
Theorem userinit_first_process initcode s F i ip : pt_lock (kn_pt s) = false →
  pfind (λ p, bool_decide (p_state p = UNUSED)) (pt_proc (kn_pt s)) = Some i → kmem_rep (kn_km s) F → 68 ≤ Z.of_nat (length F) →
  Z.of_nat (length initcode) < PGSIZE → Forall is_u8 initcode → fs_iclk (kn_fs s) = false →
  iget_scan (fs_inode (kn_fs s)) 0 ROOTDEV ROOTINO None = (None, Some ip) →
  ∃ s' P frame F', userinit initcode s = Ok (tt, s') ∧
    kn_pt s' = Ptable (<[i := P]> (pt_proc (kn_pt s))) false (s32 (nextpid (kn_pt s) + 1)) (Some i) ∧
    p_state P = RUNNABLE ∧ p_pid P = nextpid (kn_pt s) ∧ p_sz P = PGSIZE ∧ p_tf P = Tf 0 PGSIZE 0 ∧ p_swap_list P = None ∧ p_cwd P = Some ip ∧
    (∃ y, fs_inode (kn_fs s') !! ip = Some y ∧ i_dev y = ROOTDEV ∧ i_inum y = ROOTINO ∧ i_ref y = 1) ∧
    (∀ va, is_u32 va → translate (k_mem (kn_km s')) (p_pgdir P) va = init_map frame va) ∧
    (∀ a, 0 ≤ a < PGSIZE → k_mem (kn_km s') (frame + a) = nth (Z.to_nat a) initcode 0) ∧
    kmem_rep (kn_km s') F' ∧ pt_wf (k_mem (kn_km s')) (p_pgdir P) F' ∧ F' `suffix_of` F ∧
    p_kstack P ∈ F ∧ p_kstack P ∉ F' ∧ frame ∈ F ∧ frame ∉ F' ∧ p_kstack P ≠ frame ∧
    ¬ owned (k_mem (kn_km s')) (p_pgdir P) (p_kstack P) ∧ ¬ owned (k_mem (kn_km s')) (p_pgdir P) frame.
Proof.
  intros Hlk Hi HF Hn Hlen Hcode Hiclk Hscan. destruct (pfind_Some _ _ _ Hi) as (x & Hx & _ & _).
  destruct (iget_scan_empty _ _ _ _ _ _ Hscan) as [?|(y & _ & Hy & _)]; [done|]. rewrite Nat.sub_0_r in Hy.
  destruct F as [|ks F]; [cbn in Hn; lia|]. destruct (allocproc_run s i x ks F Hlk Hi Hx HF) as (tf & Ea).
  unfold userinit. erewrite bind_Ok by exact Ea. clear Ea.
  destruct (popped_cons _ _ _ HF) as (HF1 & _ & _ & _). pose proof (kr_nodup _ _ HF) as [HksF _]%NoDup_cons.
  assert (i < length (pt_proc (kn_pt s)))%nat as Hlt by (by eapply lookup_lt_Some).
  destruct s as [km lr sw fs [l lk n ini] ft pp ti tl]. cbn [kn_pt kn_km kn_fs pt_lock pt_proc nextpid initproc] in *. subst lk.
  destruct (setupkvm_run _ F HF1) as (d & km2 & F2 & E2 & HF2 & Hd & Hr & Hout2). cbn [length] in Hn.
  destruct Hr as [[-> _]|(Hd0 & Hsuf2 & Hcnt & Hwf2 & Hown2 & Hmap2)]; [exfalso; by apply Hd; [lia|]|].
  destruct (inituvm_run d initcode km2 F2 kernel_map) as (p & km3 & F3 & E3 & HF3 & Hwf3 & Hsuf3 & _ & Hp & HpF & HpF3 & Hnp & Hown3 & Hmap3 & Hcode3 & _); try done; [lia|].
  erewrite (zoom_bind PT) by reflexivity. kred. erewrite (zoom_bind KM) by exact E2. kred. pset_step.
  rewrite (proj2 (Z.eqb_neq _ _)) by done.
  erewrite (zoom_bind KM) by exact E3. kred. do 6 pset_step.
  erewrite (zoom_bind FS) by (by eapply namei_root). kred. pset_step.
  erewrite (zoom_bind PT) by (apply pt_acquire; kred; reflexivity). kred. pset_step.
  eexists _, _, p, F3. split; [reflexivity|]. cbn [put PT KM FS kn_pt kn_km kn_fs pt_lk pt_arr pt_proc pt_lock nextpid initproc]. split.
  { done. }
  cbn [w_state w_cwd w_name w_tf w_swap_list w_sz w_pgdir w_kstack w_ppid p_state p_pid p_sz p_tf p_swap_list p_cwd p_pgdir p_kstack tf_eax tf_esp tf_eip].
  assert (ks ∉ F2) as HksF2 by (intros ?; apply HksF; by eapply suffix_elem).
  split_and!; try done.
  - eexists. split; [apply list_lookup_insert_eq; by eapply lookup_lt_Some|done].
  - by apply suffix_cons_r; etrans.
  - apply elem_of_cons. by left.
  - intros ?. apply HksF2. by eapply suffix_elem.
  - apply elem_of_cons. right. by eapply suffix_elem.
  - intros ->. done.
  - intros [Ho|?]%Hown3; [|done]. by apply HksF, Hown2.
Qed.
(** Only the first process to run reads the superblock and recovers the log. *)
Lemma forkret_later k : pt_lock (kn_pt k) = true → forkret (false, k) = Ok (tt, (false, put PT (put pt_lk false (kn_pt k)) k)).
Proof. intros E. unfold forkret. erewrite bind_Ok by (unfold zoom, release; cbn; by rewrite E). done. Qed.
End init.

(** A kernel as [main] leaves it. *)
Definition booting (km : kmem_state) : kernel :=
  Kernel km lru_bss swap_bss
    (FsState (LogSys (bcache_bss (Disk (λ _ _, []) [])) (Log false 0 0 0 false 0 0 (replicate 30 0))) (Superblock 0 0 0 0 0 0 0) false
       (replicate NINODE (Inode 0 0 0 (SleepLock false false 0) false 0 0 0 0 0 [])))
    (Ptable (replicate NPROC proc0) false 1 None) (Ftable (replicate NFILE file0) false) ∅ 0 false.

Lemma userinit_first_process_witness : ∃ km s' P frame,
  userinit (H := sample_image) (H0 := memide 1000) 0 (λ _, None) [1; 2; 3] (booting km) = Ok (tt, s') ∧
  pt_proc (kn_pt s') !! 0%nat = Some P ∧ p_state P = RUNNABLE ∧ p_pid P = 1 ∧
  translate (k_mem (kn_km s')) (p_pgdir P) 2 = Some (V2P frame + 2, 7) ∧ k_mem (kn_km s') (frame + 2) = 3.
Proof.
  destruct sample_pages as (km & F & HF & Hn & _).
  destruct (@userinit_first_process sample_image (memide 1000) 0 (λ _, None) sample_image_ok [1; 2; 3] (booting km) F 0 0)
    as (s' & P & frame & F' & E & Hpt & Hst & Hpid & _ & _ & _ & _ & _ & Hm & Hc & _); [done|done|done|lia|done| |done|done|].
  { repeat constructor; done. }
  exists km, s', P, frame. split_and!; [done| |done|done| |].
  - rewrite Hpt. cbn [pt_proc]. apply list_lookup_insert_eq. apply Nat.ltb_lt. by vm_compute.
  - by rewrite Hm.
  - by rewrite Hc.
Defined.
