(* ===== verification/ExecStack.v ===== *)
(** The stack that [exec] gives a new program (exec.c): the strings of the
    arguments, and below them what [main(argc, argv)] finds. *)

From Stdlib Require Import ZArith Lia.
From stdpp Require Import base functions numbers strings option gmap sets list list_numbers.
From S2P Require Import Prelude Spinlock Lru Swap Mem Kalloc Vm Block Bio Cache Log Fs Pipe Proc Kernel Paging File User Process.

Section execstack.
Variable cur : nat.

(** The kernel with [b] as the stack buffer of the process [c]. *)
Definition with_stack (b : list Z) (c : proc) (s : kernel) : kernel :=
  put PT (put pt_arr (<[cur := w_stack_buffer b c]> (pt_proc (kn_pt s))) (kn_pt s)) s.

Lemma with_stack_proc b c s : pt_proc (kn_pt s) !! cur = Some c → pt_proc (kn_pt (with_stack b c s)) !! cur = Some (w_stack_buffer b c).
Proof. intros Hc. unfold with_stack. cbn. apply list_lookup_insert_eq. by eapply lookup_lt_Some. Qed.

Lemma with_stack_again b b' c s : with_stack b' (w_stack_buffer b c) (with_stack b c s) = with_stack b' c s.
Proof. unfold with_stack. cbn. by rewrite list_insert_insert_eq. Qed.

Lemma with_stack_same c s : pt_proc (kn_pt s) !! cur = Some c → with_stack (p_stack_buffer c) c s = s.
Proof.
  intros Hc. unfold with_stack. replace (w_stack_buffer _ c) with c by (by destruct c). rewrite list_insert_id by done. by destruct s as [? ? ? ? []].
Qed.

Lemma stack_write_run sp l c s : pt_proc (kn_pt s) !! cur = Some c → 0 ≤ sp → sp + Z.of_nat (length l) ≤ PGSIZE →
  stack_write cur sp l s = Ok (tt, with_stack (splice (p_stack_buffer c) (Z.to_nat sp) l) c s).
Proof.
  intros Hc H0 Hl. unfold stack_write. rewrite (proj2 (Z.leb_le _ _)), (proj2 (Z.leb_le _ _)) by lia. cbn [andb].
  assert (zoom PT (pget cur p_stack_buffer) s = Ok (p_stack_buffer c, s)) as E.
  { unfold zoom, pget. cbn [view PT]. rewrite Hc. by destruct s. }
  erewrite bind_Ok by exact E. unfold zoom, pset. cbn [view PT]. by rewrite Hc.
Qed.

(** The room that a string takes, with its NUL, in whole words. *)
Definition room (a : list Z) : Z := (Z.of_nat (length a) + 4) / 4 * 4.
Fixpoint rooms (argv : list (list Z)) : Z := match argv with [] => 0 | a :: argv => room a + rooms argv end.

Lemma land_not3 x : is_u32 x → Z.land x (u32 (Z.lnot 3)) = x - x mod 4.
Proof.
  intros Hx. assert (x - x mod 4 = Z.ldiff x (Z.ones 2)) as ->.
  { rewrite Z.ldiff_ones_r by lia. rewrite Z.shiftl_mul_pow2, Z.shiftr_div_pow2 by lia. change (2 ^ 2) with 4. Z.to_euclidean_division_equations. lia. }
  apply Z.bits_inj'. intros n Hn. rewrite Z.land_spec, Z.ldiff_spec. unfold u32. destruct (decide (n < 32)).
  - rewrite Z.mod_pow2_bits_low, Z.lnot_spec by lia. done.
  - rewrite Z.mod_pow2_bits_high by lia. rewrite (Z.bits_above_log2 x n); [done|apply Hx|].
    destruct (decide (x = 0)) as [->|]; [cbn; lia|]. unfold is_u32 in Hx. assert (Z.log2 x < 32); [apply Z.log2_lt_pow2|]; lia.
Qed.

Lemma room_align sp a : sp mod 4 = 0 → 0 ≤ sp ≤ PGSIZE → room a ≤ sp →
  Z.land (u32 (sp - (Z.of_nat (length a) + 1))) (u32 (Z.lnot 3)) = sp - room a ∧ (sp - room a) mod 4 = 0 ∧
  Z.of_nat (length a) + 1 ≤ room a.
Proof.
  intros Hm Hsp Hr. assert (Z.of_nat (length a) + 1 ≤ room a < Z.of_nat (length a) + 5) as Hra by (unfold room; Z.to_euclidean_division_equations; lia).
  assert (room a mod 4 = 0) as Hrm by (unfold room; apply Z_mod_mult).
  split_and!; [|Z.to_euclidean_division_equations; lia|lia]. rewrite u32_small by lia. rewrite land_not3 by (unfold is_u32; lia).
  Z.to_euclidean_division_equations; lia.
Qed.

Lemma rooms_nonneg argv : 0 ≤ rooms argv.
Proof. induction argv as [|a argv IH]; cbn; [lia|]. unfold room. Z.to_euclidean_division_equations; lia. Qed.

Lemma rooms_words argv : ∃ k, rooms argv = 4 * k.
Proof. induction argv as [|a argv [k IH]]; [by exists 0|]. exists ((Z.of_nat (length a) + 4) / 4 + k). cbn. unfold room. lia. Qed.

(** A string of the buffer, at the user address [p] of a page at [base]. *)
Definition string_at (b : list Z) (base p : Z) (a : list Z) : Prop :=
  base ≤ p < base + PGSIZE ∧ cstr (drop (Z.to_nat (p - base)) b) = a.

Lemma string_spliced b o a base : Forall (λ x, x ≠ 0) a → 0 ≤ o → o + Z.of_nat (length a) + 1 ≤ PGSIZE → length b = Z.to_nat PGSIZE →
  string_at (splice b (Z.to_nat o) (a ++ [0])) base (base + o) a.
Proof.
  intros Ha Ho Hl Hb. split; [lia|]. replace (base + o - base) with o by lia. unfold splice.
  rewrite drop_app_length' by (rewrite length_take; lia). rewrite <-app_assoc. by apply cstr_app_nul.
Qed.

(** Writing below [lo] changes no string above. *)
Lemma string_above b o l base p a lo : string_at b base p a → lo ≤ p - base → 0 ≤ o → o + Z.of_nat (length l) ≤ lo → length b = Z.to_nat PGSIZE → lo ≤ PGSIZE →
  string_at (splice b (Z.to_nat o) l) base p a.
Proof.
  intros [Hr <-] Hlo Ho Hl Hb HP. split; [done|]. f_equal. apply list_eq. intros i. rewrite !lookup_drop, splice_lookup by lia. by rewrite decide_False by lia.
Qed.

Lemma exec_args_run base argv : 0 ≤ base → base + PGSIZE ≤ 2 ^ 32 → Forall (Forall (λ x, x ≠ 0)) argv →
  ∀ argc sp c s, pt_proc (kn_pt s) !! cur = Some c → length (p_stack_buffer c) = Z.to_nat PGSIZE → sp mod 4 = 0 → sp ≤ PGSIZE → rooms argv ≤ sp →
  (argc + length argv ≤ 32)%nat →
  ∃ us b, exec_args cur argv argc base sp s = Ok (Some (sp - rooms argv, us), with_stack b c s) ∧ length b = Z.to_nat PGSIZE ∧
    Forall2 (λ p a, string_at b base p a ∧ sp - rooms argv ≤ p - base) us argv ∧
    (∀ p a, string_at (p_stack_buffer c) base p a → sp ≤ p - base → string_at b base p a) ∧ Forall is_u32 us.
Proof.
  intros Hb0 Hb1 Hargv. induction Hargv as [|a argv Ha Hargv IH]; intros argc sp c s Hc Hlen Hm Hsp Hfit Hn; cbn [exec_args rooms].
  { exists [], (p_stack_buffer c). rewrite Z.sub_0_r, with_stack_same by done. split_and!; [done|done|constructor|done|constructor]. }
  cbn [rooms length] in *. pose proof (rooms_nonneg argv). assert (0 < room a) by (unfold room; Z.to_euclidean_division_equations; lia).
  rewrite (proj2 (Nat.leb_gt _ _)) by lia. destruct (room_align sp a Hm ltac:(lia) ltac:(lia)) as (-> & Hm' & Hra).
  set (sp1 := sp - room a) in *. set (b1 := splice (p_stack_buffer c) (Z.to_nat sp1) (a ++ [0])).
  assert (length b1 = Z.to_nat PGSIZE) as Hb1l by (unfold b1; rewrite splice_length; [done|rewrite length_app; cbn; lia]).
  erewrite bind_Ok by (apply stack_write_run; [done|lia|rewrite length_app; cbn; lia]). fold b1.
  destruct (IH (S argc) sp1 (w_stack_buffer b1 c) (with_stack b1 c s)) as (us & b & E & Hbl & Hall & Hkeep & Hu); [by apply with_stack_proc|done|done|lia|lia|lia|].
  erewrite bind_Ok by exact E. rewrite with_stack_again. unfold mret, M_ret.
  assert (u32 (base + sp1) = base + sp1) as Hp by (apply u32_small; lia). rewrite Hp. exists ((base + sp1) :: us), b. split_and!.
  - do 3 f_equal. f_equal. lia.
  - done.
  - constructor.
    + split; [|lia]. apply Hkeep; [|lia]. apply string_spliced; [done|lia|lia|done].
    + eapply Forall2_impl; [exact Hall|]. intros p a' [? ?]. split; [done|lia].
  - intros p a' Hs Hlo. apply Hkeep; [|lia]. eapply (string_above _ _ _ _ _ _ sp); [done|lia|lia|rewrite length_app; cbn; lia|done|lia].
  - constructor; [|done]. unfold is_u32. lia.
Qed.

Lemma mjoin_enc32 l : mjoin (enc32 <$> l) = concat (map enc32 l).
Proof. induction l as [|x l IH]; [done|]. cbn. by rewrite <-IH. Qed.

(** C5. The stack that [exec] builds for arguments that fit on its page: at the
    stack pointer, which is a multiple of 4, are the words that [main(argc, argv)]
    expects, the return address 0xffffffff, the number of arguments and the
    address of the array [argv], which follows; its entries point to the strings
    of the arguments in the same order, each ended by a NUL, and a null pointer
    ends it.  Only the stack buffer of the process changes. *)
Theorem exec_stack_image base argv c s : pt_proc (kn_pt s) !! cur = Some c → length (p_stack_buffer c) = Z.to_nat PGSIZE →
  0 ≤ base → base + PGSIZE ≤ 2 ^ 32 → Forall (Forall (λ x, x ≠ 0)) argv → (length argv ≤ 32)%nat →
  rooms argv + 4 * (Z.of_nat (length argv) + 4) ≤ PGSIZE →
  ∃ sp ptrs b, exec_stack cur argv base s = Ok (Some sp, with_stack b c s) ∧ length b = Z.to_nat PGSIZE ∧ 0 ≤ sp ∧ sp mod 4 = 0 ∧
    words b (Z.to_nat sp) (4 + length argv) = [0xffffffff; Z.of_nat (length argv); base + sp + 12] ++ ptrs ++ [0] ∧
    Forall2 (string_at b base) ptrs argv.
Proof.
  intros Hc Hlen Hb0 Hb1 Hargv Hn Hfit. pose proof (rooms_nonneg argv). unfold exec_stack.
  destruct (exec_args_run base argv Hb0 Hb1 Hargv 0 PGSIZE c s Hc Hlen) as (us & b1 & E & Hl1 & Hall & _ & Hu); [done|lia|lia|lia|].
  erewrite bind_Ok by exact E. cbv beta iota zeta. pose proof (Forall2_length _ _ _ Hall) as Hlu. set (n := Z.of_nat (length argv)) in *. set (sp1 := PGSIZE - rooms argv) in *.
  set (sp := sp1 - 4 * (n + 4)). assert (u32 (sp1 - (3 + n + 1) * 4) = sp) as -> by (rewrite u32_small by lia; lia).
  assert (u32 (base + (sp1 - (n + 1) * 4)) = base + sp + 12) as -> by (rewrite u32_small by lia; lia).
  set (ws := [0xffffffff; n; base + sp + 12] ++ us ++ [0]). assert (length ws = 4 + length argv)%nat as Hlw by (unfold ws; rewrite !length_app; cbn; lia).
  assert (Forall is_u32 ws) as Hws by (unfold ws; repeat (apply Forall_app; split); try done; repeat constructor; lia).
  rewrite mjoin_enc32. pose proof (enc32s_length ws) as Hle.
  erewrite bind_Ok by (apply stack_write_run; [by apply with_stack_proc|lia|lia]). rewrite with_stack_again. cbn [p_stack_buffer w_stack_buffer].
  eexists sp, us, _. split; [reflexivity|]. assert (Z.to_nat sp + length (concat (map enc32 ws)) ≤ length b1)%nat by lia. split_and!.
  - by rewrite splice_length.
  - lia.
  - destruct (rooms_words argv) as [k Hk]. replace sp with ((1024 - k - (n + 4)) * 4) by lia. apply Z_mod_mult.
  - fold ws. rewrite <-Hlw, <-put_words_splice by lia. apply (words_put_words b1 _ ws); [lia|done].
  - eapply Forall2_impl; [exact Hall|]. intros p a [Hs Hp]. eapply (string_above _ _ _ _ _ _ sp1); [done|lia|lia|lia|done|lia].
Qed.

(** A string of a page or more is written outside of the buffer. *)
Lemma exec_stack_overflow base a argv s : PGSIZE ≤ Z.of_nat (length a) < 2 ^ 31 → exec_stack cur (a :: argv) base s = Fault.
Proof.
  intros Hl. unfold exec_stack. cbn [exec_args]. change (32 <=? 0)%nat with false. cbn iota. unfold mbind at 1, M_bind at 1.
  assert (u32 (PGSIZE - (Z.of_nat (length a) + 1)) = PGSIZE - (Z.of_nat (length a) + 1) + 2 ^ 32) as ->.
  { unfold u32. rewrite <-(Z.mod_add _ 1) by lia. apply Z.mod_small. lia. }
  rewrite land_not3 by (unfold is_u32; lia). set (x := _ - _ mod 4).
  assert (PGSIZE < x) by (subst x; Z.to_euclidean_division_equations; lia).
  unfold mbind, M_bind, stack_write. rewrite (proj2 (Z.leb_gt (x + _) _)) by lia. by rewrite andb_false_r.
Qed.
End execstack.

Definition one_proc : kernel :=
  Kernel (kmem_bss (λ _, 0)) lru_bss swap_bss
    (FsState (LogSys (bcache_bss (Disk (λ _ _, []) [])) (Log false 0 0 0 false 0 0 [])) (Superblock 0 0 0 0 0 0 0) false [])
    (Ptable [proc0] false 2 None) (Ftable [] false) ∅ 0 false.

(** [exec] bounds the name by the size of [path]: the end of a long name is
    written over the start of the path that was stored just before. *)
Example set_name_clobbers_path : match set_name 0 ([47] ++ replicate 16 97 ++ [98; 99]) one_proc with
  | Ok (_, s) => cstr ∘ p_path <$> pt_proc (kn_pt s) !! 0%nat = Some [98; 99]
  | _ => False end.
Proof. by vm_compute. Qed.

Lemma exec_stack_image_witness : ∃ sp p q b, exec_stack 0 [[108; 115]; [45; 108]] 0x3000 one_proc = Ok (Some sp, with_stack 0 b proc0 one_proc) ∧
  words b (Z.to_nat sp) 6 = [0xffffffff; 2; 0x3000 + sp + 12; p; q; 0] ∧ string_at b 0x3000 p [108; 115] ∧ string_at b 0x3000 q [45; 108].
Proof.
  destruct (exec_stack_image 0 0x3000 [[108; 115]; [45; 108]] proc0 one_proc) as (sp & ptrs & b & E & _ & _ & _ & Hw & Hall);
    [done|unfold proc0; cbn [p_stack_buffer]; by rewrite length_replicate|done|done|repeat constructor; done|cbn; lia|done|].
  apply Forall2_cons_inv_r in Hall as (p & ptrs1 & Hp & Hall & ->). apply Forall2_cons_inv_r in Hall as (q & ptrs2 & Hq & Hall & ->).
  apply Forall2_nil_inv_r in Hall as ->. by exists sp, p, q, b.
Defined.
