(* ===== verification/Syscall.v ===== *)
(** System calls (sysfile.c, sysproc.c, syscall.c) and traps (trap.c). *)

From Stdlib Require Import ZArith Lia.
From stdpp Require Import base numbers strings option gmap sets list list_numbers.
From S2P Require Import Prelude Spinlock Lru Swap Mem Kalloc Vm Block Bio Log Fs Pipe Proc Kernel Paging File User.
From S2P Require Import Process.

(** [O_WRONLY], [O_RDWR] and [O_CREATE] of fcntl.h. *)
Abbreviation O_RDONLY := 0.
Abbreviation O_WRONLY := 1.
Abbreviation O_RDWR := 2.
Abbreviation O_CREATE := 0x200.

(** [f(..) < 0] or a null result ends the call with -1. *)
Definition or_fail {S A} (m : M S (option A)) (k : A → M S Z) : M S Z :=
  r ← m; match r with Some a => k a | None => mret (-1) end.

Section syscall.
Context `{KernelImage} `{BlockDriver}.
Variables (cur : nat) (mypid : Z).
Variable devsw_read : Z → option (nat → Z → M fs_state (Z * list Z)).
Variable devsw_write : Z → option (nat → list Z → M fs_state Z).

Let argint := argint cur mypid devsw_read.
Let argptr := argptr cur mypid devsw_read.
Let argstr := argstr cur mypid devsw_read.
Let end_op' := kend_op mypid.

(** * Files *)
Definition argfd (n : Z) : M kernel (option (nat * nat)) :=
  fd ← argint n;
  match fd with
  | None => mret None
  | Some fd =>
      ofile ← zoom PT (pget cur p_ofile);
      if (fd <? 0) || (Z.of_nat NOFILE <=? fd) then mret None
      else mret (f ← mjoin (ofile !! Z.to_nat fd); Some (Z.to_nat fd, f))
  end.

Definition fdalloc (f : nat) : M ptable_state (option nat) :=
  ofile ← pget cur p_ofile;
  match list_find (λ x, x = None) ofile with
  | Some (fd, _) => pset cur (w_ofile (<[fd := Some f]> ofile));; mret (Some fd)
  | None => mret None
  end.

Definition fdclear (fd : nat) : M ptable_state unit :=
  ofile ← pget cur p_ofile; pset cur (w_ofile (<[fd := None]> ofile)).

Definition sys_dup : M kernel Z :=
  or_fail (argfd 0) (λ '(_, f),
    or_fail (zoom PT (fdalloc f)) (λ fd,
      zoom FT (filedup f);; mret (Z.of_nat fd))).

Definition sys_read : M kernel Z :=
  or_fail (argfd 0) (λ '(_, f),
    or_fail (argint 2) (λ n,
      or_fail (argptr 1 n) (λ p,
        fileread cur mypid devsw_read f (uwrite cur mypid devsw_read p) n))).

Definition sys_write : M kernel Z :=
  or_fail (argfd 0) (λ '(_, f),
    or_fail (argint 2) (λ n,
      or_fail (argptr 1 n) (λ p,
        bytes ← uread cur mypid devsw_read (Z.to_nat n) p;
        filewrite cur mypid devsw_write f bytes n))).

Definition sys_close : M kernel Z :=
  or_fail (argfd 0) (λ '(fd, f),
    zoom PT (fdclear fd);; fileclose mypid f;; mret 0).

(** [stati] at an address of the user. *)
Definition write_stat (a : Z) (st : stat) : M kernel unit :=
  uwrite cur mypid devsw_read (u32 (a + 4)) (enc32 (st_dev st));;
  uwrite cur mypid devsw_read (u32 (a + 8)) (enc32 (st_ino st));;
  uwrite cur mypid devsw_read a (enc16 (u16 (st_type st)));;
  uwrite cur mypid devsw_read (u32 (a + 12)) (enc16 (u16 (st_nlink st)));;
  uwrite cur mypid devsw_read (u32 (a + 16)) (enc32 (st_size st)).

Definition sys_fstat : M kernel Z :=
  or_fail (argfd 0) (λ '(_, f),
    or_fail (argptr 1 20) (λ a,
      or_fail (filestat mypid f) (λ st, write_stat a st;; mret 0))).

(** [nameiparent] from the directory of the process: the inode and the name. *)
Definition knameiparent (path : list Z) : M kernel (option nat * list Z) :=
  c ← zoom PT (pget cur p_cwd);
  zoom FS (nameiparent mypid devsw_read (default NINODE c) path).

Definition add_nlink (ip : nat) (d : Z) : M fs_state unit :=
  n ← ifld ip i_nlink; iset ip (v_nlink (s16 (n + d)));; iupdate mypid ip.

(** [bad:] of [sys_link] *)
Definition link_bad (ip : nat) : M kernel Z :=
  zoom FS (ilock mypid (Some ip);; add_nlink ip (-1);; iunlockput mypid ip);;
  end_op';;
  mret (-1).

Definition sys_link : M kernel Z :=
  or_fail (argstr 0) (λ old,
    or_fail (argstr 1) (λ new,
      kbegin_op;;
      r ← knamei cur mypid devsw_read old;
      match r with
      | None => end_op';; mret (-1)
      | Some ip =>
          zoom FS (ilock mypid (Some ip));;
          ty ← zoom FS (ifld ip i_type);
          if ty =? T_DIR then zoom FS (iunlockput mypid ip);; end_op';; mret (-1)
          else
            zoom FS (add_nlink ip 1;; iunlock mypid (Some ip));;
            '(r, name) ← knameiparent new;
            match r with
            | None => link_bad ip
            | Some dp =>
                zoom FS (ilock mypid (Some dp));;
                x ← zoom FS (ifld ip id);
                dev ← zoom FS (ifld dp i_dev);
                ok ← (if dev =? i_dev x then
                        r ← zoom FS (dirlink mypid devsw_read devsw_write dp name (i_inum x));
                        mret (negb (r <? 0))
                      else mret false);
                zoom FS (iunlockput mypid dp);;
                if (ok : bool) then zoom FS (iput mypid ip);; end_op';; mret 0
                else link_bad ip
            end
      end)).

Fixpoint isdirempty_loop (fuel dp : nat) (off : Z) : M fs_state bool :=
  match fuel with
  | O => mnofuel
  | S fuel =>
      sz ← ifld dp i_size;
      if off <? sz then
        '(r, de) ← readi mypid devsw_read dp off 16;
        if negb (r =? 16) then mpanic "isdirempty: readi"
        else if negb (get16 de 0 =? 0) then mret false
        else isdirempty_loop fuel dp (off + 16)
      else mret true
  end.

Definition isdirempty (dp : nat) : M fs_state bool :=
  sz ← ifld dp i_size;
  isdirempty_loop (S (Z.to_nat (sz / 16 + 1))) dp 32.

(** The end of [sys_unlink]: the entry at [off] goes, then the link. *)
Definition unlink_entry (dp ip : nat) (off : Z) : M fs_state unit :=
  r ← writei mypid devsw_write dp (replicate 16 0) off 16;
  if negb (r =? 16) then mpanic "unlink: writei"
  else
    ty ← ifld ip i_type;
    (if ty =? T_DIR then add_nlink dp (-1) else mret tt);;
    iunlockput mypid dp;;
    add_nlink ip (-1);;
    iunlockput mypid ip.

Definition sys_unlink : M kernel Z :=
  or_fail (argstr 0) (λ path,
    kbegin_op;;
    '(r, name) ← knameiparent path;
    match r with
    | None => end_op';; mret (-1)
    | Some dp =>
        zoom FS (ilock mypid (Some dp));;
        r ← (if namecmp_eq name [46] || namecmp_eq name [46; 46] then mret None
             else zoom FS (dirlookup mypid devsw_read dp name));
        match r with
        | None => zoom FS (iunlockput mypid dp);; end_op';; mret (-1)
        | Some (off, ip) =>
            zoom FS (ilock mypid (Some ip));;
            x ← zoom FS (ifld ip id);
            if i_nlink x <? 1 then mpanic "unlink: nlink < 1"
            else
              full ← (if i_type x =? T_DIR then
                        e ← zoom FS (isdirempty ip); mret (negb (e : bool))
                      else mret false);
              if (full : bool) then
                zoom FS (iunlockput mypid ip);; zoom FS (iunlockput mypid dp);; end_op';; mret (-1)
              else
                zoom FS (unlink_entry dp ip off);;
                end_op';;
                mret 0
        end
    end).

(** The inode, locked. *)
Definition create (path : list Z) (type major minor : Z) : M kernel (option nat) :=
  '(r, name) ← knameiparent path;
  match r with
  | None => mret None
  | Some dp =>
      zoom FS (
        ilock mypid (Some dp);;
        r ← dirlookup mypid devsw_read dp name;
        match r with
        | Some (_, ip) =>
            iunlockput mypid dp;;
            ilock mypid (Some ip);;
            ty ← ifld ip i_type;
            if (type =? T_FILE) && (ty =? T_FILE) then mret (Some ip)
            else iunlockput mypid ip;; mret None
        | None =>
            dev ← ifld dp i_dev;
            ip ← ialloc mypid dev type;
            ilock mypid (Some ip);;
            iset ip (v_major (s16 major));;
            iset ip (v_minor (s16 minor));;
            iset ip (v_nlink 1);;
            iupdate mypid ip;;
            inum ← ifld ip i_inum;
            (if type =? T_DIR then
               add_nlink dp 1;;
               r ← dirlink mypid devsw_read devsw_write ip [46] inum;
               if r <? 0 then mpanic "create dots"
               else
                 dinum ← ifld dp i_inum;
                 r ← dirlink mypid devsw_read devsw_write ip [46; 46] dinum;
                 if r <? 0 then mpanic "create dots" else mret tt
             else mret tt);;
            r ← dirlink mypid devsw_read devsw_write dp name inum;
            if r <? 0 then mpanic "create: dirlink"
            else iunlockput mypid dp;; mret (Some ip)
        end)
  end.

(** The inode that [sys_open] opens, locked. *)
Definition open_inode (path : list Z) (omode : Z) : M kernel (option nat) :=
  if negb (Z.land omode O_CREATE =? 0) then create path T_FILE 0 0
  else
    r ← knamei cur mypid devsw_read path;
    match r with
    | None => mret None
    | Some ip =>
        zoom FS (ilock mypid (Some ip));;
        ty ← zoom FS (ifld ip i_type);
        if (ty =? T_DIR) && negb (omode =? O_RDONLY) then zoom FS (iunlockput mypid ip);; mret None
        else mret (Some ip)
    end.

Definition sys_open : M kernel Z :=
  or_fail (argstr 0) (λ path,
    or_fail (argint 1) (λ omode,
      kbegin_op;;
      r ← open_inode path omode;
      match r with
      | None => end_op';; mret (-1)
      | Some ip =>
          f ← zoom FT filealloc;
          fd ← (match f with Some f => zoom PT (fdalloc f) | None => mret None end);
          match f, fd with
          | Some f, Some fd =>
              zoom FS (iunlock mypid (Some ip));;
              end_op';;
              zoom FT (fset f (x_inode (Z.land omode O_WRONLY =? 0)
                (negb (Z.land omode O_WRONLY =? 0) || negb (Z.land omode O_RDWR =? 0)) ip));;
              mret (Z.of_nat fd)
          | _, _ =>
              (match f with Some f => fileclose mypid f | None => mret tt end);;
              zoom FS (iunlockput mypid ip);;
              end_op';;
              mret (-1)
          end
      end)).

Definition sys_mkdir : M kernel Z :=
  kbegin_op;;
  path ← argstr 0;
  r ← (match path with Some path => create path T_DIR 0 0 | None => mret None end);
  match r with
  | None => end_op';; mret (-1)
  | Some ip => zoom FS (iunlockput mypid ip);; end_op';; mret 0
  end.

Definition sys_mknod : M kernel Z :=
  kbegin_op;;
  path ← argstr 0;
  r ← (match path with
       | None => mret None
       | Some path =>
           major ← argint 1;
           match major with
           | None => mret None
           | Some major =>
               minor ← argint 2;
               match minor with None => mret None | Some minor => create path T_DEV major minor end
           end
       end);
  match r with
  | None => end_op';; mret (-1)
  | Some ip => zoom FS (iunlockput mypid ip);; end_op';; mret 0
  end.

Definition sys_chdir : M kernel Z :=
  kbegin_op;;
  path ← argstr 0;
  r ← (match path with Some path => knamei cur mypid devsw_read path | None => mret None end);
  match r with
  | None => end_op';; mret (-1)
  | Some ip =>
      zoom FS (ilock mypid (Some ip));;
      ty ← zoom FS (ifld ip i_type);
      if negb (ty =? T_DIR) then zoom FS (iunlockput mypid ip);; end_op';; mret (-1)
      else
        zoom FS (iunlock mypid (Some ip));;
        cwd ← zoom PT (pget cur p_cwd);
        (match cwd with Some d => zoom FS (iput mypid d) | None => mfault end);;
        end_op';;
        zoom PT (pset cur (w_cwd (Some ip)));;
        mret 0
  end.

(** The loop of [sys_exec]: the arguments, at most [MAXARG - 1] of them. *)
Fixpoint sys_exec_args (n : nat) (uargv : Z) : M kernel (option (list (list Z))) :=
  match n with
  | O => mret None
  | S n =>
      u ← fetchint cur mypid devsw_read uargv;
      match u with
      | None => mret None
      | Some u =>
          if u32 u =? 0 then mret (Some [])
          else
            s ← fetchstr cur mypid devsw_read (u32 u);
            match s with
            | None => mret None
            | Some s =>
                r ← sys_exec_args n (u32 (uargv + 4));
                mret (match r with Some l => Some (s :: l) | None => None end)
            end
      end
  end.

Definition sys_exec : M kernel Z :=
  or_fail (argstr 0) (λ path,
    or_fail (argint 1) (λ uargv,
      or_fail (sys_exec_args 32 (u32 uargv)) (λ argv, exec cur mypid devsw_read path argv))).

Definition sys_pipe : M kernel Z :=
  or_fail (argptr 0 8) (λ a,
    or_fail (pipealloc mypid) (λ '(rf, wf),
      fd0 ← zoom PT (fdalloc rf);
      fd1 ← (match fd0 with Some _ => zoom PT (fdalloc wf) | None => mret None end);
      match fd0, fd1 with
      | Some fd0, Some fd1 =>
          uwrite cur mypid devsw_read a (enc32 (Z.of_nat fd0));;
          uwrite cur mypid devsw_read (u32 (a + 4)) (enc32 (Z.of_nat fd1));;
          mret 0
      | _, _ =>
          (match fd0 with Some fd => zoom PT (fdclear fd) | None => mret tt end);;
          fileclose mypid rf;;
          fileclose mypid wf;;
          mret (-1)
      end)).

(** * Processes *)
Definition sys_fork : M kernel Z := fork cur mypid.
Definition sys_exit : M kernel unit := exit_proc cur mypid.
Definition sys_wait : M kernel Z := wait cur.
Definition sys_kill : M kernel Z := or_fail (argint 0) (λ pid, zoom PT (kill pid)).
Definition sys_getpid : M kernel Z := zoom PT (pget cur p_pid).

Definition sys_sbrk : M kernel Z :=
  or_fail (argint 0) (λ n,
    a ← zoom PT (pget cur p_sz);
    r ← growproc cur mypid n;
    mret (if r <? 0 then -1 else s32 a)).

(** The comparison is between unsigned numbers. *)
Definition sys_sleep : M kernel Z :=
  or_fail (argint 0) (λ n,
    acquire tickslock;;
    if 0 <? u32 n then
      killed ← zoom PT (pget cur p_killed);
      if negb (killed =? 0) then release tickslock;; mret (-1) else mblock
    else release tickslock;; mret 0).

Definition sys_uptime : M kernel Z :=
  acquire tickslock;; t ← mget kn_ticks; release tickslock;; mret (s32 t).

(** These print; they are void functions, called as if they returned a value. *)
Definition sys_lrur : M kernel unit := zoom LRU lru_read;; mret tt.
Definition sys_swapr : M kernel unit := l ← zoom PT (pget cur p_swap_list); zoom SWAP (swap_read l);; mret tt.

(** * Dispatch *)

(** What a void function leaves in [%eax]. *)
Variable void_eax : Z.

(** A call that returns gives its result. *)
Definition returns (m : M kernel Z) : M kernel (option Z) := r ← m; mret (Some r).

Definition syscalls (num : Z) : option (M kernel (option Z)) :=
  match num with
  | 1 => Some (returns sys_fork)
  | 2 => Some (sys_exit;; mret None)
  | 3 => Some (returns sys_wait)
  | 4 => Some (returns sys_pipe)
  | 5 => Some (returns sys_read)
  | 6 => Some (returns sys_kill)
  | 7 => Some (returns sys_exec)
  | 8 => Some (returns sys_fstat)
  | 9 => Some (returns sys_chdir)
  | 10 => Some (returns sys_dup)
  | 11 => Some (returns sys_getpid)
  | 12 => Some (returns sys_sbrk)
  | 13 => Some (returns sys_sleep)
  | 14 => Some (returns sys_uptime)
  | 15 => Some (returns sys_open)
  | 16 => Some (returns sys_write)
  | 17 => Some (returns sys_mknod)
  | 18 => Some (returns sys_unlink)
  | 19 => Some (returns sys_link)
  | 20 => Some (returns sys_mkdir)
  | 21 => Some (returns sys_close)
  | 22 => Some (returns (sys_lrur;; mret void_eax))
  | 23 => Some (returns (sys_swapr;; mret void_eax))
  | _ => None
  end.

Definition set_eax (v : Z) : M kernel unit :=
  zoom PT (pset cur (λ p, w_tf (Tf (u32 v) (tf_esp (p_tf p)) (tf_eip (p_tf p))) p)).

(** Whether the process goes on: [exit] does not return. *)
Definition syscall : M kernel bool :=
  tf ← zoom PT (pget cur p_tf);
  match syscalls (s32 (tf_eax tf)) with
  | Some f => r ← f; match r with Some v => set_eax v;; mret true | None => mret false end
  | None => set_eax (-1);; mret true
  end.

(** * Traps *)

(** The causes of a trap, and whether it came from user code. *)
Inductive irq := IRQ_IDE | IRQ_KBD | IRQ_COM1.
Inductive trapno := T_SYSCALL | T_PGFLT (cr2 : Z) | IRQ_TIMER (cpu : nat) | IRQ_DEVICE (i : irq) | IRQ_IDE1
  | IRQ_SPURIOUS | T_OTHER.

(** The process goes back to where the trap came from, has exited, or has given
    up the CPU. *)
Inductive trap_end := TrapReturn | TrapExit | TrapYield.

Definition exit_if_killed (user : bool) : M kernel trap_end :=
  k ← zoom PT (pget cur p_killed);
  if negb (k =? 0) && user then exit_proc cur mypid;; mret TrapExit else mret TrapReturn.

(** [&ticks] as a sleep channel. *)
Definition chan_ticks : Z := -1.

Definition clock_tick : M kernel unit :=
  acquire tickslock;;
  zoom TICKS (mmod (λ t, u32 (t + 1)));;
  zoom PT (wakeup chan_ticks);;
  release tickslock.

(** The trap of a running process, until the process goes on, exits or yields.
    [devintr] are the handlers of the devices, [ideintr], [kbdintr] and
    [uartintr]: they work on the state of their drivers, in [Ide], [Kbd] and
    [Console], and wake processes.  [lapiceoi] and the messages are left out. *)
Definition trap (devintr : irq → M kernel unit) (t : trapno) (user : bool) : M kernel trap_end :=
  match t with
  | T_SYSCALL =>
      k ← zoom PT (pget cur p_killed);
      if negb (k =? 0) then exit_proc cur mypid;; mret TrapExit
      else
        runs ← syscall;
        if (runs : bool) then exit_if_killed true else mret TrapExit
  | _ =>
      (match t with
       | T_PGFLT cr2 => pgflt_handler cur mypid devsw_read cr2
       | IRQ_TIMER cpu => if (cpu =? 0)%nat then clock_tick else mret tt
       | IRQ_DEVICE i => devintr i
       | T_OTHER => if user then zoom PT (pset cur (w_killed 1)) else mpanic "trap"
       | _ => mret tt
       end);;
      e ← exit_if_killed user;
      match e with
      | TrapReturn =>
          st ← zoom PT (pget cur p_state);
          if bool_decide (st = RUNNING) && match t with IRQ_TIMER _ => true | _ => false end
          then zoom PT (yield cur);; mret TrapYield
          else exit_if_killed user
      | _ => mret e
      end
  end.

(** The end of a trap that has yielded, when the process runs again: the end of
    [yield], and the last check. *)
Definition trap_resume (user : bool) : M kernel trap_end := zoom PT (release pt_lk);; exit_if_killed user.
End syscall.
