(* ===== verification/FileInv.v ===== *)
(** Reference counts of open files: the invariant that every system call and
    every trap keeps. *)

From Stdlib Require Import ZArith Lia.
From stdpp Require Import base numbers strings option gmap sets list list_numbers.
From S2P Require Import Prelude Hoare Spinlock Lru Swap Mem Kalloc Vm Block Bio Log Fs Pipe Proc Kernel Paging File.
From S2P Require Import User Process Syscall.

(** * What the counts depend on *)

(** The slot has no process that could hold a file. *)
Definition dead (st : procstate) : bool := match st with UNUSED | EMBRYO | ZOMBIE => true | _ => false end.

Definition proc_obs (p : proc) : list (option nat) * bool := (p_ofile p, dead (p_state p)).
Definition pt_obs (s : ptable_state) : list (list (option nat) * bool) := proc_obs <$> pt_proc s.
Definition ft_obs (s : ftable_state) : list Z := fl_ref <$> ft_file s.
Definition obs (s : kernel) : list Z * list (list (option nat) * bool) := (ft_obs (kn_ft s), pt_obs (kn_pt s)).

(** * The invariant *)

(** How often file [f] is in a table of descriptors, and in all of them. *)
Definition fd_count (f : nat) (l : list (option nat)) : nat :=
  sum_list_with (λ x, if decide (x = Some f) then 1 else 0)%nat l.
Definition refs (f : nat) (O : list (list (option nat) * bool)) : nat := sum_list_with (λ x, fd_count f x.1) O.

(** The count of each file is the number of descriptors that have it, up to
    the [d f] references that code in between holds; the descriptors are files
    of the table, and a process that is not alive has none, [X] apart. *)
Record refs_ok (d : nat → Z) (X : option nat) (o : list Z * list (list (option nat) * bool)) : Prop := {
  ro_count : ∀ f r, o.1 !! f = Some r → r = Z.of_nat (refs f o.2) + d f;
  ro_files : ∀ i l b, o.2 !! i = Some (l, b) → length l = NOFILE ∧ ∀ fd f, l !! fd = Some (Some f) → (f < length o.1)%nat;
  ro_held : ∀ f, 0 < d f → (f < length o.1)%nat;
  ro_clean : ∀ i l, o.2 !! i = Some (l, true) → X ≠ Some i → ∀ fd f, l !! fd ≠ Some (Some f)
}.

Definition files_ok (s : kernel) : Prop := refs_ok (λ _, 0) None (obs s).

(** Process [i] is alive. *)
Definition alive_at (i : nat) (o : list Z * list (list (option nat) * bool)) : Prop := ∃ l, o.2 !! i = Some (l, false).

Definition shift (d : nat → Z) (f : nat) (k : Z) : nat → Z := λ g, d g + (if decide (g = f) then k else 0).

Lemma sum_list_with_insert {A} (g : A → nat) l i x y : l !! i = Some x →
  (sum_list_with g (<[i := y]> l) + g x = sum_list_with g l + g y)%nat.
Proof.
  revert i. induction l as [|z l IH]; intros [|i] Hi; simplify_eq/=; [lia|]. specialize (IH i Hi). lia.
Qed.

Lemma sum_list_with_lookup {A} (g : A → nat) l i x : l !! i = Some x → (g x ≤ sum_list_with g l)%nat.
Proof. revert i. induction l as [|z l IH]; intros [|i] Hi; simplify_eq/=; [lia|]. specialize (IH i Hi). lia. Qed.

Lemma refs_lookup f O i x : O !! i = Some x → (fd_count f x.1 ≤ refs f O)%nat.
Proof. apply (sum_list_with_lookup (λ x, fd_count f x.1)). Qed.

Lemma fd_count_lookup f l fd : l !! fd = Some (Some f) → (1 ≤ fd_count f l)%nat.
Proof.
  intros Hl. pose proof (sum_list_with_lookup (λ x, if decide (x = Some f) then 1 else 0)%nat l fd _ Hl) as Hle.
  cbv beta in Hle. by rewrite decide_True in Hle.
Qed.

Lemma refs_insert f O i l b l' b' : O !! i = Some (l, b) →
  (refs f (<[i := (l', b')]> O) + fd_count f l = refs f O + fd_count f l')%nat.
Proof. intros Hi. apply (sum_list_with_insert (λ x, fd_count f x.1) _ _ _ (l', b') Hi). Qed.

Lemma fd_count_insert f l fd x y : l !! fd = Some x →
  (fd_count f (<[fd := y]> l) + (if decide (x = Some f) then 1 else 0) =
   fd_count f l + (if decide (y = Some f) then 1 else 0))%nat.
Proof. intros Hx. apply (sum_list_with_insert (λ x, if decide (x = Some f) then 1 else 0)%nat _ _ _ y Hx). Qed.

(** A reference count changes. *)
Lemma refs_ok_ref d X R O f r k : refs_ok d X (R, O) → R !! f = Some r →
  refs_ok (shift d f k) X (<[f := r + k]> R, O).
Proof.
  intros [Hc Hf Hh Hcl] Hr. split; simpl in *; try done; try (by rewrite length_insert).
  - intros g q Hq. unfold shift. destruct (decide (g = f)) as [->|Hne].
    + rewrite list_lookup_insert_eq in Hq by (by eapply lookup_lt_Some). injection Hq as <-. rewrite (Hc f r Hr). lia.
    + rewrite list_lookup_insert_ne in Hq by done. rewrite (Hc g q Hq). lia.
  - rewrite length_insert. intros g. unfold shift. case_decide; [subst; intros _; by eapply lookup_lt_Some|].
    intros. apply Hh. lia.
Qed.

(** A descriptor of process [i] changes from [x] to [y]. *)
Definition fd_delta (x : option nat) (k : Z) (d : nat → Z) : nat → Z :=
  match x with Some f => shift d f k | None => d end.

Lemma fd_delta_at x k d g : fd_delta x k d g = d g + (if decide (x = Some g) then k else 0).
Proof. destruct x as [f|]; unfold fd_delta, shift; repeat case_decide; (lia || congruence). Qed.

Lemma refs_ok_fd d X R O i l b fd x y : refs_ok d X (R, O) → O !! i = Some (l, b) → l !! fd = Some x →
  (b = true → X = Some i ∨ y = None) → (∀ f, y = Some f → (f < length R)%nat) →
  refs_ok (fd_delta y (-1) (fd_delta x 1 d)) X (R, <[i := (<[fd := y]> l, b)]> O).
Proof.
  intros [Hc Hf Hh Hcl] Hi Hx Hb Hy. simpl in *. split; simpl.
  - intros g r Hr. rewrite (Hc g r Hr), !fd_delta_at. pose proof (refs_insert g O i l b (<[fd:=y]> l) b Hi).
    pose proof (fd_count_insert g l fd x y Hx). repeat case_decide; lia.
  - intros j l' b' Hj. destruct (decide (j = i)) as [->|].
    + rewrite list_lookup_insert_eq in Hj by (by eapply lookup_lt_Some). injection Hj as <- <-.
      destruct (Hf _ _ _ Hi) as [Hl Hfd]. rewrite length_insert. split; [done|]. intros k f Hk.
      destruct (decide (k = fd)) as [->|]; [|rewrite list_lookup_insert_ne in Hk by done; by eapply Hfd].
      rewrite list_lookup_insert_eq in Hk by (by eapply lookup_lt_Some). injection Hk as Hk. by apply Hy.
    + rewrite list_lookup_insert_ne in Hj by done. by eapply Hf.
  - intros g. rewrite !fd_delta_at. destruct (decide (x = Some g)) as [->|].
    + intros _. destruct (Hf _ _ _ Hi) as [_ Hfd]. by eapply Hfd.
    + intros Hd. apply Hh. revert Hd. case_decide; lia.
  - intros j l' Hj HX k f Hk. destruct (decide (j = i)) as [->|].
    + rewrite list_lookup_insert_eq in Hj by (by eapply lookup_lt_Some). injection Hj as <- ->.
      destruct (Hb eq_refl) as [?|Hnone]; [done|]. subst y. destruct (decide (k = fd)) as [->|].
      * by rewrite list_lookup_insert_eq in Hk by (by eapply lookup_lt_Some).
      * rewrite list_lookup_insert_ne in Hk by done. by eapply Hcl.
    + rewrite list_lookup_insert_ne in Hj by done. by eapply Hcl.
Qed.

Lemma refs_ok_ext d d' X o : (∀ f, d f = d' f) → refs_ok d X o → refs_ok d' X o.
Proof.
  intros Hd [Hc Hf Hh Hcl]. split; try done.
  - intros f r Hr. rewrite <- Hd. by apply Hc.
  - intros f. rewrite <- Hd. apply Hh.
Qed.

Lemma stable_pget {T} i (g : proc → T) : stable pt_obs (pget i g).
Proof. intros s a s'. unfold pget. destruct (pt_proc s !! i); [|done]. by intros [= <- <-]. Qed.

Lemma stable_pset i g : (∀ p, proc_obs (g p) = proc_obs p) → stable pt_obs (pset i g).
Proof.
  intros Hg s a s'. unfold pset. destruct (pt_proc s !! i) as [p|] eqn:E; [|done]. intros [= <- <-].
  unfold pt_obs. simpl. rewrite list_fmap_insert, Hg. apply list_insert_id. by rewrite list_lookup_fmap, E.
Qed.

Lemma stable_wakeup1 chan : stable pt_obs (wakeup1 chan).
Proof.
  apply stable_mod. intros s. unfold pt_obs. simpl. rewrite <- list_fmap_compose. apply list_fmap_ext.
  intros i p _. simpl. unfold wakeup1_proc. destruct (bool_decide_reflect (p_state p = SLEEPING)) as [E|]; [|done]. simpl.
  destruct (_ =? _); [|done]. unfold proc_obs. simpl. by rewrite E.
Qed.

Lemma stable_pt_lock b : ∀ s, pt_obs (put pt_lk b s) = pt_obs s.
Proof. done. Qed.

#[export] Hint Resolve stable_pget stable_wakeup1 : stable.
#[export] Hint Extern 1 (stable pt_obs (pset _ _)) => (apply stable_pset; intros; reflexivity) : stable.
#[export] Hint Extern 1 (stable pt_obs (acquire _)) => (apply stable_acquire; intros; reflexivity) : stable.
#[export] Hint Extern 1 (stable pt_obs (release _)) => (apply stable_release; intros; reflexivity) : stable.

Lemma stable_get_proc pid : stable pt_obs (get_proc pid).
Proof. apply stable_get. Qed.
Lemma stable_wakeup chan : stable pt_obs (wakeup chan).
Proof. unfold wakeup. stab. Qed.
#[export] Hint Resolve stable_get_proc stable_wakeup : stable.

Lemma stable_fget {T} f (g : file → T) : stable ft_obs (fget f g).
Proof. intros s a s'. unfold fget. destruct (ft_file s !! f); [|done]. by intros [= <- <-]. Qed.

Lemma stable_fset f g : (∀ x, fl_ref (g x) = fl_ref x) → stable ft_obs (fset f g).
Proof.
  intros Hg s a s'. unfold fset. destruct (ft_file s !! f) as [x|] eqn:E; [|done]. intros [= <- <-].
  unfold ft_obs. simpl. rewrite list_fmap_insert, Hg. apply list_insert_id. by rewrite list_lookup_fmap, E.
Qed.
#[export] Hint Resolve stable_fget : stable.
#[export] Hint Extern 1 (stable ft_obs (fset _ _)) => (apply stable_fset; intros; reflexivity) : stable.
#[export] Hint Extern 1 (stable ft_obs (acquire _)) => (apply stable_acquire; intros; reflexivity) : stable.
#[export] Hint Extern 1 (stable ft_obs (release _)) => (apply stable_release; intros; reflexivity) : stable.

(** * The operations on counts and descriptors *)
Lemma fset_obs f g s a s' : fset f g s = Ok (a, s') →
  ∃ x, ft_file s !! f = Some x ∧ ft_file s' = <[f := g x]> (ft_file s) ∧ ft_obs s' = <[f := fl_ref (g x)]> (ft_obs s).
Proof.
  unfold fset. destruct (ft_file s !! f) as [x|] eqn:E; [|done]. intros [= <- <-]. exists x. split_and!; try done.
  unfold ft_obs. simpl. by rewrite list_fmap_insert.
Qed.

Lemma fget_inv {T} f (g : file → T) s a s' : fget f g s = Ok (a, s') →
  ∃ x, ft_file s !! f = Some x ∧ a = g x ∧ s' = s.
Proof. unfold fget. destruct (ft_file s !! f) as [x|]; [|done]. intros [= <- <-]. by exists x. Qed.

Lemma ft_obs_lookup s f x : ft_file s !! f = Some x → ft_obs s !! f = Some (fl_ref x).
Proof. intros E. unfold ft_obs. by rewrite list_lookup_fmap, E. Qed.

Lemma acquire_obs s a s' : acquire ft_lk s = Ok (a, s') → ft_file s' = ft_file s.
Proof. unfold acquire. destruct (view ft_lk s); [done|]. by intros [= <- <-]. Qed.
Lemma release_obs s a s' : release ft_lk s = Ok (a, s') → ft_obs s' = ft_obs s.
Proof. unfold release. destruct (view ft_lk s); [|done]. by intros [= <- <-]. Qed.

Lemma filealloc_obs s r s' : filealloc s = Ok (r, s') →
  match r with
  | Some f => ft_obs s !! f = Some 0 ∧ ft_obs s' = <[f := 1]> (ft_obs s)
  | None => ft_obs s' = ft_obs s
  end.
Proof.
  unfold filealloc. intros ([] & s1 & E1%acquire_obs & E)%bind_Ok_inv.
  apply bind_Ok_inv in E as (l & s2 & [= <- <-] & E). destruct (list_find _ _) as [[i x]|] eqn:Ef.
  - apply bind_Ok_inv in E as ([] & s2 & (y & Hy & _ & E2)%fset_obs & E).
    apply bind_Ok_inv in E as ([] & s3 & E3%release_obs & [= <- <-]).
    apply list_find_Some in Ef as (Hx & Hr & _). rewrite Hx in Hy. injection Hy as <-.
    unfold ft_obs in *. rewrite E3, E2. simpl. rewrite E1 in Hx |- *. rewrite list_lookup_fmap, Hx. simpl. by rewrite Hr.
  - apply bind_Ok_inv in E as ([] & s3 & E3%release_obs & [= <- <-]). unfold ft_obs in *. by rewrite E3, E1.
Qed.

Lemma filedup_obs f s g s' : filedup f s = Ok (g, s') →
  g = f ∧ ∃ r, ft_obs s !! f = Some r ∧ ft_obs s' = <[f := r + 1]> (ft_obs s).
Proof.
  unfold filedup. intros ([] & s1 & E1%acquire_obs & E)%bind_Ok_inv.
  apply bind_Ok_inv in E as (r & s2 & (x & Hx & -> & ->)%fget_inv & E). destruct (_ <? 1); [done|].
  apply bind_Ok_inv in E as ([] & s2 & (y & Hy & _ & E2)%fset_obs & E).
  apply bind_Ok_inv in E as ([] & s3 & E3%release_obs & [= <- <-]). split; [done|].
  rewrite Hx in Hy. injection Hy as <-. exists (fl_ref x). rewrite E3, E2. rewrite E1 in Hx.
  unfold ft_obs at 2 3. rewrite E1. split; [by apply ft_obs_lookup|done].
Qed.

Lemma fileclose_ref_obs f s r s' : fileclose_ref f s = Ok (r, s') →
  ∃ r, ft_obs s !! f = Some r ∧ ft_obs s' = <[f := r - 1]> (ft_obs s).
Proof.
  unfold fileclose_ref. intros ([] & s1 & E1%acquire_obs & E)%bind_Ok_inv.
  apply bind_Ok_inv in E as (n & s2 & (x & Hx & -> & ->)%fget_inv & E).
  destruct (Z.ltb_spec (fl_ref x) 1) as [|Hr]; [done|].
  apply bind_Ok_inv in E as ([] & s2 & (y & Hy & Ef2 & E2)%fset_obs & E).
  rewrite Hx in Hy. injection Hy as <-. exists (fl_ref x). split; [apply ft_obs_lookup; congruence|].
  assert (Es : ft_obs s2 = <[f := fl_ref x - 1]> (ft_obs s)) by (rewrite E2; unfold ft_obs; by rewrite E1).
  destruct (Z.ltb_spec 0 (fl_ref x - 1)) as [|Hle].
  - apply bind_Ok_inv in E as ([] & s3 & E3%release_obs & [= <- <-]). congruence.
  - apply bind_Ok_inv in E as (ff & s3 & (z & Hz & -> & ->)%fget_inv & E).
    apply bind_Ok_inv in E as ([] & s4 & (y & Hy & Ef4 & E4)%fset_obs & E).
    apply bind_Ok_inv in E as ([] & s5 & (w & Hw & _ & E5)%fset_obs & E).
    apply bind_Ok_inv in E as ([] & s6 & E6%release_obs & [= <- <-]).
    rewrite E6, E5, E4, Es. rewrite Ef4, list_lookup_insert_eq in Hw by (by eapply lookup_lt_Some).
    injection Hw as <-. simpl. rewrite !list_insert_insert_eq. f_equal. lia.
Qed.

Lemma pset_obs i g s a s' : pset i g s = Ok (a, s') →
  ∃ p, pt_proc s !! i = Some p ∧ pt_proc s' = <[i := g p]> (pt_proc s) ∧ pt_obs s' = <[i := proc_obs (g p)]> (pt_obs s).
Proof.
  unfold pset. destruct (pt_proc s !! i) as [p|] eqn:E; [|done]. intros [= <- <-]. exists p. split_and!; try done.
  unfold pt_obs. simpl. by rewrite list_fmap_insert.
Qed.

Lemma pget_inv {T} i (g : proc → T) s a s' : pget i g s = Ok (a, s') → ∃ p, pt_proc s !! i = Some p ∧ a = g p ∧ s' = s.
Proof. unfold pget. destruct (pt_proc s !! i) as [p|]; [|done]. intros [= <- <-]. by exists p. Qed.

Lemma pt_obs_lookup s i p : pt_proc s !! i = Some p → pt_obs s !! i = Some (proc_obs p).
Proof. intros E. unfold pt_obs. by rewrite list_lookup_fmap, E. Qed.

(** A change of one descriptor. *)
Lemma set_ofile_obs i l s p a s' : pt_proc s !! i = Some p → pset i (w_ofile l) s = Ok (a, s') →
  pt_obs s' = <[i := (l, dead (p_state p))]> (pt_obs s).
Proof. intros Hp (q & Hq & _ & E)%pset_obs. rewrite Hp in Hq. by injection Hq as <-. Qed.

Lemma fdalloc_obs cur f s r s' : fdalloc cur f s = Ok (r, s') → ∃ l b, pt_obs s !! cur = Some (l, b) ∧
  match r with
  | Some fd => l !! fd = Some None ∧ pt_obs s' = <[cur := (<[fd := Some f]> l, b)]> (pt_obs s)
  | None => pt_obs s' = pt_obs s
  end.
Proof.
  unfold fdalloc. intros (l & s1 & (p & Hp & -> & ->)%pget_inv & E)%bind_Ok_inv.
  exists (p_ofile p), (dead (p_state p)). split; [by apply pt_obs_lookup|].
  destruct (list_find _ _) as [[fd x]|] eqn:Ef; [|by injection E as <- <-].
  apply bind_Ok_inv in E as ([] & s2 & E2 & [= <- <-]). apply list_find_Some in Ef as (Hx & -> & _).
  split; [done|]. by eapply set_ofile_obs.
Qed.

Lemma fdclear_obs cur fd s a s' : fdclear cur fd s = Ok (a, s') →
  ∃ l b, pt_obs s !! cur = Some (l, b) ∧ pt_obs s' = <[cur := (<[fd := None]> l, b)]> (pt_obs s).
Proof.
  unfold fdclear. intros (l & s1 & (p & Hp & -> & ->)%pget_inv & E)%bind_Ok_inv.
  exists (p_ofile p), (dead (p_state p)). split; [by apply pt_obs_lookup|]. by eapply set_ofile_obs.
Qed.

(** * Parts of the kernel that the counts do not depend on *)
Lemma stable_KM {A} (m : M _ A) : stable obs (zoom KM m).
Proof. by apply stable_zoom_out. Qed.
Lemma stable_LRU {A} (m : M _ A) : stable obs (zoom LRU m).
Proof. by apply stable_zoom_out. Qed.
Lemma stable_SWAP {A} (m : M _ A) : stable obs (zoom SWAP m).
Proof. by apply stable_zoom_out. Qed.
Lemma stable_FS {A} (m : M _ A) : stable obs (zoom FS m).
Proof. by apply stable_zoom_out. Qed.
Lemma stable_BC {A} (m : M _ A) : stable obs (zoom BC m).
Proof. by apply stable_zoom_out. Qed.
Lemma stable_PIPES {A} (m : M _ A) : stable obs (zoom PIPES m).
Proof. by apply stable_zoom_out. Qed.
Lemma stable_TICKS {A} (m : M _ A) : stable obs (zoom TICKS m).
Proof. by apply stable_zoom_out. Qed.
Lemma stable_PT {A} (m : M _ A) : stable pt_obs m → stable obs (zoom PT m).
Proof. apply stable_zoom_in. intros s u E. unfold obs. simpl. by rewrite E. Qed.
Lemma stable_FT {A} (m : M _ A) : stable ft_obs m → stable obs (zoom FT m).
Proof. apply stable_zoom_in. intros s u E. unfold obs. simpl. by rewrite E. Qed.
#[export] Hint Resolve stable_FT : stable.
#[export] Hint Resolve stable_KM stable_LRU stable_SWAP stable_FS stable_BC stable_PIPES stable_TICKS stable_PT : stable.
#[export] Hint Extern 1 (stable obs (acquire tickslock)) => (apply stable_acquire; intros; reflexivity) : stable.
#[export] Hint Extern 1 (stable obs (release tickslock)) => (apply stable_release; intros; reflexivity) : stable.

Section stable_code.
Context `{KernelImage} `{BlockDriver}.
Variables (cur : nat) (mypid : Z).
Variable devsw_read : Z → option (nat → Z → M fs_state (Z * list Z)).
Variable devsw_write : Z → option (nat → list Z → M fs_state Z).

Lemma stable_klru_free_swap p v : stable obs (klru_free_swap p v).
Proof. unfold klru_free_swap. stab. Qed.
Hint Resolve stable_klru_free_swap : stable.

Lemma stable_swap_out_with k b p v : stable obs (swap_out_with mypid k b p v).
Proof. unfold swap_out_with, writeswap. stab. Qed.
Hint Resolve stable_swap_out_with : stable.

Lemma stable_swap_free pid : stable obs (Paging.swap_free pid).
Proof. unfold Paging.swap_free. stab. Qed.
Hint Resolve stable_swap_free : stable.

Lemma stable_get_lru_evict : stable obs (get_lru_evict mypid).
Proof. unfold get_lru_evict, evict_page, swap_out. stab. Qed.
Hint Resolve stable_get_lru_evict : stable.

Lemma stable_get_lru pid v : stable obs (get_lru mypid pid v).
Proof. unfold get_lru. generalize 2%nat. intros n. induction n; cbn [get_lru_loop]; stab. Qed.
Hint Resolve stable_get_lru : stable.

Lemma stable_kalloc pid lru : stable obs (kalloc mypid pid lru).
Proof. unfold kalloc, kalloc_with. stab. Qed.
Hint Resolve stable_kalloc : stable.

Lemma stable_readswap p dev bno : stable obs (readswap mypid p dev bno).
Proof.
  unfold readswap. stab. generalize 8%nat. intros n. revert a0 bno. induction n; intros; cbn [readswap_loop]; stab.
Qed.
Hint Resolve stable_readswap : stable.

Lemma stable_swap_in_with k p v : stable obs (swap_in_with mypid k p v).
Proof. unfold swap_in_with. stab. Qed.
Hint Resolve stable_swap_in_with : stable.

Lemma stable_swapfunc_in n p v : stable obs (swapfunc_in mypid n p v).
Proof.
  unfold swapfunc_in, swap_in, swap_in_stack, swap_in_heap. destruct (n =? 0), (n =? 1), (n =? 2); cbv beta; stab.
Qed.
Hint Resolve stable_swapfunc_in : stable.

Lemma stable_allocuvm pgdir o n k : stable obs (allocuvm cur mypid pgdir o n k).
Proof.
  unfold allocuvm. stab. generalize (S (Z.to_nat (n / PGSIZE + 1))) (PGROUNDUP o) (V2P 0). intros fuel.
  induction fuel; intros; cbn [allocuvm_loop]; stab.
Qed.
Hint Resolve stable_allocuvm : stable.

Lemma stable_copyuvm old new : stable obs (copyuvm mypid old new).
Proof.
  assert (∀ fuel d i mem, stable obs (copyuvm_loop mypid fuel old new d i mem)).
  { induction fuel; intros; cbn [copyuvm_loop]; stab. }
  unfold copyuvm. stab.
Qed.
Hint Resolve stable_copyuvm : stable.

Lemma stable_growproc n : stable obs (growproc cur mypid n).
Proof.
  assert (∀ m i, stable obs (growproc_swap cur mypid m i)).
  { induction m; intros; cbn [growproc_swap]; unfold swap_out_heap; stab. }
  unfold growproc. stab.
Qed.
Hint Resolve stable_growproc : stable.

Lemma stable_loaduvm pgdir a ip off sz : stable obs (loaduvm mypid devsw_read pgdir a ip off sz).
Proof.
  assert (∀ fuel i, stable obs (loaduvm_loop mypid devsw_read fuel pgdir a ip off sz i)).
  { induction fuel; intros; cbn [loaduvm_loop]; stab. }
  unfold loaduvm. stab.
Qed.
Hint Resolve stable_loaduvm : stable.

Lemma stable_pgflt_load ip a mem : stable obs (pgflt_load cur mypid devsw_read ip a mem).
Proof. unfold pgflt_load. stab. Qed.
Hint Resolve stable_pgflt_load : stable.

Lemma stable_pgflt_handler cr2 : stable obs (pgflt_handler cur mypid devsw_read cr2).
Proof. unfold pgflt_handler. stab. Qed.
Hint Resolve stable_pgflt_handler : stable.

(** ** System call arguments *)
Lemma stable_uaddr fuel w va : stable obs (uaddr cur mypid devsw_read fuel w va).
Proof. revert va. induction fuel; intros; cbn [uaddr]; stab. Qed.
Hint Resolve stable_uaddr : stable.

Lemma stable_uread n va : stable obs (uread cur mypid devsw_read n va).
Proof. revert va. induction n; intros; cbn [uread]; stab. Qed.
Lemma stable_uwrite va l : stable obs (uwrite cur mypid devsw_read va l).
Proof. revert va. induction l; intros; cbn [uwrite]; stab. Qed.
Hint Resolve stable_uread stable_uwrite : stable.

Lemma stable_fetchint a : stable obs (fetchint cur mypid devsw_read a).
Proof. unfold fetchint. stab. Qed.
Hint Resolve stable_fetchint : stable.

Lemma stable_fetchstr a : stable obs (fetchstr cur mypid devsw_read a).
Proof.
  assert (∀ n s, stable obs (fetchstr_loop cur mypid devsw_read n s)).
  { induction n; intros; cbn [fetchstr_loop]; stab. }
  unfold fetchstr. stab.
Qed.
Hint Resolve stable_fetchstr : stable.

Lemma stable_argint n : stable obs (argint cur mypid devsw_read n).
Proof. unfold argint. stab. Qed.
Hint Resolve stable_argint : stable.
Lemma stable_argptr n size : stable obs (argptr cur mypid devsw_read n size).
Proof. unfold argptr. stab. Qed.
Lemma stable_argstr n : stable obs (argstr cur mypid devsw_read n).
Proof. unfold argstr. stab. Qed.
Hint Resolve stable_argptr stable_argstr : stable.

(** ** Pipes and files *)
Lemma stable_pipe_at p : stable obs (pipe_at p).
Proof. intros s a s'. unfold pipe_at. destruct (kn_pipes s !! p); [|done]. by intros [= <- <-]. Qed.
Hint Resolve stable_pipe_at : stable.
Lemma stable_pipe_set p x : stable obs (pipe_set p x).
Proof. unfold pipe_set. stab. Qed.
Hint Resolve stable_pipe_set : stable.
Lemma stable_pipe_acquire p : stable obs (pipe_acquire p).
Proof. unfold pipe_acquire. stab. Qed.
Lemma stable_pipe_release p : stable obs (pipe_release p).
Proof. unfold pipe_release. stab. Qed.
Hint Resolve stable_pipe_acquire stable_pipe_release : stable.
Lemma stable_pipeclose p w : stable obs (pipeclose p w).
Proof. unfold pipeclose. stab. Qed.
Lemma stable_pipewrite p l : stable obs (pipewrite cur p l).
Proof. unfold pipewrite. stab. Qed.
Lemma stable_piperead p copy n : (∀ l, stable obs (copy l)) → stable obs (piperead cur p copy n).
Proof. intros Hc. unfold piperead. stab; apply Hc. Qed.
Hint Resolve stable_pipeclose stable_pipewrite stable_piperead : stable.
Lemma stable_begin_op : stable obs kbegin_op.
Proof. unfold kbegin_op. stab. Qed.
Lemma stable_end_op : stable obs (kend_op mypid).
Proof. unfold kend_op. stab. Qed.
Hint Resolve stable_begin_op stable_end_op : stable.

Lemma stable_filestat f : stable obs (filestat mypid f).
Proof. unfold filestat. stab. Qed.
Lemma stable_fileread f copy n : (∀ l, stable obs (copy l)) → stable obs (fileread cur mypid devsw_read f copy n).
Proof. intros Hc. unfold fileread. stab; apply Hc. Qed.
Lemma stable_filewrite f l n : stable obs (filewrite cur mypid devsw_write f l n).
Proof.
  assert (∀ fuel i, stable obs (filewrite_loop mypid devsw_write fuel f l i n)).
  { induction fuel; intros; cbn [filewrite_loop]; stab. }
  unfold filewrite. stab.
Qed.
Hint Resolve stable_filestat stable_fileread stable_filewrite : stable.

(** ** exec *)
Lemma stable_knamei path : stable obs (knamei cur mypid devsw_read path).
Proof. unfold knamei. stab. Qed.
Lemma stable_exec_bad pgdir ip : stable obs (exec_bad cur mypid pgdir ip).
Proof. unfold exec_bad. stab. Qed.
Lemma stable_exec_load n pgdir ip off sz : stable obs (exec_load cur mypid devsw_read n pgdir ip off sz).
Proof. revert off sz. induction n; intros; cbn [exec_load]; stab. Qed.
Lemma stable_stack_write sp l : stable obs (stack_write cur sp l).
Proof. unfold stack_write. stab. Qed.
Hint Resolve stable_knamei stable_exec_bad stable_exec_load stable_stack_write : stable.
Lemma stable_exec_args argv argc base sp : stable obs (exec_args cur argv argc base sp).
Proof. revert argc sp. induction argv; intros; cbn [exec_args]; stab. Qed.
Lemma stable_set_name path : stable obs (set_name cur path).
Proof. unfold set_name. stab. Qed.
Hint Resolve stable_exec_args stable_set_name : stable.
Lemma stable_exec_stack argv base : stable obs (exec_stack cur argv base).
Proof. unfold exec_stack. stab. Qed.
Hint Resolve stable_exec_stack : stable.
Lemma stable_exec path argv : stable obs (exec cur mypid devsw_read path argv).
Proof. unfold exec, swap_out_stack. stab. Qed.
Hint Resolve stable_exec : stable.

(** ** System calls that open and close nothing *)
Lemma stable_or_fail {A} (m : M kernel (option A)) k : stable obs m → (∀ a, stable obs (k a)) → stable obs (or_fail m k).
Proof. intros Hm Hk. unfold or_fail. apply stable_bind; [done|]. intros []; [apply Hk|apply stable_ret]. Qed.

Lemma stable_argfd n : stable obs (argfd cur mypid devsw_read n).
Proof. unfold argfd. stab. Qed.
Lemma stable_knameiparent path : stable obs (knameiparent cur mypid devsw_read path).
Proof. unfold knameiparent. stab. Qed.
Lemma stable_create path ty ma mi : stable obs (create cur mypid devsw_read devsw_write path ty ma mi).
Proof. unfold create. apply stable_bind; [apply stable_knameiparent|]. intros [[dp|] name]; stab. Qed.
Hint Resolve stable_argfd stable_knameiparent stable_create : stable.

Ltac sys_stab := repeat first [apply stable_or_fail; [|intros ?] | stab_step].

Lemma stable_sys_read : stable obs (sys_read cur mypid devsw_read).
Proof. unfold sys_read. sys_stab. Qed.
Lemma stable_sys_write : stable obs (sys_write cur mypid devsw_read devsw_write).
Proof. unfold sys_write. sys_stab. Qed.
Lemma stable_sys_fstat : stable obs (sys_fstat cur mypid devsw_read).
Proof. unfold sys_fstat, write_stat. sys_stab. Qed.
Lemma stable_link_bad ip : stable obs (link_bad mypid ip).
Proof. unfold link_bad. sys_stab. Qed.
Hint Resolve stable_link_bad : stable.
Lemma stable_sys_link : stable obs (sys_link cur mypid devsw_read devsw_write).
Proof. unfold sys_link. sys_stab. Qed.
Lemma stable_sys_unlink : stable obs (sys_unlink cur mypid devsw_read devsw_write).
Proof. unfold sys_unlink. sys_stab. Qed.
Lemma stable_open_inode path om : stable obs (open_inode cur mypid devsw_read devsw_write path om).
Proof. unfold open_inode. sys_stab. Qed.
Lemma stable_sys_mkdir : stable obs (sys_mkdir cur mypid devsw_read devsw_write).
Proof. unfold sys_mkdir. sys_stab. Qed.
Lemma stable_sys_mknod : stable obs (sys_mknod cur mypid devsw_read devsw_write).
Proof. unfold sys_mknod. sys_stab. Qed.
Lemma stable_sys_chdir : stable obs (sys_chdir cur mypid devsw_read).
Proof. unfold sys_chdir. sys_stab. Qed.
Lemma stable_sys_exec_args n u : stable obs (sys_exec_args cur mypid devsw_read n u).
Proof. revert u. induction n; intros; cbn [sys_exec_args]; sys_stab. Qed.
Hint Resolve stable_sys_exec_args stable_open_inode : stable.
Lemma stable_sys_exec : stable obs (sys_exec cur mypid devsw_read).
Proof. unfold sys_exec. sys_stab. Qed.
Lemma stable_kill pid : stable pt_obs (kill pid).
Proof.
  intros s a s'. unfold kill. intros ([] & s1 & E1 & E)%bind_Ok_inv.
  assert (H1 : pt_obs s1 = pt_obs s) by (eapply (stable_acquire pt_obs pt_lk); [done|exact E1]).
  apply bind_Ok_inv in E as (r & s2 & [= <- <-] & E). destruct (pfind _ _) as [i|].
  - apply bind_Ok_inv in E as ([] & s2 & E2 & E). apply bind_Ok_inv in E as (st & s3 & E3 & E).
    unfold pget in E3. destruct (pt_proc s2 !! i) as [p|] eqn:Hp; [|done]. injection E3 as <- <-.
    apply bind_Ok_inv in E as ([] & s4 & E4 & E). apply bind_Ok_inv in E as ([] & s5 & E5 & [= <- <-]).
    rewrite (stable_release pt_obs pt_lk ltac:(done) _ _ _ E5). transitivity (pt_obs s2).
    + case_decide as Hs; [|by injection E4 as <-]. unfold pset in E4. rewrite Hp in E4. injection E4 as <-.
      unfold pt_obs. simpl. rewrite list_fmap_insert. apply list_insert_id. rewrite list_lookup_fmap, Hp. simpl.
      unfold proc_obs. simpl. by rewrite Hs.
    + rewrite <- H1. by eapply (stable_pset i (w_killed 1)).
  - apply bind_Ok_inv in E as ([] & s5 & E5 & [= <- <-]).
    by rewrite (stable_release pt_obs pt_lk ltac:(done) _ _ _ E5).
Qed.
Hint Resolve stable_kill : stable.
Lemma stable_sys_kill : stable obs (sys_kill cur mypid devsw_read).
Proof. unfold sys_kill. sys_stab. Qed.
Lemma stable_sys_sbrk : stable obs (sys_sbrk cur mypid devsw_read).
Proof. unfold sys_sbrk. sys_stab. Qed.
Lemma stable_sys_sleep : stable obs (sys_sleep cur mypid devsw_read).
Proof. unfold sys_sleep. sys_stab. Qed.

(** * Code that opens and closes files *)

(** The invariant while process [cur] runs. *)
Definition fok (d : nat → Z) (X : option nat) (s : kernel) : Prop := refs_ok d X (obs s) ∧ alive_at cur (obs s).
Definition is_file (f : nat) (s : kernel) : Prop := (f < length (obs s).1)%nat.
Definition has_fd (fd f : nat) (s : kernel) : Prop :=
  ∃ l b, (obs s).2 !! cur = Some (l, b) ∧ l !! fd = Some (Some f).

Lemma fok_stable {A} d X (m : M kernel A) : stable obs m → triple (fok d X) m (λ _, fok d X).
Proof. apply (triple_stable obs (λ o, refs_ok d X o ∧ alive_at cur o)). Qed.

Lemma fok_shift d X f k s : fok (shift (shift d f k) f (- k)) X s → fok d X s.
Proof.
  intros [H1 H2]. split; [|done]. eapply refs_ok_ext; [|exact H1]. intros g. unfold shift. case_decide; lia.
Qed.

Lemma fok_ref d X f k s ft : fok d X s → ∀ r, ft_obs (kn_ft s) !! f = Some r →
  ft_obs ft = <[f := r + k]> (ft_obs (kn_ft s)) → fok (shift d f k) X (put FT ft s) ∧ is_file f (put FT ft s).
Proof.
  intros [H1 H2] r Hr E. split; [split|].
  - unfold obs. simpl. rewrite E. by apply refs_ok_ref.
  - done.
  - unfold is_file. simpl. rewrite E, length_insert. by eapply lookup_lt_Some.
Qed.

Lemma fok_filealloc d X : triple (fok d X) (zoom FT filealloc)
  (λ r s, match r with Some f => fok (shift d f 1) X s ∧ is_file f s | None => fok d X s end).
Proof.
  intros s r s' Hs (ft & E%filealloc_obs & ->)%zoom_Ok_inv. destruct r as [f|].
  - destruct E as [Hf E]. by apply (fok_ref d X f 1 s ft Hs 0).
  - destruct Hs as [H1 H2]. split; unfold obs; simpl; by rewrite E.
Qed.

Lemma fok_filedup d X f : triple (fok d X) (zoom FT (filedup f)) (λ g s, g = f ∧ fok (shift d f 1) X s ∧ is_file f s).
Proof.
  intros s r s' Hs (ft & (-> & n & Hn & E)%filedup_obs & ->)%zoom_Ok_inv. split; [done|].
  by apply (fok_ref d X f 1 s ft Hs n).
Qed.

Lemma fok_fileclose d X f : triple (fok d X) (fileclose mypid f) (λ _, fok (shift d f (-1)) X).
Proof.
  apply triple_bind with (Q := λ _, fok (shift d f (-1)) X).
  - intros s r s' Hs (ft & (n & Hn & E)%fileclose_ref_obs & ->)%zoom_Ok_inv.
    by apply (fok_ref d X f (-1) s ft Hs n).
  - intros r. apply fok_stable. stab.
Qed.

Lemma put_PT_obs pt s : obs (put PT pt s) = ((obs s).1, pt_obs pt).
Proof. done. Qed.

Lemma fok_fdalloc d X f : triple (λ s, fok d X s ∧ is_file f s) (zoom PT (fdalloc cur f))
  (λ r s, match r with Some fd => fok (shift d f (-1)) X s ∧ has_fd fd f s | None => fok d X s end).
Proof.
  intros s r s' [[H1 [l0 Hl0]] Hf] (pt & (l & b & Hl & E)%fdalloc_obs & ->)%zoom_Ok_inv.
  assert (Hb : b = false) by (simpl in *; congruence). subst b.
  destruct r as [fd|]; [destruct E as [Hfd E]|].
  - unfold fok, has_fd. rewrite put_PT_obs, E. split; [split|].
    + apply (refs_ok_fd d X _ _ cur l false fd None (Some f) H1 Hl Hfd); [done|]. by intros g [= <-].
    + eexists. apply list_lookup_insert_eq. by eapply lookup_lt_Some.
    + eexists _, _. split; [apply list_lookup_insert_eq; by eapply lookup_lt_Some|].
      apply list_lookup_insert_eq. by eapply lookup_lt_Some.
  - unfold fok. rewrite put_PT_obs, E. split; [done|by exists l0].
Qed.

Lemma fok_fdclear d X fd f : triple (λ s, fok d X s ∧ has_fd fd f s) (zoom PT (fdclear cur fd))
  (λ _, fok (shift d f 1) X).
Proof.
  intros s r s' [[H1 [l0 Hl0]] (l1 & b1 & Hl1 & Hfd)] (pt & (l & b & Hl & E)%fdclear_obs & ->)%zoom_Ok_inv.
  assert (b = false ∧ l1 = l) as [-> ->] by (simpl in *; split; congruence).
  unfold fok. rewrite put_PT_obs, E. split.
  - apply (refs_ok_fd d X _ _ cur l false fd (Some f) None H1 Hl Hfd); [by right|done].
  - eexists. apply list_lookup_insert_eq. by eapply lookup_lt_Some.
Qed.

(** ** Descriptors *)
Lemma fok_argfd d X n : triple (fok d X) (argfd cur mypid devsw_read n)
  (λ r s, fok d X s ∧ match r with Some (fd, f) => has_fd fd f s ∧ is_file f s | None => True end).
Proof.
  unfold argfd. eapply triple_bind; [apply fok_stable, stable_argint|]. intros [fd|].
  2:{ by apply triple_ret. }
  eapply triple_bind.
  - intros s r s' Hs (pt & (p & Hp & -> & ->)%pget_inv & ->)%zoom_Ok_inv.
    instantiate (1 := λ r s, fok d X s ∧ ∃ b, (obs s).2 !! cur = Some (r, b)). split.
    + by destruct s, Hs; split.
    + exists (dead (p_state p)). apply (pt_obs_lookup _ _ _ Hp).
  - intros l. destruct (_ || _); [by apply triple_ret; intros s [? _]|]. apply triple_ret. intros s [Hs [b Hb]].
    split; [done|]. destruct (l !! Z.to_nat fd) as [[f|]|] eqn:E; simpl; try done.
    split; [by exists l, b|]. destruct Hs as [Hs _]. by eapply (ro_files _ _ _ Hs).
Qed.

Lemma triple_or_fail {A} (P : kernel → Prop) (m : M kernel (option A)) Q (k : A → M kernel Z) R :
  triple P m Q → (∀ a, triple (Q (Some a)) (k a) R) → (∀ s, Q None s → R (-1) s) → triple P (or_fail m k) R.
Proof. intros Hm Hk HR. apply triple_bind with Q; [done|]. intros [a|]; [apply Hk|by apply triple_ret]. Qed.

Abbreviation fok0 := (fok (λ _, 0) None).

Lemma fok_sys_dup : triple fok0 (sys_dup cur mypid devsw_read) (λ _, fok0).
Proof.
  unfold sys_dup. eapply triple_or_fail; [exact (fok_argfd (λ _, 0) None 0)| |by intros s [? _]]. intros [fd f].
  eapply triple_or_fail; [eapply triple_pre; [exact (fok_fdalloc (λ _, 0) None f)|by intros s (? & ? & ?)]|intros fd'|by intros s Hs].
  eapply triple_bind; [eapply triple_pre; [exact (fok_filedup (shift (λ _, 0) f (-1)) None f)|by intros s [Hs _]]|]. intros g.
  apply triple_ret. intros s (_ & Hs & _). by apply (fok_shift _ _ f (-1)).
Qed.

Lemma fok_sys_close : triple fok0 (sys_close cur mypid devsw_read) (λ _, fok0).
Proof.
  unfold sys_close. eapply triple_or_fail; [exact (fok_argfd (λ _, 0) None 0)| |by intros s [? _]]. intros [fd f].
  eapply triple_bind; [eapply triple_pre; [exact (fok_fdclear (λ _, 0) None fd f)|by intros s (? & ? & ?)]|].
  intros []. eapply triple_bind; [exact (fok_fileclose (shift (λ _, 0) f 1) None f)|]. intros []. apply triple_ret. intros s. apply (fok_shift _ _ f 1).
Qed.

Lemma fok_step {A B} d X (m : M kernel A) (k : A → M kernel B) R :
  stable obs m → (∀ a, triple (fok d X) (k a) R) → triple (fok d X) (m ≫= k) R.
Proof. intros Hm Hk. eapply triple_bind; [by apply fok_stable|done]. Qed.

Lemma fok_end {A} d X (m : M kernel A) (a : Z) : stable obs m → triple (fok d X) (m;; mret a) (λ _, fok d X).
Proof. intros Hm. apply fok_step; [done|]. intros _. by apply triple_ret. Qed.

Lemma fok_fail {A} d X (m : M kernel (option A)) (k : A → M kernel Z) :
  stable obs m → (∀ a, triple (fok d X) (k a) (λ _, fok d X)) → triple (fok d X) (or_fail m k) (λ _, fok d X).
Proof. intros Hm Hk. eapply triple_or_fail; [by apply fok_stable|done|done]. Qed.

(** A held file gets a descriptor, or none is free. *)
Lemma fok_fdalloc_held d X f : 0 < d f → triple (fok d X) (zoom PT (fdalloc cur f))
  (λ r s, match r with Some fd => fok (shift d f (-1)) X s ∧ has_fd fd f s | None => fok d X s end).
Proof.
  intros Hd. eapply triple_pre; [exact (fok_fdalloc d X f)|]. intros s Hs. split; [done|]. by apply (ro_held _ _ _ (proj1 Hs)).
Qed.

Lemma shift_same d f k : shift d f k f = d f + k.
Proof. unfold shift. by rewrite decide_True. Qed.

Lemma fok_sys_open : triple fok0 (sys_open cur mypid devsw_read devsw_write) (λ _, fok0).
Proof.
  unfold sys_open. apply fok_fail; [apply stable_argstr|]. intros path. apply fok_fail; [apply stable_argint|]. intros om.
  apply fok_step; [apply stable_begin_op|]. intros _. apply fok_step; [apply stable_open_inode|].
  intros [ip|]; [|apply fok_end, stable_end_op].
  eapply triple_bind; [exact (fok_filealloc (λ _, 0) None)|]. intros [f|].
  - eapply triple_bind; [eapply triple_pre; [exact (fok_fdalloc (shift (λ _, 0) f 1) None f)|done]|]. intros [fd|].
    + eapply triple_pre with (P := fok0); [|intros s [Hs _]; by apply (fok_shift _ _ f 1)]. apply fok_stable. stab.
    + eapply triple_bind; [exact (fok_fileclose (shift (λ _, 0) f 1) None f)|]. intros [].
      eapply triple_pre with (P := fok0); [|intros s; apply (fok_shift _ _ f 1)]. apply fok_stable. stab.
  - apply fok_stable. stab.
Qed.

Lemma fok_pipealloc : triple fok0 (pipealloc mypid)
  (λ r s, match r with
          | Some (i, j) => fok (shift (shift (λ _, 0) i 1) j 1) None s
          | None => fok0 s
          end).
Proof.
  unfold pipealloc, pipealloc_bad. eapply triple_bind; [exact (fok_filealloc (λ _, 0) None)|]. intros [i|].
  2:{ do 2 apply triple_ret_bind. by apply triple_ret. }
  set (di := shift (λ _, 0) i 1).
  eapply triple_bind; [eapply triple_pre; [exact (fok_filealloc di None)|by intros s [? _]]|]. intros [j|].
  - set (dj := shift di j 1). eapply triple_pre with (P := fok dj None); [|by intros s [? _]].
    apply fok_step; [apply stable_kalloc|]. intros p. destruct (p =? 0).
    + eapply triple_bind; [exact (fok_fileclose dj None i)|]. intros []. 
      eapply triple_bind; [exact (fok_fileclose (shift dj i (-1)) None j)|]. intros []. apply triple_ret. intros s [H1 H2].
      split; [|done]. eapply refs_ok_ext; [|exact H1]. intros g. unfold dj, di, shift. repeat case_decide; lia.
    + repeat (apply fok_step; [solve [stab]|intros ?]). by apply triple_ret.
  - eapply triple_bind; [exact (fok_fileclose di None i)|]. intros [].
    apply triple_ret_bind, triple_ret. intros s. apply (fok_shift _ _ i 1).
Qed.

(** A failed [fdalloc] keeps the descriptors. *)
Lemma fok_fdalloc_again d X f fd g : triple (λ s, fok d X s ∧ is_file f s ∧ has_fd fd g s) (zoom PT (fdalloc cur f))
  (λ r s, match r with Some _ => fok (shift d f (-1)) X s | None => fok d X s ∧ has_fd fd g s end).
Proof.
  intros s r s' (Hs & Hf & Hfd) E. pose proof (fok_fdalloc d X f s r s' (conj Hs Hf) E) as Ho.
  destruct r as [fd'|]; [apply Ho|]. split; [done|]. apply zoom_Ok_inv in E as (pt & (l & b & Hl & E)%fdalloc_obs & ->).
  destruct Hfd as (l1 & b1 & Hl1 & Hg). exists l1, b1. rewrite put_PT_obs, E. done.
Qed.

Lemma fok_sys_pipe : triple fok0 (sys_pipe cur mypid devsw_read) (λ _, fok0).
Proof.
  unfold sys_pipe. apply fok_fail; [apply stable_argptr|]. intros a.
  eapply triple_or_fail; [exact fok_pipealloc| |done]. intros [i j].
  set (di := shift (λ _, 0) i 1). set (dj := shift di j 1).
  assert (Hdi : 0 < dj i) by (unfold dj, di, shift; repeat case_decide; (done || lia)).
  assert (Hdj : 0 < shift dj i (-1) j) by (unfold dj, di, shift; repeat case_decide; (congruence || lia)).
  assert (Hz : ∀ s, fok (shift (shift dj i (-1)) j (-1)) None s → fok0 s).
  { intros s [H1 H2]. split; [|done]. eapply refs_ok_ext; [|exact H1]. intros g. unfold dj, di, shift. repeat case_decide; lia. }
  eapply triple_bind; [exact (fok_fdalloc_held dj None i Hdi)|]. intros [fd0|].
  - eapply triple_bind.
    { eapply triple_pre; [exact (fok_fdalloc_again (shift dj i (-1)) None j fd0 i)|]. intros s [Hs Hfd].
      split_and!; try done. by apply (ro_held _ _ _ (proj1 Hs)). }
    intros [fd1|].
    + eapply triple_pre with (P := fok0); [|done]. apply fok_stable. stab.
    + eapply triple_bind; [exact (fok_fdclear (shift dj i (-1)) None fd0 i)|]. intros [].
      eapply triple_bind; [exact (fok_fileclose (shift (shift dj i (-1)) i 1) None i)|]. intros [].
      eapply triple_bind; [exact (fok_fileclose _ None j)|]. intros []. apply triple_ret. intros s [H1 H2]. apply Hz.
      split; [|done]. eapply refs_ok_ext; [|exact H1]. intros g. unfold shift. repeat case_decide; lia.
  - do 2 apply triple_ret_bind. eapply triple_bind; [exact (fok_fileclose dj None i)|]. intros [].
    eapply triple_bind; [exact (fok_fileclose _ None j)|]. intros []. by apply triple_ret.
Qed.

(** ** Processes *)

(** Process [j] is not alive. *)
Definition dead_at (j : nat) (o : list Z * list (list (option nat) * bool)) : Prop := ∃ l, o.2 !! j = Some (l, true).

Definition fdead (d : nat → Z) (X : option nat) (j : nat) (s : kernel) : Prop := fok d X s ∧ dead_at j (obs s).

Lemma fdead_step {A B} d X j (m : M kernel A) (k : A → M kernel B) R :
  stable obs m → (∀ a, triple (fdead d X j) (k a) R) → triple (fdead d X j) (m ≫= k) R.
Proof.
  intros Hm Hk. eapply triple_bind; [|exact Hk].
  exact (triple_stable obs (λ o, (refs_ok d X o ∧ alive_at cur o) ∧ dead_at j o) m Hm).
Qed.

(** A dead process that stays dead and keeps its descriptors. *)
Lemma fdead_pset d X j g : (∀ p, p_ofile (g p) = p_ofile p) → (∀ p, dead (p_state p) = true → dead (p_state (g p)) = true) →
  triple (fdead d X j) (zoom PT (pset j g)) (λ _, fdead d X j).
Proof.
  intros Ho Hd s a s' [Hs [l Hl]] (pt & (p & Hp & _ & E)%pset_obs & ->)%zoom_Ok_inv.
  pose proof (pt_obs_lookup _ _ _ Hp) as Hp'. assert (Hi : pt_obs pt = (obs s).2).
  { rewrite E. apply list_insert_id. simpl in Hl. change (view PT s) with (kn_pt s) in Hp'. rewrite Hl in Hp'.
    injection Hp' as E1 E2. simpl. rewrite Hl. unfold proc_obs. rewrite Ho, Hd by done. congruence. }
  unfold fdead, fok. rewrite put_PT_obs, Hi. by destruct s; split; [|exists l].
Qed.

Lemma fok_wait_free d X j : triple (fdead d X j) (wait_free j) (λ _, fok d X).
Proof.
  unfold wait_free. repeat (apply fdead_step; [solve [stab]|intros ?]).
  eapply triple_bind; [exact (fdead_pset d X j reap ltac:(done) ltac:(done))|]. intros []. apply triple_ret. by intros s [? _].
Qed.

Lemma fok_wait : triple fok0 (wait cur) (λ _, fok0).
Proof.
  unfold wait. apply fok_step; [stab|]. intros _. eapply triple_bind.
  - instantiate (1 := λ r s, fok0 s ∧ match r.1 with Some j => dead_at j (obs s) | None => True end).
    intros s r s' Hs (pt & [= <- <-] & ->)%zoom_Ok_inv. split; [by destruct s|]. simpl.
    destruct (pfind _ _) as [j|] eqn:Ej; [|done]. apply pfind_Some in Ej as (p & Hp & Hz & _).
    apply andb_true_iff in Hz as [_ Hz%bool_decide_eq_true_1]. exists (p_ofile p).
    simpl. rewrite (pt_obs_lookup _ _ _ Hp). unfold proc_obs. by rewrite Hz.
  - intros [[j|] kids]; simpl.
    + eapply triple_bind; [exact (fok_wait_free (λ _, 0) None j)|]. intros pid. apply fok_stable. stab.
    + eapply triple_pre with (P := fok0); [|by intros s [? _]]. apply fok_stable. stab.
Qed.

Lemma allocproc_slot_obs s r s' : allocproc_slot s = Ok (r, s') → pt_obs s' = pt_obs s ∧
  match r with Some i => ∃ l, pt_obs s !! i = Some (l, true) | None => True end.
Proof.
  unfold allocproc_slot. intros ([] & s1 & E1 & E)%bind_Ok_inv.
  assert (H1 : pt_obs s1 = pt_obs s) by (eapply (stable_acquire pt_obs pt_lk); [done|exact E1]). rewrite <- H1.
  apply bind_Ok_inv in E as (r1 & s2 & [= <- <-] & E). destruct (pfind _ _) as [i|] eqn:Ef.
  - apply bind_Ok_inv in E as ([] & s2 & (p & Hp & _ & E2)%pset_obs & E).
    apply pfind_Some in Ef as (q & Hq & Hu%bool_decide_eq_true_1 & _). rewrite Hp in Hq. injection Hq as <-.
    pose proof (pt_obs_lookup _ _ _ Hp) as Hl. unfold proc_obs in Hl. rewrite Hu in Hl.
    assert (H2 : pt_obs s2 = pt_obs s1) by (rewrite E2; by apply list_insert_id). rewrite <- H2 in Hl |- *.
    enough (Hst : stable pt_obs (n ← mget nextpid; pset i (w_ppid n);;
      mmod (λ s, Ptable (pt_proc s) (pt_lock s) (s32 (nextpid s + 1)) (initproc s));; release pt_lk;; mret (Some i))).
    + pose proof (Hst _ _ _ E) as H3. split; [done|]. repeat (apply bind_Ok_inv in E as (? & ? & _ & E)).
      injection E as <- _. by exists (p_ofile p).
    + stab. by apply stable_mod.
  - apply bind_Ok_inv in E as ([] & s3 & E3 & [= <- <-]). split; [|done].
    by apply (stable_release pt_obs pt_lk ltac:(done) _ _ _ E3).
Qed.

Lemma fok_allocproc : triple fok0 (allocproc mypid)
  (λ r s, match r with Some np => fdead (λ _, 0) None np s | None => fok0 s end).
Proof.
  unfold allocproc. eapply triple_bind with (Q := λ r s, match r with Some np => fdead (λ _, 0) None np s | None => fok0 s end).
  - intros s r s' Hs (pt & [E Hr]%allocproc_slot_obs & ->)%zoom_Ok_inv.
    assert (Hs' : fok0 (put PT pt s)) by (unfold fok; rewrite put_PT_obs, E; by destruct s).
    destruct r as [i|]; [|done]. split; [done|]. unfold dead_at. rewrite put_PT_obs, E. done.
  - intros [np|]; [|by apply triple_ret]. apply fdead_step; [apply stable_kalloc|]. intros ks.
    apply fdead_step; [stab|]. intros _. destruct (ks =? 0).
    + eapply triple_bind; [exact (fdead_pset _ None np (w_state UNUSED) ltac:(done) ltac:(done))|]. intros []. apply triple_ret. by intros s [? _].
    + do 2 (apply fdead_step; [stab|intros ?]). by apply triple_ret.
Qed.

(** ** fork *)

(** The new process [np] has no descriptor from [i] on. *)
Definition forking (np i : nat) (o : list Z * list (list (option nat) * bool)) : Prop :=
  refs_ok (λ _, 0) (Some np) o ∧ alive_at cur o ∧
  ∃ l, o.2 !! np = Some (l, true) ∧ ∀ k, (i ≤ k < NOFILE)%nat → l !! k = Some None.

Lemma forking_start np s : fdead (λ _, 0) None np s → forking np 0 (obs s).
Proof.
  intros [[[Hc Hf Hh Hcl] Ha] [l Hl]]. split_and!; [split; try done; by intros i l' Hi _; eapply Hcl|done|].
  exists l. split; [done|]. intros k Hk. destruct (Hf _ _ _ Hl) as [Hlen _].
  destruct (lookup_lt_is_Some_2 l k) as [[f|] Hx]; [lia| |done]. by destruct (Hcl np l Hl ltac:(done) k f).
Qed.

Lemma forking_step {A B} np i (m : M kernel A) (k : A → M kernel B) R :
  stable obs m → (∀ a, triple (λ s, forking np i (obs s)) (k a) R) → triple (λ s, forking np i (obs s)) (m ≫= k) R.
Proof. intros Hm Hk. eapply triple_bind; [|exact Hk]. exact (triple_stable obs (forking np i) m Hm). Qed.

Lemma fork_one np i f s R ofs pt : forking np i (obs s) → (i < NOFILE)%nat → (f < length R)%nat →
  refs_ok (shift (λ _, 0) f 1) (Some np) (R, (obs s).2) → (obs s).2 !! np = Some (ofs, true) →
  pt_obs pt = <[np := (<[i := Some f]> ofs, true)]> (obs s).2 → forking np (S i) (R, pt_obs pt).
Proof.
  intros (_ & [lc Hc] & l & Hl & Hn) Hi Hf Hr Ho E. rewrite Hl in Ho. injection Ho as ->.
  assert (Hne : np ≠ cur) by congruence. rewrite E. split_and!.
  - pose proof (refs_ok_fd _ (Some np) R _ np ofs true i None (Some f) Hr Hl (Hn i ltac:(lia))) as Hx.
    eapply refs_ok_ext; [|apply Hx; [by left|by intros g [= <-]]]. intros g. rewrite !fd_delta_at. unfold shift.
    repeat case_decide; (lia || congruence).
  - exists lc. simpl. by rewrite list_lookup_insert_ne.
  - exists (<[i := Some f]> ofs). split; [apply list_lookup_insert_eq; by eapply lookup_lt_Some|].
    intros k Hk. rewrite list_lookup_insert_ne by lia. apply Hn. lia.
Qed.

Lemma forking_files n i np : (i + n = NOFILE)%nat →
  triple (λ s, forking np i (obs s)) (fork_files cur n i np) (λ _ s, forking np NOFILE (obs s)).
Proof.
  revert i. induction n as [|n IH]; intros i Hi; cbn [fork_files].
  { apply triple_ret. intros s. by replace i with NOFILE by lia. }
  apply forking_step; [stab|]. intros fs.
  eapply triple_bind with (Q := λ _ s, forking np (S i) (obs s)); [|intros _; apply IH; lia].
  destruct (mjoin (fs !! i)) as [f|].
  - intros s a s' Hs (g & s1 & E1 & E)%bind_Ok_inv. apply zoom_Ok_inv in E1 as (ft & (-> & r & Hr & Eft)%filedup_obs & ->).
    apply bind_Ok_inv in E as (ofs & s2 & E2 & E3).
    apply zoom_Ok_inv in E2 as (pt2 & (p & Hp & -> & ->)%pget_inv & ->).
    apply zoom_Ok_inv in E3 as (pt3 & E3 & ->). pose proof (set_ofile_obs _ _ _ _ _ _ Hp E3) as E4.
    change (view PT (put PT (view PT (put FT ft s)) (put FT ft s))) with (kn_pt s) in E4.
    change (view PT (put FT ft s)) with (kn_pt s) in Hp. pose proof (pt_obs_lookup _ _ _ Hp) as Hl.
    pose proof Hs as (H1 & _ & l & Hd & _). simpl in Hd. rewrite Hl in Hd. injection Hd as Ed Ed2. rewrite Ed2 in E4.
    eapply (fork_one np i f s (ft_obs ft) (p_ofile p) pt3 Hs ltac:(lia)).
    + rewrite Eft, length_insert. by eapply lookup_lt_Some.
    + rewrite Eft. by apply refs_ok_ref.
    + simpl. rewrite Hl. unfold proc_obs. by rewrite Ed2.
    + exact E4.
  - apply triple_ret. intros s (H1 & H2 & l & Hl & Hn). split_and!; try done. exists l. split; [done|]. intros k Hk. apply Hn. lia.
Qed.

(** The new process starts to run. *)
Lemma forking_runs np s pt a : forking np NOFILE (obs s) → pset np (w_state RUNNABLE) (kn_pt s) = Ok (a, pt) →
  fok0 (put PT pt s).
Proof.
  intros ([Hc Hf Hh Hcl] & [lc Hlc] & l & Hl & _) (p & Hp & _ & E)%pset_obs.
  pose proof (pt_obs_lookup _ _ _ Hp) as Hl'. simpl in Hl. rewrite Hl in Hl'. injection Hl' as El Ed.
  assert (Hne : np ≠ cur) by (simpl in Hlc; congruence).
  assert (Eo : pt_obs pt = <[np := (l, false)]> (pt_obs (kn_pt s))) by (rewrite E; unfold proc_obs; simpl; by rewrite El).
  unfold fok. rewrite put_PT_obs, Eo. simpl in *. split; [split|]; simpl.
  - intros f r Hr. rewrite (Hc f r Hr). pose proof (refs_insert f (pt_obs (kn_pt s)) np l true l false Hl). lia.
  - intros i l' b Hi. destruct (decide (i = np)) as [->|]; [|rewrite list_lookup_insert_ne in Hi by done; by eapply Hf].
    rewrite list_lookup_insert_eq in Hi by (by eapply lookup_lt_Some). injection Hi as <- <-. by eapply Hf.
  - done.
  - intros i l' Hi _. destruct (decide (i = np)) as [->|].
    + by rewrite list_lookup_insert_eq in Hi by (by eapply lookup_lt_Some).
    + rewrite list_lookup_insert_ne in Hi by done. apply (Hcl _ _ Hi). congruence.
  - exists lc. simpl. by rewrite list_lookup_insert_ne.
Qed.

Lemma fok_fork : triple fok0 (fork cur mypid) (λ _, fok0).
Proof.
  unfold fork. eapply triple_bind; [exact fok_allocproc|]. intros [np|]; [|by apply triple_ret].
  apply fdead_step; [apply stable_copyuvm|]. intros pgdir. apply fdead_step; [stab|]. intros _. destruct (pgdir =? 0).
  - do 3 (apply fdead_step; [solve [stab]|intros ?]).
    eapply triple_bind; [exact (fdead_pset _ None np (w_state UNUSED) ltac:(done) ltac:(done))|]. intros []. apply triple_ret. by intros s [? _].
  - eapply triple_pre; [|exact (forking_start np)].
    do 4 (apply forking_step; [solve [stab]|intros ?]).
    eapply triple_bind; [exact (forking_files NOFILE 0 np eq_refl)|]. intros ?. cbv beta.
    do 10 (apply forking_step; [solve [stab]|intros ?]).
    eapply triple_bind with (Q := λ _, fok0); [|intros _; apply fok_stable; stab].
    intros s b s' Hs (pt & E & ->)%zoom_Ok_inv. by eapply forking_runs.
Qed.

(** ** exit *)

(** The descriptors of [cur] below [i] are closed. *)
Definition exiting (i : nat) (o : list Z * list (list (option nat) * bool)) : Prop :=
  refs_ok (λ _, 0) None o ∧ ∃ l, o.2 !! cur = Some (l, false) ∧ ∀ k f, (k < i)%nat → l !! k ≠ Some (Some f).

Lemma exiting_step {A B} i (m : M kernel A) (k : A → M kernel B) R :
  stable obs m → (∀ a, triple (λ s, exiting i (obs s)) (k a) R) → triple (λ s, exiting i (obs s)) (m ≫= k) R.
Proof. intros Hm Hk. eapply triple_bind; [|exact Hk]. exact (triple_stable obs (exiting i) m Hm). Qed.

(** [fileclose] leaves the descriptors alone. *)
Lemma stable_fileclose_fds f : stable (λ s, (obs s).2) (fileclose mypid f).
Proof.
  unfold fileclose. apply stable_bind; [by apply stable_zoom_out|]. intros r. apply (stable_comp obs snd). stab.
Qed.

Lemma exit_one i l f s s1 s2 fs a : exiting i (obs s) → (obs s).2 !! cur = Some (l, false) → l !! i = Some (Some f) →
  fileclose mypid f s = Ok (a, s1) → zoom PT (pget cur p_ofile) s1 = Ok (fs, s2) →
  ∀ s3, zoom PT (pset cur (w_ofile (<[i := None]> fs))) s2 = Ok (tt, s3) → exiting (S i) (obs s3).
Proof.
  intros (Hr & l1 & Hl1 & Hn) Hl Hi E1 E2 s3 E3.
  assert (Hs1 : fok (shift (λ _, 0) f (-1)) None s1).
  { eapply (fok_fileclose (λ _, 0) None f s a s1); [|done]. split; [done|by exists l1]. }
  assert (Ho : (obs s1).2 = (obs s).2) by (apply (stable_fileclose_fds f s a s1 E1)).
  apply zoom_Ok_inv in E2 as (pt2 & (p & Hp & -> & ->)%pget_inv & ->).
  apply zoom_Ok_inv in E3 as (pt3 & E3 & ->). pose proof (set_ofile_obs _ _ _ _ _ _ Hp E3) as E4.
  pose proof (pt_obs_lookup _ _ _ Hp) as Hl'. change (pt_obs (view PT s1)) with (obs s1).2 in Hl', E4.
  rewrite Ho, Hl in Hl'. injection Hl' as El Ed. rewrite <- Ed, <- El, Ho in E4. rewrite put_PT_obs, E4.
  change (obs (put PT (view PT s1) s1)).1 with (obs s1).1.
  rewrite Hl1 in Hl. injection Hl as ->. split.
  - destruct Hs1 as [Hs1 _]. destruct (obs s1) as [R O] eqn:Eo. simpl in Ho. subst O.
    pose proof (refs_ok_fd _ None R _ cur l false i (Some f) None Hs1 Hl1 Hi) as Hx.
    eapply refs_ok_ext; [|apply Hx; [by right|done]].
    intros g. rewrite !fd_delta_at. unfold shift. repeat case_decide; (lia || congruence).
  - exists (<[i := None]> l). split; [apply list_lookup_insert_eq; by eapply lookup_lt_Some|]. intros k g Hk.
    destruct (decide (k = i)) as [->|]; [rewrite list_lookup_insert_eq by (by eapply lookup_lt_Some); done|].
    rewrite list_lookup_insert_ne by done. apply Hn. lia.
Qed.

Lemma exiting_files n i : triple (λ s, exiting i (obs s)) (exit_files cur mypid n i) (λ _ s, exiting (i + n) (obs s)).
Proof.
  revert i. induction n as [|n IH]; intros i; cbn [exit_files].
  { apply triple_ret. intros s. by rewrite Nat.add_0_r. }
  intros s a s' Hs (fs & s1 & E1 & E)%bind_Ok_inv. apply bind_Ok_inv in E as ([] & s2 & E2 & E3).
  rewrite Nat.add_succ_r. apply (IH (S i) s2 a s'); [|done]. clear IH E3.
  apply zoom_Ok_inv in E1 as (pt1 & (p & Hp & -> & ->)%pget_inv & ->).
  change (put PT (view PT s) s) with (put PT (kn_pt s) s) in E2. replace (put PT (kn_pt s) s) with s in E2 by by destruct s.
  pose proof (pt_obs_lookup _ _ _ Hp) as Hl. change (pt_obs (view PT s)) with (obs s).2 in Hl.
  pose proof Hs as (Hr & l & Hl1 & Hn). rewrite Hl1 in Hl. injection Hl as El Ed. rewrite <- El in E2.
  destruct (l !! i) as [[f|]|] eqn:Hi; simpl in E2.
  - apply bind_Ok_inv in E2 as (b & s3 & Ec & E2). apply bind_Ok_inv in E2 as (fs & s4 & Eg & E2).
    by eapply exit_one.
  - injection E2 as <-. split; [done|]. exists l. split; [done|]. intros k g Hk.
    destruct (decide (k = i)) as [->|]; [congruence|]. apply Hn. lia.
  - injection E2 as <-. split; [done|]. exists l. split; [done|]. intros k g Hk.
    destruct (decide (k = i)) as [->|]; [congruence|]. apply Hn. lia.
Qed.

Lemma stable_exit_loop n i : stable pt_obs (exit_loop n i cur).
Proof. revert i. induction n; intros; cbn [exit_loop]; unfold exit_child; stab. Qed.
Hint Resolve stable_exit_loop : stable.

(** The process becomes a zombie. *)
Lemma exit_zombie : triple (λ s, exiting NOFILE (obs s)) (zoom PT (Proc.exit cur)) (λ _, files_ok).
Proof.
  intros s a s' Hs (pt & E & ->)%zoom_Ok_inv. unfold Proc.exit in E. apply bind_Ok_inv in E as ([] & t1 & E1 & E2).
  assert (H2 : pt_obs pt = pt_obs t1) by (eapply (fun m : stable pt_obs (sched cur) => m _ _ _ E2); unfold sched, holding; stab).
  unfold exit_table in E1. apply bind_Ok_inv in E1 as (init & t2 & [= <- <-] & E1). destruct (decide _); [done|].
  assert (Hst : ∀ t, (acquire pt_lk;; par ← pget cur p_parent; wakeup1 (proc_chan par);; exit_loop NPROC 0 cur) (kn_pt s) =
    Ok (tt, t) → pt_obs t = pt_obs (kn_pt s)).
  { intros t. apply (fun m : stable pt_obs _ => m _ _ _). stab. }
  apply bind_Ok_inv in E1 as ([] & t3 & Ea & E1). apply bind_Ok_inv in E1 as (par & t4 & Eb & E1).
  apply bind_Ok_inv in E1 as ([] & t5 & Ec & E1). apply bind_Ok_inv in E1 as ([] & t6 & Ed & E1).
  assert (H6 : pt_obs t6 = (obs s).2).
  { apply Hst. rewrite (bind_Ok _ _ _ _ _ Ea), (bind_Ok _ _ _ _ _ Eb). by rewrite (bind_Ok _ _ _ _ _ Ec). }
  apply pset_obs in E1 as (p & Hp & _ & E1). pose proof (pt_obs_lookup _ _ _ Hp) as Hl.
  destruct Hs as ([Hc Hf Hh Hcl] & l & Hl1 & Hn). rewrite H6, Hl1 in Hl. injection Hl as El Ed'.
  assert (Eo : pt_obs pt = <[cur := (l, true)]> (obs s).2).
  { rewrite H2, E1, H6. unfold proc_obs. simpl. by rewrite El. }
  unfold files_ok. rewrite put_PT_obs, Eo. split; simpl in *; try done.
  - intros f r Hr. rewrite (Hc f r Hr). pose proof (refs_insert f (pt_obs (kn_pt s)) cur l false l true Hl1). lia.
  - intros i l' b Hi. destruct (decide (i = cur)) as [->|]; [|rewrite list_lookup_insert_ne in Hi by done; by eapply Hf].
    rewrite list_lookup_insert_eq in Hi by (by eapply lookup_lt_Some). injection Hi as <- <-. by eapply Hf.
  - intros i l' Hi _ fd f Hfd. destruct (decide (i = cur)) as [->|]; [|rewrite list_lookup_insert_ne in Hi by done; by eapply Hcl].
    rewrite list_lookup_insert_eq in Hi by (by eapply lookup_lt_Some). injection Hi as <-.
    eapply (Hn fd f); [|done]. destruct (Hf _ _ _ Hl1) as [<- _]. by eapply lookup_lt_Some.
Qed.

Lemma fok_exit : triple fok0 (exit_proc cur mypid) (λ _, files_ok).
Proof.
  unfold exit_proc. apply fok_step; [stab|]. intros init. destruct (decide _); [by apply triple_false|].
  eapply triple_bind; [eapply triple_pre; [exact (exiting_files NOFILE 0)|]|].
  - intros s [H1 [l Hl]]. split; [done|]. exists l. split; [done|]. lia.
  - intros ?. cbv beta. do 5 (apply exiting_step; [solve [stab]|intros ?]). exact exit_zombie.
Qed.

(** * Every system call and every trap *)
Lemma fok_returns (m : M kernel Z) : triple fok0 m (λ _, fok0) →
  triple fok0 (returns m) (λ r s, match r with Some _ => fok0 s | None => files_ok s end).
Proof. intros Hm. eapply triple_bind; [exact Hm|]. intros r. by apply triple_ret. Qed.

Hint Resolve stable_sys_read stable_sys_write stable_sys_fstat stable_sys_link stable_sys_unlink stable_sys_mkdir
  stable_sys_mknod stable_sys_chdir stable_sys_exec stable_sys_kill stable_sys_sbrk stable_sys_sleep : stable.

Lemma fok_syscalls v num f : syscalls cur mypid devsw_read devsw_write v num = Some f →
  triple fok0 f (λ r s, match r with Some _ => fok0 s | None => files_ok s end).
Proof.
  unfold syscalls. intros E. repeat match type of E with
    | (match ?x with _ => _ end) = Some _ => destruct x; try discriminate E
    end; injection E as <-;
    first [apply fok_returns; first [exact fok_fork | exact fok_wait | exact fok_sys_pipe | exact fok_sys_dup |
             exact fok_sys_open | exact fok_sys_close |
             apply fok_stable; unfold sys_getpid, sys_uptime, sys_lrur, sys_swapr; stab]
          | eapply triple_bind; [exact fok_exit|]; intros ?; by apply triple_ret].
Qed.

Lemma fok_syscall v : triple fok0 (syscall cur mypid devsw_read devsw_write v)
  (λ r s, if (r : bool) then fok0 s else files_ok s).
Proof.
  unfold syscall, set_eax. apply fok_step; [stab|]. intros tf. destruct (syscalls _ _ _ _ _ _) as [f|] eqn:E.
  - eapply triple_bind; [by eapply fok_syscalls|]. intros [r|]; [|by apply triple_ret].
    apply fok_step; [stab|]. intros _. by apply triple_ret.
  - apply fok_step; [stab|]. intros _. by apply triple_ret.
Qed.

Lemma fok_exit_if_killed u : triple fok0 (exit_if_killed cur mypid u)
  (λ e s, if e is TrapReturn then fok0 s else files_ok s).
Proof.
  unfold exit_if_killed. apply fok_step; [stab|]. intros k. destruct (_ && _); [|by apply triple_ret].
  eapply triple_bind; [exact fok_exit|]. intros []. by apply triple_ret.
Qed.

Lemma fok_exit_end u : triple fok0 (exit_if_killed cur mypid u) (λ _, files_ok).
Proof. eapply triple_weaken; [apply (fok_exit_if_killed u)|done|]. intros [] s Hs; [apply Hs|done|done]. Qed.

(** A process that is alive stays so when it yields. *)
Lemma fok_yield : triple fok0 (zoom PT (yield cur)) (λ _, files_ok).
Proof.
  intros s [] s' [Hf [l Hl]] E. apply zoom_Ok_inv in E as (pt & E & ->). enough (Eo : pt_obs pt = pt_obs (kn_pt s)).
  { unfold files_ok, obs in *. cbn in *. by rewrite Eo. }
  cbn [obs snd] in Hl. unfold pt_obs in Hl. rewrite list_lookup_fmap in Hl.
  destruct (pt_proc (kn_pt s) !! cur) as [p|] eqn:Ep; [|done]. injection Hl as <- Hd.
  unfold yield in E. apply bind_Ok_inv in E as ([] & pt1 & E1 & E). apply bind_Ok_inv in E as ([] & pt2 & E2 & E).
  assert (Es : pt_obs pt = pt_obs pt2) by (eapply (fun m : stable pt_obs (sched cur) => m _ _ _ E); unfold sched, holding; stab).
  rewrite Es. clear Es E.
  assert (pt1 = put pt_lk true (kn_pt s)) as -> by (unfold acquire in E1; cbn in E1; destruct (pt_lock (kn_pt s)); [done|by injection E1]).
  unfold pset in E2. cbn [pt_proc put pt_lk] in E2. rewrite Ep in E2. injection E2 as <-.
  unfold pt_obs. cbn. rewrite list_fmap_insert. apply list_insert_id. rewrite list_lookup_fmap, Ep. cbn. unfold proc_obs. cbn. by rewrite Hd.
Qed.

Section traps.
Variable devintr : irq → M kernel unit.
Hypothesis Hdev : ∀ i, stable obs (devintr i).

Lemma fok_trap v t user : triple fok0 (trap cur mypid devsw_read devsw_write v devintr t user) (λ _, files_ok).
Proof.
  pose proof Hdev as Hd. unfold trap, clock_tick.
  destruct t; try (apply fok_step; [solve [stab; apply Hd]|intros ?];
    eapply triple_bind; [apply fok_exit_if_killed|]; intros []; [|by apply triple_ret..];
    apply fok_step; [solve [stab]|intros st];
    destruct (_ && _); [eapply triple_bind; [exact fok_yield|intros []; by apply triple_ret]|apply fok_exit_end]).
  apply fok_step; [stab|]. intros k. destruct (negb _).
  - eapply triple_bind; [exact fok_exit|]. intros []. by apply triple_ret.
  - eapply triple_bind; [apply fok_syscall|]. intros []; [apply fok_exit_end|by apply triple_ret].
Qed.

(** An open descriptor has a count of at least one. *)
Lemma open_count s i p fd f : files_ok s → pt_proc (kn_pt s) !! i = Some p → p_ofile p !! fd = Some (Some f) →
  ∃ x, ft_file (kn_ft s) !! f = Some x ∧ 1 ≤ fl_ref x.
Proof.
  intros Hf Hp Hfd. assert (Ho : (obs s).2 !! i = Some (proc_obs p)) by (cbn; unfold pt_obs; by rewrite list_lookup_fmap, Hp).
  destruct (ro_files _ _ _ Hf i _ _ Ho) as [_ Hlt]. specialize (Hlt fd f Hfd). cbn in Hlt. unfold ft_obs in Hlt.
  rewrite length_fmap in Hlt. apply lookup_lt_is_Some_2 in Hlt as [x Hx]. exists x. split; [done|].
  assert (Hr : (obs s).1 !! f = Some (fl_ref x)) by (cbn; unfold ft_obs; by rewrite list_lookup_fmap, Hx).
  rewrite (ro_count _ _ _ Hf f _ Hr). enough (1 ≤ refs f (obs s).2)%nat by lia.
  etransitivity; [|apply (refs_lookup f _ _ _ Ho)]. apply (fd_count_lookup f _ fd Hfd).
Qed.

Lemma ref_ops_run ft f x : ft_file ft !! f = Some x → 1 ≤ fl_ref x → ft_lock ft = false →
  (∃ ft', filedup f ft = Ok (f, ft')) ∧ ∃ r ft', fileclose_ref f ft = Ok (r, ft').
Proof.
  destruct ft as [l lk]. cbn. intros Hx Hr ->. assert (Hlt : (f < length l)%nat) by (by eapply lookup_lt_Some).
  assert (Hg : ∀ {T} b (g : file → T) l' y, l' !! f = Some y → fget f g (Ftable l' b) = Ok (g y, Ftable l' b)).
  { intros T b g l' y Hy. unfold fget. cbn. by rewrite Hy. }
  assert (Hs : ∀ b g l' y, l' !! f = Some y → fset f g (Ftable l' b) = Ok (tt, Ftable (<[f := g y]> l') b)).
  { intros b g l' y Hy. unfold fset. cbn. by rewrite Hy. }
  split.
  - unfold filedup. erewrite bind_Ok by reflexivity. erewrite bind_Ok by by apply (Hg _ true fl_ref l x).
    rewrite (proj2 (Z.ltb_ge _ _)) by lia. erewrite bind_Ok by by apply Hs. erewrite bind_Ok by reflexivity. by eexists.
  - unfold fileclose_ref. erewrite bind_Ok by reflexivity. erewrite bind_Ok by by apply (Hg _ true fl_ref l x).
    rewrite (proj2 (Z.ltb_ge _ _)) by lia. erewrite bind_Ok by by apply Hs.
    destruct (0 <? _); [erewrite bind_Ok by reflexivity; by do 2 eexists|].
    erewrite bind_Ok by (apply (Hg _ true id); by apply list_lookup_insert_eq).
    erewrite bind_Ok by (apply Hs; by apply list_lookup_insert_eq).
    erewrite bind_Ok by (apply Hs; apply list_lookup_insert_eq; by rewrite length_insert).
    erewrite bind_Ok by reflexivity. by do 2 eexists.
Qed.

End traps.
End stable_code.

(** * A sample: a process with one open file calls getpid *)
Definition file_proc : proc :=
  w_ofile (Some 0%nat :: replicate 15 None) (w_tf (Tf 11 0 0) (w_ppid 1 (w_state RUNNING proc0))).
Definition file_kernel : kernel :=
  Kernel (kmem_bss (λ _, 0)) lru_bss swap_bss
    (FsState (LogSys (bcache_bss (Disk (λ _ _, []) [])) (Log false 2 30 0 false 1 0 (replicate 30 0)))
      (Superblock 1000 941 200 30 2 32 58) false [])
    (Ptable [file_proc; proc0] false 2 None) (Ftable (x_ref 1 file0 :: replicate 99 file0) false) ∅ 0 false.

Lemma file_kernel_ok : files_ok file_kernel.
Proof.
  assert (Hr : ∀ f, refs f (obs file_kernel).2 = if decide (f = 0%nat) then 1%nat else 0%nat).
  { intros [|f]; [done|]. done. }
  split; [| |done|].
  - intros f r Hf. rewrite Hr. destruct f as [|f]; [by injection Hf as <-|].
    by apply (lookup_replicate 99 0 r f) in Hf as [-> _].
  - intros i l b Hi. destruct i as [|[|i]]; [injection Hi as <- <-|injection Hi as <- <-|done]; (split; [reflexivity|]).
    + intros [|fd] f Hfd; [injection Hfd as <-; simpl; lia|]. by apply (lookup_replicate 15 None (Some f) fd) in Hfd as [? _].
    + intros fd f Hfd. by apply (lookup_replicate 16 None (Some f) fd) in Hfd as [? _].
  - intros i l Hi _ fd f Hfd. destruct i as [|[|i]]; [done|injection Hi as <-|done].
    by apply (lookup_replicate 16 None (Some f) fd) in Hfd as [? _].
Qed.

Definition sample_intr (_ : irq) : M kernel unit := zoom PT (wakeup 5).

Lemma sample_intr_stable i : stable obs (sample_intr i).
Proof. unfold sample_intr. stab. Qed.

