(* ===== verification/Shell.v ===== *)
(** The command parser of the shell (sh.c).

    The line is an array of bytes without the NUL at its end; a [char *] into
    it is an index, and [*ps] is the state of the parser.  An [execcmd] is
    filled in after redirections have been wrapped around it, so the
    redirections of a command are collected in a list and wrapped at the
    end. *)

From Stdlib Require Import ZArith Lia.
From stdpp Require Import base numbers strings option sets list list_numbers.
From S2P Require Import Prelude Mem Block.

(** * Commands *)
Inductive cmd :=
| EXEC (argv : list (nat * nat))
| REDIR (c : cmd) (file efile : nat) (mode fd : Z)
| PIPE (l r : cmd)
| LIST (l r : cmd)
| BACK (c : cmd).

Record redir := Redir { rd_file : nat; rd_efile : nat; rd_mode : Z; rd_fd : Z }.
Definition add_redir (c : cmd) (r : redir) : cmd := REDIR c (rd_file r) (rd_efile r) (rd_mode r) (rd_fd r).
Definition add_redirs (c : cmd) (l : list redir) : cmd := foldl add_redir c l.

Abbreviation MAXARGS := 10%nat.

(** [strchr] of ulib.c, as a test. *)
Fixpoint strchr (s : list Z) (c : Z) : bool :=
  match s with [] => false | x :: s => (x =? c) || strchr s c end.

Definition whitespace : list Z := [32; 9; 13; 10; 11].
Definition symbols : list Z := [60; 124; 62; 38; 59; 40; 41].

Section parser.
Variable buf : list Z.

(** [*s] and the end of the line. *)
Definition ch (s : nat) : Z := default 0 (buf !! s).
Definition es : nat := length buf.

(** [while(s < es && strchr(whitespace, *s)) s++;] *)
Fixpoint skip_ws (n s : nat) : nat :=
  match n with
  | O => s
  | S n => if (s <? es)%nat && strchr whitespace (ch s) then skip_ws n (S s) else s
  end.
(** [while(s < es && !strchr(whitespace, *s) && !strchr(symbols, *s)) s++;] *)
Fixpoint skip_word (n s : nat) : nat :=
  match n with
  | O => s
  | S n =>
      if (s <? es)%nat && negb (strchr whitespace (ch s)) && negb (strchr symbols (ch s)) then skip_word n (S s)
      else s
  end.

(** The token at [s] (after white space), and where it ends. *)
Definition token (s : nat) : Z * nat :=
  let c := ch s in
  if c =? 0 then (0, s)
  else if (c =? 124) || (c =? 40) || (c =? 41) || (c =? 59) || (c =? 38) || (c =? 60) then (c, S s)
  else if c =? 62 then if ch (S s) =? 62 then (43, S (S s)) else (c, S s)
  else (97, skip_word es s).

(** The token, [*q] and [*eq]. *)
Definition gettoken : M nat (Z * nat * nat) :=
  s ← mget id;
  let q := skip_ws es s in
  let '(ret, eq) := token q in
  mmod (λ _, skip_ws es eq);;
  mret (ret, q, eq).

Definition peek (toks : list Z) : M nat bool :=
  s ← mget id;
  let s := skip_ws es s in
  mmod (λ _, s);;
  mret (negb (ch s =? 0) && strchr toks (ch s)).

Fixpoint parseredirs (fuel : nat) : M nat (list redir) :=
  match fuel with
  | O => mnofuel
  | S fuel =>
      b ← peek [60; 62];
      if (b : bool) then
        '(tok, _, _) ← gettoken;
        '(w, q, eq) ← gettoken;
        if negb (w =? 97) then mpanic "missing file for redirection"
        else
          let r := if tok =? 60 then Redir q eq 0 0 else Redir q eq 0x201 1 in
          rest ← parseredirs fuel;
          mret (r :: rest)
      else mret []
  end.

(** The loop of [parseexec] after [argc] arguments: the others, and the
    redirections. *)
Fixpoint parseargs (fuel argc : nat) : M nat (list (nat * nat) * list redir) :=
  match fuel with
  | O => mnofuel
  | S fuel =>
      b ← peek [124; 41; 38; 59];
      if (b : bool) then mret ([], [])
      else
        '(tok, q, eq) ← gettoken;
        if tok =? 0 then mret ([], [])
        else if negb (tok =? 97) then mpanic "syntax"
        else if (MAXARGS <=? S argc)%nat then mpanic "too many args"
        else
          rs ← parseredirs (S es);
          '(args, rs') ← parseargs fuel (S argc);
          mret ((q, eq) :: args, rs ++ rs')
  end.

(** [while(peek(ps, es, "&")){ gettoken(..); cmd = backcmd(cmd); }] *)
Fixpoint parseback (fuel : nat) (c : cmd) : M nat cmd :=
  match fuel with
  | O => mnofuel
  | S fuel => b ← peek [38]; if (b : bool) then gettoken;; parseback fuel (BACK c) else mret c
  end.

Fixpoint parseline (fuel : nat) : M nat cmd :=
  match fuel with
  | O => mnofuel
  | S fuel =>
      c ← parsepipe fuel;
      c ← parseback (S es) c;
      b ← peek [59];
      if (b : bool) then gettoken;; r ← parseline fuel; mret (LIST c r) else mret c
  end
with parsepipe (fuel : nat) : M nat cmd :=
  match fuel with
  | O => mnofuel
  | S fuel =>
      c ← parseexec fuel;
      b ← peek [124];
      if (b : bool) then gettoken;; r ← parsepipe fuel; mret (PIPE c r) else mret c
  end
with parseexec (fuel : nat) : M nat cmd :=
  match fuel with
  | O => mnofuel
  | S fuel =>
      b ← peek [40];
      if (b : bool) then parseblock fuel
      else
        rs ← parseredirs (S es);
        '(args, rs') ← parseargs (S es) 0;
        mret (add_redirs (EXEC args) (rs ++ rs'))
  end
with parseblock (fuel : nat) : M nat cmd :=
  match fuel with
  | O => mnofuel
  | S fuel =>
      b ← peek [40];
      if negb (b : bool) then mpanic "parseblock"
      else
        gettoken;;
        c ← parseline fuel;
        b ← peek [41];
        if negb (b : bool) then mpanic "syntax - missing )"
        else
          gettoken;;
          rs ← parseredirs (S es);
          mret (add_redirs c rs)
  end.

(** [nulterminate]: the ends of all strings become NUL. *)
Fixpoint nulterminate (c : cmd) (b : list Z) : list Z :=
  match c with
  | EXEC argv => foldl (λ b '(_, e), <[e := 0]> b) b argv
  | REDIR c _ efile _ _ => <[efile := 0]> (nulterminate c b)
  | PIPE l r | LIST l r => nulterminate r (nulterminate l b)
  | BACK c => nulterminate c b
  end.

(** The calls nest at most four deep per byte. *)
Definition parse_fuel : nat := 4 * es + 4.

(** The command and the line, with its NUL, in which its strings end. *)
Definition parsecmd : res (cmd * list Z) :=
  match (c ← parseline parse_fuel; peek [];; mret c) 0%nat with
  | Ok (c, s) => if (s =? es)%nat then Ok (c, nulterminate c (buf ++ [0])) else Panic "syntax"
  | Panic e => Panic e
  | Fault => Fault
  | Blocked => Blocked
  | NoFuel => NoFuel
  end.
End parser.

(** * The scanner *)
#[global] Arguments whitespace : simpl never.
#[global] Arguments symbols : simpl never.
#[global] Arguments strchr : simpl never.

Section scan.
Variable buf : list Z.
Abbreviation ch := (ch buf).
Abbreviation es := (es buf).

(** The parser runs: it returns with [P], or the shell panics. *)
Definition runs {A} (P : A → nat → Prop) (m : M nat A) (s : nat) : Prop :=
  match m s with Ok (a, s') => P a s' | Panic _ => True | _ => False end.

Lemma runs_bind {A B} (P : A → nat → Prop) (Q : B → nat → Prop) (m : M nat A) (k : A → M nat B) s :
  runs P m s → (∀ a s', P a s' → runs Q (k a) s') → runs Q (m ≫= k) s.
Proof. unfold runs, mbind, M_bind. intros Hm Hk. destruct (m s) as [[a s']| | | |]; try done. by apply Hk. Qed.

Lemma runs_weaken {A} (P Q : A → nat → Prop) (m : M nat A) s :
  runs P m s → (∀ a s', P a s' → Q a s') → runs Q m s.
Proof. unfold runs. intros Hm HPQ. destruct (m s) as [[a s']| | | |]; try done. by apply HPQ. Qed.

Lemma skip_ws_range n s : (s ≤ es)%nat → (s ≤ skip_ws buf n s ≤ es)%nat.
Proof.
  revert s. induction n as [|n IH]; intros s Hs; cbn [skip_ws]; [lia|].
  destruct (Nat.ltb_spec s es); simpl; [|lia]. destruct (strchr whitespace (ch s)); [|lia]. specialize (IH (S s) ltac:(lia)). lia.
Qed.

Lemma skip_word_range n s : (s ≤ es)%nat → (s ≤ skip_word buf n s ≤ es)%nat.
Proof.
  revert s. induction n as [|n IH]; intros s Hs; cbn [skip_word]; [lia|].
  destruct (Nat.ltb_spec s es); simpl; [|lia]. destruct (_ && _); [|lia]. specialize (IH (S s) ltac:(lia)). lia.
Qed.

Lemma ch_end s : ch s ≠ 0 → (s < es)%nat.
Proof.
  unfold ch, es. intros H. destruct (buf !! s) eqn:E; [by eapply lookup_lt_Some|]. by simpl in H.
Qed.

(** A character of a word. *)
Definition wordc (c : Z) : Prop := strchr whitespace c = false ∧ strchr symbols c = false ∧ c ≠ 0.

(** A word of the line, up to where it ends. *)
Definition word_at (q e : nat) : Prop :=
  (q < e ≤ es)%nat ∧ (∀ i, (q ≤ i < e)%nat → wordc (ch i)) ∧ ¬ wordc (ch e).

Lemma symbols_cases c : strchr symbols c = false ↔
  c ≠ 60 ∧ c ≠ 124 ∧ c ≠ 62 ∧ c ≠ 38 ∧ c ≠ 59 ∧ c ≠ 40 ∧ c ≠ 41.
Proof.
  change (strchr symbols c) with ((60 =? c) || ((124 =? c) || ((62 =? c) || ((38 =? c) || ((59 =? c) || ((40 =? c) ||
    ((41 =? c) || false))))))).
  rewrite !orb_false_iff, !Z.eqb_neq. split; intros; split_and!; (done || lia).
Qed.

Definition nul_free : Prop := ∀ i, (i < es)%nat → ch i ≠ 0.

Lemma skip_word_spec n s : nul_free → (es - s ≤ n)%nat → (s ≤ es)%nat →
  (∀ i, (s ≤ i < skip_word buf n s)%nat → wordc (ch i)) ∧ ¬ wordc (ch (skip_word buf n s)).
Proof.
  intros Hnul. assert (Hend : ¬ wordc (ch es)).
  { unfold ch. rewrite lookup_ge_None_2 by (unfold es; lia). by intros (_ & _ & ?). }
  revert s. induction n as [|n IH]; intros s Hn Hs; cbn [skip_word].
  { replace s with es by lia. split; [lia|done]. }
  destruct (Nat.ltb_spec s es); simpl; [|replace s with es by lia; split; [lia|done]].
  destruct (strchr whitespace (ch s)) eqn:E1; simpl; [split; [lia|]; by intros [? _]; congruence|].
  destruct (strchr symbols (ch s)) eqn:E2; simpl; [split; [lia|]; by intros (_ & ? & _); congruence|].
  destruct (IH (S s)) as [Hw He]; [lia|lia|]. split; [|done]. intros i Hi.
  destruct (decide (i = s)) as [->|]; [|apply Hw; lia]. split_and!; try done. by apply Hnul.
Qed.

Lemma skip_ws_stop n s : (es - s ≤ n)%nat → (s ≤ es)%nat →
  skip_ws buf n s = es ∨ strchr whitespace (ch (skip_ws buf n s)) = false.
Proof.
  revert s. induction n as [|n IH]; intros s Hn Hs; cbn [skip_ws]; [left; lia|].
  destruct (Nat.ltb_spec s es); simpl; [|left; lia]. destruct (strchr whitespace (ch s)) eqn:E; [apply IH; lia|by right].
Qed.

(** What [gettoken] promises about a token between [q] and [e]. *)
Definition tok_ok (t : Z) (q e : nat) : Prop :=
  (q ≤ e ≤ es)%nat ∧ (t = 97 → word_at q e) ∧ (t ≠ 0 → (q < e)%nat).

Lemma token_spec q t e : nul_free → (q ≤ es)%nat → (q = es ∨ strchr whitespace (ch q) = false) →
  token buf q = (t, e) → tok_ok t q e.
Proof.
  intros Hnul Hq Hws. unfold token. fold (Shell.ch buf q). destruct (Z.eqb_spec (ch q) 0) as [E0|E0].
  { intros [= <- <-]. split_and!; (done || lia). }
  pose proof (ch_end q E0). destruct (_ || _) eqn:Es.
  { intros [= <- <-]. split_and!; lia. }
  destruct (Z.eqb_spec (ch q) 62) as [E62|E62].
  { destruct (Z.eqb_spec (Shell.ch buf (S q)) 62) as [E|E]; intros [= <- <-].
    - assert (S q < es)%nat by (apply ch_end; rewrite E; done). split_and!; (done || lia).
    - split_and!; lia. }
  intros [= <- <-]. pose proof (skip_word_range es q Hq) as Hr.
  destruct (skip_word_spec es q Hnul ltac:(lia) Hq) as [Hw He].
  assert (Hc : wordc (ch q)).
  { split_and!; try done; [by destruct Hws; [lia|]|]. apply symbols_cases.
    rewrite !orb_false_iff, !Z.eqb_neq in Es. split_and!; naive_solver. }
  assert (q < skip_word buf es q)%nat.
  { destruct (decide (skip_word buf es q = q)) as [E|]; [|lia]. by rewrite E in He. }
  split_and!; try lia. intros _. split_and!; (done || lia).
Qed.

Lemma gettoken_runs s : nul_free → (s ≤ es)%nat →
  runs (λ '(t, q, e) s', tok_ok t q e ∧ (s ≤ q)%nat ∧ (e ≤ s' ≤ es)%nat) (gettoken buf) s.
Proof.
  intros Hnul Hs. unfold runs, gettoken. mred. simpl.
  pose proof (skip_ws_range es s Hs). pose proof (skip_ws_stop es s ltac:(lia) Hs) as Hst. fold es.
  destruct (token buf (skip_ws buf es s)) as [t e] eqn:E. pose proof (token_spec (skip_ws buf es s) t e Hnul ltac:(lia) Hst E) as Ht.
  pose proof Ht as (He & _). pose proof (skip_ws_range es e ltac:(lia)). split_and!; (done || lia).
Qed.

(** There is a token at [s]. *)
Definition at_token (s : nat) : Prop := (s < es)%nat ∧ strchr whitespace (ch s) = false.

Lemma peek_runs toks s : (s ≤ es)%nat → runs (λ b s', (s ≤ s' ≤ es)%nat ∧ (b = true → at_token s')) (peek buf toks) s.
Proof.
  intros Hs. unfold runs, peek. mred. simpl. fold es. pose proof (skip_ws_range es s Hs). split; [lia|].
  intros [E1 E2]%andb_true_iff. assert (Hlt : (skip_ws buf es s < es)%nat).
  { apply ch_end. by apply negb_true_iff, Z.eqb_neq in E1. }
  split; [done|]. destruct (skip_ws_stop es s) as [E|E]; [lia|lia|lia|done].
Qed.

(** * The parser *)
(** The two kinds of redirection: for reading to descriptor 0, and for
    writing, O_WRONLY|O_CREATE, to descriptor 1. *)
Definition std_redir (m fd : Z) : Prop := m = 0 ∧ fd = 0 ∨ m = 0x201 ∧ fd = 1.

(** The strings of a command lie on words of the line, and [argv] has room for
    the null that ends it. *)
Fixpoint cmd_ok (c : cmd) : Prop :=
  match c with
  | EXEC argv => (length argv < MAXARGS)%nat ∧ Forall (λ a, word_at a.1 a.2) argv
  | REDIR c f e m fd => cmd_ok c ∧ word_at f e ∧ std_redir m fd
  | PIPE l r | LIST l r => cmd_ok l ∧ cmd_ok r
  | BACK c => cmd_ok c
  end.

Definition redir_ok (r : redir) : Prop := word_at (rd_file r) (rd_efile r) ∧ std_redir (rd_mode r) (rd_fd r).

Lemma add_redirs_ok c rs : cmd_ok c → Forall redir_ok rs → cmd_ok (add_redirs c rs).
Proof.
  intros Hc Hrs. revert c Hc. unfold add_redirs. induction Hrs as [|r rs Hr _ IH]; intros c Hc; simpl; [done|].
  by apply IH.
Qed.

(** The parser goes on from [s] within the line. *)
Abbreviation forth s s' := ((s ≤ s')%nat ∧ (s' ≤ es)%nat).

Lemma runs_ret {A} (P : A → nat → Prop) a s : P a s → runs P (mret a) s.
Proof. done. Qed.

Lemma runs_panic {A} (P : A → nat → Prop) e s : runs P (mpanic e) s.
Proof. done. Qed.
#[local] Hint Resolve runs_panic : core.

Section grammar.
Hypothesis Hnul : nul_free.

Lemma runs_peek {B} toks (k : bool → M nat B) (Q : B → nat → Prop) s : (s ≤ es)%nat →
  (∀ b s', forth s s' → (b = true → at_token s') → runs Q (k b) s') → runs Q (peek buf toks ≫= k) s.
Proof. intros Hs Hk. eapply runs_bind; [by apply peek_runs|]. intros b s' [Hr Hb]. apply Hk; [lia|done]. Qed.

Lemma runs_gettoken {B} (k : Z * nat * nat → M nat B) (Q : B → nat → Prop) s : (s ≤ es)%nat →
  (∀ t q e s', tok_ok t q e → (s ≤ q)%nat → (e ≤ s')%nat → forth s s' → runs Q (k (t, q, e)) s') →
  runs Q (gettoken buf ≫= k) s.
Proof.
  intros Hs Hk. eapply runs_bind; [by apply gettoken_runs|]. intros [[t q] e] s' (Ht & Hq & He).
  apply Hk; try done; [lia|]. destruct Ht. lia.
Qed.

(** The token that [peek] found is consumed. *)
Lemma runs_gettoken_at {B} (k : Z * nat * nat → M nat B) (Q : B → nat → Prop) s : at_token s →
  (∀ x s', forth (S s) s' → runs Q (k x) s') → runs Q (gettoken buf ≫= k) s.
Proof.
  intros [Hs Hw] Hk. assert (Hq : skip_ws buf es s = s).
  { destruct es as [|n]; [lia|]. cbn [skip_ws]. by rewrite Hw, andb_false_r. }
  eapply runs_bind with (P := λ _ s', forth (S s) s'); [|intros; by apply Hk].
  unfold runs, gettoken. mred. simpl. fold es. rewrite Hq. destruct (token buf s) as [t e] eqn:E.
  assert (Ht : tok_ok t s e) by (apply token_spec; [done|lia|by right|done]).
  assert (Hne : t ≠ 0).
  { pose proof (Hnul s Hs). unfold token in E. destruct (Z.eqb_spec (ch s) 0); [done|].
    repeat (case_match; simplify_eq; try done). }
  destruct Ht as (He & _ & Hlt). specialize (Hlt Hne). pose proof (skip_ws_range es e ltac:(lia)). lia.
Qed.

Lemma parseredirs_runs fuel s : (s ≤ es)%nat → (es - s < fuel)%nat →
  runs (λ rs s', forth s s' ∧ Forall redir_ok rs) (parseredirs buf fuel) s.
Proof.
  revert s. induction fuel as [|fuel IH]; intros s Hs Hf; [lia|]. cbn [parseredirs].
  apply runs_peek; [done|]. intros [] s1 H1 Ht; [|apply runs_ret; split; [lia|done]].
  apply runs_gettoken_at; [by apply Ht|]. intros [[t q'] e'] s2 H2.
  apply runs_gettoken; [lia|]. intros w q e s3 Hw Hq He H3. destruct (Z.eqb_spec w 97) as [->|]; [|done]. simpl.
  eapply runs_bind; [apply IH; lia|]. intros rs s4 [H4 Hrs]. apply runs_ret. split; [lia|]. constructor; [|done].
  unfold redir_ok. assert (word_at q e) by (by apply Hw). unfold std_redir. destruct (t =? 60); cbn; auto.
Qed.

Lemma parseargs_runs fuel argc s : (s ≤ es)%nat → (es - s < fuel)%nat → (argc < MAXARGS)%nat →
  runs (λ r s', forth s s' ∧ (length r.1 + argc < MAXARGS)%nat ∧ Forall (λ a, word_at a.1 a.2) r.1 ∧
    Forall redir_ok r.2) (parseargs buf fuel argc) s.
Proof.
  revert argc s. induction fuel as [|fuel IH]; intros argc s Hs Hf Ha; [lia|]. cbn [parseargs].
  apply runs_peek; [done|]. intros [] s1 H1 _; [apply runs_ret; split_and!; (done || lia)|].
  apply runs_gettoken; [lia|]. intros t q e s2 Ht Hq He H2.
  destruct (Z.eqb_spec t 0); [apply runs_ret; split_and!; (done || lia)|].
  destruct (Z.eqb_spec t 97) as [->|]; [|done]. cbn [negb].
  assert (Hw : word_at q e) by (by apply Ht). pose proof Hw as [Hqe _].
  destruct (Nat.leb_spec MAXARGS (S argc)); [apply runs_panic|].
  eapply runs_bind; [apply parseredirs_runs; lia|]. intros rs s3 [H3 Hrs].
  eapply runs_bind; [apply (IH (S argc)); lia|]. intros [args rs'] s4 (H4 & Hl & Hargs & Hrs'). simpl in *.
  apply runs_ret. split_and!; simpl; try lia; [by constructor|by apply Forall_app].
Qed.

Lemma parseback_runs fuel c s : (s ≤ es)%nat → (es - s < fuel)%nat → cmd_ok c →
  runs (λ c s', forth s s' ∧ cmd_ok c) (parseback buf fuel c) s.
Proof.
  revert c s. induction fuel as [|fuel IH]; intros c s Hs Hf Hc; [lia|]. cbn [parseback].
  apply runs_peek; [done|]. intros [] s1 H1 Ht; [|apply runs_ret; split; [lia|done]].
  apply runs_gettoken_at; [by apply Ht|]. intros _ s2 H2.
  eapply runs_weaken; [apply (IH (BACK c)); (done || lia)|]. intros c' s' [? ?]. split; [lia|done].
Qed.

(** The four mutually recursive procedures, together: each runs with enough
    fuel for what is left of the line. *)
Lemma grammar_runs fuel :
  (∀ s, (s ≤ es)%nat → (4 * (es - s) + 4 ≤ fuel)%nat →
    runs (λ c s', forth s s' ∧ cmd_ok c) (parseline buf fuel) s) ∧
  (∀ s, (s ≤ es)%nat → (4 * (es - s) + 3 ≤ fuel)%nat →
    runs (λ c s', forth s s' ∧ cmd_ok c) (parsepipe buf fuel) s) ∧
  (∀ s, (s ≤ es)%nat → (4 * (es - s) + 2 ≤ fuel)%nat →
    runs (λ c s', forth s s' ∧ cmd_ok c) (parseexec buf fuel) s) ∧
  (∀ s, (s ≤ es)%nat → (4 * (es - s) + 1 ≤ fuel)%nat →
    runs (λ c s', forth s s' ∧ cmd_ok c) (parseblock buf fuel) s).
Proof.
  induction fuel as [|fuel (IHline & IHpipe & IHexec & IHblock)]; [split_and!; intros; lia|]. split_and!.
  - intros s Hs Hf. cbn [parseline]. eapply runs_bind; [apply IHpipe; lia|]. intros c s1 [H1 Hc].
    eapply runs_bind; [apply parseback_runs; (done || lia)|]. clear c Hc. intros c s2 [H2 Hc].
    apply runs_peek; [lia|]. intros [] s3 H3 Ht; [|apply runs_ret; split; [lia|done]].
    apply runs_gettoken_at; [by apply Ht|]. intros _ s4 H4. specialize (Ht eq_refl). destruct Ht.
    eapply runs_bind; [apply IHline; lia|]. intros r s5 [H5 Hr]. apply runs_ret. split; [lia|done].
  - intros s Hs Hf. cbn [parsepipe]. eapply runs_bind; [apply IHexec; lia|]. intros c s1 [H1 Hc].
    apply runs_peek; [lia|]. intros [] s3 H3 Ht; [|apply runs_ret; split; [lia|done]].
    apply runs_gettoken_at; [by apply Ht|]. intros _ s4 H4. specialize (Ht eq_refl). destruct Ht.
    eapply runs_bind; [apply IHpipe; lia|]. intros r s5 [H5 Hr]. apply runs_ret. split; [lia|done].
  - intros s Hs Hf. cbn [parseexec]. apply runs_peek; [lia|]. intros [] s1 H1 Ht.
    { eapply runs_weaken; [apply IHblock; lia|]. intros c s' [? ?]. split; [lia|done]. }
    eapply runs_bind; [apply parseredirs_runs; lia|]. intros rs s3 [H3 Hrs].
    eapply runs_bind; [apply parseargs_runs; lia|]. intros [args rs'] s4 (H4 & Hl & Hargs & Hrs'). simpl in *.
    apply runs_ret. split; [lia|]. apply add_redirs_ok; [split; [lia|done]|by apply Forall_app].
  - intros s Hs Hf. cbn [parseblock]. apply runs_peek; [lia|]. intros [] s1 H1 Ht; [|done]. cbn [negb].
    apply runs_gettoken_at; [by apply Ht|]. intros _ s4 H4. specialize (Ht eq_refl). destruct Ht.
    eapply runs_bind; [apply IHline; lia|]. intros c s5 [H5 Hc].
    apply runs_peek; [lia|]. intros [] s6 H6 Ht; [|done]. cbn [negb].
    apply runs_gettoken_at; [by apply Ht|]. intros _ s7 H7.
    eapply runs_bind; [apply parseredirs_runs; lia|]. intros rs s8 [H8 Hrs]. apply runs_ret.
    split; [lia|by apply add_redirs_ok].
Qed.
End grammar.

Lemma parsecmd_ok : nul_free →
  match parsecmd buf with
  | Ok (c, b) => cmd_ok c ∧ b = nulterminate c (buf ++ [0])
  | Panic _ => True
  | _ => False
  end.
Proof.
  intros Hnul. assert (Hr : runs (λ c _, cmd_ok c) (c ← parseline buf (parse_fuel buf); peek buf [];; mret c) 0).
  { eapply runs_bind; [apply grammar_runs; [done|lia|unfold parse_fuel; fold es; lia]|]. intros c s [Hs Hc].
    apply runs_peek; [lia|]. intros b s' _ _. by apply runs_ret. }
  unfold runs, parsecmd in *. match type of Hr with match ?r with _ => _ end => destruct r as [[c s]| | | |] end; try done.
  by destruct (s =? _)%nat.
Qed.

(** * The strings of a command *)
Fixpoint strings (c : cmd) : list (nat * nat) :=
  match c with
  | EXEC argv => argv
  | REDIR c f e _ _ => strings c ++ [(f, e)]
  | PIPE l r | LIST l r => strings l ++ strings r
  | BACK c => strings c
  end.

Lemma strings_ok c : cmd_ok c → Forall (λ a, word_at a.1 a.2) (strings c).
Proof.
  induction c as [argv|c IH f e m fd|l IHl r IHr|l IHl r IHr|c IH]; simpl; intros H.
  - apply H.
  - apply Forall_app. destruct H as (Hc & Hw & _). split; [by apply IH|by constructor].
  - apply Forall_app. destruct H as [Hl Hr]. by split; [apply IHl|apply IHr].
  - apply Forall_app. destruct H as [Hl Hr]. by split; [apply IHl|apply IHr].
  - by apply IH.
Qed.

(** [nulterminate] writes at the ends of the strings, in order. *)
Lemma nulterminate_strings c b : nulterminate c b = foldl (λ b (a : nat * nat), <[a.2 := 0]> b) b (strings c).
Proof.
  revert b. induction c as [argv|c IH f e m fd|l IHl r IHr|l IHl r IHr|c IH]; intros b; simpl; try done.
  - revert b. induction argv as [|[q e] argv IH]; intros b; simpl; [done|]. apply IH.
  - by rewrite foldl_app, IH.
  - by rewrite foldl_app, IHl, IHr.
  - by rewrite foldl_app, IHl, IHr.
Qed.

Lemma nul_writes l (b : list Z) i : (i < length b)%nat →
  foldl (λ b (a : nat * nat), <[a.2 := 0]> b) b l !! i = if decide (i ∈ l.*2) then Some 0 else b !! i.
Proof.
  revert b. induction l as [|[q e] l IH]; intros b Hi; simpl; [done|].
  rewrite IH by (by rewrite length_insert). destruct (decide (i ∈ l.*2)).
  - rewrite decide_True; [done|set_solver].
  - destruct (decide (i = e)) as [->|].
    + rewrite decide_True by set_solver. by apply list_lookup_insert_eq.
    + rewrite decide_False by set_solver. by apply list_lookup_insert_ne.
Qed.

Lemma nulterminate_lookup c i : (i ≤ es)%nat →
  nulterminate c (buf ++ [0]) !! i = if decide (i ∈ (strings c).*2) then Some 0 else (buf ++ [0]) !! i.
Proof. intros Hi. rewrite nulterminate_strings. apply nul_writes. rewrite length_app. simpl. unfold Shell.es in Hi. lia. Qed.

(** A word of the line is a string of the line whose ends of words are NUL. *)
Lemma cstr_word c q e : cmd_ok c → (q, e) ∈ strings c →
  cstr (drop q (nulterminate c (buf ++ [0]))) = take (e - q) (drop q buf).
Proof.
  intros Hc Hin. pose proof (strings_ok c Hc) as Hok. rewrite Forall_forall in Hok.
  destruct (Hok _ Hin) as (Hqe & Hw & _). simpl in Hqe, Hw. set (b := nulterminate c (buf ++ [0])).
  assert (Hin' : ∀ i, (q ≤ i < e)%nat → b !! i = buf !! i).
  { intros i Hi. unfold b. rewrite nulterminate_lookup by lia. rewrite decide_False, lookup_app_l; [done| |].
    - unfold Shell.es in Hqe. lia.
    - intros ([q' e'] & -> & Hx)%list_elem_of_fmap. destruct (Hok _ Hx) as (_ & _ & He). by apply He, Hw. }
  assert (He : b !! e = Some 0).
  { unfold b. rewrite nulterminate_lookup by lia. rewrite decide_True; [done|]. apply list_elem_of_fmap.
    by exists (q, e). }
  assert (Hd : drop q b = take (e - q) (drop q buf) ++ 0 :: drop (S e) b).
  { apply list_eq. intros j. rewrite lookup_drop. destruct (decide (j < e - q)%nat).
    - rewrite lookup_app_l by (rewrite length_take, length_drop; unfold Shell.es in Hqe; lia).
      rewrite lookup_take_lt by lia. rewrite lookup_drop. apply Hin'. lia.
    - assert (Hl : length (take (e - q) (drop q buf)) = (e - q)%nat).
      { rewrite length_take, length_drop. unfold Shell.es in Hqe. lia. }
      rewrite lookup_app_r by lia. rewrite Hl. destruct (decide (j = e - q)%nat) as [->|].
      + rewrite Nat.sub_diag. simpl. by replace (q + (e - q))%nat with e by lia.
      + replace (j - (e - q))%nat with (S (q + j - S e))%nat by lia. simpl. rewrite lookup_drop. f_equal. lia. }
  rewrite Hd. apply cstr_app_nul. apply Forall_lookup. intros j x Hj.
  pose proof (lookup_lt_Some _ _ _ Hj) as Hlt. rewrite length_take, length_drop in Hlt.
  rewrite lookup_take_lt in Hj by lia. rewrite lookup_drop in Hj. destruct (Hw (q + j)%nat) as (_ & _ & H); [lia|].
  unfold Shell.ch in H. by rewrite Hj in H.
Qed.
End scan.

Lemma nul_free_Forall buf : Forall (λ c, c ≠ 0) buf → nul_free buf.
Proof.
  intros H i Hi. unfold ch. destruct (buf !! i) eqn:E; [by eapply (proj1 (Forall_lookup _ _) H)|].
  apply lookup_ge_None in E. unfold es in Hi. lia.
Qed.

(** C28. The parser of the shell terminates on every line: with the fuel of
    four calls per byte that [parsecmd] is given, it returns a command or ends
    in one of the shell's panics, and never runs off the line. *)
Theorem parsecmd_terminates buf : Forall (λ c, c ≠ 0) buf →
  (∃ c b, parsecmd buf = Ok (c, b)) ∨ (∃ msg, parsecmd buf = Panic msg).
Proof.
  intros H. pose proof (parsecmd_ok buf (nul_free_Forall _ H)) as Hp. destruct (parsecmd buf) as [[c b]|msg| | |]; eauto; done.
Qed.

(** "ls >a | (wc; x) &", which is parsed, and "(ls", which is not. *)
Definition sample_line : list Z := [108; 115; 32; 62; 97; 32; 124; 32; 40; 119; 99; 59; 32; 120; 41; 32; 38].

Lemma parsecmd_terminates_witness :
  ((∃ c b, parsecmd sample_line = Ok (c, b)) ∨ (∃ msg, parsecmd sample_line = Panic msg)) ∧
  parsecmd [40; 108; 115] = Panic "syntax - missing )".
Proof.
  split; [|vm_compute; reflexivity].
  apply parsecmd_terminates. unfold sample_line. repeat (constructor; [lia|]). constructor.
Defined.

(** The strings that the parser hands to the commands are the words of
    the line: in the buffer that [nulterminate] has written, the C string at
    each argument and each file name is the word that was scanned there, and
    is not empty.  No NUL is written inside another string. *)
Lemma parsecmd_strings buf c b q e : Forall (λ x, x ≠ 0) buf → parsecmd buf = Ok (c, b) → (q, e) ∈ strings c →
  cstr (drop q b) = take (e - q) (drop q buf) ∧ cstr (drop q b) ≠ [] ∧ Forall (wordc) (cstr (drop q b)).
Proof.
  intros H E Hin. pose proof (parsecmd_ok buf (nul_free_Forall _ H)) as Hp. rewrite E in Hp. destruct Hp as [Hc ->].
  rewrite (cstr_word buf c q e Hc Hin). pose proof (strings_ok buf c Hc) as Hok. rewrite Forall_forall in Hok.
  destruct (Hok _ Hin) as (Hqe & Hw & _). simpl in Hqe, Hw. unfold es in Hqe. split_and!; [done| |].
  - intros E0%(f_equal length). rewrite length_take, length_drop in E0. simpl in E0. lia.
  - apply Forall_lookup. intros j x Hj. pose proof (lookup_lt_Some _ _ _ Hj) as Hlt.
    rewrite length_take, length_drop in Hlt. rewrite lookup_take_lt in Hj by lia. rewrite lookup_drop in Hj.
    specialize (Hw (q + j)%nat ltac:(lia)). unfold ch in Hw. by rewrite Hj in Hw.
Qed.

Definition sample_cmd : cmd :=
  BACK (PIPE (REDIR (EXEC [(0, 2)%nat]) 4 5 0x201 1) (LIST (EXEC [(9, 11)%nat]) (EXEC [(13, 14)%nat]))).
Definition sample_buf : list Z := [108; 115; 0; 62; 97; 0; 124; 32; 40; 119; 99; 0; 32; 120; 0; 32; 38; 0].


(** * Printing *)
(** A command with its words: what a line means. *)
Inductive scmd :=
| SExec (argv : list (list Z))
| SRedir (c : scmd) (file : list Z) (mode fd : Z)
| SPipe (l r : scmd)
| SList (l r : scmd)
| SBack (c : scmd).

Definition word_ok (w : list Z) : Prop := w ≠ [] ∧ Forall wordc w.

(** The commands the shell has: fewer than [MAXARGS] arguments, and the two
    kinds of redirection. *)
Fixpoint scmd_ok (c : scmd) : Prop :=
  match c with
  | SExec argv => (length argv < MAXARGS)%nat ∧ Forall word_ok argv
  | SRedir c f m fd => scmd_ok c ∧ word_ok f ∧ (m = 0 ∧ fd = 0 ∨ m = 0x201 ∧ fd = 1)
  | SPipe l r | SList l r => scmd_ok l ∧ scmd_ok r
  | SBack c => scmd_ok c
  end.

(** A command whose words are read with [rd]. *)
Section denote.
Variable rd : nat * nat → list Z.
Fixpoint denote (c : cmd) : scmd :=
  match c with
  | EXEC argv => SExec (map rd argv)
  | REDIR c f e m fd => SRedir (denote c) (rd (f, e)) m fd
  | PIPE l r => SPipe (denote l) (denote r)
  | LIST l r => SList (denote l) (denote r)
  | BACK c => SBack (denote c)
  end.
End denote.

Lemma denote_ext rd rd' c : (∀ a, a ∈ strings c → rd a = rd' a) → denote rd c = denote rd' c.
Proof.
  induction c as [argv|c IH f e m fd|l IHl r IHr|l IHl r IHr|c IH]; simpl; intros H.
  - f_equal. apply list_fmap_ext. intros i a Hi. apply H. by eapply list_elem_of_lookup_2.
  - f_equal; [apply IH; set_solver|apply H; set_solver].
  - f_equal; [apply IHl|apply IHr]; set_solver.
  - f_equal; [apply IHl|apply IHr]; set_solver.
  - f_equal. by apply IH.
Qed.

(** A line for a command, every token of which is followed by a space, with
    parentheses where the grammar needs them: level 0 is what [parseexec]
    reads, 1 what [parsepipe] reads, 2 the same with its [&]s, and 3 what
    [parseline] reads. *)
Definition paren (k lvl : nat) (t : list Z) : list Z :=
  if (lvl <? k)%nat then [40; 32] ++ t ++ [41; 32] else t.
Definition print_word (w : list Z) : list Z := w ++ [32].

Fixpoint print (lvl : nat) (c : scmd) : list Z :=
  match c with
  | SExec argv => concat (map print_word argv)
  | SRedir c f m fd => print 0 c ++ [if m =? 0 then 60 else 62; 32] ++ print_word f
  | SPipe l r => paren 1 lvl (print 0 l ++ [124; 32] ++ print 1 r)
  | SBack c => paren 2 lvl (print 2 c ++ [38; 32])
  | SList l r => paren 3 lvl (print 2 l ++ [59; 32] ++ print 3 r)
  end.

(** * Reading what was printed *)
Section reading.
Variable buf : list Z.
Abbreviation ch := (ch buf).
Abbreviation es := (es buf).
Abbreviation word a := (take (a.2 - a.1) (drop a.1 buf)).

(** What starts with a token, or is empty. *)
Definition starts (l : list Z) : Prop := match l with [] => True | x :: _ => x ≠ 0 ∧ strchr whitespace x = false end.

(** The text goes on with one of [toks]. *)
Definition first (toks l : list Z) : bool := match l with [] => false | x :: _ => strchr toks x end.

Lemma drop_ch s l : drop s buf = l → ch s = match l with [] => 0 | x :: _ => x end.
Proof. intros <-. unfold Shell.ch. rewrite <-(Nat.add_0_r s) at 1. rewrite <-lookup_drop. by destruct (drop s buf). Qed.

Lemma drop_es s l : drop s buf = l → l ≠ [] → (s + length l = es)%nat.
Proof.
  intros <- Hl. rewrite length_drop. unfold Shell.es. destruct (decide (s < length buf)%nat); [lia|].
  by rewrite drop_ge in Hl by lia.
Qed.

Lemma skip_ws_starts n s : starts (drop s buf) → skip_ws buf n s = s.
Proof.
  intros Hs. destruct n as [|n]; [done|]. cbn [skip_ws]. rewrite (drop_ch s _ eq_refl).
  destruct (drop s buf) as [|x l] eqn:E.
  - destruct (Nat.ltb_spec s es) as [H|]; [|done]. apply (f_equal length) in E. rewrite length_drop in E.
    unfold Shell.es in H. simpl in E. lia.
  - destruct Hs as [_ ->]. by rewrite andb_false_r.
Qed.

(** A token and the space behind it. *)
Lemma skip_ws_space s l : drop s buf = 32 :: l → starts l → skip_ws buf es s = S s.
Proof.
  intros E Hl. pose proof (drop_es s _ E ltac:(done)) as He. destruct es as [|n] eqn:Ee; [simpl in He; lia|].
  cbn [skip_ws]. rewrite (drop_ch s _ E). destruct (Nat.ltb_spec s es) as [_|H]; [|simpl in He; lia].
  change (strchr whitespace 32) with true. simpl. apply skip_ws_starts.
  by rewrite <-Nat.add_1_r, <-drop_drop, E.
Qed.

Lemma peek_at s l toks : drop s buf = l → starts l →
  peek buf toks s = Ok (first toks l, s).
Proof.
  intros E Hl. unfold peek. mred. unfold id. rewrite skip_ws_starts by (by rewrite E). rewrite (drop_ch s l E).
  destruct l as [|x l]; [done|]. destruct Hl as [H0 _]. by rewrite (proj2 (Z.eqb_neq x 0) H0).
Qed.

Lemma gettoken_at s t e : starts (drop s buf) → token buf s = (t, e) →
  gettoken buf s = Ok ((t, s, e), skip_ws buf es e).
Proof. intros Hs E. unfold gettoken. mred. unfold id. rewrite skip_ws_starts by done. by rewrite E. Qed.

Lemma gettoken_sym s x l : x ∈ [60; 124; 62; 38; 59; 40; 41] → drop s buf = x :: 32 :: l → starts l →
  gettoken buf s = Ok ((x, s, S s), (s + 2)%nat).
Proof.
  intros Hx E Hl. assert (E1 : drop (S s) buf = 32 :: l) by (by rewrite <-Nat.add_1_r, <-drop_drop, E).
  rewrite (gettoken_at s x (S s)).
  - rewrite (skip_ws_space (S s) l E1 Hl). do 2 f_equal. lia.
  - rewrite E. unfold starts. clear -Hx. repeat (apply elem_of_cons in Hx as [->|Hx]; [by split|]). by apply elem_of_nil in Hx.
  - unfold token. rewrite (drop_ch s _ E), (drop_ch (S s) _ E1).
    clear -Hx. repeat (apply elem_of_cons in Hx as [->|Hx]; [done|]). by apply elem_of_nil in Hx.
Qed.

Lemma skip_word_at n s w l : drop s buf = w ++ 32 :: l → Forall wordc w → (length w ≤ n)%nat →
  skip_word buf n s = (s + length w)%nat.
Proof.
  revert s w. induction n as [|n IH]; intros s w E Hw Hn; cbn [skip_word].
  { destruct w; simpl in *; lia. }
  rewrite (drop_ch s _ E). pose proof (drop_es s _ E ltac:(by destruct w)) as He. rewrite length_app in He. simpl in He.
  destruct (Nat.ltb_spec s es); [|lia]. destruct w as [|x w]; simpl in *.
  { change (strchr whitespace 32) with true. simpl. lia. }
  apply Forall_cons in Hw as [(-> & -> & _) Hw]. simpl. rewrite (IH (S s) w); [lia| |done|lia].
  by rewrite <-Nat.add_1_r, <-drop_drop, E.
Qed.

Lemma word_starts w l : word_ok w → starts (w ++ l).
Proof. intros [Hn Hw]. destruct w as [|x w]; [done|]. apply Forall_cons in Hw as [(? & ? & ?) _]. by split. Qed.

Lemma print_word_starts w l : word_ok w → starts (print_word w ++ l).
Proof. intros Hw. unfold print_word. rewrite <-app_assoc. by apply word_starts. Qed.

Lemma drop_word s w l : drop s buf = w ++ l → drop (s + length w) buf = l.
Proof. intros E. by rewrite <-drop_drop, E, drop_app_length. Qed.

Lemma gettoken_word s w l : word_ok w → drop s buf = print_word w ++ l → starts l →
  gettoken buf s = Ok ((97, s, (s + length w)%nat), (s + length (print_word w))%nat).
Proof.
  unfold print_word. intros Hw E Hl. rewrite <-app_assoc in E. simpl in E.
  rewrite (gettoken_at s 97 (s + length w)).
  - rewrite (skip_ws_space _ l (drop_word _ _ _ E) Hl). rewrite length_app. simpl. do 2 f_equal. lia.
  - rewrite E. by apply word_starts.
  - pose proof (drop_es s _ E ltac:(by destruct w)) as He. rewrite length_app in He. simpl in He.
    unfold token. rewrite (drop_ch s _ E). rewrite (skip_word_at _ s w l E) by (apply Hw || lia).
    destruct Hw as [Hn Hw]. destruct w as [|x w]; [done|]. simpl. apply Forall_cons in Hw as [(_ & Hs & H0) _].
    apply symbols_cases in Hs. repeat (rewrite (proj2 (Z.eqb_neq _ _)) by naive_solver). done.
Qed.

Lemma word_at_pos s w l : drop s buf = w ++ l → word (s, (s + length w)%nat) = w.
Proof. intros E. simpl. rewrite E. replace (s + length w - s)%nat with (length w) by lia. by rewrite take_app_length. Qed.

(** The redirections after a command. *)
Definition sredir : Type := list Z * Z * Z.
Definition sredir_ok (r : sredir) : Prop :=
  let '(f, m, fd) := r in word_ok f ∧ (m = 0 ∧ fd = 0 ∨ m = 0x201 ∧ fd = 1).
Definition print_redir (r : sredir) : list Z :=
  let '(f, m, fd) := r in [if m =? 0 then 60 else 62; 32] ++ print_word f.
Definition sredirs (a : scmd) (rs : list sredir) : scmd := foldl (λ a '(f, m, fd), SRedir a f m fd) a rs.
Definition den : cmd → scmd := denote (λ a, word a).
Definition den_redir (r : redir) : sredir := (word (rd_file r, rd_efile r), rd_mode r, rd_fd r).

Lemma den_add_redirs c rs : den (add_redirs c rs) = sredirs (den c) (map den_redir rs).
Proof. revert c. unfold add_redirs, sredirs. induction rs as [|r rs IH]; intros c; simpl; [done|]. by rewrite IH. Qed.

(** What does not continue a list of redirections. *)
Definition no_redir (l : list Z) : Prop := starts l ∧ first [60; 62] l = false.

Lemma starts_redirs rs l : starts l → starts (concat (map print_redir rs) ++ l).
Proof. intros Hl. destruct rs as [|[[f m] fd] rs]; [done|]. simpl. by destruct (m =? 0). Qed.

Lemma parseredirs_at fuel s rs l : Forall sredir_ok rs → no_redir l →
  drop s buf = concat (map print_redir rs) ++ l → (length rs < fuel)%nat →
  ∃ rs', parseredirs buf fuel s = Ok (rs', (s + length (concat (map print_redir rs)))%nat) ∧ map den_redir rs' = rs.
Proof.
  intros Hrs [Hl Hne]. revert s rs Hrs. induction fuel as [|fuel IH]; intros s rs Hrs E Hf; [lia|].
  cbn [parseredirs]. erewrite bind_Ok by (apply (peek_at s _ _ E); by apply starts_redirs).
  destruct rs as [|[[f m] fd] rs]; simpl in E |- *.
  { exists []. split; [|done]. rewrite Hne. mred. by rewrite Nat.add_0_r. }
  apply Forall_cons in Hrs as [[Hf1 Hm] Hrs]. set (x := if m =? 0 then 60 else 62) in *.
  assert (Hx : strchr [60; 62] x = true ∧ x ∈ [60; 124; 62; 38; 59; 40; 41]).
  { unfold x. by destruct (m =? 0); split; try done; [left|right; right; left]. }
  destruct Hx as [Hx1 Hx]. cbn [first]. rewrite Hx1. rewrite <-app_assoc in E.
  erewrite bind_Ok by (apply (gettoken_sym s x _ Hx E); by apply print_word_starts).
  assert (E2 : drop (s + 2) buf = print_word f ++ concat (map print_redir rs) ++ l) by (by rewrite <-drop_drop, E).
  cbv beta iota zeta. erewrite bind_Ok by (apply (gettoken_word _ _ _ Hf1 E2); by apply starts_redirs).
  cbv beta iota zeta. change (negb (97 =? 97)) with false. cbv iota.
  destruct (IH (s + 2 + length (print_word f))%nat rs Hrs (drop_word _ _ _ E2)) as (rs' & E3 & Hrs'); [simpl in Hf; lia|].
  erewrite bind_Ok by exact E3. eexists. split; [mred; do 2 f_equal|].
  - simpl. rewrite !length_app. lia.
  - simpl. rewrite Hrs'. f_equal. unfold print_word in E2. rewrite <-!app_assoc in E2.
    pose proof (word_at_pos _ _ _ E2) as Hwd. simpl in Hwd.
    unfold den_redir, x. destruct Hm as [[-> ->]|[-> ->]]; simpl; by rewrite Hwd.
Qed.

(** What may come after a command read at level [k]. *)
Definition follow (k : nat) (l : list Z) : Prop :=
  match l with
  | [] => True
  | x :: _ => x = 41 ∨ x = 59 ∧ (k ≤ 2)%nat ∨ x = 38 ∧ (k ≤ 1)%nat ∨ x = 124 ∧ k = 0%nat
  end.

Lemma follow_mono k k' l : follow k l → (k' ≤ k)%nat → follow k' l.
Proof. intros H Hk. destruct l; [done|]. simpl in *. intuition lia. Qed.

Lemma follow_starts k l : follow k l → starts l.
Proof. destruct l as [|x l]; [done|]. by intros [->|[[-> _]|[[-> _]|[-> _]]]]. Qed.
Hint Resolve follow_starts : core.

Lemma follow_no_redir k l : follow k l → no_redir l.
Proof. intros H. split; [eauto|]. destruct l as [|x l]; [done|]. by destruct H as [->|[[-> _]|[[-> _]|[-> _]]]]. Qed.

Lemma redirs_length rs : (length rs ≤ length (concat (map print_redir rs)))%nat.
Proof. induction rs as [|[[f m] fd] rs IH]; simpl; [done|]. rewrite length_app. lia. Qed.

Lemma redirs_fuel s t rs l : drop s buf = t ++ concat (map print_redir rs) ++ l → (length rs < S es)%nat.
Proof.
  intros E. apply (f_equal length) in E. rewrite !length_app, length_drop in E. pose proof (redirs_length rs).
  unfold Shell.es. lia.
Qed.

Lemma words_starts ws l : Forall word_ok ws → starts l → starts (concat (map print_word ws) ++ l).
Proof. intros Hw Hl. destruct Hw as [|w ws Hw _]; [done|]. simpl. rewrite <-app_assoc. by apply print_word_starts. Qed.

(** The first byte of a word is none of the symbols. *)
Lemma word_peek w l toks : word_ok w → Forall (λ x, strchr symbols x = true) toks →
  first toks (print_word w ++ l) = false.
Proof.
  intros [Hn Hw] Ht. destruct w as [|x w]; [done|]. apply Forall_cons in Hw as [(_ & Hs & _) _]. simpl.
  induction Ht as [|y toks Hy _ IH]; [done|]. change (strchr (y :: toks) x) with ((y =? x) || strchr toks x).
  rewrite IH, orb_false_r. apply Z.eqb_neq. intros ->. congruence.
Qed.

Lemma gettoken_end s : drop s buf = [] → gettoken buf s = Ok ((0, s, s), s).
Proof.
  intros E. rewrite (gettoken_at s 0 s); [by rewrite skip_ws_starts by (by rewrite E)|by rewrite E|].
  unfold token. by rewrite (drop_ch s _ E).
Qed.

(** The end of the arguments. *)
Lemma parseargs_stop fuel argc s l : drop s buf = l → follow 0 l → (0 < fuel)%nat →
  parseargs buf fuel argc s = Ok (([], []), s).
Proof.
  intros E Hl Hf. destruct fuel as [|fuel]; [lia|]. cbn [parseargs].
  erewrite bind_Ok by (apply (peek_at s _ _ E); eauto). destruct l as [|x l].
  - cbn [first]. by erewrite bind_Ok by (apply (gettoken_end s E)).
  - by destruct Hl as [->|[[-> _]|[[-> _]|[-> _]]]].
Qed.

(** The redirections after the last argument: those that are read before the
    arguments [ws] go on, and those that are read with [ws]. *)
Lemma split_redirs ws rs l : Forall word_ok ws → follow 0 l → ∃ rs1 rs2, rs = rs1 ++ rs2 ∧ (ws = [] → rs2 = []) ∧
  concat (map print_word ws) ++ concat (map print_redir rs) ++ l =
    concat (map print_redir rs1) ++ concat (map print_word ws) ++ concat (map print_redir rs2) ++ l ∧
  no_redir (concat (map print_word ws) ++ concat (map print_redir rs2) ++ l).
Proof.
  intros Hws Hl. destruct Hws as [|w ws Hw Hws].
  - exists rs, []. rewrite app_nil_r. split_and!; try done. by eapply follow_no_redir.
  - exists [], rs. split_and!; try done. simpl. rewrite <-app_assoc. split; [by apply print_word_starts|].
    apply word_peek; [done|by repeat constructor].
Qed.

Lemma parseargs_at fuel argc s ws rs l : Forall word_ok ws → Forall sredir_ok rs → (ws = [] → rs = []) →
  follow 0 l → drop s buf = concat (map print_word ws) ++ concat (map print_redir rs) ++ l →
  (length ws < fuel)%nat → (length ws + argc < MAXARGS)%nat →
  ∃ args rs', parseargs buf fuel argc s =
      Ok ((args, rs'), (s + length (concat (map print_word ws) ++ concat (map print_redir rs)))%nat) ∧
    map (λ a, word a) args = ws ∧ map den_redir rs' = rs.
Proof.
  intros Hws Hrs H0 Hl. revert argc s ws rs Hws Hrs H0.
  induction fuel as [|fuel IH]; intros argc s ws rs Hws Hrs H0 E Hf Ha; [lia|]. destruct ws as [|w ws].
  { rewrite (H0 eq_refl) in E |- *. exists [], []. split; [|done]. simpl in E |- *. rewrite Nat.add_0_r.
    apply (parseargs_stop (S fuel) argc s l); [done|done|lia]. }
  apply Forall_cons in Hws as [Hw Hws]. simpl in E, Hf, Ha. rewrite <-app_assoc in E.
  assert (Hst : starts (concat (map print_word ws) ++ concat (map print_redir rs) ++ l)).
  { apply words_starts, starts_redirs; eauto. }
  cbn [parseargs]. erewrite bind_Ok by (apply (peek_at s _ _ E); by apply print_word_starts).
  rewrite word_peek; [|done|by repeat constructor]. cbv iota.
  erewrite bind_Ok by (apply (gettoken_word _ _ _ Hw E Hst)). cbv beta iota zeta.
  change (97 =? 0) with false. change (negb (97 =? 97)) with false. cbv iota.
  destruct (Nat.leb_spec MAXARGS (S argc)); [lia|]. pose proof (drop_word _ _ _ E) as E1.
  destruct (split_redirs ws rs l Hws Hl) as (rs1 & rs2 & -> & H2 & E2 & Hl2).
  apply Forall_app in Hrs as [Hrs1 Hrs2]. rewrite E2 in E1.
  destruct (parseredirs_at (S es) _ rs1 _ Hrs1 Hl2 E1) as (rs1' & E3 & D1).
  { by eapply (redirs_fuel _ [] rs1). }
  erewrite bind_Ok by exact E3.
  destruct (IH (S argc) _ ws rs2 Hws Hrs2 H2 (drop_word _ _ _ E1)) as (args & rs' & E4 & D2 & D3); [lia|lia|].
  erewrite bind_Ok by exact E4. cbv beta iota. eexists _, _. split; [mred; do 2 f_equal|].
  - rewrite map_app, concat_app in *. apply (f_equal length) in E2. rewrite !length_app in *. simpl. rewrite !length_app in *. lia.
  - rewrite map_app, D1, D3. split; [|done]. simpl. rewrite D2. f_equal.
    unfold print_word in E. rewrite <-app_assoc in E. apply (word_at_pos _ _ _ E).
Qed.

(** The text [t] is read as [a], at each level of the grammar: by [parseexec]
    with the redirections after it, by [parsepipe], by [parsepipe] with the
    [&]s after it, and by [parseline]. *)
Definition backs (n : nat) (a : scmd) : scmd := Nat.iter n SBack a.
Definition amps (n : nat) : list Z := concat (replicate n [38; 32]).

Definition reads0 (t : list Z) (a : scmd) : Prop := ∀ s rs l fuel, Forall sredir_ok rs → follow 0 l →
  drop s buf = t ++ concat (map print_redir rs) ++ l → (4 * (es - s) + 2 ≤ fuel)%nat →
  ∃ c, parseexec buf fuel s = Ok (c, (s + length (t ++ concat (map print_redir rs)))%nat) ∧ den c = sredirs a rs.
Definition reads1 (t : list Z) (a : scmd) : Prop := ∀ s l fuel, follow 1 l →
  drop s buf = t ++ l → (4 * (es - s) + 3 ≤ fuel)%nat →
  ∃ c, parsepipe buf fuel s = Ok (c, (s + length t)%nat) ∧ den c = a.
Definition reads2 (t : list Z) (a : scmd) : Prop := ∀ s n l fuel, follow 2 l →
  drop s buf = t ++ amps n ++ l → (4 * (es - s) + 3 ≤ fuel)%nat →
  ∃ c, (c ← parsepipe buf fuel; parseback buf (S es) c) s = Ok (c, (s + length (t ++ amps n))%nat) ∧
    den c = backs n a.
Definition reads3 (t : list Z) (a : scmd) : Prop := ∀ s l fuel, follow 3 l →
  drop s buf = t ++ l → (4 * (es - s) + 4 ≤ fuel)%nat →
  ∃ c, parseline buf fuel s = Ok (c, (s + length t)%nat) ∧ den c = a.
(** A text that begins with a token, if it is not empty. *)
Definition tokens (t : list Z) : Prop := ∀ l, starts l → starts (t ++ l).

Lemma first_follow k l toks : follow k l →
  (∀ x, x ∈ toks → x = 124 ∧ (1 ≤ k)%nat ∨ x = 38 ∧ (2 ≤ k)%nat ∨ x = 59 ∧ (3 ≤ k)%nat ∨ x = 40) →
  first toks l = false.
Proof.
  intros Hl Ht. destruct l as [|x l]; [done|]. cbn [first]. induction toks as [|y toks IH]; [done|].
  change (strchr (y :: toks) x) with ((y =? x) || strchr toks x).
  rewrite IH by set_solver. rewrite orb_false_r. apply Z.eqb_neq. intros ->.
  specialize (Ht x ltac:(set_solver)). simpl in Hl. intuition lia.
Qed.

Lemma reads01 t a : reads0 t a → reads1 t a.
Proof.
  intros H s l fuel Hl E Hf. destruct fuel as [|fuel]; [lia|]. cbn [parsepipe].
  destruct (H s [] l fuel) as (c & E1 & Hd); [done|apply (follow_mono 1); [done|lia]|done|lia|].
  simpl in E1. rewrite app_nil_r in E1. erewrite bind_Ok by exact E1.
  erewrite bind_Ok by (apply (peek_at _ _ _ (drop_word _ _ _ E)); eauto).
  rewrite (first_follow 1) by (done || (intros x Hx%list_elem_of_singleton; lia)). by exists c.
Qed.

Lemma amps_follow n l : follow 2 l → follow 1 (amps n ++ l).
Proof. intros Hl. destruct n; [by apply (follow_mono 2); [|lia]|]. simpl. by right; right; left. Qed.

Lemma parseback_at fuel s n l c : follow 2 l → drop s buf = amps n ++ l → (n < fuel)%nat →
  parseback buf fuel c s = Ok (Nat.iter n BACK c, (s + length (amps n))%nat).
Proof.
  intros Hl. revert s n c. induction fuel as [|fuel IH]; intros s n c E Hf; [lia|]. cbn [parseback].
  assert (Hst : ∀ n, starts (amps n ++ l)) by (intros n'; by eapply follow_starts, amps_follow).
  erewrite bind_Ok by (apply (peek_at _ _ _ E); done). destruct n as [|n].
  - simpl. rewrite (first_follow 2) by (done || (intros x Hx%list_elem_of_singleton; lia)).
    mred. by rewrite Nat.add_0_r.
  - change (first [38] (amps (S n) ++ l)) with true. cbv iota.
    assert (E' : drop s buf = 38 :: 32 :: amps n ++ l) by done.
    erewrite bind_Ok by (apply (gettoken_sym _ 38 _ ltac:(set_solver) E'); done).
    rewrite (IH _ n); [|by rewrite <-drop_drop, E'|lia]. rewrite Nat.iter_swap. do 2 f_equal.
    change (amps (S n)) with ([38; 32] ++ amps n). rewrite length_app. simpl. lia.
Qed.

Lemma amps_length n : length (amps n) = (2 * n)%nat.
Proof. induction n as [|n IH]; [done|]. change (amps (S n)) with ([38; 32] ++ amps n). rewrite length_app, IH. simpl. lia. Qed.

Lemma den_backs n c : den (Nat.iter n BACK c) = backs n (den c).
Proof. induction n as [|n IH]; [done|]. unfold backs in *. simpl. by rewrite <-IH. Qed.

Lemma reads12 t a : reads1 t a → reads2 t a.
Proof.
  intros H s n l fuel Hl E Hf. destruct (H s (amps n ++ l) fuel) as (c & E1 & Hd); [by apply amps_follow|done|done|].
  erewrite bind_Ok by exact E1. pose proof (drop_word _ _ _ E) as E2. exists (Nat.iter n BACK c).
  rewrite (parseback_at _ _ n l) by (done || (apply (f_equal length) in E2; rewrite length_app, amps_length, length_drop in E2;
    unfold Shell.es; lia)).
  split; [|by rewrite den_backs, Hd]. rewrite length_app. do 2 f_equal. lia.
Qed.

Lemma reads2_back t a : reads2 t a → reads2 (t ++ [38; 32]) (SBack a).
Proof.
  intros H s n l fuel Hl E Hf. destruct (H s (S n) l fuel) as (c & E1 & Hd); [done|by rewrite E, <-app_assoc|done|].
  exists c. rewrite E1. split; [by rewrite <-app_assoc|]. rewrite Hd. unfold backs. by rewrite Nat.iter_succ_r.
Qed.

(** [parseline] up to the list operator. *)
Lemma parseline_at t a s l fuel : reads2 t a → follow 2 l → drop s buf = t ++ l → (4 * (es - s) + 3 ≤ fuel)%nat →
  ∃ c, den c = a ∧ parseline buf (S fuel) s =
    (b ← peek buf [59]; if (b : bool) then gettoken buf;; r ← parseline buf fuel; mret (LIST c r) else mret c)
      (s + length t)%nat.
Proof.
  intros H Hl E Hf. destruct (H s 0%nat l fuel Hl E Hf) as (c & E1 & Hd). exists c. split; [done|].
  apply bind_Ok_inv in E1 as (c1 & s1 & E1 & E2). cbn [parseline]. erewrite bind_Ok by exact E1.
  erewrite bind_Ok by exact E2. simpl. by rewrite app_nil_r.
Qed.

Lemma reads23 t a : reads2 t a → reads3 t a.
Proof.
  intros H s l fuel Hl E Hf. destruct fuel as [|fuel]; [lia|].
  destruct (parseline_at t a s l fuel) as (c & Hd & ->); [done|apply (follow_mono 3); [done|lia]|done|lia|].
  erewrite bind_Ok by (apply (peek_at _ _ _ (drop_word _ _ _ E)); eauto).
  rewrite (first_follow 3) by (done || (intros x Hx%list_elem_of_singleton; lia)). by exists c.
Qed.

(** After a text and a symbol. *)
Lemma drop_sym s t x u : drop s buf = t ++ [x; 32] ++ u → drop (s + length t) buf = x :: 32 :: u ∧
  drop (s + length t + 2) buf = u ∧ (es - (s + length t + 2) < es - s)%nat.
Proof.
  intros E. pose proof (drop_word _ _ _ E) as E1. split_and!; [done|by rewrite <-drop_drop, E1|].
  apply (f_equal length) in E. rewrite !length_app, length_drop in E. unfold Shell.es. simpl in E. lia.
Qed.

Lemma reads3_list t a u b : tokens u → reads2 t a → reads3 u b → reads3 (t ++ [59; 32] ++ u) (SList a b).
Proof.
  intros Hu Ha Hb s l fuel Hl E Hf. destruct fuel as [|fuel]; [lia|]. rewrite <-!app_assoc in E.
  destruct (drop_sym _ _ _ _ E) as (E1 & E2 & Hlt).
  destruct (parseline_at t a s ([59; 32] ++ u ++ l) fuel) as (c & Hd & ->); [done|simpl; by right; left|done|lia|].
  erewrite bind_Ok by (apply (peek_at _ _ _ E1); by split). change (first [59] (59 :: 32 :: u ++ l)) with true. cbv iota.
  erewrite bind_Ok by (apply (gettoken_sym _ 59 _ ltac:(set_solver) E1); eauto).
  destruct (Hb _ l fuel Hl E2) as (r & E3 & Hr); [lia|]. erewrite bind_Ok by exact E3.
  exists (LIST c r). split; [|by unfold den in *; simpl; rewrite Hd, Hr]. mred. do 2 f_equal. rewrite !length_app. simpl. lia.
Qed.

Lemma reads1_pipe t a u b : tokens u → reads0 t a → reads1 u b → reads1 (t ++ [124; 32] ++ u) (SPipe a b).
Proof.
  intros Hu Ha Hb s l fuel Hl E Hf. destruct fuel as [|fuel]; [lia|]. rewrite <-!app_assoc in E.
  destruct (drop_sym _ _ _ _ E) as (E1 & E2 & Hlt). cbn [parsepipe].
  destruct (Ha s [] ([124; 32] ++ u ++ l) fuel) as (c & E0 & Hd); [done|simpl; by right; right; right|done|lia|].
  simpl in E0. rewrite app_nil_r in E0. erewrite bind_Ok by exact E0.
  erewrite bind_Ok by (apply (peek_at _ _ _ E1); by split). change (first [124] (124 :: 32 :: u ++ l)) with true. cbv iota.
  erewrite bind_Ok by (apply (gettoken_sym _ 124 _ ltac:(set_solver) E1); eauto).
  destruct (Hb _ l fuel Hl E2) as (r & E3 & Hr); [lia|]. erewrite bind_Ok by exact E3.
  exists (PIPE c r). split; [|by unfold den in *; simpl; rewrite Hd, Hr]. mred. do 2 f_equal. rewrite !length_app. simpl. lia.
Qed.

Lemma reads0_paren t a : tokens t → reads3 t a → reads0 ([40; 32] ++ t ++ [41; 32]) a.
Proof.
  intros Ht H s rs l fuel Hrs Hl E Hf. rewrite <-!app_assoc in E. set (u := concat (map print_redir rs)) in *.
  assert (Hu : starts (u ++ l)) by (apply starts_redirs; eauto).
  assert (Hst : starts (t ++ [41; 32] ++ u ++ l)) by (by apply Ht).
  destruct (drop_sym s [] 40 _ E) as (E1 & E2 & Hlt). simpl in E1, E2, Hlt. rewrite Nat.add_0_r in *.
  destruct (drop_sym _ t 41 _ E2) as (E3 & E4 & Hlt2).
  destruct fuel as [|[|fuel]]; [lia|lia|]. cbn [parseexec parseblock].
  erewrite bind_Ok by (apply (peek_at _ _ _ E1); by split). change (first [40] (40 :: _)) with true. cbv iota.
  erewrite bind_Ok by (apply (peek_at _ _ _ E1); by split). change (first [40] (40 :: _)) with true. cbn [negb].
  erewrite bind_Ok by (apply (gettoken_sym _ 40 _ ltac:(set_solver) E1); done).
  destruct (H (s + 2)%nat ([41; 32] ++ u ++ l) fuel) as (c & E5 & Hd); [by left|done|lia|].
  erewrite bind_Ok by exact E5.
  erewrite bind_Ok by (apply (peek_at _ _ _ E3); by split). change (first [41] (41 :: _)) with true. cbn [negb].
  erewrite bind_Ok by (apply (gettoken_sym _ 41 _ ltac:(set_solver) E3); done).
  destruct (parseredirs_at (S es) _ rs l Hrs (follow_no_redir _ _ Hl) E4) as (rs' & E6 & Hd').
  { by apply (redirs_fuel _ [] rs l E4). }
  erewrite bind_Ok by exact E6. exists (add_redirs c rs'). split; [|by rewrite den_add_redirs, Hd, Hd'].
  mred. do 2 f_equal. fold u. rewrite !length_app. simpl. lia.
Qed.

Lemma reads0_redir t a f m fd : sredir_ok (f, m, fd) → reads0 t a → reads0 (t ++ print_redir (f, m, fd)) (SRedir a f m fd).
Proof.
  intros Hr H s rs l fuel Hrs Hl E Hf. destruct (H s ((f, m, fd) :: rs) l fuel) as (c & E1 & Hd); [by constructor|done| |done|].
  { rewrite E. cbn [map concat]. by rewrite <-!app_assoc. }
  exists c. split; [|done]. rewrite E1. cbn [map concat]. by rewrite app_assoc.
Qed.

Lemma words_length ws : (length ws ≤ length (concat (map print_word ws)))%nat.
Proof. induction ws as [|w ws IH]; simpl; [done|]. unfold print_word at 1. rewrite !length_app. simpl. lia. Qed.

Lemma reads0_exec ws : Forall word_ok ws → (length ws < MAXARGS)%nat → reads0 (concat (map print_word ws)) (SExec ws).
Proof.
  intros Hws Hlen s rs l fuel Hrs Hl E Hf. destruct fuel as [|fuel]; [lia|]. cbn [parseexec].
  erewrite bind_Ok by (apply (peek_at _ _ _ E), words_starts; [done|apply starts_redirs; eauto]).
  replace (first [40] _) with false.
  2: { destruct Hws as [|w ws Hw _]; [|simpl; rewrite <-app_assoc; symmetry; by apply word_peek; [|repeat constructor]].
    destruct rs as [|[[f m] fd] rs]; simpl; [|by destruct (m =? 0)].
    symmetry. apply (first_follow 0); [done|]. intros x Hx%list_elem_of_singleton. lia. }
  cbv iota. destruct (split_redirs ws rs l Hws Hl) as (rs1 & rs2 & -> & H2 & E2 & Hl2).
  apply Forall_app in Hrs as [Hrs1 Hrs2]. rewrite E2 in E.
  destruct (parseredirs_at (S es) _ rs1 _ Hrs1 Hl2 E) as (rs1' & E3 & D1); [by eapply (redirs_fuel _ [] rs1)|].
  erewrite bind_Ok by exact E3. pose proof (drop_word _ _ _ E) as E1.
  destruct (parseargs_at (S es) 0 _ ws rs2 l Hws Hrs2 H2 Hl E1) as (args & rs' & E4 & D2 & D3); [|lia|].
  { apply (f_equal length) in E1. rewrite !length_app, length_drop in E1. pose proof (words_length ws). unfold Shell.es. lia. }
  erewrite bind_Ok by exact E4. cbv beta iota. eexists. split; [mred; do 2 f_equal|].
  - rewrite map_app, concat_app in *. apply (f_equal length) in E2. rewrite !length_app in *. lia.
  - rewrite den_add_redirs, map_app, D1, D3. unfold den. simpl. by rewrite D2.
Qed.

Lemma print_tokens k a : scmd_ok a → tokens (print k a).
Proof.
  revert k. induction a as [ws|a IH f m fd|l IHl r IHr|l IHl r IHr|a IH]; intros k; simpl; unfold tokens.
  - intros [_ Hws] u Hu. by apply words_starts.
  - intros (Ha & _) u Hu. rewrite <-app_assoc. apply IH; [done|]. by destruct (m =? 0).
  - intros [Hl Hr] u Hu. unfold paren. destruct (_ <? _)%nat; [done|]. rewrite <-app_assoc. by apply IHl.
  - intros [Hl Hr] u Hu. unfold paren. destruct (_ <? _)%nat; [done|]. rewrite <-app_assoc. by apply IHl.
  - intros Ha u Hu. unfold paren. destruct (_ <? _)%nat; [done|]. rewrite <-app_assoc. by apply IH.
Qed.

(** What is read at one level, with parentheses, is read at all. *)
Lemma reads_up t a : reads0 t a → reads0 t a ∧ reads1 t a ∧ reads2 t a ∧ reads3 t a.
Proof. intros H. assert (reads2 t a) by (by apply reads12, reads01). split_and!; auto using reads01, reads23. Qed.

Lemma reads_print a : scmd_ok a →
  reads0 (print 0 a) a ∧ reads1 (print 1 a) a ∧ reads2 (print 2 a) a ∧ reads3 (print 3 a) a.
Proof.
  induction a as [ws|a IH f m fd|l IHl r IHr|l IHl r IHr|a IH]; intros Hok; pose proof (λ k, print_tokens k _ Hok) as Ht.
  - apply reads_up, reads0_exec; apply Hok.
  - destruct Hok as [Ha Hr]. apply reads_up. apply (reads0_redir _ a f m fd Hr). by apply IH.
  - destruct Hok as [Hl Hr]. assert (H1 : reads1 (print 1 (SPipe l r)) (SPipe l r)).
    { apply reads1_pipe; [by apply print_tokens|by apply IHl|by apply IHr]. }
    assert (H2 := reads12 _ _ H1). assert (H3 := reads23 _ _ H2). split_and!; try done.
    apply (reads0_paren _ _ (Ht 1%nat) H3).
  - destruct Hok as [Hl Hr]. assert (H3 : reads3 (print 3 (SList l r)) (SList l r)).
    { apply reads3_list; [by apply print_tokens|by apply IHl|by apply IHr]. }
    assert (H0 := reads0_paren _ _ (Ht 3%nat) H3). assert (H1 := reads01 _ _ H0). split_and!; try done. by apply reads12.
  - assert (H2 : reads2 (print 2 (SBack a)) (SBack a)) by (by apply reads2_back, IH).
    assert (H3 := reads23 _ _ H2). assert (H0 := reads0_paren _ _ (Ht 2%nat) H3). split_and!; try done. by apply reads01.
Qed.
End reading.

Lemma print_no_nul k a : scmd_ok a → Forall (λ c, c ≠ 0) (print k a).
Proof.
  assert (Hw : ∀ w, word_ok w → Forall (λ c, c ≠ 0) (print_word w)).
  { intros w [_ H]. apply Forall_app. split; [|by constructor]. eapply Forall_impl; [exact H|]. by intros ? (_ & _ & ?). }
  assert (Hp : ∀ k k' t, Forall (λ c, c ≠ 0) t → Forall (λ c, c ≠ 0) (paren k k' t)).
  { intros k' k'' t H. unfold paren. destruct (_ <? _)%nat; [|done]. simpl. repeat (constructor; [lia|]).
    apply Forall_app. split; [done|by repeat constructor]. }
  revert k. induction a as [ws|a IH f m fd|l IHl r IHr|l IHl r IHr|a IH]; intros k; simpl.
  - intros [_ Hws]. induction Hws; simpl; [done|]. apply Forall_app. split; auto.
  - intros (Ha & Hf & _). apply Forall_app. split; [auto|]. constructor; [by destruct (m =? 0)|]. constructor; [done|auto].
  - intros [Hl Hr]. apply Hp, Forall_app. split; [auto|]. repeat (constructor; [lia|]). auto.
  - intros [Hl Hr]. apply Hp, Forall_app. split; [auto|]. repeat (constructor; [lia|]). auto.
  - intros Ha. apply Hp, Forall_app. split; [auto|]. by repeat (constructor; [lia|]).
Qed.

(** C27. The shell reads what is printed: for every command (any nesting of
    lists, pipes, background commands, redirections and blocks, with fewer
    than [MAXARGS] words each) the line printed for it, with parentheses where
    the grammar needs them, is parsed without a panic, and the command that
    [parsecmd] returns, its words taken as C strings in the line with its NULs,
    is that command. *)
Theorem parsecmd_print a : scmd_ok a →
  ∃ c b, parsecmd (print 3 a) = Ok (c, b) ∧ denote (λ x, cstr (drop x.1 b)) c = a.
Proof.
  intros Ha. set (buf := print 3 a). assert (Hn : nul_free buf) by (by apply nul_free_Forall, print_no_nul).
  destruct (reads_print buf a Ha) as (_ & _ & _ & H3).
  destruct (H3 0%nat [] (parse_fuel buf)) as (c & E & Hd); [done|by rewrite app_nil_r|unfold parse_fuel; lia|].
  assert (Hp : parsecmd buf = Ok (c, nulterminate c (buf ++ [0]))).
  { unfold parsecmd. erewrite bind_Ok by exact E.
    erewrite bind_Ok by (apply (peek_at _ _ []); [apply drop_ge; simpl; fold buf; lia|done]).
    mred. cbn [Nat.add]. fold buf. unfold es. by rewrite Nat.eqb_refl. }
  pose proof (parsecmd_ok buf Hn) as Hok. rewrite Hp in Hok. destruct Hok as [Hok _].
  exists c, (nulterminate c (buf ++ [0])). split; [done|]. rewrite <-Hd. apply denote_ext.
  intros [q e] Hin. by apply cstr_word.
Qed.

(** The command "(a <f & b; c) | d >g". *)
Definition sample_scmd : scmd :=
  SPipe (SList (SBack (SRedir (SExec [[97]]) [102] 0 0)) (SExec [[98]; [99]])) (SRedir (SExec [[100]]) [103] 0x201 1).

Lemma parsecmd_print_witness : scmd_ok sample_scmd ∧ length (print 3 sample_scmd) = 26%nat ∧
  ∃ c b, parsecmd (print 3 sample_scmd) = Ok (c, b) ∧ denote (λ x, cstr (drop x.1 b)) c = sample_scmd.
Proof.
  assert (Hok : scmd_ok sample_scmd).
  { unfold sample_scmd. cbn [scmd_ok length]. unfold word_ok, wordc.
    split_and!; try lia; try done; repeat constructor; try done; try lia. }
  split; [exact Hok|]. split; [vm_compute; reflexivity|]. exact (parsecmd_print sample_scmd Hok).
Defined.
