(* ===== verification/Umalloc.v ===== *)
(** The user memory allocator (umalloc.c).

    An address is counted in units of [sizeof(Header)], eight bytes; the
    header at a unit is its [s.ptr] and [s.size].  [base] is the static header,
    which lies below the heap.  [sbrk] is a system call: [grant] says whether
    the kernel gives a number of bytes above a break. *)

From Stdlib Require Import ZArith Lia.
From stdpp Require Import base numbers strings option gmap sets list list_numbers sorting.
From S2P Require Import Prelude.

Record heap := Heap {
  h_ptr : Z → Z;
  h_size : Z → Z;
  h_freep : option Z;
  h_brk : Z
}.

Definition zupd (f : Z → Z) (a v : Z) : Z → Z := λ x, if x =? a then v else f x.
Definition set_ptr (p v : Z) : M heap unit := mmod (λ s, Heap (zupd (h_ptr s) p v) (h_size s) (h_freep s) (h_brk s)).
Definition set_size (p v : Z) : M heap unit :=
  mmod (λ s, Heap (h_ptr s) (zupd (h_size s) p (u32 v)) (h_freep s) (h_brk s)).
Definition set_freep (p : Z) : M heap unit := mmod (λ s, Heap (h_ptr s) (h_size s) (Some p) (h_brk s)).
Definition ptr_at (p : Z) : M heap Z := mget (λ s, h_ptr s p).
Definition size_at (p : Z) : M heap Z := mget (λ s, h_size s p).
Definition freep : M heap Z := o ← mget h_freep; mopt o.

Section umalloc.
Context (base : Z) (grant : Z → Z → bool).

(** Enough rounds for a walk around the free list: its blocks are disjoint
    parts of the units from [base] to the break. *)
Definition rounds (s : heap) : nat := S (S (Z.to_nat (h_brk s - base))).

(** The search of [free]: the free block before [bp]. *)
Fixpoint free_find (fuel : nat) (p bp : Z) : M heap Z :=
  match fuel with
  | O => mnofuel
  | S fuel =>
      q ← ptr_at p;
      if (p <? bp) && (bp <? q) then mret p
      else if (q <=? p) && ((p <? bp) || (bp <? q)) then mret p
      else free_find fuel q bp
  end.

(** The new block [bp] takes over the free block [q] behind it, or points to it. *)
Definition link_behind (bp q : Z) : M heap unit :=
  bsize ← size_at bp;
  if bp + bsize =? q then
    qsize ← size_at q; set_size bp (bsize + qsize);;
    qptr ← ptr_at q; set_ptr bp qptr
  else set_ptr bp q.

(** The free block [p] takes over [bp], or points to it. *)
Definition link_before (p bp : Z) : M heap unit :=
  psize ← size_at p;
  if p + psize =? bp then
    bsize ← size_at bp; set_size p (psize + bsize);;
    bptr ← ptr_at bp; set_ptr p bptr
  else set_ptr p bp.

(** [free(ap)], [ap] being one unit after its header. *)
Definition free (ap : Z) : M heap unit :=
  let bp := ap - 1 in
  p ← freep;
  n ← mget rounds;
  p ← free_find n p bp;
  q ← ptr_at p;
  link_behind bp q;;
  link_before p bp;;
  set_freep p.

(** [sbrk(n)] for a multiple [n] of eight bytes: the old break, or [None]. *)
Definition sbrk (n : Z) : M heap (option Z) :=
  b ← mget h_brk;
  if grant b n then mmod (λ s, Heap (h_ptr s) (h_size s) (h_freep s) (b + n / 8));; mret (Some b)
  else mret None.

Definition morecore (nu : Z) : M heap (option Z) :=
  let nu := if nu <? 4096 then 4096 else nu in
  p ← sbrk (s32 (nu * 8));
  match p with
  | None => mret None
  | Some hp =>
      set_size hp nu;;
      free (hp + 1);;
      p ← freep; mret (Some p)
  end.

(** Taking [nunits] units from the block [p] whose predecessor is [prevp]. *)
Definition take_block (nunits prevp p : Z) : M heap Z :=
  sz ← size_at p;
  p ← (if sz =? nunits then q ← ptr_at p; set_ptr prevp q;; mret p
       else set_size p (sz - nunits);; set_size (p + (sz - nunits)) nunits;; mret (p + (sz - nunits)));
  set_freep prevp;;
  mret (p + 1).

Fixpoint malloc_loop (fuel : nat) (nunits prevp p : Z) : M heap (option Z) :=
  match fuel with
  | O => mnofuel
  | S fuel =>
      sz ← size_at p;
      if nunits <=? sz then r ← take_block nunits prevp p; mret (Some r)
      else
        fp ← freep;
        if p =? fp then
          r ← morecore nunits;
          match r with
          | None => mret None
          | Some p => q ← ptr_at p; malloc_loop fuel nunits p q
          end
        else q ← ptr_at p; malloc_loop fuel nunits p q
  end.

(** [malloc(nbytes)]: the address of the block, one unit after its header. *)
Definition malloc (nbytes : Z) : M heap (option Z) :=
  let nunits := u32 (nbytes + 8 - 1) / 8 + 1 in
  o ← mget h_freep;
  prevp ← (match o with
    | None => set_ptr base base;; set_freep base;; set_size base 0;; mret base
    | Some p => mret p
    end);
  p ← ptr_at prevp;
  n ← mget rounds;
  malloc_loop (n + (n + 2)) nunits prevp p.

(** * Tilings *)

(** The heap is a row of blocks, free and allocated, without gaps. *)
Record blk := Blk { b_addr : Z; b_size : Z; b_free : bool }.

Fixpoint tiles (lo : Z) (T : list blk) (hi : Z) : Prop :=
  match T with
  | [] => lo = hi
  | b :: T => b_addr b = lo ∧ 1 ≤ b_size b ∧ tiles (lo + b_size b) T hi
  end.

(** No two neighbours are free: they have been joined. *)
Fixpoint joined (T : list blk) : Prop :=
  match T with
  | b :: T => match T with c :: _ => b_free b && b_free c = false | [] => True end ∧ joined T
  | [] => True
  end.

Definition frees (T : list blk) : list Z := b_addr <$> filter (λ b, b_free b = true) T.

(** The links lead along [l] and from its end to [z]. *)
Fixpoint path (ptr : Z → Z) (l : list Z) (z : Z) : Prop :=
  match l with
  | [] => True
  | x :: l => ptr x = default z (head l) ∧ path ptr l z
  end.

Lemma path_app ptr l l' z : path ptr (l ++ l') z ↔ path ptr l (default z (head l')) ∧ path ptr l' z.
Proof.
  induction l as [|x l IH]; simpl; [tauto|]. rewrite IH. destruct l; simpl; tauto.
Qed.

Lemma path_zupd ptr a v l z : a ∉ l → path (zupd ptr a v) l z ↔ path ptr l z.
Proof.
  induction l as [|x l IH]; simpl; [done|]. rewrite not_elem_of_cons. intros [Hx Hl]. rewrite IH by done.
  unfold zupd. by rewrite (proj2 (Z.eqb_neq x a)) by congruence.
Qed.

Lemma tiles_app lo A B hi : tiles lo (A ++ B) hi ↔ ∃ mid, tiles lo A mid ∧ tiles mid B hi.
Proof.
  revert lo. induction A as [|b A IH]; intros lo; simpl.
  - split; [eauto|]. by intros (mid & -> & ?).
  - rewrite IH. split.
    + intros (? & ? & mid & ? & ?). exists mid. tauto.
    + intros (mid & (? & ? & ?) & ?). split; [done|]. split; [done|]. eauto.
Qed.

Lemma tiles_le lo T hi : tiles lo T hi → lo ≤ hi.
Proof. revert lo. induction T as [|b T IH]; intros lo; simpl; [lia|]. intros (_ & ? & H%IH). lia. Qed.

Lemma tiles_bounds lo T hi b : tiles lo T hi → b ∈ T → lo ≤ b_addr b ∧ 1 ≤ b_size b ∧ b_addr b + b_size b ≤ hi.
Proof.
  revert lo. induction T as [|c T IH]; intros lo; simpl; [by rewrite elem_of_nil|]. intros (Ha & Hs & Ht).
  pose proof (tiles_le _ _ _ Ht). rewrite elem_of_cons. intros [->|Hb]; [lia|]. specialize (IH _ Ht Hb). lia.
Qed.

Lemma frees_app A B : frees (A ++ B) = frees A ++ frees B.
Proof. unfold frees. by rewrite filter_app, fmap_app. Qed.

Lemma frees_cons b T : frees (b :: T) = (if b_free b then [b_addr b] else []) ++ frees T.
Proof. unfold frees. rewrite filter_cons. destruct b as [a n []]; simpl; done. Qed.

Lemma elem_of_frees a T : a ∈ frees T ↔ ∃ b, b ∈ T ∧ b_free b = true ∧ b_addr b = a.
Proof.
  unfold frees. rewrite list_elem_of_fmap. setoid_rewrite list_elem_of_filter. split; naive_solver.
Qed.

Lemma frees_bounds lo T hi a : tiles lo T hi → a ∈ frees T → lo ≤ a < hi.
Proof. intros Ht (b & Hb & _ & <-)%elem_of_frees. pose proof (tiles_bounds _ _ _ _ Ht Hb). lia. Qed.

Lemma frees_sorted lo T hi : tiles lo T hi → StronglySorted Z.lt (frees T).
Proof.
  revert lo. induction T as [|b T IH]; intros lo; simpl; [constructor|]. intros (Ha & Hs & Ht). rewrite frees_cons.
  destruct (b_free b); [|by eapply IH]. simpl. constructor; [by eapply IH|]. apply Forall_forall. intros x Hx.
  pose proof (frees_bounds _ _ _ _ Ht Hx). lia.
Qed.

Lemma frees_length lo T hi : tiles lo T hi → Z.of_nat (length (frees T)) ≤ hi - lo.
Proof.
  revert lo. induction T as [|b T IH]; intros lo; simpl; [lia|]. intros (Ha & Hs & Ht%IH).
  rewrite frees_cons, length_app. destruct (b_free b); simpl; lia.
Qed.

(** * The search of [free] *)

(** From a block before [bp] the search stops at the last one before it. *)
Lemma find_before s bp C p D fuel : path (h_ptr s) (C ++ p :: D) base → StronglySorted Z.lt (C ++ p :: D) →
  Forall (λ x, x < bp) (C ++ [p]) → Forall (λ x, bp < x) D → base ≤ p → (length C < fuel)%nat →
  free_find fuel (default p (head C)) bp s = Ok (p, s).
Proof.
  revert fuel. induction C as [|x C IH]; intros [|fuel] Hp Hs HC HD Hb Hf; simpl in Hf; try lia; simpl default.
  - cbn [free_find]. erewrite bind_Ok by reflexivity. destruct Hp as [-> _]. simpl in HC. apply Forall_cons in HC as [HC _].
    destruct D as [|d D]; simpl.
    + rewrite (proj2 (Z.leb_le base p)), (proj2 (Z.ltb_lt p bp)), orb_true_l by lia. by case_match.
    + apply Forall_cons in HD as [Hd _]. by rewrite (proj2 (Z.ltb_lt p bp)), (proj2 (Z.ltb_lt bp d)) by lia.
  - destruct Hp as [Hx Hp]. simpl in Hs. apply StronglySorted_cons in Hs as [Hlt Hs].
    apply Forall_cons in HC as [Hxb HC]. cbn [free_find]. erewrite bind_Ok by reflexivity. rewrite Hx.
    assert (Hn : default base (head (C ++ p :: D)) = default p (head C)) by (by destruct C).
    rewrite Hn. set (q := default p (head C)).
    assert (Hq : q ∈ C ++ [p]) by (unfold q; destruct C; simpl; set_solver).
    assert (x < q) by (eapply Forall_forall in Hlt; [exact Hlt|]; set_solver).
    assert (q < bp) by (by eapply Forall_forall in HC).
    rewrite (proj2 (Z.ltb_ge bp q)), andb_false_r, (proj2 (Z.leb_gt q x)) by lia. simpl. apply IH; (done || lia).
Qed.

(** From a block behind [bp] it goes round to [base]. *)
Lemma find_behind s bp x D fuel : path (h_ptr s) (x :: D) base → StronglySorted Z.lt (x :: D) →
  Forall (λ x, bp < x) (x :: D) → base < bp → free_find (S (length D) + fuel) x bp s = free_find fuel base bp s.
Proof.
  revert x. induction D as [|d D IH]; intros x [Hx Hp] Hs HD Hb; apply Forall_cons in HD as [Hxb HD];
    cbn [length Nat.add free_find]; erewrite bind_Ok by reflexivity; rewrite Hx; cbn [default from_option head id hd_error].
  - rewrite (proj2 (Z.ltb_ge x bp)), (proj2 (Z.ltb_ge bp base)) by lia. cbn [andb orb]. by rewrite andb_false_r.
  - apply StronglySorted_cons in Hs as [Hlt Hs]. apply Forall_cons in Hlt as [Hlt _].
    rewrite (proj2 (Z.ltb_ge x bp)), (proj2 (Z.leb_gt d x)) by lia. simpl. by apply IH.
Qed.

Lemma find_pred s bp C p D fp fuel : path (h_ptr s) (C ++ p :: D) base → head (C ++ [p]) = Some base →
  StronglySorted Z.lt (C ++ p :: D) → Forall (λ x, x < bp) (C ++ [p]) → Forall (λ x, bp < x) D → fp ∈ C ++ p :: D →
  (length (C ++ p :: D) < fuel)%nat → free_find fuel fp bp s = Ok (p, s).
Proof.
  intros Hp Hbase Hs HC HD Hfp Hf. assert (Hbp : base < bp).
  { eapply Forall_forall in HC; [exact HC|]. destruct C; simpl in *; simplify_eq; set_solver. }
  assert (Hbp' : base ≤ p).
  { destruct C as [|x C]; simpl in Hbase; simplify_eq; [lia|]. simpl in Hs.
    apply StronglySorted_cons in Hs as [Hlt _]. eapply Forall_forall in Hlt; [|apply elem_of_app; right; by left]. lia. }
  rewrite length_app in Hf. simpl in Hf.
  assert (Hstart : default p (head C) = base) by (destruct C; simpl in *; congruence).
  apply elem_of_app in Hfp as [HfC|[->|HfD]%elem_of_cons].
  - apply list_elem_of_split in HfC as (C1 & C2 & ->). rewrite <-app_assoc in *. simpl in *.
    apply path_app in Hp as [_ Hp]. apply StronglySorted_app in Hs as (_ & _ & Hs).
    apply Forall_app in HC as [_ HC]. rewrite length_app in Hf. simpl in Hf.
    apply (find_before s bp (fp :: C2) p D); try done. simpl. lia.
  - apply path_app in Hp as [_ Hp]. apply StronglySorted_app in Hs as (_ & _ & Hs).
    apply Forall_app in HC as [_ HC]. apply (find_before s bp [] p D); try done. simpl. lia.
  - apply list_elem_of_split in HfD as (D1 & D2 & ->).
    assert (Hp2 := Hp). rewrite app_comm_cons, app_assoc in Hp2. apply path_app in Hp2 as [_ Hp2].
    assert (Hs2 := Hs). rewrite app_comm_cons, app_assoc in Hs2. apply StronglySorted_app in Hs2 as (_ & _ & Hs2).
    pose proof HD as HD2. apply Forall_app in HD2 as [_ HD2]. rewrite length_app in Hf. simpl in Hf.
    replace fuel with (S (length D2) + (fuel - S (length D2)))%nat by lia.
    rewrite find_behind by done. rewrite <-Hstart. by apply (find_before s bp C p (D1 ++ fp :: D2)); try done; lia.
Qed.

(** * The invariant of the heap *)

Context (lo : Z).

Record heap_inv (s : heap) (T : list blk) : Prop := {
  hi_base : 0 ≤ base < lo;
  hi_tiles : tiles lo T (h_brk s);
  hi_top : h_brk s ≤ 2 ^ 28;
  hi_joined : joined T;
  hi_size b : b ∈ T → h_size s (b_addr b) = b_size b;
  hi_base_size : h_size s base = 0;
  hi_path : path (h_ptr s) (base :: frees T) base;
  hi_freep : ∃ p, h_freep s = Some p ∧ p ∈ base :: frees T
}.

Lemma joined_app A B : joined (A ++ B) ↔ joined A ∧ joined B ∧
  (∀ a b, last A = Some a → head B = Some b → b_free a && b_free b = false).
Proof.
  induction A as [|c A IH]; simpl.
  - naive_solver.
  - rewrite IH. destruct A as [|d A]; simpl in *.
    + destruct B as [|b B]; simpl; [naive_solver|]. split.
      * naive_solver.
      * intros (_ & ? & H). naive_solver.
    + tauto.
Qed.

Lemma tiles_nodup l T hi : tiles l T hi → NoDup (b_addr <$> T).
Proof.
  revert l. induction T as [|b T IH]; intros l; simpl; [intros _; apply NoDup_nil_2|]. intros (Ha & Hs & Ht).
  apply NoDup_cons. split; [|by eapply IH]. intros (c & Hc & Hin)%list_elem_of_fmap.
  pose proof (tiles_bounds _ _ _ _ Ht Hin). lia.
Qed.

Lemma zupd_eq f a v : zupd f a v a = v.
Proof. unfold zupd. by rewrite Z.eqb_refl. Qed.

Lemma zupd_ne f a v x : x ≠ a → zupd f a v x = f x.
Proof. intros. unfold zupd. by rewrite (proj2 (Z.eqb_neq _ _)). Qed.

(** ** Joining with the neighbours *)

(** The tiles after [bp], of [n] units, is freed between [X] and [Y]. *)
Definition join_right (n : Z) (Y : list blk) : Z * list blk :=
  match Y with
  | Blk _ m true :: Y' => (n + m, Y')
  | _ => (n, Y)
  end.

Fixpoint join_left (X : list blk) (b : blk) : list blk :=
  match X with
  | [] => [b]
  | c :: X =>
      match X with
      | [] => if b_free c then [Blk (b_addr c) (b_size c + b_size b) true] else [c; b]
      | _ => c :: join_left X b
      end
  end.

Definition give_back (X : list blk) (bp n : Z) (Y : list blk) : list blk :=
  let '(m, Y') := join_right n Y in join_left X (Blk bp m true) ++ Y'.

Lemma join_left_snoc X c b : join_left (X ++ [c]) b =
  X ++ (if b_free c then [Blk (b_addr c) (b_size c + b_size b) true] else [c; b]).
Proof.
  induction X as [|d X IH]; [done|]. simpl. rewrite IH. by destruct (X ++ [c]) eqn:E; [by destruct X|].
Qed.

(** The state between the two halves of [free]: the new block [bp] has been
    joined with the one behind it, [p] is the free block before it. *)
Record half (s : heap) (X : list blk) (C : list Z) (p bp m : Z) (Y : list blk) : Prop := {
  hf_base : 0 ≤ base < lo;
  hf_tiles : tiles lo (X ++ Blk bp m true :: Y) (h_brk s);
  hf_top : h_brk s ≤ 2 ^ 28;
  hf_joined : joined X ∧ joined (Blk bp m true :: Y);
  hf_size b : b ∈ X ++ Blk bp m true :: Y → h_size s (b_addr b) = b_size b;
  hf_base_size : h_size s base = 0;
  hf_frees : base :: frees X = C ++ [p];
  hf_before : path (h_ptr s) C p;
  hf_behind : path (h_ptr s) (bp :: frees Y) base
}.

(** [p] ends where [bp] begins exactly if the tile before [bp] is free. *)
Lemma half_adjacent s X C p bp m Y : half s X C p bp m Y →
  (∃ X' n, X = X' ++ [Blk p n true] ∧ p + n = bp ∧ base :: frees X' = C ∧ h_size s p = n) ∨
  (p + h_size s p ≠ bp ∧ (∀ c, last X = Some c → b_free c = false)).
Proof.
  intros [Hb Ht Htop HJ Hs Hbs HF _ _]. apply tiles_app in Ht as (mid & HtX & (Hbp & _ & _)). simpl in Hbp. subst mid.
  assert (Hp : p ∈ base :: frees X) by (rewrite HF; set_solver).
  assert (Hpb : p = base → p + h_size s p ≠ bp).
  { intros ->. rewrite Hbs. pose proof (tiles_le _ _ _ HtX). lia. }
  destruct X as [|c X' _] using rev_ind.
  { right. split; [|done]. apply Hpb. simpl in HF. apply (f_equal last) in HF. rewrite last_snoc in HF. naive_solver. }
  apply tiles_app in HtX as (mid & HtX & (Hc & Hcs & Hce)). simpl in Hce. destruct c as [a n f]. simpl in *. subst mid.
  rewrite frees_app in *. destruct f; simpl in *.
  - left. assert (HF' : (base :: frees X') ++ [a] = C ++ [p]) by done. apply app_inj_tail in HF' as [<- <-].
    exists X', n. split_and!; try done. apply (Hs (Blk a n true)). set_solver.
  - right. split; [|intros c; rewrite last_snoc; by intros [= <-]]. rewrite app_nil_r in Hp.
    apply elem_of_cons in Hp as [->|(b & Hbin & _ & <-)%elem_of_frees]; [by apply Hpb|].
    pose proof (tiles_bounds _ _ _ _ HtX Hbin). rewrite (Hs b) by set_solver. lia.
Qed.

(** Only the headers in [l] differ. *)
Definition same_but (l : list Z) (s s' : heap) : Prop :=
  ∀ x, x ∉ l → h_ptr s' x = h_ptr s x ∧ h_size s' x = h_size s x.

Lemma same_but_trans l l' s s' s'' : same_but l s s' → same_but l' s' s'' → same_but (l ++ l') s s''.
Proof.
  intros H H' x Hx. rewrite elem_of_app in Hx. destruct (H x) as [<- <-]; [tauto|]. apply H'. tauto.
Qed.

Ltac same_but_tac :=
  let x := fresh "x" in let Hx := fresh "Hx" in
  intros x Hx; rewrite ?not_elem_of_cons in Hx; cbn [h_ptr h_size]; rewrite ?zupd_ne by tauto; done.

Lemma half_distinct s X C p bp m Y : half s X C p bp m Y →
  p ≠ bp ∧ p ∉ C ∧ p ∉ frees Y ∧ bp ∉ C ∧ bp ∉ frees Y ∧ (∀ b, b ∈ Y → b_addr b ≠ p ∧ b_addr b ≠ bp ∧ b_addr b ≠ base) ∧
  (∀ b, b ∈ X → b_addr b ≠ bp ∧ b_addr b ≠ base) ∧ bp ≠ base.
Proof.
  intros [Hb Ht _ _ _ _ HF _ _]. apply tiles_app in Ht as (mid & HtX & (Hbp & Hm & HtY)). simpl in *. subst mid.
  pose proof (tiles_le _ _ _ HtX) as Hle.
  assert (Hall : ∀ x, x ∈ C ++ [p] → x < bp).
  { rewrite <-HF. intros x [->|Hx]%elem_of_cons; [lia|]. pose proof (frees_bounds _ _ _ _ HtX Hx). lia. }
  assert (HY : ∀ x, x ∈ frees Y → bp < x) by (intros x Hx; pose proof (frees_bounds _ _ _ _ HtY Hx); lia).
  assert (Hs : StronglySorted Z.lt (C ++ [p])).
  { rewrite <-HF. constructor; [by eapply frees_sorted|]. apply Forall_forall. intros x Hx.
    pose proof (frees_bounds _ _ _ _ HtX Hx). lia. }
  apply StronglySorted_app in Hs as (HCp & _ & _). assert (p < bp) by (apply Hall; set_solver).
  split_and!.
  - lia.
  - intros Hin. assert (p < p) by (apply HCp; [done|by left]). lia.
  - intros Hin%HY. lia.
  - intros Hin. assert (bp < bp) by (apply Hall; set_solver). lia.
  - intros Hin%HY. lia.
  - intros b Hbin. pose proof (tiles_bounds _ _ _ _ HtY Hbin). lia.
  - intros b Hbin. pose proof (tiles_bounds _ _ _ _ HtX Hbin). lia.
  - lia.
Qed.

Lemma link_before_spec s X C p bp m Y : half s X C p bp m Y →
  ∃ s', (link_before p bp;; set_freep p) s = Ok (tt, s') ∧ h_brk s' = h_brk s ∧ h_freep s' = Some p ∧
    same_but [p] s s' ∧ heap_inv s' (join_left X (Blk bp m true) ++ Y).
Proof.
  intros Hf. destruct (half_distinct _ _ _ _ _ _ _ Hf) as (Hne & HpC & HpY & HbC & HbY & HYne & HXne & Hbb).
  pose proof Hf as [Hb Ht Htop [HJX HJY] Hs Hbs HF HC [Hbp HD]].
  unfold link_before. rewrite bind_assoc. erewrite bind_Ok by reflexivity.
  destruct (half_adjacent _ _ _ _ _ _ _ Hf) as [(X' & n & -> & Hend & HF' & Hn)|[Hna Hlast]].
  - rewrite Hn, Hend, Z.eqb_refl, join_left_snoc. cbn [b_free b_addr b_size].
    rewrite !bind_assoc. do 4 (erewrite bind_Ok by reflexivity; rewrite ?bind_assoc). cbn [h_ptr h_size h_freep h_brk].
    assert (Hm0 : h_size s bp = m) by (apply (Hs (Blk bp m true)); set_solver). rewrite Hm0.
    rewrite <-app_assoc in Ht. simpl in Ht. apply tiles_app in Ht as (mid & HtX & (Hp & Hn1 & (_ & Hm & HtY))).
    simpl in *. subst mid. pose proof (tiles_le _ _ _ HtY). pose proof (tiles_le _ _ _ HtX).
    assert (Hu : u32 (n + m) = n + m) by (apply u32_small; lia). eexists. split; [reflexivity|].
    split; [done|]. split; [done|]. split; [same_but_tac|]. split; try done; cbn [h_ptr h_size h_freep h_brk].
    + rewrite <-app_assoc. apply tiles_app. exists p. split; [done|]. simpl. split; [done|]. split; [lia|].
      by replace (p + (n + m)) with (p + n + m) by lia.
    + rewrite <-app_assoc. apply joined_app in HJX as (HJ' & _ & HJ''). apply joined_app. split_and!; [done| |].
      * destruct Y as [|y Y]; [done|]. destruct HJY as [? ?]. by split.
      * intros a b Ha [= <-]. by apply (HJ'' a (Blk p n true)).
    + rewrite Hu. intros b Hbin. destruct (decide (b_addr b = p)) as [E|E].
      * rewrite E, zupd_eq. apply elem_of_app in Hbin as [[HbX| ->%list_elem_of_singleton]%elem_of_app|HbY'].
        -- pose proof (tiles_bounds _ _ _ _ HtX HbX). lia.
        -- done.
        -- by destruct (HYne b HbY').
      * rewrite zupd_ne by done. apply Hs. apply elem_of_app in Hbin as [[HbX| ->%list_elem_of_singleton]%elem_of_app|HbY'];
          [set_solver|done|set_solver].
    + rewrite zupd_ne by lia. done.
    + rewrite !frees_app, <-app_assoc. change (frees [Blk p (n + m) true]) with [p].
      rewrite app_comm_cons, HF'. apply path_app. simpl. split; [by rewrite path_zupd|].
      split; [|by rewrite path_zupd]. by rewrite zupd_eq.
    + exists p. split; [done|]. rewrite !frees_app. set_solver.
  - rewrite (proj2 (Z.eqb_neq _ _)) by done. erewrite bind_Ok by reflexivity. eexists. split; [reflexivity|].
    split; [done|]. split; [done|]. split; [same_but_tac|].
    assert (HjX : join_left X (Blk bp m true) = X ++ [Blk bp m true]).
    { destruct X as [|c X _] using rev_ind; [done|]. rewrite join_left_snoc. rewrite (Hlast c) by (by rewrite last_snoc).
      by rewrite <-app_assoc. }
    rewrite HjX, <-app_assoc. simpl. split; try done; cbn [h_ptr h_size h_freep h_brk].
    + apply joined_app. split_and!; try done. intros a b Ha%Hlast [= <-]. by rewrite Ha.
    + rewrite frees_app, frees_cons. cbn [b_free b_addr]. rewrite app_comm_cons, HF, <-app_assoc. cbn [app]. apply path_app. simpl.
      rewrite !zupd_eq, zupd_ne by done. rewrite !path_zupd by done. done.
    + exists p. split; [done|]. rewrite frees_app, app_comm_cons, HF. set_solver.
Qed.

(** The part of the invariant that the first half of [free] starts from; the
    block [bp] is allocated. *)
Lemma link_behind_spec s X bp n Y C p : heap_inv s (X ++ Blk bp n false :: Y) → base :: frees X = C ++ [p] →
  ∃ s', link_behind bp (default base (head (frees Y))) s = Ok (tt, s') ∧ h_brk s' = h_brk s ∧
    same_but [bp] s s' ∧ half s' X C p bp (join_right n Y).1 (join_right n Y).2.
Proof.
  intros [Hb Ht Htop HJ Hs Hbs Hp _] HF. apply joined_app in HJ as (HJX & [_ HJY] & _).
  apply tiles_app in Ht as (mid & HtX & (Hbp & Hn & HtY)). simpl in *. subst mid.
  pose proof (tiles_le _ _ _ HtX) as HleX. pose proof (tiles_le _ _ _ HtY) as HleY.
  rewrite frees_app, frees_cons in Hp. cbn [b_free app] in Hp.
  change (path (h_ptr s) ((base :: frees X) ++ frees Y) base) in Hp.
  rewrite HF, <-app_assoc in Hp. apply path_app in Hp as [HC [_ HD]].
  assert (HbC : bp ∉ C).
  { intros Hin. assert (Hin' : bp ∈ base :: frees X) by (rewrite HF; set_solver).
    apply elem_of_cons in Hin' as [->|Hin']; [lia|]. pose proof (frees_bounds _ _ _ _ HtX Hin'). lia. }
  assert (HbY : bp ∉ frees Y) by (intros Hin; pose proof (frees_bounds _ _ _ _ HtY Hin); lia).
  assert (HsX : ∀ b, b ∈ X → b_addr b ≠ bp) by (intros b Hin; pose proof (tiles_bounds _ _ _ _ HtX Hin); lia).
  assert (HsY : ∀ b, b ∈ Y → b_addr b ≠ bp) by (intros b Hin; pose proof (tiles_bounds _ _ _ _ HtY Hin); lia).
  assert (Hn0 : h_size s bp = n) by (apply (Hs (Blk bp n false)); set_solver).
  unfold link_behind. erewrite bind_Ok by reflexivity. rewrite Hn0.
  assert (Hplain : bp + n ≠ default base (head (frees Y)) → joined (Blk bp n true :: Y) → join_right n Y = (n, Y) →
    ∃ s', (if bp + n =? default base (head (frees Y)) then
      qsize ← size_at (default base (head (frees Y))); set_size bp (n + qsize);;
      qptr ← ptr_at (default base (head (frees Y))); set_ptr bp qptr
      else set_ptr bp (default base (head (frees Y)))) s = Ok (tt, s') ∧ h_brk s' = h_brk s ∧
      same_but [bp] s s' ∧ half s' X C p bp (join_right n Y).1 (join_right n Y).2).
  { intros Hne HJ ->. rewrite (proj2 (Z.eqb_neq _ _)) by done. eexists. split; [reflexivity|]. split; [done|].
    split; [same_but_tac|]. split; try done; cbn [h_ptr h_size h_freep h_brk fst snd].
    - apply tiles_app. by exists bp.
    - intros b [HX|[-> |HY]%elem_of_cons]%elem_of_app; [apply Hs; set_solver|done|apply Hs; set_solver].
    - by rewrite path_zupd.
    - simpl. rewrite zupd_eq, path_zupd by done. done. }
  destruct Y as [|[a m []] Y']; [apply Hplain; simpl; (done || lia)| |].
  - destruct HtY as (Ha & Hm & HtY). simpl in Ha, Hm, HtY. subst a. simpl in HD. destruct HD as [HD1 HD2].
    rewrite frees_cons. cbn [b_free b_addr app head default from_option id hd_error]. rewrite Z.eqb_refl.
    pose proof (tiles_le _ _ _ HtY) as HleY'.
    assert (Hm0 : h_size s (bp + n) = m) by (apply (Hs (Blk (bp + n) m true)); set_solver).
    do 3 erewrite bind_Ok by reflexivity. rewrite Hm0. eexists. split; [reflexivity|]. split; [done|].
    assert (Hu : u32 (n + m) = n + m) by (apply u32_small; lia). rewrite Hu.
    split; [same_but_tac|]. split; try done; cbn [h_ptr h_size h_freep h_brk fst snd join_right].
    + apply tiles_app. exists bp. split; [done|]. simpl. split; [done|]. split; [lia|].
      by replace (bp + (n + m)) with (bp + n + m) by lia.
    + intros b [HX|[-> |HY]%elem_of_cons]%elem_of_app.
      * rewrite zupd_ne by (by apply HsX). apply Hs. set_solver.
      * cbn [b_addr]. by rewrite zupd_eq.
      * rewrite zupd_ne by (apply HsY; set_solver). apply Hs. set_solver.
    + rewrite zupd_ne by lia. done.
    + rewrite path_zupd by done. done.
    + simpl. rewrite zupd_eq, path_zupd by (rewrite frees_cons in HbY; set_solver). done.
  - apply Hplain; [|done..]. destruct HtY as (Ha & Hm & HtY). simpl in Ha, Hm, HtY. subst a.
    rewrite frees_cons. cbn [b_free app]. destruct (frees Y') as [|q l] eqn:E; [simpl; lia|].
    assert (Hq : q ∈ frees Y') by (rewrite E; by left). pose proof (frees_bounds _ _ _ _ HtY Hq). simpl. lia.
Qed.

(** [free] of an allocated block: it becomes free and is joined with its free
    neighbours. *)
Lemma free_spec s X bp n Y : heap_inv s (X ++ Blk bp n false :: Y) →
  ∃ s' p, free (bp + 1) s = Ok (tt, s') ∧ h_brk s' = h_brk s ∧ p ∈ base :: frees X ∧ same_but [bp; p] s s' ∧
    heap_inv s' (give_back X bp n Y).
Proof.
  intros Hi. destruct (exists_last (l := base :: frees X)) as (C & p & HF); [done|].
  destruct (link_behind_spec s X bp n Y C p Hi HF) as (s1 & E1 & Hbrk1 & Hsame1 & Hh).
  destruct (link_before_spec _ _ _ _ _ _ _ Hh) as (s2 & E2 & Hbrk2 & _ & Hsame2 & Hi2).
  pose proof Hi as [Hb Ht _ _ _ _ Hp (fp & Efp & Hfp)]. pose proof (frees_length _ _ _ Ht) as Hlen.
  pose proof (frees_sorted _ _ _ Ht) as Hsort. pose proof (tiles_le _ _ _ Ht) as Hle.
  apply tiles_app in Ht as (mid & HtX & (Hbp & Hn & HtY)). simpl in Hbp, Hn, HtY. subst mid.
  rewrite frees_app, frees_cons in Hp, Hfp, Hlen, Hsort. cbn [b_free app] in Hp, Hfp, Hlen, Hsort.
  assert (HFY : base :: frees X ++ frees Y = C ++ p :: frees Y).
  { change (base :: frees X ++ frees Y) with ((base :: frees X) ++ frees Y). by rewrite HF, <-app_assoc. }
  assert (Efind : free_find (rounds s) fp bp s = Ok (p, s)).
  { apply (find_pred s bp C p (frees Y)); rewrite <-?HFY, <-?HF; try done.
    - constructor; [done|]. apply Forall_forall. intros x [Hx|Hx]%elem_of_app;
        [pose proof (frees_bounds _ _ _ _ HtX Hx)|pose proof (frees_bounds _ _ _ _ HtY Hx)]; pose proof (tiles_le _ _ _ HtX); lia.
    - apply Forall_cons. pose proof (tiles_le _ _ _ HtX). split; [lia|]. apply Forall_forall. intros x Hx.
      pose proof (frees_bounds _ _ _ _ HtX Hx). lia.
    - apply Forall_forall. intros x Hx. pose proof (frees_bounds _ _ _ _ HtY Hx). lia.
    - unfold rounds. simpl length. lia. }
  exists s2, p. unfold free. replace (bp + 1 - 1) with bp by lia.
  erewrite bind_Ok by (unfold freep; erewrite bind_Ok by reflexivity; by rewrite Efp).
  erewrite bind_Ok by reflexivity. erewrite bind_Ok by exact Efind. erewrite bind_Ok by reflexivity.
  assert (Hq : h_ptr s p = default base (head (frees Y))).
  { rewrite HFY in Hp. apply path_app in Hp as [_ [Hp _]]. done. }
  rewrite Hq. erewrite bind_Ok by exact E1. split; [exact E2|]. split; [congruence|].
  split; [rewrite HF; set_solver|]. split; [exact (same_but_trans _ _ _ _ _ Hsame1 Hsame2)|].
  unfold give_back. by destruct (join_right n Y).
Qed.

(** * Taking a block *)

Lemma heap_inv_nodup s T : heap_inv s T → NoDup (base :: frees T) ∧ ∀ x, x ∈ frees T → base < x.
Proof.
  intros [Hb Ht _ _ _ _ _ _]. assert (Hlt : ∀ x, x ∈ frees T → base < x)
    by (intros x Hx; pose proof (frees_bounds _ _ _ _ Ht Hx); lia).
  split; [|done]. apply NoDup_cons. split; [intros Hx%Hlt; lia|]. unfold frees.
  pose proof (frees_sorted _ _ _ Ht) as Hs. unfold frees in Hs. induction Hs as [|x l Hs IH Hx]; [apply NoDup_nil_2|].
  apply NoDup_cons. split; [|done]. intros Hin. eapply Forall_forall in Hx; [|exact Hin]. lia.
Qed.

Lemma nodup_split {A} (a b c d : list A) x : NoDup (a ++ x :: b) → a ++ x :: b = c ++ x :: d → a = c ∧ b = d.
Proof.
  revert c. induction a as [|y a IH]; intros [|z c] Hnd E; simpl in *; apply NoDup_cons in Hnd as [Hx Hnd].
  - by injection E.
  - injection E as <- E2. subst b. destruct Hx. apply elem_of_app. right. by left.
  - injection E as -> E2. destruct Hx. apply elem_of_app. right. by left.
  - injection E as -> E2. destruct (IH c Hnd E2) as [-> ->]. done.
Qed.

(** The block that points to [p] stands before it in the list. *)
Lemma pred_split s T prevp p : heap_inv s T → prevp ∈ base :: frees T → h_ptr s prevp = p → p ≠ base →
  ∃ A B, base :: frees T = A ++ prevp :: p :: B ∧ h_ptr s p = default base (head B).
Proof.
  intros Hi (A & B & E)%list_elem_of_split Hp Hne. pose proof (hi_path _ _ Hi) as Hpath. rewrite E in Hpath.
  apply path_app in Hpath as [_ [Hpp HB]]. rewrite Hp in Hpp.
  destruct B as [|q B]; [done|]. simpl in Hpp. subst q. exists A, B. split; [done|]. apply HB.
Qed.

Lemma take_block_spec s X p m Y n prevp : heap_inv s (X ++ Blk p m true :: Y) →
  prevp ∈ base :: frees (X ++ Blk p m true :: Y) → h_ptr s prevp = p → 1 ≤ n ≤ m →
  ∃ s', take_block n prevp p s = Ok (p + (m - n) + 1, s') ∧ h_brk s' = h_brk s ∧
    same_but [prevp; p; p + (m - n)] s s' ∧
    heap_inv s' (X ++ (if m =? n then [] else [Blk p (m - n) true]) ++ Blk (p + (m - n)) n false :: Y).
Proof.
  intros Hi Hprev Hpp Hn. pose proof Hi as [Hb Ht Htop HJ Hs Hbs Hpath _].
  destruct (heap_inv_nodup _ _ Hi) as [Hnd Hlt].
  assert (HpF : p ∈ frees (X ++ Blk p m true :: Y)) by (rewrite frees_app, frees_cons; set_solver).
  destruct (pred_split _ _ _ _ Hi Hprev Hpp) as (A & B & HF & Hq); [intros ->; pose proof (Hlt _ HpF); lia|].
  assert (Hm : h_size s p = m) by (apply (Hs (Blk p m true)); set_solver).
  apply tiles_app in Ht as (mid & HtX & (Ha & Hm1 & HtY)). simpl in Ha, Hm1, HtY. subst mid.
  pose proof (tiles_le _ _ _ HtX) as HleX. pose proof (tiles_le _ _ _ HtY) as HleY.
  apply joined_app in HJ as (HJX & [HJp HJY] & HJe).
  unfold take_block. erewrite bind_Ok by reflexivity. rewrite Hm. destruct (Z.eqb_spec m n) as [->|Hmn].
  - rewrite Z.sub_diag, Z.add_0_r. rewrite !bind_assoc. do 3 (erewrite bind_Ok by reflexivity; rewrite ?bind_assoc).
    eexists. split; [reflexivity|]. split; [done|]. split; [same_but_tac|].
    assert (HF' : base :: frees (X ++ Blk p n false :: Y) = A ++ prevp :: B).
    { rewrite frees_app, frees_cons in HF, Hnd |- *. cbn [b_free b_addr app] in HF, Hnd |- *.
      destruct (nodup_split (base :: frees X) (frees Y) (A ++ [prevp]) B p) as [HX ->]; [done|by rewrite <-app_assoc|].
      rewrite app_comm_cons, HX, <-app_assoc. done. }
    rewrite app_nil_l. split; try done; cbn [h_ptr h_size h_freep h_brk].
    + apply tiles_app. by exists p.
    + apply joined_app. split_and!; [done| |].
      * destruct Y as [|y Y]; [done|]. by split.
      * intros a b Ha [= <-]. by rewrite andb_false_r.
    + intros b [HX|[-> |HY]%elem_of_cons]%elem_of_app; [apply Hs; set_solver|done|apply Hs; set_solver].
    + rewrite HF'. rewrite HF in Hpath, Hnd. apply path_app in Hpath as [HA [_ [_ HB]]].
      apply NoDup_app in Hnd as (_ & HndA & Hnd). apply NoDup_cons in Hnd as [HnB _].
      assert (HpA : prevp ∉ A) by (intros Hin; apply (HndA _ Hin); by left).
      assert (HpB : prevp ∉ B) by set_solver.
      apply path_app. rewrite path_zupd by done. simpl. rewrite zupd_eq, path_zupd by done. done.
    + exists prevp. split; [done|]. rewrite HF'. set_solver.
  - assert (Hu : u32 (m - n) = m - n) by (apply u32_small; lia). assert (Hu' : u32 n = n) by (apply u32_small; lia).
    rewrite !bind_assoc. do 3 (erewrite bind_Ok by reflexivity; rewrite ?bind_assoc).
    eexists. split; [reflexivity|]. split; [done|]. split; [same_but_tac|]. rewrite Hu, Hu'.
    assert (HF' : frees (X ++ [Blk p (m - n) true] ++ Blk (p + (m - n)) n false :: Y) = frees (X ++ Blk p m true :: Y)).
    { rewrite !frees_app, !frees_cons. done. }
    split; try done; cbn [h_ptr h_size h_freep h_brk].
    + apply tiles_app. exists p. split; [done|]. simpl. split; [done|]. split; [lia|]. split; [done|]. split; [lia|].
      by replace (p + (m - n) + n) with (p + m) by lia.
    + apply joined_app. split_and!; [done| |].
      * split; [done|]. destruct Y as [|y Y]; [done|]. by split.
      * intros a b Ha [= <-]. by apply (HJe a (Blk p m true)).
    + intros b Hb'. change ([Blk p (m - n) true] ++ Blk (p + (m - n)) n false :: Y)
        with (Blk p (m - n) true :: Blk (p + (m - n)) n false :: Y) in Hb'.
      apply elem_of_app in Hb' as [HX|[-> |[-> |HY]%elem_of_cons]%elem_of_cons].
      * pose proof (tiles_bounds _ _ _ _ HtX HX). rewrite !zupd_ne by lia. apply Hs. set_solver.
      * cbn [b_addr b_size]. rewrite zupd_ne by lia. by rewrite zupd_eq.
      * cbn [b_addr b_size]. by rewrite zupd_eq.
      * pose proof (tiles_bounds _ _ _ _ HtY HY). rewrite !zupd_ne by lia. apply Hs. set_solver.
    + rewrite !zupd_ne by lia. done.
    + by rewrite HF'.
    + exists prevp. split; [done|]. by rewrite HF'.
Qed.

(** * The search of [malloc] *)

(** The search along [W], which ends at [freep]: it takes the first block that
    is large enough, or comes to ask for more memory. *)
Lemma malloc_scan s n fp W0 prevp z fuel : h_freep s = Some fp → fp ∉ W0 → path (h_ptr s) (prevp :: W0 ++ [fp]) z →
  (length W0 < fuel)%nat →
  (∃ prev w, prev ∈ prevp :: W0 ∧ w ∈ W0 ++ [fp] ∧ h_ptr s prev = w ∧ n ≤ h_size s w ∧
     malloc_loop fuel n prevp (h_ptr s prevp) s = (r ← take_block n prev w; mret (Some r)) s) ∨
  (Forall (λ w, h_size s w < n) (W0 ++ [fp]) ∧
   malloc_loop fuel n prevp (h_ptr s prevp) s =
     (r ← morecore n; match r with
       | None => mret None
       | Some p => q ← ptr_at p; malloc_loop (fuel - S (length W0)) n p q
       end) s).
Proof.
  intros Hfp. revert prevp fuel. induction W0 as [|w W IH]; intros prevp [|fuel] HW Hp Hf; simpl in Hf; try lia;
    cbn [malloc_loop]; erewrite bind_Ok by reflexivity; destruct Hp as [Hprev Hp]; simpl in Hprev; rewrite Hprev.
  - destruct (Z.leb_spec n (h_size s fp)) as [Hle|Hlt].
    + left. exists prevp, fp. split_and!; try done; set_solver.
    + right. split; [by apply Forall_singleton|]. erewrite bind_Ok by (unfold freep; erewrite bind_Ok by reflexivity; by rewrite Hfp).
      rewrite Z.eqb_refl. simpl. by rewrite Nat.sub_0_r.
  - destruct (Z.leb_spec n (h_size s w)) as [Hle|Hlt].
    + left. exists prevp, w. split_and!; try done; set_solver.
    + erewrite bind_Ok by (unfold freep; erewrite bind_Ok by reflexivity; by rewrite Hfp).
      rewrite (proj2 (Z.eqb_neq w fp)) by set_solver. erewrite bind_Ok by reflexivity.
      destruct (IH w fuel) as [(prev & w' & Hin & Hw' & Hpp & Hn & E)|[Hall E]]; [set_solver|exact Hp|lia|left|right].
      * exists prev, w'. split_and!; try done; set_solver.
      * split; [by apply Forall_cons|done].
Qed.

(** The walk around the list from [freep] back to it. *)
Lemma heap_walk s T : heap_inv s T → ∃ fp W0, h_freep s = Some fp ∧ fp ∈ base :: frees T ∧ fp ∉ W0 ∧
  path (h_ptr s) (fp :: W0 ++ [fp]) (h_ptr s fp) ∧ (∀ x, x ∈ W0 ++ [fp] ↔ x ∈ base :: frees T) ∧
  S (length W0) = S (length (frees T)).
Proof.
  intros Hi. destruct (heap_inv_nodup _ _ Hi) as [Hnd _]. pose proof (hi_path _ _ Hi) as Hp.
  destruct (hi_freep _ _ Hi) as (fp & Hfp & Hin). pose proof Hin as (A & B & E)%list_elem_of_split.
  exists fp, (B ++ A). rewrite E in *. apply path_app in Hp as [HA [Hf HB]].
  apply NoDup_app in Hnd as (_ & HndA & [HndB _]%NoDup_cons).
  split; [done|]. split; [done|]. split.
  { rewrite elem_of_app. intros [?|HinA]; [done|]. apply (HndA _ HinA). by left. }
  assert (Hhead : head (A ++ [fp]) = Some base) by (destruct A; simpl in *; congruence).
  split_and!.
  - rewrite <-app_assoc. change (fp :: B ++ A ++ [fp]) with ([fp] ++ B ++ (A ++ [fp])).
    apply path_app. split; [simpl; split; [|done]|].
    + destruct B; simpl in *; [by rewrite Hhead|done].
    + apply path_app. rewrite Hhead. split; [done|]. apply path_app. split; [done|]. by split.
  - set_solver +.
  - apply (f_equal length) in E. rewrite !length_app in *. simpl in *. lia.
Qed.

Hypothesis grant_top : ∀ b n, grant b n = true → b + n / 8 ≤ 2 ^ 28.

Lemma morecore_spec s T n : heap_inv s T → 1 ≤ n → n * 8 < 2 ^ 31 →
  let nu := Z.max n 4096 in
  (grant (h_brk s) (nu * 8) = false ∧ morecore n s = Ok (None, s)) ∨
  (∃ s' p fp, morecore n s = Ok (Some p, s') ∧ h_freep s' = Some p ∧ h_brk s' = h_brk s + nu ∧
    fp ∈ base :: frees T ∧ same_but [h_brk s; fp] s s' ∧
    heap_inv s' (join_left T (Blk (h_brk s) nu true))).
Proof.
  intros Hi Hn Hn8 nu. pose proof Hi as [Hb Ht Htop HJ Hs Hbs Hp (fp & Efp & Hfp)].
  assert (Hnu : (if n <? 4096 then 4096 else n) = nu) by (unfold nu; destruct (Z.ltb_spec n 4096); lia).
  assert (Hnu8 : s32 (nu * 8) = nu * 8) by (apply s32_small; unfold nu; lia).
  unfold morecore. rewrite Hnu, Hnu8. unfold sbrk. rewrite bind_assoc. erewrite bind_Ok by reflexivity.
  destruct (grant (h_brk s) (nu * 8)) eqn:Eg; [right|left; by split]. apply grant_top in Eg.
  rewrite Z.div_mul in * by lia.
  set (s1 := Heap (h_ptr s) (zupd (h_size s) (h_brk s) (u32 nu)) (h_freep s) (h_brk s + nu)).
  assert (Hu : u32 nu = nu) by (apply u32_small; unfold nu in *; pose proof (tiles_le _ _ _ Ht); lia).
  assert (Hi1 : heap_inv s1 (T ++ Blk (h_brk s) nu false :: [])).
  { pose proof (tiles_le _ _ _ Ht). split; try done; cbn [h_ptr h_size h_freep h_brk s1].
    - apply tiles_app. exists (h_brk s). split; [done|]. simpl. unfold nu. split_and!; lia.
    - apply joined_app. split_and!; try done. intros a b _ [= <-]. by rewrite andb_false_r.
    - rewrite Hu. intros b [HbT| ->%list_elem_of_singleton]%elem_of_app; [|cbn [b_addr b_size]; by rewrite zupd_eq].
      pose proof (tiles_bounds _ _ _ _ Ht HbT). rewrite zupd_ne by lia. by apply Hs.
    - rewrite zupd_ne by lia. done.
    - rewrite frees_app, app_nil_r. done.
    - exists fp. rewrite frees_app, app_nil_r. done. }
  destruct (free_spec s1 T (h_brk s) nu [] Hi1) as (s2 & fp' & E2 & Hbrk2 & Hfp' & Hsame & Hi2).
  unfold give_back in Hi2. cbn [join_right] in Hi2. rewrite app_nil_r in Hi2.
  destruct (hi_freep _ _ Hi2) as (p & Ep & _). exists s2, p, fp'.
  rewrite bind_assoc. erewrite bind_Ok by reflexivity. erewrite bind_Ok by reflexivity. cbv beta iota.
  erewrite bind_Ok by reflexivity. erewrite bind_Ok by exact E2.
  split; [unfold freep; rewrite bind_assoc; erewrite bind_Ok by reflexivity; by rewrite Ep|].
  split; [done|]. split; [done|]. split; [done|]. split; [|done].
  intros x Hx. destruct (Hsame x Hx) as [-> ->]. cbn [h_ptr h_size s1]. split; [done|].
  rewrite zupd_ne by set_solver. done.
Qed.

(** * Live blocks *)

(** The allocated blocks, with their headers. *)
Definition allocs (T : list blk) : list (Z * Z) := (λ b, (b_addr b, b_size b)) <$> filter (λ b, b_free b = false) T.

Lemma allocs_app A B : allocs (A ++ B) = allocs A ++ allocs B.
Proof. unfold allocs. by rewrite filter_app, fmap_app. Qed.

Lemma allocs_cons b T : allocs (b :: T) = (if b_free b then [] else [(b_addr b, b_size b)]) ++ allocs T.
Proof. unfold allocs. rewrite filter_cons. destruct b as [a n []]; simpl; done. Qed.

Lemma elem_of_allocs a n T : (a, n) ∈ allocs T ↔ Blk a n false ∈ T.
Proof.
  unfold allocs. rewrite list_elem_of_fmap. setoid_rewrite list_elem_of_filter. split.
  - by intros ([a' n' f] & [= -> ->] & ? & ?); simpl in *; subst.
  - intros. by exists (Blk a n false).
Qed.

Lemma allocs_join_left X b : b_free b = true → allocs (join_left X b) = allocs X.
Proof.
  intros Hb. destruct X as [|c X _] using rev_ind; [simpl; by rewrite allocs_cons, Hb|].
  rewrite join_left_snoc, !allocs_app. f_equal. destruct (b_free c) eqn:Hc; rewrite !allocs_cons, ?Hc, ?Hb; done.
Qed.

Lemma allocs_release X bp n Y : allocs (give_back X bp n Y) = allocs X ++ allocs Y.
Proof.
  unfold give_back. destruct (join_right n Y) as [m Y'] eqn:E. rewrite allocs_app, allocs_join_left by done. f_equal.
  destruct Y as [|[a k []] Y]; simpl in E; simplify_eq; done.
Qed.

(** Blocks do not overlap. *)
Lemma tiles_apart l T hi b c x : tiles l T hi → b ∈ T → c ∈ T →
  b_addr b ≤ x < b_addr b + b_size b → b_addr c ≤ x < b_addr c + b_size c → b = c.
Proof.
  intros Ht Hb Hc Hxb Hxc. revert l Ht. induction T as [|d T IH]; intros l Ht; [by apply elem_of_nil in Hb|].
  destruct Ht as (Hd & Hs & Ht). apply elem_of_cons in Hb as [->|Hb], Hc as [->|Hc]; try done.
  - pose proof (tiles_bounds _ _ _ _ Ht Hc). lia.
  - pose proof (tiles_bounds _ _ _ _ Ht Hb). lia.
  - by apply (IH Hb Hc (l + b_size d)).
Qed.

(** A unit of a live block. *)
Definition live (T : list blk) (x : Z) : Prop := ∃ a n, (a, n) ∈ allocs T ∧ a ≤ x < a + n.

Definition keeps_live (T : list blk) (s s' : heap) : Prop :=
  ∀ x, live T x → h_ptr s' x = h_ptr s x ∧ h_size s' x = h_size s x.

Lemma live_not_free s T x : heap_inv s T → live T x → x ∉ base :: frees T ∧ x < h_brk s ∧
  ∀ c, c ∈ T → b_free c = true → ¬ (b_addr c ≤ x < b_addr c + b_size c).
Proof.
  intros Hi (a & n & Hin%elem_of_allocs & Hx). pose proof (hi_tiles _ _ Hi) as Ht.
  pose proof (tiles_bounds _ _ _ _ Ht Hin) as Hbd. simpl in Hbd. pose proof (hi_base _ _ Hi).
  assert (Hno : ∀ c, c ∈ T → b_free c = true → ¬ (b_addr c ≤ x < b_addr c + b_size c)).
  { intros c Hc Hf Hxc. assert (E := tiles_apart _ _ _ _ _ x Ht Hin Hc Hx Hxc). by subst c. }
  split; [|split; [lia|done]]. intros [->|(c & Hc & Hf & <-)%elem_of_frees]%elem_of_cons; [lia|].
  apply (Hno c Hc Hf). pose proof (tiles_bounds _ _ _ _ Ht Hc). lia.
Qed.

Lemma same_but_keeps l s s' T : same_but l s s' → (∀ x, live T x → x ∉ l) → keeps_live T s s'.
Proof. intros Hs Hl x Hx. by apply Hs, Hl. Qed.

(** A block that is large enough gives up its tail. *)
Lemma malloc_fit s T n prev w : heap_inv s T → 1 ≤ n → prev ∈ base :: frees T → w ∈ base :: frees T →
  h_ptr s prev = w → n ≤ h_size s w →
  ∃ s' a T', take_block n prev w s = Ok (a + 1, s') ∧ heap_inv s' T' ∧ h_brk s' = h_brk s ∧
    allocs T' ≡ₚ (a, n) :: allocs T ∧ keeps_live T s s'.
Proof.
  intros Hi Hn Hprev Hw Hpw Hsz. apply elem_of_cons in Hw as [->|(b & Hb & Hbf & <-)%elem_of_frees].
  { rewrite (hi_base_size _ _ Hi) in Hsz. lia. }
  rewrite (hi_size _ _ Hi _ Hb) in Hsz. destruct b as [w m f]. simpl in *. subst f.
  pose proof Hb as (X & Y & ->)%list_elem_of_split.
  destruct (take_block_spec s X w m Y n prev Hi Hprev Hpw) as (s' & E & Hbrk & Hsame & Hi'); [lia|].
  exists s', (w + (m - n)). eexists. split; [exact E|]. split; [exact Hi'|]. split; [done|]. split.
  - assert (Hnil : allocs (if m =? n then [] else [Blk w (m - n) true]) = []) by (by destruct (m =? n)).
    rewrite !allocs_app, Hnil, !allocs_cons. simpl. by rewrite Permutation_middle.
  - apply (same_but_keeps _ _ _ _ Hsame). intros x Hx. destruct (live_not_free _ _ _ Hi Hx) as (Hnf & _ & Hno).
    specialize (Hno _ Hb eq_refl). simpl in Hno. rewrite !not_elem_of_cons. pose proof (tiles_bounds _ _ _ _ (hi_tiles _ _ Hi) Hb) as Hbd.
    simpl in Hbd. split_and!; [set_solver|lia|lia|apply not_elem_of_nil].
Qed.

(** Joining leaves a free block that holds [b]. *)
Lemma join_left_free X b l hi : b_free b = true → tiles l (X ++ [b]) hi →
  ∃ c, c ∈ join_left X b ∧ b_free c = true ∧ b_size b ≤ b_size c.
Proof.
  intros Hb Ht. destruct X as [|c X _] using rev_ind; [exists b; set_solver|]. rewrite join_left_snoc.
  assert (Hc : 1 ≤ b_size c) by (apply (tiles_bounds _ _ _ _ Ht); set_solver).
  destruct (b_free c); [|exists b; set_solver]. eexists. split; [apply elem_of_app; right; by left|]. simpl. split; [done|lia].
Qed.

Lemma frees_join_left X b : b_free b = true → (length (frees (join_left X b)) ≤ S (length (frees X)))%nat.
Proof.
  intros Hb. destruct X as [|c X _] using rev_ind; [simpl; by rewrite frees_cons, Hb|].
  rewrite join_left_snoc, !frees_app, !length_app. destruct (b_free c) eqn:Hc; rewrite !frees_cons, ?Hc, ?Hb; simpl; lia.
Qed.

Lemma malloc_loop_spec s T n fp fuel : heap_inv s T → h_freep s = Some fp → 1 ≤ n → n * 8 < 2 ^ 31 →
  (2 * length (frees T) + 3 ≤ fuel)%nat →
  (grant (h_brk s) (Z.max n 4096 * 8) = false ∧ malloc_loop fuel n fp (h_ptr s fp) s = Ok (None, s)) ∨
  ∃ s' a T', malloc_loop fuel n fp (h_ptr s fp) s = Ok (Some (a + 1), s') ∧ heap_inv s' T' ∧
    allocs T' ≡ₚ (a, n) :: allocs T ∧ keeps_live T s s'.
Proof.
  intros Hi Hfp Hn Hn8 Hfuel. destruct (heap_walk s T Hi) as (fp' & W0 & Efp & Hfin & HfW & Hpath & HW & Hlen).
  assert (fp' = fp) as -> by congruence.
  assert (HinW : ∀ prev, prev ∈ fp :: W0 → prev ∈ base :: frees T) by (intros prev [->|?]%elem_of_cons; [done|]; apply HW; set_solver).
  destruct (malloc_scan s n fp W0 fp _ fuel Hfp HfW Hpath) as [(prev & w & Hprev & Hw & Hpw & Hsz & ->)|[Hall ->]]; [lia| |].
  { right. destruct (malloc_fit s T n prev w) as (s' & a & T' & E & Hi' & _ & HA & Hk); auto; [by apply HW|].
    exists s', a, T'. by erewrite bind_Ok by exact E. }
  destruct (morecore_spec s T n Hi Hn Hn8) as [[Hg E]|(s2 & p & fq & E & Hfp2 & Hbrk2 & Hfq & Hsame & Hi2)].
  { left. split; [done|]. by erewrite bind_Ok by exact E. }
  right. erewrite bind_Ok by exact E. cbv beta iota. erewrite bind_Ok by reflexivity.
  set (T2 := join_left T _) in *. set (b2 := Blk (h_brk s) (Z.max n 4096) true) in *.
  destruct (heap_walk s2 T2 Hi2) as (p' & W2 & Ep & Hpin & HpW & Hpath2 & HW2 & Hlen2).
  assert (p' = p) as -> by congruence.
  assert (Hlen3 : (length (frees T2) ≤ S (length (frees T)))%nat) by (by apply frees_join_left).
  destruct (malloc_scan s2 n p W2 p _ (fuel - S (length W0)) Hfp2 HpW Hpath2)
    as [(prev & w & Hprev & Hw & Hpw & Hsz & ->)|[Hall2 _]]; [lia| |exfalso].
  - destruct (malloc_fit s2 T2 n prev w) as (s' & a & T' & E3 & Hi' & _ & HA & Hk); auto.
    { apply elem_of_cons in Hprev as [->|?]; [done|]. apply HW2. set_solver. }
    { by apply HW2. }
    exists s', a, T'. split; [by erewrite bind_Ok by exact E3|]. split; [done|].
    assert (HT2 : allocs T2 = allocs T) by (by apply allocs_join_left). rewrite HT2 in HA. split; [done|].
    intros x Hx. destruct (live_not_free _ _ _ Hi Hx) as (Hnf & Hlt & _).
    destruct (Hk x) as [-> ->]; [unfold live; by rewrite HT2|]. apply Hsame. rewrite !not_elem_of_cons.
    split_and!; [lia| |apply not_elem_of_nil]. intros ->. done.
  - destruct (join_left_free T b2 lo (h_brk s2)) as (c & Hc & Hcf & Hcs); [done| |].
    { apply tiles_app. exists (h_brk s). split; [apply Hi|]. simpl. split_and!; lia. }
    fold T2 in Hc. assert (Hcw : b_addr c ∈ W2 ++ [p]) by (apply HW2, elem_of_cons; right; apply elem_of_frees; eauto).
    eapply Forall_forall in Hall2; [|exact Hcw]. simpl in Hall2. rewrite (hi_size _ _ Hi2 _ Hc) in Hall2. simpl in Hcs. lia.
Qed.

(** A heap before its first use, or in use. *)
Definition heap_ok (s : heap) (T : list blk) : Prop :=
  (h_freep s = None ∧ T = [] ∧ h_brk s = lo ∧ 0 ≤ base < lo ∧ lo ≤ 2 ^ 28) ∨ heap_inv s T.

(** What [malloc] makes of a request: units for it and for the header. *)
Definition units (nbytes : Z) : Z := (nbytes + 7) / 8 + 1.

Lemma malloc_spec s T nbytes : heap_ok s T → 0 ≤ nbytes < 2 ^ 31 - 16 →
  (∃ s', grant (h_brk s) (Z.max (units nbytes) 4096 * 8) = false ∧ malloc nbytes s = Ok (None, s') ∧ heap_ok s' T ∧
     h_brk s' = h_brk s ∧ keeps_live T s s') ∨
  (∃ s' a T', malloc nbytes s = Ok (Some (a + 1), s') ∧ heap_ok s' T' ∧
     allocs T' ≡ₚ (a, units nbytes) :: allocs T ∧ keeps_live T s s').
Proof.
  intros Hok Hn. assert (Hu : u32 (nbytes + 8 - 1) / 8 + 1 = units nbytes).
  { unfold units. rewrite u32_small by lia. do 2 f_equal. lia. }
  assert (Hun : 1 ≤ units nbytes ∧ units nbytes * 8 < 2 ^ 31).
  { unfold units. pose proof (Z.div_mod (nbytes + 7) 8 ltac:(lia)). pose proof (Z.mod_pos_bound (nbytes + 7) 8 ltac:(lia)). lia. }
  unfold malloc. rewrite Hu. erewrite bind_Ok by reflexivity.
  assert (Hgo : ∀ s1 fp, heap_inv s1 T → h_freep s1 = Some fp → h_brk s1 = h_brk s → keeps_live T s s1 →
    ∃ r s', (p ← ptr_at fp; n ← mget rounds; malloc_loop (n + (n + 2)) (units nbytes) fp p) s1 = Ok (r, s') ∧
      ((r = None ∧ grant (h_brk s) (Z.max (units nbytes) 4096 * 8) = false ∧ heap_ok s' T ∧ h_brk s' = h_brk s ∧ keeps_live T s s') ∨
       ∃ a T', r = Some (a + 1) ∧ heap_ok s' T' ∧ allocs T' ≡ₚ (a, units nbytes) :: allocs T ∧ keeps_live T s s')).
  { intros s1 fp Hi Hfp Hbrk Hk. do 2 erewrite bind_Ok by reflexivity.
    pose proof (frees_length _ _ _ (hi_tiles _ _ Hi)). pose proof (hi_base _ _ Hi).
    destruct (malloc_loop_spec s1 T (units nbytes) fp (rounds s1 + (rounds s1 + 2)) Hi Hfp) as [[Hg E]|(s' & a & T' & E & Hi' & HA & Hk')];
      [lia|lia|unfold rounds; lia| |].
    - rewrite Hbrk in Hg. exists None, s1. split; [exact E|]. left. split_and!; try done. by right.
    - exists (Some (a + 1)), s'. split; [exact E|]. right. exists a, T'. split_and!; try done; [by right|].
      intros x Hx. destruct (Hk' x Hx) as [-> ->]. by apply Hk. }
  assert (Hend : ∀ s1 fp m, heap_inv s1 T → h_freep s1 = Some fp → h_brk s1 = h_brk s → keeps_live T s s1 →
    m s = Ok (fp, s1) → (∃ s', grant (h_brk s) (Z.max (units nbytes) 4096 * 8) = false ∧
      (prevp ← m; p ← ptr_at prevp; n ← mget rounds; malloc_loop (n + (n + 2)) (units nbytes) prevp p) s = Ok (None, s') ∧ heap_ok s' T ∧
      h_brk s' = h_brk s ∧ keeps_live T s s') ∨
     (∃ s' a T', (prevp ← m; p ← ptr_at prevp; n ← mget rounds; malloc_loop (n + (n + 2)) (units nbytes) prevp p) s = Ok (Some (a + 1), s') ∧
      heap_ok s' T' ∧ allocs T' ≡ₚ (a, units nbytes) :: allocs T ∧ keeps_live T s s')).
  { intros s1 fp m Hi Hfp Hbrk Hk Em. destruct (Hgo s1 fp Hi Hfp Hbrk Hk) as (r & s' & E & [(-> & H)|(a & T' & -> & H)]).
    - left. exists s'. erewrite bind_Ok by exact Em. by destruct H as (? & ? & ? & ?).
    - right. exists s', a, T'. by erewrite bind_Ok by exact Em. }
  destruct Hok as [(Hnone & -> & Hbrk & Hb & Htop)|Hi].
  - rewrite Hnone. apply (Hend (Heap (zupd (h_ptr s) base base) (zupd (h_size s) base 0) (Some base) (h_brk s)) base); try done.
    + split; try done; cbn [h_ptr h_size h_freep h_brk].
      * lia.
      * by intros b []%elem_of_nil.
      * by rewrite zupd_eq.
      * simpl. by rewrite zupd_eq.
      * exists base. set_solver.
    + by intros x (a & n & []%elem_of_nil & _).
  - destruct (hi_freep _ _ Hi) as (fp & Hfp & _). rewrite Hfp. by apply (Hend s fp).
Qed.

Lemma free_live s T a n : heap_ok s T → (a, n) ∈ allocs T →
  ∃ s' T', free (a + 1) s = Ok (tt, s') ∧ heap_ok s' T' ∧ allocs T ≡ₚ (a, n) :: allocs T' ∧ keeps_live T' s s'.
Proof.
  intros [(_ & -> & _)|Hi] Hin; [by apply elem_of_nil in Hin|]. apply elem_of_allocs in Hin as (X & Y & ->)%list_elem_of_split.
  destruct (free_spec s X a n Y Hi) as (s' & p & E & Hbrk & Hp & Hsame & Hi'). exists s', (give_back X a n Y).
  split; [done|]. split; [by right|]. rewrite allocs_release. split.
  { rewrite allocs_app, allocs_cons. simpl. by rewrite Permutation_middle. }
  intros x (b & m & Hb & Hx). rewrite allocs_release in Hb. apply Hsame.
  assert (Hlive : live (X ++ Blk a n false :: Y) x).
  { exists b, m. split; [|done]. rewrite allocs_app, allocs_cons. set_solver. }
  destruct (live_not_free _ _ _ Hi Hlive) as (Hnf & _ & _). rewrite !not_elem_of_cons. split_and!.
  - intros ->. pose proof (hi_tiles _ _ Hi) as Ht. assert (Hbin : Blk b m false ∈ X ++ Y).
    { apply elem_of_app in Hb as [Hb%elem_of_allocs|Hb%elem_of_allocs]; set_solver. }
    pose proof (tiles_nodup _ _ _ Ht) as Hnd.
    assert (E2 : Blk b m false = Blk a n false).
    { apply (tiles_apart _ _ _ _ _ a Ht); simpl; [set_solver|set_solver|lia|].
      assert (1 ≤ b_size (Blk a n false)) by (apply (tiles_bounds _ _ _ _ Ht); set_solver). simpl in *. lia. }
    rewrite E2 in Hbin. rewrite fmap_app in Hnd. apply NoDup_app in Hnd as (_ & Hd & Hnd).
    apply NoDup_cons in Hnd as [Hnd _]. apply elem_of_app in Hbin as [HX|HY].
    + apply (Hd a); [by apply (list_elem_of_fmap_2 b_addr) in HX|by left].
    + apply Hnd. by apply (list_elem_of_fmap_2 b_addr) in HY.
  - intros ->. apply Hnf. rewrite frees_app. set_solver.
  - apply not_elem_of_nil.
Qed.

(** A program that calls [malloc] and [free]; [A] are the blocks it holds, each
    with the units of its header. *)
Inductive mstep : heap * list (Z * Z) → heap * list (Z * Z) → Prop :=
| ms_malloc s A nbytes s' a : 0 ≤ nbytes < 2 ^ 31 - 16 → malloc nbytes s = Ok (Some (a + 1), s') →
    mstep (s, A) (s', (a, units nbytes) :: A)
| ms_fail s A nbytes s' : 0 ≤ nbytes < 2 ^ 31 - 16 → malloc nbytes s = Ok (None, s') → mstep (s, A) (s', A)
| ms_free s A A1 A2 a n s' : A = A1 ++ (a, n) :: A2 → free (a + 1) s = Ok (tt, s') → mstep (s, A) (s', A1 ++ A2).

Definition unused (s : heap) : Prop := h_freep s = None ∧ h_brk s = lo ∧ 0 ≤ base < lo ∧ lo ≤ 2 ^ 28.

Definition holds_blocks (x : heap * list (Z * Z)) : Prop := ∃ T, heap_ok x.1 T ∧ allocs T ≡ₚ x.2.

Lemma mstep_keeps x y : mstep x y → holds_blocks x → holds_blocks y.
Proof.
  intros [s A nbytes s' a Hn E|s A nbytes s' Hn E|s A A1 A2 a n s' -> E] (T & Hok & HA); simpl in *.
  - destruct (malloc_spec s T nbytes Hok Hn) as [(s2 & _ & E2 & _)|(s2 & a2 & T' & E2 & Hok' & HA' & _)].
    + congruence.
    + assert (a2 = a ∧ s2 = s') as [-> ->] by (split; [|congruence]; assert (a2 + 1 = a + 1) by congruence; lia).
      exists T'. split; [done|]. simpl. by rewrite HA', HA.
  - destruct (malloc_spec s T nbytes Hok Hn) as [(s2 & _ & E2 & Hok' & _)|(s2 & a2 & T' & E2 & _)]; [|congruence].
    assert (s2 = s') as -> by congruence. by exists T.
  - destruct (free_live s T a n Hok) as (s2 & T' & E2 & Hok' & HA' & _); [rewrite HA; set_solver|].
    assert (s2 = s') as -> by congruence. exists T'. split; [done|]. simpl.
    apply (Permutation_cons_inv (a := (a, n))). by rewrite <-HA', HA, Permutation_middle.
Qed.

Lemma mstep_inv s0 s A : unused s0 → rtc mstep (s0, []) (s, A) → ∃ T, heap_ok s T ∧ allocs T ≡ₚ A.
Proof.
  intros (Hf & Hb & Hlo & Htop) Hr. assert (H0 : holds_blocks (s0, [])) by (exists []; split; [by left|done]).
  change (holds_blocks (s, A)). induction Hr as [|x y z Hst _ IH]; [done|]. apply IH. by eapply mstep_keeps.
Qed.

Lemma allocs_disjoint s T : heap_ok s T →
  (∀ a n, (a, n) ∈ allocs T → lo ≤ a ∧ 1 ≤ n ∧ a + n ≤ h_brk s) ∧
  (∀ a n b m, (a, n) ∈ allocs T → (b, m) ∈ allocs T → (a, n) = (b, m) ∨ a + n ≤ b ∨ b + m ≤ a).
Proof.
  intros Hok. destruct Hok as [(_ & -> & _)|Hi].
  { split; [by intros a n []%elem_of_nil|by intros a n b m []%elem_of_nil]. }
  pose proof (hi_tiles _ _ Hi) as Ht. split.
  - intros a n Hin%elem_of_allocs. apply (tiles_bounds _ _ _ _ Ht Hin).
  - intros a n b m Ha%elem_of_allocs Hb%elem_of_allocs.
    pose proof (tiles_bounds _ _ _ _ Ht Ha). pose proof (tiles_bounds _ _ _ _ Ht Hb). simpl in *.
    destruct (decide (a + n ≤ b)); [by auto|]. destruct (decide (b + m ≤ a)); [by auto|]. left.
    assert (E : Blk a n false = Blk b m false) by (apply (tiles_apart _ _ _ _ _ (Z.max a b) Ht); simpl; (done || lia)).
    congruence.
Qed.

Lemma allocs_nodup s T : heap_ok s T → NoDup (allocs T).
Proof.
  intros [(_ & -> & _)|Hi]; [apply NoDup_nil_2|]. apply (NoDup_fmap_1 fst). pose proof (tiles_nodup _ _ _ (hi_tiles _ _ Hi)) as Hnd.
  clear Hi. induction T as [|b T IH]; [apply NoDup_nil_2|]. apply NoDup_cons in Hnd as [Hb Hnd]. rewrite allocs_cons.
  destruct (b_free b); [by apply IH|]. simpl. apply NoDup_cons. split; [|by apply IH].
  intros ([a n] & E & Hin%elem_of_allocs)%list_elem_of_fmap. simpl in E. apply Hb. rewrite E. by apply (list_elem_of_fmap_2 b_addr) in Hin.
Qed.

(** The contents of the units of the blocks [A]. *)
Definition keeps (A : list (Z * Z)) (s s' : heap) : Prop :=
  ∀ a n x, (a, n) ∈ A → a ≤ x < a + n → h_ptr s' x = h_ptr s x ∧ h_size s' x = h_size s x.

Lemma keeps_live_perm T A s s' : allocs T ≡ₚ A → keeps_live T s s' → keeps A s s'.
Proof. intros HA Hk a n x Hin Hx. apply Hk. exists a, n. by rewrite HA. Qed.

(** C36. For requests of fewer than 2^31 - 16 bytes (with larger ones the
    arithmetic of [malloc] can wrap around): in every state that calls of
    [malloc] and [free] can lead to, the blocks the program holds lie in the
    heap and do not overlap; [malloc] returns, with a block large enough that
    overlaps none of them or, when the kernel refuses memory, with null; [free]
    of any of them returns; and neither writes to a block that the program
    holds. *)
Theorem malloc_free_safe s0 s A : unused s0 → rtc mstep (s0, []) (s, A) →
  (∀ a n, (a, n) ∈ A → lo ≤ a ∧ a + n ≤ h_brk s) ∧
  (∀ a n b m, (a, n) ∈ A → (b, m) ∈ A → (a, n) = (b, m) ∨ a + n ≤ b ∨ b + m ≤ a) ∧
  (∀ nbytes, 0 ≤ nbytes < 2 ^ 31 - 16 →
     ∃ r s', malloc nbytes s = Ok (r, s') ∧ keeps A s s' ∧
       match r with
       | None => grant (h_brk s) (Z.max (units nbytes) 4096 * 8) = false
       | Some ap => ∃ n, nbytes ≤ 8 * (n - 1) ∧ ∀ b m, (b, m) ∈ A → ap - 1 + n ≤ b ∨ b + m ≤ ap - 1
       end) ∧
  (∀ A1 A2 a n, A = A1 ++ (a, n) :: A2 → ∃ s', free (a + 1) s = Ok (tt, s') ∧ keeps (A1 ++ A2) s s').
Proof.
  intros H0 (T & Hok & HA)%mstep_inv; [|done]. destruct (allocs_disjoint s T Hok) as [Hin Hdis].
  assert (Hmem : ∀ x, x ∈ A → x ∈ allocs T) by (intros x; by rewrite HA).
  split; [intros a n Ha%Hmem; by destruct (Hin a n Ha) as (? & _ & ?)|].
  split; [intros a n b m Ha%Hmem Hb%Hmem; by apply Hdis|]. split.
  - intros nbytes Hn. destruct (malloc_spec s T nbytes Hok Hn) as [(s' & Hg & E & _ & _ & Hk)|(s' & a & T' & E & Hok' & HA' & Hk)].
    + exists None, s'. split; [done|]. split; [by eapply keeps_live_perm|done].
    + exists (Some (a + 1)), s'. split; [done|]. split; [by eapply keeps_live_perm|]. exists (units nbytes). split.
      { unfold units. pose proof (Z.div_mod (nbytes + 7) 8 ltac:(lia)). pose proof (Z.mod_pos_bound (nbytes + 7) 8 ltac:(lia)). lia. }
      intros b m Hb. replace (a + 1 - 1) with a by lia. destruct (allocs_disjoint s' T' Hok') as [Hin' Hdis'].
      pose proof (allocs_nodup s' T' Hok') as Hnd. rewrite HA' in Hnd. apply NoDup_cons in Hnd as [Hnew _].
      destruct (Hdis' a (units nbytes) b m) as [E'|?]; [rewrite HA'; by left|rewrite HA'; right; by apply Hmem| |done].
      destruct Hnew. rewrite E'. by apply Hmem.
  - intros A1 A2 a n ->. destruct (free_live s T a n Hok) as (s' & T' & E & _ & HA' & Hk); [rewrite HA; set_solver|].
    exists s'. split; [done|]. eapply keeps_live_perm; [|exact Hk].
    apply (Permutation_cons_inv (a := (a, n))). by rewrite <-HA', HA, Permutation_middle.
Qed.

Lemma joined_all_free T : joined T → allocs T = [] → T = [] ∨ ∃ b, T = [b] ∧ b_free b = true.
Proof.
  destruct T as [|b [|c T]]; [by left| |]; rewrite !allocs_cons.
  - intros _ H. right. exists b. by destruct (b_free b).
  - intros [Hbc _] H. destruct (b_free b), (b_free c); done.
Qed.

(** No memory is lost: when the program has freed all its blocks the heap is
    one free block, the only one on the free list, of all the memory that the
    allocator has got from the kernel. *)
Lemma free_all_joins s0 s : unused s0 → rtc mstep (s0, []) (s, []) →
  h_brk s = lo ∨
  (h_ptr s base = lo ∧ h_ptr s lo = base ∧ h_size s lo = h_brk s - lo).
Proof.
  intros H0 (T & Hok & HA)%mstep_inv; [|done]. apply Permutation_nil_r in HA. destruct Hok as [(_ & _ & ? & _)|Hi]; [by left|].
  destruct (joined_all_free T (hi_joined _ _ Hi) HA) as [->|(b & -> & Hb)].
  - left. symmetry. exact (hi_tiles _ _ Hi).
  - right. destruct Hi as [_ (Ha & _ & Ht) _ _ Hs _ Hp _]. rewrite frees_cons, Hb in Hp. destruct Hp as (Hp1 & Hp2 & _).
    simpl in Ht, Hp1, Hp2. rewrite Ha in *. split_and!; [done..|]. rewrite <-Ha at 1. rewrite Hs by (by left). lia.
Qed.

(** A request within eight bytes of 2^32 wraps around: [malloc] treats it as
    a request for no bytes at all, and returns a block with no room. *)
Lemma malloc_huge_wraps nbytes s : 2 ^ 32 - 7 ≤ nbytes < 2 ^ 32 → malloc nbytes s = malloc 0 s.
Proof.
  intros Hn. unfold malloc. assert (E : u32 (nbytes + 8 - 1) / 8 + 1 = u32 (0 + 8 - 1) / 8 + 1); [|by rewrite E].
  unfold u32. replace (nbytes + 8 - 1) with (nbytes + 7 - 2 ^ 32 + 1 * 2 ^ 32) by lia. rewrite Z_mod_plus_full, Z.mod_small by lia.
  rewrite Z.div_small by lia. reflexivity.
Qed.
End umalloc.

(** * Examples *)

(** A heap from unit 16 on, and a kernel that gives up to 2^28 units. *)
Definition sample_grant (b n : Z) : bool := b + n / 8 <=? 2 ^ 28.
Definition sample_heap : heap := Heap (λ _, 0) (λ _, 0) None 16.

Definition after {A} (m : M heap A) (s : heap) : heap := match m s with Ok (_, s) => s | _ => s end.
Definition heap1 : heap := after (malloc 8 sample_grant 100) sample_heap.
Definition heap2 : heap := after (malloc 8 sample_grant 20) heap1.
Definition heap3 : heap := after (free 8 4099) heap2.
Definition heap4 : heap := after (free 8 4095) heap3.

Lemma sample_grant_top b n : sample_grant b n = true → b + n / 8 ≤ 2 ^ 28.
Proof. apply Z.leb_le. Qed.

Lemma sample_unused : unused 8 16 sample_heap.
Proof. split; [done|]. split; [done|]. lia. Qed.

Lemma sample_run : rtc (mstep 8 sample_grant) (sample_heap, []) (heap2, [(4094, 4); (4098, 14)]).
Proof.
  eapply rtc_l; [apply (ms_malloc _ _ sample_heap [] 100 heap1 4098); [lia|vm_compute; reflexivity]|].
  apply rtc_once. apply (ms_malloc _ _ heap1 [(4098, 14)] 20 heap2 4094); [lia|vm_compute; reflexivity].
Qed.

Lemma malloc_free_safe_witness :
  4094 + 4 ≤ 4098 ∧ ∃ s', free 8 (4098 + 1) heap2 = Ok (tt, s') ∧ keeps [(4094, 4)] heap2 s'.
Proof.
  destruct (malloc_free_safe 8 sample_grant 16 sample_grant_top sample_heap heap2 _ sample_unused sample_run)
    as (_ & Hdis & _ & Hfree).
  split; [destruct (Hdis 4094 4 4098 14) as [E|[E|E]]; [set_solver|set_solver|congruence|exact E|lia]|].
  exact (Hfree [(4094, 4)] [] 4098 14 eq_refl).
Defined.

