(* ===== verification/Programs.v ===== *)
(** User programs: [gets] of ulib.c, cat.c, wc.c, echo.c and grep.c.

    A program sees its descriptors as streams: what the calls of [read] will
    return one after the other.  A call that asks for less than the next
    piece gets the front of it, so a file is a stream of one piece and a pipe
    or a console one of many.  A call that ends the process returns [true]. *)

From Stdlib Require Import ZArith Lia Ascii String.
From stdpp Require Import base numbers strings option gmap sets list list_numbers.
From S2P Require Import Prelude Mem Block Printf Shell.

(** * Descriptors *)

Inductive piece := Data (l : list Z) | Fail.
Definition stream : Type := list piece.

(** The descriptors, what the coming calls of [write] will do ([false] fails,
    the end of the list never does), and what has been written. *)
Record uproc := UProc {
  u_fds : list (option stream);
  u_wok : list bool;
  u_out : list (Z * list Z)
}.

Section programs.
(** What can be opened for reading. *)
Variable files : list Z → option stream.

Definition stream_read (n : Z) (s : stream) : Z * list Z * stream :=
  match s with
  | [] => (0, [], [])
  | Fail :: s => (-1, [], s)
  | Data l :: s =>
      if Z.of_nat (length l) <=? n then (Z.of_nat (length l), l, s)
      else (n, take (Z.to_nat n) l, Data (drop (Z.to_nat n) l) :: s)
  end.

Definition u_read (fd n : Z) : M uproc (Z * list Z) := λ u,
  match u_fds u !! Z.to_nat fd with
  | Some (Some s) =>
      let '(r, l, s) := stream_read n s in
      Ok ((r, l), UProc (<[Z.to_nat fd := Some s]> (u_fds u)) (u_wok u) (u_out u))
  | _ => Ok ((-1, []), u)
  end.

Definition u_write (fd : Z) (l : list Z) : M uproc Z := λ u,
  match u_wok u with
  | false :: w => Ok (-1, UProc (u_fds u) w (u_out u))
  | w => Ok (Z.of_nat (length l), UProc (u_fds u) (drop 1 w) (u_out u ++ [(fd, l)]))
  end.

Definition u_open (name : list Z) : M uproc Z := λ u,
  match files name, list_find (λ x, x = None) (u_fds u) with
  | Some s, Some (fd, _) => Ok (Z.of_nat fd, UProc (<[fd := Some s]> (u_fds u)) (u_wok u) (u_out u))
  | _, _ => Ok (-1, u)
  end.

Definition u_close (fd : Z) : M uproc unit :=
  mmod (λ u, UProc (<[Z.to_nat fd := None]> (u_fds u)) (u_wok u) (u_out u)).

(** [printf(fd, ..)] writes each character on its own. *)
Fixpoint put_chars (fd : Z) (l : list Z) : M uproc unit :=
  match l with [] => mret tt | c :: l => u_write fd [c];; put_chars fd l end.
Definition uprintf (fd : Z) (fmt : list Z) (ap : list arg) : M uproc unit :=
  t ← mopt (printf fmt ap); put_chars fd t.

(** * cat *)

Fixpoint cat (fuel : nat) (fd : Z) : M uproc bool :=
  match fuel with
  | O => mnofuel
  | S fuel =>
      r ← u_read fd 512;
      if 0 <? r.1 then
        w ← u_write 1 r.2;
        if negb (w =? r.1) then uprintf 1 (chars "cat: write error" ++ [10]) [];; mret true
        else cat fuel fd
      else if r.1 <? 0 then uprintf 1 (chars "cat: read error" ++ [10]) [];; mret true
      else mret false
  end.

Fixpoint cat_files (fuel : nat) (argv : list (list Z)) : M uproc unit :=
  match argv with
  | [] => mret tt
  | a :: argv =>
      fd ← u_open a;
      if fd <? 0 then uprintf 1 (chars "cat: cannot open %s" ++ [10]) [AStr (Some a)]
      else
        e ← cat fuel fd;
        if (e : bool) then mret tt else u_close fd;; cat_files fuel argv
  end.

(** [argv] without the name of the program. *)
Definition cat_main (fuel : nat) (argv : list (list Z)) : M uproc unit :=
  match argv with [] => cat fuel 0;; mret tt | _ => cat_files fuel argv end.

(** * wc *)

Record wcount := WCount { wc_l : Z; wc_w : Z; wc_c : Z; wc_inword : bool }.
Definition wc_space : list Z := [32; 13; 9; 10; 11].

Definition wc_char (x : wcount) (ch : Z) : wcount :=
  let c := s32 (wc_c x + 1) in
  let l := if ch =? 10 then s32 (wc_l x + 1) else wc_l x in
  if strchr wc_space ch then WCount l (wc_w x) c false
  else if negb (wc_inword x) then WCount l (s32 (wc_w x + 1)) c true
  else WCount l (wc_w x) c (wc_inword x).

Fixpoint wc_loop (fuel : nat) (fd : Z) (x : wcount) : M uproc (Z * wcount) :=
  match fuel with
  | O => mnofuel
  | S fuel =>
      r ← u_read fd 512;
      if 0 <? r.1 then wc_loop fuel fd (foldl wc_char x r.2) else mret (r.1, x)
  end.

Definition wc (fuel : nat) (fd : Z) (name : list Z) : M uproc bool :=
  r ← wc_loop fuel fd (WCount 0 0 0 false);
  if r.1 <? 0 then uprintf 1 (chars "wc: read error" ++ [10]) [];; mret true
  else
    uprintf 1 (chars "%d %d %d %s" ++ [10]) [AInt (wc_l r.2); AInt (wc_w r.2); AInt (wc_c r.2); AStr (Some name)];;
    mret false.

Fixpoint wc_files (fuel : nat) (argv : list (list Z)) : M uproc unit :=
  match argv with
  | [] => mret tt
  | a :: argv =>
      fd ← u_open a;
      if fd <? 0 then uprintf 1 (chars "wc: cannot open %s" ++ [10]) [AStr (Some a)]
      else
        e ← wc fuel fd a;
        if (e : bool) then mret tt else u_close fd;; wc_files fuel argv
  end.

Definition wc_main (fuel : nat) (argv : list (list Z)) : M uproc unit :=
  match argv with [] => wc fuel 0 [];; mret tt | _ => wc_files fuel argv end.

(** * echo *)

Fixpoint echo_main (argv : list (list Z)) : M uproc unit :=
  match argv with
  | [] => mret tt
  | a :: argv =>
      uprintf 1 (chars "%s%s") [AStr (Some a); AStr (Some match argv with [] => [10] | _ => [32] end)];;
      echo_main argv
  end.

(** * grep *)

(** The loop of [matchstar], with [matchhere(re, .)] as [mh]. *)
Fixpoint matchstar (mh : list Z → bool) (c : Z) (text : list Z) : bool :=
  if mh text then true
  else match text with
       | [] => false
       | x :: text => if (x =? c) || (c =? 46) then matchstar mh c text else false
       end.

(** [re] and [text] are C strings without their NUL. *)
Fixpoint matchhere (re text : list Z) {struct re} : bool :=
  match re with
  | [] => true
  | c :: re1 =>
      match re1 with
      | c2 :: re2 =>
          if c2 =? 42 then matchstar (matchhere re2) c text
          else match text with
               | x :: text => if (c =? 46) || (c =? x) then matchhere re1 text else false
               | [] => false
               end
      | [] =>
          if c =? 36 then match text with [] => true | _ => false end
          else match text with
               | x :: text => if (c =? 46) || (c =? x) then matchhere re1 text else false
               | [] => false
               end
      end
  end.

Fixpoint match_loop (re text : list Z) : bool :=
  if matchhere re text then true
  else match text with [] => false | _ :: text => match_loop re text end.

Definition re_match (re text : list Z) : bool :=
  match re with
  | c :: re1 => if c =? 94 then matchhere re1 text else match_loop re text
  | [] => match_loop re text
  end.

(** [strchr(p, '\n')]: the line up to it and the rest, if there is one before
    the NUL. *)
Fixpoint find_nl (p : list Z) : option (list Z * list Z) :=
  match p with
  | [] => None
  | c :: p =>
      if c =? 0 then None
      else if c =? 10 then Some ([], p)
      else '(l, r) ← find_nl p; Some (c :: l, r)
  end.

(** The inner loop of [grep] over the bytes from [p] on: what is left. *)
Fixpoint grep_lines (fuel : nat) (pattern p : list Z) : M uproc (list Z) :=
  match fuel with
  | O => mnofuel
  | S fuel =>
      match find_nl p with
      | Some (l, r) =>
          (if re_match pattern l then u_write 1 (l ++ [10]);; mret tt else mret tt);;
          grep_lines fuel pattern r
      | None => mret p
      end
  end.

(** [pend] are the [m] bytes at the start of [buf]. *)
Fixpoint grep_loop (fuel : nat) (pattern : list Z) (fd : Z) (pend : list Z) : M uproc unit :=
  match fuel with
  | O => mnofuel
  | S fuel =>
      r ← u_read fd (1024 - Z.of_nat (length pend) - 1);
      if 0 <? r.1 then
        let b := pend ++ r.2 in
        p ← grep_lines (S (length b)) pattern b;
        grep_loop fuel pattern fd (if (length p =? length b)%nat then [] else p)
      else mret tt
  end.

Definition grep (fuel : nat) (pattern : list Z) (fd : Z) : M uproc unit := grep_loop fuel pattern fd [].

Fixpoint grep_files (fuel : nat) (pattern : list Z) (argv : list (list Z)) : M uproc unit :=
  match argv with
  | [] => mret tt
  | a :: argv =>
      fd ← u_open a;
      if fd <? 0 then uprintf 1 (chars "grep: cannot open %s" ++ [10]) [AStr (Some a)]
      else grep fuel pattern fd;; u_close fd;; grep_files fuel pattern argv
  end.

Definition grep_main (fuel : nat) (argv : list (list Z)) : M uproc unit :=
  match argv with
  | [] => uprintf 2 (chars "usage: grep pattern [file ...]" ++ [10]) []
  | [pattern] => grep fuel pattern 0
  | pattern :: argv => grep_files fuel pattern argv
  end.

(** * gets *)

(** The loop of [gets] with room for [n] more characters. *)
Fixpoint gets_loop (n : nat) : M uproc (list Z) :=
  match n with
  | O => mret []
  | S n =>
      r ← u_read 0 1;
      if r.1 <? 1 then mret []
      else
        let c := default 0 (head r.2) in
        if (c =? 10) || (c =? 13) then mret [c]
        else l ← gets_loop n; mret (c :: l)
  end.
Definition gets (max : Z) : M uproc (list Z) := gets_loop (Z.to_nat (max - 1)).
End programs.

(** * The language of patterns *)

Inductive atom := Lit (c : Z) | Any.
Inductive item := One (a : atom) | Star (a : atom) | End.

Definition sat (a : atom) (x : Z) : Prop := match a with Lit c => x = c | Any => True end.
Definition atom_of (c : Z) : atom := if c =? 46 then Any else Lit c.

(** The pattern after a caret at its start. *)
Fixpoint items (re : list Z) : list item :=
  match re with
  | [] => []
  | c :: re1 =>
      match re1 with
      | c2 :: re2 => if c2 =? 42 then Star (atom_of c) :: items re2 else One (atom_of c) :: items re1
      | [] => if c =? 36 then [End] else [One (atom_of c)]
      end
  end.

(** The items match the start of a text. *)
Inductive matches : list item → list Z → Prop :=
| matches_nil t : matches [] t
| matches_one a ys x t : sat a x → matches ys t → matches (One a :: ys) (x :: t)
| matches_star a ys l t : Forall (sat a) l → matches ys t → matches (Star a :: ys) (l ++ t)
| matches_end : matches [End] [].

(** A pattern is found in a text: at its start after a caret, anywhere
    without. *)
Definition found (re text : list Z) : Prop :=
  match re with
  | c :: re1 => if c =? 94 then matches (items re1) text else ∃ l t, text = l ++ t ∧ matches (items re) t
  | [] => True
  end.

Lemma sat_dec c x : (x =? c) || (c =? 46) = true ↔ sat (atom_of c) x.
Proof.
  unfold atom_of. destruct (Z.eqb_spec c 46); [rewrite orb_true_r; done|]. rewrite orb_false_r. cbn. apply Z.eqb_eq.
Qed.

Lemma sat_dec' c x : (c =? 46) || (c =? x) = true ↔ sat (atom_of c) x.
Proof. rewrite orb_comm, Z.eqb_sym. apply sat_dec. Qed.

(** [matchstar] tries every number of instances. *)
Lemma matchstar_spec mh c text : matchstar mh c text = true ↔
  ∃ l t, text = l ++ t ∧ Forall (sat (atom_of c)) l ∧ mh t = true.
Proof.
  induction text as [|x text IH]; cbn [matchstar].
  - destruct (mh []) eqn:E; split; try done; [by exists [], []|].
    intros (l & t & Hl & _ & Ht). symmetry in Hl. apply app_nil in Hl as [-> ->]. congruence.
  - destruct (mh (x :: text)) eqn:E; [split; [by exists [], (x :: text)|done]|].
    split.
    + destruct ((x =? c) || (c =? 46)) eqn:Es; [|done]. intros (l & t & -> & Hl & Ht)%IH. apply sat_dec in Es.
      exists (x :: l), t. split_and!; [done|by constructor|done].
    + intros ([|y l] & t & Hl & Hs & Ht); cbn in Hl; [subst t; congruence|]. injection Hl as <- ->.
      apply Forall_cons in Hs as [Hx Hs]. rewrite (proj2 (sat_dec c x) Hx). apply IH. eauto.
Qed.

Lemma matches_one_inv a ys text : matches (One a :: ys) text ↔ ∃ x t, text = x :: t ∧ sat a x ∧ matches ys t.
Proof. split; [inversion 1; subst; eauto|]. intros (x & t & -> & ? & ?). by constructor. Qed.

Lemma matches_star_inv a ys text : matches (Star a :: ys) text ↔ ∃ l t, text = l ++ t ∧ Forall (sat a) l ∧ matches ys t.
Proof. split; [inversion 1; subst; eauto|]. intros (l & t & -> & ? & ?). by constructor. Qed.

Lemma one_spec c (f : list Z → bool) ys text : (∀ t, f t = true ↔ matches ys t) →
  match text with x :: text => if (c =? 46) || (c =? x) then f text else false | [] => false end = true ↔
  matches (One (atom_of c) :: ys) text.
Proof.
  intros Hf. rewrite matches_one_inv. destruct text as [|x text].
  - split; [done|]. by intros (? & ? & ? & _).
  - split.
    + destruct ((c =? 46) || (c =? x)) eqn:Es; [|done]. intros Ht%Hf. exists x, text. by rewrite <-sat_dec'.
    + intros (? & ? & [= <- <-] & Hs & Ht). rewrite (proj2 (sat_dec' c x) Hs). by apply Hf.
Qed.

Lemma matchhere_spec re : ∀ text, matchhere re text = true ↔ matches (items re) text.
Proof.
  induction re as [re IH] using (induction_ltof1 _ length). unfold ltof in IH. intros text.
  destruct re as [|c re1]; cbn [matchhere items]; [split; [constructor|done]|].
  destruct re1 as [|c2 re2].
  - destruct (c =? 36).
    + destruct text; split; try done; [constructor|by inversion 1].
    + apply (one_spec). intros t. split; [constructor|done].
  - destruct (c2 =? 42).
    + rewrite matchstar_spec, matches_star_inv. split; intros (l & t & ? & ? & Ht); exists l, t;
        (split_and!; [done|done|]); apply (IH re2); cbn; (lia || done).
    + apply (one_spec). intros t. apply (IH (c2 :: re2)). cbn. lia.
Qed.

Lemma match_loop_spec re text : match_loop re text = true ↔ ∃ l t, text = l ++ t ∧ matches (items re) t.
Proof.
  induction text as [|x text IH]; cbn [match_loop].
  - destruct (matchhere re []) eqn:E; split; try done.
    + intros _. exists [], []. by apply matchhere_spec in E.
    + intros (l & t & Hl & Ht). symmetry in Hl. apply app_nil in Hl as [-> ->]. apply matchhere_spec in Ht. congruence.
  - destruct (matchhere re (x :: text)) eqn:E.
    + split; [|done]. intros _. exists [], (x :: text). by apply matchhere_spec in E.
    + rewrite IH. split; [by intros (l & t & -> & Ht); exists (x :: l), t|].
      intros ([|y l] & t & Hl & Ht); cbn in Hl; [subst t; apply matchhere_spec in Ht; congruence|].
      injection Hl as <- ->. eauto.
Qed.

Lemma re_match_spec re text : re_match re text = true ↔ found re text.
Proof.
  unfold re_match, found. destruct re as [|c re1]; [|destruct (c =? 94); [apply matchhere_spec|apply match_loop_spec]].
  rewrite match_loop_spec. split; [done|]. intros _. exists [], text. split; [done|constructor].
Qed.

#[global] Instance found_dec re text : Decision (found re text).
Proof. refine (cast_if (decide (re_match re text = true))); by rewrite <-re_match_spec. Defined.

(** * Lines *)

(** The lines of a text that end, without their newline, and the rest. *)
Fixpoint split_nl (p : list Z) : list (list Z) * list Z :=
  match p with
  | [] => ([], [])
  | c :: p =>
      let '(ls, t) := split_nl p in
      if c =? 10 then ([] :: ls, t) else match ls with [] => ([], c :: t) | l :: ls => ((c :: l) :: ls, t) end
  end.

Lemma split_nl_line l r : 10 ∉ l → split_nl (l ++ 10 :: r) = (l :: (split_nl r).1, (split_nl r).2).
Proof.
  induction l as [|c l IH]; intros Hl; cbn [split_nl app].
  - by destruct (split_nl r).
  - apply not_elem_of_cons in Hl as [Hc Hl]. rewrite IH by done. by rewrite (proj2 (Z.eqb_neq c 10)) by done.
Qed.

Lemma split_nl_none p : 10 ∉ p → split_nl p = ([], p).
Proof.
  induction p as [|c p IH]; intros Hp; [done|]. cbn [split_nl]. apply not_elem_of_cons in Hp as [Hc Hp].
  by rewrite IH, (proj2 (Z.eqb_neq c 10)) by done.
Qed.

(** A text has a first line or no newline. *)
Lemma nl_cases p : (10 ∉ p) ∨ ∃ l r, p = l ++ 10 :: r ∧ 10 ∉ l.
Proof.
  destruct (decide (10 ∈ p)) as [Hin|]; [right|by left].
  apply list_elem_of_split_l in Hin as (l & r & -> & Hl). eauto.
Qed.

Lemma split_nl_tail p : 10 ∉ (split_nl p).2 ∧ (length (split_nl p).2 ≤ length p)%nat ∧
  ((split_nl p).1 = [] ↔ 10 ∉ p) ∧ ((split_nl p).1 ≠ [] → (length (split_nl p).2 < length p)%nat).
Proof.
  induction p as [p IH] using (induction_ltof1 _ length). unfold ltof in IH. destruct (nl_cases p) as [Hn|(l & r & -> & Hl)].
  - rewrite split_nl_none by done. by split_and!.
  - rewrite split_nl_line by done. destruct (IH r) as (H1 & H2 & _); [rewrite length_app; cbn; lia|]. cbn [fst snd].
    rewrite length_app. cbn [length]. split_and!; [done|lia| |intros _; lia]. split; [done|]. intros Hn. exfalso. apply Hn, elem_of_app. right. left.
Qed.

Lemma split_nl_suffix p : (split_nl p).2 `suffix_of` p.
Proof.
  induction p as [p IH] using (induction_ltof1 _ length). unfold ltof in IH. destruct (nl_cases p) as [Hn|(l & r & -> & Hl)].
  - by rewrite split_nl_none.
  - rewrite split_nl_line by done. cbn [snd]. change (10 :: r) with ([10] ++ r). rewrite app_assoc.
    apply suffix_app_r, IH. rewrite !length_app. cbn. lia.
Qed.

Lemma split_nl_tail_not_in x p q : x ∉ p ++ q → x ∉ (split_nl p).2 ++ q.
Proof.
  intros [Hp Hq]%not_elem_of_app. apply not_elem_of_app. split; [|done].
  destruct (split_nl_suffix p) as [k E]. rewrite E in Hp. by apply not_elem_of_app in Hp as [_ ?].
Qed.

(** When no line is longer than [n], a text of more than [n] bytes without a
    newline is not followed by one. *)
Lemma split_nl_long n a b : Forall (λ l, (length l ≤ n)%nat) (split_nl (a ++ b)).1 → (n < length a)%nat →
  10 ∉ a → 10 ∉ b.
Proof.
  intros Hls Hlen Ha. destruct (nl_cases b) as [|(l & r & -> & Hl)]; [done|].
  rewrite app_assoc, split_nl_line in Hls by (by apply not_elem_of_app).
  apply Forall_inv in Hls. rewrite length_app in Hls. lia.
Qed.

(** Reading on from the rest. *)
Lemma split_nl_app a b : split_nl (a ++ b) =
  ((split_nl a).1 ++ (split_nl ((split_nl a).2 ++ b)).1, (split_nl ((split_nl a).2 ++ b)).2).
Proof.
  induction a as [a IH] using (induction_ltof1 _ length). unfold ltof in IH. destruct (nl_cases a) as [Hn|(l & r & -> & Hl)].
  - rewrite (split_nl_none a) by done. cbn [fst snd app]. by destruct (split_nl (a ++ b)).
  - rewrite <-app_assoc. cbn [app]. rewrite !split_nl_line by done. cbn [fst snd app].
    rewrite (IH r) by (rewrite length_app; cbn; lia). done.
Qed.

Lemma find_nl_line l r : 10 ∉ l → 0 ∉ l → find_nl (l ++ 10 :: r) = Some (l, r).
Proof.
  induction l as [|c l IH]; intros Hl H0; cbn [find_nl app]; [done|].
  apply not_elem_of_cons in Hl as [Hc Hl], H0 as [Hc0 H0].
  by rewrite (proj2 (Z.eqb_neq c 0)), (proj2 (Z.eqb_neq c 10)), IH by done.
Qed.

Lemma find_nl_none p : 10 ∉ p → find_nl p = None.
Proof.
  induction p as [|c p IH]; intros Hp; cbn [find_nl]; [done|]. apply not_elem_of_cons in Hp as [Hc Hp].
  rewrite IH, (proj2 (Z.eqb_neq c 10)) by done. by destruct (c =? 0).
Qed.

(** * Descriptors in proofs *)

(** At most descriptor [fd] has moved. *)
Definition only_fd (fd : Z) (u u' : uproc) : Prop :=
  ∃ s, u_fds u' = <[Z.to_nat fd := s]> (u_fds u).

Lemma only_fd_trans fd u u1 u' : only_fd fd u u1 → only_fd fd u1 u' → only_fd fd u u'.
Proof. intros [s1 H1] [s2 H2]. exists s2. by rewrite H2, H1, list_insert_insert_eq. Qed.

(** [open] of a file and [close] after some work on its descriptor put the
    table back. *)
Lemma open_spec files name s u fd x : files name = Some s → list_find (λ x, x = None) (u_fds u) = Some (fd, x) →
  ∃ u1, u_open files name u = Ok (Z.of_nat fd, u1) ∧ u_wok u1 = u_wok u ∧ u_out u1 = u_out u ∧
    u_fds u1 !! Z.to_nat (Z.of_nat fd) = Some (Some s) ∧
    ∀ u2, only_fd (Z.of_nat fd) u1 u2 → u_close (Z.of_nat fd) u2 = Ok (tt, UProc (u_fds u) (u_wok u2) (u_out u2)).
Proof.
  intros Hname Hfd. unfold u_open. rewrite Hname, Hfd. apply list_find_Some in Hfd as (Hx & -> & _).
  eexists. split; [reflexivity|]. split_and!; [done|done| |].
  - cbn [u_fds]. rewrite Nat2Z.id, list_lookup_insert_eq by (by eapply lookup_lt_Some). eauto.
  - intros u2 [s2 Hs]. unfold u_close, mmod. rewrite Hs. cbn [u_fds]. by rewrite Nat2Z.id, !list_insert_insert_eq, list_insert_id.
Qed.

(** * Proofs of grep *)

Section grep.
Variable files : list Z → option stream.
Variable pattern : list Z.

(** What is printed for lines. *)
Definition grep_out (ls : list (list Z)) : list (Z * list Z) :=
  (λ l, (1, l ++ [10])) <$> filter (found pattern) ls.

Definition add_out (o : list (Z * list Z)) (u : uproc) : uproc := UProc (u_fds u) (u_wok u) (u_out u ++ o).

Lemma add_out_app o o' u : add_out o' (add_out o u) = add_out (o ++ o') u.
Proof. unfold add_out. cbn. by rewrite app_assoc. Qed.

Lemma grep_lines_spec fuel : ∀ p u, (length p < fuel)%nat → 0 ∉ p → u_wok u = [] →
  grep_lines fuel pattern p u = Ok ((split_nl p).2, add_out (grep_out (split_nl p).1) u).
Proof.
  induction fuel as [|fuel IH]; intros p u Hf H0 Hw; [lia|]. cbn [grep_lines].
  destruct (nl_cases p) as [Hn|(l & r & -> & Hl)].
  - rewrite find_nl_none, split_nl_none by done. unfold add_out. cbn. rewrite app_nil_r. by destruct u.
  - apply not_elem_of_app in H0 as [H0l [_ H0r]%not_elem_of_cons]. rewrite find_nl_line, split_nl_line by done.
    rewrite length_app in Hf. cbn [length] in Hf. cbn [fst snd].
    assert (grep_out (l :: (split_nl r).1) = grep_out [l] ++ grep_out (split_nl r).1) as E.
    { unfold grep_out. by rewrite <-fmap_app, <-filter_app. }
    assert ((if re_match pattern l then u_write 1 (l ++ [10]);; mret tt else mret tt) u = Ok (tt, add_out (grep_out [l]) u)) as Hl1.
    { unfold grep_out. rewrite filter_cons. destruct (re_match pattern l) eqn:Em.
      - rewrite decide_True by (by apply re_match_spec). unfold u_write, mbind, M_bind. rewrite Hw. unfold add_out. by rewrite Hw.
      - rewrite decide_False by (rewrite <-re_match_spec; congruence). unfold add_out. cbn. rewrite app_nil_r. by destruct u. }
    erewrite bind_Ok by exact Hl1. rewrite IH by (done || lia). by rewrite E, add_out_app.
Qed.

(** A file of which [rest] is to be read. *)
Definition file_at (rest : list Z) (fd : Z) (u : uproc) : Prop :=
  ∃ s : stream, u_fds u !! Z.to_nat fd = Some (Some s) ∧ (s = [Data rest] ∨ rest = [] ∧ s = []).

Lemma read_file rest fd n u : file_at rest fd u → 0 < n →
  ∃ u', u_read fd n u = Ok ((Z.of_nat (length (take (Z.to_nat n) rest)), take (Z.to_nat n) rest), u') ∧
    u_wok u' = u_wok u ∧ u_out u' = u_out u ∧ file_at (drop (Z.to_nat n) rest) fd u' ∧ only_fd fd u u'.
Proof.
  intros (s & Hs & Hc) Hn. assert (Z.to_nat fd < length (u_fds u))%nat as Hlt by (by eapply lookup_lt_Some).
  unfold u_read. rewrite Hs. destruct Hc as [->|[-> ->]]; cbn [stream_read].
  - destruct (Z.leb_spec (Z.of_nat (length rest)) n) as [Hle|Hgt].
    + rewrite take_ge, drop_ge by lia. eexists. split; [reflexivity|]. split_and!; try done; [|by eexists].
      exists []. split; [by apply list_lookup_insert_eq|]. by right.
    + eexists. split; [do 3 f_equal; rewrite length_take; lia|]. split_and!; try done; [|by eexists].
      eexists. split; [by apply list_lookup_insert_eq|]. by left.
  - rewrite take_nil, drop_nil. eexists. split; [reflexivity|]. split_and!; try done; [|by eexists].
    exists []. split; [by apply list_lookup_insert_eq|]. by right.
Qed.

(** One round of [grep]. *)
Lemma grep_round fuel fd pend rest u : file_at rest fd u → u_wok u = [] → (length pend ≤ 1022)%nat →
  0 ∉ pend ++ rest → rest ≠ [] →
  let n := (1023 - length pend)%nat in let b := pend ++ take n rest in
  ∃ u', grep_loop (S fuel) pattern fd pend u =
      grep_loop fuel pattern fd (if (length (split_nl b).2 =? length b)%nat then [] else (split_nl b).2) u' ∧
    u_wok u' = [] ∧ u_out u' = u_out u ++ grep_out (split_nl b).1 ∧ file_at (drop n rest) fd u' ∧
    (length (drop n rest) < length rest)%nat ∧ only_fd fd u u'.
Proof.
  intros Hfile Hw Hp H0 Hr n b. cbn [grep_loop].
  destruct (read_file rest fd (1024 - Z.of_nat (length pend) - 1) u Hfile) as (u1 & Hread & Hw1 & Ho1 & Hf1 & [s Hd]); [lia|].
  replace (Z.to_nat (1024 - Z.of_nat (length pend) - 1)) with n in Hread, Hf1 by lia.
  erewrite bind_Ok by exact Hread. cbn [fst snd].
  assert (0 < length (take n rest))%nat as Ht by (destruct rest; [done|]; rewrite length_take; cbn; lia).
  rewrite (proj2 (Z.ltb_lt _ _)) by lia. fold b.
  assert (0 ∉ b) as H0b.
  { unfold b. rewrite <-(take_drop n rest) in H0. set_solver. }
  erewrite bind_Ok by (apply grep_lines_spec; [lia|done|by rewrite Hw1]).
  eexists. split; [reflexivity|]. cbn. rewrite Ho1, Hw1. split_and!; try done; [|by exists s].
  rewrite length_drop. destruct rest; [done|]. cbn. lia.
Qed.

Lemma grep_end fuel fd pend u : file_at [] fd u → u_wok u = [] → (length pend ≤ 1022)%nat →
  ∃ u', grep_loop (S fuel) pattern fd pend u = Ok (tt, u') ∧ u_out u' = u_out u ∧ u_wok u' = [] ∧ only_fd fd u u'.
Proof.
  intros Hfile Hw Hp. cbn [grep_loop].
  destruct (read_file [] fd (1024 - Z.of_nat (length pend) - 1) u Hfile) as (u1 & Hread & Hw1 & Ho & _ & Hd); [lia|].
  erewrite bind_Ok by exact Hread. rewrite take_nil. cbn. rewrite <-Hw1 in Hw. eauto 6.
Qed.

(** The last line, without a newline, is not printed. *)
Lemma grep_tail fuel : ∀ fd pend rest u, file_at rest fd u → u_wok u = [] → (length pend ≤ 1022)%nat →
  0 ∉ pend ++ rest → 10 ∉ pend ++ rest → (length rest < fuel)%nat →
  ∃ u', grep_loop fuel pattern fd pend u = Ok (tt, u') ∧ u_out u' = u_out u ∧ u_wok u' = [] ∧ only_fd fd u u'.
Proof.
  induction fuel as [|fuel IH]; intros fd pend rest u Hfile Hw Hp H0 Hn Hfu; [lia|].
  destruct (decide (rest = [])) as [->|Hr]; [by apply grep_end|].
  destruct (grep_round fuel fd pend rest u Hfile Hw Hp H0 Hr) as (u1 & -> & Hw1 & Ho1 & Hf1 & Hlt & Hd1).
  set (n := (1023 - length pend)%nat) in *. rewrite <-(take_drop n rest), app_assoc in Hn, H0.
  apply not_elem_of_app in Hn as [Hnb Hnr], H0 as [H0b H0r]. rewrite split_nl_none in * by done. cbn [fst snd] in *.
  rewrite Nat.eqb_refl. destruct (IH fd [] (drop n rest) u1) as (u' & Hrun & Ho & Hw' & Hd'); try done; [cbn; lia|lia|].
  exists u'. split_and!; [done| |done|by eapply only_fd_trans]. rewrite Ho, Ho1. cbn. by rewrite app_nil_r.
Qed.

(** All lines that end within the buffer are looked at. *)
Lemma grep_loop_spec fuel : ∀ fd pend rest u, file_at rest fd u → u_wok u = [] → (length pend ≤ 1022)%nat →
  0 ∉ pend ++ rest → 10 ∉ pend → Forall (λ l, (length l ≤ 1022)%nat) (split_nl (pend ++ rest)).1 → (length rest < fuel)%nat →
  ∃ u', grep_loop fuel pattern fd pend u = Ok (tt, u') ∧ u_out u' = u_out u ++ grep_out (split_nl (pend ++ rest)).1 ∧
    u_wok u' = [] ∧ only_fd fd u u'.
Proof.
  induction fuel as [|fuel IH]; intros fd pend rest u Hfile Hw Hp H0 Hn Hls Hfu; [lia|].
  destruct (decide (rest = [])) as [->|Hr].
  { rewrite app_nil_r, split_nl_none by done. cbn. rewrite app_nil_r. by apply grep_end. }
  destruct (grep_round fuel fd pend rest u Hfile Hw Hp H0 Hr) as (u1 & -> & Hw1 & Ho1 & Hf1 & Hlt & Hd1).
  set (n := (1023 - length pend)%nat) in *. set (b := pend ++ take n rest) in *.
  assert (pend ++ rest = b ++ drop n rest) as Hb by (unfold b; by rewrite <-app_assoc, take_drop).
  rewrite Hb in *. destruct (split_nl_tail b) as (Ht1 & Ht2 & Ht3 & Ht4).
  destruct (decide (10 ∈ b)) as [Hin|Hni].
  - assert ((split_nl b).1 ≠ []) as Hne by (intros E; by apply Ht3 in E). specialize (Ht4 Hne).
    rewrite (proj2 (Nat.eqb_neq _ _)) by lia. rewrite split_nl_app in Hls |- *. cbn [fst] in Hls |- *.
    apply Forall_app in Hls as [_ Hls].
    assert (length b ≤ 1023)%nat as Hbl by (unfold b; rewrite length_app, length_take; lia).
    destruct (IH fd (split_nl b).2 (drop n rest) u1) as (u' & Hrun & Ho & Hw' & Hd'); try done; [lia| |lia|].
    { by apply split_nl_tail_not_in. }
    exists u'. split_and!; [done| |done|by eapply only_fd_trans]. rewrite Ho, Ho1. unfold grep_out. by rewrite <-app_assoc, <-fmap_app, <-filter_app.
  - assert ((split_nl b).2 = b) as E by (by rewrite split_nl_none).
    rewrite E, Nat.eqb_refl.
    assert (10 ∉ drop n rest) as Hnr.
    { destruct (decide (drop n rest = [])) as [->|Hd]; [by apply not_elem_of_nil|].
      apply (split_nl_long 1022 b); [done| |done]. unfold b. rewrite length_app, length_take.
      destruct (le_lt_dec (length rest) n); [by rewrite drop_ge in Hd|lia]. }
    apply not_elem_of_app in H0 as [_ H0].
    destruct (grep_tail fuel fd [] (drop n rest) u1) as (u' & Hrun & Ho & Hw' & Hd'); try done; [cbn; lia|lia|].
    exists u'. split_and!; [done| |done|by eapply only_fd_trans]. rewrite Ho, Ho1. rewrite (split_nl_none (b ++ _)) by (by apply not_elem_of_app).
    by rewrite split_nl_none by done.
Qed.

Definition short_lines (text : list Z) : Prop :=
  0 ∉ text ∧ Forall (λ l, (length l ≤ 1022)%nat) (split_nl text).1.

Lemma grep_files_spec fuel fd x : ∀ argv texts u, Forall2 (λ a t, files a = Some [Data t]) argv texts →
  Forall short_lines texts → Forall (λ t, (length t < fuel)%nat) texts →
  list_find (λ x, x = None) (u_fds u) = Some (fd, x) → u_wok u = [] →
  grep_files files fuel pattern argv u = Ok (tt, add_out (grep_out (texts ≫= λ t, (split_nl t).1)) u).
Proof.
  intros argv texts u Hf. revert u. induction Hf as [|a t argv texts Ha Hf IH]; intros u Hs Hfu Hfd Hw; cbn [grep_files].
  { unfold add_out. cbn. rewrite app_nil_r. by destruct u. }
  apply Forall_cons in Hs as [[H0 Hl] Hs], Hfu as [Ht Hfu].
  destruct (open_spec files a _ u fd x Ha Hfd) as (u1 & Ho & Hw1 & Ho1 & Hat & Hcl).
  erewrite bind_Ok by exact Ho. rewrite (proj2 (Z.ltb_ge _ _)) by lia.
  destruct (grep_loop_spec fuel (Z.of_nat fd) [] t u1) as (u2 & Hg & Ho2 & Hw2 & Hd2); [by eexists; eauto|congruence|cbn; lia|done|by apply not_elem_of_nil|done|done|].
  unfold grep. erewrite bind_Ok by exact Hg. erewrite bind_Ok by (by apply Hcl). rewrite IH by done.
  unfold add_out. cbn [u_fds u_wok u_out app] in *. rewrite Hw2, Hw, Ho2, Ho1, <-app_assoc. unfold grep_out.
  by rewrite <-fmap_app, <-filter_app.
Qed.
End grep.

(** * Streams *)

(** A stream that ends without an error and is not empty in between, and
    its bytes. *)
Definition whole (s : stream) : Prop := Forall (λ p, match p with Data l => l ≠ [] | Fail => False end) s.
Definition bytes (s : stream) : list Z := s ≫= λ p, match p with Data l => l | Fail => [] end.

Lemma stream_read_whole n s : whole s → 0 < n →
  ∃ l s', stream_read n s = (Z.of_nat (length l), l, s') ∧ whole s' ∧ bytes s = l ++ bytes s' ∧ (l = [] → bytes s = []).
Proof.
  intros Hs Hn. destruct s as [|[l|] s]; cbn [stream_read]; [by exists [], []| |by apply Forall_inv in Hs].
  apply Forall_cons in Hs as [Hl Hs]. destruct (Z.leb_spec (Z.of_nat (length l)) n) as [Hle|Hgt].
  - by exists l, s.
  - exists (take (Z.to_nat n) l), (Data (drop (Z.to_nat n) l) :: s). split_and!.
    + do 2 f_equal. rewrite length_take. lia.
    + constructor; [|done]. intros E%(f_equal length). rewrite length_drop in E. cbn in E. lia.
    + unfold bytes. cbn. by rewrite app_assoc, take_drop.
    + intros E%(f_equal length). rewrite length_take in E. cbn in E. lia.
Qed.

(** A descriptor on such a stream. *)
Definition stream_at (t : list Z) (fd : Z) (u : uproc) : Prop :=
  ∃ s, u_fds u !! Z.to_nat fd = Some (Some s) ∧ whole s ∧ bytes s = t.

Lemma read_stream t fd n u : stream_at t fd u → 0 < n →
  ∃ l t' u', u_read fd n u = Ok ((Z.of_nat (length l), l), u') ∧ t = l ++ t' ∧ (l = [] → t = []) ∧
    u_wok u' = u_wok u ∧ u_out u' = u_out u ∧ stream_at t' fd u' ∧ only_fd fd u u'.
Proof.
  intros (s & Hs & Hw & <-) Hn. destruct (stream_read_whole n s Hw Hn) as (l & s' & Er & Hw' & Hb & Hl).
  unfold u_read. rewrite Hs, Er. exists l, (bytes s'). eexists. split; [reflexivity|]. split_and!; try done; [|by eexists].
  exists s'. split_and!; [|done|done]. apply list_lookup_insert_eq. by eapply lookup_lt_Some.
Qed.

(** [cat] writes the bytes of its stream. *)
Lemma cat_spec fuel : ∀ fd t u, stream_at t fd u → u_wok u = [] → (length t < fuel)%nat →
  ∃ u' ws, cat fuel fd u = Ok (false, u') ∧ u_out u' = u_out u ++ (pair 1 <$> ws) ∧ concat ws = t ∧
    u_wok u' = [] ∧ only_fd fd u u'.
Proof.
  induction fuel as [|fuel IH]; intros fd t u Ht Hw Hf; [lia|]. cbn [cat].
  destruct (read_stream t fd 512 u Ht) as (l & t' & u1 & Er & -> & Hl & Hw1 & Ho1 & Ht1 & Hd1); [done|].
  erewrite bind_Ok by exact Er. cbn [fst snd]. destruct l as [|c l].
  { cbn [length]. exists u1, []. rewrite app_nil_r. split_and!; [done|done| |congruence|done]. by symmetry; apply Hl. }
  rewrite (proj2 (Z.ltb_lt _ _)) by (cbn [length]; lia).
  erewrite bind_Ok by (unfold u_write; rewrite Hw1, Hw; reflexivity).
  rewrite Z.eqb_refl. cbn [negb drop]. rewrite length_app in Hf. cbn [length] in Hf.
  destruct (IH fd t' (UProc (u_fds u1) [] (u_out u1 ++ [(1, c :: l)]))) as (u' & ws & -> & Ho & <- & Hw' & Hd'); [done|done|lia|].
  exists u', ((c :: l) :: ws). split_and!; [done| |done|done|by eapply only_fd_trans].
  rewrite Ho. cbn [u_out]. by rewrite Ho1, <-app_assoc.
Qed.

(** [wc] looks at every byte once. *)
Lemma wc_loop_spec fuel : ∀ fd t x u, stream_at t fd u → (length t < fuel)%nat →
  ∃ u', wc_loop fuel fd x u = Ok ((0, foldl wc_char x t), u') ∧ u_out u' = u_out u ∧ u_wok u' = u_wok u ∧ only_fd fd u u'.
Proof.
  induction fuel as [|fuel IH]; intros fd t x u Ht Hf; [lia|]. cbn [wc_loop].
  destruct (read_stream t fd 512 u Ht) as (l & t' & u1 & Er & -> & Hl & Hw1 & Ho1 & Ht1 & Hd1); [done|].
  erewrite bind_Ok by exact Er. cbn [fst snd]. destruct l as [|c l].
  { rewrite (Hl eq_refl). cbn [length]. by exists u1. }
  rewrite (proj2 (Z.ltb_lt _ _)) by (cbn [length]; lia). rewrite length_app in Hf. cbn [length] in Hf.
  destruct (IH fd t' (foldl wc_char x (c :: l)) u1) as (u' & -> & Ho & Hw' & Hd'); [done|lia|].
  exists u'. rewrite foldl_app. split_and!; [done|congruence|congruence|by eapply only_fd_trans].
Qed.

(** The fields between white space, and the words: those not empty. *)
Fixpoint fields (t : list Z) : list (list Z) :=
  match t with
  | [] => [[]]
  | c :: t =>
      if strchr wc_space c then [] :: fields t
      else match fields t with f :: fs => (c :: f) :: fs | [] => [[c]] end
  end.
Definition words (t : list Z) : list (list Z) := filter (λ w, w ≠ []) (fields t).

Lemma fields_cons t : ∃ f fs, fields t = f :: fs.
Proof.
  destruct t as [|c t]; cbn [fields]; [by eexists _, _|]. destruct (strchr wc_space c); [by eexists _, _|].
  destruct (fields t); by eexists _, _.
Qed.

(** The words that start in [t] when [wc] has been inside a word or not. *)
Definition new_words (inword : bool) (t : list Z) : Z :=
  Z.of_nat (length (if inword then filter (λ w, w ≠ []) (tail (fields t)) else words t)).
Definition lines (t : list Z) : Z := Z.of_nat (length (filter (λ c, c = 10) t)).

Lemma new_words_space inword c t : strchr wc_space c = true → new_words inword (c :: t) = new_words false t.
Proof. intros Hc. unfold new_words, words. cbn [fields]. rewrite Hc. by destruct inword. Qed.

Lemma new_words_letter inword c t : strchr wc_space c = false →
  new_words inword (c :: t) = (if inword then 0 else 1) + new_words true t.
Proof.
  intros Hc. unfold new_words, words. cbn [fields]. rewrite Hc. destruct (fields_cons t) as (f & fs & ->). cbn [tail].
  destruct inword; [done|]. rewrite filter_cons_True by done. cbn [length]. lia.
Qed.

Lemma lines_cons c t : lines (c :: t) = (if c =? 10 then 1 else 0) + lines t.
Proof.
  unfold lines. destruct (Z.eqb_spec c 10); [rewrite filter_cons_True by done; cbn [length]; lia|].
  by rewrite filter_cons_False.
Qed.

Lemma wc_chars_spec t : ∀ l w c inword, 0 ≤ l ≤ c → 0 ≤ w ≤ c → c + Z.of_nat (length t) < 2 ^ 31 →
  ∃ inword', foldl wc_char (WCount l w c inword) t =
    WCount (l + lines t) (w + new_words inword t) (c + Z.of_nat (length t)) inword'.
Proof.
  induction t as [|ch t IH]; intros l w c inword Hl Hw Hc.
  - exists inword. unfold lines, new_words, words. cbn [foldl fields tail length]. rewrite filter_nil, filter_cons_False by (intros []; done).
    rewrite filter_nil. cbn. f_equal; [lia| |lia]. destruct inword; cbn; lia.
  - cbn [foldl length] in *. unfold wc_char at 2. cbn [wc_l wc_w wc_c wc_inword].
    rewrite lines_cons, !s32_small by lia. destruct (strchr wc_space ch) eqn:Es.
    + rewrite (new_words_space _ _ _ Es). destruct (ch =? 10);
        (edestruct (IH) as [i ->]; [..|exists i; f_equal; lia]); lia.
    + rewrite (new_words_letter _ _ _ Es). destruct inword; cbn [negb]; destruct (ch =? 10);
        (edestruct (IH) as [i ->]; [..|exists i; f_equal; lia]); lia.
Qed.

(** * What the programs print *)

(** The bytes written so far, each with its descriptor. *)
Definition written (u : uproc) : list (Z * Z) := u_out u ≫= λ o, pair o.1 <$> o.2.

(** From [u] to [u'] exactly [t] has been printed, and the descriptors are as
    they were. *)
Definition prints (t : list Z) (u u' : uproc) : Prop :=
  u_fds u' = u_fds u ∧ u_wok u' = [] ∧ written u' = written u ++ (pair 1 <$> t).

Lemma prints_app t t' u u1 u' : prints t u u1 → prints t' u1 u' → prints (t ++ t') u u'.
Proof.
  intros (? & ? & E) (? & ? & E'). split_and!; [congruence|done|]. by rewrite E', E, fmap_app, app_assoc.
Qed.

Lemma prints_nil u : u_wok u = [] → prints [] u u.
Proof. intros. split_and!; [done|done|]. by rewrite app_nil_r. Qed.

Lemma prints_writes ws u u' : u_fds u' = u_fds u → u_wok u' = [] → u_out u' = u_out u ++ (pair 1 <$> ws) →
  prints (concat ws) u u'.
Proof.
  intros Hf Hw Ho. split_and!; [done|done|]. unfold written. rewrite Ho, bind_app. f_equal.
  clear. induction ws as [|w ws IH]; [done|]. cbn. by rewrite IH, fmap_app.
Qed.

Lemma put_chars_spec t : ∀ u, u_wok u = [] → ∃ u', put_chars 1 t u = Ok (tt, u') ∧ prints t u u'.
Proof.
  induction t as [|c t IH]; intros u Hw; cbn [put_chars]; [exists u; split; [done|by apply prints_nil]|].
  erewrite bind_Ok by (unfold u_write; rewrite Hw; reflexivity). cbn [drop].
  destruct (IH (UProc (u_fds u) [] (u_out u ++ [(1, [c])]))) as (u' & -> & Hp); [done|].
  exists u'. split; [done|]. refine (prints_app [c] t _ _ _ _ Hp). by apply (prints_writes [[c]]).
Qed.

#[local] Arguments printint : simpl never.

(** A number as [printf] prints it. *)
Definition decimal (n : Z) : list Z := default [] (printint n 10 true).

Lemma printint_Some n : printint n 10 true = Some (decimal n).
Proof. unfold decimal. by destruct (printint_decimal n true) as (ds & _ & _ & _ & -> & _). Qed.

(** The line of [wc] for a text. *)
Definition wc_line (t name : list Z) : list Z :=
  decimal (lines t) ++ [32] ++ decimal (Z.of_nat (length (words t))) ++ [32] ++ decimal (Z.of_nat (length t)) ++ [32] ++ name ++ [10].

Lemma directive_d v ap : directive 100 (AInt v :: ap) = Some (decimal v, ap).
Proof. unfold directive. simpl. by rewrite printint_Some. Qed.

#[local] Arguments directive : simpl never.

Lemma wc_format l w c name : printf (chars "%d %d %d %s" ++ [10]) [AInt l; AInt w; AInt c; AStr (Some name)] =
  Some (decimal l ++ [32] ++ decimal w ++ [32] ++ decimal c ++ [32] ++ name ++ [10]).
Proof. unfold printf, chars. simpl. by do 3 (rewrite directive_d; simpl). Qed.

Lemma wc_spec fuel fd t name u : stream_at t fd u → u_wok u = [] → (length t < fuel)%nat → Z.of_nat (length t) < 2 ^ 31 →
  ∃ u' u1, wc fuel fd name u = Ok (false, u') ∧ only_fd fd u u1 ∧ written u1 = written u ∧ prints (wc_line t name) u1 u'.
Proof.
  intros Ht Hw Hf Hlen. unfold wc.
  destruct (wc_loop_spec fuel fd t (WCount 0 0 0 false) u Ht Hf) as (u1 & E & Ho & Hw1 & Hd).
  erewrite bind_Ok by exact E. cbn [fst snd]. rewrite (proj2 (Z.ltb_ge 0 0)) by lia.
  destruct (wc_chars_spec t 0 0 0 false) as [i ->]; [lia..|]. cbn [wc_l wc_w wc_c]. rewrite !Z.add_0_l.
  unfold uprintf. rewrite wc_format. cbn [mopt]. unfold new_words. fold (wc_line t name).
  destruct (put_chars_spec (wc_line t name) u1) as (u' & Hp & Hpr); [congruence|].
  exists u', u1. split_and!; [|done|by unfold written; rewrite Ho|done]. by erewrite !bind_Ok by (exact Hp || reflexivity).
Qed.

(** Between [open] and [close] of a file. *)
Lemma prints_between t u u1 u2 u3 fds w : u_fds u = fds → written u1 = written u → written u2 = written u1 →
  prints t u2 u3 → w = u_wok u3 → prints t u (UProc fds w (u_out u3)).
Proof.
  intros <- E1 E2 (_ & Hw & E3) ->. split_and!; [done|done|]. unfold written in *. cbn [u_out]. by rewrite E3, E2, E1.
Qed.

Lemma only_fd_prints fd t u u1 u' : only_fd fd u u1 → prints t u1 u' → only_fd fd u u'.
Proof. intros [s Hs] (Hf & _). exists s. congruence. Qed.

(** The files that are opened one after the other. *)
Section files.
Variable files : list Z → option stream.

Definition holds (a t : list Z) : Prop := ∃ s, files a = Some s ∧ whole s ∧ bytes s = t.

Lemma open_stream a t u fd x : holds a t → list_find (λ x, x = None) (u_fds u) = Some (fd, x) →
  ∃ u1, u_open files a u = Ok (Z.of_nat fd, u1) ∧ u_wok u1 = u_wok u ∧ written u1 = written u ∧
    stream_at t (Z.of_nat fd) u1 ∧
    ∀ u2, only_fd (Z.of_nat fd) u1 u2 → u_close (Z.of_nat fd) u2 = Ok (tt, UProc (u_fds u) (u_wok u2) (u_out u2)).
Proof.
  intros (s & Ha & Hs & Hb) Hfd. destruct (open_spec files a s u fd x Ha Hfd) as (u1 & Ho & Hw & Ho1 & Hat & Hcl).
  exists u1. split_and!; [done|done|by unfold written; rewrite Ho1|by exists s|done].
Qed.

Lemma wc_files_spec fuel fd x : ∀ argv texts u, Forall2 holds argv texts →
  Forall (λ t, (length t < fuel)%nat ∧ Z.of_nat (length t) < 2 ^ 31) texts →
  list_find (λ x, x = None) (u_fds u) = Some (fd, x) → u_wok u = [] →
  ∃ u', wc_files files fuel argv u = Ok (tt, u') ∧ prints (concat (zip_with wc_line texts argv)) u u'.
Proof.
  intros argv texts u Hf. revert u. induction Hf as [|a t argv texts Ha Hf IH]; intros u Hs Hfd Hw; cbn [wc_files].
  { exists u. split; [done|by apply prints_nil]. }
  apply Forall_cons in Hs as [[Ht Hlen] Hs].
  destruct (open_stream a t u fd x Ha Hfd) as (u1 & Ho & Hw1 & Ho1 & Hat & Hcl).
  erewrite bind_Ok by exact Ho. rewrite (proj2 (Z.ltb_ge _ _)) by lia.
  destruct (wc_spec fuel (Z.of_nat fd) t a u1) as (u3 & u2 & Hg & Hd2 & Ho2 & Hp); [done|congruence|done|done|].
  erewrite bind_Ok by exact Hg. cbn beta iota. erewrite bind_Ok by (apply Hcl; by eapply only_fd_prints).
  pose proof (prints_between _ u u1 u2 u3 _ _ eq_refl Ho1 Ho2 Hp eq_refl) as Hp1.
  destruct (IH (UProc (u_fds u) (u_wok u3) (u_out u3))) as (u' & Hrun & Hp2); [done|done|apply Hp|].
  exists u'. split; [done|]. by eapply prints_app.
Qed.

Lemma cat_files_spec fuel fd x : ∀ argv texts u, Forall2 holds argv texts →
  Forall (λ t, (length t < fuel)%nat) texts →
  list_find (λ x, x = None) (u_fds u) = Some (fd, x) → u_wok u = [] →
  ∃ u', cat_files files fuel argv u = Ok (tt, u') ∧ prints (concat texts) u u'.
Proof.
  intros argv texts u Hf. revert u. induction Hf as [|a t argv texts Ha Hf IH]; intros u Hs Hfd Hw; cbn [cat_files].
  { exists u. split; [done|by apply prints_nil]. }
  apply Forall_cons in Hs as [Ht Hs].
  destruct (open_stream a t u fd x Ha Hfd) as (u1 & Ho & Hw1 & Ho1 & Hat & Hcl).
  erewrite bind_Ok by exact Ho. rewrite (proj2 (Z.ltb_ge _ _)) by lia.
  destruct (cat_spec fuel (Z.of_nat fd) t u1) as (u2 & ws & Hg & Ho2 & Hws & Hw2 & Hd2); [done|congruence|done|].
  erewrite bind_Ok by exact Hg. cbn beta iota. erewrite bind_Ok by (by apply Hcl).
  destruct (IH (UProc (u_fds u) (u_wok u2) (u_out u2))) as (u' & Hrun & Hp2); [done|done|done|].
  exists u'. split; [done|]. cbn [concat]. eapply prints_app; [|done].
  apply (prints_between _ u u1 u1 (UProc (u_fds u1) (u_wok u2) (u_out u2))); [done|done|done| |done].
  rewrite <-Hws. by apply prints_writes.
Qed.

Lemma echo_format a b : printf (chars "%s%s") [AStr (Some a); AStr (Some b)] = Some (a ++ b).
Proof. unfold printf, chars, directive. simpl. by rewrite app_nil_r. Qed.

(** The arguments with a blank between them. *)
Fixpoint joined (argv : list (list Z)) : list Z :=
  match argv with [] => [] | [a] => a ++ [10] | a :: argv => a ++ [32] ++ joined argv end.

Lemma echo_spec argv : ∀ u, u_wok u = [] → ∃ u', echo_main argv u = Ok (tt, u') ∧ prints (joined argv) u u'.
Proof.
  induction argv as [|a argv IH]; intros u Hw; cbn [echo_main]; [exists u; split; [done|by apply prints_nil]|].
  unfold uprintf. rewrite echo_format. cbn [mopt].
  destruct (put_chars_spec (a ++ match argv with [] => [10] | _ => [32] end) u Hw) as (u1 & Hp & Hpr).
  erewrite bind_Ok by (erewrite bind_Ok by reflexivity; exact Hp).
  destruct (IH u1) as (u' & -> & Hpr'); [apply Hpr|]. exists u'. split; [done|].
  pose proof (prints_app _ _ _ _ _ Hpr Hpr') as H. destruct argv; cbn [joined] in *; [by rewrite app_nil_r in H|].
  by rewrite <-app_assoc in H.
Qed.
End files.

Lemma prints_grep files fuel pattern argv texts u fd x : Forall2 (λ a t, files a = Some [Data t]) argv texts →
  Forall (λ t, short_lines t ∧ (length t < fuel)%nat) texts →
  list_find (λ x, x = None) (u_fds u) = Some (fd, x) → u_wok u = [] →
  ∃ u', grep_files files fuel pattern argv u = Ok (tt, u') ∧
    prints (concat ((λ l, l ++ [10]) <$> filter (found pattern) (texts ≫= λ t, (split_nl t).1))) u u'.
Proof.
  intros Hf Ht Hfd Hw. apply Forall_and in Ht as [Hs Hl]. eexists. split; [by eapply grep_files_spec|].
  apply prints_writes; [done|done|]. cbn [u_out add_out]. unfold grep_out. by rewrite <-list_fmap_compose.
Qed.

(** C37. [grep] on files without NUL bytes whose complete lines have at most
    1022 bytes ends and prints exactly the complete lines in which the pattern
    is found, in order, each with its newline, and closes what it opened.  A
    pattern is found anywhere in a line, or at its start after a caret; it is
    a sequence of characters, dots for any character and stars after either
    for any number of them, with a dollar at its end for the end of the
    line. *)
Theorem grep_prints_matching_lines files fuel pattern argv texts u fd x : argv ≠ [] →
  Forall2 (λ a t, files a = Some [Data t]) argv texts →
  Forall (λ t, short_lines t ∧ (length t < fuel)%nat) texts →
  list_find (λ x, x = None) (u_fds u) = Some (fd, x) → u_wok u = [] →
  ∃ u', grep_main files fuel (pattern :: argv) u = Ok (tt, u') ∧
    prints (concat ((λ l, l ++ [10]) <$> filter (found pattern) (texts ≫= λ t, (split_nl t).1))) u u'.
Proof. intros Hne. destruct argv as [|a argv]; [done|]. apply prints_grep. Qed.

(** [wc] on files of fewer than 2^31 bytes, read in pieces of any size,
    prints for each the number of its newlines, of its words (the maximal runs
    of characters other than white space) and of its bytes, in decimal, and
    its name. *)
Lemma wc_counts files fuel argv texts u fd x : argv ≠ [] → Forall2 (holds files) argv texts →
  Forall (λ t, (length t < fuel)%nat ∧ Z.of_nat (length t) < 2 ^ 31) texts →
  list_find (λ x, x = None) (u_fds u) = Some (fd, x) → u_wok u = [] →
  ∃ u', wc_main files fuel argv u = Ok (tt, u') ∧ prints (concat (zip_with wc_line texts argv)) u u'.
Proof. intros Hne. destruct argv as [|a argv]; [done|]. apply wc_files_spec. Qed.

(** A line that arrives in two pieces is lost up to the second: [grep] drops a
    buffer without a newline, so "abc" is not found in what a pipe delivers as
    "ab" and "c", while "^c$" is. *)
Example grep_drops_partial_line :
  let u := UProc [Some [Data (chars "ab"); Data (chars "c" ++ [10])]; None] [] [] in
  (u_out ∘ snd <$> match grep_main (λ _, None) 10 [chars "abc"] u with Ok r => Some r | _ => None end) = Some [] ∧
  (u_out ∘ snd <$> match grep_main (λ _, None) 10 [chars "^c$"] u with Ok r => Some r | _ => None end) = Some [(1, chars "c" ++ [10])].
Proof. by vm_compute. Qed.

(** * Witnesses *)

Definition demo_file : list Z := chars "abc" ++ [10] ++ chars "b  c" ++ [10] ++ chars "end".
Definition demo_files (a : list Z) : option stream := if decide (a = chars "f") then Some [Data demo_file] else None.
Definition demo_proc : uproc := UProc [Some []; Some []; Some []; None; None] [] [].

Lemma grep_prints_matching_lines_witness : ∃ u', grep_main demo_files 20 [chars "ab*c$"; chars "f"] demo_proc = Ok (tt, u') ∧
  prints (chars "abc" ++ [10]) demo_proc u'.
Proof.
  destruct (grep_prints_matching_lines demo_files 20 (chars "ab*c$") [chars "f"] [demo_file] demo_proc 3 None) as (u' & E & Hp).
  - done.
  - constructor; [vm_compute; reflexivity|constructor].
  - constructor; [|constructor]. split; [split|vm_compute; lia].
    + apply (bool_decide_unpack _). by vm_compute.
    + apply (bool_decide_unpack _). by vm_compute.
  - by vm_compute.
  - done.
  - exists u'. split; [exact E|]. exact Hp.
Defined.

