(* ===== verification/Commands.v ===== *)
(** More user programs: ls.c, ln.c, mkdir.c, rm.c and kill.c, and the rest of
    ulib.c.

    As in [Programs], a program sees streams to read.  What [fstat] reports
    of a file and what [link], [mkdir], [unlink] and [kill] answer are
    parameters; the calls made are recorded. *)

From Stdlib Require Import ZArith Lia Ascii String.
From stdpp Require Import base numbers strings option gmap sets list list_numbers.
From S2P Require Import Prelude Mem Block Printf Shell Programs.

Abbreviation DIRSIZ := 14%nat.
Abbreviation T_DIR := 1.
Abbreviation T_FILE := 2.

(** * ulib.c *)

(** [strcpy] over a memory, from [t] to [s]. *)
Fixpoint strcpy (fuel : nat) (m : mem) (s t : Z) : option mem :=
  match fuel with
  | O => None
  | S fuel => let m := upd m s (m t) in if m s =? 0 then Some m else strcpy fuel m (s + 1) (t + 1)
  end.

(** C strings without their NUL. *)
Fixpoint strcmp (p q : list Z) : Z :=
  match p, q with
  | x :: p', y :: q' => if x =? y then strcmp p' q' else x - y
  | x :: _, [] => x
  | [], y :: _ => - y
  | [], [] => 0
  end.

(** [memmove] of ulib.c copies upwards. *)
Fixpoint umemmove (m : mem) (dst src : Z) (n : nat) : mem :=
  match n with O => m | S n => umemmove (upd m dst (m src)) (dst + 1) (src + 1) n end.

(** What [ls] uses of a [struct stat]. *)
Record status := Status { st_type : Z; st_ino : Z; st_size : Z }.

Section commands.
Variable files : list Z → option stream.
(** What [fstat] reports of the file with a path. *)
Variable fstat_of : list Z → option status.

Definition ustat (n : list Z) : M uproc (option status) :=
  fd ← u_open files n;
  if fd <? 0 then mret None else u_close fd;; mret (fstat_of n).

(** * ls *)

(** [for(p = path + strlen(path); p >= path && *p != '/'; p--); p++;] from index [i] on. *)
Fixpoint after_slash (path : list Z) (i : nat) : nat :=
  if decide (path !! i = Some 47) then S i else match i with O => O | S i => after_slash path i end.

Definition fmtname (path : list Z) : list Z :=
  let p := drop (after_slash path (length path)) path in
  if (DIRSIZ <=? length p)%nat then p else p ++ replicate (DIRSIZ - length p) 32.

Definition ls_line (name : list Z) (st : status) : M uproc unit :=
  uprintf 1 (chars "%s %d %d %d" ++ [10]) [AStr (Some (fmtname name)); AInt (st_type st); AInt (st_ino st); AInt (st_size st)].

Fixpoint ls_entries (fuel : nat) (fd : Z) (path : list Z) : M uproc unit :=
  match fuel with
  | O => mnofuel
  | S fuel =>
      r ← u_read fd 16;
      if r.1 =? 16 then
        if get16 r.2 0 =? 0 then ls_entries fuel fd path
        else
          let buf := path ++ [47] ++ cstr (take DIRSIZ (drop 2 r.2)) in
          o ← ustat buf;
          match o with
          | None => uprintf 1 (chars "ls: cannot stat %s" ++ [10]) [AStr (Some buf)];; ls_entries fuel fd path
          | Some st => ls_line buf st;; ls_entries fuel fd path
          end
      else mret tt
  end.

Definition ls (fuel : nat) (path : list Z) : M uproc unit :=
  fd ← u_open files path;
  if fd <? 0 then uprintf 2 (chars "ls: cannot open %s" ++ [10]) [AStr (Some path)]
  else
    match fstat_of path with
    | None => uprintf 2 (chars "ls: cannot stat %s" ++ [10]) [AStr (Some path)];; u_close fd
    | Some st =>
        (if st_type st =? T_FILE then ls_line path st
         else if st_type st =? T_DIR then
           if 512 <? Z.of_nat (length path) + 1 + 14 + 1 then uprintf 1 (chars "ls: path too long" ++ [10]) []
           else ls_entries fuel fd path
         else mret tt);;
        u_close fd
    end.

Fixpoint ls_args (fuel : nat) (argv : list (list Z)) : M uproc unit :=
  match argv with [] => mret tt | a :: argv => ls fuel a;; ls_args fuel argv end.
Definition ls_main (fuel : nat) (argv : list (list Z)) : M uproc unit :=
  match argv with [] => ls fuel [46] | _ => ls_args fuel argv end.
End commands.

(** * ln, mkdir, rm, kill *)

(** The calls made so far, and the process. *)
Record cproc (A : Type) := CProc { c_calls : list A; c_proc : uproc }.
Arguments CProc {A}. Arguments c_calls {A}. Arguments c_proc {A}.
Definition CPR {A} : lens (cproc A) uproc := Lens c_proc (λ u s, CProc (c_calls s) u).

Section calls.
Context {A : Type}.
(** The answer to a call. *)
Variable answer : A → Z.
Definition call (a : A) : M (cproc A) Z := λ s, Ok (answer a, CProc (c_calls s ++ [a]) (c_proc s)).
End calls.

Definition ln_main (link : list Z * list Z → Z) (argv : list (list Z)) : M (cproc (list Z * list Z)) unit :=
  match argv with
  | [old; new] =>
      r ← call link (old, new);
      if r <? 0 then zoom CPR (uprintf 2 (chars "link %s %s: failed" ++ [10]) [AStr (Some old); AStr (Some new)]) else mret tt
  | _ => zoom CPR (uprintf 2 (chars "Usage: ln old new" ++ [10]) [])
  end.

(** The loop that [mkdir] and [rm] share, with its message. *)
Fixpoint each_path (f : list Z → Z) (msg : list Z) (argv : list (list Z)) : M (cproc (list Z)) unit :=
  match argv with
  | [] => mret tt
  | a :: argv =>
      r ← call f a;
      if r <? 0 then zoom CPR (uprintf 2 msg [AStr (Some a)]) else each_path f msg argv
  end.

Definition mkdir_main (mkdir : list Z → Z) (argv : list (list Z)) : M (cproc (list Z)) unit :=
  match argv with
  | [] => zoom CPR (uprintf 2 (chars "Usage: mkdir files..." ++ [10]) [])
  | _ => each_path mkdir (chars "mkdir: %s failed to create" ++ [10]) argv
  end.

Definition rm_main (unlink : list Z → Z) (argv : list (list Z)) : M (cproc (list Z)) unit :=
  match argv with
  | [] => zoom CPR (uprintf 2 (chars "Usage: rm files..." ++ [10]) [])
  | _ => each_path unlink (chars "rm: %s failed to delete" ++ [10]) argv
  end.

Fixpoint kill_args (kill : Z → Z) (argv : list (list Z)) : M (cproc Z) unit :=
  match argv with [] => mret tt | a :: argv => call kill (atoi a);; kill_args kill argv end.
Definition kill_main (kill : Z → Z) (argv : list (list Z)) : M (cproc Z) unit :=
  match argv with
  | [] => zoom CPR (uprintf 2 (chars "usage: kill pid..." ++ [10]) [])
  | _ => kill_args kill argv
  end.

(** * What ls prints *)

(** The name that [fmtname] takes from a path: what follows the last slash. *)
Lemma after_slash_app a name i : 47 ∉ name → (length a < i ≤ length a + S (length name))%nat →
  after_slash (a ++ 47 :: name) i = S (length a).
Proof.
  intros Hn Hi. remember (i - length a)%nat as k eqn:Hk. revert i Hi Hk. induction k as [|k IH]; intros i Hi Hk; [lia|].
  destruct i as [|i]; [lia|]. cbn [after_slash]. rewrite decide_False.
  - destruct (decide (i = length a)) as [->|Hne]; [|apply IH; lia].
    destruct (length a) as [|n] eqn:El; cbn [after_slash]; rewrite decide_True; try done;
      rewrite lookup_app_r by lia; by replace (_ - length a)%nat with 0%nat by lia.
  - rewrite lookup_app_r by lia. replace (S i - length a)%nat with (S (i - length a)) by lia. cbn. intros H.
    apply Hn. by eapply list_elem_of_lookup_2.
Qed.

Definition padded (name : list Z) : list Z := if (DIRSIZ <=? length name)%nat then name else name ++ replicate (DIRSIZ - length name) 32.

Lemma fmtname_path a name : 47 ∉ name → fmtname (a ++ [47] ++ name) = padded name.
Proof.
  intros Hn. unfold fmtname. cbn [app]. rewrite after_slash_app; [|done|rewrite length_app; cbn; lia].
  change (a ++ 47 :: name) with (a ++ [47] ++ name). rewrite app_assoc, drop_app_length' by (rewrite length_app; cbn; lia). done.
Qed.

(** A directory: the numbers and names of its entries, in the format of [struct dirent]. *)
Definition dirent_bytes (e : Z * list Z) : list Z := enc16 e.1 ++ e.2 ++ replicate (DIRSIZ - length e.2) 0.
Definition dirent_ok (e : Z * list Z) : Prop := 0 ≤ e.1 < 2 ^ 16 ∧ (length e.2 ≤ DIRSIZ)%nat ∧ 0 ∉ e.2 ∧ 47 ∉ e.2.

Lemma dirent_bytes_length e : dirent_ok e → length (dirent_bytes e) = 16%nat.
Proof. intros (_ & Hl & _). unfold dirent_bytes. rewrite !length_app, enc16_length, length_replicate. lia. Qed.

Lemma dirent_name e : dirent_ok e → cstr (take DIRSIZ (drop 2 (dirent_bytes e))) = e.2.
Proof.
  intros (_ & Hl & H0 & _). unfold dirent_bytes. rewrite drop_app_length' by (by rewrite enc16_length).
  rewrite take_ge by (rewrite length_app, length_replicate; lia).
  assert (Forall (λ c, c ≠ 0) e.2) as Hf by (apply Forall_forall; intros x Hx ->; done).
  destruct (DIRSIZ - length e.2)%nat; [cbn; rewrite app_nil_r; by apply cstr_no_nul|]. cbn [replicate]. by apply cstr_app_nul.
Qed.

Section listing.
Variable files : list Z → option stream.
Variable fstat_of : list Z → option status.

Definition ls_text (name : list Z) (st : status) : list Z :=
  fmtname name ++ [32] ++ decimal (st_type st) ++ [32] ++ decimal (st_ino st) ++ [32] ++ decimal (st_size st) ++ [10].

Lemma ls_format name st : printf (chars "%s %d %d %d" ++ [10])
  [AStr (Some (fmtname name)); AInt (st_type st); AInt (st_ino st); AInt (st_size st)] = Some (ls_text name st).
Proof. unfold printf, chars, ls_text. simpl. by do 3 (rewrite directive_d; simpl). Qed.

Lemma ls_line_spec name st u : u_wok u = [] → ∃ u', ls_line name st u = Ok (tt, u') ∧ prints (ls_text name st) u u'.
Proof.
  intros Hw. unfold ls_line, uprintf. rewrite ls_format. cbn [mopt].
  destruct (put_chars_spec (ls_text name st) u Hw) as (u' & E & Hp). exists u'. split; [|done].
  by erewrite bind_Ok by reflexivity.
Qed.

Lemma ustat_spec n s u fd x : files n = Some s → list_find (λ x, x = None) (u_fds u) = Some (fd, x) → ustat files fstat_of n u = Ok (fstat_of n, u).
Proof.
  intros Hn Hfd. unfold ustat. destruct (open_spec files n s u fd x Hn Hfd) as (u1 & Ho & Hw & Ho1 & Hat & Hcl).
  erewrite bind_Ok by exact Ho. rewrite (proj2 (Z.ltb_ge _ _)) by lia.
  erewrite bind_Ok by (apply Hcl; eexists; symmetry; by apply list_insert_id). rewrite Hw, Ho1. by destruct u.
Qed.

Section entries.
Variables (path : list Z) (fd : Z).

Definition entry_path (e : Z * list Z) : list Z := path ++ [47] ++ e.2.
(** The lines for the entries that are in use. *)
Definition listing (es : list (Z * list Z)) : list Z :=
  filter (λ e : Z * list Z, e.1 ≠ 0) es ≫= λ e, from_option (ls_text (entry_path e)) [] (fstat_of (entry_path e)).
(** The files of the directory can be opened. *)
Definition reachable (e : Z * list Z) : Prop := e.1 ≠ 0 → is_Some (files (entry_path e)) ∧ is_Some (fstat_of (entry_path e)).

Definition spare (u : uproc) : Prop := ∃ i, i ≠ Z.to_nat fd ∧ u_fds u !! i = Some None.

Lemma spare_only u u' : spare u → only_fd fd u u' → spare u'.
Proof. intros (i & Hi & Hx) [s Hs]. exists i. split; [done|]. by rewrite Hs, list_lookup_insert_ne. Qed.

Lemma spare_find u : spare u → ∃ i x, list_find (λ x, x = None) (u_fds u) = Some (i, x).
Proof.
  intros (i & _ & Hi). destruct (list_find (λ x, x = None) (u_fds u)) as [[j x]|] eqn:E; [eauto|].
  apply list_find_None in E. rewrite Forall_forall in E. exfalso. apply (E None); [by eapply list_elem_of_lookup_2|done].
Qed.

(** One entry that is in use. *)
Lemma ls_entry e u : dirent_ok e → reachable e → e.1 ≠ 0 → spare u → u_wok u = [] →
  ∃ st u', ustat files fstat_of (entry_path e) u = Ok (Some st, u) ∧ fstat_of (entry_path e) = Some st ∧
    ls_line (entry_path e) st u = Ok (tt, u') ∧ prints (ls_text (entry_path e) st) u u'.
Proof.
  intros Hok Hre Hne Hsp Hw. destruct (Hre Hne) as [[s Hs] [st Hst]]. destruct (spare_find u Hsp) as (i & x & Hfd).
  destruct (ls_line_spec (entry_path e) st u Hw) as (u' & El & Hp). exists st, u'.
  split_and!; [|done|done|done]. rewrite <-Hst. by eapply ustat_spec.
Qed.

Lemma ls_entries_spec es : ∀ fuel u, Forall dirent_ok es → Forall reachable es → file_at (es ≫= dirent_bytes) fd u → spare u →
  u_wok u = [] → (length es < fuel)%nat →
  ∃ u', ls_entries files fstat_of fuel fd path u = Ok (tt, u') ∧ only_fd fd u u' ∧ u_wok u' = [] ∧
    written u' = written u ++ (pair 1 <$> listing es).
Proof.
  induction es as [|e es IH]; intros fuel u Hok Hre Hat Hsp Hw Hf; (destruct fuel as [|fuel]; [cbn in Hf; lia|]);
    cbn [ls_entries]; (edestruct (read_file _ fd 16 u Hat) as (u1 & Hread & Hw1 & Ho1 & Hat1 & Hd1); [lia|]);
    erewrite bind_Ok by exact Hread; cbn [fst snd].
  { change (([] : list (Z * list Z)) ≫= dirent_bytes) with ([] : list Z). rewrite take_nil. cbn. exists u1. split_and!; [done|done|congruence|]. unfold written. by rewrite Ho1, app_nil_r. }
  apply Forall_cons in Hok as [He Hok], Hre as [Hr Hre]. cbn [mbind list_bind length] in *.
  pose proof (dirent_bytes_length e He) as Hl. change (Z.to_nat 16) with 16%nat in *.
  rewrite take_app_length' by done. rewrite drop_app_length' in Hat1 by done. rewrite Hl. change (Z.of_nat 16 =? 16) with true. cbn iota.
  assert (get16 (dirent_bytes e) 0 = e.1) as -> by (apply get16_enc, He). rewrite dirent_name by done. fold (entry_path e).
  unfold listing. rewrite filter_cons. destruct (Z.eqb_spec e.1 0) as [E0|E0].
  - rewrite decide_False by (intros H; by apply H). destruct (IH fuel u1) as (u' & -> & Hd & Hw' & Ho); [done|done|done|by eapply spare_only|congruence|lia|].
    exists u'. split_and!; [done|by eapply only_fd_trans|done|]. unfold written in *. by rewrite Ho, Ho1.
  - rewrite decide_True by done. destruct (ls_entry e u1) as (st & u2 & Es & Est & El & (Hf2 & Hw2 & Ho2)); [done|done|done|by eapply spare_only|congruence|].
    erewrite bind_Ok by exact Es. cbn iota. erewrite bind_Ok by exact El.
    assert (only_fd fd u u2) as Hd2 by (destruct Hd1 as [x Hx]; exists x; congruence).
    destruct (IH fuel u2) as (u' & -> & Hd & Hw' & Ho); [done|done| |by eapply spare_only|done|lia|].
    { destruct Hat1 as (x & Hx & Hc). exists x. by rewrite Hf2. }
    exists u'. split_and!; [done|by eapply only_fd_trans|done|]. cbn [mbind list_bind]. rewrite Est. cbn [from_option].
    rewrite Ho, Ho2, fmap_app, app_assoc. unfold written at 1. by rewrite Ho1.
Qed.
End entries.

(** [ls] of a directory prints a line for each entry in use. *)
Theorem ls_lists_directory fuel path es st u i j : files path = Some [Data (es ≫= dirent_bytes)] → fstat_of path = Some st →
  st_type st = T_DIR → Z.of_nat (length path) ≤ 496 → Forall dirent_ok es → Forall (reachable path) es → (length es < fuel)%nat →
  i ≠ j → u_fds u !! i = Some None → u_fds u !! j = Some None → u_wok u = [] →
  ∃ u', ls files fstat_of fuel path u = Ok (tt, u') ∧ prints (listing path es) u u'.
Proof.
  intros Hp Hst Hty Hlen Hok Hre Hf Hij Hi Hj Hw. unfold ls.
  destruct (list_find (λ x, x = None) (u_fds u)) as [[fd x]|] eqn:Hfd.
  2:{ apply list_find_None in Hfd. rewrite Forall_forall in Hfd. exfalso. apply (Hfd None); [by eapply list_elem_of_lookup_2|done]. }
  destruct (open_spec files path _ u fd x Hp Hfd) as (u1 & Ho & Hw1 & Ho1 & Hat & Hcl).
  erewrite bind_Ok by exact Ho. rewrite (proj2 (Z.ltb_ge _ _)) by lia. rewrite Hst, Hty. change (T_DIR =? T_FILE) with false.
  change (T_DIR =? T_DIR) with true. cbn iota. rewrite (proj2 (Z.ltb_ge _ _)) by lia.
  assert (spare (Z.of_nat fd) u1) as Hsp.
  { unfold u_open in Ho. rewrite Hp, Hfd in Ho. injection Ho as <-. unfold spare. rewrite Nat2Z.id. cbn [u_fds].
    destruct (decide (i = fd)) as [->|]; [exists j|exists i]; (split; [congruence|]); by rewrite list_lookup_insert_ne by congruence. }
  destruct (ls_entries_spec path (Z.of_nat fd) es fuel u1) as (u2 & E & Hd & Hw2 & Ho2); [done|done|by eexists; eauto|done|congruence|done|].
  erewrite bind_Ok by exact E. rewrite Hcl by done. eexists. split; [reflexivity|]. split_and!; [done|done|].
  unfold written in *. cbn [u_out]. by rewrite Ho2, Ho1.
Qed.
End listing.

(** * The calls that mkdir, rm and kill make *)

Lemma each_path_all f msg argv : ∀ s, Forall (λ a, 0 ≤ f a) argv →
  each_path f msg argv s = Ok (tt, CProc (c_calls s ++ argv) (c_proc s)).
Proof.
  induction argv as [|a argv IH]; intros s Hf; [by rewrite app_nil_r; destruct s|]. apply Forall_cons in Hf as [Ha Hf].
  cbn [each_path]. erewrite bind_Ok by reflexivity. rewrite (proj2 (Z.ltb_ge _ _)) by lia. rewrite IH by done. cbn. by rewrite <-app_assoc.
Qed.

(** The first call that fails is the last one, and its path is reported. *)
Lemma each_path_stops f msg pre a post : ∀ s, Forall (λ a, 0 ≤ f a) pre → f a < 0 →
  each_path f msg (pre ++ a :: post) s = zoom CPR (uprintf 2 msg [AStr (Some a)]) (CProc (c_calls s ++ pre ++ [a]) (c_proc s)).
Proof.
  induction pre as [|b pre IH]; intros s Hf Ha; cbn [app each_path]; erewrite bind_Ok by reflexivity.
  - by rewrite (proj2 (Z.ltb_lt _ _)).
  - apply Forall_cons in Hf as [Hb Hf]. rewrite (proj2 (Z.ltb_ge _ _)) by lia. rewrite IH by done. cbn. by rewrite <-app_assoc.
Qed.

Lemma kill_args_all kill argv : ∀ s, kill_args kill argv s = Ok (tt, CProc (c_calls s ++ (atoi <$> argv)) (c_proc s)).
Proof.
  induction argv as [|a argv IH]; intros s; [by rewrite app_nil_r; destruct s|].
  cbn [kill_args]. erewrite bind_Ok by reflexivity. rewrite IH. cbn. by rewrite <-app_assoc.
Qed.

(** * The library *)

(** The [memmove] of ulib.c moves a block down, or to a place apart from it. *)
Lemma umemmove_spec n : ∀ m dst src, dst ≤ src ∨ src + Z.of_nat n ≤ dst → ∀ x,
  umemmove m dst src n x = if decide (dst ≤ x < dst + Z.of_nat n) then m (x - dst + src) else m x.
Proof.
  induction n as [|n IH]; intros m dst src Hd x; cbn [umemmove]; [by rewrite decide_False by lia|].
  rewrite IH by lia. unfold upd. repeat case_decide; try lia; repeat case_match; try lia; f_equal; lia.
Qed.

(** Moved up over itself, a block is overwritten before it is read. *)
Example umemmove_up : ∃ m : mem, m 0 = 1 ∧ m 1 = 2 ∧ umemmove m 1 0 2 2 = 1.
Proof. by exists (λ a, a + 1). Qed.

(** [strcpy] of the string at [t] copies it with its NUL. *)
Lemma strcpy_spec l : ∀ fuel m s t, (length l < fuel)%nat → Forall (λ c, c ≠ 0) l →
  (∀ i c, (l ++ [0]) !! i = Some c → m (t + Z.of_nat i) = c) → s ≤ t ∨ t + Z.of_nat (length l) < s →
  strcpy fuel m s t = Some (umemmove m s t (S (length l))).
Proof.
  induction l as [|c l IH]; intros fuel m s t Hf Hnz Hat Hd; (destruct fuel as [|fuel]; [cbn in Hf; lia|]); cbn [strcpy].
  all: pose proof (Hat 0%nat _ eq_refl) as H0; replace (t + Z.of_nat 0) with t in H0 by lia; rewrite H0.
  all: unfold upd at 1; rewrite Z.eqb_refl || rewrite decide_True by done.
  - cbn. by rewrite H0.
  - apply Forall_cons in Hnz as [Hc Hnz]. rewrite (proj2 (Z.eqb_neq _ _)) by done. rewrite IH; cbn [length] in *; [by cbn [umemmove]; rewrite H0|lia|done| |lia].
    intros i x Hi. unfold upd. specialize (Hat (S i) x Hi). replace (t + 1 + Z.of_nat i) with (t + Z.of_nat (S i)) by lia.
    apply lookup_lt_Some in Hi. rewrite length_app in Hi. cbn [length] in Hi. rewrite Hat. destruct (Z.eqb_spec (t + Z.of_nat (S i)) s) as [E|]; [|done]. exfalso. cbn [length] in Hd. lia.
Qed.

Lemma strcmp_eq p : ∀ q, Forall (λ c, c ≠ 0) p → Forall (λ c, c ≠ 0) q → strcmp p q = 0 ↔ p = q.
Proof.
  induction p as [|x p IH]; intros [|y q] Hp Hq; cbn [strcmp]; try done.
  - apply Forall_cons in Hq as [Hy _]. split; [lia|done].
  - apply Forall_cons in Hp as [Hx _]. split; [lia|done].
  - apply Forall_cons in Hp as [Hx Hp], Hq as [Hy Hq]. destruct (Z.eqb_spec x y) as [->|]; [rewrite IH by done; split; congruence|].
    split; [lia|congruence].
Qed.
