(* ===== verification/ShellRun.v ===== *)
(** The processes of the shell: [runcmd], [fork1], [panic], [getcmd] and
    [main] of sh.c.

    The code of a process is a tree of the system calls it makes, each with a
    continuation from its result; as in C, the two sides of a [fork] continue
    from the same point with different results.  A state of the system has a
    tree and a table of descriptors for every process, and [step] lets a process
    of choice make its next call, so a sequence of steps is an interleaving.
    Calls may fail.  A program that was started by [exec] ends at some time, or
    only after it has read its standard input to the end: from a pipe, that is
    when no process has the writing end open any more.  Pipes always have room,
    and no process is killed.

    A process is named by the path of forks to it from the shell, so that
    processes and pipes have the same names in every interleaving.  [plan] says
    which programs a command line stands for, with their descriptors and what
    has to end before they start; the theorems say that this is what the shell
    does.  They are proved in a logic for trees of calls ([safe]), in which a
    process owns the part of the plan it has to do; that there is no deadlock
    follows from where the ends of pipes can be ([tidy]). *)

From Stdlib Require Import ZArith Lia.
From stdpp Require Import base numbers strings option gmap sets list list_numbers.
From S2P Require Import Prelude Mem Block Printf Shell.

(** * Trees of system calls *)

Abbreviation path := (list nat).

(** What a descriptor stands for: what the shell was given, an opened file, the
    ends of the [n]-th object of a process. *)
Inductive obj := Given (n : nat) | Opened (name : list Z) (mode : Z) | PipeR (q : path) (n : nat) | PipeW (q : path) (n : nat).
Abbreviation fdtab := (list (option obj)).
#[global] Instance obj_eq_dec : EqDecision obj.
Proof. solve_decision. Defined.

Inductive prog :=
| PExit
| PExec (argv : list (list Z)) (k : prog)
| PPrintf (fd : Z) (fmt : list Z) (ap : list arg) (k : prog)
| PClose (fd : Z) (k : prog)
| POpen (name : list Z) (mode : Z) (k : Z → prog)
| PDup (fd : Z) (k : prog)
| PPipe (k : option (Z * Z) → prog)
| PFork (k : Z → prog)
| PWait (k : prog)
| PRead (k : option Z → prog)
| PChdir (dir : list Z) (k : Z → prog)
| PStuck.

(** * The code of the shell *)

Definition sh_panic (s : string) : prog := PPrintf 2 (chars "%s" ++ [10]) [AStr (Some (chars s))] PExit.

Definition fork1 (k : Z → prog) : prog := PFork (λ pid, if pid =? -1 then sh_panic "fork" else k pid).

(** The strings of the command lie in the line [b]. *)
Fixpoint runcmd (b : list Z) (c : cmd) : prog :=
  match c with
  | EXEC argv =>
      match argv with
      | [] => PExit
      | a :: _ =>
          PExec ((λ x : nat * nat, cstr (drop x.1 b)) <$> argv)
            (PPrintf 2 (chars "exec %s failed" ++ [10]) [AStr (Some (cstr (drop a.1 b)))] PExit)
      end
  | REDIR c file _ mode fd =>
      PClose fd
        (POpen (cstr (drop file b)) mode (λ r,
           if r <? 0 then PPrintf 2 (chars "open %s failed" ++ [10]) [AStr (Some (cstr (drop file b)))] PExit
           else runcmd b c))
  | LIST l r => fork1 (λ pid, if pid =? 0 then runcmd b l else PWait (runcmd b r))
  | PIPE l r =>
      PPipe (λ p,
        match p with
        | None => sh_panic "pipe"
        | Some (p0, p1) =>
            fork1 (λ pid,
              if pid =? 0 then PClose 1 (PDup p1 (PClose p0 (PClose p1 (runcmd b l))))
              else
                fork1 (λ pid,
                  if pid =? 0 then PClose 0 (PDup p0 (PClose p0 (PClose p1 (runcmd b r))))
                  else PClose p0 (PClose p1 (PWait (PWait PExit)))))
        end)
  | BACK c => fork1 (λ pid, if pid =? 0 then runcmd b c else PExit)
  end.

(** [runcmd(parsecmd(buf))]. *)
Definition run_line (buf : list Z) : prog :=
  match (c ← parseline buf (parse_fuel buf); peek buf [];; mret c) 0%nat with
  | Ok (c, s) =>
      if (s =? es buf)%nat then runcmd (nulterminate c (buf ++ [0])) c
      else PPrintf 2 (chars "leftovers: %s" ++ [10]) [AStr (Some (drop s buf))] (sh_panic "syntax")
  | Panic e => sh_panic e
  | _ => PStuck
  end.

(** [gets] with room for [n] more characters after [acc]. *)
Fixpoint gets_from (n : nat) (acc : list Z) (k : list Z → prog) : prog :=
  match n with
  | O => k acc
  | S n =>
      PRead (λ r,
        match r with
        | None => k acc
        | Some c => if (c =? 10) || (c =? 13) then k (acc ++ [c]) else gets_from n (acc ++ [c]) k
        end)
  end.

(** The line as a C string; an empty one ends the shell. *)
Definition getcmd (nbuf : nat) (k : list Z → prog) : prog :=
  PPrintf 2 (chars "$ ") [] (gets_from (nbuf - 1) [] (λ buf, k (cstr buf))).

Definition is_cd (buf : list Z) : bool := bool_decide (take 3 buf = chars "cd ").

Fixpoint sh_loop (fuel : nat) : prog :=
  match fuel with
  | O => PStuck
  | S fuel =>
      getcmd 100 (λ buf,
        match buf with
        | [] => PExit
        | _ =>
            if is_cd buf then
              let dir := drop 3 (take (length buf - 1) buf) in
              PChdir dir (λ r,
                if r <? 0 then PPrintf 2 (chars "cannot cd %s" ++ [10]) [AStr (Some dir)] (sh_loop fuel)
                else sh_loop fuel)
            else fork1 (λ pid, if pid =? 0 then run_line buf else PWait (sh_loop fuel))
        end)
  end.

(** The descriptor found is below 3 three times at most. *)
Fixpoint open_console (fuel : nat) (k : prog) : prog :=
  match fuel with
  | O => PStuck
  | S fuel =>
      POpen (chars "console") 2 (λ fd,
        if 0 <=? fd then if 3 <=? fd then PClose fd k else open_console fuel k else k)
  end.

Definition sh_main (fuel : nat) : prog := open_console 4 (sh_loop fuel).

(** * The system *)

Inductive run := Run (c : prog) | Execed | Exited.

(** A process: its descriptors, how many objects it has made, the children it
    has not waited for. *)
Record sh_proc := Proc { p_fds : fdtab; p_next : nat; p_kids : list path; p_run : run }.

Inductive event := EExec (q : path) (argv : list (list Z)) (fds : fdtab) | EPrint (q : path) (fd : Z) (t : list Z).

(** [s_in] is what is left of the input of the shell. *)
Record sys := Sys { s_procs : gmap path sh_proc; s_in : list Z; s_log : list event }.

Definition free_fd (fds : fdtab) : option nat := fst <$> list_find (λ x, x = None) fds.

Definition alive (p : sh_proc) : bool := match p_run p with Exited => false | _ => true end.

(** Does a process have the object open?  The descriptors of a process are
    closed when it ends. *)
Definition held (s : sys) (o : obj) : bool :=
  existsb (λ x : path * sh_proc, alive x.2 && bool_decide (Some o ∈ p_fds x.2)) (map_to_list (s_procs s)).

(** Is the standard input the end of a pipe that can still be written to?  Then
    there is no end of file yet. *)
Definition no_eof (s : sys) (p : sh_proc) : bool :=
  match p_fds p !! 0%nat with Some (Some (PipeR r n)) => held s (PipeW r n) | _ => false end.

Section system.
(** Can [fork] fail, and can the other calls? *)
Variables ff cf : bool.
(** Which programs read their standard input to its end before they end? *)
Variable eof : path → bool.

(** The next call of process [q]; [ok] chooses whether a call that may fail
    succeeds, [pick] a child for [wait].  No process is killed, so [read] of the
    console and [wait] for a child do not fail. *)
Definition step (q : path) (ok : bool) (pick : nat) (s : sys) : option sys :=
  p ← s_procs s !! q;
  let put p' := Sys (<[q := p']> (s_procs s)) (s_in s) (s_log s) in
  let go c := Proc (p_fds p) (p_next p) (p_kids p) (Run c) in
  let go_fds fds c := Proc fds (p_next p) (p_kids p) (Run c) in
  match p_run p with
  | Exited | Run PStuck => None
  | Execed =>
      if eof q && no_eof s p then None
      else Some (put (Proc (p_fds p) (p_next p) (p_kids p) Exited))
  | Run PExit => Some (put (Proc (p_fds p) (p_next p) (p_kids p) Exited))
  | Run (PExec argv k) =>
      if negb ok && cf then Some (put (go k))
      else Some (Sys (<[q := Proc (p_fds p) (p_next p) (p_kids p) Execed]> (s_procs s)) (s_in s)
                     (s_log s ++ [EExec q argv (p_fds p)]))
  | Run (PPrintf fd fmt ap k) =>
      t ← printf fmt ap; Some (Sys (<[q := go k]> (s_procs s)) (s_in s) (s_log s ++ [EPrint q fd t]))
  | Run (PClose fd k) => Some (put (go_fds (<[Z.to_nat fd := None]> (p_fds p)) k))
  | Run (POpen name mode k) =>
      if negb ok && cf then Some (put (go (k (-1))))
      else match free_fd (p_fds p) with
           | Some fd => Some (put (go_fds (<[fd := Some (Opened name mode)]> (p_fds p)) (k (Z.of_nat fd))))
           | None => Some (put (go (k (-1))))
           end
  | Run (PDup fd k) =>
      match free_fd (p_fds p), p_fds p !! Z.to_nat fd with
      | Some fd', Some (Some o) => Some (put (go_fds (<[fd' := Some o]> (p_fds p)) k))
      | _, _ => Some (put (go k))
      end
  | Run (PPipe k) =>
      match free_fd (p_fds p) with
      | Some fd0 =>
          let fds0 := <[fd0 := Some (PipeR q (p_next p))]> (p_fds p) in
          match free_fd fds0 with
          | Some fd1 =>
              if negb ok && cf then Some (put (go (k None)))
              else Some (put (Proc (<[fd1 := Some (PipeW q (p_next p))]> fds0) (S (p_next p)) (p_kids p)
                                   (Run (k (Some (Z.of_nat fd0, Z.of_nat fd1))))))
          | None => Some (put (go (k None)))
          end
      | None => Some (put (go (k None)))
      end
  | Run (PFork k) =>
      if negb ok && ff then Some (put (go (k (-1))))
      else
        let c := p_next p :: q in
        Some (Sys (<[c := Proc (p_fds p) 0 [] (Run (k 0))]>
                    (<[q := Proc (p_fds p) (S (p_next p)) (p_kids p ++ [c]) (Run (k (Z.of_nat (S (p_next p)))))]> (s_procs s)))
                  (s_in s) (s_log s))
  | Run (PWait k) =>
      match p_kids p with
      | [] => Some (put (go k))
      | _ =>
          c ← p_kids p !! pick;
          pc ← s_procs s !! c;
          match p_run pc with
          | Exited => Some (put (Proc (p_fds p) (p_next p) (delete pick (p_kids p)) (Run k)))
          | _ => None
          end
      end
  | Run (PRead k) =>
      match s_in s with
      | [] => Some (put (go (k None)))
      | c :: i => Some (Sys (<[q := go (k (Some c))]> (s_procs s)) i (s_log s))
      end
  | Run (PChdir dir k) => Some (put (go (k (if negb ok && cf then -1 else 0))))
  end.

(** [n] steps. *)
Inductive steps : nat → sys → sys → Prop :=
| steps_nil s : steps 0 s s
| steps_snoc n s s1 s2 q ok pick : steps n s s1 → step q ok pick s1 = Some s2 → steps (S n) s s2.
End system.

(** * What a command stands for *)

(** A program to run: its process, arguments and descriptors, and the processes
    that have to end before. *)
Record job := Job { j_pid : path; j_argv : list (list Z); j_fds : fdtab; j_after : list path }.

(** The table with the three standard descriptors [io] and nothing else. *)
Definition std_fds (io : list obj) : fdtab := (Some <$> io) ++ replicate 13 None.

(** A command run by process [q], which has made [n] objects, after the
    processes [after], with [io] as standard descriptors. *)
Fixpoint plan (q : path) (n : nat) (after : list path) (io : list obj) (c : scmd) : list job :=
  match c with
  | SExec argv => match argv with [] => [] | _ => [Job q argv (std_fds io) after] end
  | SRedir c f m fd => plan q n after (<[Z.to_nat fd := Opened f m]> io) c
  | SList l r => plan (n :: q) 0 after io l ++ plan q (S n) (after ++ [n :: q]) io r
  | SPipe l r =>
      plan (S n :: q) 0 after (<[1%nat := PipeW q n]> io) l ++
      plan (S (S n) :: q) 0 after (<[0%nat := PipeR q n]> io) r
  | SBack c => plan (n :: q) 0 after io c
  end.

(** The processes for which nobody waits. *)
Fixpoint background (q : path) (n : nat) (c : scmd) : list path :=
  match c with
  | SExec _ => []
  | SRedir c _ _ _ => background q n c
  | SList l r => background (n :: q) 0 l ++ background q (S n) r
  | SPipe l r => background (S n :: q) 0 l ++ background (S (S n) :: q) 0 r
  | SBack c => (n :: q) :: background (n :: q) 0 c
  end.

(** A bound for the number of calls. *)
Fixpoint cost (c : scmd) : nat :=
  match c with
  | SExec _ => 3
  | SRedir c _ _ _ => 4 + cost c
  | SList l r => 4 + cost l + cost r
  | SPipe l r => 18 + cost l + cost r
  | SBack c => 4 + cost c
  end.

(** What a line stands for, if it can be parsed. *)
Definition line_cmd (buf : list Z) : option scmd :=
  match parsecmd buf with Ok (c, b) => Some (denote (λ x, cstr (drop x.1 b)) c) | _ => None end.

(** The lines of a script, run by the shell; a line with cd starts no process. *)
Fixpoint script_plan (n : nat) (after : list path) (io : list obj) (ls : list (list Z)) : list job :=
  match ls with
  | [] => []
  | l :: ls =>
      if is_cd l then script_plan n after io ls
      else from_option (plan [n] 0 after io) [] (line_cmd l) ++ script_plan (S n) (after ++ [[n]]) io ls
  end.
Fixpoint script_background (n : nat) (ls : list (list Z)) : list path :=
  match ls with
  | [] => []
  | l :: ls =>
      if is_cd l then script_background n ls
      else from_option (background [n] 0) [] (line_cmd l) ++ script_background (S n) ls
  end.
Fixpoint script_cost (ls : list (list Z)) : nat :=
  match ls with
  | [] => 3
  | l :: ls => length l + from_option cost 3%nat (line_cmd l) + 8 + script_cost ls
  end.

(** * A logic for trees of calls *)

(** What a process knows and owns: its objects, descriptors and children,
    processes that have ended, the jobs it has to do, the input, and a number of
    steps. *)
Record ghost := Ghost {
  g_next : nat; g_fds : fdtab; g_kids : list path;
  g_dead : list path; g_jobs : list job; g_in : list Z; g_m : nat
}.

Section logic.
Variables ff cf : bool.
Variable bg : list path.

(** Nothing is lost unless a call fails. *)
Definition lossless (J : list job) : Prop := ff = false → cf = false → J = [].

(** No child but those in the background is left, unless a fork fails. *)
Definition waited (kids : list path) : Prop := ff = false → kids ⊆ bg.

Fixpoint safe (c : prog) (q : path) (g : ghost) {struct c} : Prop :=
  let '(Ghost n fds kids dead J inp m) := g in
  match c with
  | PStuck => False
  | PExit => (1 ≤ m)%nat ∧ waited kids ∧ lossless J
  | PExec argv k =>
      (2 ≤ m)%nat ∧ waited kids ∧ (∃ after, J = [Job q argv fds after] ∧ after ⊆ dead) ∧
      (cf = true → safe k q (Ghost n fds kids dead J inp (m - 1)))
  | PPrintf fd fmt ap k => (1 ≤ m)%nat ∧ is_Some (printf fmt ap) ∧ safe k q (Ghost n fds kids dead J inp (m - 1))
  | PClose fd k => (1 ≤ m)%nat ∧ safe k q (Ghost n (<[Z.to_nat fd := None]> fds) kids dead J inp (m - 1))
  | POpen name mode k =>
      (1 ≤ m)%nat ∧ (cf = true → safe (k (-1)) q (Ghost n fds kids dead J inp (m - 1))) ∧
      ∃ fd, free_fd fds = Some fd ∧
        safe (k (Z.of_nat fd)) q (Ghost n (<[fd := Some (Opened name mode)]> fds) kids dead J inp (m - 1))
  | PDup fd k =>
      (1 ≤ m)%nat ∧ ∃ fd' o, free_fd fds = Some fd' ∧ fds !! Z.to_nat fd = Some (Some o) ∧
        safe k q (Ghost n (<[fd' := Some o]> fds) kids dead J inp (m - 1))
  | PPipe k =>
      (1 ≤ m)%nat ∧ (cf = true → safe (k None) q (Ghost n fds kids dead J inp (m - 1))) ∧
      ∃ fd0 fd1, free_fd fds = Some fd0 ∧ free_fd (<[fd0 := Some (PipeR q n)]> fds) = Some fd1 ∧
        safe (k (Some (Z.of_nat fd0, Z.of_nat fd1))) q
          (Ghost (S n) (<[fd1 := Some (PipeW q n)]> (<[fd0 := Some (PipeR q n)]> fds)) kids dead J inp (m - 1))
  | PFork k =>
      (1 ≤ m)%nat ∧ (ff = true → safe (k (-1)) q (Ghost n fds kids dead J inp (m - 1))) ∧
      ∃ J1 J2 m1 m2, J = J1 ++ J2 ∧ (m1 + m2 < m)%nat ∧
        safe (k 0) (n :: q) (Ghost 0 fds [] dead J1 [] m1) ∧
        safe (k (Z.of_nat (S n))) q (Ghost (S n) fds (kids ++ [n :: q]) dead J2 inp m2)
  | PWait k =>
      (1 ≤ m)%nat ∧ (drop 3 fds = replicate 13 None) ∧ kids ≠ [] ∧
      ∀ pick d, kids !! pick = Some d → safe k q (Ghost n fds (delete pick kids) (d :: dead) J inp (m - 1))
  | PRead k => (1 ≤ m)%nat ∧ q = [] ∧ safe (k (head inp)) q (Ghost n fds kids dead J (tail inp) (m - 1))
  | PChdir dir k =>
      (1 ≤ m)%nat ∧ (cf = true → safe (k (-1)) q (Ghost n fds kids dead J inp (m - 1))) ∧
      safe (k 0) q (Ghost n fds kids dead J inp (m - 1))
  end.
End logic.

(** * The shell is safe *)

Lemma list3 {A} (l : list A) : length l = 3%nat → ∃ a b c, l = [a; b; c].
Proof. destruct l as [|a [|b [|c [|]]]]; try done. intros _. by exists a, b, c. Qed.

Lemma free_std a b c : free_fd (std_fds [a; b; c]) = Some 3%nat.
Proof. done. Qed.

Lemma printf_s (t u a : list Z) : Forall (λ c, c ≠ 37) t → Forall (λ c, c ≠ 37) u →
  printf (t ++ [37; 115] ++ u) [AStr (Some a)] = Some (t ++ a ++ u).
Proof.
  intros Ht Hu. assert (∀ ap, printf_loop false u ap = Some u) as Eu.
  { intros ap. induction Hu as [|c u Hc Hu IH]; [done|]. cbn [printf_loop negb]. by rewrite (proj2 (Z.eqb_neq c 37)), IH by done. }
  unfold printf. induction Ht as [|c t Hc Ht IH]; [|rewrite <-app_comm_cons; cbn [printf_loop negb]; by rewrite (proj2 (Z.eqb_neq c 37)), IH by done].
  cbn. by rewrite Eu.
Qed.

Section verify.
Variables ff cf : bool.
Variable bg : list path.

(** Why a process gives up: a call failed. *)
Lemma panic_safe s q n fds kids dead J inp m : (2 ≤ m)%nat → waited ff bg kids → lossless ff cf J →
  safe ff cf bg (sh_panic s) q (Ghost n fds kids dead J inp m).
Proof.
  intros Hm Hk HJ. cbn. split_and!; [lia| |lia|done|done].
  eexists. apply (printf_s [] [10]); by repeat constructor.
Qed.

Lemma message_safe t u a q n fds kids dead J inp m : Forall (λ c, c ≠ 37) t → Forall (λ c, c ≠ 37) u →
  (2 ≤ m)%nat → waited ff bg kids → lossless ff cf J →
  safe ff cf bg (PPrintf 2 (t ++ [37; 115] ++ u) [AStr (Some a)] PExit) q (Ghost n fds kids dead J inp m).
Proof. intros Ht Hu Hm Hk HJ. cbn [safe]. split_and!; [lia| |lia|done|done]. eexists. by apply printf_s. Qed.

Lemma fork1_safe k q n fds kids dead J1 J2 inp m m1 m2 : (3 ≤ m)%nat → (m1 + m2 < m)%nat →
  safe ff cf bg (k 0) (n :: q) (Ghost 0 fds [] dead J1 [] m1) →
  safe ff cf bg (k (Z.of_nat (S n))) q (Ghost (S n) fds (kids ++ [n :: q]) dead J2 inp m2) →
  safe ff cf bg (fork1 k) q (Ghost n fds kids dead (J1 ++ J2) inp m).
Proof.
  intros Hm Hlt H1 H2. cbn [fork1 safe]. split_and!; [lia| |].
  - intros Hff. cbn [Z.eqb]. apply panic_safe; [lia| |]; intros ?; congruence.
  - exists J1, J2, m1, m2. split_and!; [done|done|done|]. by rewrite (proj2 (Z.eqb_neq _ _)) by lia.
Qed.

Lemma close_safe fd k q n fds kids dead J inp m : (1 ≤ m)%nat →
  safe ff cf bg k q (Ghost n (<[Z.to_nat fd := None]> fds) kids dead J inp (m - 1)) →
  safe ff cf bg (PClose fd k) q (Ghost n fds kids dead J inp m).
Proof. by split. Qed.

Lemma dup_safe fd k q n fds fd' o kids dead J inp m : (1 ≤ m)%nat → free_fd fds = Some fd' → fds !! Z.to_nat fd = Some (Some o) →
  safe ff cf bg k q (Ghost n (<[fd' := Some o]> fds) kids dead J inp (m - 1)) →
  safe ff cf bg (PDup fd k) q (Ghost n fds kids dead J inp m).
Proof. intros. cbn. eauto 6. Qed.

Lemma wait_safe k q n io d kids dead J inp m : (1 ≤ m)%nat → length io = 3%nat →
  (∀ pick e, (d :: kids) !! pick = Some e → safe ff cf bg k q (Ghost n (std_fds io) (delete pick (d :: kids)) (e :: dead) J inp (m - 1))) →
  safe ff cf bg (PWait k) q (Ghost n (std_fds io) (d :: kids) dead J inp m).
Proof. intros Hm Hio Hk. cbn [safe]. destruct (list3 io Hio) as (a & b & c & ->). by split_and!. Qed.

(** A process waits for its only child. *)
Lemma wait1_safe k q n io d dead J inp m : (1 ≤ m)%nat → length io = 3%nat →
  safe ff cf bg k q (Ghost n (std_fds io) [] (d :: dead) J inp (m - 1)) →
  safe ff cf bg (PWait k) q (Ghost n (std_fds io) [d] dead J inp m).
Proof.
  intros Hm Hio Hk. apply wait_safe; [done|done|]. intros [|pick] e Hp; [|by destruct pick]. by injection Hp as <-.
Qed.

Lemma exit_safe q n fds dead inp m : (1 ≤ m)%nat → safe ff cf bg PExit q (Ghost n fds [] dead [] inp m).
Proof. intros Hm. cbn. split_and!; [done| |done]. intros _. apply list_subseteq_nil. Qed.
Hint Resolve exit_safe : core.

Section cmd.
Variables buf b : list Z.
Abbreviation den := (denote (λ x, cstr (drop x.1 b))).

(** Process [q] does what is planned for the command. *)
Definition does (k : prog) (c : scmd) : Prop := ∀ q n io after dead inp m, length io = 3%nat → after ⊆ dead →
  background q n c ⊆ bg → (cost c ≤ m)%nat → safe ff cf bg k q (Ghost n (std_fds io) [] dead (plan q n after io c) inp m).

Lemma exec_does argv : does (runcmd b (EXEC argv)) (den (EXEC argv)).
Proof.
  intros q n io after dead inp m Hio Hd _ Hm. destruct argv as [|a argv]; [by apply exit_safe; cbn in Hm; lia|].
  cbn in Hm. cbn [runcmd safe]. split_and!; [lia|intros _; apply list_subseteq_nil|by exists after|].
  intros Hcf. apply (message_safe (chars "exec ") (chars " failed" ++ [10])); [by repeat constructor..|lia| |].
  - intros _. apply list_subseteq_nil.
  - intros _. congruence.
Qed.

Lemma redir_does c f e m fd : std_redir m fd → does (runcmd b c) (den c) → does (runcmd b (REDIR c f e m fd)) (den (REDIR c f e m fd)).
Proof.
  intros Hs IH q n io after dead inp k Hio Hd Hbg Hk. cbn [denote plan background cost runcmd] in *.
  apply close_safe; [lia|]. cbn [safe]. split_and!; [lia| |].
  - intros Hcf. cbn [Z.ltb Z.compare]. apply (message_safe (chars "open ") (chars " failed" ++ [10])); [by repeat constructor..|lia| |].
    + intros _. apply list_subseteq_nil.
    + intros _. congruence.
  - destruct (list3 io Hio) as (x & y & z & ->). exists (Z.to_nat fd).
    assert (free_fd (<[Z.to_nat fd := None]> (std_fds [x; y; z])) = Some (Z.to_nat fd)) as E by (by destruct Hs as [[_ ->]|[_ ->]]).
    split; [done|]. rewrite (proj2 (Z.ltb_ge _ _)) by lia. 
    rewrite list_insert_insert_eq.
    replace (<[Z.to_nat fd := Some (Opened (cstr (drop f b)) m)]> (std_fds [x; y; z]))
      with (std_fds (<[Z.to_nat fd := Opened (cstr (drop f b)) m]> [x; y; z])) by (by destruct Hs as [[_ ->]|[_ ->]]).
    apply IH; [by rewrite length_insert|done|done|lia].
Qed.

Lemma list_does l r : does (runcmd b l) (den l) → does (runcmd b r) (den r) → does (runcmd b (LIST l r)) (den (LIST l r)).
Proof.
  intros IHl IHr q n io after dead inp m Hio Hd Hbg Hm. cbn [denote plan background cost runcmd] in *.
  apply list_subseteq_app_iff_l in Hbg as [Hbl Hbr].
  apply fork1_safe with (m1 := cost (den l)) (m2 := (m - 1 - cost (den l))%nat); [lia|lia| |].
  - cbn [Z.eqb]. by apply IHl.
  - rewrite (proj2 (Z.eqb_neq _ _)) by lia. apply wait1_safe; [lia|done|]. apply IHr; [done| |done|lia].
    intros d [Hin|Hin]%elem_of_app; [right; by apply Hd|]. apply list_elem_of_singleton in Hin as ->. left.
Qed.

Lemma back_does c : does (runcmd b c) (den c) → does (runcmd b (BACK c)) (den (BACK c)).
Proof.
  intros IH q n io after dead inp m Hio Hd Hbg Hm. cbn [denote plan background cost runcmd] in *.
  rewrite <-(app_nil_r (plan _ _ _ _ _)).
  apply fork1_safe with (m1 := cost (den c)) (m2 := 2%nat); [lia|lia| |].
  - cbn [Z.eqb]. apply IH; [done|done| |done]. intros d Hin. apply Hbg. by right.
  - rewrite (proj2 (Z.eqb_neq _ _)) by lia. cbn [safe]. split_and!; [lia| |done].
    intros _ d Hin. apply list_elem_of_singleton in Hin as ->. apply Hbg. left.
Qed.
Lemma pipe_does l r : does (runcmd b l) (den l) → does (runcmd b r) (den r) → does (runcmd b (PIPE l r)) (den (PIPE l r)).
Proof.
  intros IHl IHr q n io after dead inp m Hio Hd Hbg Hm. cbn [denote plan background cost runcmd] in *.
  apply list_subseteq_app_iff_l in Hbg as [Hbl Hbr]. destruct (list3 io Hio) as (x & y & z & ->).
  cbn [safe]. split_and!; [lia| |].
  { intros Hcf. apply panic_safe; [lia|intros _; apply list_subseteq_nil|intros _; congruence]. }
  exists 3%nat, 4%nat. split; [done|]. split; [done|].
  apply fork1_safe with (m1 := (4 + cost (den l))%nat) (m2 := (m - 6 - cost (den l))%nat); [lia|lia| |].
  - change (0 =? 0) with true. apply close_safe; [lia|].
    apply (dup_safe _ _ _ _ _ 1 (PipeW q n)); [lia|done|done|]. do 2 (apply close_safe; [lia|]).
    apply IHl with (io := [x; PipeW q n; z]); [done|done|done|lia].
  - rewrite (proj2 (Z.eqb_neq _ _)) by lia. rewrite <-(app_nil_r (plan _ _ _ _ (den r))).
    apply fork1_safe with (m1 := (4 + cost (den r))%nat) (m2 := 6%nat); [lia|lia| |].
    + change (0 =? 0) with true. apply close_safe; [lia|].
      apply (dup_safe _ _ _ _ _ 0 (PipeR q n)); [lia|done|done|]. do 2 (apply close_safe; [lia|]).
      apply IHr with (io := [PipeR q n; y; z]); [done|done|done|lia].
    + rewrite (proj2 (Z.eqb_neq _ _)) by lia. do 2 (apply close_safe; [lia|]).
      apply (wait_safe _ _ _ [x; y; z]); [lia|done|]. intros pick e Hp.
      destruct pick as [|[|pick]]; [| |by destruct pick]; (apply wait1_safe; [lia|done|apply exit_safe; lia]).
Qed.

Lemma runcmd_does c : cmd_ok buf c → does (runcmd b c) (den c).
Proof.
  induction c as [argv|c IH f e m fd|l IHl r IHr|l IHl r IHr|c IH]; cbn [cmd_ok].
  - intros _. apply exec_does.
  - intros (Hc & _ & Hs). by apply redir_does; [|apply IH].
  - intros [Hl Hr]. by apply pipe_does; [apply IHl|apply IHr].
  - intros [Hl Hr]. by apply list_does; [apply IHl|apply IHr].
  - intros Hc. by apply back_does, IH.
Qed.
End cmd.

(** A line runs its command, or prints a message when it cannot be parsed. *)
Lemma run_line_safe buf q io after dead m : Forall (λ c, c ≠ 0) buf → length io = 3%nat → after ⊆ dead →
  from_option (background q 0) [] (line_cmd buf) ⊆ bg → (from_option cost 3%nat (line_cmd buf) ≤ m)%nat →
  safe ff cf bg (run_line buf) q
    (Ghost 0 (std_fds io) [] dead (from_option (plan q 0 after io) [] (line_cmd buf)) [] m).
Proof.
  intros Hbuf Hio Hd Hbg Hm. pose proof (parsecmd_ok buf (nul_free_Forall _ Hbuf)) as Hp.
  unfold run_line, line_cmd, parsecmd in *. destruct ((c ← parseline _ _; _) _) as [[c s]|e| | |]; try done.
  - destruct (s =? es buf)%nat.
    + destruct Hp as [Hc _]. by apply (runcmd_does buf).
    + cbn in Hm. cbn [safe from_option]. split; [lia|]. split; [eexists; apply (printf_s (chars "leftovers: ") [10]); by repeat constructor|].
      apply panic_safe; [lia|intros _; apply list_subseteq_nil|done].
  - cbn in Hm. apply panic_safe; [lia|intros _; apply list_subseteq_nil|done].
Qed.

(** A line as it is typed. *)
Definition typed (l : list Z) : Prop := ∃ body, l = body ++ [10] ∧ Forall (λ c, c ∉ [0; 10; 13]) body ∧ (length l ≤ 99)%nat.

Lemma gets_safe body rest k n fds kids dead J : Forall (λ c, c ∉ [0; 10; 13]) body → ∀ room acc m,
  (length body < room)%nat → (S (length body) ≤ m)%nat →
  safe ff cf bg (k (acc ++ body ++ [10])) [] (Ghost n fds kids dead J rest (m - S (length body))) →
  safe ff cf bg (gets_from room acc k) [] (Ghost n fds kids dead J ((body ++ [10]) ++ rest) m).
Proof.
  induction 1 as [|c body Hc Hb IH]; intros room acc m Hr Hm Hk; (destruct room as [|room]; [cbn in Hr; lia|]); cbn [length] in *;
    cbn [gets_from safe]; (split_and!; [lia|done|]); cbn [app head tail].
  - cbn. done.
  - rewrite !not_elem_of_cons in Hc. destruct Hc as (_ & H10 & H13 & _).
    rewrite (proj2 (Z.eqb_neq c 10)), (proj2 (Z.eqb_neq c 13)) by done. cbn [orb].
    apply IH; [lia|lia|]. rewrite <-app_assoc. by replace (m - 1 - S (length body))%nat with (m - S (S (length body)))%nat by lia.
Qed.

Lemma getcmd_safe l rest k n fds kids dead J m : typed l → (S (length l) ≤ m)%nat →
  safe ff cf bg (k l) [] (Ghost n fds kids dead J rest (m - S (length l))) →
  safe ff cf bg (getcmd 100 k) [] (Ghost n fds kids dead J (l ++ rest) m).
Proof.
  intros (body & -> & Hb & Hl) Hm Hk. rewrite length_app in *. cbn [length] in *. unfold getcmd. cbn [safe].
  split_and!; [lia|by eexists|]. apply gets_safe; [done|lia|lia|]. cbn [app].
  rewrite cstr_no_nul; [by replace (m - 1 - S (length body))%nat with (m - S (length body + 1))%nat by lia|].
  apply Forall_app. split; [|by repeat constructor]. eapply Forall_impl; [done|]. intros c Hc. rewrite !not_elem_of_cons in Hc. tauto.
Qed.

Lemma typed_cons l : typed l → ∃ c l', l = c :: l' ∧ Forall (λ c, c ≠ 0) l.
Proof.
  intros (body & -> & Hb & _). assert (Forall (λ c, c ≠ 0) (body ++ [10])) as H0.
  { apply Forall_app. split; [|by repeat constructor]. eapply Forall_impl; [done|]. intros c Hc. rewrite !not_elem_of_cons in Hc. tauto. }
  destruct body as [|c body]; eauto.
Qed.

Lemma sh_loop_safe io : length io = 3%nat → ∀ ls fuel n after dead m, (length ls < fuel)%nat → Forall typed ls →
  after ⊆ dead → script_background n ls ⊆ bg → (script_cost ls ≤ m)%nat →
  safe ff cf bg (sh_loop fuel) [] (Ghost n (std_fds io) [] dead (script_plan n after io ls) (concat ls) m).
Proof.
  intros Hio ls. induction ls as [|l ls IH]; intros fuel n after dead m Hf Ht Hd Hbg Hm; (destruct fuel as [|fuel]; [cbn in Hf; lia|]).
  { cbn in *. split_and!; [lia|by eexists|lia|done|lia|intros _; apply list_subseteq_nil|done]. }
  apply Forall_cons in Ht as [Ht Hts]. cbn [length sh_loop script_plan script_background script_cost concat] in *.
  apply getcmd_safe; [done|lia|]. destruct (typed_cons l Ht) as (c & l' & El & H0). rewrite El at 1. destruct (is_cd l).
  - cbn [safe]. split_and!; [lia| |apply IH; (done || lia)]. intros Hcf. change (-1 <? 0) with true. cbn [safe].
    split_and!; [lia|eexists; apply (printf_s (chars "cannot cd ") [10]); by repeat constructor|]. apply IH; (done || lia).
  - apply list_subseteq_app_iff_l in Hbg as [Hbl Hbr].
    apply fork1_safe with (m1 := from_option cost 3%nat (line_cmd l)) (m2 := (2 + script_cost ls)%nat); [lia|lia| |].
    + change (0 =? 0) with true. by apply run_line_safe.
    + rewrite (proj2 (Z.eqb_neq _ _)) by lia. apply wait1_safe; [lia|done|]. apply IH; [lia|done| |done|lia].
      intros d [Hin|Hin]%elem_of_app; [right; by apply Hd|]. apply list_elem_of_singleton in Hin as ->. left.
Qed.

Lemma sh_main_safe io ls fuel m : length io = 3%nat → (length ls < fuel)%nat → Forall typed ls →
  script_background 0 ls ⊆ bg → (2 + script_cost ls ≤ m)%nat →
  safe ff cf bg (sh_main fuel) [] (Ghost 0 (std_fds io) [] [] (script_plan 0 [] io ls) (concat ls) m).
Proof.
  intros Hio Hf Ht Hbg Hm. unfold sh_main. cbn [open_console safe]. split_and!; [lia| |].
  - intros Hcf. apply sh_loop_safe; (done || lia).
  - destruct (list3 io Hio) as (a & b & c & ->). exists 3%nat. split; [done|]. apply close_safe; [lia|]. apply (sh_loop_safe [a; b; c]); (done || lia).
Qed.
End verify.

(** * Where the ends of pipes are *)

(** The [n]-th object of process [r] is a pipe between its next two children: the
    writing end is for the first and its descendants, the reading end for the
    second and its descendants. *)
Definition side (q : path) (o : obj) : Prop :=
  match o with
  | PipeR r n => ∃ l, q = l ++ S (S n) :: r
  | PipeW r n => ∃ l, q = l ++ S n :: r
  | _ => True
  end.

Lemma side_child q i o : side q o → side (i :: q) o.
Proof. destruct o; try done; intros [l ->]; by exists (i :: l). Qed.

(** A process holds its three standard descriptors only, and what it may. *)
Definition settled (q : path) (fds : fdtab) : Prop :=
  Forall (λ x, from_option (side q) True x) (take 3 fds) ∧ drop 3 fds = replicate 13 None.

(** A process is settled whenever it waits or starts a program; it has made [n]
    objects. *)
Fixpoint tidy (c : prog) (q : path) (n : nat) (fds : fdtab) : Prop :=
  match c with
  | PExit | PStuck => True
  | PExec _ k | PWait k => settled q fds ∧ tidy k q n fds
  | PPrintf _ _ _ k => tidy k q n fds
  | PClose fd k => tidy k q n (<[Z.to_nat fd := None]> fds)
  | POpen name mode k =>
      tidy (k (-1)) q n fds ∧
      ∀ fd, free_fd fds = Some fd → tidy (k (Z.of_nat fd)) q n (<[fd := Some (Opened name mode)]> fds)
  | PDup fd k =>
      match free_fd fds, fds !! Z.to_nat fd with
      | Some fd', Some (Some o) => tidy k q n (<[fd' := Some o]> fds)
      | _, _ => tidy k q n fds
      end
  | PPipe k =>
      tidy (k None) q n fds ∧
      ∀ fd0 fd1, free_fd fds = Some fd0 → free_fd (<[fd0 := Some (PipeR q n)]> fds) = Some fd1 →
        tidy (k (Some (Z.of_nat fd0, Z.of_nat fd1))) q (S n) (<[fd1 := Some (PipeW q n)]> (<[fd0 := Some (PipeR q n)]> fds))
  | PFork k =>
      tidy (k (-1)) q n fds ∧ tidy (k 0) (n :: q) 0 fds ∧ tidy (k (Z.of_nat (S n))) q (S n) fds
  | PRead k => ∀ r, tidy (k r) q n fds
  | PChdir _ k => ∀ r, tidy (k r) q n fds
  end.

Lemma settled_std q io : length io = 3%nat → Forall (side q) io → settled q (std_fds io).
Proof. intros Hio Hs. destruct (list3 io Hio) as (x & y & z & ->). split; [|done]. cbn. rewrite !Forall_cons in *. naive_solver. Qed.

Lemma fork1_tidy k q n fds : tidy (k 0) (n :: q) 0 fds → tidy (k (Z.of_nat (S n))) q (S n) fds → tidy (fork1 k) q n fds.
Proof. intros H0 H1. cbn [fork1 tidy]. split_and!; [done|done|]. by rewrite (proj2 (Z.eqb_neq _ _)) by lia. Qed.

Lemma runcmd_tidy buf b c : cmd_ok buf c → ∀ q n io, length io = 3%nat → Forall (side q) io → tidy (runcmd b c) q n (std_fds io).
Proof.
  assert (∀ q i io, Forall (side q) io → Forall (side (i :: q)) io) as Hchild by (intros q i io H; eapply Forall_impl; [exact H|apply side_child]).
  induction c as [argv|c IH f e m fd|l IHl r IHr|l IHl r IHr|c IH]; cbn [cmd_ok]; intros Hc q n io Hio Hs.
  - destruct argv; [done|]. split; [by apply settled_std|done].
  - destruct Hc as (Hc & _ & Hr). destruct (list3 io Hio) as (x & y & z & ->). cbn [runcmd tidy].
    split; [done|]. intros fd' Efd. rewrite (proj2 (Z.ltb_ge _ _)) by lia. rewrite !Forall_cons in Hs. destruct Hs as (Hx & Hy & Hz & _).
    destruct Hr as [[_ ->]|[_ ->]]; injection Efd as <-.
    + apply (IH Hc q n [Opened _ _; y; z]); [done|]. by repeat constructor.
    + apply (IH Hc q n [x; Opened _ _; z]); [done|]. by repeat constructor.
  - destruct Hc as [Hl Hr]. destruct (list3 io Hio) as (x & y & z & ->). cbn [runcmd tidy]. split; [done|].
    intros fd0 fd1 [= <-] [= <-]. rewrite !Forall_cons in Hs. destruct Hs as (Hx & Hy & Hz & _).
    apply fork1_tidy; [|rewrite (proj2 (Z.eqb_neq _ _)) by lia; apply fork1_tidy; [|rewrite (proj2 (Z.eqb_neq _ _)) by lia]].
    + apply (IHl Hl (S n :: q) 0%nat [x; PipeW q n; z]); [done|]. repeat constructor; try by apply side_child. by exists [].
    + apply (IHr Hr (S (S n) :: q) 0%nat [PipeR q n; y; z]); [done|]. repeat constructor; try by apply side_child. by exists [].
    + cbn [tidy]. assert (settled q (std_fds [x; y; z])) as H by (apply settled_std; [done|by repeat constructor]). done.
  - destruct Hc as [Hl Hr]. cbn [runcmd]. apply fork1_tidy; [by apply IHl, Hchild|].
    rewrite (proj2 (Z.eqb_neq _ _)) by lia. split; [by apply settled_std|by apply IHr].
  - cbn [runcmd]. apply fork1_tidy; [by apply IH, Hchild|]. by rewrite (proj2 (Z.eqb_neq _ _)) by lia.
Qed.

Lemma run_line_tidy buf q io : Forall (λ c, c ≠ 0) buf → length io = 3%nat → Forall (side q) io →
  tidy (run_line buf) q 0 (std_fds io).
Proof.
  intros Hbuf Hio Hs. pose proof (parsecmd_ok buf (nul_free_Forall _ Hbuf)) as Hp.
  unfold run_line, parsecmd in *. destruct ((c ← parseline _ _; _) _) as [[c s]|e| | |]; try done.
  destruct (s =? es buf)%nat; [|done]. destruct Hp as [Hc _]. by apply (runcmd_tidy buf).
Qed.

Lemma gets_tidy k q n fds : (∀ l, tidy (k l) q n fds) → ∀ room acc, tidy (gets_from room acc k) q n fds.
Proof.
  intros Hk room. induction room as [|room IH]; intros acc; cbn [gets_from tidy]; [done|].
  intros [c|]; [|done]. by destruct ((c =? 10) || (c =? 13)).
Qed.

Lemma cstr_nul_free l : Forall (λ c, c ≠ 0) (cstr l).
Proof.
  induction l as [|c l IH]; cbn; [constructor|]. destruct (c =? 0) eqn:E; constructor; [by apply Z.eqb_neq|done].
Qed.

Lemma sh_loop_tidy io fuel : length io = 3%nat → Forall (side []) io → ∀ n, tidy (sh_loop fuel) [] n (std_fds io).
Proof.
  intros Hio Hs. induction fuel as [|fuel IH]; intros n; [done|]. cbn [sh_loop]. unfold getcmd. cbn [tidy].
  apply gets_tidy. intros l. pose proof (cstr_nul_free l) as Hl. destruct (cstr l) as [|c buf] eqn:El; [done|]. rewrite <-El in *.
  destruct (is_cd (cstr l)).
  - cbn [tidy]. intros r. by destruct (r <? 0); cbn [tidy].
  - apply fork1_tidy.
    + apply run_line_tidy; [done|done|]. eapply Forall_impl; [done|]. intros o. apply side_child.
    + rewrite (proj2 (Z.eqb_neq _ _)) by lia. split; [by apply settled_std|done].
Qed.

Lemma sh_main_tidy io fuel : length io = 3%nat → Forall (side []) io → tidy (sh_main fuel) [] 0 (std_fds io).
Proof.
  intros Hio Hs. unfold sh_main. cbn [open_console tidy]. split; [by apply sh_loop_tidy|].
  destruct (list3 io Hio) as (a & b & c & ->). intros fd [= <-]. by apply (sh_loop_tidy [a; b; c]).
Qed.

(** Every process of the system keeps to its side. *)
Definition tidy_run (q : path) (p : sh_proc) : Prop :=
  match p_run p with Run c => tidy c q (p_next p) (p_fds p) | Execed => settled q (p_fds p) | Exited => True end.
Definition placed (s : sys) : Prop := ∀ q p, s_procs s !! q = Some p → tidy_run q p.

Lemma placed_insert m q p' i l i' l' : placed (Sys m i l) → tidy_run q p' → placed (Sys (<[q := p']> m) i' l').
Proof. intros Hm Hp r p. cbn. intros [[<- <-]|[_ Hr]]%lookup_insert_Some; [done|by apply Hm]. Qed.

Lemma step_placed ff cf eof q ok pick s s' : placed s → step ff cf eof q ok pick s = Some s' → placed s'.
Proof.
  intros Hs. unfold step. destruct (s_procs s !! q) as [p|] eqn:Hp; [|done]. cbn [mbind option_bind].
  pose proof (Hs q p Hp) as Ht. unfold tidy_run in Ht. destruct s as [m i l]. cbn [s_procs s_in s_log] in *.
  assert (∀ p' i' l', tidy_run q p' → placed (Sys (<[q := p']> m) i' l')) as Hput by (intros; by eapply placed_insert).
  destruct (p_run p) as [c| |] eqn:Hr; [| |done].
  2:{ destruct (eof q && _); [done|]. intros [= <-]. by apply Hput. }
  destruct c as [|argv k|fd fmt ap k|fd k|name mode k|fd k|k|k|k|k|dir k|]; cbn [tidy] in Ht; [..|done].
  - intros [= <-]. by apply Hput.
  - destruct Ht as [Ht Hk]. destruct (negb ok && cf); intros [= <-]; by apply Hput.
  - destruct (printf fmt ap); [|done]. intros [= <-]. by apply Hput.
  - intros [= <-]. by apply Hput.
  - destruct Ht as [H1 H2]. destruct (negb ok && cf); [intros [= <-]; by apply Hput|].
    destruct (free_fd (p_fds p)); intros [= <-]; apply Hput; [by apply H2|done].
  - destruct (free_fd (p_fds p)), (p_fds p !! Z.to_nat fd) as [[o|]|]; intros [= <-]; by apply Hput.
  - destruct Ht as [H1 H2]. destruct (free_fd (p_fds p)) as [fd0|] eqn:E0; [|intros [= <-]; by apply Hput].
    destruct (free_fd (<[fd0 := _]> (p_fds p))) as [fd1|] eqn:E1; [|intros [= <-]; by apply Hput].
    destruct (negb ok && cf); intros [= <-]; apply Hput; [done|by apply H2].
  - destruct Ht as (H1 & H2 & H3). destruct (negb ok && ff); intros [= <-]; [by apply Hput|].
    eapply (placed_insert _ _ _ i l); [by apply Hput|done].
  - destruct Ht as [_ Hk]. destruct (p_kids p) as [|d kids]; [intros [= <-]; by apply Hput|].
    destruct ((d :: kids) !! pick) as [e|]; [|done]. cbn [mbind option_bind]. destruct (m !! e) as [pe|]; [|done].
    cbn [mbind option_bind]. destruct (p_run pe); [done|done|]. intros [= <-]. by apply Hput.
  - destruct i; intros [= <-]; apply Hput, Ht.
  - intros [= <-]. apply Hput, Ht.
Qed.

Lemma steps_placed ff cf eof n s s' : steps ff cf eof n s s' → placed s → placed s'.
Proof. induction 1 as [|n s s1 s2 q ok pick _ IH Hstep]; [done|]. intros Hs. by eapply step_placed; [apply IH|]. Qed.

(** * The logic is sound *)

Lemma delete_subseteq {A} (l : list A) i : delete i l ⊆ l.
Proof. intros x. rewrite delete_take_drop. rewrite <-(take_drop i l) at 3. intros [H|H]%elem_of_app; apply elem_of_app; [by left|right].
  rewrite <-(take_drop 1 (drop i l)), drop_drop. apply elem_of_app. right. by replace (i + 1)%nat with (S i) by lia. Qed.

Lemma delete_elem {A} (l : list A) i x y : l !! i = Some x → y ∈ l → y = x ∨ y ∈ delete i l.
Proof.
  intros Hi Hy. rewrite <-(take_drop_middle l i x Hi) in Hy. rewrite delete_take_drop.
  rewrite elem_of_app, elem_of_cons in Hy. rewrite elem_of_app. tauto.
Qed.

(** The sum of a map. *)
Definition total (W : gmap path nat) : nat := sum_list (map_to_list W).*2.

Lemma total_insert_new W q m : W !! q = None → total (<[q := m]> W) = (m + total W)%nat.
Proof. intros Hq. unfold total. rewrite map_to_list_insert by done. done. Qed.

Lemma total_insert W q m m' : W !! q = Some m → (total (<[q := m']> W) + m = m' + total W)%nat.
Proof.
  intros Hq. rewrite <-(insert_delete_id W q m Hq) at 2. rewrite <-(insert_delete_eq W q m').
  rewrite !total_insert_new by apply lookup_delete_eq. lia.
Qed.

Definition exited (s : sys) (q : path) : Prop := ∃ p, s_procs s !! q = Some p ∧ p_run p = Exited.

Section adequacy.
Variables ff cf : bool.
Variable eof : path → bool.
Variable bg : list path.
(** All jobs. *)
Variable J0 : list job.

Definition proc_ok (s : sys) (q : path) (p : sh_proc) (g : ghost) : Prop :=
  match p_run p with
  | Run c =>
      safe ff cf bg c q g ∧ g_next g = p_next p ∧ g_fds g = p_fds p ∧ g_kids g = p_kids p ∧
      (∀ d, d ∈ g_dead g → exited s d) ∧ (q = [] → g_in g = s_in s)
  | Execed => (1 ≤ g_m g)%nat ∧ waited ff bg (p_kids p) ∧ g_jobs g = []
  | Exited => waited ff bg (p_kids p) ∧ g_jobs g = []
  end.

(** The processes that called [exec]. *)
Definition exec_pids (log : list event) : list path := omap (λ e, match e with EExec q _ _ => Some q | _ => None end) log.

Definition logged (s : sys) (j : job) : Prop := EExec (j_pid j) (j_argv j) (j_fds j) ∈ s_log s.

(** [M] more steps are possible at most. *)
Record inv (M : nat) (s : sys) (G : gmap path ghost) : Prop := {
  inv_dom q : is_Some (s_procs s !! q) → is_Some (G !! q);
  inv_proc q p g : s_procs s !! q = Some p → G !! q = Some g → proc_ok s q p g;
  inv_kids q p d : s_procs s !! q = Some p → d ∈ p_kids p → is_Some (s_procs s !! d) ∧ ∃ i, d = i :: q;
  inv_child q n : is_Some (s_procs s !! (n :: q)) →
    ∃ p, s_procs s !! q = Some p ∧ (n < p_next p)%nat ∧ (n :: q ∈ p_kids p ∨ exited s (n :: q));
  inv_jobs q g j : G !! q = Some g → j ∈ g_jobs g → j ∈ J0;
  inv_log q argv fds : EExec q argv fds ∈ s_log s →
    ∃ after, Job q argv fds after ∈ J0 ∧ ∀ d, d ∈ after → exited s d;
  inv_all j : ff = false → cf = false → j ∈ J0 → logged s j ∨ ∃ q g, G !! q = Some g ∧ j ∈ g_jobs g;
  inv_live q g : G !! q = Some g → is_Some (s_procs s !! q);
  inv_once : NoDup (exec_pids (s_log s));
  inv_ran q : q ∈ exec_pids (s_log s) → ∃ p, s_procs s !! q = Some p ∧ ∀ c, p_run p ≠ Run c;
  inv_total : (total (g_m <$> G) ≤ M)%nat
}.

Lemma exited_insert s q p p' inp log d : s_procs s !! q = Some p → p_run p ≠ Exited → exited s d →
  exited (Sys (<[q := p']> (s_procs s)) inp log) d.
Proof.
  intros Hq Hr (pd & Hd & Hx). exists pd. split; [|done]. cbn [s_procs].
  rewrite lookup_insert_ne by (intros ->; congruence). done.
Qed.

(** Other processes are not affected by what a process does. *)
Lemma proc_ok_other s s' q p g : proc_ok s q p g → (∀ d, exited s d → exited s' d) → (q = [] → s_in s' = s_in s) →
  proc_ok s' q p g.
Proof.
  unfold proc_ok. intros H He Hi. destruct (p_run p); [|done|done]. destruct H as (? & ? & ? & ? & Hd & Hin).
  split_and!; try done; [by intros d ?; apply He, Hd|]. intros Hq. by rewrite Hi, Hin.
Qed.

(** A process calls [exec] at most once. *)
Lemma ran_local s G M q p p' log : inv M s G → s_procs s !! q = Some p →
  (∃ c, p_run p = Run c) ∨ (∀ c, p_run p' ≠ Run c) →
  exec_pids log = exec_pids (s_log s) ∨
    exec_pids log = exec_pids (s_log s) ++ [q] ∧ (∃ c, p_run p = Run c) ∧ (∀ c, p_run p' ≠ Run c) →
  NoDup (exec_pids log) ∧
  ∀ r, r ∈ exec_pids log → ∃ p0, <[q := p']> (s_procs s) !! r = Some p0 ∧ ∀ c, p_run p0 ≠ Run c.
Proof.
  intros HI Hq Hrun Hpids. assert (∀ c, p_run p = Run c → q ∉ exec_pids (s_log s)) as Hnot.
  { intros c Hc Hran. destruct (inv_ran _ _ _ HI q Hran) as (p0 & Hp0 & Hp0c). rewrite Hq in Hp0. injection Hp0 as <-. by destruct (Hp0c c). }
  split.
  - destruct Hpids as [->|(-> & [c Hc] & _)]; [apply (inv_once _ _ _ HI)|].
    apply NoDup_app. split_and!; [apply (inv_once _ _ _ HI)| |apply NoDup_singleton].
    intros r Hran E. apply list_elem_of_singleton in E as ->. by destruct (Hnot c Hc).
  - intros r Hran. destruct (decide (r = q)) as [->|Hne]; [rewrite lookup_insert_eq|rewrite lookup_insert_ne by done].
    + exists p'. split; [done|]. destruct Hpids as [E|(_ & _ & ?)]; [|done].
      destruct Hrun as [[c Hc]|]; [|done]. rewrite E in Hran. by destruct (Hnot c Hc).
    + apply (inv_ran _ _ _ HI). destruct Hpids as [E|(E & _)]; rewrite E in Hran; [done|].
      apply elem_of_app in Hran as [|H]; [done|]. by apply list_elem_of_singleton in H.
Qed.

(** A step of process [q] that makes no process. *)
Lemma inv_local M s G q p g p' g' inp log :
  inv M s G → s_procs s !! q = Some p → G !! q = Some g → p_run p ≠ Exited → (p_next p ≤ p_next p')%nat →
  (∀ d, d ∈ p_kids p' → d ∈ p_kids p) → (∀ d, d ∈ p_kids p → d ∈ p_kids p' ∨ exited s d) →
  q = [] ∨ inp = s_in s →
  proc_ok (Sys (<[q := p']> (s_procs s)) inp log) q p' g' →
  g_jobs g' ⊆ g_jobs g →
  (∀ e, e ∈ s_log s → e ∈ log) →
  (∀ r argv fds, EExec r argv fds ∈ log → EExec r argv fds ∈ s_log s ∨
     ∃ after, Job r argv fds after ∈ g_jobs g ∧ ∀ d, d ∈ after → exited s d) →
  (ff = false → cf = false → ∀ j, j ∈ g_jobs g → j ∈ g_jobs g' ∨ EExec (j_pid j) (j_argv j) (j_fds j) ∈ log) →
  (∃ c, p_run p = Run c) ∨ (∀ c, p_run p' ≠ Run c) →
  exec_pids log = exec_pids (s_log s) ∨
    exec_pids log = exec_pids (s_log s) ++ [q] ∧ (∃ c, p_run p = Run c) ∧ (∀ c, p_run p' ≠ Run c) →
  (g_m g' < g_m g)%nat →
  inv (M - 1) (Sys (<[q := p']> (s_procs s)) inp log) (<[q := g']> G) ∧ (0 < M)%nat.
Proof.
  intros HI Hq Hg Hr Hn Hk1 Hk2 Hin Hok HJ Hl1 Hl2 Hall Hrun Hpids Hm.
  set (s' := Sys (<[q := p']> (s_procs s)) inp log) in *.
  assert (∀ d, exited s d → exited s' d) as Hex by (intros d; by eapply exited_insert).
  assert (∀ r, is_Some (s_procs s' !! r) ↔ is_Some (s_procs s !! r)) as Hdom.
  { intros r. cbn. destruct (decide (r = q)) as [->|]; [by rewrite lookup_insert_eq, Hq|by rewrite lookup_insert_ne]. }
  pose proof (inv_total _ _ _ HI) as HM.
  assert (total (g_m <$> <[q := g']> G) < total (g_m <$> G))%nat as Ht.
  { rewrite fmap_insert. pose proof (total_insert (g_m <$> G) q (g_m g) (g_m g')) as E. rewrite lookup_fmap, Hg in E.
    specialize (E eq_refl). lia. }
  destruct (ran_local s G M q p p' log HI Hq Hrun Hpids) as [Hran1 Hran2].
  split; [|lia]. split.
  - intros r Hs%Hdom. destruct (decide (r = q)) as [->|]; [by rewrite lookup_insert_eq|]. rewrite lookup_insert_ne by done. by apply (inv_dom _ _ _ HI).
  - intros r pr gr Hpr Hgr. cbn in Hpr. destruct (decide (r = q)) as [->|Hne].
    + rewrite lookup_insert_eq in Hpr. rewrite lookup_insert_eq in Hgr. by simplify_eq.
    + rewrite lookup_insert_ne in Hpr by done. rewrite lookup_insert_ne in Hgr by done. eapply proc_ok_other; [by eapply inv_proc|done|].
      intros ->. destruct Hin as [->| ->]; done.
  - intros r pr d Hpr Hd. cbn in Hpr. rewrite Hdom. destruct (decide (r = q)) as [->|Hne].
    + rewrite lookup_insert_eq in Hpr. simplify_eq. eapply (inv_kids _ _ _ HI); [done|]. by apply Hk1.
    + rewrite lookup_insert_ne in Hpr by done. by eapply (inv_kids _ _ _ HI).
  - intros r n Hs%Hdom. destruct (inv_child _ _ _ HI r n Hs) as (pr & Hpr & Hlt & Hc). cbn [s_procs s'].
    destruct (decide (r = q)) as [->|Hne].
    + rewrite lookup_insert_eq. simplify_eq. exists p'. split_and!; [done|lia|].
      destruct Hc as [Hc|Hc]; [|right; by apply Hex]. destruct (Hk2 _ Hc); [by left|right; by apply Hex].
    + rewrite lookup_insert_ne by done. exists pr. split_and!; [done|done|]. destruct Hc; [by left|right; by apply Hex].
  - intros r gr j Hgr Hj. destruct (decide (r = q)) as [->|].
    + rewrite lookup_insert_eq in Hgr. simplify_eq. eapply (inv_jobs _ _ _ HI); [done|by apply HJ].
    + rewrite lookup_insert_ne in Hgr by done. by eapply (inv_jobs _ _ _ HI).
  - intros r argv fds Hlog. destruct (Hl2 _ _ _ Hlog) as [H|(after & Hj & Hd)].
    + destruct (inv_log _ _ _ HI _ _ _ H) as (after & ? & Hd). exists after. split; [done|]. intros d ?. by apply Hex, Hd.
    + exists after. split; [by eapply (inv_jobs _ _ _ HI)|]. intros d ?. by apply Hex, Hd.
  - intros j Hff Hcf Hj. destruct (inv_all _ _ _ HI j Hff Hcf Hj) as [H|(r & gr & Hgr & Hjr)]; [left; by apply Hl1|].
    destruct (decide (r = q)) as [->|Hne].
    + simplify_eq. destruct (Hall Hff Hcf j Hjr); [|by left]. right. exists q, g'. by rewrite lookup_insert_eq.
    + right. exists r, gr. by rewrite lookup_insert_ne.
  - intros r gr Hgr. apply Hdom. destruct (decide (r = q)) as [->|]; [by eexists|]. rewrite lookup_insert_ne in Hgr by done. by eapply (inv_live _ _ _ HI).
  - apply Hran1.
  - apply Hran2.
  - lia.
Qed.

Definition Inv (M : nat) (s : sys) : Prop := ∃ G, inv M s G.

(** The state in which a running process and what it owns agree. *)
Definition owns (s : sys) (G : gmap path ghost) (q : path) (c : prog) (g : ghost) : Prop :=
  s_procs s !! q = Some (Proc (g_fds g) (g_next g) (g_kids g) (Run c)) ∧ G !! q = Some g.

Lemma inv_run M s G q c c' n fds kids dead J inp m n' fds' kids' dead' inp' sin log :
  inv M s G → owns s G q c (Ghost n fds kids dead J inp m) → (n ≤ n')%nat → kids' ⊆ kids →
  (∀ d, d ∈ kids → d ∈ kids' ∨ exited s d) → (∀ d, d ∈ dead' → exited s d) →
  q = [] ∨ sin = s_in s → (q = [] → inp' = sin) →
  (log = s_log s ∨ ∃ fd t, log = s_log s ++ [EPrint q fd t]) → (1 ≤ m)%nat →
  safe ff cf bg c' q (Ghost n' fds' kids' dead' J inp' (m - 1)) →
  Inv (M - 1) (Sys (<[q := Proc fds' n' kids' (Run c')]> (s_procs s)) sin log) ∧ (0 < M)%nat.
Proof.
  intros HI [Hq HG] Hn Hk1 Hk2 Hd Hin Hin' Hlog Hm Hsafe. cbn in Hq.
  edestruct (inv_local M s G q _ _ (Proc fds' n' kids' (Run c')) (Ghost n' fds' kids' dead' J inp' (m - 1)) sin log HI Hq HG)
    as [HI' HM]; [done|done|done|done|done| |done| | | |left; by eexists|left|cbn; lia|split; [by eexists|done]].
  - unfold proc_ok. cbn. split_and!; try done. intros d Hd'. eapply exited_insert; [done|done|by apply Hd].
  - intros e He. destruct Hlog as [->|(fd & t & ->)]; [done|]. apply elem_of_app. by left.
  - intros r argv fds0 He. left. destruct Hlog as [->|(fd & t & ->)]; [done|].
    apply elem_of_app in He as [He|He]; [done|]. by apply list_elem_of_singleton in He.
  - intros _ _ j Hj. by left.
  - destruct Hlog as [->|(fd & t & ->)]; [done|]. unfold exec_pids. by rewrite omap_app, app_nil_r.
Qed.

Lemma inv_go M s G q c c' n fds kids dead J inp m n' fds' :
  inv M s G → owns s G q c (Ghost n fds kids dead J inp m) → (q = [] → inp = s_in s) → (∀ d, d ∈ dead → exited s d) →
  (n ≤ n')%nat → (1 ≤ m)%nat → safe ff cf bg c' q (Ghost n' fds' kids dead J inp (m - 1)) →
  Inv (M - 1) (Sys (<[q := Proc fds' n' kids (Run c')]> (s_procs s)) (s_in s) (s_log s)) ∧ (0 < M)%nat.
Proof. intros HI Ho Hin Hd Hn Hm Hs. eapply inv_run; eauto. Qed.

(** A process that ends, or is ending. *)
Lemma inv_end M s G q p g : inv M s G → s_procs s !! q = Some p → G !! q = Some g → p_run p ≠ Exited →
  waited ff bg (p_kids p) → lossless ff cf (g_jobs g) → (1 ≤ g_m g)%nat →
  Inv (M - 1) (Sys (<[q := Proc (p_fds p) (p_next p) (p_kids p) Exited]> (s_procs s)) (s_in s) (s_log s)) ∧ (0 < M)%nat.
Proof.
  intros HI Hq HG Hr Hw HJ Hm.
  edestruct (inv_local M s G q p g (Proc (p_fds p) (p_next p) (p_kids p) Exited) (Ghost 0 [] [] [] [] [] 0) (s_in s) (s_log s) HI Hq HG)
    as [HI' HM]; [done|done|by intros|by left|by right|done|apply list_subseteq_nil|done|by left| |by right|by left|cbn; lia|split; [by eexists|done]].
  intros Hff Hcf j. rewrite (HJ Hff Hcf). intros Hj. by apply elem_of_nil in Hj.
Qed.

Lemma inv_exec M s G q argv k n fds kids dead after inp m : inv M s G →
  owns s G q (PExec argv k) (Ghost n fds kids dead [Job q argv fds after] inp m) →
  (∀ d, d ∈ dead → exited s d) → waited ff bg kids → after ⊆ dead → (2 ≤ m)%nat →
  Inv (M - 1) (Sys (<[q := Proc fds n kids Execed]> (s_procs s)) (s_in s) (s_log s ++ [EExec q argv fds])) ∧ (0 < M)%nat.
Proof.
  intros HI [Hq HG] Hd Hw Ha Hm. cbn in Hq.
  edestruct (inv_local M s G q _ _ (Proc fds n kids Execed) (Ghost 0 [] [] [] [] [] (m - 1)) (s_in s) (s_log s ++ [EExec q argv fds]) HI Hq HG)
    as [HI' HM]; [done|done|done|by left|by right| |apply list_subseteq_nil| | | |by right|right|cbn; lia|split; [by eexists|done]].
  - unfold proc_ok. cbn. split_and!; [lia|done|done].
  - intros e He. apply elem_of_app. by left.
  - intros r argv' fds' [He|He]%elem_of_app; [by left|right]. apply list_elem_of_singleton in He. simplify_eq.
    exists after. split; [left|]. intros d Hin. by apply Hd, Ha.
  - intros _ _ j Hj. right. cbn in Hj. apply list_elem_of_singleton in Hj as ->. apply elem_of_app. right. left.
  - unfold exec_pids. rewrite omap_app. split_and!; [done|by eexists|done].
Qed.

(** The new process of a fork is new, and a child. *)
Section fork.
Variables (M : nat) (s : sys) (G : gmap path ghost) (q : path) (k : Z → prog).
Variables (n : nat) (fds : fdtab) (kids dead : list path) (J1 J2 : list job) (inp : list Z) (m m1 m2 : nat).
Hypothesis HI : inv M s G.
Hypothesis Ho : owns s G q (PFork k) (Ghost n fds kids dead (J1 ++ J2) inp m).
Hypothesis Hin : q = [] → inp = s_in s.
Hypothesis Hd : ∀ d, d ∈ dead → exited s d.
Hypothesis Hm : (m1 + m2 < m)%nat.
Hypothesis Hs1 : safe ff cf bg (k 0) (n :: q) (Ghost 0 fds [] dead J1 [] m1).
Hypothesis Hs2 : safe ff cf bg (k (Z.of_nat (S n))) q (Ghost (S n) fds (kids ++ [n :: q]) dead J2 inp m2).

Definition forked : sys :=
  Sys (<[n :: q := Proc fds 0 [] (Run (k 0))]>
        (<[q := Proc fds (S n) (kids ++ [n :: q]) (Run (k (Z.of_nat (S n))))]> (s_procs s))) (s_in s) (s_log s).
Definition forkedG : gmap path ghost :=
  <[n :: q := Ghost 0 fds [] dead J1 [] m1]> (<[q := Ghost (S n) fds (kids ++ [n :: q]) dead J2 inp m2]> G).

Lemma fork_new : s_procs s !! (n :: q) = None ∧ G !! (n :: q) = None.
Proof.
  assert (s_procs s !! (n :: q) = None) as E.
  { apply eq_None_not_Some. intros Hs. destruct (inv_child _ _ _ HI q n Hs) as (p & Hp & Hlt & _). destruct Ho as [Hq _].
    rewrite Hq in Hp. injection Hp as <-. cbn in Hlt. lia. }
  split; [done|]. apply eq_None_not_Some. intros [g Hg]. apply (inv_live _ _ _ HI) in Hg as [x Hx]. congruence.
Qed.

Lemma cons_ne : n :: q ≠ q.
Proof. intros E%(f_equal length). cbn in E. lia. Qed.

Lemma forked_lookup r p : s_procs forked !! r = Some p →
  r = n :: q ∧ p = Proc fds 0 [] (Run (k 0)) ∨
  r = q ∧ p = Proc fds (S n) (kids ++ [n :: q]) (Run (k (Z.of_nat (S n)))) ∨
  r ≠ n :: q ∧ r ≠ q ∧ s_procs s !! r = Some p.
Proof.
  cbn. destruct (decide (r = n :: q)) as [->|H1]; [rewrite lookup_insert_eq; intros [= <-]; by left|].
  rewrite lookup_insert_ne by done. destruct (decide (r = q)) as [->|H2]; [rewrite lookup_insert_eq; intros [= <-]; by right; left|].
  rewrite lookup_insert_ne by done. auto.
Qed.

Lemma forkedG_lookup r g : forkedG !! r = Some g →
  r = n :: q ∧ g = Ghost 0 fds [] dead J1 [] m1 ∨
  r = q ∧ g = Ghost (S n) fds (kids ++ [n :: q]) dead J2 inp m2 ∨
  r ≠ n :: q ∧ r ≠ q ∧ G !! r = Some g.
Proof.
  unfold forkedG. destruct (decide (r = n :: q)) as [->|H1]; [rewrite lookup_insert_eq; intros [= <-]; by left|].
  rewrite lookup_insert_ne by done. destruct (decide (r = q)) as [->|H2]; [rewrite lookup_insert_eq; intros [= <-]; by right; left|].
  rewrite lookup_insert_ne by done. auto.
Qed.

Lemma forked_some r : is_Some (s_procs s !! r) → is_Some (s_procs forked !! r).
Proof. intros H. cbn. by rewrite !lookup_insert_is_Some'; auto. Qed.

Lemma forked_exited d : exited s d → exited forked d.
Proof.
  intros (p & Hp & Hx). exists p. split; [|done]. cbn. rewrite !lookup_insert_ne; [done| |].
  - intros ->. destruct Ho as [Hq _]. rewrite Hq in Hp. by injection Hp as <-.
  - intros <-. destruct fork_new. congruence.
Qed.

Lemma forked_total : (total (g_m <$> forkedG) < total (g_m <$> G))%nat.
Proof.
  unfold forkedG. rewrite !fmap_insert. destruct Ho as [_ HG]. rewrite total_insert_new.
  - pose proof (total_insert (g_m <$> G) q m m2) as E. rewrite lookup_fmap, HG in E. specialize (E eq_refl). cbn [g_m] in *. lia.
  - rewrite lookup_insert_ne by (symmetry; apply cons_ne). rewrite lookup_fmap. by rewrite (proj2 fork_new).
Qed.

Lemma forked_procs r p g : s_procs forked !! r = Some p → forkedG !! r = Some g → proc_ok forked r p g.
Proof.
  intros [[-> ->]|[[-> ->]|(H1 & H2 & Hp)]]%forked_lookup [[E ->]|[[E ->]|(H3 & H4 & Hg)]]%forkedG_lookup;
    try (exfalso; (congruence || by apply cons_ne)).
  - unfold proc_ok. cbn. split_and!; try done. intros d ?. by apply forked_exited, Hd.
  - unfold proc_ok. cbn. split_and!; try done. intros d ?. by apply forked_exited, Hd.
  - eapply proc_ok_other; [by eapply inv_proc|apply forked_exited|done].
Qed.

Lemma forked_child r i : is_Some (s_procs forked !! (i :: r)) →
  ∃ p, s_procs forked !! r = Some p ∧ (i < p_next p)%nat ∧ (i :: r ∈ p_kids p ∨ exited forked (i :: r)).
Proof.
  assert (s_procs forked !! q = Some (Proc fds (S n) (kids ++ [n :: q]) (Run (k (Z.of_nat (S n)))))) as Eq.
  { cbn. rewrite lookup_insert_ne by apply cons_ne. by rewrite lookup_insert_eq. }
  assert (∀ i r, is_Some (s_procs s !! (i :: r)) → ∃ p, s_procs forked !! r = Some p ∧ (i < p_next p)%nat ∧
    (i :: r ∈ p_kids p ∨ exited forked (i :: r))) as Hold.
  { intros i' r' Hs. destruct (inv_child _ _ _ HI r' i' Hs) as (p & Hp & Hlt & Hc). destruct (decide (r' = q)) as [->|Hne].
    - destruct Ho as [Hq _]. rewrite Hq in Hp. injection Hp as <-. cbn in Hlt, Hc. eexists. split; [done|]. cbn. split; [lia|].
      destruct Hc; [left; apply elem_of_app; by left|right; by apply forked_exited].
    - exists p. split; [|split; [done|destruct Hc; [by left|right; by apply forked_exited]]]. cbn.
      rewrite !lookup_insert_ne; [done|done|]. intros <-. by rewrite (proj1 fork_new) in Hp. }
  intros [p [[E _]|[[<- _]|(_ & _ & Hp)]]%forked_lookup].
  - injection E as -> ->. eexists. split; [done|]. cbn. split; [lia|]. left. apply elem_of_app. right. left.
  - apply Hold. destruct Ho as [Hq _]. by rewrite Hq.
  - by apply Hold.
Qed.

Lemma inv_fork : Inv (M - 1) forked ∧ (0 < M)%nat.
Proof.
  pose proof forked_total as Ht. pose proof (inv_total _ _ _ HI) as HM. destruct Ho as [Hq HG]. split; [|lia]. exists forkedG. split.
  - intros r [p [[-> ->]|[[-> ->]|(H1 & H2 & Hp)]]%forked_lookup]; unfold forkedG; rewrite !lookup_insert_is_Some'; auto.
    right. right. apply (inv_dom _ _ _ HI). by eexists.
  - apply forked_procs.
  - intros r p d [[-> ->]|[[-> ->]|(H1 & H2 & Hp)]]%forked_lookup Hin'; cbn in Hin'.
    + by apply elem_of_nil in Hin'.
    + apply elem_of_app in Hin' as [Hin'|Hin'].
      * destruct (inv_kids _ _ _ HI q _ d Hq Hin') as [Hs Hi]. split; [by apply forked_some|done].
      * apply list_elem_of_singleton in Hin' as ->. split; [cbn; by rewrite lookup_insert_eq|by eexists].
    + destruct (inv_kids _ _ _ HI r _ d Hp Hin') as [Hs Hi]. split; [by apply forked_some|done].
  - apply forked_child.
  - intros r g j Hg Hj. assert (j ∈ J1 ++ J2 ∨ ∃ g', G !! r = Some g' ∧ j ∈ g_jobs g') as [H|(g' & H & H')].
    { apply forkedG_lookup in Hg as [[-> ->]|[[-> ->]|(_ & _ & Hg)]]; [left; apply elem_of_app; by left|left; apply elem_of_app; by right|right; eauto]. }
    + by eapply (inv_jobs _ _ _ HI).
    + by eapply (inv_jobs _ _ _ HI).
  - intros r argv fds' Hlog. destruct (inv_log _ _ _ HI _ _ _ Hlog) as (after & Hj & Ha). exists after. split; [done|].
    intros d ?. by apply forked_exited, Ha.
  - intros j Hff Hcf Hj. destruct (inv_all _ _ _ HI j Hff Hcf Hj) as [H|(r & g & Hg & Hjr)]; [by left|right].
    assert (is_Some (forkedG !! (n :: q)) ∧ forkedG !! (n :: q) = Some (Ghost 0 fds [] dead J1 [] m1)) as [_ E1] by (unfold forkedG; by rewrite lookup_insert_eq).
    assert (forkedG !! q = Some (Ghost (S n) fds (kids ++ [n :: q]) dead J2 inp m2)) as E2.
    { unfold forkedG. rewrite lookup_insert_ne by apply cons_ne. by rewrite lookup_insert_eq. }
    destruct (decide (r = q)) as [->|Hne].
    + rewrite HG in Hg. injection Hg as <-. cbn in Hjr. apply elem_of_app in Hjr as [H|H]; eauto.
    + exists r, g. split; [|done]. unfold forkedG. rewrite !lookup_insert_ne; [done|done|]. intros <-. by rewrite (proj2 fork_new) in Hg.
  - intros r g [[-> ->]|[[-> ->]|(H1 & H2 & Hg)]]%forkedG_lookup; cbn; rewrite !lookup_insert_is_Some'; auto.
    right. right. by eapply (inv_live _ _ _ HI).
  - apply (inv_once _ _ _ HI).
  - intros r Hran. destruct (inv_ran _ _ _ HI r Hran) as (p & Hp & Hpc). exists p. split; [|done]. cbn.
    rewrite !lookup_insert_ne; [done| |]; [intros <-|intros <-; by rewrite (proj1 fork_new) in Hp].
    rewrite Hq in Hp. injection Hp as <-. by destruct (Hpc (PFork k)).
  - lia.
Qed.
End fork.

Lemma proc_ok_owns M s G q p g c : inv M s G → s_procs s !! q = Some p → G !! q = Some g → p_run p = Run c →
  p = Proc (g_fds g) (g_next g) (g_kids g) (Run c) ∧ owns s G q c g ∧ safe ff cf bg c q g ∧
  (∀ d, d ∈ g_dead g → exited s d) ∧ (q = [] → g_in g = s_in s).
Proof.
  intros HI Hp Hg Hr. pose proof (inv_proc _ _ _ HI q p g Hp Hg) as H. unfold proc_ok in H. rewrite Hr in H.
  destruct H as (Hs & Hn & Hf & Hk & Hd & Hin). assert (p = Proc (g_fds g) (g_next g) (g_kids g) (Run c)) as E.
  { destruct p. cbn in *. congruence. }
  split; [done|]. split; [|done]. split; [|done]. congruence.
Qed.

(** Every step keeps the invariant and takes one of the steps left. *)
Lemma step_inv M s s' q ok pick : Inv M s → step ff cf eof q ok pick s = Some s' → Inv (M - 1) s' ∧ (0 < M)%nat.
Proof.
  intros [G HI]. unfold step. destruct (s_procs s !! q) as [p|] eqn:Hp; [|done]. cbn [mbind option_bind].
  destruct (inv_dom _ _ _ HI q) as [g Hg]; [by eexists|].
  destruct (p_run p) as [c| |] eqn:Hr; [| |done].
  2:{ destruct (eof q && no_eof s p); [done|]. intros [= <-]. pose proof (inv_proc _ _ _ HI q p g Hp Hg) as H. unfold proc_ok in H. rewrite Hr in H.
      destruct H as (Hm & Hw & HJ). apply (inv_end M s G q p g); try done; congruence. }
  destruct (proc_ok_owns M s G q p g c HI Hp Hg Hr) as (Ep & Ho & Hs & Hd & Hin). clear Hr. subst p.
  destruct g as [n fds kids dead J inp m]. cbn [p_fds p_next p_kids g_fds g_next g_kids g_dead g_jobs g_in g_m] in *.
  destruct c as [|argv k|fd fmt ap k|fd k|name mode k|fd k|k|k|k|k|dir k|]; cbn [safe] in Hs; [..|done].
  - intros [= <-]. destruct Hs as (Hm & Hw & HJ). by apply (inv_end M s G q _ _ HI Hp Hg).
  - destruct Hs as (Hm & Hw & (after & -> & Ha) & Hk). destruct (negb ok && cf) eqn:Ef; intros [= <-]; [|by eapply inv_exec].
    apply andb_true_iff in Ef as [_ Ef]. eapply inv_go; [done|done|done|done|done|lia|by apply Hk].
  - destruct Hs as (Hm & [t Et] & Hk). rewrite Et. intros [= <-]. eapply inv_run; eauto.
  - destruct Hs as (Hm & Hk). intros [= <-]. by eapply inv_go.
  - destruct Hs as (Hm & Hk1 & fd & Efd & Hk2). destruct (negb ok && cf) eqn:Ef.
    + apply andb_true_iff in Ef as [_ Ef]. intros [= <-]. eapply inv_go; eauto.
    + rewrite Efd. intros [= <-]. by eapply inv_go.
  - destruct Hs as (Hm & fd' & o & E1 & E2 & Hk). rewrite E1, E2. intros [= <-]. by eapply inv_go.
  - destruct Hs as (Hm & Hk1 & fd0 & fd1 & E1 & E2 & Hk2). rewrite E1, E2. destruct (negb ok && cf) eqn:Ef.
    + apply andb_true_iff in Ef as [_ Ef]. intros [= <-]. eapply inv_go; eauto.
    + intros [= <-]. eapply inv_go; eauto.
  - destruct Hs as (Hm & Hk1 & J1 & J2 & m1 & m2 & -> & Hlt & Hc & Hpa). destruct (negb ok && ff) eqn:Ef.
    + apply andb_true_iff in Ef as [_ Ef]. intros [= <-]. eapply inv_go; eauto.
    + intros [= <-]. by eapply (inv_fork M s G q k n fds kids dead J1 J2 inp m m1 m2).
  - destruct Hs as (Hm & _ & Hne & Hk). destruct kids as [|d0 kids]; [done|]. set (l := d0 :: kids) in *. clearbody l.
    destruct (l !! pick) as [d|] eqn:Epick; [|done]. cbn [mbind option_bind].
    destruct (s_procs s !! d) as [pd|] eqn:Epd; [|done]. cbn [mbind option_bind]. destruct (p_run pd) eqn:Erd; [done|done|].
    intros [= <-]. assert (exited s d) as Hxd by (by exists pd).
    eapply inv_run; [done|done|done|apply delete_subseteq| | |by right|done|by left|done|by apply Hk].
    + intros e He. destruct (delete_elem l pick d e Epick He) as [->|]; [by right|by left].
    + intros e [->|He]%elem_of_cons; [done|by apply Hd].
  - destruct Hs as (Hm & -> & Hk). specialize (Hin eq_refl). subst inp. destruct (s_in s) as [|c i] eqn:Ei; intros [= <-]; cbn [head tail] in Hk.
    + eapply inv_run; eauto. by rewrite Ei.
    + eapply inv_run; eauto.
  - destruct Hs as (Hm & Hk1 & Hk2). intros [= <-]. destruct (negb ok && cf) eqn:Ef; [|by eapply inv_go].
    apply andb_true_iff in Ef as [_ Ef]. eapply inv_go; eauto.
Qed.

Lemma steps_inv n M s s' : steps ff cf eof n s s' → Inv M s → Inv (M - n) s' ∧ (n ≤ M)%nat.
Proof.
  induction 1 as [s|n s s1 s2 q ok pick _ IH Hstep]; intros HI; [rewrite Nat.sub_0_r; split; [done|lia]|].
  destruct (IH HI) as [HI1 Hle]. destruct (step_inv _ _ _ _ _ _ HI1 Hstep) as [HI2 Hlt].
  split; [|lia]. by replace (M - S n)%nat with (M - n - 1)%nat by lia.
Qed.

(** [l ++ d] is a descendant of [d], waited for on the way. *)
Fixpoint foreground (l d : path) : Prop := match l with [] => True | i :: l' => l ++ d ∉ bg ∧ foreground l' d end.

(** When a process has ended, so have the processes it waits for. *)
Lemma exited_foreground M s d : Inv M s → ff = false → exited s d → ∀ l, foreground l d →
  is_Some (s_procs s !! (l ++ d)) → exited s (l ++ d).
Proof.
  intros [G HI] Hff Hd l. induction l as [|i l IH]; intros Hl Hs; [done|]. destruct Hl as [Hbg Hl].
  destruct (inv_child _ _ _ HI (l ++ d) i Hs) as (p & Hp & _ & [Hk|Hk]); [|done].
  destruct IH as (p' & Hp' & Hx); [done|by eexists|]. rewrite Hp in Hp'. injection Hp' as <-.
  destruct (inv_dom _ _ _ HI (l ++ d)) as [g Hg]; [by eexists|].
  pose proof (inv_proc _ _ _ HI _ _ _ Hp Hg) as Hok. unfold proc_ok in Hok. rewrite Hx in Hok. destruct Hok as [Hw _].
  destruct Hbg. by apply (Hw Hff).
Qed.

(** A process that waits holds the three standard descriptors only. *)
Lemma waiting_fds M s q p k : Inv M s → s_procs s !! q = Some p → p_run p = Run (PWait k) → drop 3 (p_fds p) = replicate 13 None.
Proof.
  intros [G HI] Hp Hr. destruct (inv_dom _ _ _ HI q) as [g Hg]; [by eexists|].
  destruct (proc_ok_owns M s G q p g _ HI Hp Hg Hr) as (-> & _ & Hs & _). destruct g. cbn in *. apply Hs.
Qed.

(** * Progress *)

Definition live (p : sh_proc) : Prop := p_run p ≠ Exited.

Lemma longest_path (m : gmap path sh_proc) : ∃ N, ∀ q, is_Some (m !! q) → (length q ≤ N)%nat.
Proof.
  induction m as [|q p m Hq IH] using map_ind; [exists 0%nat; intros q [p Hp]; by rewrite lookup_empty in Hp|].
  destruct IH as [N HN]. exists (N `max` length q)%nat. intros r Hr. destruct (decide (r = q)) as [->|Hne]; [lia|].
  rewrite lookup_insert_ne in Hr by done. specialize (HN r Hr). lia.
Qed.

(** A process of the shell that does not wait can go on. *)
Lemma run_progress M s q p c : Inv M s → s_procs s !! q = Some p → p_run p = Run c → (∀ k, c ≠ PWait k) →
  ∃ s', step ff cf eof q true 0 s = Some s'.
Proof.
  intros [G HI] Hp Hr Hnw. destruct (inv_dom _ _ _ HI q) as [g Hg]; [by eexists|].
  destruct (proc_ok_owns M s G q p g c HI Hp Hg Hr) as (_ & _ & Hs & _). unfold step. rewrite Hp. cbn [mbind option_bind].
  rewrite Hr. destruct g as [n fds kids dead J inp m]. cbn in Hs.
  destruct c; cbn [negb andb] in *; eauto; try done; try (by repeat case_match; eauto); [|by destruct (Hnw c)].
  destruct Hs as (_ & [t Et] & _). rewrite Et. cbn. eauto.
Qed.

Lemma held_spec s o : held s o = true → ∃ q p, s_procs s !! q = Some p ∧ live p ∧ Some o ∈ p_fds p.
Proof.
  unfold held. rewrite existsb_exists. intros ([q p] & Hin & E). apply andb_true_iff in E as [Ha Ho]. cbn in Ha, Ho.
  exists q, p. split; [by apply elem_of_map_to_list, list_elem_of_In|]. split; [|by apply bool_decide_eq_true in Ho].
  unfold live. intros E. unfold alive in Ha. by rewrite E in Ha.
Qed.

Lemma settled_side q fds o : settled q fds → Some o ∈ fds → side q o.
Proof.
  intros [Hs Hd] Ho. rewrite <-(take_drop 3 fds), Hd in Ho. apply elem_of_app in Ho as [Ho|Ho].
  - rewrite Forall_forall in Hs. by apply (Hs _ Ho).
  - by apply elem_of_replicate in Ho as [? _].
Qed.

Section stuck.
Context (M : nat) (s : sys) (HInv : Inv M s) (Hplaced : placed s).
Hypothesis Hstop : ∀ q ok pick, step ff cf eof q ok pick s = None.

(** The descendants of [q] have ended, and so has [q]. *)
Definition ended (q : path) : Prop := ∀ l p, s_procs s !! (l ++ q) = Some p → p_run p = Exited.

(** What is live waits, or has started a program, and keeps to its side. *)
Lemma stuck_settled q p : s_procs s !! q = Some p → live p → settled q (p_fds p).
Proof.
  intros Hp Hl. pose proof (Hplaced q p Hp) as Ht. unfold tidy_run, live in *. destruct (p_run p) as [c| |] eqn:Hr; [|done|done].
  assert ((∃ k, c = PWait k) ∨ ∀ k, c ≠ PWait k) as [[k ->]|Hnw] by (destruct c; eauto); [apply Ht|].
  destruct (run_progress M s q p c HInv Hp Hr Hnw) as [s' E]. by rewrite Hstop in E.
Qed.

(** A process that waits has a live child. *)
Lemma stuck_wait q p k : s_procs s !! q = Some p → p_run p = Run (PWait k) →
  ∃ i pd, s_procs s !! (i :: q) = Some pd ∧ live pd.
Proof.
  intros Hp Hr. destruct HInv as [G HI]. destruct (inv_dom _ _ _ HI q) as [g Hg]; [by eexists|].
  destruct (proc_ok_owns M s G q p g _ HI Hp Hg Hr) as (Ep & _ & Hs & _).
  assert (p_kids p ≠ []) as Hne by (rewrite Ep; destruct g; cbn in *; tauto).
  destruct (p_kids p) as [|d kids] eqn:Ekids; [done|].
  destruct (inv_kids _ _ _ HI q p d Hp) as [[pd Hpd] [i ->]]; [rewrite Ekids; left|].
  exists i, pd. split; [done|]. intros Hx. pose proof (Hstop q true 0%nat) as E. unfold step in E. rewrite Hp in E. cbn in E.
  rewrite Hr, Ekids in E. cbn in E. rewrite Hpd in E. cbn in E. by rewrite Hx in E.
Qed.

(** A program that has not ended reads from a pipe of which a process further
    left has the other end. *)
Lemma stuck_exec q p : s_procs s !! q = Some p → p_run p = Execed →
  ∃ l r n, q = l ++ S (S n) :: r ∧ ¬ ended (S n :: r).
Proof.
  intros Hp Hr. pose proof (Hstop q true 0%nat) as E. unfold step in E. rewrite Hp in E. cbn in E. rewrite Hr in E.
  destruct (eof q && no_eof s p) eqn:Eb; [|done]. apply andb_true_iff in Eb as [_ Eb]. unfold no_eof in Eb.
  destruct (p_fds p !! 0%nat) as [[[]|]|] eqn:E0; try done.
  assert (side q (PipeR q0 n)) as [l El].
  { apply (settled_side q (p_fds p)); [apply stuck_settled; [done|]; unfold live; congruence|]. by apply list_elem_of_lookup_2 in E0. }
  exists l, q0, n. split; [done|]. intros Hend. destruct (held_spec _ _ Eb) as (h & ph & Hh & Hl & Ho).
  destruct (settled_side h (p_fds ph) (PipeW q0 n)) as [l' ->]; [by apply stuck_settled|done|]. by apply Hl, (Hend l').
Qed.

(** So all has ended, from the left to the right and from the leaves to the root. *)
Lemma stuck_ended N : (∀ q, is_Some (s_procs s !! q) → (length q ≤ N)%nat) → ∀ k q, (N - length q < k)%nat →
  (∀ l r i j, q = l ++ j :: r → (i < j)%nat → ended (i :: r)) → ended q.
Proof.
  intros HN k. induction k as [|k IH]; intros q Hk Hleft; [lia|].
  assert (∀ i, ended (i :: q)) as Hkids.
  { intros i. induction (lt_wf i) as [i _ IHi]. destruct (decide (N ≤ length q)%nat) as [Hle|Hgt].
    - intros l p Hp. pose proof (HN (l ++ i :: q) ltac:(by eexists)) as H. rewrite length_app in H. cbn in H. lia.
    - apply IH; [cbn; lia|]. intros [|x l] r i' j [= -> ->] Hij; [by apply IHi|]. by eapply Hleft. }
  intros l. destruct (decide (l = [])) as [->|Hne].
  - cbn. intros p Hp. destruct (p_run p) as [c| |] eqn:Hr; [| |done].
    + assert ((∃ k, c = PWait k) ∨ ∀ k, c ≠ PWait k) as [[k' ->]|Hnw] by (destruct c; eauto).
      * destruct (stuck_wait q p k' Hp Hr) as (i & pd & Hpd & Hl). destruct Hl. by apply (Hkids i []).
      * destruct (run_progress M s q p c HInv Hp Hr Hnw) as [s' E]. by rewrite Hstop in E.
    + destruct (stuck_exec q p Hp Hr) as (l & r & n & El & Hn). destruct Hn. eapply Hleft; [done|]. lia.
  - destruct (exists_last Hne) as (l' & i & ->). intros p. rewrite <-app_assoc. apply Hkids.
Qed.
End stuck.

(** When nothing can go on, all processes have ended and all jobs are done. *)
Lemma finished M s : Inv M s → placed s → (∀ q ok pick, step ff cf eof q ok pick s = None) →
  (∀ q p, s_procs s !! q = Some p → p_run p = Exited) ∧ (ff = false → cf = false → ∀ j, j ∈ J0 → logged s j).
Proof.
  intros HInv Hpl Hstop. destruct (longest_path (s_procs s)) as [N HN].
  assert (∀ q p, s_procs s !! q = Some p → p_run p = Exited) as Hall.
  { intros q p Hp. apply (stuck_ended M s HInv Hpl Hstop N HN (S N) []) with (l := q); [cbn; lia| |by rewrite app_nil_r].
    intros [|x l] r i j; done. }
  split; [done|]. intros Hff Hcf j Hj. destruct HInv as [G HI].
  destruct (inv_all _ _ _ HI j Hff Hcf Hj) as [|(q & g & Hg & Hjg)]; [done|].
  destruct (inv_live _ _ _ HI q g Hg) as [p Hp]. pose proof (inv_proc _ _ _ HI q p g Hp Hg) as Hok.
  unfold proc_ok in Hok. rewrite (Hall q p Hp) in Hok. destruct Hok as [_ E]. rewrite E in Hjg. by apply elem_of_nil in Hjg.
Qed.
End adequacy.

(** The shell is started with three descriptors. *)
Definition boot (c : prog) (io : list obj) (inp : list Z) : sys := Sys {[ [] := Proc (std_fds io) 0 [] (Run c) ]} inp [].

Lemma boot_inv ff cf bg c io inp J M : safe ff cf bg c [] (Ghost 0 (std_fds io) [] [] J inp M) → Inv ff cf bg J M (boot c io inp).
Proof.
  intros Hs. exists {[ [] := Ghost 0 (std_fds io) [] [] J inp M ]}. split; unfold boot; cbn.
  - intros q [p [<- _]%lookup_singleton_Some]. by rewrite lookup_singleton_eq.
  - intros q p g [<- <-]%lookup_singleton_Some [_ <-]%lookup_singleton_Some. unfold proc_ok. cbn. split_and!; try done.
    intros d Hd. by apply elem_of_nil in Hd.
  - intros q p d [<- <-]%lookup_singleton_Some Hd. by apply elem_of_nil in Hd.
  - intros q n [p [E _]%lookup_singleton_Some]. done.
  - by intros q g j [_ <-]%lookup_singleton_Some.
  - intros q argv fds H. by apply elem_of_nil in H.
  - intros j _ _ Hj. right. exists [], (Ghost 0 (std_fds io) [] [] J inp M). by rewrite lookup_singleton_eq.
  - intros q g [<- _]%lookup_singleton_Some. by rewrite lookup_singleton_eq.
  - constructor.
  - intros q H. by apply elem_of_nil in H.
  - rewrite map_fmap_singleton. unfold total. rewrite map_to_list_singleton. cbn. lia.
Qed.

(** * The processes of a plan are distinct *)

(** [r] is [q] or comes from its objects from the [n]-th on. *)
Definition under (q : path) (n : nat) (r : path) : Prop := r = q ∨ ∃ l i, r = l ++ i :: q ∧ (n ≤ i)%nat.

Lemma under_child q n m i r : (n ≤ i)%nat → under (i :: q) m r → under q n r.
Proof.
  intros Hi [->|(l & i' & -> & _)]; right; [by exists [], i|]. exists (l ++ [i']), i. by rewrite <-app_assoc.
Qed.

Lemma under_S q n r : under q (S n) r → under q n r.
Proof. intros [->|(l & i & -> & Hi)]; [by left|]. right. exists l, i. split; [done|lia]. Qed.

(** What comes from two different objects of a process is different. *)
Lemma under_disjoint q n i m r : under (i :: q) m r → (i < n)%nat → under q n r ∨ (∃ i' m', i ≠ i' ∧ under (i' :: q) m' r) → False.
Proof.
  intros Hr Hi H. assert (∃ l, r = l ++ i :: q) as [l El].
  { destruct Hr as [->|(l & k & -> & _)]; [by exists []|]. exists (l ++ [k]). by rewrite <-app_assoc. }
  assert (r ≠ q) as Hq. { intros E%(f_equal length). rewrite El, length_app in E. cbn in E. lia. }
  assert (∀ l' i', r = l' ++ i' :: q → i' = i) as Huniq.
  { intros l' i' E. rewrite El in E. apply app_inj_2 in E as [_ E]; [by injection E|done]. }
  destruct H as [[->|(l' & i' & E & Hi')]|(i' & m' & Hne & [E|(l' & k & E & _)])].
  - done.
  - apply Huniq in E. lia.
  - apply Hne. symmetry. by apply (Huniq []).
  - apply Hne. symmetry. apply (Huniq (l' ++ [k])). by rewrite <-app_assoc.
Qed.

Lemma plan_under c : ∀ q n after io j, j ∈ plan q n after io c → under q n (j_pid j).
Proof.
  induction c as [argv|c IH f m fd|l IHl r IHr|l IHl r IHr|c IH]; intros q n after io j Hj; cbn [plan] in Hj.
  - destruct argv; [by apply elem_of_nil in Hj|]. apply list_elem_of_singleton in Hj as ->. by left.
  - by eapply IH.
  - apply elem_of_app in Hj as [Hj%IHl|Hj%IHr]; (eapply under_child; [|done]); lia.
  - apply elem_of_app in Hj as [Hj|Hj]; [eapply under_child; [|by eapply IHl]; lia|]. by eapply under_S, IHr.
  - eapply under_child; [|by eapply IH]. lia.
Qed.

Lemma NoDup_jobs (a b : list job) : NoDup (j_pid <$> a) → NoDup (j_pid <$> b) →
  (∀ x y, x ∈ a → y ∈ b → j_pid x ≠ j_pid y) → NoDup (j_pid <$> (a ++ b)).
Proof.
  intros Ha Hb Hab. rewrite fmap_app. apply NoDup_app. split_and!; [done| |done].
  intros r (x & -> & Hx)%list_elem_of_fmap (y & E & Hy)%list_elem_of_fmap. by apply (Hab x y).
Qed.

Lemma plan_NoDup c : ∀ q n after io, NoDup (j_pid <$> plan q n after io c).
Proof.
  induction c as [argv|c IH f m fd|l IHl r IHr|l IHl r IHr|c IH]; intros q n after io; cbn [plan].
  - destruct argv; [constructor|apply NoDup_singleton].
  - apply IH.
  - apply NoDup_jobs; [done|done|]. intros x y Hx%plan_under Hy%plan_under E. rewrite E in Hx.
    eapply under_disjoint; [exact Hx|apply Nat.lt_succ_diag_r|]. right. eexists _, _. split; [|done]. lia.
  - apply NoDup_jobs; [done|done|]. intros x y Hx%plan_under Hy%plan_under E. rewrite E in Hx.
    eapply under_disjoint; [exact Hx|apply Nat.lt_succ_diag_r|]. by left.
  - apply IH.
Qed.

Lemma script_NoDup io ls : ∀ n after, NoDup (j_pid <$> script_plan n after io ls) ∧
  (∀ j, j ∈ script_plan n after io ls → under [] n (j_pid j)).
Proof.
  induction ls as [|l ls IH]; intros n after; cbn [script_plan]; [split; [constructor|intros j Hj; by apply elem_of_nil in Hj]|].
  destruct (is_cd l); [apply IH|]. destruct (IH (S n) (after ++ [[n]])) as [Hn Hu].
  assert (∀ j, j ∈ from_option (plan [n] 0 after io) [] (line_cmd l) → under [n] 0 (j_pid j)) as Hl.
  { destruct (line_cmd l) as [c|]; cbn [from_option]; intros j Hj; [by eapply plan_under|by apply elem_of_nil in Hj]. }
  split.
  - apply NoDup_jobs; [destruct (line_cmd l); [apply plan_NoDup|constructor]|done|].
    intros x y Hx%Hl Hy%Hu E. rewrite E in Hx. eapply under_disjoint; [exact Hx|apply Nat.lt_succ_diag_r|]. by left.
  - intros j [Hj|Hj]%elem_of_app; [eapply under_child; [|by apply Hl]; lia|by apply under_S, Hu].
Qed.

(** * What the shell does *)

(** The programs that were started. *)
Definition started (s : sys) : list (path * list (list Z) * fdtab) :=
  omap (λ e, match e with EExec q argv fds => Some (q, argv, fds) | _ => None end) (s_log s).

Lemma elem_of_started s q argv fds : (q, argv, fds) ∈ started s ↔ EExec q argv fds ∈ s_log s.
Proof.
  unfold started. rewrite list_elem_of_omap. split; [|by exists (EExec q argv fds)].
  intros ([q' argv' fds'|] & Hin & E); [|done]. by injection E as -> -> ->.
Qed.

Lemma started_pids s : (λ x, x.1.1) <$> started s = exec_pids (s_log s).
Proof. unfold started, exec_pids. induction (s_log s) as [|[q argv fds|] l IH]; [done|cbn; by f_equal|done]. Qed.

Lemma sh_main_inv ff cf io ls fuel : length io = 3%nat → Forall typed ls → (length ls < fuel)%nat →
  Inv ff cf (script_background 0 ls) (script_plan 0 [] io ls) (2 + script_cost ls) (boot (sh_main fuel) io (concat ls)).
Proof. intros Hio Ht Hf. apply boot_inv. by apply sh_main_safe. Qed.

Lemma sh_main_placed ff cf eof io inp fuel n s : length io = 3%nat → (∀ r i, PipeR r i ∉ io ∧ PipeW r i ∉ io) →
  steps ff cf eof n (boot (sh_main fuel) io inp) s → placed s.
Proof.
  intros Hio Hend Hsteps. apply (steps_placed _ _ _ _ _ _ Hsteps). unfold boot. intros q p. cbn. intros [<- <-]%lookup_singleton_Some.
  apply sh_main_tidy; [done|]. apply Forall_forall. intros [|n' m|r i|r i] Ho; try done; by destruct (Hend r i).
Qed.

(** C29. Whatever the order in which the processes of the shell run, and
    whatever calls fail, a program is started only as the script says: by the
    process and with the arguments of a job of its plan, once, with exactly the
    three descriptors planned for it (files of redirections, ends of pipes, or
    those of the shell) and no other open, and after the processes before it
    in the script have ended, with all their descendants that are not in the
    background unless a fork failed.  A process of the shell that waits holds
    its three descriptors and no others. *)
Theorem shell_runs_plan ff cf eof io ls fuel n s : length io = 3%nat → Forall typed ls → (length ls < fuel)%nat →
  steps ff cf eof n (boot (sh_main fuel) io (concat ls)) s →
  NoDup ((λ x, x.1.1) <$> started s) ∧
  (∀ q argv fds, (q, argv, fds) ∈ started s →
     ∃ after, Job q argv fds after ∈ script_plan 0 [] io ls ∧
       ∀ d, d ∈ after → exited s d ∧
         (ff = false → ∀ l, foreground (script_background 0 ls) l d → is_Some (s_procs s !! (l ++ d)) → exited s (l ++ d))) ∧
  (∀ q p k, s_procs s !! q = Some p → p_run p = Run (PWait k) → drop 3 (p_fds p) = replicate 13 None).
Proof.
  intros Hio Ht Hf Hsteps. destruct (steps_inv _ _ _ _ _ _ _ _ _ Hsteps (sh_main_inv ff cf io ls fuel Hio Ht Hf)) as [HInv _].
  split_and!.
  - rewrite started_pids. destruct HInv as [G HI]. apply (inv_once _ _ _ _ _ _ _ HI).
  - intros q argv fds Hq%elem_of_started. pose proof HInv as [G HI]. destruct (inv_log _ _ _ _ _ _ _ HI _ _ _ Hq) as (after & Hj & Hd).
    exists after. split; [done|]. intros d Hin. split; [by apply Hd|]. intros Hff l Hl Hs. by eapply exited_foreground; [..|apply Hd|done|done].
  - intros q p k. by eapply waiting_fds.
Qed.

(** C30. A script always ends, without a deadlock: every run of the shell takes at
    most the number of steps computed from its lines, and stops only when all
    processes have ended, even if programs (any of them, as [eof] says) end only
    after the end of their standard input, which for the reading end of a pipe
    comes when no process has the writing end open any more.  If no call fails,
    all programs of the plan have been started by then, each once. *)
Theorem shell_completes ff cf eof io ls fuel n s : length io = 3%nat → (∀ r i, PipeR r i ∉ io ∧ PipeW r i ∉ io) →
  Forall typed ls → (length ls < fuel)%nat →
  steps ff cf eof n (boot (sh_main fuel) io (concat ls)) s →
  (n ≤ 2 + script_cost ls)%nat ∧
  ((∀ q ok pick, step ff cf eof q ok pick s = None) →
     (∀ q p, s_procs s !! q = Some p → p_run p = Exited) ∧
     (ff = false → cf = false → started s ≡ₚ (λ j, (j_pid j, j_argv j, j_fds j)) <$> script_plan 0 [] io ls)).
Proof.
  intros Hio Hend Ht Hf Hsteps. destruct (steps_inv _ _ _ _ _ _ _ _ _ Hsteps (sh_main_inv ff cf io ls fuel Hio Ht Hf)) as [HInv Hn].
  split; [done|]. intros Hstop. destruct (finished _ _ _ _ _ _ _ HInv (sh_main_placed _ _ _ _ _ _ _ _ Hio Hend Hsteps) Hstop) as [Hall Hdone]. split; [done|]. intros Hff Hcf.
  destruct HInv as [G HI]. apply NoDup_Permutation.
  - eapply NoDup_fmap_1. rewrite started_pids. apply (inv_once _ _ _ _ _ _ _ HI).
  - apply (NoDup_fmap_1 (λ x, x.1.1)). rewrite <-list_fmap_compose. apply (script_NoDup io ls 0 []).
  - intros [[q argv] fds]. rewrite elem_of_started, list_elem_of_fmap. split.
    + intros Hlog. destruct (inv_log _ _ _ _ _ _ _ HI _ _ _ Hlog) as (after & Hj & _). eexists. by split; [|exact Hj].
    + intros (j & [= -> -> ->] & Hj). by apply Hdone.
Qed.

(** * A run *)

(** All programs read their standard input to its end. *)
Definition all_eof (q : path) : bool := true.

(** The first process that can make a step makes it, [n] times. *)
Definition first_step (s : sys) : option sys :=
  head (omap (λ x : path * sh_proc, match step false false all_eof x.1 true 0 s with Some s' => Some s' | None => step false false all_eof x.1 true 1 s end)
         (map_to_list (s_procs s))).
Fixpoint drive (n : nat) (s : sys) : sys * nat :=
  match n with
  | O => (s, 0%nat)
  | S n => let '(s1, k) := drive n s in match first_step s1 with Some s2 => (s2, S k) | None => (s1, k) end
  end.

Lemma first_step_step s s' : first_step s = Some s' → ∃ q pick, step false false all_eof q true pick s = Some s'.
Proof.
  unfold first_step. intros ([q p] & _ & E)%head_Some_elem_of%list_elem_of_omap. cbn in E.
  destruct (step false false all_eof q true 0 s) eqn:E0; [injection E as ->|]; eauto.
Qed.

Lemma drive_steps n s : steps false false all_eof (drive n s).2 s (drive n s).1.
Proof.
  induction n as [|n IH]; cbn [drive]; [constructor|]. destruct (drive n s) as [s1 k]. cbn in IH.
  destruct (first_step s1) as [s2|] eqn:E; [|done]. destruct (first_step_step _ _ E) as (q & pick & Hs). by econstructor.
Qed.

(** "a <f | b; c &" and "d". *)
Definition demo_script : list (list Z) := [chars "a <f | b; c &" ++ [10]; chars "d" ++ [10]].
Definition demo_io : list obj := [Given 0; Given 1; Given 2].

Lemma demo_typed : Forall typed demo_script.
Proof.
  repeat constructor; unfold typed.
  - exists (chars "a <f | b; c &"). split_and!; [done| |vm_compute; lia]. apply (bool_decide_unpack _). by vm_compute.
  - exists (chars "d"). split_and!; [done| |vm_compute; lia]. apply (bool_decide_unpack _). by vm_compute.
Qed.

Lemma shell_runs_plan_witness :
  let s := (drive 100 (boot (sh_main 3) demo_io (concat demo_script))).1 in
  started s = [([1; 0; 0]%nat, [chars "a"], std_fds [Opened (chars "f") 0; PipeW [0; 0]%nat 0; Given 2]);
               ([2; 0; 0]%nat, [chars "b"], std_fds [PipeR [0; 0]%nat 0; Given 1; Given 2]);
               ([1; 0]%nat, [chars "c"], std_fds demo_io);
               ([1]%nat, [chars "d"], std_fds demo_io)] ∧
  NoDup ((λ x, x.1.1) <$> started s).
Proof.
  split; [by vm_compute|].
  exact (proj1 (shell_runs_plan false false all_eof demo_io demo_script 3 _ _ eq_refl demo_typed (le_n 3) (drive_steps _ _))).
Defined.

Lemma demo_no_pipes r i : PipeR r i ∉ demo_io ∧ PipeW r i ∉ demo_io.
Proof. unfold demo_io. split; rewrite !elem_of_cons, elem_of_nil; naive_solver. Qed.

Lemma shell_completes_witness :
  let r := drive 100 (boot (sh_main 3) demo_io (concat demo_script)) in
  forallb (λ x, negb (alive x.2)) (map_to_list (s_procs r.1)) = true ∧ (40 < r.2)%nat ∧ (r.2 ≤ 2 + script_cost demo_script)%nat.
Proof.
  split; [by vm_compute|]. split; [apply Nat.ltb_lt; by vm_compute|].
  exact (proj1 (shell_completes false false all_eof demo_io demo_script 3 _ _ eq_refl demo_no_pipes demo_typed (le_n 3) (drive_steps _ _))).
Defined.
